(* ===== verification/_CoqProject ===== *)
-Q . S2P
Prelude.v
Session.v
GoLib.v
AclPolicy.v
AclCompile.v
AclParse.v
FlowTable.v
FlowConc.v
PeerTable.v
Dispatcher.v
AddrText.v
Registry.v
SignedMsg.v
Bus.v
Server.v
Tofu.v
Noise.v
Handshake.v
Relay.v
RelayService.v
NatSignal.v
Nat.v
Coexist.v
Dns.v
CoordClient.v
Membership.v
Route.v
Config.v
Mdns.v
Daemon.v
Wiring.v
Login.v
Float64.v
RateLimit.v
Redact.v
Gather.v
Cli.v
Tun.v
Lifecycle.v
Deploy.v
Node.v
Control.v
Device.v
Services.v
