(* ===== verification/Prelude.v ===== *)
(** * Veld: a verification library for the mesh VPN

    Veld connects machines by encrypted tunnels.  A daemon on each machine reads
    packets from a TUN device, seals them under a session with the peer that owns
    the destination address and sends them over UDP; what arrives is opened,
    checked against the peer's addresses and against an access policy, and
    written to the TUN.  A coordinator gives machines their addresses and tells
    them about each other; a relay connects machines that cannot reach each
    other.  The library models the part of this that decides who gets what:
    sessions and the handshakes that make them, pins, policies, the flow table,
    the peer table, the data plane that composes them, the coordinator's
    registry, event bus and requests, the relay, NAT traversal, the local name
    server, the analysis of other VPNs on the host, the coordinator's client,
    routes, configuration and keys, LAN discovery, the daemon that ties them
    together, and the programs: the command line, the daemon's process, the
    coordinator, the relay and the tray.

    ** Files and what they model (paths under src/)

    - [Prelude]: results, machine integers, bytes, slices, strings, the shared
      lemmas, tactics and hint databases.
    - [GoLib]: hex, base64, the number scanner and string functions of Go's
      standard library.  [AddrText]: the text forms of [net/netip] addresses and
      prefixes.  [PeerTable.Netip]: their values.
    - [Session]: internal/session.  [Window] is the replay window, word by word;
      [Session] is [New], [Encrypt], [Decrypt], [NeedsRekey] over an abstract
      cipher; [Concurrent] is [Decrypt] as the steps of interleaved threads.
    - [AclPolicy]: internal/acl/policy.go, from the decoded TOML to the validated
      policy.
    - [AclCompile]: internal/acl/compile.go and loader.go.  [Compiled] is the
      compiled policy and its decision, [Combined] the combination of deciders,
      [Loader] the loader with its file checks, reloads and watch events.
    - [AclParse]: internal/acl/parse.go, the parser that turns a packet into a
      flow and a kind.
    - [FlowTable]: internal/acl/flowtable.go: shards, entries in a heap, the
      doubly linked LRU list.  [FlowConc]: the same operations at the grain of their
      locks, by interleaved goroutines.
    - [PeerTable]: internal/peer: the entries and the four indexes over them.
    - [Dispatcher]: internal/dataplane.  [Wire] is the packet header, [Reject]
      the packets injected for denied connections, [Dispatcher] the handlers
      [handleTunPacket] and [handleUDPPacket] over all of the above.
    - [Registry]: coord/server/registry.go and sweep.go: networks, peers, address
      allocation, the stale-peer sweep.
    - [SignedMsg]: internal/crypto/call.go and register.go, the messages a peer
      signs for the coordinator; [Replay] is coord/server/replay.go.
    - [Bus]: coord/server/bus.go: subscriptions, channels as buffers in a heap,
      signals held for a peer that is away.
    - [Server]: coord/server/server.go: every request, the turns of a watch
      stream and the clean-ups, over [Registry], [Bus] and [SignedMsg] and the
      interfaces of coord/core (the class [Backend], of which the community
      edition is an instance).
    - [Tofu]: internal/tofu/store.go: the pins of keys to addresses and their
      file.
    - [Noise]: internal/crypto/keys.go and noise.go: identities, the signatures
      and payloads of the handshake messages.  [Handshake]:
      internal/handshake/manager.go: initiations, answers, retries, the replay
      state, over [Noise] and [PeerTable]; the pin check is the class [Pinning],
      which [Tofu] implements.
    - [Relay]: internal/relay: frames, the client's handshake, the proxy's
      datagrams.  [RelayService]: relay/service.go: the critical sections of its
      goroutines as steps that interleave; a splice takes a step per frame and
      blocks while its client is silent.
    - [NatSignal]: internal/nat/signal.go and stun.go: sealed signals between
      peers, STUN requests and answers.  [Nat]: internal/nat/manager.go: the
      negotiations, their candidates, probes and answers; a wait is a [select]
      between its channel and a context with its deadline.
    - [Coexist]: internal/coexist/coexist.go: other VPNs, colliding routes and
      replacement prefixes in a snapshot of the host.  [Gather]: the rest of
      internal/coexist: how the snapshot is made of the kernel's answers and of the
      output of commands.
    - [Dns]: internal/dns/resolver.go over the daemon's lookup in [PeerTable].
    - [CoordClient]: internal/coord/client.go: its requests, the events it handles
      and the loop that connects again.  What the daemon does in its callbacks is
      the class [Hooks]; [QuietHooks] says which parts of the peer table they leave
      alone.  [Membership] composes it with [Server] and [Bus] along runs, [Login]
      its requests with the coordinator's checks.
    - [Route]: internal/route: which routes of peers are accepted, and the Linux
      manager over a kernel ([RouteHandle], [RouteLaws]).
    - [Config]: internal/config: the validation of the configuration, the key file.
    - [Mdns]: internal/mdns/discovery.go: what is advertised on the LAN and what is
      made of the answers.
    - [Daemon]: the functions of internal/daemon: names and endpoints, the table of
      configured peers, the status and the control socket.  [Wiring]: its callbacks,
      [NewFromConfig] and [Stop]; it is an instance of [Hooks].  [Node]: the wiring of
      dispatcher and handshake manager in [New].  [Lifecycle]: the goroutines of the
      dispatcher and of the daemon, how they are started and stopped (a read of an
      open device may block for ever), and the main functions of cmd/veld-daemon and of [veld up --foreground].
    - [RateLimit]: coord/server/ratelimit.go and proxyproto.go, over [Float64], Go's
      floating-point numbers.
    - [Redact]: internal/logsafe: addresses in logs.
    - [Tun]: internal/tun/tun_netstack.go, the userspace TUN, as interleaved steps.
      [Device]: the other files of internal/tun: which device is made, the kernel
      devices of three systems, the device in memory.
    - [Cli]: cmd/veld: its configuration, login, join, up, down and the pins.
      [Deploy]: the programs put together: cmd/veld-coord, the start of
      cmd/veld-daemon, what the daemon makes of its configuration, whether the
      two connect (TLS or plaintext on both sides), default paths.
    - [Control]: the clients of the control socket: [veld status], [veld down] and
      the tray (tray/main.go, tray/ipc.go); and when a daemon stores the status they
      see.
    - [Services]: the loops beside the components (the summary of drops, SIGHUP, the
      sweep, browsing the LAN), the STUN query, the exchange of a pasted code,
      cmd/veld-relay.

    A struct is a record, an enum an inductive type, a function a definition with
    the source's name.  State is passed explicitly; a handler returns the new
    state and the events it causes outside.  An error is a value of [result]; a
    run-time panic is [None] in the option monad.  Pointers are used where the
    program shares objects: flow entries, peer entries and sessions live in
    heaps.  Integers keep their width where they wrap ([u16], [u64], [i64]).

    ** Parameters

    Code outside the repository is an argument: the Noise ciphers (a record of
    operations with the law that opening inverts sealing) and the Noise handshake
    (the classes [NoiseLib] and [NoiseChannel], with what they promise in
    [NoiseIK], [CipherStreams] and [ChannelIK]), the box and key conversion of
    signals ([SignalCrypto], [SignalLaws]) and their JSON ([SignalCodec]), the
    kernel's routes ([RouteHandle], [RouteLaws]), the JSON of the key file
    ([KeystoreCodec], [KeystoreCodecLaws]), the TOML of the configuration
    ([TomlCodec], [TomlCodecLaws]), Ed25519 and SHA-256, the other TOML and JSON
    decoders, the hash of the flow table, the bbolt store (any [FinMap]), the
    clock, the operating system's file attributes, whether a write succeeds or is cut
    short, whether a TLS certificate verifies for an address, and which locks other
    goroutines hold when a [TryLock] runs.  That a signature is not a forgery
    ([unforged] in [SignedMsg] and [NatSignal]) says of the presented signature only
    that its key made it over one of the messages it signs, the self-test and the
    X25519 key of [Noise.Generate] included.  Outside [Session.Concurrent],
    [FlowConc], [Bus], [RelayService], [Tun], [Device] and [Lifecycle], which
    interleave critical sections or goroutines, an operation runs as a whole; so
    [FlowTable] and the handlers of [Dispatcher] are about operations one after
    another.

    ** Bounds and fuel

    [AclParse.walk] gets the packet's length plus one as fuel; each extension
    header takes at least eight bytes, so it always returns
    ([ParsePacket_total]).  The eviction loop of the flow table gets a number of
    rounds: one suffices when no other goroutine holds a victim's shard
    ([Lookup_refines]), and no number does while one holds the shard of the
    oldest entry ([eviction_spins]).  The loops over a network's addresses get
    the size of the prefix plus one ([Registry.for_hosts_total], IPv4).  The
    loops over a byte stream in [Relay] get its length: a frame takes at least
    two bytes.  So do the attributes of a STUN answer ([parse_attrs_fuel]) and the
    labels of a DNS question ([read_labels_fuel]).  A run of [Lifecycle] is a list of
    events; [dispatcher_drains] bounds the turns that are left after [Stop] by twice
    the number of goroutines.

    ** What the theorems show

    - Sessions: the ring bitmap implements the set of seen nonces
      ([checkAndMark_refines], [window_exact]); over a network that loses,
      reorders and duplicates, each packet is delivered once and intact
      ([delivery]), also by concurrent receivers ([concurrent_at_most_once]); no
      nonce is used twice ([encrypt_nonces]).
    - Policies: what validates is well formed ([validateAndCompile_ok]) in every
      map order, decisions are those of the file ([Decide_correct]) and combine
      by conjunction ([Combine_allows]); the loader enforces only valid policies
      ([loader_enforces_valid]) and fails atomically ([Load_atomic]).
    - Handshakes: two peers that know each other get sessions that understand each
      other ([handshake_completes]); only the key's holder gets one
      ([session_authenticated]), not with a recorded initiation
      ([init_not_replayed]), not for an address pinned to another key
      ([pinned_elsewhere_no_session]); retries are spaced ([inits_spaced]).
    - Pins: the store implements trust on first use ([Check_refines]), is what its
      file says ([reload_restores]), keeps its indexes ([tofu_invariant]) and an
      address for its holder ([pinned_address_refused]).
    - Packets and flows: the parser is total and sees through extension headers
      ([ParsePacket_total], [ParsePacket_ext_transparent]); keys identify the two
      directions of a connection ([NormalizeFlowKey_bidirectional]); the table
      implements a bounded LRU map when operations run one after another
      ([Lookup_refines], [ExpireOldFlows_refines], [table_invariant]); when they
      interleave, shards, locks and counter stay right and the limit is exceeded by
      less than the number of inserting goroutines ([concurrent_flows_bounded],
      tight by [limit_is_tight]), while the list can be cut
      ([eviction_race_corrupts], [race_loses_entry]).  An undisturbed goroutine does
      what the operation says ([solo_Lookup], [solo_UpdateState],
      [solo_RemoveFlow]).
    - Peers: the indexes agree ([peer_table_invariant]), no peer takes another's
      slots ([no_takeover]), authenticated moves work ([ClaimEndpoint_moves]).
    - Data plane: what reaches the local stack or leaves the machine is
      authorized ([inbound_authorized], [outbound_authorized],
      [delivered_flow_was_allowed]), but for outbound packets without a protocol,
      which no policy is asked about ([unpoliced_packet_leaves]), and the handlers return ([handlers_return]).  The
      first packet between two machines sets off a handshake and arrives
      ([first_packet_delivered]).
    - Registry: its invariant over all operations, store failures and restarts
      ([registry_invariant]), the allocation order ([register_allocates]), the
      machine limit ([machine_limit_respected]), registering again
      ([reregister_keeps_address]) and the sweep ([sweep_exact]).
    - Coordinator: requests keep the server's invariant and never panic
      ([server_invariant], [bus_never_panics]); a row changes only by its owner
      ([row_change_authorized]); signals come from the peer they name
      ([signal_authorized]) and are held for one that is away
      ([held_signals_delivered]); what is signed determines the call
      ([accepted_call_was_signed], [accepted_register_was_signed]), which is
      accepted once but for an edge ([replay_only_at_edge]).
    - Relay: its books are exact in every interleaving ([relay_books_exact]), after
      [Close] it releases everything ([relay_drains]), a client gets through
      ([dial_reaches_relay]) once per message 1 ([msg1_not_replayed]), and the
      path carries the daemon's datagrams unchanged ([relay_path_delivers]).
    - NAT traversal: two peers whose signals and probes arrive before the deadlines
      find endpoints of each other ([hole_punch_completes]), later ones time out
      ([unanswered_times_out], [late_negotiations]); an endpoint is reported only when the
      peer offered it and answered from it ([discovered_endpoint_confirmed]);
      signals are authentic ([signal_authentic]) and survive the wire
      ([signal_roundtrip]); the manager's memory is bounded
      ([nat_manager_bounded]); STUN answers are read back
      ([stun_reports_address]).
    - The host: conflicts are reported exactly when longest-prefix match takes
      mesh addresses elsewhere ([collisions_exact]) and a suggested prefix is free
      ([suggestion_is_free]); names of peers resolve to their addresses
      ([peer_query_answered]); accepted routes capture nothing of the mesh or the
      host itself ([peer_route_safe]) and closing takes back what was installed
      ([close_restores_routes]).
    - The daemon and its coordinator: the registry reaches the peer table
      ([membership_mirrored]) and from there the routes, where the kernel takes them
      ([peer_routes_installed]);
      an honest client is let in ([honest_client_admitted]), with a name and an
      endpoint the coordinator takes ([advertised_accepted]); announcements on the
      LAN displace nobody ([mdns_cannot_displace]) and reach those who listen
      ([advertised_peer_found]); the identity outlives the process
      ([identity_persists]); configured peers are known ([configured_peers_known]),
      mismatches are logged once in ten minutes ([mismatch_log_rate_limited]) and
      stopping gives the host back ([stop_gives_back]).
    - The programs: from an empty coordinator with TLS and a machine without a
      configuration to a member of the network ([first_machine_joins],
      [login_then_up]), which it does not become over plaintext
      ([plaintext_unreachable]); a signal
      ends the daemon's process only when all is stopped ([signal_exit_clean]), and
      the data plane does stop ([dispatcher_drains]); the tray shows what it polled
      ([tray_shows_daemon]); a SIGHUP is harmless ([sighup_safe]).
    - The edges: requests of a client are limited, rounding included
      ([rate_limit_holds], [paced_client_admitted]); addresses in logs are cut
      ([scrub_hides_address]); installed routes are seen in the snapshot
      ([installed_route_seen], [netsh_table_read], [matchIfaceName_longest]); the
      sweep keeps who is connected or active ([sweepLoop_exact]).
    - Devices: after [Close] the userspace TUN is quiet and closing ends
      ([closed_is_quiet], [close_completes]); a kernel device that cannot be set up is
      not left behind ([create_clean]) and its mask is the prefix's
      ([netmask_correct]); the device in memory keeps packets in order
      ([mem_in_order]).
    - Where the code does something else than its documentation says, a theorem
      says what it does: [reply_to_new_flow_dropped], [swept_address_lost],
      [departed_peer_blocks_address], [rejoin_drops_session],
      [static_mesh_route_installed], [shared_route_removed],
      [eviction_race_corrupts], [eviction_spins], [missing_policy_denies_all],
      [debounce_loses_update], [warned_rule_matches], [parsePort_ignores_suffix],
      and the lemmas [network_policy_panics], [subnet_traffic_dropped],
      [established_not_rechecked], [quoted_v4_keeps_outer_prefix],
      [unsaved_pin_lost], [reconnects_spliced_to_itself], [early_signal_dropped],
      [mapped_address_first], [withdrawn_route_stays], [failed_start_leaks],
      [link_local_within], [padded_network_id], [multicast_endpoint_refused].  For the
      programs: [status_frozen], [join_locks_out], [forget_undone_by_daemon],
      [cli_forget_undone], [torn_key_file],
      [shutdown_exits_early], [foreground_stops_once], [late_tun_hangs],
      [static_device_read_twice], [summary_total], [scrub_bare6], [long_length].

    ** Not modelled

    The libraries: the cryptography, gRPC and the generated code, the HTTP server and
    client, bbolt, the multicast and file-watching libraries, the network stack of the
    userspace TUN; the kernel and the commands that are run, whose answers are
    arguments.  Flag parsing, usage texts and the wording of log lines; the drawing of
    the tray's icons.  Text is bytes: case folding is that of ASCII, and JSON strings
    are taken to be valid UTF-8, as all that the daemon puts there is.  The registry
    theorems are about IPv4 networks: the IPv6 text forms are modelled, their round
    trip is not proved. *)
From Stdlib Require Import ZArith Lia.
From stdpp Require Import base numbers list gmap strings.

#[global] Open Scope Z_scope.

(** ** Notation scope of the development *)
Declare Scope veld_scope.
Delimit Scope veld_scope with veld.

(** ** Go results

    [result E A] is the Go pair [(A, error)] of a function that returns a
    meaningful value only when the error is nil. *)
Inductive result (E A : Type) : Type :=
| Ok (a : A)
| Err (e : E).
Arguments Ok {E A} a.
Arguments Err {E A} e.

Definition result_bind {E A B} (m : result E A) (k : A -> result E B) : result E B :=
  match m with
  | Ok a => k a
  | Err e => Err e
  end.

Notation "x <-! m ; k" := (result_bind m (fun x => k))
  (at level 100, m at next level, right associativity) : veld_scope.

Definition is_ok {E A} (m : result E A) : bool :=
  match m with Ok _ => true | Err _ => false end.

(** A check that only fails or continues: Go's [if err := ...; err != nil]. *)
Definition guard_err {E} (b : bool) (e : E) : result E unit :=
  if b then Ok tt else Err e.

Lemma result_bind_Ok {E A B} (m : result E A) (k : A -> result E B) b :
  result_bind m k = Ok b <-> exists a, m = Ok a /\ k a = Ok b.
Proof. destruct m; cbn; naive_solver. Qed.


(** ** Machine integers

    A w-bit unsigned integer is a [Z] in [0, 2^w); [wrap w] is the reduction
    Go applies to every unsigned operation.  [i64] is the two's complement
    reading of a 64-bit word. *)
Definition wrap (w x : Z) : Z := x mod 2 ^ w.
Definition u64 (x : Z) : Z := wrap 64 x.
Definition u32 (x : Z) : Z := wrap 32 x.
Definition u16 (x : Z) : Z := wrap 16 x.
Definition i64 (x : Z) : Z := (x + 2 ^ 63) mod 2 ^ 64 - 2 ^ 63.

Lemma wrap_small w x : 0 <= x < 2 ^ w -> wrap w x = x.
Proof. apply Z.mod_small. Qed.

Lemma wrap_range w x : 0 <= w -> 0 <= wrap w x < 2 ^ w.
Proof. intros; apply Z.mod_pos_bound; lia. Qed.

Lemma i64_small x : - 2 ^ 63 <= x < 2 ^ 63 -> i64 x = x.
Proof. intros; unfold i64; rewrite Z.mod_small; lia. Qed.

Lemma i64_range x : - 2 ^ 63 <= i64 x < 2 ^ 63.
Proof. unfold i64. pose proof (Z.mod_pos_bound (x + 2 ^ 63) (2 ^ 64)). lia. Qed.

Lemma i64_wrap x : i64 (u64 x) = i64 x.
Proof.
  unfold i64, u64, wrap. f_equal.
  rewrite Zplus_mod_idemp_l. done.
Qed.

(** ** Bytes

    A [[]byte] or a [[n]byte] is a list of [Z]; [bytes_ok] says every element
    is a byte. *)
Definition byte_ok (b : Z) : Prop := 0 <= b < 256.
Definition bytes_ok (l : list Z) : Prop := Forall byte_ok l.

#[export] Instance byte_ok_dec b : Decision (byte_ok b).
Proof. unfold byte_ok. apply _. Defined.
#[export] Instance bytes_ok_dec l : Decision (bytes_ok l).
Proof. unfold bytes_ok. apply _. Defined.

(** A Go slice that may be nil: [None] is the nil slice. *)
Abbreviation goslice := (option (list Z)).

(** Big-endian integers, as [encoding/binary.BigEndian] reads and writes them. *)
Definition be_get (l : list Z) : Z := foldl (fun acc b => acc * 256 + b) 0 l.

Fixpoint be_put (n : nat) (v : Z) : list Z :=
  match n with
  | O => []
  | S m => (v / 256 ^ Z.of_nat m) mod 256 :: be_put m v
  end.

Lemma be_get_acc l a :
  foldl (fun acc b => acc * 256 + b) a l = a * 256 ^ Z.of_nat (length l) + be_get l.
Proof.
  revert a. induction l as [|b l IH]; intros a; cbn [foldl length].
  - unfold be_get. cbn. lia.
  - rewrite IH.
    change (be_get (b :: l)) with (foldl (fun acc b => acc * 256 + b) (0 * 256 + b) l).
    rewrite (IH (0 * 256 + b)).
    rewrite Nat2Z.inj_succ, Z.pow_succ_r by lia. ring.
Qed.

Lemma be_get_cons b l : be_get (b :: l) = b * 256 ^ Z.of_nat (length l) + be_get l.
Proof. unfold be_get at 1. cbn [foldl]. rewrite be_get_acc. lia. Qed.

Lemma be_get_bound l : bytes_ok l -> 0 <= be_get l < 256 ^ Z.of_nat (length l).
Proof.
  induction 1 as [|b l Hb Hl IH]; [cbn; lia|].
  rewrite be_get_cons. cbn [length].
  rewrite Nat2Z.inj_succ, Z.pow_succ_r by lia. unfold byte_ok in Hb. nia.
Qed.

Lemma length_be_put n v : length (be_put n v) = n.
Proof. induction n; cbn; congruence. Qed.

Lemma be_put_ok n v : bytes_ok (be_put n v).
Proof.
  induction n as [|n IH]; cbn; constructor; [|done].
  unfold byte_ok. apply Z.mod_pos_bound. lia.
Qed.

Lemma be_get_put n v : be_get (be_put n v) = v mod 256 ^ Z.of_nat n.
Proof.
  induction n as [|n IH]; [cbn; by rewrite Z.mod_1_r|].
  cbn [be_put]. rewrite be_get_cons, IH, length_be_put.
  rewrite Nat2Z.inj_succ, Z.pow_succ_r, (Z.mul_comm 256) by lia.
  rewrite (Z.rem_mul_r v) by lia. lia.
Qed.

Lemma be_get_inj l1 l2 :
  bytes_ok l1 -> bytes_ok l2 -> length l1 = length l2 ->
  be_get l1 = be_get l2 -> l1 = l2.
Proof.
  intros H1. revert l2. induction H1 as [|b1 l1 Hb1 Hl1 IH]; intros [|b2 l2] H2 Hlen Heq; try done.
  inversion H2; subst. cbn in Hlen. injection Hlen as Hlen.
  rewrite !be_get_cons, <- Hlen in Heq.
  pose proof (be_get_bound l1 Hl1) as B1. pose proof (be_get_bound l2 ltac:(done)) as B2.
  rewrite <- Hlen in B2.
  assert (b1 = b2) as -> by nia.
  f_equal. apply IH; [done..|lia].
Qed.

Lemma be_put_get l : bytes_ok l -> be_put (length l) (be_get l) = l.
Proof.
  intros Hl. apply be_get_inj.
  - apply be_put_ok.
  - done.
  - apply length_be_put.
  - rewrite be_get_put. apply Z.mod_small, be_get_bound, Hl.
Qed.

Lemma be_put_inj n v1 v2 :
  0 <= v1 < 256 ^ Z.of_nat n -> 0 <= v2 < 256 ^ Z.of_nat n ->
  be_put n v1 = be_put n v2 -> v1 = v2.
Proof.
  intros H1 H2 Heq. apply (f_equal be_get) in Heq.
  rewrite !be_get_put, !Z.mod_small in Heq by lia. done.
Qed.

(** ** Slices and run-time panics

    Indexing and slicing are partial: [None] is the Go run-time panic "index
    out of range" (or "slice bounds out of range").  A function that may
    index lives in the option monad and "it never panics" is [is_Some]. *)
Definition idx (l : list Z) (i : nat) : option Z := l !! i.

Definition sub (l : list Z) (i j : nat) : option (list Z) :=
  if decide (i <= j <= length l)%nat then Some (take (j - i) (drop i l)) else None.

Definition sub_from (l : list Z) (i : nat) : option (list Z) := sub l i (length l).

(** [binary.BigEndian.Uint16/32/64]: they panic on a slice that is too short. *)
Definition be_uint (n : nat) (l : list Z) : option Z :=
  if decide (n <= length l)%nat then Some (be_get (take n l)) else None.

Lemma bind_Some_eq {A B} (k : A -> option B) (x : A) : mbind k (Some x) = k x.
Proof. reflexivity. Qed.

Lemma idx_Some l i : (i < length l)%nat -> is_Some (idx l i).
Proof. apply lookup_lt_is_Some_2. Qed.

Lemma sub_Some l i j : (i <= j <= length l)%nat -> sub l i j = Some (take (j - i) (drop i l)).
Proof. intros. unfold sub. by rewrite decide_True. Qed.

Lemma sub_from_Some l i : (i <= length l)%nat -> sub_from l i = Some (drop i l).
Proof.
  intros. unfold sub_from. rewrite sub_Some by lia.
  rewrite take_ge; [done|]. rewrite length_drop. lia.
Qed.

Lemma sub_length l i j m : sub l i j = Some m -> length m = (j - i)%nat.
Proof.
  unfold sub. case_decide; [|done]. intros [= <-].
  rewrite length_take, length_drop. lia.
Qed.

Lemma be_uint_Some n l : (n <= length l)%nat -> be_uint n l = Some (be_get (take n l)).
Proof. intros. unfold be_uint. by rewrite decide_True. Qed.

(** [copy(dst, src)] on equal windows: overwrite [length src] bytes at [i]. *)
Definition splice (l : list Z) (i : nat) (src : list Z) : list Z :=
  take i l ++ src ++ drop (i + length src) l.

Lemma length_splice l i src :
  (i + length src <= length l)%nat -> length (splice l i src) = length l.
Proof. intros. unfold splice. rewrite !length_app, length_take, length_drop. lia. Qed.

Definition zeros (n : nat) : list Z := replicate n 0.

Lemma zeros_ok n : bytes_ok (zeros n).
Proof. apply Forall_replicate. unfold byte_ok. lia. Qed.

Lemma bytes_ok_app l1 l2 : bytes_ok (l1 ++ l2) <-> bytes_ok l1 /\ bytes_ok l2.
Proof. apply Forall_app. Qed.

Lemma bytes_ok_take n l : bytes_ok l -> bytes_ok (take n l).
Proof. apply Forall_take. Qed.

Lemma bytes_ok_drop n l : bytes_ok l -> bytes_ok (drop n l).
Proof. apply Forall_drop. Qed.

(** ** Strings

    A Go string is a Rocq [string]: a sequence of 8-bit characters. *)
Definition ascii_code (c : Ascii.ascii) : Z := Z.of_N (Ascii.N_of_ascii c).

Fixpoint bytes_of_string (s : string) : list Z :=
  match s with
  | EmptyString => []
  | String c s' => ascii_code c :: bytes_of_string s'
  end.

Lemma ascii_code_ok c : byte_ok (ascii_code c).
Proof. unfold byte_ok, ascii_code. pose proof (Ascii.N_ascii_bounded c). lia. Qed.

Lemma ascii_code_inj c1 c2 : ascii_code c1 = ascii_code c2 -> c1 = c2.
Proof.
  intros H. apply N2Z.inj in H. rewrite <- (Ascii.ascii_N_embedding c1), H.
  apply Ascii.ascii_N_embedding.
Qed.

Lemma bytes_of_string_ok s : bytes_ok (bytes_of_string s).
Proof. induction s; cbn; constructor; auto using ascii_code_ok. Qed.

Lemma bytes_of_string_inj s1 s2 : bytes_of_string s1 = bytes_of_string s2 -> s1 = s2.
Proof.
  revert s2. induction s1 as [|c1 s1 IH]; intros [|c2 s2] H; try done.
  cbn in H. injection H as Hc Hs. f_equal; auto using ascii_code_inj.
Qed.

Lemma bytes_of_string_app s1 s2 :
  bytes_of_string (s1 +:+ s2) = bytes_of_string s1 ++ bytes_of_string s2.
Proof.
  induction s1 as [|c s1 IH]; [done|].
  change (String c s1 +:+ s2) with (String c (s1 +:+ s2)). cbn. by rewrite IH.
Qed.

(** [strings.ToLower] and [strings.EqualFold] on ASCII text. *)
Definition lower_code (n : N) : N :=
  if decide (65 <= n <= 90)%N then (n + 32)%N else n.
Definition lower_ascii (c : Ascii.ascii) : Ascii.ascii :=
  Ascii.ascii_of_N (lower_code (Ascii.N_of_ascii c)).

Fixpoint to_lower (s : string) : string :=
  match s with
  | EmptyString => EmptyString
  | String c s' => String (lower_ascii c) (to_lower s')
  end.

Definition equal_fold (s1 s2 : string) : bool := String.eqb (to_lower s1) (to_lower s2).

Lemma lower_ascii_idem c : lower_ascii (lower_ascii c) = lower_ascii c.
Proof. destruct c as [[] [] [] [] [] [] [] []]; reflexivity. Qed.

Lemma to_lower_idem s : to_lower (to_lower s) = to_lower s.
Proof. induction s as [|c s IH]; cbn; [done|]. by rewrite lower_ascii_idem, IH. Qed.

(** ** Automation shared by the components *)
Create HintDb veld.
Create Rewrite HintDb veld.
#[export] Hint Resolve be_put_ok zeros_ok bytes_of_string_ok bytes_ok_take bytes_ok_drop
  ascii_code_ok : veld.
#[export] Hint Rewrite length_be_put : veld.

(** Case analysis on the scrutinee of the first [match] or [if] of the goal,
    keeping the equation. *)
Ltac case_step :=
  match goal with
  | |- context [match ?x with _ => _ end] => destruct x eqn:?
  end.

(** The same in a hypothesis. *)
Ltac case_in H :=
  match type of H with
  | context [match ?x with _ => _ end] => destruct x eqn:?
  end.

(** Turn boolean comparisons of integers into propositions. *)
Ltac bool_to_prop :=
  repeat match goal with
  | H : (_ =? _) = true |- _ => apply Z.eqb_eq in H
  | H : (_ =? _) = false |- _ => apply Z.eqb_neq in H
  | H : (_ <? _) = true |- _ => apply Z.ltb_lt in H
  | H : (_ <? _) = false |- _ => apply Z.ltb_ge in H
  | H : (_ <=? _) = true |- _ => apply Z.leb_le in H
  | H : (_ <=? _) = false |- _ => apply Z.leb_gt in H
  | H : (_ && _) = true |- _ => apply andb_true_iff in H; destruct H
  | H : (_ || _) = false |- _ => apply orb_false_iff in H; destruct H
  | H : negb _ = true |- _ => apply negb_true_iff in H
  | H : negb _ = false |- _ => apply negb_false_iff in H
  end.

(** Peel the binds of a successful run. *)
Ltac ok_inv :=
  repeat match goal with
  | H : result_bind _ _ = Ok _ |- _ => apply result_bind_Ok in H as (? & ? & H)
  | H : guard_err _ _ = Ok _ |- _ => unfold guard_err in H
  | H : (if ?b then _ else _) = Ok _ |- _ => destruct b eqn:?; try discriminate H
  | H : match ?x with Ok _ => _ | Err _ => _ end = Ok _ |- _ => destruct x eqn:?; try discriminate H
  | H : Ok _ = Ok _ |- _ => injection H as H
  | H : Err _ = Ok _ |- _ => discriminate H
  end; subst.
