(* ===== verification/Session.v ===== *)
(** * Sessions: the replay window, encryption and decryption

    Models [src/internal/session/window.go] and [src/internal/session/session.go].

    - [Window]: the 2048-bit sliding window over received nonces, word by word
      as the code stores it, refined by an abstract set of accepted nonces.
    - [Session]: [New], [Encrypt], [Decrypt], [NeedsRekey] over an abstract
      [noise.Cipher] (third-party code, a record of operations).
    - [Concurrent]: [Decrypt] as three atomic steps of interleaved threads:
      the mutex is released between the check and the mark. *)
From Stdlib Require Import ZArith Lia.
From stdpp Require Import base numbers list gmap strings.
From S2P Require Import Prelude.

Module Window.

(** [WindowSize] and [bitmapWords]. *)
Definition WindowSize : Z := 2048.
Definition bitmapWords : Z := WindowSize / 64.

Record replayWindow := {
  rw_max : Z;            (* uint64 *)
  rw_bitmap : list Z;    (* [bitmapWords]uint64 *)
  rw_inited : bool
}.

(** The zero value of the struct. *)
Definition zero : replayWindow :=
  {| rw_max := 0; rw_bitmap := replicate (Z.to_nat bitmapWords) 0; rw_inited := false |}.

Definition upd_word (w : replayWindow) (n : Z) (f : Z -> Z -> Z) : replayWindow :=
  let pos := n mod WindowSize in
  {| rw_max := rw_max w;
     rw_bitmap := alter (fun x => f x (Z.shiftl 1 (pos mod 64))) (Z.to_nat (pos / 64)) (rw_bitmap w);
     rw_inited := rw_inited w |}.

Definition setBit (w : replayWindow) (n : Z) : replayWindow := upd_word w n Z.lor.
Definition clearBit (w : replayWindow) (n : Z) : replayWindow := upd_word w n Z.ldiff.

Definition getBit (w : replayWindow) (n : Z) : bool :=
  let pos := n mod WindowSize in
  negb (Z.land (default 0 (rw_bitmap w !! Z.to_nat (pos / 64))) (Z.shiftl 1 (pos mod 64)) =? 0).

(** [check] reports whether [n] would be accepted, without recording it. *)
Definition check (w : replayWindow) (n : Z) : bool :=
  if negb (rw_inited w) || (rw_max w <? n) then true
  else (u64 (rw_max w - n) <? WindowSize) && negb (getBit w n).

Definition set_max (w : replayWindow) (n : Z) : replayWindow :=
  {| rw_max := n; rw_bitmap := rw_bitmap w; rw_inited := rw_inited w |}.

(** The body of [checkAndMark] for [n > w.max]: the positions the window
    slides over are cleared one by one, or all at once on a long jump. *)
Definition slide (w : replayWindow) (n : Z) : replayWindow :=
  let advance := u64 (n - rw_max w) in
  if WindowSize <=? advance
  then {| rw_max := rw_max w; rw_bitmap := (fun _ => 0) <$> rw_bitmap w; rw_inited := rw_inited w |}
  else foldl (fun w' i => clearBit w' (u64 (rw_max w + i))) w (seqZ 1 advance).

Definition checkAndMark (w : replayWindow) (n : Z) : replayWindow * bool :=
  if negb (rw_inited w) then
    (setBit {| rw_max := n; rw_bitmap := rw_bitmap w; rw_inited := true |} n, true)
  else if rw_max w <? n then
    (setBit (set_max (slide w n) n) n, true)
  else if WindowSize <=? u64 (rw_max w - n) then (w, false)
  else if getBit w n then (w, false)
  else (setBit w n, true).

(** ** Bits of the bitmap *)

Definition wf (w : replayWindow) : Prop := length (rw_bitmap w) = Z.to_nat bitmapWords.

Lemma land_shiftl_testbit x k : 0 <= k -> negb (Z.land x (Z.shiftl 1 k) =? 0) = Z.testbit x k.
Proof.
  intros Hk. destruct (Z.testbit x k) eqn:E.
  - apply negb_true_iff, Z.eqb_neq. intros H.
    assert (Z.testbit (Z.land x (Z.shiftl 1 k)) k = false) as Hf by (rewrite H; apply Z.bits_0).
    rewrite Z.land_spec, E, Z.shiftl_spec, Z.sub_diag in Hf by lia. done.
  - apply negb_false_iff, Z.eqb_eq. apply Z.bits_inj'. intros i Hi.
    rewrite Z.land_spec, Z.bits_0, Z.shiftl_spec by lia.
    destruct (decide (i = k)) as [->|Hne]; [by rewrite E|].
    assert (Z.testbit 1 (i - k) = false) as ->; [|by rewrite andb_false_r].
    destruct (decide (i < k)); [apply Z.testbit_neg_r; lia|].
    apply Z.bits_above_log2; cbn; lia.
Qed.

Lemma pos_range n : 0 <= n mod WindowSize < 2048.
Proof. apply Z.mod_pos_bound. done. Qed.

Lemma getBit_testbit w n :
  getBit w n = Z.testbit (default 0 (rw_bitmap w !! Z.to_nat (n mod WindowSize / 64)))
                         (n mod WindowSize mod 64).
Proof. unfold getBit. apply land_shiftl_testbit. apply Z.mod_pos_bound. lia. Qed.

Lemma pos_eq_split p q :
  0 <= p -> 0 <= q -> Z.to_nat (p / 64) = Z.to_nat (q / 64) -> p mod 64 = q mod 64 -> p = q.
Proof.
  intros Hp Hq Hd Hm. rewrite (Z.div_mod p 64), (Z.div_mod q 64), Hm by lia.
  apply Z2Nat.inj in Hd; [by rewrite Hd|apply Z.div_pos; lia..].
Qed.

Lemma testbit_shiftl1 k i : 0 <= k -> 0 <= i -> Z.testbit (Z.shiftl 1 k) i = bool_decide (k = i).
Proof.
  intros Hk Hi. rewrite Z.shiftl_1_l.
  case_bool_decide; subst; [by apply Z.pow2_bits_true|by apply Z.pow2_bits_false].
Qed.

Lemma upd_word_wf w n f : wf w -> wf (upd_word w n f).
Proof. unfold wf, upd_word. cbn [rw_bitmap]. by rewrite length_alter. Qed.

Lemma setBit_wf w n : wf w -> wf (setBit w n).
Proof. apply upd_word_wf. Qed.

Lemma clearBit_wf w n : wf w -> wf (clearBit w n).
Proof. apply upd_word_wf. Qed.

#[local] Hint Resolve setBit_wf clearBit_wf : core.

Lemma word_in_range w n : wf w -> is_Some (rw_bitmap w !! Z.to_nat (n mod WindowSize / 64)).
Proof.
  intros Hwf. apply lookup_lt_is_Some_2. unfold wf in Hwf. rewrite Hwf.
  pose proof (pos_range n). apply Z2Nat.inj_lt; try done; [apply Z.div_pos; lia|].
  change bitmapWords with 32. apply Z.div_lt_upper_bound; lia.
Qed.

(** One lemma covers [setBit] and [clearBit]: [f] acts bitwise as [g]. *)
Lemma getBit_upd_word w n m f g :
  wf w -> (forall x y i, Z.testbit (f x y) i = g (Z.testbit x i) (Z.testbit y i)) ->
  (forall b, g b false = b) ->
  getBit (upd_word w n f) m =
    if decide (n mod WindowSize = m mod WindowSize) then g (getBit w m) true else getBit w m.
Proof.
  intros Hwf Hf Hg. rewrite !getBit_testbit. unfold upd_word. cbn [rw_bitmap].
  pose proof (pos_range n). pose proof (pos_range m).
  set (p := n mod WindowSize) in *. set (q := m mod WindowSize) in *.
  rewrite list_lookup_alter. pose proof (Z.mod_pos_bound p 64). pose proof (Z.mod_pos_bound q 64).
  destruct (word_in_range w m Hwf) as [x Hx]. fold q in Hx. rewrite Hx.
  case_decide as Hd; [rewrite Hd, Hx|]; cbn.
  - rewrite Hf, testbit_shiftl1 by lia.
    case_bool_decide as Hb; case_decide as Hpq; try done.
    + exfalso. apply Hpq. apply pos_eq_split; try lia; done.
    + exfalso. apply Hb. by rewrite Hpq.
  - case_decide as Hpq; [|done]. exfalso. apply Hd. by rewrite Hpq.
Qed.

Lemma getBit_setBit w n m :
  wf w -> getBit (setBit w n) m =
    if decide (n mod WindowSize = m mod WindowSize) then true else getBit w m.
Proof.
  intros Hwf. unfold setBit. rewrite (getBit_upd_word w n m _ orb Hwf).
  - by rewrite orb_true_r.
  - intros. apply Z.lor_spec.
  - apply orb_false_r.
Qed.

Lemma getBit_clearBit w n m :
  wf w -> getBit (clearBit w n) m =
    if decide (n mod WindowSize = m mod WindowSize) then false else getBit w m.
Proof.
  intros Hwf. unfold clearBit. rewrite (getBit_upd_word w n m _ (fun a b => a && negb b) Hwf).
  - by rewrite andb_false_r.
  - intros. apply Z.ldiff_spec.
  - intros []; done.
Qed.

Lemma window_residue a b : a mod WindowSize = b mod WindowSize -> - WindowSize < a - b < WindowSize -> a = b.
Proof.
  unfold WindowSize. intros Hm Hr.
  pose proof (Z.div_mod a 2048). pose proof (Z.div_mod b 2048). lia.
Qed.

(** ** The abstract window: the set of accepted nonces

    The contract of the component: a nonce is accepted when it was not
    accepted before and is newer than [WindowSize] below the greatest one. *)
Record spec := { sp_seen : gset Z; sp_max : Z }.

Definition spec_init : spec := {| sp_seen := ∅; sp_max := -1 |}.

Definition spec_accepts (s : spec) (n : Z) : bool :=
  (sp_max s - WindowSize <? n) && bool_decide (n ∉ sp_seen s).

Definition spec_mark (s : spec) (n : Z) : spec * bool :=
  if spec_accepts s n
  then ({| sp_seen := {[n]} ∪ sp_seen s; sp_max := Z.max (sp_max s) n |}, true)
  else (s, false).

(** The refinement relation. *)
Record refines (w : replayWindow) (s : spec) : Prop := {
  rf_wf : wf w;
  rf_fresh : rw_inited w = false -> s = spec_init /\ forall k, getBit w k = false;
  rf_max : rw_inited w = true -> sp_max s = rw_max w /\ 0 <= rw_max w < 2 ^ 64;
  rf_seen : forall n, n ∈ sp_seen s -> 0 <= n <= sp_max s;
  rf_bits : rw_inited w = true ->
    forall n, 0 <= n -> rw_max w - WindowSize < n <= rw_max w ->
      getBit w n = bool_decide (n ∈ sp_seen s)
}.

Lemma refines_zero : refines zero spec_init.
Proof.
  split; try done. intros _. split; [done|]. intros k. rewrite getBit_testbit.
  unfold zero; cbn [rw_bitmap].
  destruct (_ !! _) eqn:E; [apply lookup_replicate in E as [-> _]|]; apply Z.bits_0.
Qed.

(** ** Sliding *)

Lemma clear_fold_wf w m l : wf w -> wf (foldl (fun w' i => clearBit w' (u64 (m + i))) w l).
Proof. revert w. induction l; intros w Hw; cbn; auto. Qed.

Lemma getBit_clear_fold w m k l :
  wf w -> getBit (foldl (fun w' i => clearBit w' (u64 (m + i))) w l) k =
    if decide (Exists (fun i => u64 (m + i) mod WindowSize = k mod WindowSize) l)
    then false else getBit w k.
Proof.
  revert w. induction l as [|a l IH]; intros w Hw; cbn [foldl].
  - rewrite decide_False; [done|]. by intros ?%Exists_nil.
  - rewrite IH by auto. rewrite getBit_clearBit by done.
    pose proof (Exists_cons (fun i => u64 (m + i) mod WindowSize = k mod WindowSize) a l).
    repeat case_decide; tauto.
Qed.

Lemma slide_wf w n : wf w -> wf (slide w n).
Proof.
  intros Hw. unfold slide. case_step; [|by apply clear_fold_wf].
  unfold wf in *. cbn. by rewrite length_fmap.
Qed.

Lemma clear_fold_inited w m l :
  rw_inited (foldl (fun w' i => clearBit w' (u64 (m + i))) w l) = rw_inited w.
Proof. revert w. induction l as [|a l IH]; intros w; cbn [foldl]; [done|]. by rewrite IH. Qed.

Lemma slide_inited w n : rw_inited (slide w n) = rw_inited w.
Proof. unfold slide. case_step; [done|]. apply clear_fold_inited. Qed.

Lemma getBit_slide w n k :
  wf w -> 0 <= rw_max w < n -> n < 2 ^ 64 -> 0 <= k -> n - WindowSize < k <= n ->
  getBit (slide w n) k = if decide (rw_max w < k) then false else getBit w k.
Proof.
  intros Hw Hmax Hn Hk Hr. unfold slide, u64. rewrite wrap_small by lia.
  destruct (WindowSize <=? n - rw_max w) eqn:E; bool_to_prop.
  - rewrite decide_True by (unfold WindowSize in *; lia).
    rewrite getBit_testbit. cbn [rw_bitmap]. rewrite list_lookup_fmap.
    destruct (rw_bitmap w !! _); apply Z.bits_0.
  - rewrite getBit_clear_fold by done.
    assert (forall i, 1 <= i < 1 + (n - rw_max w) -> u64 (rw_max w + i) = rw_max w + i) as Hu.
    { intros i Hi. apply wrap_small. lia. }
    case_decide as Hex; case_decide as Hlt; try done.
    + exfalso. apply Exists_exists in Hex as (i & Hi & Hm). apply elem_of_seqZ in Hi.
      rewrite Hu in Hm by lia. apply window_residue in Hm; unfold WindowSize in *; lia.
    + exfalso. apply Hex, Exists_exists. exists (k - rw_max w). rewrite elem_of_seqZ.
      split; [lia|]. rewrite Hu by lia. f_equal. lia.
Qed.

(** ** The refinement theorem *)

(** Marking [n] once the window covers it: the common end of every accepting
    branch. *)
Lemma refines_mark w seen n :
  wf w -> rw_inited w = true -> 0 <= rw_max w < 2 ^ 64 ->
  0 <= n -> rw_max w - WindowSize < n <= rw_max w ->
  (forall k, k ∈ seen -> 0 <= k <= rw_max w) ->
  (forall k, 0 <= k -> rw_max w - WindowSize < k <= rw_max w -> k <> n ->
     getBit w k = bool_decide (k ∈ seen)) ->
  refines (setBit w n) {| sp_seen := {[n]} ∪ seen; sp_max := rw_max w |}.
Proof.
  intros Hw Hi Hm Hn Hr Hs Hb.
  split; cbn [sp_seen sp_max setBit upd_word rw_max rw_inited]; auto.
  - congruence.
  - intros k [->%elem_of_singleton|?%Hs]%elem_of_union; lia.
  - intros _ k Hk Hkr. fold (upd_word w n Z.lor). fold (setBit w n).
    rewrite getBit_setBit by done. case_decide as Hd.
    + apply window_residue in Hd; [|lia]. subst. symmetry. apply bool_decide_eq_true, elem_of_union. left. by apply elem_of_singleton.
    + rewrite Hb by (try lia; congruence). apply bool_decide_ext.
      rewrite elem_of_union, elem_of_singleton. intuition congruence.
Qed.

Lemma checkAndMark_refines_spec w s n :
  0 <= n < 2 ^ 64 -> refines w s ->
  snd (checkAndMark w n) = snd (spec_mark s n) /\
  refines (fst (checkAndMark w n)) (fst (spec_mark s n)).
Proof.
  intros Hn R. unfold checkAndMark, spec_mark, spec_accepts.
  destruct (rw_inited w) eqn:Hi; cbn [negb].
  2:{ destruct (rf_fresh _ _ R Hi) as [-> Hz]. cbn [sp_max sp_seen spec_init].
      assert ((-1 - WindowSize <? n) = true) as -> by (apply Z.ltb_lt; unfold WindowSize; lia).
      rewrite bool_decide_eq_true_2 by set_solver. cbn [andb fst snd]. split; [done|].
      replace (Z.max (-1) n) with n by lia.
      eapply (refines_mark {| rw_max := n; rw_bitmap := rw_bitmap w; rw_inited := true |});
        cbn [rw_max rw_inited]; try done; try (unfold WindowSize; lia); [apply R|].
      intros k _ _ _. rewrite bool_decide_eq_false_2 by set_solver. apply Hz. }
  destruct (rf_max _ _ R Hi) as [Hmax Hmr]. rewrite Hmax.
  pose proof (rf_seen _ _ R) as Hseen. rewrite Hmax in Hseen.
  pose proof (rf_bits _ _ R Hi) as Hbits.
  destruct (rw_max w <? n) eqn:Hlt; bool_to_prop.
  - rewrite (proj2 (Z.ltb_lt _ _)) by (unfold WindowSize; lia).
    rewrite bool_decide_eq_true_2 by (intros ?%Hseen; lia). cbn [andb fst snd]. split; [done|].
    replace (Z.max (rw_max w) n) with n by lia.
    apply (refines_mark (set_max (slide w n) n)); cbn [rw_max rw_inited set_max]; try lia.
    + apply slide_wf, R.
    + by rewrite slide_inited.
    + unfold WindowSize; lia.
    + intros k ?%Hseen. lia.
    + intros k Hk Hkr Hne.
      change (getBit (set_max (slide w n) n) k) with (getBit (slide w n) k).
      rewrite getBit_slide; [|apply R|lia..].
      case_decide as Hd; [rewrite bool_decide_eq_false_2; [done|intros ?%Hseen; lia]|].
      apply Hbits; lia.
  - unfold u64. rewrite wrap_small by lia.
    destruct (WindowSize <=? rw_max w - n) eqn:Hw; bool_to_prop.
    + rewrite (proj2 (Z.ltb_ge _ _)) by lia. done.
    + rewrite (proj2 (Z.ltb_lt _ _)), Hbits by lia.
      destruct (decide (n ∈ sp_seen s)).
      * rewrite bool_decide_eq_true_2, bool_decide_eq_false_2 by tauto. done.
      * rewrite bool_decide_eq_false_2, bool_decide_eq_true_2 by done. cbn [andb fst snd].
        split; [done|]. replace (Z.max (rw_max w) n) with (rw_max w) by lia.
        apply refines_mark; try done; try lia; [apply R|]. intros k ? ? ?. by apply Hbits.
Qed.

(** [check] answers what [checkAndMark] would answer. *)
Lemma check_checkAndMark w n : check w n = snd (checkAndMark w n).
Proof.
  unfold check, checkAndMark.
  destruct (rw_inited w); cbn [negb orb]; [|done].
  destruct (rw_max w <? n); [done|].
  destruct (WindowSize <=? _) eqn:H; bool_to_prop.
  - by rewrite (proj2 (Z.ltb_ge _ _)) by lia.
  - rewrite (proj2 (Z.ltb_lt _ _)) by lia. by destruct (getBit w n).
Qed.

(** ** Sequences of received nonces *)

Fixpoint run (w : replayWindow) (ns : list Z) : list bool :=
  match ns with
  | [] => []
  | n :: ns' => snd (checkAndMark w n) :: run (fst (checkAndMark w n)) ns'
  end.

Definition after (w : replayWindow) (ns : list Z) : replayWindow :=
  foldl (fun w n => fst (checkAndMark w n)) w ns.

Definition spec_after (s : spec) (ns : list Z) : spec :=
  foldl (fun s n => fst (spec_mark s n)) s ns.

Definition u64s_ok (ns : list Z) : Prop := Forall (fun n => 0 <= n < 2 ^ 64) ns.

Lemma run_lookup w ns i :
  run w ns !! i = (fun n => snd (checkAndMark (after w (take i ns)) n)) <$> ns !! i.
Proof. revert w i. induction ns as [|n ns IH]; intros w [|i]; cbn; done. Qed.

Lemma refines_after w s ns : u64s_ok ns -> refines w s -> refines (after w ns) (spec_after s ns).
Proof.
  intros Hns. revert w s. induction Hns as [|n ns Hn Hns IH]; intros w s R; cbn; [done|].
  by apply IH, checkAndMark_refines_spec.
Qed.

Lemma run_spec w s ns i n :
  u64s_ok ns -> refines w s -> ns !! i = Some n ->
  run w ns !! i = Some (spec_accepts (spec_after s (take i ns)) n).
Proof.
  intros Hns R Hi. rewrite run_lookup, Hi. cbn. f_equal.
  destruct (checkAndMark_refines_spec (after w (take i ns)) (spec_after s (take i ns)) n) as [-> _].
  - by apply (Forall_lookup_1 _ _ _ _ Hns Hi).
  - apply refines_after; [by apply Forall_take|done].
  - unfold spec_mark. by destruct (spec_accepts _ _).
Qed.

Lemma spec_after_snoc s l n : spec_after s (l ++ [n]) = fst (spec_mark (spec_after s l) n).
Proof. unfold spec_after. by rewrite foldl_app. Qed.

Lemma take_snoc_lt (l : list Z) n j : (j <= length l)%nat -> take j (l ++ [n]) = take j l.
Proof. apply take_app_le. Qed.

(** What is in the abstract set: exactly the nonces accepted so far. *)
Lemma spec_after_seen l n :
  n ∈ sp_seen (spec_after spec_init l) <->
  exists j, l !! j = Some n /\ spec_accepts (spec_after spec_init (take j l)) n = true.
Proof.
  induction l as [|m l IH] using rev_ind.
  { split; [set_solver|]. intros (j & Hj & _). by rewrite lookup_nil in Hj. }
  rewrite spec_after_snoc. unfold spec_mark.
  assert (n ∈ sp_seen (spec_after spec_init l) -> exists j, (l ++ [m]) !! j = Some n /\
            spec_accepts (spec_after spec_init (take j (l ++ [m]))) n = true) as Hold.
  { intros (j & Hj & Ha)%IH. exists j. pose proof (lookup_lt_Some _ _ _ Hj).
    rewrite lookup_app_l, take_snoc_lt by lia. done. }
  split.
  - destruct (spec_accepts (spec_after spec_init l) m) eqn:Ha; cbn [fst sp_seen]; [|done].
    intros [->%elem_of_singleton|?]%elem_of_union; [|auto].
    exists (length l). rewrite lookup_app_r, Nat.sub_diag, take_snoc_lt, take_ge by lia. done.
  - intros (j & Hj & Ha). apply lookup_app_Some in Hj as [Hj|[Hlen Hj]].
    + pose proof (lookup_lt_Some _ _ _ Hj). rewrite take_snoc_lt in Ha by lia.
      destruct (spec_accepts (spec_after spec_init l) m); cbn [fst sp_seen];
        [apply elem_of_union; right|]; apply IH; eauto.
    + apply list_lookup_singleton_Some in Hj as [? ->].
      rewrite take_snoc_lt, take_ge in Ha by lia. rewrite Ha. cbn [fst sp_seen].
      apply elem_of_union. left. by apply elem_of_singleton.
Qed.

(** The abstract maximum is the maximum of everything received. *)
Lemma spec_after_max l :
  u64s_ok l ->
  (forall k, k ∈ sp_seen (spec_after spec_init l) -> k <= sp_max (spec_after spec_init l)) /\
  sp_max (spec_after spec_init l) = foldr Z.max (-1) l.
Proof.
  induction l as [|m l IH] using rev_ind; intros Hl; [split; [set_solver|done]|].
  apply Forall_app in Hl as [Hl Hm]. destruct (IH Hl) as [Hb He].
  rewrite spec_after_snoc. unfold spec_mark.
  assert (foldr Z.max (-1) (l ++ [m]) = Z.max (foldr Z.max (-1) l) m) as Hf.
  { clear -Hm. inversion_clear Hm. induction l; cbn in *; lia. }
  rewrite Hf. destruct (spec_accepts (spec_after spec_init l) m) eqn:Ha; cbn [fst sp_seen sp_max].
  - split; [|lia]. intros k [->%elem_of_singleton|?%Hb]%elem_of_union; lia.
  - split; [done|]. unfold spec_accepts in Ha. apply andb_false_iff in Ha as [Ha|Ha].
    + bool_to_prop. unfold WindowSize in Ha. lia.
    + apply bool_decide_eq_false, dec_stable, Hb in Ha. lia.
Qed.

Lemma foldr_max_lt l b : -1 < b -> (foldr Z.max (-1) l < b <-> Forall (fun m => m < b) l).
Proof.
  intros Hb. induction l as [|m l IH]; cbn [foldr]; [by rewrite Forall_nil|].
  by rewrite Forall_cons, Z.max_lub_lt_iff, IH.
Qed.

Lemma spec_seen_mono s n k : k ∈ sp_seen s -> k ∈ sp_seen (fst (spec_mark s n)).
Proof. unfold spec_mark. destruct (spec_accepts s n); cbn; [set_solver|done]. Qed.

(** While [n] stays inside the window, having been received means having been
    accepted. *)
Lemma received_is_seen l n :
  u64s_ok l -> Forall (fun m => m - WindowSize < n) l -> n ∈ l ->
  n ∈ sp_seen (spec_after spec_init l).
Proof.
  induction l as [|m l IH] using rev_ind; intros Hl Hw Hin; [set_solver|].
  apply Forall_app in Hl as [Hl Hm]. apply Forall_app in Hw as [Hwl Hwm].
  rewrite spec_after_snoc.
  destruct (decide (n ∈ sp_seen (spec_after spec_init l))); [by apply spec_seen_mono|].
  assert (n = m) as <-.
  { apply elem_of_app in Hin as [Hin|Hin]; [|by apply list_elem_of_singleton in Hin].
    exfalso. auto. }
  assert (0 <= n) by (inversion Hm; lia).
  assert (foldr Z.max (-1) l < n + WindowSize).
  { apply foldr_max_lt; [unfold WindowSize; lia|]. eapply Forall_impl; [done|]. cbn. lia. }
  unfold spec_mark, spec_accepts. rewrite (proj2 (spec_after_max l Hl)).
  rewrite (proj2 (Z.ltb_lt _ _)), bool_decide_eq_true_2 by (done || lia).
  cbn [andb fst sp_seen]. set_solver.
Qed.

(** C9: the word-level window implements the abstract one exactly: on every
    state that represents a set of accepted nonces, [checkAndMark] gives the
    abstract answer and leaves a state that represents the updated set.  The
    abstract window accepts a nonce iff it is new and newer than the greatest
    accepted one minus [WindowSize]. *)
Theorem checkAndMark_refines w s n :
  0 <= n < 2 ^ 64 -> refines w s ->
  snd (checkAndMark w n) = snd (spec_mark s n) /\
  refines (fst (checkAndMark w n)) (fst (spec_mark s n)).
Proof. apply checkAndMark_refines_spec. Qed.

Lemma checkAndMark_refines_witness :
  snd (checkAndMark zero 7) = snd (spec_mark spec_init 7) /\
  refines (fst (checkAndMark zero 7)) (fst (spec_mark spec_init 7)).
Proof. apply (checkAndMark_refines zero spec_init 7); [lia|apply refines_zero]. Defined.

Lemma window_exact_lookup ns i n :
  u64s_ok ns -> ns !! i = Some n ->
  snd (checkAndMark (after zero (take i ns)) n) =
    bool_decide ((n ∉ take i ns) /\ Forall (fun m => m - WindowSize < n) (take i ns)).
Proof.
  intros Hns Hi. pose proof (run_spec zero spec_init ns i n Hns refines_zero Hi) as Hrun.
  rewrite run_lookup, Hi in Hrun. cbn in Hrun. injection Hrun as ->.
  set (l := take i ns). assert (u64s_ok l) as Hl by by apply Forall_take.
  assert (0 <= n) by (apply (Forall_lookup_1 _ _ _ _ Hns) in Hi; lia).
  pose proof (foldr_max_lt l (n + WindowSize) ltac:(unfold WindowSize; lia)) as Hmax.
  unfold spec_accepts. rewrite (proj2 (spec_after_max l Hl)).
  apply Bool.eq_iff_eq_true. rewrite andb_true_iff, !bool_decide_eq_true, Z.ltb_lt.
  assert (Forall (fun m => m - WindowSize < n) l <-> foldr Z.max (-1) l - WindowSize < n) as Hw.
  { rewrite <- Z.lt_sub_lt_add_r in Hmax. rewrite Hmax. apply Forall_iff. intros m. lia. }
  rewrite Hw. split; intros [H1 H2]; split; try done.
  - intros Hin. apply H2. apply received_is_seen; [done|by apply Hw|done].
  - intros (j & Hj & _)%spec_after_seen. apply H1, list_elem_of_lookup. eauto.
Qed.

(** what a fresh window answers on any sequence of received nonces: the
    i-th one is accepted iff it was not received before and every earlier one
    is less than [WindowSize] above it. *)
Theorem window_exact ns i n :
  u64s_ok ns -> ns !! i = Some n ->
  run zero ns !! i =
    Some (bool_decide ((n ∉ take i ns) /\ Forall (fun m => m - WindowSize < n) (take i ns))).
Proof.
  intros Hns Hi. rewrite run_lookup, Hi. cbn. f_equal. by apply window_exact_lookup.
Qed.

Lemma window_exact_witness : run zero [5; 3000; 5; 2000] !! 3%nat =
  Some (bool_decide ((2000 ∉ take 3 [5; 3000; 5; 2000]) /\
        Forall (fun m => m - WindowSize < 2000) (take 3 [5; 3000; 5; 2000]))).
Proof. apply (window_exact [5; 3000; 5; 2000] 3 2000); [repeat constructor; lia|reflexivity]. Defined.

End Window.

Module Session.
Import Window.

(** ** The [noise.Cipher] interface (third-party code)

    [c_open] returns [None] for an authentication error; the plaintext slice
    it returns otherwise may be nil. *)
Record Cipher := {
  c_seal : Z -> list Z -> list Z;
  c_open : Z -> list Z -> option goslice
}.

(** What the AEAD promises for a matching pair of directions: opening what
    was sealed under the same nonce gives the plaintext back. *)
Class CipherPair (a b : Cipher) : Prop :=
  open_seal : forall n pt, pt <> [] -> c_open b n (c_seal a n pt) = Some (Some pt).

(** [crypto.HandshakeResult], with each [CipherState] reduced to the [Cipher]
    the session takes from it. *)
Record HandshakeResult := {
  hr_SendCS : Cipher;
  hr_RecvCS : Cipher;
  hr_SessionID : list Z;          (* [8]byte *)
  hr_PeerEd25519Public : list Z;
  hr_NetworkID : list Z           (* [16]byte *)
}.

Definition RekeyThreshold : Z := 2 ^ 32.
Definition RekeyTimeLimit : Z := 120 * 1000000000.

Inductive error := ErrRekeyRequired.

Record Session := {
  s_id : list Z;
  s_send : Cipher;
  s_recv : Cipher;
  s_sendNonce : Z;       (* uint64 *)
  s_createdAt : Z;       (* nanoseconds *)
  s_window : replayWindow
}.

Definition New (r : HandshakeResult) (now : Z) : Session :=
  {| s_id := hr_SessionID r; s_send := hr_SendCS r; s_recv := hr_RecvCS r;
     s_sendNonce := 0; s_createdAt := now; s_window := zero |}.

Definition SetCreatedAt (s : Session) (t : Z) : Session :=
  {| s_id := s_id s; s_send := s_send s; s_recv := s_recv s;
     s_sendNonce := s_sendNonce s; s_createdAt := t; s_window := s_window s |}.

Definition NeedsRekey (s : Session) (now : Z) : bool :=
  (RekeyThreshold <=? s_sendNonce s) || (RekeyTimeLimit <=? now - s_createdAt s).

Definition with_nonce (s : Session) (n : Z) : Session :=
  {| s_id := s_id s; s_send := s_send s; s_recv := s_recv s;
     s_sendNonce := n; s_createdAt := s_createdAt s; s_window := s_window s |}.

Definition with_window (s : Session) (w : replayWindow) : Session :=
  {| s_id := s_id s; s_send := s_send s; s_recv := s_recv s;
     s_sendNonce := s_sendNonce s; s_createdAt := s_createdAt s; s_window := w |}.

Arguments with_nonce : simpl never.
Arguments with_window : simpl never.

(** [Encrypt]: the counter is bumped atomically, also when it is exhausted. *)
Definition Encrypt (s : Session) (plaintext : list Z) : Session * result error (Z * list Z) :=
  let c := u64 (s_sendNonce s + 1) in
  let n := u64 (c - 1) in
  (with_nonce s c,
   if RekeyThreshold <=? n then Err ErrRekeyRequired
   else Ok (n, c_seal (s_send s) n plaintext)).

(** [Decrypt]: the error is always nil, the result is a slice or nil. *)
Definition Decrypt (s : Session) (nonce : Z) (ciphertext : list Z) : Session * goslice :=
  if RekeyThreshold <=? nonce then (s, None)
  else if negb (check (s_window s) nonce) then (s, None)
  else match c_open (s_recv s) nonce ciphertext with
       | None => (s, None)
       | Some plaintext =>
           let '(w, valid) := checkAndMark (s_window s) nonce in
           (with_window s w, if valid then plaintext else None)
       end.

(** ** Runs *)

Fixpoint encrypt_run (s : Session) (pts : list (list Z)) : list (result error (Z * list Z)) :=
  match pts with
  | [] => []
  | pt :: pts' => let '(s', r) := Encrypt s pt in r :: encrypt_run s' pts'
  end.

Fixpoint decrypt_run (s : Session) (pkts : list (Z * list Z)) : list goslice :=
  match pkts with
  | [] => []
  | (n, ct) :: pkts' => let '(s', r) := Decrypt s n ct in r :: decrypt_run s' pkts'
  end.

Lemma encrypt_run_lookup s pts i pt :
  0 <= s_sendNonce s -> s_sendNonce s + Z.of_nat (length pts) <= 2 ^ 64 -> pts !! i = Some pt ->
  encrypt_run s pts !! i =
    Some (let n := s_sendNonce s + Z.of_nat i in
          if RekeyThreshold <=? n then Err ErrRekeyRequired else Ok (n, c_seal (s_send s) n pt)).
Proof.
  revert s i. induction pts as [|p pts IH]; intros s i H0 Hlen Hi; [done|].
  cbn [encrypt_run Encrypt length] in *.
  assert (u64 (u64 (s_sendNonce s + 1) - 1) = s_sendNonce s) as Hn.
  { unfold u64, wrap. rewrite Zminus_mod_idemp_l, Z.mod_small; lia. }
  destruct i as [|i]; cbn in Hi |- *.
  - injection Hi as <-. by rewrite Hn, Z.add_0_r.
  - destruct (decide (pts = [])) as [->|Hne]; [done|].
    assert (length pts <> 0%nat) by (by destruct pts).
    assert (u64 (s_sendNonce s + 1) = s_sendNonce s + 1) as Hu by (apply wrap_small; lia).
    rewrite IH; unfold with_nonce; cbn [s_sendNonce s_send]; rewrite ?Hu; try done; try lia.
    by replace (s_sendNonce s + 1 + Z.of_nat i) with (s_sendNonce s + Z.of_nat (S i)) by lia.
Qed.

(** A packet that opens is delivered exactly when the window accepts its nonce. *)
Lemma Decrypt_opened s n ct pt :
  n < RekeyThreshold -> c_open (s_recv s) n ct = Some pt ->
  Decrypt s n ct = (with_window s (fst (checkAndMark (s_window s) n)),
                    if snd (checkAndMark (s_window s) n) then pt else None).
Proof.
  intros Hn Ho. unfold Decrypt. rewrite (proj2 (Z.leb_gt _ _)), Ho, check_checkAndMark by done.
  destruct (checkAndMark (s_window s) n) as [w []] eqn:E; cbn; [done|].
  assert (w = s_window s) as ->.
  { unfold checkAndMark in E. repeat case_in E; congruence. }
  by destruct s.
Qed.

Lemma decrypt_run_opened s pkts :
  Forall (fun p => p.1 < RekeyThreshold) pkts ->
  (forall p, p ∈ pkts -> is_Some (c_open (s_recv s) p.1 p.2)) ->
  decrypt_run s pkts =
    zip_with (fun (b : bool) p => if b then default None (c_open (s_recv s) p.1 p.2) else None)
             (run (s_window s) pkts.*1) pkts.
Proof.
  intros Hn Ho. revert s Ho. induction Hn as [|[n ct] pkts Hp Hn IH]; intros s Ho; [done|].
  destruct (Ho (n, ct)) as [pt Hpt]; [set_solver|]. cbn in Hp, Hpt.
  cbn [decrypt_run fmap list_fmap run zip_with fst snd].
  rewrite (Decrypt_opened _ _ _ _ Hp Hpt), Hpt. cbn. f_equal.
  rewrite IH; [done|]. intros p Hin. apply Ho. set_solver.
Qed.

(** nonces are never reused: of at most [2^64] calls to [Encrypt] on a
    new session, call [i] seals under nonce [i] if [i] is below the rekey
    threshold and fails with [ErrRekeyRequired] otherwise. *)
Theorem encrypt_nonces r now pts i pt :
  Z.of_nat (length pts) <= 2 ^ 64 -> pts !! i = Some pt ->
  encrypt_run (New r now) pts !! i =
    Some (if RekeyThreshold <=? Z.of_nat i then Err ErrRekeyRequired
          else Ok (Z.of_nat i, c_seal (hr_SendCS r) (Z.of_nat i) pt)).
Proof. intros Hlen Hi. rewrite (encrypt_run_lookup _ _ _ pt); cbn; done. Qed.

Definition plain_cipher : Cipher := {| c_seal n pt := n :: pt; c_open n ct := Some (Some (drop 1 ct)) |}.
Definition demo_result : HandshakeResult :=
  {| hr_SendCS := plain_cipher; hr_RecvCS := plain_cipher; hr_SessionID := zeros 8;
     hr_PeerEd25519Public := zeros 32; hr_NetworkID := zeros 16 |}.

#[export] Instance plain_cipher_pair : CipherPair plain_cipher plain_cipher.
Proof. intros n pt _. reflexivity. Qed.

Lemma encrypt_nonces_witness :
  encrypt_run (New demo_result 0) [[1]; [2]] !! 1%nat = Some (Ok (1, [1; 2])).
Proof. apply (encrypt_nonces demo_result 0 [[1]; [2]] 1 [2]); [cbn; lia|reflexivity]. Defined.

(** The datagram sent for the [d]-th plaintext. *)
Definition wire (c : Cipher) (pts : list (list Z)) (d : nat) : Z * list Z :=
  (Z.of_nat d, c_seal c (Z.of_nat d) (default [] (pts !! d))).

Lemma take_fmap_inj (ds : list nat) i d :
  (Z.of_nat d ∉ take i (Z.of_nat <$> ds)) <-> (d ∉ take i ds).
Proof.
  rewrite <- fmap_take, list_elem_of_fmap. split; intros H Hin; apply H; [eauto|].
  destruct Hin as (k & Hk & Hin). apply Nat2Z.inj in Hk. by subst.
Qed.

Lemma encrypt_run_length s pts : length (encrypt_run s pts) = length pts.
Proof. revert s. induction pts as [|p pts IH]; intros s; cbn; [done|]. by rewrite IH. Qed.

(** Below the rekey threshold every call succeeds, so the datagrams on the
    wire are the sealed plaintexts in order. *)
Lemma encrypt_run_wire r now pts :
  Z.of_nat (length pts) <= RekeyThreshold ->
  encrypt_run (New r now) pts = Ok <$> (wire (hr_SendCS r) pts <$> seq 0 (length pts)).
Proof.
  intros Hlen. apply list_eq_same_length with (n := length pts).
  - by rewrite !length_fmap, length_seq.
  - apply encrypt_run_length.
  - intros k x y Hk Hx Hy. rewrite !list_lookup_fmap, lookup_seq_lt in Hy by done.
    destruct (lookup_lt_is_Some_2 _ _ Hk) as [pt Hpt].
    rewrite (encrypt_run_lookup _ _ _ pt) in Hx by (cbn; unfold RekeyThreshold in *; (done || lia)).
    cbn in Hx, Hy. rewrite (proj2 (Z.leb_gt _ _)) in Hx by lia.
    unfold wire in Hy. rewrite Hpt in Hy. cbn in Hy. rewrite Z.add_0_l in Hx. congruence.
Qed.

Lemma decrypt_run_wire a b now pts ds i d pt :
  CipherPair a (hr_RecvCS b) -> Z.of_nat (length pts) <= RekeyThreshold ->
  Forall (fun p => p <> []) pts -> Forall (fun k => (k < length pts)%nat) ds ->
  ds !! i = Some d -> pts !! d = Some pt ->
  decrypt_run (New b now) (wire a pts <$> ds) !! i =
    Some (if snd (checkAndMark (after zero (take i (Z.of_nat <$> ds))) (Z.of_nat d))
          then Some pt else None).
Proof.
  intros Hpair Hlen Hne Hds Hi Hd.
  assert (forall k p, pts !! k = Some p ->
            c_open (hr_RecvCS b) (wire a pts k).1 (wire a pts k).2 = Some (Some p)) as Hopen.
  { intros k p Hk. unfold wire. rewrite Hk. cbn. apply Hpair. by apply (Forall_lookup_1 _ _ _ _ Hne Hk). }
  rewrite decrypt_run_opened; cbn [New s_recv s_window].
  - assert ((wire a pts <$> ds).*1 = Z.of_nat <$> ds) as ->.
    { rewrite <- list_fmap_compose. by apply list_fmap_ext. }
    rewrite lookup_zip_with, run_lookup, !list_lookup_fmap, Hi.
    cbn [fmap option_fmap option_map mbind option_bind]. by rewrite (Hopen _ _ Hd).
  - apply Forall_fmap. eapply Forall_impl; [exact Hds|]. cbn. intros k Hk. lia.
  - intros p (k & -> & Hk)%list_elem_of_fmap.
    apply (proj1 (Forall_forall _ _) Hds), lookup_lt_is_Some_2 in Hk as [q Hq].
    rewrite (Hopen _ _ Hq). eauto.
Qed.

(** C14: end to end over a network that loses, reorders and duplicates: the
    receiver delivers the plaintext of an arriving packet iff this packet did
    not arrive before and no packet [WindowSize] or more ahead of it did. *)
Theorem delivery a b now now' pts ds i d pt :
  CipherPair (hr_SendCS a) (hr_RecvCS b) ->
  Z.of_nat (length pts) <= RekeyThreshold ->
  Forall (fun p => p <> []) pts -> Forall (fun k => (k < length pts)%nat) ds ->
  ds !! i = Some d -> pts !! d = Some pt ->
  encrypt_run (New a now) pts = Ok <$> (wire (hr_SendCS a) pts <$> seq 0 (length pts)) /\
  decrypt_run (New b now') (wire (hr_SendCS a) pts <$> ds) !! i =
    Some (if bool_decide ((d ∉ take i ds) /\
                          Forall (fun k => Z.of_nat k - WindowSize < Z.of_nat d) (take i ds))
          then Some pt else None).
Proof.
  intros Hpair Hlen Hne Hds Hi Hd. split; [by apply encrypt_run_wire|].
  rewrite (decrypt_run_wire _ b now' pts ds i d pt) by done. do 2 f_equal.
  assert (u64s_ok (Z.of_nat <$> ds)).
  { apply Forall_fmap. eapply Forall_impl; [exact Hds|]. cbn. unfold RekeyThreshold in Hlen. lia. }
  pose proof (window_exact_lookup (Z.of_nat <$> ds) i (Z.of_nat d)) as Hw.
  rewrite list_lookup_fmap, Hi in Hw. rewrite Hw by done.
  erewrite bool_decide_ext; [done|]. rewrite take_fmap_inj, <- fmap_take, Forall_fmap. done.
Qed.

Lemma delivery_witness :
  encrypt_run (New demo_result 0) [[1]; [2]]
    = Ok <$> (wire plain_cipher [[1]; [2]] <$> seq 0 2) /\
  decrypt_run (New demo_result 0) (wire plain_cipher [[1]; [2]] <$> [1; 0; 1]%nat) !! 1%nat =
    Some (if bool_decide ((0%nat ∉ take 1 [1; 0; 1]%nat) /\
            Forall (fun k => Z.of_nat k - WindowSize < Z.of_nat 0) (take 1 [1; 0; 1]%nat))
          then Some [1] else None).
Proof.
  apply (delivery demo_result demo_result 0 0 [[1]; [2]] [1; 0; 1]%nat 1 0 [1] plain_cipher_pair);
    [vm_compute; discriminate|repeat constructor; discriminate|repeat constructor; cbn; lia|reflexivity..].
Defined.

End Session.

Module Concurrent.
Import Window Session.

(** ** Interleaved [Decrypt] calls

    [Decrypt] holds the mutex only around [check] and around [checkAndMark],
    so calls of several goroutines interleave between the two.  A thread is a
    call at one of its program points. *)
Inductive thread :=
| TCheck (nonce : Z) (ct : list Z)          (* before the first critical section *)
| TOpen (nonce : Z) (ct : list Z)           (* check passed, mutex released *)
| TMark (nonce : Z) (pt : goslice)          (* authenticated, before the second one *)
| TDrop (nonce : Z)                         (* returned nil, nil *)
| TDone (nonce : Z) (pt : goslice).         (* returned plaintext *)

(** One atomic step of a thread on the shared window. *)
Definition tstep (c : Cipher) (w : replayWindow) (t : thread) : replayWindow * thread :=
  match t with
  | TCheck n ct =>
      if RekeyThreshold <=? n then (w, TDrop n)
      else if check w n then (w, TOpen n ct) else (w, TDrop n)
  | TOpen n ct =>
      match c_open c n ct with
      | None => (w, TDrop n)
      | Some pt => (w, TMark n pt)
      end
  | TMark n pt =>
      let '(w', valid) := checkAndMark w n in
      (w', if valid then TDone n pt else TDrop n)
  | TDrop n => (w, TDrop n)
  | TDone n pt => (w, TDone n pt)
  end.

(** A configuration: the shared window and the calls in flight; any thread
    may take the next step. *)
Inductive step (c : Cipher) : replayWindow * list thread -> replayWindow * list thread -> Prop :=
| step_thread w ts i t w' t' :
    ts !! i = Some t -> tstep c w t = (w', t') ->
    step c (w, ts) (w', <[i := t']> ts).

Definition nonce_of (t : thread) : Z :=
  match t with TCheck n _ | TOpen n _ | TMark n _ | TDrop n | TDone n _ => n end.

Definition is_done (t : thread) : bool := match t with TDone _ _ => true | _ => false end.
Definition is_start (t : thread) : bool := match t with TCheck _ _ => true | _ => false end.

(** The configurations reachable when every call starts from the beginning. *)
Definition reachable (c : Cipher) (ts0 : list thread) (cfg : replayWindow * list thread) : Prop :=
  rtc (step c) (zero, ts0) cfg.

(** The invariant: the window refines some abstract state that has seen every
    delivered nonce, and no nonce is delivered by two calls. *)
Definition inv (cfg : replayWindow * list thread) : Prop :=
  exists s, refines cfg.1 s /\
    Forall (fun t => 0 <= nonce_of t < 2 ^ 64) cfg.2 /\
    (forall i t, cfg.2 !! i = Some t -> is_done t = true -> nonce_of t ∈ sp_seen s) /\
    (forall i j t u, cfg.2 !! i = Some t -> cfg.2 !! j = Some u ->
       is_done t = true -> is_done u = true -> nonce_of t = nonce_of u -> i = j).

Lemma tstep_nonce c w t : nonce_of (snd (tstep c w t)) = nonce_of t.
Proof. destruct t; cbn; repeat case_step; done. Qed.

(** A step that does not mark changes neither the window nor the set of
    delivered calls. *)
Lemma tstep_quiet c w t :
  (forall n pt, t <> TMark n pt) ->
  fst (tstep c w t) = w /\ is_done (snd (tstep c w t)) = is_done t.
Proof. intros H. destruct t; cbn; repeat case_step; try done; by destruct (H nonce pt). Qed.

Lemma lookup_insert_cases (ts : list thread) i j t u :
  <[i := t]> ts !! j = Some u -> (i = j /\ t = u) \/ (i <> j /\ ts !! j = Some u).
Proof.
  destruct (decide (i = j)) as [->|Hne].
  - intros H. left. pose proof (lookup_lt_Some _ _ _ H) as Hl. rewrite length_insert in Hl.
    rewrite list_lookup_insert_eq in H by done. naive_solver.
  - rewrite list_lookup_insert_ne by done. auto.
Qed.

Lemma inv_update (ts : list thread) i t w' t' s' :
  Forall (fun t => 0 <= nonce_of t < 2 ^ 64) ts -> ts !! i = Some t -> nonce_of t' = nonce_of t ->
  refines w' s' ->
  (forall j u, i <> j -> ts !! j = Some u -> is_done u = true -> nonce_of u ∈ sp_seen s') ->
  (is_done t' = true -> nonce_of t ∈ sp_seen s') ->
  (forall j k u v, ts !! j = Some u -> ts !! k = Some v ->
     is_done u = true -> is_done v = true -> nonce_of u = nonce_of v -> j = k) ->
  (is_done t' = true -> forall j u, i <> j -> ts !! j = Some u -> is_done u = true ->
     nonce_of u <> nonce_of t) ->
  inv (w', <[i := t']> ts).
Proof.
  intros Hall Hi Hnt R Hold Hnew Huniq Hfresh. exists s'. split; [done|]. cbn [fst snd]. split.
  { apply Forall_insert; [done|]. rewrite Hnt. by apply (Forall_lookup_1 _ _ _ _ Hall Hi). }
  split.
  - intros j u [[-> <-]|[Hne Hj]]%lookup_insert_cases Hd; [rewrite Hnt; auto|eauto].
  - intros j k u v [[-> <-]|[Hne Hj]]%lookup_insert_cases [[-> <-]|[Hne' Hk]]%lookup_insert_cases
      Hu Hv Heq; [done| | |eauto].
    + exfalso. rewrite Hnt in Heq. by eapply (Hfresh Hu k v).
    + exfalso. rewrite Hnt in Heq. by eapply (Hfresh Hv j u).
Qed.

Lemma inv_step c cfg cfg' : step c cfg cfg' -> inv cfg -> inv cfg'.
Proof.
  intros [w ts i t w' t' Hi Hs] (s & R & Hall & Hseen & Huniq). cbn [fst snd] in *.
  pose proof (tstep_nonce c w t) as Hnt. rewrite Hs in Hnt. cbn in Hnt.
  assert ((exists n pt, t = TMark n pt) \/ forall n pt, t <> TMark n pt) as [(n & pt & ->)|Hq]
    by (destruct t; eauto).
  - pose proof (Forall_lookup_1 _ _ _ _ Hall Hi) as Hn. cbn in Hn.
    destruct (checkAndMark_refines_spec w s n Hn R) as [Hb R'].
    cbn in Hs. destruct (checkAndMark w n) as [w1 b]. injection Hs as <- <-. cbn in Hb, R'.
    eapply inv_update; try done.
    + intros j u Hne Hj Hd. apply spec_seen_mono. eauto.
    + unfold spec_mark in *. destruct (spec_accepts s n); cbn in Hb |- *; subst b; cbn; [set_solver|done].
    + intros Hd j u Hne Hj Hdu Heq. specialize (Hseen _ _ Hj Hdu). rewrite Heq in Hseen. cbn in Hseen.
      unfold spec_mark in Hb. destruct (spec_accepts s n) eqn:Ha; cbn in Hb; subst b; [|done].
      unfold spec_accepts in Ha. apply andb_true_iff in Ha as [_ Ha].
      by apply bool_decide_eq_true in Ha.
  - destruct (tstep_quiet c w t) as [Hw Hd]; [done|]. rewrite Hs in Hw, Hd. cbn in Hw, Hd. subst w'.
    eapply inv_update; try done; rewrite ?Hd; [eauto..|]. intros Hdt j u Hne Hj Hdu Heq.
    apply Hne. eapply Huniq; eauto.
Qed.

Lemma inv_init ts :
  Forall (fun t => 0 <= nonce_of t < 2 ^ 64) ts -> Forall (fun t => is_start t = true) ts ->
  inv (zero, ts).
Proof.
  intros Hall Hst. exists spec_init. split; [apply refines_zero|]. cbn. split; [done|].
  assert (forall i t, ts !! i = Some t -> is_done t = false) as Hnd.
  { intros i t Hi. apply (Forall_lookup_1 _ _ _ _ Hst) in Hi. by destruct t. }
  split; intros *; [intros Hi Hd|intros Hi _ Hd]; by rewrite (Hnd _ _ Hi) in Hd.
Qed.

Lemma inv_reachable c ts cfg :
  Forall (fun t => 0 <= nonce_of t < 2 ^ 64) ts -> Forall (fun t => is_start t = true) ts ->
  reachable c ts cfg -> inv cfg.
Proof.
  intros H1 H2 Hr. assert (inv (zero, ts)) as Hi by by apply inv_init.
  unfold reachable in Hr. remember (zero, ts) as cfg0 eqn:E. clear E.
  induction Hr; eauto using inv_step.
Qed.

(** calls to [Decrypt] from any number of goroutines, interleaved at the
    points where the mutex is released, never deliver two packets with the
    same nonce. *)
Theorem concurrent_at_most_once c ts0 w ts i j n pt pt' :
  Forall (fun t => is_start t = true /\ 0 <= nonce_of t < 2 ^ 64) ts0 ->
  reachable c ts0 (w, ts) ->
  ts !! i = Some (TDone n pt) -> ts !! j = Some (TDone n pt') -> i = j.
Proof.
  intros H0 Hr Hi Hj.
  destruct (inv_reachable c ts0 (w, ts)) as (s & _ & _ & _ & Huniq); [..|done|].
  1,2: eapply Forall_impl; [exact H0|]; cbn; tauto.
  eapply (Huniq i j); eauto.
Qed.

Lemma concurrent_at_most_once_witness : 0%nat = 0%nat.
Proof.
  refine (concurrent_at_most_once plain_cipher [TCheck 3 [3; 9]]
            (fst (checkAndMark zero 3)) [TDone 3 (Some [9])] 0 0 3 (Some [9]) (Some [9]) _ _ _ _);
    [repeat constructor; cbn; lia| |reflexivity..].
  unfold reachable.
  eapply rtc_l; [apply (step_thread plain_cipher zero [TCheck 3 [3; 9]] 0 (TCheck 3 [3; 9])
    zero (TOpen 3 [3; 9])); vm_compute; reflexivity|].
  eapply rtc_l; [apply (step_thread plain_cipher zero [TOpen 3 [3; 9]] 0 (TOpen 3 [3; 9])
    zero (TMark 3 (Some [9]))); vm_compute; reflexivity|].
  eapply rtc_l; [apply (step_thread plain_cipher zero [TMark 3 (Some [9])] 0 (TMark 3 (Some [9]))
    (fst (checkAndMark zero 3)) (TDone 3 (Some [9]))); vm_compute; reflexivity|].
  apply rtc_refl.
Defined.

End Concurrent.
