(* ===== verification/GoLib.v ===== *)
(** * The parts of Go's standard library the code uses on text

    [strings], [encoding/hex], [encoding/base64] and the number scanner of
    [fmt.Sscanf], as executable functions on byte strings. *)
From Stdlib Require Import ZArith Lia Ascii.
From stdpp Require Import base numbers list gmap strings.
From S2P Require Import Prelude.

Module Strings.

Definition chr (n : Z) : ascii := ascii_of_N (Z.to_N n).

(** [strings.HasPrefix] and [s[len(prefix):]]. *)
Definition has_prefix (p s : string) : bool := String.prefix p s.

Fixpoint drop_str (n : nat) (s : string) : string :=
  match n, s with
  | O, _ => s
  | S _, EmptyString => EmptyString
  | S m, String _ s' => drop_str m s'
  end.

(** [strings.Split] and [strings.Contains] for a one-character separator. *)
Fixpoint split_on (c : ascii) (s : string) : list string :=
  match s with
  | EmptyString => [EmptyString]
  | String a s' =>
      if Ascii.eqb a c then EmptyString :: split_on c s'
      else match split_on c s' with
           | [] => [String a EmptyString]
           | w :: ws => String a w :: ws
           end
  end.

Fixpoint contains_char (c : ascii) (s : string) : bool :=
  match s with
  | EmptyString => false
  | String a s' => Ascii.eqb a c || contains_char c s'
  end.

Fixpoint string_of_bytes (l : list Z) : string :=
  match l with
  | [] => EmptyString
  | b :: l' => String (chr b) (string_of_bytes l')
  end.

Lemma string_of_bytes_of_string s : string_of_bytes (bytes_of_string s) = s.
Proof.
  induction s as [|c s IH]; cbn; [done|]. rewrite IH. f_equal.
  unfold chr, ascii_code. rewrite N2Z.id. apply ascii_N_embedding.
Qed.

Lemma bytes_of_string_of_bytes l : bytes_ok l -> bytes_of_string (string_of_bytes l) = l.
Proof.
  induction 1 as [|b l Hb Hl IH]; cbn; [done|]. rewrite IH. f_equal.
  unfold chr, ascii_code, byte_ok in *. rewrite N_ascii_embedding by lia. lia.
Qed.

End Strings.

Module Hex.
Import Strings.

Definition digit (c : Z) : option Z :=
  if (48 <=? c) && (c <=? 57) then Some (c - 48)
  else if (97 <=? c) && (c <=? 102) then Some (c - 87)
  else if (65 <=? c) && (c <=? 70) then Some (c - 55)
  else None.

(** [hex.DecodeString]: [None] is the error. *)
Fixpoint decode_bytes (l : list Z) : option (list Z) :=
  match l with
  | [] => Some []
  | h :: l0 :: rest =>
      a ← digit h; b ← digit l0; r ← decode_bytes rest; Some (a * 16 + b :: r)
  | [_] => None
  end.

Definition DecodeString (s : string) : option (list Z) := decode_bytes (bytes_of_string s).

Definition hexdigit (v : Z) : Z := if v <? 10 then 48 + v else 87 + v.

(** [hex.EncodeToString]. *)
Definition encode_bytes (l : list Z) : list Z :=
  l ≫= fun b => [hexdigit (b / 16); hexdigit (b mod 16)].

Definition EncodeToString (l : list Z) : string := string_of_bytes (encode_bytes l).

Lemma digit_hexdigit v : 0 <= v < 16 -> digit (hexdigit v) = Some v.
Proof.
  intros Hv. unfold digit, hexdigit. destruct (v <? 10) eqn:E; bool_to_prop.
  - rewrite (proj2 (Z.leb_le _ _)), (proj2 (Z.leb_le _ _)) by lia. cbn. f_equal. lia.
  - rewrite (proj2 (Z.leb_le 48 _)), (proj2 (Z.leb_gt _ _)) by lia. cbn.
    rewrite (proj2 (Z.leb_le _ _)), (proj2 (Z.leb_le _ _)) by lia. cbn. f_equal. lia.
Qed.

Lemma decode_encode_bytes l : bytes_ok l -> decode_bytes (encode_bytes l) = Some l.
Proof.
  induction 1 as [|b l Hb Hl IH]; [done|]. unfold byte_ok in Hb.
  change (encode_bytes (b :: l)) with (hexdigit (b / 16) :: hexdigit (b mod 16) :: encode_bytes l).
  cbn [decode_bytes]. pose proof (Z.mod_pos_bound b 16). pose proof (Z.div_mod b 16).
  rewrite !digit_hexdigit by (split; try apply Z.div_pos; try apply Z.div_lt_upper_bound; lia).
  cbn. rewrite IH. cbn. do 2 f_equal. lia.
Qed.

Lemma encode_bytes_ok l : bytes_ok l -> bytes_ok (encode_bytes l).
Proof.
  intros Hl. unfold encode_bytes. induction Hl as [|b l Hb Hl IH]; cbn; [constructor|].
  unfold byte_ok in *. pose proof (Z.mod_pos_bound b 16).
  pose proof (Z.div_pos b 16). pose proof (Z.div_lt_upper_bound b 16 16).
  unfold hexdigit. repeat constructor; try done; case_step; bool_to_prop; unfold byte_ok; lia.
Qed.

Lemma Decode_EncodeToString l : bytes_ok l -> DecodeString (EncodeToString l) = Some l.
Proof.
  intros Hl. unfold DecodeString, EncodeToString.
  rewrite bytes_of_string_of_bytes by by apply encode_bytes_ok. by apply decode_encode_bytes.
Qed.

Lemma EncodeToString_inj l1 l2 :
  bytes_ok l1 -> bytes_ok l2 -> EncodeToString l1 = EncodeToString l2 -> l1 = l2.
Proof.
  intros H1 H2 Heq. apply (f_equal DecodeString) in Heq.
  rewrite !Decode_EncodeToString in Heq by done. congruence.
Qed.

End Hex.

Module Base64.
Import Strings.

(** The standard alphabet. *)
Definition digit (c : Z) : option Z :=
  if (65 <=? c) && (c <=? 90) then Some (c - 65)
  else if (97 <=? c) && (c <=? 122) then Some (c - 71)
  else if (48 <=? c) && (c <=? 57) then Some (c + 4)
  else if c =? 43 then Some 62
  else if c =? 47 then Some 63
  else None.

Definition is_newline (c : Z) : bool := (c =? 10) || (c =? 13).

(** One quantum after another; only the last one may be padded with "=".
    The unused low bits of a padded quantum are not checked (the decoder is
    not strict). *)
Fixpoint quanta (l : list Z) : option (list Z) :=
  match l with
  | [] => Some []
  | a :: b :: c :: d :: rest =>
      x ← digit a; y ← digit b;
      match digit c with
      | None =>
          if (c =? 61) && (d =? 61) && bool_decide (rest = [])
          then Some [x * 4 + y / 16] else None
      | Some z =>
          match digit d with
          | None =>
              if (d =? 61) && bool_decide (rest = [])
              then Some [x * 4 + y / 16; y mod 16 * 16 + z / 4] else None
          | Some t =>
              r ← quanta rest;
              Some (x * 4 + y / 16 :: y mod 16 * 16 + z / 4 :: z mod 4 * 64 + t :: r)
          end
      end
  | _ => None
  end.

(** [base64.StdEncoding.DecodeString]: line breaks are skipped anywhere. *)
Definition DecodeString (s : string) : option (list Z) :=
  quanta (filter (fun c => is_newline c = false) (bytes_of_string s)).

Lemma digit_range c v : digit c = Some v -> 0 <= v < 64.
Proof. unfold digit. repeat case_step; intros [= <-]; bool_to_prop; lia. Qed.

(** What is decoded is bytes. *)
Lemma quanta_bytes n l r : (length l <= n)%nat -> quanta l = Some r -> bytes_ok r.
Proof.
  revert l r. induction n as [|n IH]; intros [|a [|b [|c [|d rest]]]] r Hl Hq; cbn [length] in Hl; try lia; try done; try (injection Hq as <-; constructor).
  cbn [quanta] in Hq. destruct (digit a) as [x|] eqn:Ea; [|done]. rewrite bind_Some_eq in Hq. destruct (digit b) as [y|] eqn:Eb; [|done].
  rewrite bind_Some_eq in Hq. apply digit_range in Ea, Eb.
  assert (byte_ok (x * 4 + y / 16)) by (unfold byte_ok; Z.to_euclidean_division_equations; lia).
  destruct (digit c) as [z|] eqn:Ec.
  2: { case_in Hq; [|done]. injection Hq as <-. unfold bytes_ok. auto using Forall_cons_2, Forall_nil_2. }
  apply digit_range in Ec. assert (byte_ok (y mod 16 * 16 + z / 4)) by (unfold byte_ok; Z.to_euclidean_division_equations; lia).
  destruct (digit d) as [t|] eqn:Ed.
  2: { case_in Hq; [|done]. injection Hq as <-. unfold bytes_ok. auto using Forall_cons_2, Forall_nil_2. }
  apply digit_range in Ed. assert (byte_ok (z mod 4 * 64 + t)) by (unfold byte_ok; Z.to_euclidean_division_equations; lia).
  destruct (quanta rest) as [r'|] eqn:Er; [|done]. rewrite bind_Some_eq in Hq. injection Hq as <-.
  unfold bytes_ok. do 3 (apply Forall_cons_2; [done|]). eapply IH; [|done]. lia.
Qed.

Lemma DecodeString_bytes s r : DecodeString s = Some r -> bytes_ok r.
Proof. by apply (quanta_bytes _ _ _ (le_n _)). Qed.

(** [base64.StdEncoding.EncodeToString]. *)
Definition char (v : Z) : Z :=
  if v <? 26 then v + 65 else if v <? 52 then v + 71 else if v <? 62 then v - 4 else if v =? 62 then 43 else 47.

Fixpoint encode_bytes (l : list Z) : list Z :=
  match l with
  | [] => []
  | [a] => [char (a / 4); char (a mod 4 * 16); 61; 61]
  | [a; b] => [char (a / 4); char (a mod 4 * 16 + b / 16); char (b mod 16 * 4); 61]
  | a :: b :: c :: l' => char (a / 4) :: char (a mod 4 * 16 + b / 16) :: char (b mod 16 * 4 + c / 64) :: char (c mod 64) :: encode_bytes l'
  end.

Definition EncodeToString (l : list Z) : string := string_of_bytes (encode_bytes l).

Lemma digit_char v : 0 <= v < 64 -> digit (char v) = Some v /\ byte_ok (char v) /\ is_newline (char v) = false.
Proof.
  intros Hv. assert (forallb (fun v => bool_decide (digit (char v) = Some v) && ((0 <=? char v) && (char v <? 256)) && negb (is_newline (char v))) (seqZ 0 64) = true)
    as Hall by (vm_compute; reflexivity).
  rewrite forallb_forall in Hall. specialize (Hall v). rewrite !andb_true_iff, bool_decide_eq_true, negb_true_iff, Z.leb_le, Z.ltb_lt in Hall.
  destruct Hall as [[? ?] ?]; [apply list_elem_of_In, elem_of_seqZ; lia|done].
Qed.

Lemma digit_of_char v : 0 <= v < 64 -> digit (char v) = Some v.
Proof. intros Hv. by apply digit_char. Qed.

Lemma list_ind3 {A} (P : list A -> Prop) :
  P [] -> (forall a, P [a]) -> (forall a b, P [a; b]) -> (forall a b c l, P l -> P (a :: b :: c :: l)) -> forall l, P l.
Proof.
  intros P0 P1 P2 P3. fix IH 1. intros [|a [|b [|c l]]]; [exact P0|exact (P1 a)|exact (P2 a b)|exact (P3 a b c l (IH l))].
Qed.

Lemma encode_bytes_text l : bytes_ok l -> Forall (fun c => byte_ok c /\ is_newline c = false) (encode_bytes l).
Proof.
  assert (forall v, 0 <= v < 64 -> byte_ok (char v) /\ is_newline (char v) = false) as Hc by (intros v Hv; apply digit_char, Hv).
  assert (byte_ok 61 /\ is_newline 61 = false) as Hp by (split; [unfold byte_ok; lia|done]).
  unfold bytes_ok. induction l as [|a|a b|a b c l IH] using list_ind3; intros Hl; cbn [encode_bytes]; [done|..];
    decompose_Forall_hyps; unfold byte_ok in * |-; repeat apply Forall_cons_2; auto;
    apply Hc; Z.to_euclidean_division_equations; lia.
Qed.

Lemma quanta_encode l : bytes_ok l -> quanta (encode_bytes l) = Some l.
Proof.
  induction l as [|a|a b|a b c l IH] using list_ind3; intros Hl; cbn [encode_bytes]; [done|..];
    unfold bytes_ok in Hl; decompose_Forall_hyps; unfold byte_ok in *.
  - cbn [quanta]. rewrite !digit_of_char by (Z.to_euclidean_division_equations; lia). cbn [mbind option_bind digit].
    cbn. do 2 f_equal. Z.to_euclidean_division_equations; lia.
  - cbn [quanta]. rewrite !digit_of_char by (Z.to_euclidean_division_equations; lia).
    cbn. do 2 f_equal; [|f_equal]; Z.to_euclidean_division_equations; lia.
  - cbn [quanta]. rewrite !digit_of_char by (Z.to_euclidean_division_equations; lia).
    rewrite IH by done. cbn. do 2 f_equal; [|f_equal; [|f_equal]]; Z.to_euclidean_division_equations; lia.
Qed.

Lemma filter_keep {A} (P : A -> Prop) `{!forall x, Decision (P x)} l : Forall P l -> filter P l = l.
Proof. induction 1; [done|]. rewrite filter_cons_True by done. by f_equal. Qed.

Lemma base64_roundtrip l : bytes_ok l -> DecodeString (EncodeToString l) = Some l.
Proof.
  intros Hl. unfold DecodeString, EncodeToString. pose proof (encode_bytes_text l Hl) as Ht.
  rewrite bytes_of_string_of_bytes by (eapply Forall_impl; [done|naive_solver]).
  rewrite filter_keep by (eapply Forall_impl; [done|naive_solver]). by apply quanta_encode.
Qed.

End Base64.

(** [base64.RawURLEncoding]: "-" and "_" for "+" and "/", no padding. *)
Module RawURL.
Import Strings Base64.

Definition to_std (c : Z) : Z := if c =? 45 then 43 else if c =? 95 then 47 else c.
Definition from_std (c : Z) : Z := if c =? 43 then 45 else if c =? 47 then 95 else c.
Definition in_alphabet (c : Z) : bool :=
  negb (c =? 43) && negb (c =? 47) && match digit (to_std c) with Some _ => true | None => false end.
Definition pad (n : nat) : list Z := match (n mod 4)%nat with 2%nat => [61; 61] | 3%nat => [61] | _ => [] end.

Definition DecodeString (s : string) : option (list Z) :=
  let l := filter (fun c => is_newline c = false) (bytes_of_string s) in
  if forallb in_alphabet l then quanta (map to_std l ++ pad (length l)) else None.

Fixpoint unpadded (l : list Z) : list Z :=
  match l with
  | [] => []
  | [a] => [char (a / 4); char (a mod 4 * 16)]
  | [a; b] => [char (a / 4); char (a mod 4 * 16 + b / 16); char (b mod 16 * 4)]
  | a :: b :: c :: l' => char (a / 4) :: char (a mod 4 * 16 + b / 16) :: char (b mod 16 * 4 + c / 64) :: char (c mod 64) :: unpadded l'
  end.
Definition EncodeToString (l : list Z) : string := string_of_bytes (map from_std (unpadded l)).

Lemma char_url v : 0 <= v < 64 ->
  to_std (from_std (char v)) = char v /\ in_alphabet (from_std (char v)) = true /\ byte_ok (from_std (char v)) /\ is_newline (from_std (char v)) = false.
Proof.
  intros Hv. assert (forallb (fun v => let c := from_std (char v) in
    (to_std c =? char v) && in_alphabet c && ((0 <=? c) && (c <? 256)) && negb (is_newline c)) (seqZ 0 64) = true) as Hall by (vm_compute; reflexivity).
  rewrite forallb_forall in Hall. specialize (Hall v). cbv zeta in Hall. rewrite !andb_true_iff, negb_true_iff, Z.leb_le, Z.ltb_lt, Z.eqb_eq in Hall.
  destruct Hall as [[[? ?] ?] ?]; [apply list_elem_of_In, elem_of_seqZ; lia|done].
Qed.

Lemma unpadded_chars l : bytes_ok l -> Forall (fun c => exists v, 0 <= v < 64 /\ c = char v) (unpadded l).
Proof.
  unfold bytes_ok. induction l as [|a|a b|a b c l IH] using list_ind3; intros Hl; cbn [unpadded]; [done|..];
    decompose_Forall_hyps; unfold byte_ok in * |-; repeat apply Forall_cons_2; auto;
    eexists; (split; [|reflexivity]); Z.to_euclidean_division_equations; lia.
Qed.

Lemma unpadded_encode l : unpadded l ++ pad (length (unpadded l)) = encode_bytes l.
Proof.
  induction l as [|a|a b|a b c l IH] using list_ind3; cbn [unpadded encode_bytes]; [done..|]. rewrite <- IH. cbn [app length].
  do 4 f_equal. f_equal. unfold pad. change (S (S (S (S ?n)))) with (4 + n)%nat. by rewrite (Nat.add_comm 4), <- (Nat.mul_1_l 4), Nat.Div0.mod_add.
Qed.

Lemma rawurl_roundtrip l : bytes_ok l -> DecodeString (EncodeToString l) = Some l.
Proof.
  intros Hl. pose proof (unpadded_chars l Hl) as Hu.
  assert (Forall (fun c => to_std (from_std c) = c /\ in_alphabet (from_std c) = true /\ byte_ok (from_std c) /\ is_newline (from_std c) = false) (unpadded l)) as Hc.
  { eapply Forall_impl; [exact Hu|]. cbn. intros c (v & Hv & ->). by apply char_url. }
  unfold DecodeString, EncodeToString. rewrite bytes_of_string_of_bytes by (apply Forall_map; eapply Forall_impl; [exact Hc|]; cbn; tauto).
  rewrite filter_keep by (apply Forall_map; eapply Forall_impl; [exact Hc|]; cbn; tauto).
  rewrite (proj2 (forallb_forall _ _)).
  2: { intros c (c' & <- & Hin)%in_map_iff. rewrite Forall_forall in Hc. apply Hc. by apply list_elem_of_In. }
  rewrite map_map, length_map, (map_ext_in _ id), map_id, unpadded_encode; [by apply quanta_encode|].
  intros c Hin%list_elem_of_In. rewrite Forall_forall in Hc. by apply Hc.
Qed.

End RawURL.

Module Scan.
Import Strings.

(** The runes [fmt] treats as space, other than line feed, as UTF-8. *)
Definition space_runes : list (list Z) :=
  [[9]; [11]; [12]; [13]; [32]; [0xC2; 0x85]; [0xC2; 0xA0]; [0xE1; 0x9A; 0x80];
   [0xE2; 0x80; 0x80]; [0xE2; 0x80; 0x81]; [0xE2; 0x80; 0x82]; [0xE2; 0x80; 0x83];
   [0xE2; 0x80; 0x84]; [0xE2; 0x80; 0x85]; [0xE2; 0x80; 0x86]; [0xE2; 0x80; 0x87];
   [0xE2; 0x80; 0x88]; [0xE2; 0x80; 0x89]; [0xE2; 0x80; 0x8A]; [0xE2; 0x80; 0xA8];
   [0xE2; 0x80; 0xA9]; [0xE2; 0x80; 0xAF]; [0xE2; 0x81; 0x9F]; [0xE3; 0x80; 0x80]].

Fixpoint skip_space (fuel : nat) (l : list Z) : list Z :=
  match fuel with
  | O => l
  | S f =>
      match filter (fun p => take (length p) l = p) space_runes with
      | p :: _ => skip_space f (drop (length p) l)
      | [] => l
      end
  end.

(** [strings.TrimSpace]; space is the same set with the line feed. *)
Fixpoint trim_left (fuel : nat) (spaces : list (list Z)) (l : list Z) : list Z :=
  match fuel with
  | O => l
  | S f =>
      match filter (fun p => take (length p) l = p) spaces with
      | p :: _ => trim_left f spaces (drop (length p) l)
      | [] => l
      end
  end.
Definition TrimSpace (s : string) : string :=
  let spaces := [10] :: space_runes in
  let l := bytes_of_string s in
  let l := trim_left (length l) spaces l in
  string_of_bytes (reverse (trim_left (length l) (map reverse spaces) (reverse l))).

Definition is_digit (c : Z) : bool := (48 <=? c) && (c <=? 57).

Fixpoint take_digits (l : list Z) : list Z :=
  match l with
  | c :: l' => if is_digit c then c :: take_digits l' else []
  | [] => []
  end.

Definition dec_value (ds : list Z) : Z := foldl (fun acc c => acc * 10 + (c - 48)) 0 ds.

(** [fmt.Sscanf(s, "%d", &x)] for [x uint64]: leading space is skipped (a line
    feed is an error), the longest run of digits is the number, and whatever
    follows it is left unread: [Sscanf] does not require the input to end. *)
Definition sscanf_uint64 (s : string) : option Z :=
  let l := bytes_of_string s in
  let ds := take_digits (skip_space (length l) l) in
  if bool_decide (ds = []) then None
  else if dec_value ds <? 2 ^ 64 then Some (dec_value ds) else None.

Lemma skip_space_digit n c l : is_digit c = true -> skip_space n (c :: l) = c :: l.
Proof.
  intros Hc. destruct n as [|n]; [done|]. cbn [skip_space].
  destruct (filter _ space_runes) as [|p ps] eqn:E; [done|]. exfalso.
  assert (p ∈ p :: ps) as Hp by by left.
  rewrite <- E in Hp. apply list_elem_of_filter in Hp as [Ht Hp]. clear E.
  unfold is_digit in Hc. bool_to_prop. unfold space_runes in Hp.
  repeat (apply elem_of_cons in Hp as [->|Hp]; [cbn in Ht; injection Ht; lia|]). by apply not_elem_of_nil in Hp.
Qed.

Lemma take_digits_app ds c l :
  Forall (fun d => is_digit d = true) ds -> is_digit c = false -> take_digits (ds ++ c :: l) = ds.
Proof. induction 1 as [|d ds Hd _ IH]; intros Hc; cbn; [by rewrite Hc|]. by rewrite Hd, IH. Qed.

Lemma take_digits_all ds : Forall (fun d => is_digit d = true) ds -> take_digits ds = ds.
Proof. induction 1 as [|d ds Hd _ IH]; cbn; [done|]. by rewrite Hd, IH. Qed.

(** Whatever follows the number is ignored. *)
Lemma sscanf_uint64_suffix s c rest :
  s <> EmptyString -> Forall (fun d => is_digit d = true) (bytes_of_string s) ->
  is_digit (ascii_code c) = false ->
  sscanf_uint64 (s ++ String c rest) = sscanf_uint64 s.
Proof.
  intros Hs Hd Hc. unfold sscanf_uint64.
  rewrite bytes_of_string_app.
  destruct s as [|d s]; [done|]. cbn [bytes_of_string] in Hd |- *. inversion Hd; subst.
  rewrite <- !app_comm_cons, !skip_space_digit by done.
  rewrite (take_digits_all (ascii_code d :: bytes_of_string s)) by done.
  by rewrite app_comm_cons, take_digits_app by done.
Qed.

End Scan.
