(* ===== verification/AclPolicy.v ===== *)
(** * ACL policies: parsing and validation

    Models [src/internal/acl/policy.go].  A Go map that the code only looks up
    is a [gmap]; a map of the decoded TOML that the code ranges over is the
    list of its entries in the order the range visits them, so a statement
    about every list covers every iteration order.  The TOML decoder is
    third-party code and a parameter of [ParsePolicy]. *)
From Stdlib Require Import ZArith Lia Ascii.
From stdpp Require Import base numbers list gmap strings.
From S2P Require Import Prelude GoLib.
Import GoLib.Strings.

Module Policy.

#[local] Open Scope veld_scope.

Inductive DefaultAction := DefaultAllow | DefaultDeny.

#[export] Instance DefaultAction_eq_dec : EqDecision DefaultAction.
Proof. solve_decision. Defined.

(** [Proto] is a uint8. *)
Definition ProtoTCP : Z := 6.
Definition ProtoUDP : Z := 17.
Definition ProtoICMP : Z := 1.
Definition ProtoICMPv6 : Z := 58.
Definition ProtoAny : Z := 255.

Record PortRange := {
  pr_Proto : Z;
  pr_Start : Z;            (* uint16 *)
  pr_End : Z;              (* uint16 *)
  pr_matchICMPv6 : bool
}.

Definition ContainsPort (pr : PortRange) (port : Z) : bool :=
  if negb (pr_Proto pr =? ProtoAny) && negb (pr_Proto pr =? ProtoICMP)
     && negb (pr_Proto pr =? ProtoICMPv6)
  then (pr_Start pr <=? port) && (port <=? pr_End pr)
  else true.

Definition MatchesProto (pr : PortRange) (proto : Z) : bool :=
  (pr_Proto pr =? ProtoAny) || (pr_Proto pr =? proto)
  || (pr_matchICMPv6 pr && ((proto =? ProtoICMP) || (proto =? ProtoICMPv6))).

Record Rule := { r_From : string; r_To : string; r_Ports : list PortRange }.

(** [PeerKey]: 32 bytes. *)
Abbreviation PeerKey := (list Z).
Abbreviation peer_map := (gmap string (list Z)).
Abbreviation tag_map := (gmap string (list string)).

(** A non-fatal warning: rule index, from, to. *)
Definition warning : Type := nat * string * string.

Record Policy := {
  p_Version : Z;
  p_Default : DefaultAction;
  p_Peers : peer_map;
  p_Tags : tag_map;
  p_Rules : list Rule;
  p_OutboundOnly : list string;
  p_Warnings : list warning
}.

Record rawRule := { rr_From : string; rr_To : string; rr_Ports : list string }.

Record rawPolicy := {
  raw_Version : Z;
  raw_Default : string;
  raw_Peers : list (string * string);
  raw_Tags : list (string * list string);
  raw_Rules : list rawRule;
  raw_OutboundOnly : list string
}.

Inductive key_error := EKeyPrefix | EKeyLength (n : nat) | EKeyEncoding.
Inductive port_error :=
| EPortFormat (s : string) | EPortProto (s : string) | EPortRange (s : string)
| EPortNumber (s : string) | EPortMax (n : Z) | EPortOrder (a b : Z).
Inductive subject_error := ETagEmptyName | ETagUnknown (s : string) | EPeerUnknown (s : string).

Inductive policy_error :=
| EDecode (e : string)
| EUnknownFields (ks : list (list string))
| EVersion
| EDefaultRequired
| EDefaultInvalid (s : string)
| ENoPeers
| EPeerNameEmpty
| EPeerDuplicate (name : string)
| EPeerKey (name : string) (e : key_error)
| ETagNameEmpty
| ETagDuplicate (name : string)
| ETagNoPeers (name : string)
| ETagUnknownPeer (name peer : string)
| ERuleSubjects (i : nat)
| ERulePorts (i : nat)
| ERuleFrom (i : nat) (e : subject_error)
| ERuleTo (i : nat) (e : subject_error)
| ERulePort (i : nat) (s : string) (e : port_error)
| EOutboundUnknown (name : string).

Definition ParseDefaultAction (s : string) : result policy_error DefaultAction :=
  if String.eqb (to_lower s) "allow" then Ok DefaultAllow
  else if String.eqb (to_lower s) "deny" then Ok DefaultDeny
  else Err (EDefaultInvalid s).

Definition parsePeerKey (s : string) : result key_error PeerKey :=
  if negb (has_prefix "ed25519:" s) then Err EKeyPrefix
  else
    let encoded := drop_str 8 s in
    match Hex.DecodeString encoded with
    | Some decoded =>
        if negb (length decoded =? 32)%nat then Err (EKeyLength (length decoded)) else Ok decoded
    | None =>
        match Base64.DecodeString encoded with
        | Some decoded =>
            if negb (length decoded =? 32)%nat then Err (EKeyLength (length decoded)) else Ok decoded
        | None => Err EKeyEncoding
        end
    end.

Definition parsePort (s : string) : result port_error Z :=
  match Scan.sscanf_uint64 s with
  | None => Err (EPortNumber s)
  | Some port => if 65535 <? port then Err (EPortMax port) else Ok port
  end.

Definition icmp_range : PortRange :=
  {| pr_Proto := ProtoICMP; pr_Start := 0; pr_End := 65535; pr_matchICMPv6 := true |}.

(** The part of [parsePortRange] after the protocol is known. *)
Definition parsePortPart (proto : Z) (portStr : string) : result port_error PortRange :=
  if contains_char "-"%char portStr then
    match split_on "-"%char portStr with
    | [a; b] =>
        s <-! parsePort a;
        e <-! parsePort b;
        if e <? s then Err (EPortOrder s e)
        else Ok {| pr_Proto := proto; pr_Start := s; pr_End := e; pr_matchICMPv6 := false |}
    | _ => Err (EPortRange portStr)
    end
  else
    port <-! parsePort portStr;
    Ok {| pr_Proto := proto; pr_Start := port; pr_End := port; pr_matchICMPv6 := false |}.

Definition parsePortRange (s : string) : result port_error PortRange :=
  if String.eqb s "*" then
    Ok {| pr_Proto := ProtoAny; pr_Start := 0; pr_End := 65535; pr_matchICMPv6 := false |}
  else if equal_fold s "icmp" then Ok icmp_range
  else
    match split_on "/"%char s with
    | [protoPart; portStr] =>
        let protoStr := to_lower protoPart in
        if String.eqb protoStr "tcp" then parsePortPart ProtoTCP portStr
        else if String.eqb protoStr "udp" then parsePortPart ProtoUDP portStr
        else if String.eqb protoStr "icmp" then Ok icmp_range
        else Err (EPortProto protoStr)
    | _ => Err (EPortFormat s)
    end.

Definition validateSubject (subject : string) (peers : peer_map) (tags : tag_map)
  : result subject_error unit :=
  if String.eqb subject "*" then Ok tt
  else if has_prefix "tag:" subject then
    let tagName := drop_str 4 subject in
    if String.eqb tagName "" then Err ETagEmptyName
    else guard_err (bool_decide (is_Some (tags !! tagName))) (ETagUnknown tagName)
  else guard_err (bool_decide (is_Some (peers !! subject))) (EPeerUnknown subject).

(** [resolveSubject]: the set of keys a subject stands for. *)
Definition keys_of_names (peers : peer_map) (names : list string) : gset PeerKey :=
  list_to_set (omap (fun pn => peers !! pn) names).

Definition resolveSubject (subject : string) (peers : peer_map) (tags : tag_map) : gset PeerKey :=
  if String.eqb subject "*" then list_to_set (map_to_list peers).*2
  else if has_prefix "tag:" subject then
    keys_of_names peers (default [] (tags !! drop_str 4 subject))
  else keys_of_names peers [subject].

Definition isUnmatchable (rule : Rule) (peers : peer_map) (tags : tag_map) : bool :=
  let fromSet := resolveSubject (r_From rule) peers tags in
  let toSet := resolveSubject (r_To rule) peers tags in
  ((size fromSet =? 1)%nat && (size toSet =? 1)%nat && bool_decide (fromSet ∩ toSet ≠ ∅))
  || ((0 <? size fromSet)%nat && (0 <? size toSet)%nat && bool_decide (fromSet ∩ toSet = ∅)).

(** ** [validateAndCompile]: one definition per loop *)

Fixpoint validate_peers (l : list (string * string)) (peers : peer_map)
  : result policy_error peer_map :=
  match l with
  | [] => Ok peers
  | (name, keyStr) :: l' =>
      if String.eqb name "" then Err EPeerNameEmpty
      else if bool_decide (is_Some (peers !! name)) then Err (EPeerDuplicate name)
      else match parsePeerKey keyStr with
           | Err e => Err (EPeerKey name e)
           | Ok key => validate_peers l' (<[name := key]> peers)
           end
  end.

Fixpoint check_members (tagName : string) (ns : list string) (peers : peer_map)
  : result policy_error unit :=
  match ns with
  | [] => Ok tt
  | pn :: ns' =>
      if bool_decide (is_Some (peers !! pn)) then check_members tagName ns' peers
      else Err (ETagUnknownPeer tagName pn)
  end.

Fixpoint validate_tags (l : list (string * list string)) (peers : peer_map) (tags : tag_map)
  : result policy_error tag_map :=
  match l with
  | [] => Ok tags
  | (tagName, peerNames) :: l' =>
      if String.eqb tagName "" then Err ETagNameEmpty
      else if bool_decide (is_Some (tags !! tagName)) then Err (ETagDuplicate tagName)
      else if (length peerNames =? 0)%nat then Err (ETagNoPeers tagName)
      else
        _ <-! check_members tagName peerNames peers;
        validate_tags l' peers (<[tagName := peerNames]> tags)
  end.

Fixpoint parse_ports (i : nat) (l : list string) : result policy_error (list PortRange) :=
  match l with
  | [] => Ok []
  | portStr :: l' =>
      match parsePortRange portStr with
      | Err e => Err (ERulePort i portStr e)
      | Ok pr => rest <-! parse_ports i l'; Ok (pr :: rest)
      end
  end.

Definition validate_rule (i : nat) (rr : rawRule) (peers : peer_map) (tags : tag_map)
  : result policy_error Rule :=
  if String.eqb (rr_From rr) "" || String.eqb (rr_To rr) "" then Err (ERuleSubjects i)
  else if (length (rr_Ports rr) =? 0)%nat then Err (ERulePorts i)
  else match validateSubject (rr_From rr) peers tags with
  | Err e => Err (ERuleFrom i e)
  | Ok _ =>
  match validateSubject (rr_To rr) peers tags with
  | Err e => Err (ERuleTo i e)
  | Ok _ =>
      ports <-! parse_ports i (rr_Ports rr);
      Ok {| r_From := rr_From rr; r_To := rr_To rr; r_Ports := ports |}
  end end.

Fixpoint validate_rules (i : nat) (l : list rawRule) (peers : peer_map) (tags : tag_map)
  : result policy_error (list Rule) :=
  match l with
  | [] => Ok []
  | rr :: l' =>
      rule <-! validate_rule i rr peers tags;
      rest <-! validate_rules (S i) l' peers tags;
      Ok (rule :: rest)
  end.

Fixpoint validate_outbound (l : list string) (peers : peer_map) : result policy_error (list string) :=
  match l with
  | [] => Ok []
  | name :: l' =>
      if bool_decide (is_Some (peers !! name))
      then rest <-! validate_outbound l' peers; Ok (name :: rest)
      else Err (EOutboundUnknown name)
  end.

Definition unmatchable_warnings (rules : list Rule) (peers : peer_map) (tags : tag_map) : list warning :=
  omap (fun '(i, rule) =>
          if isUnmatchable rule peers tags then Some (i, r_From rule, r_To rule) else None)
       (imap pair rules).

Definition validateAndCompile (r : rawPolicy) : result policy_error Policy :=
  if raw_Version r <=? 0 then Err EVersion
  else if String.eqb (raw_Default r) "" then Err EDefaultRequired
  else
    defaultAction <-! ParseDefaultAction (raw_Default r);
    if (length (raw_Peers r) =? 0)%nat then Err ENoPeers
    else
      peers <-! validate_peers (raw_Peers r) ∅;
      tags <-! validate_tags (raw_Tags r) peers ∅;
      rules <-! validate_rules 0 (raw_Rules r) peers tags;
      outboundOnly <-! validate_outbound (raw_OutboundOnly r) peers;
      Ok {| p_Version := raw_Version r; p_Default := defaultAction; p_Peers := peers;
            p_Tags := tags; p_Rules := rules; p_OutboundOnly := outboundOnly;
            p_Warnings := unmatchable_warnings rules peers tags |}.

(** [ParsePolicy], over the TOML decoder: the decoded struct and the keys that
    matched no field, or the decoding error. *)
Definition ParsePolicy (decode : string -> result string (rawPolicy * list (list string)))
  (src : string) : result policy_error Policy :=
  match decode src with
  | Err e => Err (EDecode e)
  | Ok (raw, undecoded) =>
      if negb (length undecoded =? 0)%nat then Err (EUnknownFields undecoded)
      else validateAndCompile raw
  end.

(** ** What a validated policy satisfies *)

Definition port_ok (pr : PortRange) : Prop :=
  0 <= pr_Start pr <= pr_End pr /\ pr_End pr <= 65535 /\
  (pr_Proto pr = ProtoTCP \/ pr_Proto pr = ProtoUDP \/ pr_Proto pr = ProtoICMP \/ pr_Proto pr = ProtoAny).

Definition subject_ok (peers : peer_map) (tags : tag_map) (s : string) : Prop :=
  s = "*" \/ (has_prefix "tag:" s = true /\ is_Some (tags !! drop_str 4 s)) \/
  (has_prefix "tag:" s = false /\ is_Some (peers !! s)).

Definition rule_ok (peers : peer_map) (tags : tag_map) (r : Rule) : Prop :=
  subject_ok peers tags (r_From r) /\ subject_ok peers tags (r_To r) /\
  r_Ports r <> [] /\ Forall port_ok (r_Ports r).

Record policy_ok (p : Policy) : Prop := {
  po_version : 0 < p_Version p;
  po_peers : p_Peers p <> ∅;
  po_keys : forall n k, p_Peers p !! n = Some k -> n <> "" /\ length k = 32%nat;
  po_tags : forall t ns, p_Tags p !! t = Some ns ->
    t <> "" /\ ns <> [] /\ Forall (fun n => is_Some (p_Peers p !! n)) ns;
  po_rules : Forall (rule_ok (p_Peers p) (p_Tags p)) (p_Rules p);
  po_outbound : Forall (fun n => is_Some (p_Peers p !! n)) (p_OutboundOnly p)
}.

Lemma parsePeerKey_length s k : parsePeerKey s = Ok k -> length k = 32%nat.
Proof.
  unfold parsePeerKey. intros H. repeat case_in H; try discriminate; injection H as <-;
    match goal with H : negb (_ =? 32)%nat = false |- _ => by apply negb_false_iff, Nat.eqb_eq in H end.
Qed.

Lemma take_digits_ok l : Forall (fun c => is_true (Scan.is_digit c)) (Scan.take_digits l).
Proof.
  induction l as [|c l IH]; cbn; [constructor|].
  destruct (Scan.is_digit c) eqn:E; [|constructor]. constructor; [by rewrite E|done].
Qed.

Lemma dec_value_nonneg ds a :
  Forall (fun c => is_true (Scan.is_digit c)) ds -> 0 <= a ->
  0 <= foldl (fun acc c => acc * 10 + (c - 48)) a ds.
Proof.
  intros Hd. revert a. induction Hd as [|c ds Hc Hd IH]; intros a Ha; cbn; [done|].
  apply IH. unfold Scan.is_digit in Hc. destruct (48 <=? c) eqn:E; [|done]. bool_to_prop. lia.
Qed.

Lemma parsePort_range s v : parsePort s = Ok v -> 0 <= v <= 65535.
Proof.
  unfold parsePort. intros H. destruct (Scan.sscanf_uint64 s) as [x|] eqn:E; [|done].
  case_in H; simplify_eq. unfold Scan.sscanf_uint64 in E. repeat case_in E; simplify_eq.
  bool_to_prop. split; [|done]. apply dec_value_nonneg; [apply take_digits_ok|lia].
Qed.

Lemma parsePortRange_ok s pr : parsePortRange s = Ok pr -> port_ok pr.
Proof.
  assert (forall proto t q, parsePortPart proto t = Ok q -> proto = ProtoTCP \/ proto = ProtoUDP -> port_ok q)
    as Hpart.
  { intros proto t q H Hp. unfold parsePortPart in H. unfold port_ok.
    destruct (contains_char _ _).
    - destruct (split_on _ _) as [|a [|b []]]; try discriminate. ok_inv. bool_to_prop.
      repeat match goal with H : parsePort _ = Ok _ |- _ => apply parsePort_range in H end.
      cbn. intuition lia.
    - ok_inv. repeat match goal with H : parsePort _ = Ok _ |- _ => apply parsePort_range in H end.
      cbn. intuition lia. }
  unfold parsePortRange. intros H. repeat case_in H; try discriminate;
    try (injection H as <-; unfold port_ok, icmp_range, ProtoAny, ProtoICMP; cbn; lia); eauto.
Qed.

Lemma validateSubject_ok s peers tags :
  validateSubject s peers tags = Ok tt -> subject_ok peers tags s.
Proof.
  unfold validateSubject, subject_ok. intros H. ok_inv.
  - left. by apply String.eqb_eq.
  - right; left. by case_bool_decide.
  - right; right. by case_bool_decide.
Qed.

Lemma parse_ports_ok i l ports :
  parse_ports i l = Ok ports -> Forall port_ok ports /\ length ports = length l.
Proof.
  revert ports. induction l as [|a l IH]; intros ports H; cbn in H; ok_inv; [done|].
  match goal with H : parse_ports _ _ = Ok _ |- _ => apply IH in H as [? ?] end.
  split; [constructor; eauto using parsePortRange_ok|cbn; congruence].
Qed.

Lemma validate_rule_ok i rr peers tags r :
  validate_rule i rr peers tags = Ok r -> rule_ok peers tags r.
Proof.
  unfold validate_rule. intros H. ok_inv.
  repeat match goal with H : unit |- _ => destruct H end.
  match goal with H : parse_ports _ _ = Ok _ |- _ => apply parse_ports_ok in H as [? Hlen] end.
  unfold rule_ok. cbn. split_and!; eauto using validateSubject_ok. intros ->.
  destruct (rr_Ports rr); done.
Qed.

Lemma validate_rules_ok i l peers tags rs :
  validate_rules i l peers tags = Ok rs -> Forall (rule_ok peers tags) rs.
Proof.
  revert i rs. induction l as [|a l IH]; intros i rs H; cbn in H; ok_inv; constructor;
    eauto using validate_rule_ok.
Qed.

Lemma validate_outbound_ok l peers ns :
  validate_outbound l peers = Ok ns -> ns = l /\ Forall (fun n => is_Some (peers !! n)) ns.
Proof.
  revert ns. induction l as [|a l IH]; intros ns H; cbn in H; ok_inv; [done|].
  match goal with H : validate_outbound _ _ = Ok _ |- _ => apply IH in H as [-> ?] end.
  case_bool_decide; [|done]. split; [done|by constructor].
Qed.

(** ** The loops over maps, whatever the iteration order *)

(** One iteration of the peers loop, apart from the duplicate check. *)
Definition peer_entry (e : string * string) : option (string * PeerKey) :=
  if String.eqb e.1 "" then None
  else match parsePeerKey e.2 with Ok k => Some (e.1, k) | Err _ => None end.

Definition tag_entry (peers : peer_map) (e : string * list string) : option (string * list string) :=
  if String.eqb e.1 "" || (length e.2 =? 0)%nat then None
  else if forallb (fun n => bool_decide (is_Some (peers !! n))) e.2 then Some e else None.

Lemma check_members_ok t ns peers :
  check_members t ns peers = Ok tt <-> forallb (fun n => bool_decide (is_Some (peers !! n))) ns = true.
Proof. induction ns as [|n ns IH]; cbn; [done|]. destruct (bool_decide _); cbn; [done|naive_solver]. Qed.

(** A loop that inserts the entries one by one succeeds iff every entry is
    good and no key repeats, and then builds the map of the entries. *)
Section map_loop.
Context {V W : Type} (entry : string * V -> option (string * W))
  (loop : list (string * V) -> gmap string W -> result policy_error (gmap string W))
  (Hnil : forall acc, loop [] acc = Ok acc)
  (Hcons : forall e l acc m, loop (e :: l) acc = Ok m <->
     exists f, entry e = Some f /\ acc !! f.1 = None /\ loop l (<[f.1 := f.2]> acc) = Ok m).

Lemma loop_acc l acc m :
  loop l acc = Ok m <->
  exists es, mapM entry l = Some es /\ NoDup es.*1 /\
    (forall n, n ∈ es.*1 -> acc !! n = None) /\ m = list_to_map es ∪ acc.
Proof.
  revert acc. induction l as [|e l IH]; intros acc.
  - rewrite Hnil. split.
    + intros [= <-]. exists []. split_and!; [done|constructor|set_solver|].
      cbn. by rewrite (left_id_L ∅ (∪)).
    + intros (es & [= <-] & _ & _ & ->). cbn. by rewrite (left_id_L ∅ (∪)).
  - rewrite Hcons. split.
    + intros (f & Hf & Hacc & (es & Hes & Hnd & Hfr & ->)%IH). exists (f :: es).
      assert (f.1 ∉ es.*1) as Hnew.
      { intros Hin. specialize (Hfr _ Hin). by rewrite lookup_insert_eq in Hfr. }
      split_and!.
      * cbn. by rewrite Hf; cbn; rewrite Hes.
      * by constructor.
      * intros n [->|Hin]%elem_of_cons; [done|]. specialize (Hfr _ Hin).
        apply lookup_insert_None in Hfr. tauto.
      * cbn. destruct f as [k v]; cbn in *. rewrite <- insert_union_l, insert_union_r; [done|].
        by apply not_elem_of_list_to_map_1.
    + intros (es & Hes & Hnd & Hfr & ->). cbn in Hes.
      destruct (entry e) as [f|] eqn:Hf; [|done]. cbn in Hes.
      destruct (mapM entry l) as [es'|] eqn:Hm; [|done]. cbn in Hes. injection Hes as <-.
      cbn in Hnd, Hfr. apply NoDup_cons in Hnd as [Hnew Hnd].
      exists f. split_and!; [done|apply Hfr; set_solver|]. apply IH.
      exists es'. split_and!; try done.
      * intros n Hin. rewrite lookup_insert_ne by set_solver. apply Hfr. set_solver.
      * cbn. destruct f as [k v]; cbn in *. rewrite <- insert_union_l, insert_union_r; [done|].
        by apply not_elem_of_list_to_map_1.
Qed.

Lemma loop_permutation l l' m : l ≡ₚ l' -> loop l ∅ = Ok m -> loop l' ∅ = Ok m.
Proof.
  intros Hp (es & Hes & Hnd & _ & ->)%loop_acc. apply loop_acc.
  apply mapM_Some in Hes. apply (Permutation_Forall2 Hp) in Hes as (es' & Hpe & Hes').
  exists es'. split_and!.
  - by apply mapM_Some.
  - by rewrite <- Hpe.
  - intros. apply lookup_empty.
  - f_equal. by apply list_to_map_proper.
Qed.
End map_loop.

Lemma validate_peers_cons e l acc m :
  validate_peers (e :: l) acc = Ok m <->
  exists f, peer_entry e = Some f /\ acc !! f.1 = None /\ validate_peers l (<[f.1 := f.2]> acc) = Ok m.
Proof.
  destruct e as [name s]. cbn. unfold peer_entry. cbn.
  destruct (String.eqb name ""); [naive_solver|].
  destruct (parsePeerKey s) as [k|e].
  - case_bool_decide as Hs.
    + split; [done|]. intros (f & [= <-] & Hn & _). cbn in Hn. rewrite Hn in Hs. by destruct Hs.
    + apply eq_None_not_Some in Hs. split.
      * intros H. exists (name, k). done.
      * by intros (f & [= <-] & _ & H).
  - case_bool_decide; naive_solver.
Qed.

Lemma validate_tags_cons peers e l acc m :
  validate_tags (e :: l) peers acc = Ok m <->
  exists f, tag_entry peers e = Some f /\ acc !! f.1 = None /\ validate_tags l peers (<[f.1 := f.2]> acc) = Ok m.
Proof.
  destruct e as [t ns]. cbn. unfold tag_entry. cbn.
  destruct (String.eqb t ""); [naive_solver|]. cbn.
  destruct (length ns =? 0)%nat; [case_bool_decide; naive_solver|].
  case_bool_decide as Hs.
  - split; [done|]. intros (f & Hf & Hn & _). case_in Hf; [|done]. simplify_eq. cbn in Hn.
    rewrite Hn in Hs. by destruct Hs.
  - apply eq_None_not_Some in Hs. rewrite result_bind_Ok. split.
    + intros (u & Hu & H). destruct u. apply check_members_ok in Hu. rewrite Hu. exists (t, ns). done.
    + intros (f & Hf & _ & H). case_in Hf; [|done]. simplify_eq. exists tt.
      by rewrite check_members_ok.
Qed.

Lemma validate_peers_permutation l l' m :
  l ≡ₚ l' -> validate_peers l ∅ = Ok m -> validate_peers l' ∅ = Ok m.
Proof. apply (loop_permutation peer_entry validate_peers); [done|apply validate_peers_cons]. Qed.

Lemma validate_tags_permutation peers l l' m :
  l ≡ₚ l' -> validate_tags l peers ∅ = Ok m -> validate_tags l' peers ∅ = Ok m.
Proof.
  apply (loop_permutation (tag_entry peers) (fun l acc => validate_tags l peers acc));
    [done|apply validate_tags_cons].
Qed.

Lemma validate_peers_keys l m :
  validate_peers l ∅ = Ok m ->
  (l <> [] -> m <> ∅) /\ forall n k, m !! n = Some k -> n <> "" /\ length k = 32%nat.
Proof.
  intros (es & Hes & Hnd & _ & ->)%(loop_acc peer_entry validate_peers); [|done|apply validate_peers_cons].
  apply mapM_Some in Hes. rewrite (right_id_L ∅ (∪)). split.
  - intros Hl Hm. destruct es as [|[n k] es]; [by inversion Hes|]. by apply (insert_non_empty (list_to_map es) n k) in Hm.
  - intros n k Hk. apply elem_of_list_to_map_2, list_elem_of_lookup in Hk as (i & Hi).
    destruct (Forall2_lookup_r _ _ _ _ _ Hes Hi) as ([n' s] & _ & He).
    unfold peer_entry in He. cbn in He. repeat case_in He; simplify_eq.
    split; [by apply String.eqb_neq|by eapply parsePeerKey_length].
Qed.

Lemma validate_tags_members peers l m :
  validate_tags l peers ∅ = Ok m ->
  forall t ns, m !! t = Some ns -> t <> "" /\ ns <> [] /\ Forall (fun n => is_Some (peers !! n)) ns.
Proof.
  intros (es & Hes & Hnd & _ & ->)%(loop_acc (tag_entry peers) (fun l acc => validate_tags l peers acc));
    [|done|apply validate_tags_cons].
  apply mapM_Some in Hes. rewrite (right_id_L ∅ (∪)). intros t ns Hk.
  apply elem_of_list_to_map_2, list_elem_of_lookup in Hk as (i & Hi).
  destruct (Forall2_lookup_r _ _ _ _ _ Hes Hi) as ([t' ns'] & _ & He).
  unfold tag_entry in He. cbn in He. repeat case_in He; simplify_eq. bool_to_prop.
  split_and!; [by apply String.eqb_neq|by destruct ns|].
  apply Forall_forall. intros n Hn.
  match goal with H : forallb _ _ = true |- _ => rewrite List.forallb_forall in H;
    specialize (H n (proj1 (list_elem_of_In _ _) Hn)) end.
  by eapply bool_decide_eq_true_1.
Qed.

Lemma validate_rules_subjects i l peers tags rs :
  validate_rules i l peers tags = Ok rs ->
  (fun r => (r_From r, r_To r)) <$> rs = (fun rr => (rr_From rr, rr_To rr)) <$> l.
Proof.
  revert i rs. induction l as [|rr l IH]; intros i rs H; cbn in H; ok_inv; [done|].
  cbn. f_equal; [|eauto]. unfold validate_rule in *. ok_inv. done.
Qed.

(** ** Properties *)

Lemma policy_ok_of_validate r p : validateAndCompile r = Ok p -> policy_ok p.
Proof.
  unfold validateAndCompile. intros H. ok_inv. bool_to_prop.
  edestruct validate_peers_keys as [Hne Hkeys]; [done|].
  edestruct validate_outbound_ok as [-> Hout]; [done|].
  split; cbn; eauto using validate_tags_members, validate_rules_ok.
  apply Hne. intros HE. match goal with H : (length _ =? _)%nat = false |- _ => by rewrite HE in H end.
Qed.

(** a policy that validates is well formed: positive version, at least one
    peer, 32-byte keys, tags and outbound-only names that resolve, rules whose
    subjects resolve and whose port ranges are non-empty and ordered within
    uint16; and its rules are the rules of the file, in file order. *)
Theorem validateAndCompile_ok r p :
  validateAndCompile r = Ok p ->
  policy_ok p /\
  (fun x => (r_From x, r_To x)) <$> p_Rules p = (fun x => (rr_From x, rr_To x)) <$> raw_Rules r /\
  p_OutboundOnly p = raw_OutboundOnly r.
Proof.
  intros H. split; [by eapply policy_ok_of_validate|].
  unfold validateAndCompile in H. ok_inv.
  edestruct validate_outbound_ok as [-> Hout]; [done|].
  split; [by eapply validate_rules_subjects|done].
Qed.

(** The same raw policy with its maps visited in another order. *)
Definition same_maps (r r' : rawPolicy) : Prop :=
  raw_Version r = raw_Version r' /\ raw_Default r = raw_Default r' /\
  raw_Peers r ≡ₚ raw_Peers r' /\ raw_Tags r ≡ₚ raw_Tags r' /\
  raw_Rules r = raw_Rules r' /\ raw_OutboundOnly r = raw_OutboundOnly r'.

Lemma same_maps_sym r r' : same_maps r r' -> same_maps r' r.
Proof. unfold same_maps. intros (? & ? & ? & ? & ? & ?). split_and!; by symmetry. Qed.

Lemma validateAndCompile_same_maps r r' p :
  same_maps r r' -> validateAndCompile r = Ok p -> validateAndCompile r' = Ok p.
Proof.
  unfold same_maps, validateAndCompile. intros (<- & <- & Hp & Ht & <- & <-) H.
  assert (length (raw_Peers r') = length (raw_Peers r)) as -> by by rewrite Hp.
  ok_inv. repeat match goal with H : ?b = false |- context [if ?b then _ else _] => rewrite H end.
  repeat match goal with
  | H : ?m = Ok _ |- context [result_bind ?m _] => rewrite H; cbn [result_bind]
  | H : validate_peers _ _ = Ok _ |- context [validate_peers (raw_Peers r') _] =>
      rewrite (validate_peers_permutation _ _ _ Hp H); cbn [result_bind]
  | H : validate_tags _ _ _ = Ok _ |- context [validate_tags (raw_Tags r') _ _] =>
      rewrite (validate_tags_permutation _ _ _ _ Ht H); cbn [result_bind]
  end. done.
Qed.

(** the outcome does not depend on the order in which Go iterates over the
    peers and tags maps: visiting either map in another order gives the same
    policy, or no policy in both cases. *)
Theorem validateAndCompile_iteration_order r r' p :
  same_maps r r' -> validateAndCompile r = Ok p <-> validateAndCompile r' = Ok p.
Proof. split; apply validateAndCompile_same_maps; auto using same_maps_sym. Qed.

(** a port number is accepted with any trailing text: the scanner stops at
    the first character that is not a digit, so "80,443" or "22x" are the ports
    80 and 22 and the rest is dropped without an error. *)
Theorem parsePort_ignores_suffix s c rest v :
  Forall (fun d => Scan.is_digit d = true) (bytes_of_string s) ->
  Scan.is_digit (ascii_code c) = false ->
  parsePort s = Ok v -> parsePort (s ++ String c rest) = Ok v.
Proof.
  intros Hd Hc. unfold parsePort. destruct s as [|a s]; [done|].
  rewrite (Scan.sscanf_uint64_suffix (String a s) c rest) by done.
  by destruct (Scan.sscanf_uint64 _).
Qed.

Lemma parsePort_ignores_suffix_witness : parsePort "80,443" = Ok 80.
Proof.
  refine (parsePort_ignores_suffix "80" "," "443" 80 _ _ _); [|reflexivity|vm_compute; reflexivity].
  repeat constructor.
Defined.

(** A policy file: two peers, a tag, two rules. *)
Definition demo_key (d : string) : string :=
  ("ed25519:" ++ String.concat "" (replicate 32 d))%string.

Definition demo_raw : rawPolicy := {|
  raw_Version := 1; raw_Default := "deny";
  raw_Peers := [("alice", demo_key "0a"); ("bob", demo_key "0b"); ("cam", demo_key "0c")];
  raw_Tags := [("ops", ["alice"]); ("all", ["alice"; "bob"])];
  raw_Rules := [{| rr_From := "tag:ops"; rr_To := "bob"; rr_Ports := ["tcp/22"; "udp/1000-2000"] |};
                {| rr_From := "*"; rr_To := "alice"; rr_Ports := ["icmp"] |}];
  raw_OutboundOnly := ["cam"] |}.

Definition demo_raw' : rawPolicy := {|
  raw_Version := 1; raw_Default := "deny";
  raw_Peers := [("bob", demo_key "0b"); ("alice", demo_key "0a"); ("cam", demo_key "0c")];
  raw_Tags := [("all", ["alice"; "bob"]); ("ops", ["alice"])];
  raw_Rules := raw_Rules demo_raw;
  raw_OutboundOnly := ["cam"] |}.

Definition demo_policy : Policy :=
  match validateAndCompile demo_raw with
  | Ok p => p
  | Err _ => {| p_Version := 0; p_Default := DefaultDeny; p_Peers := ∅; p_Tags := ∅;
                p_Rules := []; p_OutboundOnly := []; p_Warnings := [] |}
  end.

Lemma validateAndCompile_ok_witness :
  policy_ok demo_policy /\ length (p_Rules demo_policy) = 2%nat.
Proof.
  split; [|by vm_compute].
  refine (proj1 (validateAndCompile_ok demo_raw demo_policy _)). vm_compute. reflexivity.
Defined.

Lemma validateAndCompile_iteration_order_witness : validateAndCompile demo_raw' = Ok demo_policy.
Proof.
  refine (proj1 (validateAndCompile_iteration_order demo_raw demo_raw' demo_policy _) _).
  - unfold same_maps. cbn. repeat split; [apply perm_swap|apply perm_swap].
  - vm_compute. reflexivity.
Defined.

End Policy.
