(* ===== verification/AclCompile.v ===== *)
(** * ACL decisions: the compiled policy, its combination and its loader

    Models [src/internal/acl/compile.go] and [src/internal/acl/loader.go].
    The interface [PolicyDecider] is the type of its implementations; the
    [PolicySwap] pointer is shared and mutable, so a decider is evaluated in
    the current content of the swap. *)
From Stdlib Require Import ZArith Lia Ascii.
From stdpp Require Import base numbers list gmap strings.
From S2P Require Import Prelude GoLib AclPolicy.
Import GoLib.Strings AclPolicy.Policy.

Module Compiled.

Inductive Action := ActionAllow | ActionDeny.

#[export] Instance Action_eq_dec : EqDecision Action.
Proof. solve_decision. Defined.

Record Decision := { d_Action : Action; d_RuleIndex : Z; d_OutboundOnly : bool }.

Record compiledRule := {
  srcPeers : gset PeerKey;
  dstPeers : gset PeerKey;
  srcAny : bool;
  dstAny : bool;
  ports : list PortRange;
  ruleIndex : nat
}.

Record CompiledPolicy := {
  rules : list compiledRule;
  defaultAction : Action;
  outboundOnly : gset PeerKey;
  knownPeers : gset PeerKey
}.

(** [Action(p.Default)]: both enumerations start with "allow". *)
Definition action_of_default (d : DefaultAction) : Action :=
  match d with DefaultAllow => ActionAllow | DefaultDeny => ActionDeny end.

Definition resolveSubjectToPeers (subject : string) (peers : peer_map) (tags : tag_map)
  : gset PeerKey :=
  if String.eqb subject "*" then ∅
  else if has_prefix "tag:" subject then
    keys_of_names peers (default [] (tags !! drop_str 4 subject))
  else keys_of_names peers [subject].

Definition compile_rule (p : Policy) (ruleIdx : nat) (rule : Rule) : compiledRule := {|
  srcPeers := resolveSubjectToPeers (r_From rule) (p_Peers p) (p_Tags p);
  dstPeers := resolveSubjectToPeers (r_To rule) (p_Peers p) (p_Tags p);
  srcAny := String.eqb (r_From rule) "*";
  dstAny := String.eqb (r_To rule) "*";
  ports := r_Ports rule;
  ruleIndex := ruleIdx
|}.

Definition Compile (p : Policy) : CompiledPolicy := {|
  rules := imap (compile_rule p) (p_Rules p);
  defaultAction := action_of_default (p_Default p);
  outboundOnly := keys_of_names (p_Peers p) (p_OutboundOnly p);
  knownPeers := list_to_set (map_to_list (p_Peers p)).*2
|}.

(** The loop over the rules: [None] falls through to the default. *)
Fixpoint decide_rules (cp : CompiledPolicy) (rs : list compiledRule) (src dst : PeerKey)
  (proto port : Z) : option Decision :=
  match rs with
  | [] => None
  | rule :: rest =>
      if negb (dstAny rule) && negb (bool_decide (dst ∈ dstPeers rule)) then
        decide_rules cp rest src dst proto port
      else if negb (srcAny rule) && negb (bool_decide (src ∈ srcPeers rule)) then
        decide_rules cp rest src dst proto port
      else if existsb (fun pr => MatchesProto pr proto && ContainsPort pr port) (ports rule) then
        if bool_decide (dst ∈ outboundOnly cp)
        then Some {| d_Action := ActionDeny; d_RuleIndex := -1; d_OutboundOnly := true |}
        else Some {| d_Action := ActionAllow; d_RuleIndex := Z.of_nat (ruleIndex rule);
                     d_OutboundOnly := false |}
      else decide_rules cp rest src dst proto port
  end.

Definition Decide (cp : CompiledPolicy) (src dst : PeerKey) (proto port : Z) : Decision :=
  match decide_rules cp (rules cp) src dst proto port with
  | Some d => d
  | None =>
      if negb (bool_decide (dst ∈ knownPeers cp)) then
        {| d_Action := defaultAction cp; d_RuleIndex := -1; d_OutboundOnly := false |}
      else if bool_decide (dst ∈ outboundOnly cp) then
        {| d_Action := ActionDeny; d_RuleIndex := -1; d_OutboundOnly := true |}
      else {| d_Action := defaultAction cp; d_RuleIndex := -1; d_OutboundOnly := false |}
  end.

(** ** The source-level reading of a policy *)

(** The keys a subject of the policy file stands for. *)
Definition denotes (p : Policy) (subject : string) (k : PeerKey) : Prop :=
  subject = "*" \/
  (has_prefix "tag:" subject = true /\
   exists ns n, p_Tags p !! drop_str 4 subject = Some ns /\ n ∈ ns /\ p_Peers p !! n = Some k) \/
  (subject <> "*" /\ has_prefix "tag:" subject = false /\ p_Peers p !! subject = Some k).

Definition rule_matches (p : Policy) (src dst : PeerKey) (proto port : Z) (r : Rule) : Prop :=
  denotes p (r_To r) dst /\ denotes p (r_From r) src /\
  Exists (fun pr => MatchesProto pr proto = true /\ ContainsPort pr port = true) (r_Ports r).

Definition is_outbound_only (p : Policy) (k : PeerKey) : Prop :=
  exists n, n ∈ p_OutboundOnly p /\ p_Peers p !! n = Some k.

Definition is_first_match (p : Policy) (src dst : PeerKey) (proto port : Z) (i : nat) : Prop :=
  (exists r, p_Rules p !! i = Some r /\ rule_matches p src dst proto port r) /\
  forall j r, (j < i)%nat -> p_Rules p !! j = Some r -> ~ rule_matches p src dst proto port r.

(** The decision the policy file specifies. *)
Inductive policy_says (p : Policy) (src dst : PeerKey) (proto port : Z) : Decision -> Prop :=
| Says_outbound :
    is_outbound_only p dst ->
    policy_says p src dst proto port
      {| d_Action := ActionDeny; d_RuleIndex := -1; d_OutboundOnly := true |}
| Says_rule i :
    ~ is_outbound_only p dst -> is_first_match p src dst proto port i ->
    policy_says p src dst proto port
      {| d_Action := ActionAllow; d_RuleIndex := Z.of_nat i; d_OutboundOnly := false |}
| Says_default :
    ~ is_outbound_only p dst -> (forall i, ~ is_first_match p src dst proto port i) ->
    policy_says p src dst proto port
      {| d_Action := action_of_default (p_Default p); d_RuleIndex := -1; d_OutboundOnly := false |}.

(** ** Correspondence of the compiled policy with the file *)

Lemma elem_of_keys_of_names peers names k :
  k ∈ keys_of_names peers names <-> exists n, n ∈ names /\ peers !! n = Some k.
Proof.
  unfold keys_of_names. rewrite elem_of_list_to_set, list_elem_of_omap. done.
Qed.

Lemma subject_denotes p s k :
  String.eqb s "*" = true \/ k ∈ resolveSubjectToPeers s (p_Peers p) (p_Tags p) <-> denotes p s k.
Proof.
  unfold denotes, resolveSubjectToPeers. destruct (String.eqb_spec s "*") as [->|Hs]; [naive_solver|].
  destruct (has_prefix "tag:" s) eqn:Ht; rewrite elem_of_keys_of_names.
  - split.
    + intros [?|(n & Hn & Hk)]; [done|]. destruct (p_Tags p !! drop_str 4 s) eqn:E; cbn in Hn; [|set_solver].
      right; left. naive_solver.
    + intros [?|[(_ & ns & n & -> & Hn & Hk)|(_ & ? & _)]]; naive_solver.
  - setoid_rewrite list_elem_of_singleton. naive_solver.
Qed.

Lemma any_or_member (b : bool) (X : gset PeerKey) (k : PeerKey) :
  negb b && negb (bool_decide (k ∈ X)) = false <-> b = true \/ k ∈ X.
Proof. destruct b; cbn; [naive_solver|]. rewrite negb_false_iff, bool_decide_eq_true. naive_solver. Qed.

Lemma ports_Exists prs proto port :
  existsb (fun pr => MatchesProto pr proto && ContainsPort pr port) prs = true <->
  Exists (fun pr => MatchesProto pr proto = true /\ ContainsPort pr port = true) prs.
Proof.
  rewrite existsb_exists, Exists_exists. setoid_rewrite andb_true_iff.
  setoid_rewrite list_elem_of_In. done.
Qed.

(** The guards of the loop, for one compiled rule. *)
Definition cr_matches (cr : compiledRule) (src dst : PeerKey) (proto port : Z) : bool :=
  negb (negb (dstAny cr) && negb (bool_decide (dst ∈ dstPeers cr))) &&
  negb (negb (srcAny cr) && negb (bool_decide (src ∈ srcPeers cr))) &&
  existsb (fun pr => MatchesProto pr proto && ContainsPort pr port) (ports cr).

Lemma cr_matches_spec p i r src dst proto port :
  cr_matches (compile_rule p i r) src dst proto port = true <-> rule_matches p src dst proto port r.
Proof.
  unfold cr_matches, rule_matches. rewrite !andb_true_iff, !negb_true_iff, !any_or_member, ports_Exists.
  cbn [compile_rule srcPeers dstPeers srcAny dstAny ports]. rewrite !subject_denotes. tauto.
Qed.

Lemma decide_rules_cons cp cr rs src dst proto port :
  decide_rules cp (cr :: rs) src dst proto port =
  if cr_matches cr src dst proto port then
    Some (if bool_decide (dst ∈ outboundOnly cp)
          then {| d_Action := ActionDeny; d_RuleIndex := -1; d_OutboundOnly := true |}
          else {| d_Action := ActionAllow; d_RuleIndex := Z.of_nat (ruleIndex cr); d_OutboundOnly := false |})
  else decide_rules cp rs src dst proto port.
Proof.
  cbn [decide_rules]. unfold cr_matches.
  destruct (negb (dstAny cr) && _), (negb (srcAny cr) && _), (existsb _ _); cbn; try done.
  by destruct (bool_decide _).
Qed.

(** What the rule loop returns, from the rule with index [k] on. *)
Lemma decide_rules_spec p cp src dst proto port rs k :
  match decide_rules cp (imap (fun i => compile_rule p (k + i)) rs) src dst proto port with
  | Some d =>
      exists i r, rs !! i = Some r /\ rule_matches p src dst proto port r /\
        (forall j r', (j < i)%nat -> rs !! j = Some r' -> ~ rule_matches p src dst proto port r') /\
        d = if bool_decide (dst ∈ outboundOnly cp)
            then {| d_Action := ActionDeny; d_RuleIndex := -1; d_OutboundOnly := true |}
            else {| d_Action := ActionAllow; d_RuleIndex := Z.of_nat (k + i); d_OutboundOnly := false |}
  | None => forall i r, rs !! i = Some r -> ~ rule_matches p src dst proto port r
  end.
Proof.
  revert k. induction rs as [|r rs IH]; intros k; [by cbn|].
  rewrite imap_cons, decide_rules_cons.
  destruct (cr_matches _ _ _ _ _) eqn:E.
  - apply cr_matches_spec in E. exists 0%nat, r. split_and!; [done..|lia|]. cbn [ruleIndex compile_rule].
    done.
  - assert (~ rule_matches p src dst proto port r) as Hno.
    { rewrite <- (cr_matches_spec p (k + 0)). congruence. }
    specialize (IH (S k)).
    rewrite (imap_ext _ (fun i => compile_rule p (S k + i))) by (intros; cbn; f_equal; lia).
    destruct (decide_rules _ _ _ _ _ _) as [d|].
    + destruct IH as (i & r' & Hi & Hm & Hj & ->). exists (S i), r'. split_and!; try done.
      * intros [|j] r'' Hlt Hl; cbn in Hl; [naive_solver|]. apply (Hj j); [lia|done].
      * by replace (k + S i)%nat with (S k + i)%nat by lia.
    + intros [|i] r' Hl; cbn in Hl; naive_solver.
Qed.

Lemma outboundOnly_Compile p k : k ∈ outboundOnly (Compile p) <-> is_outbound_only p k.
Proof. apply elem_of_keys_of_names. Qed.

Lemma outbound_known p k : is_outbound_only p k -> k ∈ knownPeers (Compile p).
Proof.
  intros (n & _ & Hk). cbn. apply elem_of_list_to_set, list_elem_of_fmap.
  exists (n, k). split; [done|]. by apply elem_of_map_to_list.
Qed.

Lemma first_match_unique p src dst proto port i j :
  is_first_match p src dst proto port i -> is_first_match p src dst proto port j -> i = j.
Proof.
  intros [(ri & Hi & Mi) Fi] [(rj & Hj & Mj) Fj].
  destruct (Nat.lt_trichotomy i j) as [?|[?|?]]; [exfalso|done|exfalso]; naive_solver.
Qed.

Lemma Decide_sound p src dst proto port :
  policy_says p src dst proto port (Decide (Compile p) src dst proto port).
Proof.
  unfold Decide. pose proof (decide_rules_spec p (Compile p) src dst proto port (p_Rules p) 0) as H.
  cbn [plus] in H. change (imap (fun i => compile_rule p i) (p_Rules p)) with (rules (Compile p)) in H.
  destruct (decide_rules _ _ _ _ _ _) as [d|].
  - destruct H as (i & r & Hi & Hm & Hj & ->). case_bool_decide as Ho; rewrite outboundOnly_Compile in Ho.
    + by constructor.
    + constructor; [done|]. split; [eauto|]. intros; eapply Hj; eauto.
  - assert (forall i, ~ is_first_match p src dst proto port i) as Hn.
    { intros i [(r & Hr & Hm) _]. naive_solver. }
    case_bool_decide as Hk; cbn [negb].
    + case_bool_decide as Ho; rewrite outboundOnly_Compile in Ho; by constructor.
    + constructor; [|done]. intros Ho. by apply outbound_known in Ho.
Qed.

Lemma policy_says_functional p src dst proto port d1 d2 :
  policy_says p src dst proto port d1 -> policy_says p src dst proto port d2 -> d1 = d2.
Proof.
  destruct 1, 1; try done; try (exfalso; naive_solver).
  by erewrite (first_match_unique p src dst proto port i); eauto.
Qed.

(** C10: the compiled policy decides exactly as the policy file reads: an
    outbound-only destination is always denied; otherwise the first rule in
    file order whose "to", "from" and ports cover the packet allows it and is
    the one reported; otherwise the default action applies. *)
Theorem Decide_correct p src dst proto port d :
  Decide (Compile p) src dst proto port = d <-> policy_says p src dst proto port d.
Proof.
  split; [intros <-; apply Decide_sound|].
  eauto using policy_says_functional, Decide_sound.
Qed.

Lemma resolve_denotes p s k :
  s <> "*" -> denotes p s k -> k ∈ resolveSubject s (p_Peers p) (p_Tags p).
Proof.
  intros Hs Hd. apply subject_denotes in Hd as [Hd|Hd]; [by apply String.eqb_eq in Hd|].
  unfold resolveSubjectToPeers in Hd. unfold resolveSubject.
  by destruct (String.eqb_spec s "*").
Qed.

Lemma elem_of_size_pos (X : gset PeerKey) (k : PeerKey) : k ∈ X -> (0 <? size X)%nat = true.
Proof.
  intros Hk. apply Nat.ltb_lt. destruct (size X) eqn:E; [|lia].
  apply size_empty_inv in E. set_solver.
Qed.

(** the validator's "can never match" warning is raised for rules that do
    match: every rule between two named subjects with no peer in common is
    reported, although each packet between their members on its ports matches
    it. *)
Theorem warned_rule_matches p r src dst proto port :
  rule_matches p src dst proto port r -> r_From r <> "*" -> r_To r <> "*" ->
  resolveSubject (r_From r) (p_Peers p) (p_Tags p) ∩ resolveSubject (r_To r) (p_Peers p) (p_Tags p) = ∅ ->
  isUnmatchable r (p_Peers p) (p_Tags p) = true.
Proof.
  intros (Hto & Hfrom & _) Hf Ht Hdisj. unfold isUnmatchable.
  apply resolve_denotes, elem_of_size_pos in Hto, Hfrom; [|done..].
  rewrite Hto, Hfrom, (bool_decide_eq_true_2 (_ = ∅)) by done. cbn. apply orb_true_r.
Qed.

(** The demo policy's rule from "tag:ops" to "bob", with its two members. *)
Definition demo_rule : Rule :=
  {| r_From := "tag:ops"; r_To := "bob";
     r_Ports := [{| pr_Proto := 6; pr_Start := 22; pr_End := 22; pr_matchICMPv6 := false |};
                 {| pr_Proto := 17; pr_Start := 1000; pr_End := 2000; pr_matchICMPv6 := false |}] |}.

Lemma warned_rule_matches_witness :
  isUnmatchable demo_rule (p_Peers demo_policy) (p_Tags demo_policy) = true /\
  d_RuleIndex (Decide (Compile demo_policy) (replicate 32 10) (replicate 32 11) 6 22) = 0.
Proof.
  split; [|vm_compute; reflexivity].
  refine (warned_rule_matches demo_policy demo_rule (replicate 32 10) (replicate 32 11) 6 22 _ _ _ _);
    [|done..|vm_compute; reflexivity].
  apply (cr_matches_spec demo_policy 0). vm_compute. reflexivity.
Defined.

End Compiled.

(** ** Combining deciders *)
Module Combined.
Import Compiled.

(** [PolicyDecider]: a compiled policy, the swap shared with the loader, or a
    combination. *)
Inductive PolicyDecider :=
| PDPolicy (cp : CompiledPolicy)
| PDSwap
| PDCombined (local network : PolicyDecider).

(** [PolicySwap.Decide], over the content of the pointer. *)
Definition swap_Decide (swap : option CompiledPolicy) (src dst : PeerKey) (proto port : Z) : Decision :=
  match swap with
  | None => {| d_Action := ActionDeny; d_RuleIndex := -1; d_OutboundOnly := false |}
  | Some cp => Decide cp src dst proto port
  end.

(** [combinedPolicy.Decide], over the decisions of its two parts. *)
Definition combined_Decide (localDec netDec : Decision) : Decision :=
  if decide (d_Action localDec = ActionDeny) then localDec
  else if decide (d_Action netDec = ActionDeny) then netDec
  else if 0 <=? d_RuleIndex localDec then localDec
  else netDec.

(** Dynamic dispatch of [Decide], in the current content of the swap. *)
Fixpoint dispatch (swap : option CompiledPolicy) (d : PolicyDecider) (src dst : PeerKey)
  (proto port : Z) : Decision :=
  match d with
  | PDPolicy cp => Decide cp src dst proto port
  | PDSwap => swap_Decide swap src dst proto port
  | PDCombined l n => combined_Decide (dispatch swap l src dst proto port) (dispatch swap n src dst proto port)
  end.

(** A nil interface value is [None]. *)
Definition Combine (local network : option PolicyDecider) : option PolicyDecider :=
  match local, network with
  | None, _ => network
  | _, None => local
  | Some l, Some n => Some (PDCombined l n)
  end.

Definition allows (swap : option CompiledPolicy) (src dst : PeerKey) (proto port : Z)
  (d : PolicyDecider) : Prop :=
  d_Action (dispatch swap d src dst proto port) = ActionAllow.

Lemma combined_allow a b :
  d_Action (combined_Decide a b) = ActionAllow <-> d_Action a = ActionAllow /\ d_Action b = ActionAllow.
Proof. unfold combined_Decide. repeat case_decide; [..|destruct (0 <=? _)]; destruct (d_Action a), (d_Action b); naive_solver. Qed.

(** a packet passes the combination of a local and a network decider
    exactly when every decider that is present allows it, whatever the
    deciders are (combinations included) and whatever the swap holds. *)
Theorem Combine_allows swap local network d src dst proto port :
  Combine local network = Some d ->
  allows swap src dst proto port d <->
  (forall l, local = Some l -> allows swap src dst proto port l) /\
  (forall n, network = Some n -> allows swap src dst proto port n).
Proof.
  unfold allows. destruct local as [l|], network as [n|]; cbn; intros [= <-]; cbn; rewrite ?combined_allow;
    naive_solver.
Qed.

Lemma Combine_allows_witness :
  let cp := Compile demo_policy in
  let a := default [] (p_Peers demo_policy !! "alice") in
  let b := default [] (p_Peers demo_policy !! "bob") in
  allows (Some cp) a b 6 22 (PDCombined PDSwap (PDPolicy cp)).
Proof.
  apply (Combine_allows (Some (Compile demo_policy)) (Some PDSwap) (Some (PDPolicy (Compile demo_policy)))
    (PDCombined PDSwap (PDPolicy (Compile demo_policy)))).
  - reflexivity.
  - split; intros ? [= <-]; vm_compute; reflexivity.
Defined.

End Combined.

(** ** The drop counters and the loader of the local policy *)
Module Loader.
Import Compiled Combined.
#[local] Open Scope veld_scope.

Record DropCounters := {
  byPeer : gmap PeerKey Z;
  byRule : gmap Z Z;
  byOutboundOnly : gmap PeerKey Z
}.

Definition NewDropCounters : DropCounters := {| byPeer := ∅; byRule := ∅; byOutboundOnly := ∅ |}.

(** [m[k]++] on a map of uint64. *)
Definition incr {K} `{Countable K} (k : K) (m : gmap K Z) : gmap K Z :=
  <[k := u64 (default 0 (m !! k) + 1)]> m.

Definition IncrementPeer (k : PeerKey) (dc : DropCounters) : DropCounters :=
  {| byPeer := incr k (byPeer dc); byRule := byRule dc; byOutboundOnly := byOutboundOnly dc |}.
Definition IncrementRule (i : Z) (dc : DropCounters) : DropCounters :=
  {| byPeer := byPeer dc; byRule := incr i (byRule dc); byOutboundOnly := byOutboundOnly dc |}.
Definition IncrementOutboundOnly (k : PeerKey) (dc : DropCounters) : DropCounters :=
  {| byPeer := byPeer dc; byRule := byRule dc; byOutboundOnly := incr k (byOutboundOnly dc) |}.
Definition GetPeerDrops (k : PeerKey) (dc : DropCounters) : Z := default 0 (byPeer dc !! k).
Definition GetRuleDrops (i : Z) (dc : DropCounters) : Z := default 0 (byRule dc !! i).
Definition GetOutboundOnlyDrops (k : PeerKey) (dc : DropCounters) : Z :=
  default 0 (byOutboundOnly dc !! k).

(** Times are nanoseconds since the Unix epoch; [time_zero] is Go's zero
    [time.Time].  [now.Sub] saturates at the int64 range, which does not change
    its comparison with a small duration. *)
Definition time_zero : Z := - 62135596800 * 10 ^ 9.
Definition ms : Z := 10 ^ 6.
Definition sec : Z := 10 ^ 9.

Record LocalPolicyLoader := {
  l_swap : option CompiledPolicy;
  l_network : option PolicyDecider;
  l_lastModTime : Z;
  l_lastErrorLog : Z;
  l_dropCounters : DropCounters
}.

Definition NewLocalPolicyLoader (swap : option CompiledPolicy) (network : option PolicyDecider)
  : LocalPolicyLoader :=
  {| l_swap := swap; l_network := network; l_lastModTime := time_zero;
     l_lastErrorLog := time_zero; l_dropCounters := NewDropCounters |}.

Inductive goos := Linux | Windows | OtherOS.

#[export] Instance goos_eq_dec : EqDecision goos.
Proof. solve_decision. Defined.

(** What [os.Stat] and [os.ReadFile] report of the policy file. *)
Record file := { f_mode : Z; f_uid : Z; f_mtime : Z; f_data : option string }.
Inductive stat := StatMissing | StatError | StatFile (f : file).

Inductive load_error := LStat | LWritable | LOwner | LRead | LParse (e : policy_error).

Definition checkRootOrCurrentOwnership (os : goos) (euid : Z) (f : file) : result load_error unit :=
  match os with
  | Linux => guard_err ((f_uid f =? 0) || (f_uid f =? u32 euid)) LOwner
  | _ => Ok tt
  end.

Definition validatePolicyFilePermissions (os : goos) (euid : Z) (f : file) : result load_error unit :=
  if decide (os = Windows) then Ok tt
  else if negb (Z.land (f_mode f) 18 =? 0) then Err LWritable
  else if decide (os = Linux) then checkRootOrCurrentOwnership os euid f
  else Ok tt.

Definition with_swap (l : LocalPolicyLoader) (cp : option CompiledPolicy) : LocalPolicyLoader :=
  {| l_swap := cp; l_network := l_network l; l_lastModTime := l_lastModTime l;
     l_lastErrorLog := l_lastErrorLog l; l_dropCounters := l_dropCounters l |}.
Definition with_modtime (l : LocalPolicyLoader) (t : Z) : LocalPolicyLoader :=
  {| l_swap := l_swap l; l_network := l_network l; l_lastModTime := t;
     l_lastErrorLog := l_lastErrorLog l; l_dropCounters := l_dropCounters l |}.
Definition with_errorlog (l : LocalPolicyLoader) (t : Z) : LocalPolicyLoader :=
  {| l_swap := l_swap l; l_network := l_network l; l_lastModTime := l_lastModTime l;
     l_lastErrorLog := t; l_dropCounters := l_dropCounters l |}.

Section Load.
(** The TOML decoder, the platform and the effective user. *)
Variable decode : string -> result string (rawPolicy * list (list string)).
Variable os : goos.
Variable euid : Z.

(** [Load] up to the point where it stores: the policy of the file. *)
Definition read_policy (f : file) : result load_error Policy :=
  _ <-! validatePolicyFilePermissions os euid f;
  match f_data f with
  | None => Err LRead
  | Some data =>
      match ParsePolicy decode data with
      | Err e => Err (LParse e)
      | Ok p => Ok p
      end
  end.

Definition Load (st : stat) (l : LocalPolicyLoader) : result load_error unit * LocalPolicyLoader :=
  match st with
  | StatMissing => (Ok tt, with_swap l None)
  | StatError => (Err LStat, l)
  | StatFile f =>
      match read_policy f with
      | Err e => (Err e, l)
      | Ok p => (Ok tt, with_modtime (with_swap l (Some (Compile p))) (f_mtime f))
      end
  end.

(** [logError]: the new state and whether the error was printed. *)
Definition logError (now : Z) (l : LocalPolicyLoader) : LocalPolicyLoader * bool :=
  if now - l_lastErrorLog l <? 30 * sec then (l, false) else (with_errorlog l now, true).

Definition Reload (now : Z) (st : stat) (l : LocalPolicyLoader)
  : result load_error unit * LocalPolicyLoader :=
  match Load st l with
  | (Err e, l') => (Err e, (logError now l').1)
  | r => r
  end.

(** One event of [watchLoop]: whether it names the policy file, whether its
    operation is a write, create, rename or remove, the clock and the file
    as [Load] finds it. *)
Definition watch_event (same_file relevant : bool) (now : Z) (st : stat) (l : LocalPolicyLoader)
  : LocalPolicyLoader :=
  if negb same_file then l
  else if negb relevant then l
  else if now - l_lastModTime l <? 100 * ms then l
  else
    match Load st (with_modtime l now) with
    | (Err _, l') => (logError now l').1
    | (Ok _, l') => l'
    end.

Definition watch_error (now : Z) (l : LocalPolicyLoader) : LocalPolicyLoader := (logError now l).1.

Definition SetNetworkPolicy (network : option PolicyDecider) (l : LocalPolicyLoader) : LocalPolicyLoader :=
  {| l_swap := l_swap l; l_network := network; l_lastModTime := l_lastModTime l;
     l_lastErrorLog := l_lastErrorLog l; l_dropCounters := l_dropCounters l |}.

(** [Combine(l.swap, network)]: the swap itself is never nil. *)
Definition CombinedPolicy (l : LocalPolicyLoader) : option PolicyDecider :=
  Combine (Some PDSwap) (l_network l).

(** The loader's operations as a step relation. *)
Inductive loader_step : LocalPolicyLoader -> LocalPolicyLoader -> Prop :=
| LS_Load st l : loader_step l (Load st l).2
| LS_Reload now st l : loader_step l (Reload now st l).2
| LS_event s r now st l : loader_step l (watch_event s r now st l)
| LS_error now l : loader_step l (watch_error now l)
| LS_network n l : loader_step l (SetNetworkPolicy n l).

(** The policy in the swap comes from an acceptable file. *)
Definition from_file (cp : CompiledPolicy) : Prop :=
  exists f p, read_policy f = Ok p /\ cp = Compile p.

Definition loader_inv (l : LocalPolicyLoader) : Prop :=
  forall cp, l_swap l = Some cp -> from_file cp.

Lemma read_policy_ok f p :
  read_policy f = Ok p ->
  policy_ok p /\
  (os = Linux -> Z.land (f_mode f) 18 = 0 /\ (f_uid f = 0 \/ f_uid f = u32 euid)).
Proof.
  unfold read_policy. intros H. ok_inv. destruct (f_data f) as [data|]; [|done].
  unfold ParsePolicy in H. destruct (decode data) as [[raw und]|]; [|done].
  destruct (negb (length und =? 0)%nat); [done|]. ok_inv. split.
  - by eapply policy_ok_of_validate.
  - intros ->. unfold validatePolicyFilePermissions, checkRootOrCurrentOwnership in *.
    ok_inv; bool_to_prop; try done.
    split; [done|]. rewrite <- !Z.eqb_eq. by apply orb_true_iff.
Qed.

Lemma Load_cases st l :
  (exists e, Load st l = (Err e, l)) \/
  (st = StatMissing /\ Load st l = (Ok tt, with_swap l None)) \/
  (exists f p, st = StatFile f /\ read_policy f = Ok p /\
     Load st l = (Ok tt, with_modtime (with_swap l (Some (Compile p))) (f_mtime f))).
Proof.
  unfold Load. destruct st as [| |f]; [naive_solver..|]. destruct (read_policy f) eqn:E; [|naive_solver].
  right; right. eauto.
Qed.

Lemma logError_swap now l : l_swap (logError now l).1 = l_swap l.
Proof. unfold logError. by destruct (_ <? _). Qed.

Lemma Load_inv st l : loader_inv l -> loader_inv (Load st l).2.
Proof.
  intros Hl. destruct (Load_cases st l) as [(e & ->)|[(-> & ->)|(f & p & -> & Hr & ->)]]; cbn; [done|by intros ?|].
  intros cp [= <-]. by exists f, p.
Qed.

Lemma loader_step_inv l l' : loader_step l l' -> loader_inv l -> loader_inv l'.
Proof.
  destruct 1 as [st l|now st l|s r now st l|now l|n l]; intros Hl; unfold watch_error.
  - by apply Load_inv.
  - unfold Reload. pose proof (Load_inv st l Hl). destruct (Load st l) as [[]]; cbn in *; [done|].
    intros cp. rewrite logError_swap. apply H.
  - unfold watch_event. repeat (case_match; try done).
    + by pose proof (Load_inv st (with_modtime l now) Hl) as H'; rewrite H2 in H'.
    + pose proof (Load_inv st (with_modtime l now) Hl) as H'; rewrite H2 in H'. intros cp.
      rewrite logError_swap. apply H'.
  - intros cp. rewrite logError_swap. apply Hl.
  - done.
Qed.

(** whatever sequence of loads, reloads, watcher events, watcher errors
    and network updates the loader goes through from an empty swap, the
    policy it enforces is the compilation of a well-formed policy read from a
    file that is not group or world writable and, on Linux, is owned by root
    or the effective user. *)
Theorem loader_enforces_valid network l cp :
  rtc loader_step (NewLocalPolicyLoader None network) l -> l_swap l = Some cp ->
  exists f p, read_policy f = Ok p /\ cp = Compile p /\ policy_ok p /\
    (os = Linux -> Z.land (f_mode f) 18 = 0 /\ (f_uid f = 0 \/ f_uid f = u32 euid)).
Proof.
  intros Hr Hcp. assert (loader_inv l) as Hinv.
  { revert Hr. apply (rtc_ind_r (fun x => loader_inv x)).
    - intros ? [=].
    - intros ? ? _ Hs ?. by eapply loader_step_inv. }
  destruct (Hinv cp Hcp) as (f & p & Hf & ->). exists f, p.
  destruct (read_policy_ok f p Hf). auto.
Qed.

(** a failing load is atomic: it changes nothing, so the policy in force
    stays in force; and a load that succeeds enforces exactly the file it
    read, or no policy when there is no file. *)
Theorem Load_atomic st l r l' :
  Load st l = (r, l') ->
  match r with
  | Err _ => l' = l
  | Ok _ => match st with
            | StatMissing => l_swap l' = None
            | StatFile f => exists p, read_policy f = Ok p /\ l_swap l' = Some (Compile p)
            | StatError => False
            end
  end.
Proof.
  intros H. destruct (Load_cases st l) as [(e & E)|[(-> & E)|(f & p & -> & Hr & E)]];
    rewrite E in H; injection H as <- <-; eauto.
Qed.

(** with no local policy file and no network policy every packet is
    denied, by every decider the loader hands out. *)
Theorem missing_policy_denies_all l d src dst proto port :
  l_network l = None -> CombinedPolicy (Load StatMissing l).2 = Some d ->
  d_Action (dispatch (l_swap (Load StatMissing l).2) d src dst proto port) = ActionDeny.
Proof. unfold CombinedPolicy. cbn. intros -> [= <-]. done. Qed.

(** the debounce loses an update: after an event whose load fails (the
    editor has truncated the file and not yet written it), an event within
    100 ms leaves the old policy in force whatever the file then holds. *)
Theorem debounce_loses_update l now now' st st' e :
  100 * ms <= now - l_lastModTime l ->
  (Load st (with_modtime l now)).1 = Err e -> now <= now' < now + 100 * ms ->
  l_swap (watch_event true true now' st' (watch_event true true now st l)) = l_swap l.
Proof.
  intros Hfirst He Hnow. unfold watch_event at 2. cbn [negb].
  rewrite (proj2 (Z.ltb_ge _ _)) by done.
  destruct (Load_cases st (with_modtime l now)) as [(e' & E)|[(-> & E)|(f & p & -> & Hr & E)]];
    rewrite E in He |- *; [|done..].
  unfold watch_event. cbn [negb].
  assert (l_lastModTime (logError now (with_modtime l now)).1 = now) as ->.
  { unfold logError. by destruct (_ <? _). }
  rewrite (proj2 (Z.ltb_lt _ _)) by lia. by rewrite logError_swap.
Qed.
End Load.

(** ** Witnesses *)
Definition demo_decode (src : string) : result string (rawPolicy * list (list string)) :=
  if String.eqb src "policy" then Ok (demo_raw, []) else Err "toml".

Definition demo_file : file := {| f_mode := 384; f_uid := 0; f_mtime := 5 * sec; f_data := Some "policy" |}.
Definition demo_truncated : file := {| f_mode := 384; f_uid := 0; f_mtime := 6 * sec; f_data := Some "" |}.
Definition demo_loader : LocalPolicyLoader :=
  (Load demo_decode Linux 1000 (StatFile demo_file) (NewLocalPolicyLoader None None)).2.

Lemma loader_enforces_valid_witness :
  exists f p, read_policy demo_decode Linux 1000 f = Ok p /\ Compile demo_policy = Compile p /\ policy_ok p /\
    (Linux = Linux -> Z.land (f_mode f) 18 = 0 /\ (f_uid f = 0 \/ f_uid f = u32 1000)).
Proof.
  refine (loader_enforces_valid demo_decode Linux 1000 None demo_loader (Compile demo_policy) _ _).
  - apply rtc_once. apply LS_Load.
  - vm_compute. reflexivity.
Defined.

Lemma Load_atomic_witness : demo_loader = demo_loader.
Proof.
  refine (Load_atomic demo_decode Linux 1000 (StatFile demo_truncated) demo_loader
            (Err (LParse (EDecode "toml"))) demo_loader _).
  vm_compute. reflexivity.
Defined.

Lemma missing_policy_denies_all_witness :
  d_Action (dispatch None PDSwap (replicate 32 10) (replicate 32 11) 6 22) = ActionDeny.
Proof.
  exact (missing_policy_denies_all demo_decode Linux 1000 (NewLocalPolicyLoader None None) PDSwap
           (replicate 32 10) (replicate 32 11) 6 22 eq_refl eq_refl).
Defined.

Lemma debounce_loses_update_witness :
  l_swap (watch_event demo_decode Linux 1000 true true (10 * sec + 50 * ms) (StatFile demo_file)
    (watch_event demo_decode Linux 1000 true true (10 * sec) (StatFile demo_truncated)
       (NewLocalPolicyLoader None None))) = None.
Proof.
  refine (debounce_loses_update demo_decode Linux 1000 (NewLocalPolicyLoader None None) (10 * sec)
            (10 * sec + 50 * ms) (StatFile demo_truncated) (StatFile demo_file)
            (LParse (EDecode "toml")) _ _ _); vm_compute; [done|reflexivity|done].
Defined.

End Loader.
