(* ===== verification/AclParse.v ===== *)
(** * Packet parsing for the ACL

    Models [src/internal/acl/parse.go].  Every function lives in the option
    monad of the prelude: [None] is a run-time panic (or, for the loop over
    IPv6 extension headers, exhausted fuel), and the theorems show that it never
    happens.  A result is the Go triple: flow, kind and error ([None] is nil). *)
From Stdlib Require Import ZArith Lia.
From stdpp Require Import base numbers list gmap strings.
From S2P Require Import Prelude AclPolicy.
Import AclPolicy.Policy.

Module Parse.

Record Flow := {
  SrcIP : list Z;          (* [16]byte *)
  DstIP : list Z;          (* [16]byte *)
  SrcPort : Z;             (* uint16 *)
  DstPort : Z;             (* uint16 *)
  FProto : Z;              (* uint8 *)
  IPv6 : bool
}.

Inductive Kind := KindStart | KindOther | KindFragment | KindError | KindEnd.

#[export] Instance Kind_eq_dec : EqDecision Kind.
Proof. solve_decision. Defined.
#[export] Instance Flow_eq_dec : EqDecision Flow.
Proof. solve_decision. Defined.

Abbreviation parsed := (Flow * Kind * option string)%type.

Definition zero_flow : Flow :=
  {| SrcIP := zeros 16; DstIP := zeros 16; SrcPort := 0; DstPort := 0; FProto := 0; IPv6 := false |}.

(** Assignments to the fields of the local [flow]. *)
Definition set_ports (f : Flow) (s d : Z) : Flow :=
  {| SrcIP := SrcIP f; DstIP := DstIP f; SrcPort := s; DstPort := d; FProto := FProto f; IPv6 := IPv6 f |}.
Definition set_proto (f : Flow) (p : Z) : Flow :=
  {| SrcIP := SrcIP f; DstIP := DstIP f; SrcPort := SrcPort f; DstPort := DstPort f; FProto := p; IPv6 := IPv6 f |}.
Definition set_v6 (f : Flow) (b : bool) : Flow :=
  {| SrcIP := SrcIP f; DstIP := DstIP f; SrcPort := SrcPort f; DstPort := DstPort f; FProto := FProto f; IPv6 := b |}.
Definition set_ips (f : Flow) (s d : list Z) : Flow :=
  {| SrcIP := s; DstIP := d; SrcPort := SrcPort f; DstPort := DstPort f; FProto := FProto f; IPv6 := IPv6 f |}.

(** [binary.BigEndian.Uint16(b[i:i+2])]. *)
Definition u16_at (b : list Z) (i : nat) : option Z := s ← sub b i (i + 2); be_uint 2 s.

Definition parseTCP (flow : Flow) (tcp : list Z) : option parsed :=
  if (length tcp <? 20)%nat then Some (flow, KindOther, Some "TCP header too short") else
  sp ← u16_at tcp 0; dp ← u16_at tcp 2;
  let flow := set_ports flow sp dp in
  b12 ← idx tcp 12;
  let dataOffset := Z.shiftr b12 4 in
  if dataOffset <? 5 then Some (flow, KindOther, Some "invalid TCP data offset") else
  let headerLen := dataOffset * 4 in
  if Z.of_nat (length tcp) <? headerLen then Some (flow, KindOther, Some "TCP packet shorter than header") else
  flags ← idx tcp 13;
  let syn := negb (Z.land flags 2 =? 0) in
  let ack := negb (Z.land flags 16 =? 0) in
  let fin := negb (Z.land flags 1 =? 0) in
  let rst := negb (Z.land flags 4 =? 0) in
  if syn && negb ack then Some (flow, KindStart, None)
  else if fin || rst then Some (flow, KindEnd, None)
  else Some (flow, KindOther, None).

Definition parseUDP (flow : Flow) (udp : list Z) : option parsed :=
  if (length udp <? 8)%nat then Some (flow, KindOther, Some "UDP header too short") else
  sp ← u16_at udp 0; dp ← u16_at udp 2;
  Some (set_ports flow sp dp, KindStart, None).

Definition isICMPError (msgType code : Z) : bool := bool_decide (msgType ∈ [3; 4; 5; 11; 12]).
Definition isICMPv6Error (msgType code : Z) : bool := bool_decide (msgType ∈ [1; 2; 3; 4]).

Definition is_l4 (proto : Z) : bool := (proto =? ProtoTCP) || (proto =? ProtoUDP).

Definition parseICMPErrorIPv4 (flow : Flow) (quoted : list Z) : option parsed :=
  if (length quoted <? 20)%nat then Some (flow, KindError, None) else
  b0 ← idx quoted 0;
  let ihl := Z.land b0 15 in
  if ihl <? 5 then Some (flow, KindError, None) else
  let headerLen := Z.to_nat (ihl * 4) in
  if (length quoted <? headerLen + 4)%nat then Some (flow, KindError, None) else
  proto ← idx quoted 9;
  s ← sub quoted 12 16; d ← sub quoted 16 20;
  let flow := set_ips (set_v6 (set_proto flow proto) false)
                (splice (SrcIP flow) 12 s) (splice (DstIP flow) 12 d) in
  transport ← sub_from quoted headerLen;
  if (length transport <? 4)%nat then Some (flow, KindError, None) else
  if is_l4 proto then
    sp ← u16_at transport 0; dp ← u16_at transport 2;
    Some (set_ports flow sp dp, KindError, None)
  else Some (flow, KindError, None).

Definition parseICMPErrorIPv6 (flow : Flow) (quoted : list Z) : option parsed :=
  if (length quoted <? 40)%nat then Some (flow, KindError, None) else
  nextHeader ← idx quoted 6;
  s ← sub quoted 8 24; d ← sub quoted 24 40;
  let flow := set_ips (set_v6 (set_proto flow nextHeader) true) s d in
  if (length quoted <? 40 + 4)%nat then Some (flow, KindError, None) else
  transport ← sub_from quoted 40;
  if is_l4 nextHeader && (4 <=? length transport)%nat then
    sp ← u16_at transport 0; dp ← u16_at transport 2;
    Some (set_ports flow sp dp, KindError, None)
  else Some (flow, KindError, None).

Definition parseICMPError (flow : Flow) (icmp : list Z) : option parsed :=
  if (length icmp <? 8 + 20)%nat then Some (flow, KindError, None) else
  quoted ← sub_from icmp 8;
  if (length quoted <? 20)%nat then Some (flow, KindError, None) else
  b0 ← idx quoted 0;
  let version := Z.shiftr b0 4 in
  if version =? 4 then parseICMPErrorIPv4 flow quoted
  else if version =? 6 then parseICMPErrorIPv6 flow quoted
  else Some (flow, KindError, None).

Definition parseICMP (flow : Flow) (icmp : list Z) : option parsed :=
  if (length icmp <? 4)%nat then Some (flow, KindOther, Some "ICMP header too short") else
  msgType ← idx icmp 0; code ← idx icmp 1;
  if (msgType =? 8) && (code =? 0) then Some (flow, KindStart, None)
  else if isICMPError msgType code then parseICMPError flow icmp
  else Some (flow, KindOther, None).

Definition parseICMPv6 (flow : Flow) (icmp : list Z) : option parsed :=
  if (length icmp <? 4)%nat then Some (flow, KindOther, Some "ICMPv6 header too short") else
  msgType ← idx icmp 0; code ← idx icmp 1;
  if (msgType =? 128) && (code =? 0) then Some (flow, KindStart, None)
  else if isICMPv6Error msgType code then parseICMPError flow icmp
  else Some (flow, KindOther, None).

Definition parseTransport (flow : Flow) (proto : Z) (transport : list Z) : option parsed :=
  if proto =? ProtoTCP then parseTCP flow transport
  else if proto =? ProtoUDP then parseUDP flow transport
  else if proto =? ProtoICMP then parseICMP flow transport
  else if proto =? ProtoICMPv6 then parseICMPv6 flow transport
  else Some (flow, KindOther, Some "unknown transport protocol").

Definition parseIPv4 (pkt : list Z) : option parsed :=
  let flow := zero_flow in
  if (length pkt <? 20)%nat then Some (flow, KindOther, Some "IPv4 packet too short") else
  b0 ← idx pkt 0;
  let ihl := Z.land b0 15 in
  if ihl <? 5 then Some (flow, KindOther, Some "invalid IPv4 IHL") else
  let headerLen := Z.to_nat (ihl * 4) in
  if (length pkt <? headerLen)%nat then Some (flow, KindOther, Some "IPv4 packet shorter than header") else
  _ ← u16_at pkt 2;
  flagsFrag ← u16_at pkt 6;
  let fragOffset := Z.land flagsFrag 0x1FFF in
  let moreFragments := negb (Z.land flagsFrag 0x2000 =? 0) in
  proto ← idx pkt 9;
  s ← sub pkt 12 16; d ← sub pkt 16 20;
  let flow := set_ips (set_proto flow proto) (splice (SrcIP flow) 12 s) (splice (DstIP flow) 12 d) in
  if 0 <? fragOffset then Some (flow, KindFragment, None) else
  if (length pkt <? headerLen + 4)%nat then
    if moreFragments then Some (flow, KindFragment, None) else Some (flow, KindOther, None)
  else
  transport ← sub_from pkt headerLen;
  parseTransport flow proto transport.

(** One length-prefixed extension header at [offset], in units of [unit] bytes:
    the next header and the header's size, or the error. *)
Definition ext_header (pkt : list Z) (offset : nat) (unit : Z) (name : string)
  : option (result string (Z * nat)) :=
  if (length pkt <? offset + 2)%nat then Some (Err (name +:+ " truncated")) else
  nextHeader ← idx pkt offset;
  extLen ← idx pkt (offset + 1);
  let headerSize := Z.to_nat (8 + extLen * unit) in
  if (length pkt <? offset + headerSize)%nat then Some (Err (name +:+ " exceeds packet")) else
  Some (Ok (nextHeader, headerSize)).

(** The loop over the extension headers. *)
Fixpoint walk (fuel : nat) (pkt : list Z) (flow : Flow) (offset : nat) (remaining proto : Z)
  : option parsed :=
  match fuel with
  | O => None
  | S fuel =>
      let skip (h : option (result string (Z * nat))) :=
        r ← h;
        match r with
        | Err e => Some (flow, KindOther, Some e)
        | Ok (nextHeader, headerSize) =>
            walk fuel pkt flow (offset + headerSize) (remaining - Z.of_nat headerSize) nextHeader
        end in
      if remaining <? 0 then Some (flow, KindOther, Some "IPv6 payload length exceeded") else
      if is_l4 proto || (proto =? ProtoICMP) || (proto =? ProtoICMPv6) then
        let flow := set_proto flow proto in
        if (length pkt <=? offset)%nat
        then Some (flow, KindOther, Some "IPv6 packet ends before transport header") else
        transport ← sub_from pkt offset;
        parseTransport flow proto transport
      else if proto =? 0 then skip (ext_header pkt offset 8 "IPv6 Hop-by-Hop header")
      else if proto =? 43 then skip (ext_header pkt offset 8 "IPv6 Routing header")
      else if proto =? 44 then
        if (length pkt <? offset + 8)%nat
        then Some (flow, KindOther, Some "IPv6 Fragment header truncated") else
        nextHeader ← idx pkt offset;
        fragOffset ← u16_at pkt (offset + 2);
        if 0 <? Z.shiftr fragOffset 3 then Some (set_proto flow nextHeader, KindFragment, None) else
        walk fuel pkt flow (offset + 8) (remaining - 8) nextHeader
      else if proto =? 51 then skip (ext_header pkt offset 4 "IPv6 AH header")
      else if proto =? 50 then
        Some (flow, KindOther, Some "IPv6 ESP header - cannot parse encrypted payload")
      else if proto =? 60 then skip (ext_header pkt offset 8 "IPv6 Destination Options header")
      else Some (flow, KindOther, Some "unknown IPv6 extension header")
  end.

(** Every extension header takes at least one byte of the packet, so a packet
    of [n] bytes needs at most [n + 1] rounds. *)
Definition parseIPv6 (pkt : list Z) : option parsed :=
  let flow := set_v6 zero_flow true in
  if (length pkt <? 40)%nat then Some (flow, KindOther, Some "IPv6 packet too short") else
  payloadLen ← u16_at pkt 4;
  nextHeader ← idx pkt 6;
  _ ← idx pkt 7;
  s ← sub pkt 8 24; d ← sub pkt 24 40;
  walk (S (length pkt)) pkt (set_ips flow s d) 40 payloadLen nextHeader.

Definition ParsePacket (pkt : list Z) : option parsed :=
  if (length pkt <? 20)%nat then Some (zero_flow, KindOther, Some "packet too short for IPv4 header") else
  b0 ← idx pkt 0;
  let version := Z.shiftr b0 4 in
  if version =? 4 then parseIPv4 pkt
  else if version =? 6 then parseIPv6 pkt
  else Some (zero_flow, KindOther, Some "unknown IP version").

(** ** No panic, and what a parsed flow satisfies

    [returns m Q]: the computation neither panics nor runs out of fuel, and its
    result satisfies [Q]. *)
Definition returns {A} (m : option A) (Q : A -> Prop) : Prop :=
  match m with Some a => Q a | None => False end.

Lemma returns_bind {A B} (m : option A) (k : A -> option B) (P : A -> Prop) (Q : B -> Prop) :
  returns m P -> (forall a, P a -> returns (k a) Q) -> returns (m ≫= k) Q.
Proof. destruct m; cbn; auto. Qed.

Lemma returns_impl {A} (m : option A) (P Q : A -> Prop) :
  returns m P -> (forall a, P a -> Q a) -> returns m Q.
Proof. destruct m; cbn; auto. Qed.

Lemma returns_idx l i : bytes_ok l -> (i < length l)%nat -> returns (idx l i) byte_ok.
Proof.
  intros Hl Hi. unfold idx. destruct (lookup_lt_is_Some_2 l i Hi) as [b E]. rewrite E. cbn.
  by eapply Forall_lookup_1.
Qed.

Lemma returns_sub l i j :
  bytes_ok l -> (i <= j <= length l)%nat ->
  returns (sub l i j) (fun m => bytes_ok m /\ length m = (j - i)%nat).
Proof.
  intros Hl Hij. rewrite sub_Some by done. cbn. split; [auto with veld|].
  rewrite length_take, length_drop. lia.
Qed.

Lemma returns_sub_from l i :
  bytes_ok l -> (i <= length l)%nat ->
  returns (sub_from l i) (fun m => bytes_ok m /\ length m = (length l - i)%nat).
Proof. intros Hl Hij. unfold sub_from. by apply returns_sub. Qed.

Lemma returns_u16_at l i :
  bytes_ok l -> (i + 2 <= length l)%nat -> returns (u16_at l i) (fun v => 0 <= v < 65536).
Proof.
  intros Hl Hi. unfold u16_at. eapply returns_bind; [apply returns_sub; [done|lia]|].
  intros m [Hm Hlen]. rewrite be_uint_Some by lia. cbn.
  pose proof (be_get_bound (take 2 m) ltac:(auto with veld)) as B.
  rewrite length_take in B. replace (2 `min` length m)%nat with 2%nat in B by lia. exact B.
Qed.

(** A flow of the right widths. *)
Record flow_ok (f : Flow) : Prop := {
  fo_src : bytes_ok (SrcIP f) /\ length (SrcIP f) = 16%nat;
  fo_dst : bytes_ok (DstIP f) /\ length (DstIP f) = 16%nat;
  fo_sport : 0 <= SrcPort f < 65536;
  fo_dport : 0 <= DstPort f < 65536;
  fo_proto : byte_ok (FProto f)
}.

Definition no_ports (f : Flow) : Prop := SrcPort f = 0 /\ DstPort f = 0.

(** The postcondition of every parsing function. *)
Definition parsed_ok (r : parsed) : Prop :=
  let '(f, k, e) := r in flow_ok f /\ (k = KindFragment -> no_ports f /\ e = None).

Lemma zero_flow_ok : flow_ok zero_flow.
Proof. split; try (split; [apply (zeros_ok 16)|done]); cbn; unfold byte_ok; lia. Qed.
Lemma set_ports_ok f s d :
  flow_ok f -> 0 <= s < 65536 -> 0 <= d < 65536 -> flow_ok (set_ports f s d).
Proof. intros []; by split. Qed.
Lemma set_proto_ok f p : flow_ok f -> byte_ok p -> flow_ok (set_proto f p).
Proof. intros []; by split. Qed.
Lemma set_v6_ok f b : flow_ok f -> flow_ok (set_v6 f b).
Proof. intros []; by split. Qed.
Lemma set_ips_ok f s d :
  flow_ok f -> bytes_ok s /\ length s = 16%nat -> bytes_ok d /\ length d = 16%nat -> flow_ok (set_ips f s d).
Proof. intros []; by split. Qed.
Lemma splice_v4_ok ip a :
  bytes_ok ip /\ length ip = 16%nat -> bytes_ok a /\ length a = 4%nat ->
  bytes_ok (splice ip 12 a) /\ length (splice ip 12 a) = 16%nat.
Proof.
  intros [? ?] [? ?]. split; [|rewrite length_splice; lia].
  unfold splice. rewrite !bytes_ok_app. auto with veld.
Qed.
#[local] Hint Resolve zero_flow_ok set_ports_ok set_proto_ok set_v6_ok set_ips_ok splice_v4_ok
  fo_src fo_dst : veld.

(** Walk through a parsing function: prove that each access is in range. *)
Ltac nat_bools :=
  repeat match goal with
  | H : (_ <? _)%nat = false |- _ => apply Nat.ltb_ge in H
  | H : (_ <? _)%nat = true |- _ => apply Nat.ltb_lt in H
  | H : (_ <=? _)%nat = false |- _ => apply Nat.leb_gt in H
  | H : (_ <=? _)%nat = true |- _ => apply Nat.leb_le in H
  end.
Ltac ret_step :=
  match goal with
  | |- returns (if ?b then _ else _) _ => destruct b eqn:?; nat_bools; bool_to_prop
  | |- returns (Some _) _ => progress cbn [returns parsed_ok]
  | |- returns (idx _ _ ≫= _) _ =>
      eapply returns_bind; [apply returns_idx; [done|lia]|intros ? ?]
  | |- returns (sub _ _ _ ≫= _) _ =>
      eapply returns_bind; [apply returns_sub; [done|lia]|intros ? [? ?]]
  | |- returns (sub_from _ _ ≫= _) _ =>
      eapply returns_bind; [apply returns_sub_from; [done|lia]|intros ? [? ?]]
  | |- returns (u16_at _ _ ≫= _) _ =>
      eapply returns_bind; [apply returns_u16_at; [done|lia]|intros ? ?]
  end; cbv zeta.
Ltac flow_done :=
  cbn [returns parsed_ok]; split; [auto 10 with veld|try (intros _; by repeat split); try done].

Lemma parseTCP_ok f l : flow_ok f -> bytes_ok l -> returns (parseTCP f l) parsed_ok.
Proof. intros Hf Hl. unfold parseTCP. repeat ret_step; flow_done. Qed.

Lemma parseUDP_ok f l : flow_ok f -> bytes_ok l -> returns (parseUDP f l) parsed_ok.
Proof. intros Hf Hl. unfold parseUDP. repeat ret_step; flow_done. Qed.

Lemma parseICMPErrorIPv4_ok f l : flow_ok f -> bytes_ok l -> returns (parseICMPErrorIPv4 f l) parsed_ok.
Proof.
  intros Hf Hl. unfold parseICMPErrorIPv4. repeat ret_step; flow_done.
Qed.

Lemma parseICMPErrorIPv6_ok f l : flow_ok f -> bytes_ok l -> returns (parseICMPErrorIPv6 f l) parsed_ok.
Proof. intros Hf Hl. unfold parseICMPErrorIPv6. repeat ret_step; flow_done. Qed.

Lemma parseICMPError_ok f l : flow_ok f -> bytes_ok l -> returns (parseICMPError f l) parsed_ok.
Proof.
  intros Hf Hl. unfold parseICMPError.
  repeat ret_step; auto using parseICMPErrorIPv4_ok, parseICMPErrorIPv6_ok; flow_done.
Qed.

Lemma parseTransport_ok f p l : flow_ok f -> bytes_ok l -> returns (parseTransport f p l) parsed_ok.
Proof.
  intros Hf Hl. unfold parseTransport, parseICMP, parseICMPv6.
  repeat ret_step; auto using parseTCP_ok, parseUDP_ok, parseICMPError_ok; flow_done.
Qed.

Lemma parseIPv4_ok l : bytes_ok l -> returns (parseIPv4 l) parsed_ok.
Proof.
  intros Hl. unfold parseIPv4. repeat ret_step; try (apply parseTransport_ok; auto with veld); try flow_done.
Qed.

Lemma ext_header_ok pkt offset unit name :
  bytes_ok pkt -> 0 <= unit ->
  returns (ext_header pkt offset unit name) (fun r =>
    match r with
    | Err _ => True
    | Ok (nextHeader, size) => byte_ok nextHeader /\ (8 <= size)%nat /\ (offset + size <= length pkt)%nat
    end).
Proof.
  intros Hp Hu. unfold ext_header. repeat ret_step; try done.
  unfold byte_ok in *. split_and!; lia.
Qed.

Lemma walk_ok fuel pkt f offset remaining proto :
  bytes_ok pkt -> flow_ok f -> no_ports f -> byte_ok proto ->
  (offset <= length pkt)%nat -> (length pkt < offset + fuel)%nat ->
  returns (walk fuel pkt f offset remaining proto) parsed_ok.
Proof.
  intros Hp Hf Hn. revert offset remaining proto.
  induction fuel as [|fuel IH]; intros offset remaining proto Hpr Ho Hfuel; [lia|].
  cbn [walk]. cbv zeta.
  repeat first
    [ match goal with
      | |- returns (ext_header _ _ _ _ ≫= _) _ =>
          eapply returns_bind; [apply ext_header_ok; [done|lia]|];
          intros [[nh size]|e]; [intros (? & ? & ?); apply IH; [done|lia|lia]|intros _; flow_done]
      end
    | ret_step ]; try flow_done; auto using parseTransport_ok with veld.
  apply IH; [done|lia|lia].
Qed.

Lemma parseIPv6_ok l : bytes_ok l -> returns (parseIPv6 l) parsed_ok.
Proof.
  intros Hl. unfold parseIPv6. repeat ret_step; [flow_done|].
  apply walk_ok; try done; auto with veld; lia.
Qed.

Lemma ParsePacket_returns pkt : bytes_ok pkt -> returns (ParsePacket pkt) parsed_ok.
Proof.
  intros Hp. unfold ParsePacket. repeat ret_step; auto using parseIPv4_ok, parseIPv6_ok; flow_done.
Qed.

(** on every packet of bytes the parser terminates without a run-time
    panic; the flow it returns has 16-byte addresses, 16-bit ports and an 8-bit
    protocol; and a packet reported as a fragment without transport header
    comes with no error and with both ports zero. *)
Theorem ParsePacket_total pkt :
  bytes_ok pkt ->
  exists f k e, ParsePacket pkt = Some (f, k, e) /\ flow_ok f /\
    (k = KindFragment -> SrcPort f = 0 /\ DstPort f = 0 /\ e = None).
Proof.
  intros Hp. pose proof (ParsePacket_returns pkt Hp) as H.
  destruct (ParsePacket pkt) as [[[f k] e]|]; [|done]. exists f, k, e.
  unfold parsed_ok, no_ports in H. naive_solver.
Qed.

(** A packet: IPv4, TCP SYN from 10.0.0.1:1234 to 10.0.0.2:22. *)
Definition demo_syn : list Z :=
  [0x45;0;0;40; 0;0;0x40;0; 64;6;0;0; 10;0;0;1; 10;0;0;2;
   4;210;0;22; 0;0;0;0; 0;0;0;0; 0x50;2;0;0; 0;0;0;0].

Lemma ParsePacket_total_witness :
  exists f k e, ParsePacket demo_syn = Some (f, k, e) /\ flow_ok f /\
    (k = KindFragment -> SrcPort f = 0 /\ DstPort f = 0 /\ e = None).
Proof. apply (ParsePacket_total demo_syn). apply (bool_decide_unpack _). vm_compute. exact I. Defined.

(** ** Extension headers are transparent *)

(** An extension header: its protocol number, its second byte and the bytes
    after it. *)
Record ext := { x_proto : Z; x_b1 : Z; x_body : list Z }.

Definition ext_ok (e : ext) : Prop :=
  byte_ok (x_b1 e) /\
  ((x_proto e = 0 \/ x_proto e = 43 \/ x_proto e = 60) /\
     Z.of_nat (length (x_body e)) = 6 + 8 * x_b1 e \/
   x_proto e = 51 /\ Z.of_nat (length (x_body e)) = 6 + 4 * x_b1 e \/
   x_proto e = 44 /\ exists lo ident, 0 <= lo < 8 /\ length ident = 4%nat /\ x_body e = 0 :: lo :: ident).

(** A chain of headers in front of a transport header of protocol [p]. *)
Definition first_proto (es : list ext) (p : Z) : Z :=
  match es with [] => p | e :: _ => x_proto e end.
Fixpoint chain_bytes (es : list ext) (p : Z) : list Z :=
  match es with
  | [] => []
  | e :: es => (first_proto es p :: x_b1 e :: x_body e) ++ chain_bytes es p
  end.

Lemma idx_mid (pre post : list Z) x k :
  k = length pre -> idx (pre ++ x :: post) k = Some x.
Proof. intros ->. unfold idx. by rewrite list_lookup_middle. Qed.

Lemma idx_mid1 (pre post : list Z) x y : idx (pre ++ x :: y :: post) (length pre + 1) = Some y.
Proof.
  change (x :: y :: post) with ([x] ++ y :: post). rewrite app_assoc. apply idx_mid.
  rewrite length_app. cbn. lia.
Qed.

Lemma u16_at_pair (pre post : list Z) x y : u16_at (pre ++ x :: y :: post) (length pre) = Some (be_get [x; y]).
Proof.
  unfold u16_at. rewrite sub_Some by (rewrite length_app; cbn; lia).
  rewrite drop_app_length. replace (length pre + 2 - length pre)%nat with 2%nat by lia. reflexivity.
Qed.

Lemma sub_from_app (pre post : list Z) : sub_from (pre ++ post) (length pre) = Some post.
Proof. rewrite sub_from_Some by (rewrite length_app; lia). by rewrite drop_app_length. Qed.

Lemma ext_header_mid pre nh b1 body post unit name :
  0 <= b1 -> 0 <= unit -> Z.of_nat (length body) = 6 + b1 * unit ->
  ext_header (pre ++ (nh :: b1 :: body) ++ post) (length pre) unit name =
  Some (Ok (nh, length (nh :: b1 :: body))).
Proof.
  intros Hb Hu Hlen. unfold ext_header. rewrite !length_app. cbn [length].
  rewrite (proj2 (Nat.ltb_ge _ _)) by lia. cbn [app].
  rewrite (idx_mid pre _ nh (length pre)) by done. cbn [mbind option_bind]. rewrite idx_mid1. cbn [mbind option_bind]. cbv zeta.
  replace (Z.to_nat (8 + b1 * unit)) with (S (S (length body))) by lia.
  rewrite (proj2 (Nat.ltb_ge _ _)) by lia. done.
Qed.

Lemma frag_mid pre nh b1 lo ident post :
  0 <= lo < 8 -> length ident = 4%nat ->
  exists v, u16_at (pre ++ (nh :: b1 :: 0 :: lo :: ident) ++ post) (length pre + 2) = Some v /\
    (0 <? Z.shiftr v 3) = false.
Proof.
  intros Hlo Hid. exists lo. unfold u16_at. split.
  - rewrite sub_Some by (rewrite !length_app; cbn; lia).
    replace (length pre + 2 + 2 - (length pre + 2))%nat with 2%nat by lia.
    rewrite (Nat.add_comm (length pre)), <- drop_drop, Nat.add_0_l || rewrite <- drop_drop.
    rewrite drop_app_length. cbn. unfold be_uint. cbn. done.
  - apply Z.ltb_ge. rewrite Z.shiftr_div_pow2 by lia. rewrite Z.div_small; lia.
Qed.

(** One round of the loop on a well-formed extension header. *)
Lemma walk_ext e nh pre post f fuel remaining :
  ext_ok e -> 0 <= remaining ->
  let h := nh :: x_b1 e :: x_body e in
  walk (S fuel) (pre ++ h ++ post) f (length pre) remaining (x_proto e) =
  walk fuel (pre ++ h ++ post) f (length pre + length h) (remaining - Z.of_nat (length h)) nh.
Proof.
  intros [Hb He] Hrem. cbv zeta. unfold byte_ok in Hb. cbn [walk]. cbv zeta.
  rewrite (proj2 (Z.ltb_ge remaining 0)) by lia.
  destruct He as [[Hk Hlen]|[[Hk Hlen]|(Hk & lo & ident & Hlo & Hid & Hbody)]].
  - destruct Hk as [Hk|[Hk|Hk]]; rewrite Hk.
    + rewrite (ext_header_mid _ _ _ _ _ 8 "IPv6 Hop-by-Hop header") by lia. reflexivity.
    + rewrite (ext_header_mid _ _ _ _ _ 8 "IPv6 Routing header") by lia. reflexivity.
    + rewrite (ext_header_mid _ _ _ _ _ 8 "IPv6 Destination Options header") by lia. reflexivity.
  - rewrite Hk, (ext_header_mid _ _ _ _ _ 4 "IPv6 AH header") by lia. reflexivity.
  - destruct (frag_mid pre nh (x_b1 e) lo ident post Hlo Hid) as (v & Hv & Hz).
    rewrite Hk, Hbody in *. cbn [is_l4 orb Z.eqb]. rewrite Hv.
    rewrite (proj2 (Nat.ltb_ge _ _)) by (rewrite !length_app; cbn; lia).
    assert (idx (pre ++ (nh :: x_b1 e :: 0 :: lo :: ident) ++ post) (length pre) = Some nh) as ->
      by by apply idx_mid.
    rewrite !bind_Some_eq, Hz.
    replace (length (nh :: x_b1 e :: 0 :: lo :: ident)) with 8%nat by (cbn; lia). reflexivity.
Qed.

Lemma chain_length es p : (length es <= length (chain_bytes es p))%nat.
Proof. induction es as [|e es IH]; cbn; [lia|]. rewrite length_app. lia. Qed.

Lemma walk_chain es p transport f :
  is_l4 p || (p =? ProtoICMP) || (p =? ProtoICMPv6) = true -> transport <> [] ->
  Forall ext_ok es ->
  forall fuel pre remaining,
    (length es < fuel)%nat -> Z.of_nat (length (chain_bytes es p)) <= remaining ->
    walk fuel (pre ++ chain_bytes es p ++ transport) f (length pre) remaining (first_proto es p) =
    parseTransport (set_proto f p) p transport.
Proof.
  intros Hp Ht Hes. induction Hes as [|e es He Hes IH]; intros [|fuel] pre remaining Hfuel Hrem;
    cbn [length] in Hfuel; try lia.
  - cbn [walk]. cbv zeta. cbn [chain_bytes length first_proto app] in *.
    rewrite (proj2 (Z.ltb_ge _ _)), Hp by lia.
    rewrite (proj2 (Nat.leb_gt _ _)).
    2:{ rewrite length_app. destruct transport; [done|]. cbn. lia. }
    by rewrite sub_from_app.
  - cbn [first_proto chain_bytes] in *. rewrite length_app in Hrem. rewrite <- (app_assoc (_ :: _)).
    rewrite walk_ext by (done || lia). rewrite app_assoc, <- length_app. apply IH; lia.
Qed.

Lemma ParsePacket_chain hdr es p transport b0 plen :
  length hdr = 40%nat -> hdr !! 0%nat = Some b0 -> Z.shiftr b0 4 = 6 ->
  u16_at hdr 4 = Some plen -> hdr !! 6%nat = Some (first_proto es p) ->
  Forall ext_ok es -> Z.of_nat (length (chain_bytes es p)) <= plen ->
  p = ProtoTCP \/ p = ProtoUDP \/ p = ProtoICMP \/ p = ProtoICMPv6 -> transport <> [] ->
  ParsePacket (hdr ++ chain_bytes es p ++ transport) =
  parseTransport {| SrcIP := take 16 (drop 8 hdr); DstIP := drop 24 hdr;
                    SrcPort := 0; DstPort := 0; FProto := p; IPv6 := true |} p transport.
Proof.
  intros Hlen Hb0 Hv Hpl Hnh Hes Hrem Hp Ht.
  set (rest := chain_bytes es p ++ transport).
  assert (forall i, (i < 40)%nat -> idx (hdr ++ rest) i = hdr !! i) as Hidx.
  { intros i Hi. apply lookup_app_l. lia. }
  assert (forall i j, (i <= j <= 40)%nat -> sub (hdr ++ rest) i j = sub hdr i j) as Hsub.
  { intros i j Hij. rewrite !sub_Some by (rewrite ?length_app; lia).
    rewrite drop_app_le, take_app_le by (rewrite ?length_drop; lia). done. }
  assert (u16_at (hdr ++ rest) 4 = Some plen) as Hpl'.
  { unfold u16_at in *. rewrite Hsub by lia. exact Hpl. }
  assert (40 <= length (hdr ++ rest))%nat as Hl by (rewrite length_app; lia).
  destruct (lookup_lt_is_Some_2 hdr 7 ltac:(lia)) as [b7 Hb7].
  unfold ParsePacket, parseIPv6. rewrite !(proj2 (Nat.ltb_ge _ _)) by lia.
  rewrite !Hidx, Hb0, Hnh, Hb7, Hpl', !Hsub, !sub_Some by lia.
  rewrite !bind_Some_eq. cbv zeta. rewrite Hv. cbn [Z.eqb Pos.eqb].
  rewrite <- Hlen at 2. unfold rest. rewrite walk_chain; try done.
  - cbn. by rewrite (take_ge (drop 24 hdr)) by (rewrite length_drop; lia).
  - by destruct Hp as [->|[->|[->| ->]]].
  - rewrite !length_app. pose proof (chain_length es p). lia.
Qed.

(** extension headers cannot hide or alter a flow: whatever well-formed
    chain of hop-by-hop, routing, destination-option, authentication and
    first-fragment headers stands before the transport header, the packet is
    classified as its transport header and the addresses of the IPv6 header
    say. *)
Theorem ParsePacket_ext_transparent hdr es p transport b0 plen :
  length hdr = 40%nat -> hdr !! 0%nat = Some b0 -> Z.shiftr b0 4 = 6 ->
  u16_at hdr 4 = Some plen -> hdr !! 6%nat = Some (first_proto es p) ->
  Forall ext_ok es -> Z.of_nat (length (chain_bytes es p)) <= plen ->
  p = ProtoTCP \/ p = ProtoUDP \/ p = ProtoICMP \/ p = ProtoICMPv6 -> transport <> [] ->
  ParsePacket (hdr ++ chain_bytes es p ++ transport) =
  parseTransport {| SrcIP := take 16 (drop 8 hdr); DstIP := drop 24 hdr;
                    SrcPort := 0; DstPort := 0; FProto := p; IPv6 := true |} p transport.
Proof. apply ParsePacket_chain. Qed.

(** An IPv6 header, a hop-by-hop header, a first-fragment header and the TCP
    header of [demo_syn]. *)
Definition demo_v6 : list Z :=
  [0x60;0;0;0; 0;36;0;64] ++ replicate 16 1 ++ replicate 16 2.
Definition demo_exts : list ext :=
  [{| x_proto := 0; x_b1 := 0; x_body := replicate 6 0 |};
   {| x_proto := 44; x_b1 := 0; x_body := [0; 1; 9; 9; 9; 9] |}].

Lemma ParsePacket_ext_transparent_witness :
  ParsePacket (demo_v6 ++ chain_bytes demo_exts 6 ++ drop 20 demo_syn) =
  Some ({| SrcIP := replicate 16 1; DstIP := replicate 16 2; SrcPort := 1234; DstPort := 22;
           FProto := 6; IPv6 := true |}, KindStart, None).
Proof.
  refine (ParsePacket_ext_transparent demo_v6 demo_exts 6 (drop 20 demo_syn) 0x60 36 _ _ _ _ _ _ _ _ _);
    try (vm_compute; reflexivity).
  - apply Forall_cons. split; [|apply Forall_singleton]; (split; [by split|]).
    + left. split; [by left|reflexivity].
    + right; right. split; [done|]. by exists 1, [9; 9; 9; 9].
  - vm_compute. discriminate.
  - auto.
  - discriminate.
Defined.

(** An IPv4 packet quoted in an ICMP error leaves the first twelve bytes of the
    outer packet's addresses in the flow: inside an IPv6 packet the result is
    marked IPv4 with an address that is not an IPv4 address. *)
Lemma quoted_v4_keeps_outer_prefix f q f' k e :
  bytes_ok q -> flow_ok f -> parseICMPErrorIPv4 f q = Some (f', k, e) ->
  take 12 (SrcIP f') = take 12 (SrcIP f) /\ take 12 (DstIP f') = take 12 (DstIP f).
Proof.
  intros Hq [[_ Hs] [_ Hd] _ _ _] H.
  assert (forall ip a, length ip = 16%nat -> take 12 (splice ip 12 a) = take 12 ip) as Hsp.
  { intros ip a Hl. unfold splice. rewrite take_app_le by (rewrite length_take; lia).
    rewrite take_take. f_equal. }
  assert (returns (parseICMPErrorIPv4 f q) (fun r =>
    take 12 (SrcIP r.1.1) = take 12 (SrcIP f) /\ take 12 (DstIP r.1.1) = take 12 (DstIP f))) as HR.
  { unfold parseICMPErrorIPv4. repeat ret_step; cbn [returns fst SrcIP DstIP set_ports set_ips]; auto. }
  by rewrite H in HR.
Qed.

(** *** Packets without a protocol

    The protocol of a flow can be 0: that of a fragment or of a short IPv4
    packet, and that of the packet quoted in an ICMP error.  The packet that
    starts a connection always has one. *)
Definition start_has_proto (r : option parsed) : Prop :=
  match r with Some (f, KindStart, None) => FProto f <> 0 | _ => True end.

Lemma start_bind {A} (m : option A) (k : A -> option parsed) :
  (forall a, start_has_proto (k a)) -> start_has_proto (m ≫= k).
Proof. destruct m; cbn; auto. Qed.

Ltac start_step :=
  repeat first [ apply start_bind; intros ? | progress cbn beta zeta
    | match goal with |- start_has_proto (if ?b then _ else _) => destruct b eqn:? end ]; try done.

Lemma parseICMPError_start f l : start_has_proto (parseICMPError f l).
Proof. unfold parseICMPError, parseICMPErrorIPv4, parseICMPErrorIPv6. start_step. Qed.

Lemma parseTransport_start f p l : FProto f = p -> start_has_proto (parseTransport f p l).
Proof.
  intros Hp. unfold parseTransport, parseTCP, parseUDP, parseICMP, parseICMPv6.
  start_step; try apply parseICMPError_start; cbn [start_has_proto set_ports FProto]; bool_to_prop; rewrite Hp;
    unfold ProtoTCP, ProtoUDP, ProtoICMP, ProtoICMPv6 in *; lia.
Qed.

Lemma walk_start fuel pkt f : forall offset remaining proto, start_has_proto (walk fuel pkt f offset remaining proto).
Proof.
  induction fuel as [|fuel IH]; intros offset remaining proto; cbn [walk]; [done|].
  start_step; try apply IH; try (by apply parseTransport_start);
    match goal with |- context [match ?r with Ok _ => _ | Err _ => _ end] => destruct r as [[? ?]|?] end; done || apply IH.
Qed.

Lemma ParsePacket_start pkt f : ParsePacket pkt = Some (f, KindStart, None) -> FProto f <> 0.
Proof.
  intros H. assert (start_has_proto (ParsePacket pkt)) as Hs; [|by rewrite H in Hs].
  unfold ParsePacket, parseIPv4, parseIPv6. start_step; try apply walk_start; by apply parseTransport_start.
Qed.

End Parse.
