(* ===== verification/FlowTable.v ===== *)
(** * The flow table of the ACL

    Models [src/internal/acl/flowtable.go]: 64 shards of maps from normalized
    keys to entries, and one doubly linked list through the entries for LRU
    eviction.  Entries live in a heap indexed by pointers, because the maps and
    the list share them and the list links are fields of the entries.
    [maphash] is a parameter (the standard library seeds it at random), and so
    is the set of shards whose [TryLock] fails.  The operations here run from
    their first lock to their last without a change by another goroutine;
    [FlowConc] takes them apart at the locks and shows that these definitions are
    what an undisturbed goroutine does. *)
From Stdlib Require Import ZArith Lia.
From stdpp Require Import base numbers list gmap strings fin_maps.
From S2P Require Import Prelude AclPolicy AclParse.
Import AclPolicy.Policy AclParse.Parse.

Module FlowTable.

Inductive FlowState := FlowStateNew | FlowStateEstablished | FlowStateClosing | FlowStateClosed.

#[export] Instance FlowState_eq_dec : EqDecision FlowState.
Proof. solve_decision. Defined.

(** A non-nil pointer to an entry. *)
Abbreviation ptr := nat.

Record FlowEntry := {
  e_Flow : Flow;
  e_Created : Z;
  e_LastSeen : Z;
  e_State : FlowState;
  e_IsReplyDir : bool;
  e_next : option ptr;
  e_prev : option ptr
}.

Record FlowTableConfig := {
  MaxFlows : Z;
  TCPIdleTimeout : Z;      (* nanoseconds *)
  UDPIdleTimeout : Z;
  ICMPIdleTimeout : Z
}.

Definition second : Z := 10 ^ 9.

Definition DefaultFlowTableConfig : FlowTableConfig :=
  {| MaxFlows := 16384; TCPIdleTimeout := 5 * 60 * second; UDPIdleTimeout := 60 * second;
     ICMPIdleTimeout := 30 * second |}.

Record FlowKey := {
  k_SrcIP : list Z;
  k_DstIP : list Z;
  k_SrcPort : Z;
  k_DstPort : Z;
  k_Proto : Z;
  k_IPv6 : bool
}.

#[export] Instance FlowKey_eq_dec : EqDecision FlowKey.
Proof. solve_decision. Defined.

Definition key_tuple (k : FlowKey) : list Z * list Z * Z * Z * Z * bool :=
  (k_SrcIP k, k_DstIP k, k_SrcPort k, k_DstPort k, k_Proto k, k_IPv6 k).
#[export] Instance FlowKey_countable : Countable FlowKey.
Proof.
  refine (inj_countable' key_tuple (fun '(a, b, c, d, e, f) => Build_FlowKey a b c d e f) _).
  by intros [].
Defined.

(** The eviction list with the heap its links live in. *)
Record evictList := { heap : gmap ptr FlowEntry; head : option ptr; tail : option ptr }.

Record FlowTable := {
  shards : list (gmap FlowKey ptr);
  config : FlowTableConfig;
  evict : evictList;
  flowCount : Z;
  fresh : ptr                      (* the allocator: every pointer below is in use *)
}.

Definition numShards : nat := 64.
Definition shardMask : Z := 63.

(** A non-positive setting takes its default. *)
Definition or_default (x d : Z) : Z := if x <=? 0 then d else x.

Definition NewFlowTable (c : FlowTableConfig) : FlowTable := {|
  shards := replicate numShards ∅;
  config := {| MaxFlows := or_default (MaxFlows c) 16384;
               TCPIdleTimeout := or_default (TCPIdleTimeout c) (5 * 60 * second);
               UDPIdleTimeout := or_default (UDPIdleTimeout c) (60 * second);
               ICMPIdleTimeout := or_default (ICMPIdleTimeout c) (30 * second) |};
  evict := {| heap := ∅; head := None; tail := None |};
  flowCount := 0;
  fresh := 0%nat
|}.

(** The loop of [compareIPs] over the bytes of two equally long windows. *)
Fixpoint compare_bytes (a b : list Z) : Z :=
  match a, b with
  | x :: a', y :: b' => if x <? y then -1 else if y <? x then 1 else compare_bytes a' b'
  | _, _ => 0
  end.

Definition compareIPs (a b : list Z) (ipv6 : bool) : Z :=
  if ipv6 then compare_bytes a b else compare_bytes (drop 12 a) (drop 12 b).

Definition NormalizeFlowKey (f : Flow) : FlowKey * bool :=
  let cmp := compareIPs (SrcIP f) (DstIP f) (IPv6 f) in
  if (cmp <? 0) || ((cmp =? 0) && (SrcPort f <=? DstPort f)) then
    ({| k_SrcIP := SrcIP f; k_DstIP := DstIP f; k_SrcPort := SrcPort f; k_DstPort := DstPort f;
        k_Proto := FProto f; k_IPv6 := IPv6 f |}, false)
  else
    ({| k_SrcIP := DstIP f; k_DstIP := SrcIP f; k_SrcPort := DstPort f; k_DstPort := SrcPort f;
        k_Proto := FProto f; k_IPv6 := IPv6 f |}, true).

Definition key_of (f : Flow) : FlowKey := (NormalizeFlowKey f).1.

(** ** Links *)
Definition with_next (v : option ptr) (e : FlowEntry) : FlowEntry :=
  {| e_Flow := e_Flow e; e_Created := e_Created e; e_LastSeen := e_LastSeen e; e_State := e_State e;
     e_IsReplyDir := e_IsReplyDir e; e_next := v; e_prev := e_prev e |}.
Definition with_prev (v : option ptr) (e : FlowEntry) : FlowEntry :=
  {| e_Flow := e_Flow e; e_Created := e_Created e; e_LastSeen := e_LastSeen e; e_State := e_State e;
     e_IsReplyDir := e_IsReplyDir e; e_next := e_next e; e_prev := v |}.

(** [p.next], [p.prev], [p.next = v] and [p.prev = v]. *)
Definition next_of (h : gmap ptr FlowEntry) (p : ptr) : option ptr := h !! p ≫= e_next.
Definition prev_of (h : gmap ptr FlowEntry) (p : ptr) : option ptr := h !! p ≫= e_prev.
Definition set_next (p : ptr) (v : option ptr) (h : gmap ptr FlowEntry) : gmap ptr FlowEntry :=
  alter (with_next v) p h.
Definition set_prev (p : ptr) (v : option ptr) (h : gmap ptr FlowEntry) : gmap ptr FlowEntry :=
  alter (with_prev v) p h.

Definition unlinkEntry (entry : ptr) (s : evictList) : evictList :=
  let s1 := match prev_of (heap s) entry with
            | Some q => {| heap := set_next q (next_of (heap s) entry) (heap s);
                           head := head s; tail := tail s |}
            | None => {| heap := heap s; head := next_of (heap s) entry; tail := tail s |}
            end in
  let s2 := match next_of (heap s1) entry with
            | Some q => {| heap := set_prev q (prev_of (heap s1) entry) (heap s1);
                           head := head s1; tail := tail s1 |}
            | None => {| heap := heap s1; head := head s1; tail := prev_of (heap s1) entry |}
            end in
  {| heap := set_next entry None (set_prev entry None (heap s2)); head := head s2; tail := tail s2 |}.

Definition linkEntryFront (entry : ptr) (s : evictList) : evictList :=
  let h1 := set_prev entry None (set_next entry (head s) (heap s)) in
  let h2 := match head s with Some q => set_prev q (Some entry) h1 | None => h1 end in
  {| heap := h2; head := Some entry;
     tail := match tail s with None => Some entry | t => t end |}.

Definition linkEntryBack (entry : ptr) (s : evictList) : evictList :=
  let h1 := set_next entry None (set_prev entry (tail s) (heap s)) in
  let h2 := match tail s with Some q => set_next q (Some entry) h1 | None => h1 end in
  {| heap := h2; head := match head s with None => Some entry | t => t end; tail := Some entry |}.

Definition moveToFrontLocked (entry : ptr) (s : evictList) : evictList :=
  linkEntryFront entry (unlinkEntry entry s).

Definition popOldestEntry (s : evictList) : option ptr * evictList :=
  match tail s with
  | None => (None, s)
  | Some e => (Some e, unlinkEntry e s)
  end.

(** ** Operations *)
Definition GetTimeout (c : FlowTableConfig) (proto : Z) : Z :=
  if proto =? ProtoTCP then TCPIdleTimeout c
  else if proto =? ProtoUDP then UDPIdleTimeout c
  else if (proto =? ProtoICMP) || (proto =? ProtoICMPv6) then ICMPIdleTimeout c
  else UDPIdleTimeout c.

Definition isEntryExpired (c : FlowTableConfig) (entry : FlowEntry) (now : Z) : bool :=
  GetTimeout c (FProto (e_Flow entry)) <? now - e_LastSeen entry.

Definition set_evict (ft : FlowTable) (s : evictList) : FlowTable :=
  {| shards := shards ft; config := config ft; evict := s; flowCount := flowCount ft; fresh := fresh ft |}.

(** [entry.LastSeen = now] together with the new state of the entry. *)
Definition touch (now : Z) (st : FlowState) (e : FlowEntry) : FlowEntry :=
  {| e_Flow := e_Flow e; e_Created := e_Created e; e_LastSeen := now; e_State := st;
     e_IsReplyDir := e_IsReplyDir e; e_next := e_next e; e_prev := e_prev e |}.

Definition upd_heap (f : gmap ptr FlowEntry -> gmap ptr FlowEntry) (s : evictList) : evictList :=
  {| heap := f (heap s); head := head s; tail := tail s |}.

(** ** The list invariant

    [wfl s ps]: the pointers [ps], in this order, are the doubly linked list
    of [s].  [seg h prv ps nxt] is the part [ps] of a list whose neighbours are
    [prv] and [nxt]. *)
Definition first_or (ps : list ptr) (nxt : option ptr) : option ptr :=
  match ps with [] => nxt | p :: _ => Some p end.
Definition last_or (prv : option ptr) (ps : list ptr) : option ptr :=
  match last ps with None => prv | Some p => Some p end.

Fixpoint seg (h : gmap ptr FlowEntry) (prv : option ptr) (ps : list ptr) (nxt : option ptr) : Prop :=
  match ps with
  | [] => True
  | p :: ps' =>
      (exists e, h !! p = Some e /\ e_prev e = prv /\ e_next e = first_or ps' nxt) /\
      seg h (Some p) ps' nxt
  end.

Record wfl (s : evictList) (ps : list ptr) : Prop := {
  wfl_seg : seg (heap s) None ps None;
  wfl_head : head s = first_or ps None;
  wfl_tail : tail s = last_or None ps;
  wfl_nodup : NoDup ps
}.

(** The fields of an entry that are not links. *)
Record AEntry := {
  a_Flow : Flow; a_Created : Z; a_LastSeen : Z; a_State : FlowState; a_IsReplyDir : bool
}.
Definition data (e : FlowEntry) : AEntry :=
  {| a_Flow := e_Flow e; a_Created := e_Created e; a_LastSeen := e_LastSeen e;
     a_State := e_State e; a_IsReplyDir := e_IsReplyDir e |}.

(** [h] and [h'] differ in links only. *)
Definition same_data (h h' : gmap ptr FlowEntry) : Prop := data <$> h = data <$> h'.

Lemma same_data_alter g p h : (forall e, data (g e) = data e) -> same_data (alter g p h) h.
Proof.
  intros Hg. unfold same_data. apply map_eq. intros q. rewrite !lookup_fmap.
  destruct (decide (p = q)) as [->|Hne]; [rewrite lookup_alter_eq|by rewrite lookup_alter_ne].
  destruct (h !! q); cbn; [by rewrite Hg|done].
Qed.

Lemma last_or_cons prv p ps : last_or prv (p :: ps) = last_or (Some p) ps.
Proof. unfold last_or. rewrite last_cons. by destruct (last ps). Qed.

Lemma seg_app h prv l1 l2 nxt :
  seg h prv (l1 ++ l2) nxt <-> seg h prv l1 (first_or l2 nxt) /\ seg h (last_or prv l1) l2 nxt.
Proof.
  revert prv. induction l1 as [|p l1 IH]; intros prv; cbn [app seg].
  - unfold last_or. cbn. tauto.
  - rewrite IH, last_or_cons. destruct l1; cbn [app first_or]; tauto.
Qed.

(** A segment depends only on the entries at its pointers. *)
Lemma seg_ext h h' prv ps nxt :
  (forall p, p ∈ ps -> h' !! p = h !! p) -> seg h prv ps nxt -> seg h' prv ps nxt.
Proof.
  revert prv. induction ps as [|p ps IH]; intros prv Heq; cbn; [done|].
  intros [He Hs]. rewrite Heq by by left. split; [done|]. apply IH; [|done]. intros q Hq. apply Heq. by right.
Qed.

Lemma seg_in_heap h prv ps nxt p : seg h prv ps nxt -> p ∈ ps -> is_Some (h !! p).
Proof.
  revert prv. induction ps as [|q ps IH]; intros prv; cbn; [by intros _ ?%not_elem_of_nil|].
  intros [(e & He & _) Hs] [->|Hp]%elem_of_cons; eauto.
Qed.

Lemma links_at s l1 p l2 :
  wfl s (l1 ++ p :: l2) ->
  prev_of (heap s) p = last_or None l1 /\ next_of (heap s) p = first_or l2 None.
Proof.
  intros [Hseg _ _ _]. apply seg_app in Hseg as [_ [(e & He & Hp & Hn) _]].
  unfold prev_of, next_of. rewrite He. done.
Qed.

(** The last pointer of a segment gets a new successor, the first a new
    predecessor. *)
Lemma seg_set_next h prv ps q nxt nxt' :
  (q ∉ ps) -> seg h prv (ps ++ [q]) nxt -> seg (set_next q nxt' h) prv (ps ++ [q]) nxt'.
Proof.
  intros Hq. rewrite !seg_app. intros [Hs [(e & He & Hp & Hn) _]]. split.
  - eapply seg_ext; [|exact Hs]. intros p Hin. apply lookup_alter_ne. set_solver.
  - split; [|done]. exists (with_next nxt' e). unfold set_next. by rewrite lookup_alter_eq, He.
Qed.

Lemma seg_set_prev h prv prv' q ps nxt :
  (q ∉ ps) -> seg h prv (q :: ps) nxt -> seg (set_prev q prv' h) prv' (q :: ps) nxt.
Proof.
  intros Hq [(e & He & Hp & Hn) Hs]. split.
  - exists (with_prev prv' e). unfold set_prev. by rewrite lookup_alter_eq, He.
  - eapply seg_ext; [|exact Hs]. intros p Hin. apply lookup_alter_ne. set_solver.
Qed.

Lemma seg_other g q h prv ps nxt : (q ∉ ps) -> seg h prv ps nxt -> seg (alter g q h) prv ps nxt.
Proof. intros Hq. apply seg_ext. intros p Hp. apply lookup_alter_ne. set_solver. Qed.

(** The two conditional writes of [unlinkEntry] and of the link functions. *)
Definition set_next_opt (q : option ptr) (v : option ptr) (h : gmap ptr FlowEntry) :=
  match q with Some q => set_next q v h | None => h end.
Definition set_prev_opt (q : option ptr) (v : option ptr) (h : gmap ptr FlowEntry) :=
  match q with Some q => set_prev q v h | None => h end.

Lemma last_or_snoc prv ps q : last_or prv (ps ++ [q]) = Some q.
Proof. unfold last_or. by rewrite last_snoc. Qed.

Lemma seg_relink_next h prv ps nxt nxt' :
  NoDup ps -> seg h prv ps nxt -> seg (set_next_opt (last_or None ps) nxt' h) prv ps nxt'.
Proof.
  destruct ps as [|q ps _] using rev_ind; [done|]. rewrite last_or_snoc.
  intros (_ & Hd & _)%NoDup_app. apply seg_set_next. intros Hq. apply (Hd q Hq). by left.
Qed.

Lemma seg_relink_prev h prv ps nxt prv' :
  NoDup ps -> seg h prv ps nxt -> seg (set_prev_opt (first_or ps None) prv' h) prv' ps nxt.
Proof. destruct ps as [|q ps]; [done|]. intros [Hq _]%NoDup_cons. by apply seg_set_prev. Qed.

Lemma seg_next_opt q v h prv ps nxt :
  (forall x, q = Some x -> x ∉ ps) -> seg h prv ps nxt -> seg (set_next_opt q v h) prv ps nxt.
Proof. destruct q; cbn; [|done]. intros H. apply seg_other. by apply H. Qed.

Lemma seg_prev_opt q v h prv ps nxt :
  (forall x, q = Some x -> x ∉ ps) -> seg h prv ps nxt -> seg (set_prev_opt q v h) prv ps nxt.
Proof. destruct q; cbn; [|done]. intros H. apply seg_other. by apply H. Qed.

Lemma last_or_elem ps q : last_or None ps = Some q -> q ∈ ps.
Proof. unfold last_or. destruct (last ps) eqn:E; [|done]. intros [= <-]. by apply last_Some_elem_of. Qed.

Lemma first_or_elem ps q : first_or ps None = Some q -> q ∈ ps.
Proof. destruct ps; [done|]. intros [= <-]. by left. Qed.

Lemma next_opt_lookup q v h p : q <> Some p -> set_next_opt q v h !! p = h !! p.
Proof. destruct q; [|done]. intros. apply lookup_alter_ne. congruence. Qed.

Lemma same_data_refl h : same_data h h.
Proof. done. Qed.
Lemma same_data_trans h1 h2 h3 : same_data h1 h2 -> same_data h2 h3 -> same_data h1 h3.
Proof. unfold same_data. congruence. Qed.
Lemma same_data_next p v h h' : same_data h h' -> same_data (set_next p v h) h'.
Proof. apply same_data_trans. by apply same_data_alter. Qed.
Lemma same_data_prev p v h h' : same_data h h' -> same_data (set_prev p v h) h'.
Proof. apply same_data_trans. by apply same_data_alter. Qed.
Lemma same_data_next_opt q v h h' : same_data h h' -> same_data (set_next_opt q v h) h'.
Proof. destruct q; cbn; auto using same_data_next. Qed.
Lemma same_data_prev_opt q v h h' : same_data h h' -> same_data (set_prev_opt q v h) h'.
Proof. destruct q; cbn; auto using same_data_prev. Qed.
#[local] Hint Resolve same_data_refl same_data_next same_data_prev same_data_next_opt
  same_data_prev_opt : veld.

(** [unlinkEntry] on a list entry with predecessor [pv] and successor [nx]. *)
Lemma unlinkEntry_eq s p pv nx :
  prev_of (heap s) p = pv -> next_of (heap s) p = nx -> pv <> Some p ->
  unlinkEntry p s =
  {| heap := set_next p None (set_prev p None (set_prev_opt nx pv (set_next_opt pv nx (heap s))));
     head := match pv with Some _ => head s | None => nx end;
     tail := match nx with Some _ => tail s | None => pv end |}.
Proof.
  intros Hp Hn Hne. unfold unlinkEntry. rewrite Hp, Hn. destruct pv as [q|]; cbn [heap head tail].
  - assert (next_of (set_next q nx (heap s)) p = nx) as ->.
    { unfold next_of, set_next. rewrite lookup_alter_ne by congruence. exact Hn. }
    assert (prev_of (set_next q nx (heap s)) p = Some q) as ->.
    { unfold prev_of, set_next. rewrite lookup_alter_ne by congruence. exact Hp. }
    by destruct nx.
  - rewrite Hn, Hp. by destruct nx.
Qed.

(** Unlinking an entry of the list removes it and touches links only. *)
Lemma unlinkEntry_wfl s l1 p l2 :
  wfl s (l1 ++ p :: l2) ->
  wfl (unlinkEntry p s) (l1 ++ l2) /\ same_data (heap (unlinkEntry p s)) (heap s).
Proof.
  intros Hw. pose proof (links_at _ _ _ _ Hw) as [Hprev Hnext].
  destruct Hw as [Hseg Hhead Htail Hnd].
  apply seg_app in Hseg as [Hs1 [_ Hs2]].
  apply NoDup_app in Hnd as (Hn1 & Hdis & [Hp2 Hn2]%NoDup_cons).
  assert (p ∉ l1) as Hp1 by (intros ?; eapply Hdis; [done|by left]).
  assert (forall q, q ∈ l1 -> q ∉ l2) as Hd by (intros q Hq Hq2; eapply Hdis; [done|by right]).
  rewrite (unlinkEntry_eq s p _ _ Hprev Hnext) by (intros ?%last_or_elem; done).
  split; [|cbn [heap]; auto with veld]. split; cbn [heap head tail].
  - apply seg_other; [set_solver|]. apply seg_other; [set_solver|]. apply seg_app. split.
    + apply seg_prev_opt; [intros x ?%first_or_elem; set_solver|]. by eapply seg_relink_next.
    + eapply seg_relink_prev; [done|]. apply seg_next_opt; [intros x ?%last_or_elem; set_solver|].
      exact Hs2.
  - rewrite Hhead. destruct l1 as [|q l1] using rev_ind; [done|]. rewrite last_or_snoc. by destruct l1.
  - rewrite Htail. unfold last_or. rewrite !last_app, last_cons. destruct l2 as [|r l2] using rev_ind; cbn.
    + by destruct (last l1).
    + rewrite last_snoc. destruct l2; done.
  - apply NoDup_app. done.
Qed.

Lemma linkEntryFront_wfl s ps p :
  wfl s ps -> (p ∉ ps) -> is_Some (heap s !! p) ->
  wfl (linkEntryFront p s) (p :: ps) /\ same_data (heap (linkEntryFront p s)) (heap s).
Proof.
  intros [Hseg Hhead Htail Hnd] Hp [e He].
  assert (heap (linkEntryFront p s) =
    set_prev_opt (head s) (Some p) (set_prev p None (set_next p (head s) (heap s)))) as Hh.
  { unfold linkEntryFront. by destruct (head s). }
  rewrite Hh. split; [|auto with veld]. split; rewrite ?Hh; cbn [head tail linkEntryFront].
  - rewrite Hhead. split.
    + exists (with_prev None (with_next (first_or ps None) e)).
      destruct ps as [|q ps]; cbn [first_or set_prev_opt]; unfold set_prev, set_next;
        rewrite ?lookup_alter_ne by set_solver; rewrite !lookup_alter_eq, He; done.
    + eapply seg_relink_prev; [done|]. apply seg_other; [done|]. apply seg_other; [done|exact Hseg].
  - done.
  - rewrite Htail. unfold last_or. rewrite last_cons. by destruct (last ps).
  - by constructor.
Qed.

Lemma linkEntryBack_wfl s ps p :
  wfl s ps -> (p ∉ ps) -> is_Some (heap s !! p) ->
  wfl (linkEntryBack p s) (ps ++ [p]) /\ same_data (heap (linkEntryBack p s)) (heap s).
Proof.
  intros [Hseg Hhead Htail Hnd] Hp [e He].
  assert (heap (linkEntryBack p s) =
    set_next_opt (tail s) (Some p) (set_next p None (set_prev p (tail s) (heap s)))) as Hh.
  { unfold linkEntryBack. by destruct (tail s). }
  rewrite Hh. split; [|auto with veld]. split; rewrite ?Hh; cbn [head tail linkEntryBack].
  - rewrite Htail. apply seg_app. split.
    + eapply seg_relink_next; [done|]. apply seg_other; [done|]. apply seg_other; [done|exact Hseg].
    + split; [|done]. exists (with_next None (with_prev (last_or None ps) e)).
      rewrite next_opt_lookup by (intros ?%last_or_elem; done).
      unfold set_prev, set_next. rewrite !lookup_alter_eq, He. done.
  - rewrite Hhead. by destruct ps.
  - by rewrite last_or_snoc.
  - apply NoDup_app. split; [done|]. split; [set_solver|apply NoDup_singleton].
Qed.

(** Without the invariant, too, the list operations change links only. *)
Lemma unlinkEntry_data p s : same_data (heap (unlinkEntry p s)) (heap s).
Proof.
  unfold unlinkEntry. cbn [heap]. apply same_data_next, same_data_prev.
  destruct (prev_of (heap s) p) as [q|]; cbn [heap];
    match goal with |- context [match next_of ?h ?x with _ => _ end] => destruct (next_of h x) end;
    cbn [heap]; auto with veld.
Qed.

Lemma linkEntryFront_data p s : same_data (heap (linkEntryFront p s)) (heap s).
Proof. unfold linkEntryFront. cbn [heap]. destruct (head s); auto with veld. Qed.

Lemma linkEntryBack_data p s : same_data (heap (linkEntryBack p s)) (heap s).
Proof. unfold linkEntryBack. cbn [heap]. destruct (tail s); auto with veld. Qed.

Lemma moveToFrontLocked_data p s : same_data (heap (moveToFrontLocked p s)) (heap s).
Proof. eapply same_data_trans; [apply linkEntryFront_data|apply unlinkEntry_data]. Qed.

Section Table.
(** [maphash] with the table's seed, over the bytes written to it. *)
Variable maphash : list Z -> Z.
(** The shards that another goroutine holds when [TryLock] is called. *)
Variable busy : nat -> bool.

Definition hashFlowKey (key : FlowKey) : Z :=
  maphash (k_SrcIP key ++ k_DstIP key ++ [k_Proto key]
    ++ [Z.shiftr (k_SrcPort key) 8; Z.land (k_SrcPort key) 255]
    ++ [Z.shiftr (k_DstPort key) 8; Z.land (k_DstPort key) 255]
    ++ [if k_IPv6 key then 1 else 0]).

Definition shardIdx (key : FlowKey) : nat := Z.to_nat (Z.land (hashFlowKey key) shardMask).

(** [shard.flows[key]] and [delete(shard.flows, key)] in the key's shard. *)
Definition find_flow (key : FlowKey) (ft : FlowTable) : option ptr :=
  shards ft !! shardIdx key ≫= fun flows => flows !! key.
Definition put_flow (key : FlowKey) (p : ptr) (ss : list (gmap FlowKey ptr)) : list (gmap FlowKey ptr) :=
  alter <[key := p]> (shardIdx key) ss.
Definition del_flow (key : FlowKey) (ss : list (gmap FlowKey ptr)) : list (gmap FlowKey ptr) :=
  alter (delete key) (shardIdx key) ss.

(** Remove an entry from shard [i] and from the list, as the expiry paths and
    [RemoveFlow] do. *)
Definition drop_entry (i : nat) (key : FlowKey) (entry : ptr) (ft : FlowTable) : FlowTable :=
  {| shards := alter (delete key) i (shards ft); config := config ft; evict := unlinkEntry entry (evict ft);
     flowCount := flowCount ft - 1; fresh := fresh ft |}.

(** Refresh an entry: its fields, then the front of the list. *)
Definition refresh (entry : ptr) (now : Z) (st : FlowState) (ft : FlowTable) : FlowTable :=
  set_evict ft (moveToFrontLocked entry (upd_heap (alter (touch now st) entry) (evict ft))).

(** Delete the victim's key from its shard and count it, if it is there. *)
Definition delete_victim (key : FlowKey) (ft : FlowTable) : FlowTable :=
  match find_flow key ft with
  | Some _ => {| shards := del_flow key (shards ft); config := config ft; evict := evict ft;
                 flowCount := flowCount ft - 1; fresh := fresh ft |}
  | None => ft
  end.

(** The loop of [evictOneLocked] with its remaining attempts. *)
Fixpoint evict_attempts (attempts : nat) (callerShardIdx : nat) (ft : FlowTable) : FlowTable :=
  match attempts with
  | O => ft
  | S n =>
      match popOldestEntry (evict ft) with
      | (None, _) => ft
      | (Some e, s) =>
          let ft1 := set_evict ft s in
          match heap s !! e with
          | None => ft1
          | Some entry =>
              let key := key_of (e_Flow entry) in
              if (shardIdx key =? callerShardIdx)%nat then delete_victim key ft1
              else if negb (busy (shardIdx key)) then delete_victim key ft1
              else evict_attempts n callerShardIdx (set_evict ft1 (linkEntryBack e s))
          end
      end
  end.

Definition maxAttempts : nat := 8.
Definition evictOneLocked (callerShardIdx : nat) (ft : FlowTable) : FlowTable :=
  evict_attempts maxAttempts callerShardIdx ft.

(** The loop of [Lookup] before an insertion; [None] when [fuel] rounds are not
    enough. *)
Fixpoint evict_loop (fuel : nat) (callerShardIdx : nat) (ft : FlowTable) : option FlowTable :=
  if MaxFlows (config ft) <=? flowCount ft then
    match fuel with
    | O => None
    | S n => evict_loop n callerShardIdx (evictOneLocked callerShardIdx ft)
    end
  else Some ft.

(** The insertion at the end of [Lookup]. *)
Definition insert_new (key : FlowKey) (f : Flow) (now : Z) (st : FlowState) (isReply : bool)
  (ft : FlowTable) : ptr * FlowTable :=
  let p := fresh ft in
  let entry := {| e_Flow := f; e_Created := now; e_LastSeen := now; e_State := st;
                  e_IsReplyDir := isReply; e_next := None; e_prev := None |} in
  (p, {| shards := put_flow key p (shards ft); config := config ft;
         evict := linkEntryFront p (upd_heap <[p := entry]> (evict ft));
         flowCount := flowCount ft + 1; fresh := S p |}).

(** [Lookup]: the entry (nil is [None]), the reply direction and whether the
    entry was created. *)
Definition lookup_missing (fuel : nat) (key : FlowKey) (isReply : bool) (f : Flow)
  (createIfMissing : bool) (initialState : FlowState) (now : Z) (ft : FlowTable)
  : option (option ptr * bool * bool * FlowTable) :=
  if negb createIfMissing then Some (None, isReply, false, ft)
  else
    ft ← evict_loop fuel (shardIdx key) ft;
    let (p, ft) := insert_new key f now initialState isReply ft in
    Some (Some p, isReply, true, ft).

Definition Lookup (fuel : nat) (f : Flow) (createIfMissing : bool) (initialState : FlowState)
  (now : Z) (ft : FlowTable) : option (option ptr * bool * bool * FlowTable) :=
  let (key, isReply) := NormalizeFlowKey f in
  match find_flow key ft with
  | Some entry =>
      e ← heap (evict ft) !! entry;
      if isEntryExpired (config ft) e now then
        lookup_missing fuel key isReply f createIfMissing initialState now (drop_entry (shardIdx key) key entry ft)
      else
        let st := if decide (e_State e = FlowStateNew /\ initialState = FlowStateEstablished)
                  then FlowStateEstablished else e_State e in
        Some (Some entry, isReply, false, refresh entry now st ft)
  | None => lookup_missing fuel key isReply f createIfMissing initialState now ft
  end.

Definition UpdateState (f : Flow) (state : FlowState) (now : Z) (ft : FlowTable) : bool * FlowTable :=
  let key := key_of f in
  match find_flow key ft with
  | None => (false, ft)
  | Some entry =>
      match heap (evict ft) !! entry with
      | None => (false, ft)
      | Some e =>
          if isEntryExpired (config ft) e now then (false, drop_entry (shardIdx key) key entry ft)
          else (true, refresh entry now state ft)
      end
  end.

Definition RemoveFlow (key : FlowKey) (ft : FlowTable) : bool * FlowTable :=
  match find_flow key ft with
  | None => (false, ft)
  | Some entry => (true, drop_entry (shardIdx key) key entry ft)
  end.

(** The body of the inner loop of [ExpireOldFlows], for one entry of shard [i]. *)
Definition expire_one (now : Z) (i : nat) (acc : nat * FlowTable) (kp : FlowKey * ptr) : nat * FlowTable :=
  let (count, ft) := acc in
  match heap (evict ft) !! kp.2 with
  | None => acc
  | Some e =>
      let expired := GetTimeout (config ft) (FProto (e_Flow e)) <? now - e_LastSeen e in
      let closed := bool_decide (e_State e = FlowStateClosed) in
      if expired || closed then (S count, drop_entry i kp.1 kp.2 ft) else acc
  end.

(** [range_map] is the order in which a range visits a map. *)
Definition ExpireOldFlows (range_map : gmap FlowKey ptr -> list (FlowKey * ptr)) (now : Z)
  (ft : FlowTable) : nat * FlowTable :=
  foldl (fun acc i => foldl (expire_one now i) acc (range_map (default ∅ (shards acc.2 !! i))))
    (0%nat, ft) (seq 0 numShards).

Definition Len (ft : FlowTable) : Z := flowCount ft.

Record FlowTableStats := {
  TotalFlows : nat; EstablishedFlows : nat; ExpiredFlows : nat; StatsMaxFlows : Z
}.

Definition Stats (now : Z) (ft : FlowTable) : FlowTableStats :=
  let entries := omap (fun p => heap (evict ft) !! p)
                   (shards ft ≫= fun m => (map_to_list m).*2) in
  {| TotalFlows := foldr (fun m n => (size m + n)%nat) 0%nat (shards ft);
     EstablishedFlows := length (filter (fun e => e_State e = FlowStateEstablished) entries);
     ExpiredFlows := length (filter (fun e => isEntryExpired (config ft) e now = true) entries);
     StatsMaxFlows := MaxFlows (config ft) |}.

(** ** The abstract table

    A bounded list of entries, most recently used first, with one entry per
    normalized key. *)
Definition a_key (a : AEntry) : FlowKey := key_of (a_Flow a).

Definition dat (ft : FlowTable) (p : ptr) : option AEntry := data <$> heap (evict ft) !! p.

Record abs (ft : FlowTable) (ps : list ptr) (l : list AEntry) : Prop := {
  ab_list : wfl (evict ft) ps;
  ab_data : Forall2 (fun p a => dat ft p = Some a) ps l;
  ab_index : forall k p, find_flow k ft = Some p <-> p ∈ ps /\ exists a, dat ft p = Some a /\ a_key a = k;
  ab_place : forall i m k p, shards ft !! i = Some m -> m !! k = Some p -> i = shardIdx k;
  ab_shards : length (shards ft) = numShards;
  ab_count : flowCount ft = Z.of_nat (length ps);
  ab_max : Z.of_nat (length ps) <= MaxFlows (config ft);
  ab_pos : 0 < MaxFlows (config ft);
  ab_fresh : forall p, is_Some (heap (evict ft) !! p) -> (p < fresh ft)%nat
}.

Lemma shardIdx_lt k : (shardIdx k < numShards)%nat.
Proof.
  unfold shardIdx, shardMask, numShards. change 63 with (Z.ones 6).
  rewrite Z.land_ones by lia. pose proof (Z.mod_pos_bound (hashFlowKey k) (2 ^ 6)). lia.
Qed.

Lemma find_flow_shard k ft ss :
  length ss = numShards -> shards ft = ss ->
  exists m, ss !! shardIdx k = Some m /\ find_flow k ft = m !! k.
Proof.
  intros Hl <-. destruct (lookup_lt_is_Some_2 (shards ft) (shardIdx k)) as [m Hm].
  - rewrite Hl. apply shardIdx_lt.
  - exists m. unfold find_flow. by rewrite Hm.
Qed.

(** [find_flow] after a write to one shard. *)
Lemma find_flow_alter ft ft' g k :
  shards ft' = alter g (shardIdx k) (shards ft) ->
  (forall m k', k' <> k -> g m !! k' = m !! k') ->
  forall k', k' <> k -> find_flow k' ft' = find_flow k' ft.
Proof.
  intros Hs Hg k' Hne. unfold find_flow. rewrite Hs.
  destruct (decide (shardIdx k = shardIdx k')) as [E|E].
  - rewrite <- E, list_lookup_alter_eq. destruct (shards ft !! shardIdx k); cbn; [by apply Hg|done].
  - by rewrite list_lookup_alter_ne.
Qed.

Lemma find_flow_same ft ft' g k :
  shards ft' = alter g (shardIdx k) (shards ft) -> length (shards ft) = numShards ->
  exists m, find_flow k ft' = g m !! k.
Proof.
  intros Hs Hl. destruct (find_flow_shard k ft _ Hl eq_refl) as (m & Hm & _). exists m.
  unfold find_flow. rewrite Hs, list_lookup_alter_eq, Hm. done.
Qed.

(** Keys are unique: the list splits at the entry of a key. *)
Lemma abs_split ft ps l k p :
  abs ft ps l -> find_flow k ft = Some p ->
  exists ps1 ps2 l1 a l2, ps = ps1 ++ p :: ps2 /\ l = l1 ++ a :: l2 /\
    length ps1 = length l1 /\ dat ft p = Some a /\ a_key a = k /\
    Forall (fun b => a_key b <> k) (l1 ++ l2).
Proof.
  intros [Hw Hd Hi _ _ _ _ _ _] Hf.
  pose proof (proj1 (Hi k p) Hf) as (Hp & a & Ha & Hk).
  apply list_elem_of_split in Hp as (ps1 & ps2 & ->).
  apply Forall2_app_inv_l in Hd as (l1 & l2' & H1 & H2 & ->).
  apply Forall2_cons_inv_l in H2 as (a' & l2 & Ha' & H2 & ->).
  rewrite Ha in Ha'. injection Ha' as <-.
  exists ps1, ps2, l1, a, l2. split_and!; try done; [by eapply Forall2_length|].
  assert (forall qs bs, Forall2 (fun q b => dat ft q = Some b) qs bs -> (p ∉ qs) ->
    (forall q, q ∈ qs -> q ∈ ps1 ++ p :: ps2) -> Forall (fun b => a_key b <> k) bs) as Hgen.
  { intros qs bs HF Hnp Hin. apply Forall_lookup. intros i b Hb Hbk.
    destruct (Forall2_lookup_r _ _ _ _ _ HF Hb) as (q & Hq & Hdq).
    apply list_elem_of_lookup_2 in Hq.
    assert (find_flow k ft = Some q) as Hfq by (apply Hi; eauto).
    rewrite Hf in Hfq. injection Hfq as ->. done. }
  pose proof (wfl_nodup _ _ Hw) as (_ & Hdis & [Hp2 _]%NoDup_cons)%NoDup_app.
  apply Forall_app. split.
  - apply (Hgen ps1); [done|intros ?; eapply Hdis; [done|by left]|intros; apply elem_of_app; by left].
  - apply (Hgen ps2); [done..|]. intros. apply elem_of_app. right. by right.
Qed.

Lemma abs_missing ft ps l k :
  abs ft ps l -> find_flow k ft = None -> Forall (fun b => a_key b <> k) l.
Proof.
  intros Hab Hf. apply Forall_lookup. intros i b Hb Hk.
  destruct (Forall2_lookup_r _ _ _ _ _ (ab_data _ _ _ Hab) Hb) as (q & Hq & Hdq).
  apply list_elem_of_lookup_2 in Hq.
  assert (find_flow k ft = Some q) by (apply (ab_index _ _ _ Hab); eauto). congruence.
Qed.

Lemma same_data_dat s h p : same_data (heap s) h -> data <$> heap s !! p = data <$> h !! p.
Proof. intros H. rewrite <- !lookup_fmap. by rewrite H. Qed.

Lemma same_data_in h h' p : same_data h h' -> is_Some (h !! p) <-> is_Some (h' !! p).
Proof.
  intros H. rewrite <- (fmap_is_Some data), <- (fmap_is_Some data (h' !! p)), <- !lookup_fmap, H. done.
Qed.

Lemma drop_abs ft ft' ps1 p ps2 l1 a l2 :
  abs ft (ps1 ++ p :: ps2) (l1 ++ a :: l2) -> length ps1 = length l1 -> dat ft p = Some a ->
  shards ft' = alter (delete (a_key a)) (shardIdx (a_key a)) (shards ft) ->
  config ft' = config ft -> fresh ft' = fresh ft -> flowCount ft' = flowCount ft - 1 ->
  wfl (evict ft') (ps1 ++ ps2) -> same_data (heap (evict ft')) (heap (evict ft)) ->
  abs ft' (ps1 ++ ps2) (l1 ++ l2).
Proof.
  clear busy. intros Hab Hlen Ha Hs Hc Hfr Hn Hw Hsd.
  assert (forall q, dat ft' q = dat ft q) as Hdat by (intros; by apply same_data_dat).
  pose proof (wfl_nodup _ _ (ab_list _ _ _ Hab)) as (_ & Hdis & [Hp2 _]%NoDup_cons)%NoDup_app.
  assert (p ∉ ps1 ++ ps2) as Hp.
  { rewrite elem_of_app. intros [?|?]; [eapply Hdis; [done|by left]|done]. }
  assert (find_flow (a_key a) ft = Some p) as Hfp.
  { apply (ab_index _ _ _ Hab). split; [set_solver|eauto]. }
  destruct Hab as [_ Hd Hi Hpl Hsh Hcnt Hmax Hpos Hfresh]. split.
  - done.
  - apply Forall2_app_inv in Hd as [H1 H2]; [|done].
    inversion H2; subst. apply Forall2_app; (eapply Forall2_impl; [eassumption|]); intros ??; by rewrite Hdat.
  - intros k q. setoid_rewrite Hdat. destruct (decide (k = a_key a)) as [->|Hk].
    + destruct (find_flow_same ft ft' _ _ Hs Hsh) as (m & ->). rewrite lookup_delete_eq. split; [done|].
      intros (Hq & b & Hb & Hbk). exfalso.
      assert (find_flow (a_key a) ft = Some q) as Hq'.
      { apply Hi. split; [set_solver|eauto]. }
      rewrite Hfp in Hq'. injection Hq' as ->. done.
    + rewrite (find_flow_alter ft ft' _ _ Hs) by (done || (intros; by apply lookup_delete_ne)).
      rewrite Hi. split; intros (Hq & b & Hb & Hbk); (split; [|eauto]); [|set_solver].
      assert (q <> p) by (intros ->; rewrite Ha in Hb; congruence). set_solver.
  - intros i m k q Hm Hk. rewrite Hs in Hm.
    destruct (decide (i = shardIdx (a_key a))) as [->|Hi'].
    + rewrite list_lookup_alter_eq in Hm. destruct (shards ft !! shardIdx (a_key a)) as [m0|] eqn:E; [|done].
      injection Hm as <-. apply lookup_delete_Some in Hk as [_ Hk]. by eapply Hpl.
    + rewrite list_lookup_alter_ne in Hm by done. by eapply Hpl.
  - rewrite Hs, length_alter. done.
  - rewrite Hn, Hcnt, !length_app. cbn. lia.
  - rewrite Hc. rewrite length_app in *. cbn in Hmax. lia.
  - by rewrite Hc.
  - intros q Hq. rewrite Hfr. apply Hfresh. by eapply same_data_in.
Qed.

Lemma drop_entry_abs ft ps1 p ps2 l1 a l2 :
  abs ft (ps1 ++ p :: ps2) (l1 ++ a :: l2) -> length ps1 = length l1 -> dat ft p = Some a ->
  abs (drop_entry (shardIdx (a_key a)) (a_key a) p ft) (ps1 ++ ps2) (l1 ++ l2).
Proof.
  intros Hab Hlen Ha. destruct (unlinkEntry_wfl _ _ _ _ (ab_list _ _ _ Hab)) as [Hw Hsd].
  by eapply drop_abs.
Qed.

(** Rewriting the fields of one entry and moving it to the front. *)
Definition a_touch (now : Z) (st : FlowState) (a : AEntry) : AEntry :=
  {| a_Flow := a_Flow a; a_Created := a_Created a; a_LastSeen := now; a_State := st;
     a_IsReplyDir := a_IsReplyDir a |}.

Lemma seg_links g p h prv ps nxt :
  (forall e, e_prev (g e) = e_prev e /\ e_next (g e) = e_next e) ->
  seg h prv ps nxt -> seg (alter g p h) prv ps nxt.
Proof.
  intros Hg. revert prv. induction ps as [|q ps IH]; intros prv; cbn [seg]; [done|].
  intros [(e & He & Hp & Hx) Hs]. split; [|by apply IH]. destruct (decide (p = q)) as [->|Hne].
  - exists (g e). rewrite lookup_alter_eq, He. cbn. destruct (Hg e) as [-> ->]. done.
  - exists e. by rewrite lookup_alter_ne.
Qed.

Lemma wfl_touch s ps p now st : wfl s ps -> wfl (upd_heap (alter (touch now st) p) s) ps.
Proof. intros [Hseg Hh Ht Hn]. split; try done. by apply seg_links. Qed.

Lemma Forall2_dat (f g : ptr -> option AEntry) qs bs :
  (forall q, q ∈ qs -> g q = f q) ->
  Forall2 (fun q b => f q = Some b) qs bs -> Forall2 (fun q b => g q = Some b) qs bs.
Proof.
  intros Heq. induction 1 as [|q b qs bs Hq _ IH]; constructor.
  - rewrite Heq by by left. done.
  - apply IH. intros. apply Heq. by right.
Qed.

Lemma refresh_abs ft ps1 p ps2 l1 a l2 now st :
  abs ft (ps1 ++ p :: ps2) (l1 ++ a :: l2) -> length ps1 = length l1 -> dat ft p = Some a ->
  abs (refresh p now st ft) (p :: ps1 ++ ps2) (a_touch now st a :: l1 ++ l2) /\
  dat (refresh p now st ft) p = Some (a_touch now st a).
Proof.
  clear busy. intros Hab Hlen Ha. set (s0 := upd_heap (alter (touch now st) p) (evict ft)).
  assert (wfl s0 (ps1 ++ p :: ps2)) as Hw0 by apply wfl_touch, (ab_list _ _ _ Hab).
  destruct (unlinkEntry_wfl _ _ _ _ Hw0) as [Hw1 Hd1].
  pose proof (wfl_nodup _ _ Hw0) as (_ & Hdis & [Hp2 _]%NoDup_cons)%NoDup_app.
  assert (p ∉ ps1 ++ ps2) as Hp.
  { rewrite elem_of_app. intros [?|?]; [eapply Hdis; [done|by left]|done]. }
  assert (is_Some (heap (evict ft) !! p)) as Hin.
  { unfold dat in Ha. destruct (heap (evict ft) !! p); [eauto|done]. }
  destruct (linkEntryFront_wfl (unlinkEntry p s0) (ps1 ++ ps2) p Hw1 Hp) as [Hw2 Hd2].
  { apply (same_data_in _ _ _ Hd1). cbn. rewrite lookup_alter_eq. destruct Hin as [? ->]. eauto. }
  pose proof (same_data_trans _ _ _ Hd2 Hd1) as Hd. clear Hw0 Hw1 Hd1 Hd2.
  assert (dat (refresh p now st ft) p = Some (a_touch now st a)) as Hpa.
  { unfold dat, refresh, moveToFrontLocked. cbn [evict set_evict]. rewrite (same_data_dat _ _ _ Hd).
    cbn. rewrite lookup_alter_eq. unfold dat in Ha. destruct (heap (evict ft) !! p); [|done].
    cbn in Ha |- *. injection Ha as <-. done. }
  assert (forall q, q <> p -> dat (refresh p now st ft) q = dat ft q) as Hdat.
  { intros q Hq. unfold dat, refresh, moveToFrontLocked. cbn [evict set_evict].
    rewrite (same_data_dat _ _ _ Hd). cbn. by rewrite lookup_alter_ne by congruence. }
  split; [|done]. destruct Hab as [_ HF Hi Hpl Hsh Hcnt Hmax Hpos Hfresh].
  apply Forall2_app_inv in HF as [H1 H2]; [|done]. inversion H2; subst. split.
  - done.
  - constructor; [done|]. apply Forall2_app; (eapply Forall2_dat; [|eassumption]);
      intros q Hq; apply Hdat; intros ->; apply Hp, elem_of_app; auto.
  - intros k q. change (find_flow k (refresh p now st ft)) with (find_flow k ft). rewrite Hi.
    destruct (decide (q = p)) as [->|Hq].
    + rewrite Hpa, Ha. split; (intros (_ & b & [= <-] & Hk); split; [|by eauto]).
      * by left.
      * apply elem_of_app. right. by left.
    + rewrite Hdat by done. rewrite elem_of_cons, !elem_of_app, elem_of_cons. tauto.
  - done.
  - done.
  - cbn. rewrite Hcnt, !length_app. cbn. lia.
  - cbn. rewrite length_app in *. cbn in *. lia.
  - done.
  - intros q Hq. apply Hfresh. apply (same_data_in _ _ _ Hd) in Hq. cbn in Hq.
    by rewrite lookup_alter_is_Some in Hq.
Qed.

(** Eviction takes the last entry of the list, unless its shard is busy. *)
Lemma evictOneLocked_abs ft ps p l a caller :
  abs ft (ps ++ [p]) (l ++ [a]) ->
  busy (shardIdx (a_key a)) = false \/ shardIdx (a_key a) = caller ->
  abs (evictOneLocked caller ft) ps l.
Proof.
  intros Hab Hbusy.
  pose proof (Forall2_length _ _ _ (ab_data _ _ _ Hab)) as Hlen. rewrite !length_app in Hlen. cbn in Hlen.
  assert (dat ft p = Some a) as Ha.
  { pose proof (ab_data _ _ _ Hab) as HF. apply Forall2_app_inv in HF as [_ H2]; [|lia]. by inversion H2. }
  destruct (unlinkEntry_wfl _ _ _ _ (ab_list _ _ _ Hab)) as [Hw Hsd].
  assert (find_flow (a_key a) ft = Some p) as Hf.
  { apply (ab_index _ _ _ Hab). split; [|eauto]. apply elem_of_app. right. by left. }
  unfold evictOneLocked, maxAttempts. cbn [evict_attempts].
  unfold popOldestEntry. rewrite (wfl_tail _ _ (ab_list _ _ _ Hab)), last_or_snoc.
  pose proof (same_data_dat (unlinkEntry p (evict ft)) _ p Hsd) as Hdp.
  fold (dat ft p) in Hdp. rewrite Ha in Hdp.
  destruct (heap (unlinkEntry p (evict ft)) !! p) as [e|]; [|done]. cbn in Hdp. injection Hdp as <-.
  change (key_of (e_Flow e)) with (a_key (data e)).
  assert (abs (delete_victim (a_key (data e)) (set_evict ft (unlinkEntry p (evict ft)))) ps l) as Hgoal.
  { unfold delete_victim. change (find_flow (a_key (data e)) (set_evict ft _)) with (find_flow (a_key (data e)) ft).
    rewrite Hf. rewrite <- (app_nil_r ps), <- (app_nil_r l). eapply drop_abs; try done; try lia. }
  destruct (shardIdx (a_key (data e)) =? caller)%nat eqn:E; [done|].
  apply Nat.eqb_neq in E. destruct Hbusy as [->|?]; [done|congruence].
Qed.

(** A key goes into its own shard. *)
Lemma put_flow_placed key p ss :
  (forall i m k q, ss !! i = Some m -> m !! k = Some q -> i = shardIdx k) ->
  forall i m k q, put_flow key p ss !! i = Some m -> m !! k = Some q -> i = shardIdx k.
Proof.
  clear busy. intros Hpl i m k q Hm Hk. unfold put_flow in Hm.
  destruct (decide (i = shardIdx key)) as [->|Hi].
  - rewrite list_lookup_alter_eq in Hm. destruct (ss !! _) as [m0|] eqn:E; [|done].
    injection Hm as <-. destruct (decide (k = key)) as [->|Hkf]; [done|].
    rewrite lookup_insert_ne in Hk by done. by eapply Hpl.
  - rewrite list_lookup_alter_ne in Hm by done. by eapply Hpl.
Qed.

Lemma insert_new_abs ft ps l f now st isReply :
  abs ft ps l -> Forall (fun b => a_key b <> key_of f) l -> Z.of_nat (length ps) < MaxFlows (config ft) ->
  let r := insert_new (key_of f) f now st isReply ft in
  let a := {| a_Flow := f; a_Created := now; a_LastSeen := now; a_State := st; a_IsReplyDir := isReply |} in
  abs r.2 (r.1 :: ps) (a :: l) /\ dat r.2 r.1 = Some a.
Proof.
  clear busy. intros Hab Hkeys Hlt. cbv zeta. set (p := fresh ft). cbn [insert_new fst snd].
  match goal with |- context [linkEntryFront _ (upd_heap <[_ := ?e]> _)] => set (entry := e) end.
  match goal with |- abs ?x _ _ /\ _ => set (ft' := x) end.
  destruct Hab as [Hw HF Hi Hpl Hsh Hcnt Hmax Hpos Hfresh].
  assert (heap (evict ft) !! p = None) as Hnone.
  { destruct (heap (evict ft) !! p) eqn:E; [|done].
    assert (p < fresh ft)%nat by (apply Hfresh; eauto). unfold p in *. lia. }
  assert (p ∉ ps) as Hp.
  { intros Hin. apply (seg_in_heap _ _ _ _ _ (wfl_seg _ _ Hw)) in Hin as [? Hin]. congruence. }
  assert (wfl (upd_heap <[p := entry]> (evict ft)) ps) as Hw0.
  { destruct Hw as [Hseg ???]. split; try done. cbn. eapply seg_ext; [|exact Hseg].
    intros q Hq. apply lookup_insert_ne. by intros ->. }
  destruct (linkEntryFront_wfl _ _ p Hw0 Hp) as [Hw1 Hsd].
  { cbn. rewrite lookup_insert_eq. eauto. }
  assert (dat ft' p = Some (data entry)) as Hdp.
  { unfold dat. cbn [evict ft']. rewrite (same_data_dat _ _ _ Hsd). cbn. by rewrite lookup_insert_eq. }
  assert (forall q, q <> p -> dat ft' q = dat ft q) as Hdat.
  { intros q Hq. unfold dat. cbn [evict ft']. rewrite (same_data_dat _ _ _ Hsd). cbn.
    by rewrite lookup_insert_ne. }
  split; [|done]. split.
  - done.
  - constructor; [done|]. eapply Forall2_dat; [|exact HF]. intros q Hq. apply Hdat. by intros ->.
  - intros k q. destruct (decide (k = key_of f)) as [->|Hk].
    + destruct (find_flow_same ft ft' _ _ eq_refl Hsh) as (m & ->). rewrite lookup_insert_eq. split.
      * intros [= <-]. split; [by left|eauto].
      * intros (Hq & b & Hb & Hbk). destruct (decide (q = p)) as [->|Hne]; [done|exfalso].
        apply elem_of_cons in Hq as [?|Hq]; [done|]. rewrite Hdat in Hb by done.
        apply list_elem_of_lookup in Hq as [i Hq].
        destruct (Forall2_lookup_l _ _ _ _ _ HF Hq) as (b' & Hb' & E). rewrite Hb in E. injection E as <-.
        by apply (Forall_lookup_1 _ _ _ _ Hkeys Hb').
    + rewrite (find_flow_alter ft ft' _ (key_of f) eq_refl) by (done || (intros; by apply lookup_insert_ne)).
      rewrite Hi, elem_of_cons. destruct (decide (q = p)) as [->|Hne].
      * split; [by intros [? _]|]. intros (_ & b & Hb & Hbk). rewrite Hdp in Hb. injection Hb as <-. done.
      * rewrite Hdat by done. tauto.
  - intros i m k q. apply put_flow_placed, Hpl.
  - cbn. unfold put_flow. by rewrite length_alter.
  - cbn. rewrite Hcnt. lia.
  - cbn. lia.
  - done.
  - intros q Hq. apply (same_data_in _ _ _ Hsd) in Hq. cbn in Hq |- *.
    apply lookup_insert_is_Some in Hq as [<-|[_ Hq]]; [unfold p; lia|]. apply Hfresh in Hq. unfold p. lia.
Qed.

Lemma delete_victim_config key ft : config (delete_victim key ft) = config ft.
Proof. unfold delete_victim. by destruct (find_flow key ft). Qed.

Lemma evict_attempts_config n caller ft : config (evict_attempts n caller ft) = config ft.
Proof.
  revert ft. induction n as [|n IH]; intros ft; [done|]. cbn [evict_attempts].
  destruct (popOldestEntry (evict ft)) as [[e|] s']; [|done]. destruct (heap s' !! e); [|done].
  repeat case_match; rewrite ?delete_victim_config, ?IH; done.
Qed.

Lemma evict_loop_abs ft ps l caller fuel :
  abs ft ps l -> (forall i, busy i = false) -> (0 < fuel)%nat ->
  exists ft' ps', evict_loop fuel caller ft = Some ft' /\ config ft' = config ft /\
    abs ft' ps' (take (Z.to_nat (MaxFlows (config ft) - 1)) l) /\
    Z.of_nat (length ps') < MaxFlows (config ft).
Proof.
  intros Hab Hbusy Hfuel. destruct fuel as [|fuel]; [lia|]. cbn [evict_loop].
  pose proof (Forall2_length _ _ _ (ab_data _ _ _ Hab)) as Hlen.
  pose proof (ab_count _ _ _ Hab) as Hcnt. pose proof (ab_max _ _ _ Hab). pose proof (ab_pos _ _ _ Hab).
  destruct (MaxFlows (config ft) <=? flowCount ft) eqn:E; bool_to_prop.
  - destruct ps as [|p ps _] using rev_ind; [cbn [length] in *; lia|].
    destruct l as [|a l _] using rev_ind; [rewrite length_app in Hlen; cbn [length] in Hlen; lia|].
    rewrite !length_app in *. cbn [length] in *.
    pose proof (evictOneLocked_abs _ _ _ _ _ caller Hab (or_introl (Hbusy _))) as Hab'.
    assert (config (evictOneLocked caller ft) = config ft) as Hc by apply evict_attempts_config.
    pose proof (ab_count _ _ _ Hab') as Hcnt'.
    generalize dependent (evictOneLocked caller ft). intros ft1 Hab1 Hc Hcnt1.
    exists ft1, ps. split_and!; [|exact Hc| |lia].
    + destruct fuel; cbn [evict_loop]; rewrite (proj2 (Z.leb_gt _ _)) by (rewrite Hc; lia); reflexivity.
    + rewrite take_app_length' by lia. done.
  - exists ft, ps. split_and!; [done..| |lia]. rewrite take_ge by lia. done.
Qed.

(** ** The specification of the operations on the abstract table *)
Definition a_expired (c : FlowTableConfig) (now : Z) (a : AEntry) : bool :=
  GetTimeout c (FProto (a_Flow a)) <? now - a_LastSeen a.

Definition a_find (k : FlowKey) (l : list AEntry) : option AEntry :=
  snd <$> list_find (fun a => a_key a = k) l.
Definition a_remove (k : FlowKey) (l : list AEntry) : list AEntry :=
  filter (fun a => a_key a <> k) l.

(** The entry found or created, and the table. *)
Definition spec_create (c : FlowTableConfig) (f : Flow) (create : bool) (st : FlowState) (now : Z)
  (l : list AEntry) : option AEntry * bool * bool * list AEntry :=
  let isReply := (NormalizeFlowKey f).2 in
  if create then
    let a := {| a_Flow := f; a_Created := now; a_LastSeen := now; a_State := st; a_IsReplyDir := isReply |} in
    (Some a, isReply, true, a :: take (Z.to_nat (MaxFlows c - 1)) l)
  else (None, isReply, false, l).

Definition spec_Lookup (c : FlowTableConfig) (f : Flow) (create : bool) (st : FlowState) (now : Z)
  (l : list AEntry) : option AEntry * bool * bool * list AEntry :=
  match a_find (key_of f) l with
  | Some a =>
      if a_expired c now a then spec_create c f create st now (a_remove (key_of f) l)
      else
        let st' := if decide (a_State a = FlowStateNew /\ st = FlowStateEstablished)
                   then FlowStateEstablished else a_State a in
        (Some (a_touch now st' a), (NormalizeFlowKey f).2, false, a_touch now st' a :: a_remove (key_of f) l)
  | None => spec_create c f create st now l
  end.

Definition spec_UpdateState (c : FlowTableConfig) (f : Flow) (st : FlowState) (now : Z)
  (l : list AEntry) : bool * list AEntry :=
  match a_find (key_of f) l with
  | None => (false, l)
  | Some a => if a_expired c now a then (false, a_remove (key_of f) l)
              else (true, a_touch now st a :: a_remove (key_of f) l)
  end.

Definition spec_RemoveFlow (k : FlowKey) (l : list AEntry) : bool * list AEntry :=
  match a_find k l with
  | None => (false, l)
  | Some _ => (true, a_remove k l)
  end.

Lemma a_remove_none k l : Forall (fun b => a_key b <> k) l -> a_remove k l = l.
Proof. induction 1 as [|b l Hb _ IH]; [done|]. unfold a_remove in *. by rewrite filter_cons_True, IH. Qed.

Lemma a_find_none k l : Forall (fun b => a_key b <> k) l -> a_find k l = None.
Proof.
  intros H. unfold a_find. rewrite (proj2 (list_find_None _ _)); [done|]. exact H.
Qed.

Lemma a_find_split k l1 a l2 :
  a_key a = k -> Forall (fun b => a_key b <> k) (l1 ++ l2) ->
  a_find k (l1 ++ a :: l2) = Some a /\ a_remove k (l1 ++ a :: l2) = l1 ++ l2.
Proof.
  intros Hk [H1 H2]%Forall_app. split.
  - unfold a_find. rewrite list_find_app_r by by apply list_find_None.
    cbn. rewrite decide_True by done. done.
  - unfold a_remove. rewrite filter_app, filter_cons_False by (intros ?; done).
    fold (a_remove k l1) (a_remove k l2). by rewrite !a_remove_none.
Qed.

(** What the concrete lookup of a key finds, in abstract terms. *)
Lemma abs_find ft ps l k p :
  abs ft ps l -> find_flow k ft = Some p ->
  exists ps1 ps2 l1 a l2 e, ps = ps1 ++ p :: ps2 /\ l = l1 ++ a :: l2 /\ length ps1 = length l1 /\
    dat ft p = Some a /\ a_key a = k /\ heap (evict ft) !! p = Some e /\ data e = a /\
    a_find k l = Some a /\ a_remove k l = l1 ++ l2.
Proof.
  intros Hab Hf. destruct (abs_split _ _ _ _ _ Hab Hf) as (ps1 & ps2 & l1 & a & l2 & -> & -> & Hl & Ha & Hk & Hne).
  destruct (a_find_split k l1 a l2 Hk Hne) as [Hfind Hrem].
  unfold dat in Ha. destruct (heap (evict ft) !! p) as [e|] eqn:E; [|done]. injection Ha as He.
  exists ps1, ps2, l1, a, l2, e. unfold dat. rewrite E. cbn. rewrite He. done.
Qed.

Lemma a_remove_keys k l : Forall (fun b => a_key b <> k) (a_remove k l).
Proof. apply Forall_forall. intros b [? _]%list_elem_of_filter. done. Qed.

Lemma lookup_missing_abs fuel ft ps l f create st now :
  abs ft ps l -> (forall i, busy i = false) -> (0 < fuel)%nat ->
  Forall (fun b => a_key b <> key_of f) l ->
  let '(ra, isReply, created, l') := spec_create (config ft) f create st now l in
  exists rp ft' ps',
    lookup_missing fuel (key_of f) (NormalizeFlowKey f).2 f create st now ft =
      Some (rp, isReply, created, ft') /\
    abs ft' ps' l' /\ config ft' = config ft /\ (rp ≫= dat ft') = ra.
Proof.
  intros Hab Hbusy Hfuel Hk. unfold spec_create, lookup_missing. destruct create; cbn [negb].
  - destruct (evict_loop_abs ft ps l (shardIdx (key_of f)) fuel Hab Hbusy Hfuel) as (ft1 & ps1 & -> & Hc & Hab1 & Hlt).
    rewrite bind_Some_eq. rewrite <- Hc in Hlt.
    destruct (insert_new_abs ft1 ps1 _ f now st (NormalizeFlowKey f).2 Hab1) as [Hab2 Hd]; [|done|].
    { by apply Forall_take. }
    destruct (insert_new (key_of f) f now st _ ft1) as [p ft2] eqn:E. cbn [fst snd] in *.
    exists (Some p), ft2, (p :: ps1). split_and!; try done.
    injection E as _ <-. done.
  - by exists None, ft, ps.
Qed.

Lemma Lookup_abs fuel ft ps l f create st now :
  abs ft ps l -> (forall i, busy i = false) -> (0 < fuel)%nat ->
  let '(ra, isReply, created, l') := spec_Lookup (config ft) f create st now l in
  exists rp ft' ps',
    Lookup fuel f create st now ft = Some (rp, isReply, created, ft') /\
    abs ft' ps' l' /\ config ft' = config ft /\ (rp ≫= dat ft') = ra.
Proof.
  intros Hab Hbusy Hfuel. unfold Lookup, spec_Lookup.
  rewrite (surjective_pairing (NormalizeFlowKey f)). fold (key_of f).
  destruct (find_flow (key_of f) ft) as [p|] eqn:Hf.
  - destruct (abs_find _ _ _ _ _ Hab Hf) as
      (ps1 & ps2 & l1 & a & l2 & e & -> & -> & Hl & Ha & Hk & He & <- & -> & Hrem).
    rewrite He, bind_Some_eq.
    change (isEntryExpired (config ft) e now) with (a_expired (config ft) now (data e)).
    destruct (a_expired _ _ _).
    + pose proof (drop_entry_abs _ _ _ _ _ _ _ Hab Hl Ha) as Hab'. rewrite Hk in Hab'.
      rewrite Hrem. apply (lookup_missing_abs fuel _ _ _ f create st now Hab' Hbusy Hfuel).
      rewrite <- Hrem. apply a_remove_keys.
    + rewrite Hrem.
      destruct (refresh_abs ft ps1 p ps2 l1 (data e) l2 now
        (if decide (e_State e = FlowStateNew /\ st = FlowStateEstablished)
         then FlowStateEstablished else e_State e) Hab Hl Ha) as [Hab' Hd].
      eexists (Some p), _, _. split; [reflexivity|]. split; [exact Hab'|]. split; [done|]. exact Hd.
  - pose proof (abs_missing _ _ _ _ Hab Hf) as Hk. rewrite a_find_none by done.
    by apply (lookup_missing_abs fuel ft ps l f create st now).
Qed.

(** C13: the table implements its specification: with the other shards free,
    [Lookup] returns within its eviction loop and acts as the abstract bounded
    LRU table does: a live entry is refreshed and moved to the front, an
    expired one is dropped, a missing one is created when asked, and only then,
    when the table is full, the least recently used entry is evicted. *)
Theorem Lookup_refines fuel ft ps l f create st now :
  abs ft ps l -> (forall i, busy i = false) -> (0 < fuel)%nat ->
  let '(ra, isReply, created, l') := spec_Lookup (config ft) f create st now l in
  exists rp ft' ps',
    Lookup fuel f create st now ft = Some (rp, isReply, created, ft') /\
    abs ft' ps' l' /\ config ft' = config ft /\ (rp ≫= dat ft') = ra.
Proof. apply Lookup_abs. Qed.

Lemma UpdateState_abs ft ps l f st now :
  abs ft ps l ->
  let '(ok, l') := spec_UpdateState (config ft) f st now l in
  exists ft' ps', UpdateState f st now ft = (ok, ft') /\ abs ft' ps' l' /\ config ft' = config ft.
Proof.
  intros Hab. unfold UpdateState, spec_UpdateState. destruct (find_flow (key_of f) ft) as [p|] eqn:Hf.
  - destruct (abs_find _ _ _ _ _ Hab Hf) as
      (ps1 & ps2 & l1 & a & l2 & e & -> & -> & Hl & Ha & Hk & He & <- & -> & Hrem). rewrite He, Hrem.
    change (isEntryExpired (config ft) e now) with (a_expired (config ft) now (data e)).
    destruct (a_expired _ _ _).
    + rewrite <- Hk. eexists _, _. split; [done|]. split; [by eapply drop_entry_abs|done].
    + destruct (refresh_abs ft ps1 p ps2 l1 (data e) l2 now st Hab Hl Ha) as [Hab' _]. eauto.
  - rewrite a_find_none by by eapply abs_missing. eauto.
Qed.

Lemma RemoveFlow_abs ft ps l k :
  abs ft ps l ->
  let '(ok, l') := spec_RemoveFlow k l in
  exists ft' ps', RemoveFlow k ft = (ok, ft') /\ abs ft' ps' l' /\ config ft' = config ft.
Proof.
  intros Hab. unfold RemoveFlow, spec_RemoveFlow. destruct (find_flow k ft) as [p|] eqn:Hf.
  - destruct (abs_find _ _ _ _ _ Hab Hf) as
      (ps1 & ps2 & l1 & a & l2 & e & -> & -> & Hl & Ha & Hk & He & <- & -> & Hrem). rewrite Hrem, <- Hk.
    eexists _, _. split; [done|]. split; [by eapply drop_entry_abs|done].
  - rewrite a_find_none by by eapply abs_missing. eauto.
Qed.

(** ** [ExpireOldFlows] *)
Definition a_dead (c : FlowTableConfig) (now : Z) (a : AEntry) : bool :=
  a_expired c now a || bool_decide (a_State a = FlowStateClosed).

(** The entries left when the dead ones whose key satisfies [P] are removed. *)
Definition a_alive (c : FlowTableConfig) (now : Z) (P : FlowKey -> bool) (l : list AEntry) : list AEntry :=
  filter (fun a => P (a_key a) && a_dead c now a = false) l.

Lemma a_alive_ext c now P Q l :
  (forall a, a ∈ l -> P (a_key a) = Q (a_key a)) -> a_alive c now P l = a_alive c now Q l.
Proof.
  unfold a_alive. induction l as [|a l IH]; intros Heq; [done|].
  rewrite !filter_cons, (Heq a) by by left. rewrite IH; [done|]. intros b Hb. apply Heq. by right.
Qed.

Lemma a_alive_alive c now P Q l :
  a_alive c now P (a_alive c now Q l) = a_alive c now (fun k => P k || Q k) l.
Proof.
  unfold a_alive. rewrite list_filter_filter. apply list_filter_iff. intros a.
  destruct (P (a_key a)), (Q (a_key a)), (a_dead c now a); cbn; naive_solver.
Qed.

Lemma a_alive_none c now l : a_alive c now (fun _ => false) l = l.
Proof. unfold a_alive. induction l as [|a l IH]; [done|]. by rewrite filter_cons_True, IH. Qed.

(** The state of the loop after the keys that satisfy [P]. *)
Record expiring (c : FlowTableConfig) (now : Z) (l : list AEntry) (P : FlowKey -> bool)
  (acc : nat * FlowTable) : Prop := {
  ex_abs : exists ps, abs acc.2 ps (a_alive c now P l);
  ex_count : (acc.1 + length (a_alive c now P l) = length l)%nat;
  ex_config : config acc.2 = c
}.

Lemma expire_one_alive c now l P acc i k p :
  expiring c now l P acc -> find_flow k acc.2 = Some p -> shardIdx k = i ->
  expiring c now l (fun k' => bool_decide (k' = k) || P k') (expire_one now i acc (k, p)) /\
  forall k', k' <> k -> find_flow k' (expire_one now i acc (k, p)).2 = find_flow k' acc.2.
Proof.
  destruct acc as [n ft]. intros [[ps Hab] Hn Hc] Hf <-. cbn [fst snd] in *.
  destruct (abs_find _ _ _ _ _ Hab Hf) as
    (ps1 & ps2 & l1 & a & l2 & e & -> & El & Hl & Ha & Hk & He & <- & _ & Hrem).
  assert (a_alive c now (fun k' => bool_decide (k' = k) || P k') l =
          if a_dead c now (data e) then l1 ++ l2 else l1 ++ data e :: l2) as Hal.
  { rewrite <- (a_alive_alive c now (fun k' => bool_decide (k' = k))), El. rewrite El in Hrem.
    pose proof (a_remove_keys k (l1 ++ data e :: l2)) as Hother. rewrite Hrem in Hother.
    apply Forall_app in Hother as [Ho1 Ho2].
    assert (forall l', Forall (fun b => a_key b <> k) l' -> a_alive c now (fun k' => bool_decide (k' = k)) l' = l') as Hid.
    { intros l' H'. rewrite <- (a_alive_none c now l') at 2. apply a_alive_ext. intros b Hb.
      apply bool_decide_eq_false. by eapply Forall_forall in H'. }
    unfold a_alive in *. rewrite filter_app, filter_cons, !Hid by done.
    rewrite bool_decide_eq_true_2 by done. cbn. by destruct (a_dead c now (data e)). }
  unfold expire_one. cbn [fst snd]. rewrite He, Hc.
  change ((GetTimeout c (FProto (e_Flow e)) <? now - e_LastSeen e) || bool_decide (e_State e = FlowStateClosed))
    with (a_dead c now (data e)).
  rewrite El in Hab, Hn. destruct (a_dead c now (data e)).
  - split.
    + split; cbn [fst snd]; rewrite ?Hal; [|rewrite length_app in *; cbn in Hn; lia|done].
      exists (ps1 ++ ps2). rewrite <- Hk. by eapply drop_entry_abs.
    + intros k' Hne. cbn [snd]. eapply find_flow_alter; [reflexivity| |done]. intros. by apply lookup_delete_ne.
  - split; [|done]. split; cbn [fst snd]; rewrite ?Hal; eauto.
Qed.

Lemma expire_shard_alive c now l i kps P acc :
  expiring c now l P acc -> NoDup kps.*1 ->
  (forall k p, (k, p) ∈ kps -> find_flow k acc.2 = Some p /\ shardIdx k = i) ->
  expiring c now l (fun k => bool_decide (k ∈ kps.*1) || P k) (foldl (expire_one now i) acc kps).
Proof.
  revert P acc. induction kps as [|[k p] kps IH]; intros P acc Hex Hnd Hin; cbn [foldl].
  - destruct Hex. split; cbn in *; try done; by erewrite a_alive_ext.
  - cbn in Hnd. apply NoDup_cons in Hnd as [Hk Hnd].
    destruct (Hin k p) as [Hf Hi]; [by left|].
    destruct (expire_one_alive _ _ _ _ _ _ _ _ Hex Hf Hi) as [Hex' Hother].
    assert (expiring c now l (fun k' => bool_decide (k' ∈ kps.*1) || (bool_decide (k' = k) || P k'))
      (foldl (expire_one now i) (expire_one now i acc (k, p)) kps)) as Hres.
    { apply IH; [done..|]. intros k' p' Hkp. destruct (Hin k' p') as [Hf' Hi']; [by right|].
      split; [|done]. rewrite Hother; [done|]. intros ->. apply Hk, list_elem_of_fmap. by exists (k, p'). }
    destruct Hres as [[ps Ha] Hn Hc].
    assert (a_alive c now (fun k' => bool_decide (k' ∈ kps.*1) || (bool_decide (k' = k) || P k')) l =
            a_alive c now (fun k' => bool_decide (k' ∈ ((k, p) :: kps).*1) || P k') l) as E.
    { apply a_alive_ext. intros a _. cbn [fmap list_fmap fst].
      rewrite (bool_decide_ext (a_key a ∈ k :: kps.*1) (a_key a = k \/ a_key a ∈ kps.*1)) by apply elem_of_cons.
      rewrite bool_decide_or. by destruct (bool_decide (a_key a = k)), (bool_decide (a_key a ∈ kps.*1)). }
    rewrite E in *. split; eauto.
Qed.

Lemma shard_entries ft ps l i m k p :
  abs ft ps l -> shards ft !! i = Some m ->
  m !! k = Some p <-> find_flow k ft = Some p /\ shardIdx k = i.
Proof.
  intros Hab Hm. split.
  - intros Hk. pose proof (ab_place _ _ _ Hab _ _ _ _ Hm Hk) as ->. unfold find_flow. by rewrite Hm.
  - intros [Hf <-]. unfold find_flow in Hf. by rewrite Hm in Hf.
Qed.

Lemma abs_find_in ft ps l a : abs ft ps l -> a ∈ l -> is_Some (find_flow (a_key a) ft).
Proof.
  intros Hab [i Hi]%list_elem_of_lookup.
  destruct (Forall2_lookup_r _ _ _ _ _ (ab_data _ _ _ Hab) Hi) as (p & Hp & Hd).
  exists p. apply (ab_index _ _ _ Hab). split; [by eapply list_elem_of_lookup_2|eauto].
Qed.

Lemma expire_shards_alive range_map c now l acc j n :
  (forall m, range_map m ≡ₚ map_to_list m) -> (j + n <= numShards)%nat ->
  expiring c now l (fun k => (shardIdx k <? j)%nat) acc ->
  expiring c now l (fun k => (shardIdx k <? j + n)%nat)
    (foldl (fun acc i => foldl (expire_one now i) acc (range_map (default ∅ (shards acc.2 !! i)))) acc (seq j n)).
Proof.
  intros Hr. revert j acc. induction n as [|n IH]; intros j acc Hj Hex; cbn [seq foldl].
  - by rewrite Nat.add_0_r.
  - replace (j + S n)%nat with (S j + n)%nat by lia. apply IH; [lia|].
    destruct Hex as [[ps Hab] Hn Hc].
    destruct (lookup_lt_is_Some_2 (shards acc.2) j) as [m Hm].
    { rewrite (ab_shards _ _ _ Hab). lia. }
    rewrite Hm. cbn [default].
    assert (forall k p, (k, p) ∈ range_map m <-> m !! k = Some p) as Hin.
    { intros k p. rewrite (Hr m). by rewrite elem_of_map_to_list. }
    destruct (expire_shard_alive c now l j (range_map m) (fun k => (shardIdx k <? j)%nat) acc) as [[ps' Ha] Hn' Hc'].
    { split; eauto. }
    { rewrite (Hr m). apply NoDup_fst_map_to_list. }
    { intros k p Hkp%Hin. by eapply shard_entries. }
    assert (forall a, a ∈ a_alive c now (fun k => (shardIdx k <? j)%nat) l ->
      (bool_decide (a_key a ∈ (range_map m).*1)) = (shardIdx (a_key a) =? j)%nat) as Hkeys.
    { intros a Hal. destruct (abs_find_in _ _ _ _ Hab Hal) as [p Hp]. apply eq_iff_eq_true.
      rewrite bool_decide_eq_true, Nat.eqb_eq, list_elem_of_fmap. split.
      - intros ([k q] & Hk & Hkq%Hin). cbn in Hk. subst k.
        by apply (shard_entries _ _ _ _ _ _ _ Hab Hm) in Hkq as [_ ?].
      - intros Hi. exists (a_key a, p). split; [done|]. apply Hin. by apply (shard_entries _ _ _ _ _ _ _ Hab Hm). }
    assert (a_alive c now (fun k => bool_decide (k ∈ (range_map m).*1) || (shardIdx k <? j)%nat) l =
            a_alive c now (fun k => (shardIdx k <? S j)%nat) l) as E.
    { rewrite <- (a_alive_alive c now (fun k => bool_decide (k ∈ (range_map m).*1)) (fun k => (shardIdx k <? j)%nat)).
      rewrite (a_alive_ext c now (fun k => bool_decide (k ∈ (range_map m).*1))
        (fun k => (shardIdx k =? j)%nat) _ Hkeys), a_alive_alive. apply a_alive_ext. intros a _.
      apply eq_iff_eq_true. rewrite orb_true_iff, Nat.eqb_eq, !Nat.ltb_lt. lia. }
    rewrite E in *. split; eauto.
Qed.

Lemma ExpireOldFlows_abs range_map ft ps l now :
  (forall m, range_map m ≡ₚ map_to_list m) -> abs ft ps l ->
  exists n ft' ps', ExpireOldFlows range_map now ft = (n, ft') /\
    abs ft' ps' (filter (fun a => a_dead (config ft) now a = false) l) /\
    config ft' = config ft /\
    (n + length (filter (fun a => a_dead (config ft) now a = false) l) = length l)%nat.
Proof.
  intros Hr Hab. unfold ExpireOldFlows.
  destruct (expire_shards_alive range_map (config ft) now l (0%nat, ft) 0 numShards Hr) as [[ps' Ha] Hn Hc].
  { done. }
  { assert (a_alive (config ft) now (fun k => (shardIdx k <? 0)%nat) l = l) as E.
    { rewrite <- (a_alive_none (config ft) now l) at 2. by apply a_alive_ext. }
    split; cbn [fst snd]; rewrite ?E; eauto. }
  assert (a_alive (config ft) now (fun k => (shardIdx k <? 0 + numShards)%nat) l =
          filter (fun a => a_dead (config ft) now a = false) l) as E.
  { unfold a_alive. apply list_filter_iff. intros a.
    rewrite (proj2 (Nat.ltb_lt _ _)) by apply shardIdx_lt. done. }
  rewrite E in *.
  destruct (foldl _ (0%nat, ft) (seq 0 numShards)) as [n ft'] eqn:EF. eauto 8.
Qed.

(** [ExpireOldFlows] removes exactly the entries that are idle beyond their
    protocol's timeout or closed, keeps the others in LRU order and returns the
    number removed, in whatever order the ranges visit the maps. *)
Theorem ExpireOldFlows_refines range_map ft ps l now :
  (forall m, range_map m ≡ₚ map_to_list m) -> abs ft ps l ->
  exists n ft' ps', ExpireOldFlows range_map now ft = (n, ft') /\
    abs ft' ps' (filter (fun a => a_dead (config ft) now a = false) l) /\
    config ft' = config ft /\
    (n + length (filter (fun a => a_dead (config ft) now a = false) l) = length l)%nat.
Proof. apply ExpireOldFlows_abs. Qed.

Lemma NewFlowTable_abs c : abs (NewFlowTable c) [] [].
Proof.
  assert (forall i (m : gmap FlowKey ptr), shards (NewFlowTable c) !! i = Some m -> m = ∅) as Hempty.
  { intros i m Hm. by apply lookup_replicate in Hm as [-> _]. }
  split.
  - by split; [..|constructor].
  - constructor.
  - intros k p. unfold find_flow. split.
    + intros Hf. destruct (shards (NewFlowTable c) !! shardIdx k) as [m|] eqn:E; [|done].
      apply Hempty in E as ->. done.
    + by intros [?%not_elem_of_nil _].
  - intros i m k p Hm Hk. apply Hempty in Hm as ->. done.
  - apply length_replicate.
  - done.
  - cbn. unfold or_default. destruct (MaxFlows c <=? 0) eqn:E; bool_to_prop; lia.
  - cbn. unfold or_default. destruct (MaxFlows c <=? 0) eqn:E; bool_to_prop; lia.
  - intros p [? Hp]. done.
Qed.

(** ** Contended eviction *)

(** A victim whose shard is busy goes back where it was. *)
Lemma put_back_abs ft ps p l a :
  abs ft (ps ++ [p]) (l ++ [a]) ->
  abs (set_evict (set_evict ft (unlinkEntry p (evict ft))) (linkEntryBack p (unlinkEntry p (evict ft))))
    (ps ++ [p]) (l ++ [a]).
Proof.
  intros [Hw HF Hi Hpl Hsh Hcnt Hmax Hpos Hfresh].
  destruct (unlinkEntry_wfl _ _ _ _ Hw) as [Hw1 Hd1]. rewrite app_nil_r in Hw1.
  pose proof (wfl_nodup _ _ Hw) as (_ & Hdis & _)%NoDup_app.
  destruct (linkEntryBack_wfl _ _ p Hw1) as [Hw2 Hd2].
  { intros Hin. apply (Hdis p Hin). by left. }
  { apply (same_data_in _ _ _ Hd1). eapply seg_in_heap; [apply Hw|]. apply elem_of_app. right. by left. }
  pose proof (same_data_trans _ _ _ Hd2 Hd1) as Hd.
  match goal with |- abs ?x _ _ => set (ft' := x) end.
  assert (forall q, dat ft' q = dat ft q) as Hdat by (intros; by apply same_data_dat).
  split; try done.
  - eapply Forall2_dat; [|exact HF]. intros. apply Hdat.
  - intros k q. rewrite Hdat. apply Hi.
  - intros q Hq. apply Hfresh. by eapply same_data_in.
Qed.

(** The pop of the last entry, whatever then happens to it. *)
Lemma pop_last ft ps p l a :
  abs ft (ps ++ [p]) (l ++ [a]) ->
  popOldestEntry (evict ft) = (Some p, unlinkEntry p (evict ft)) /\
  exists e, heap (unlinkEntry p (evict ft)) !! p = Some e /\ data e = a.
Proof.
  intros Hab. pose proof (ab_list _ _ _ Hab) as Hw. unfold popOldestEntry.
  rewrite (wfl_tail _ _ Hw), last_or_snoc. split; [done|].
  destruct (unlinkEntry_wfl _ _ _ _ Hw) as [_ Hsd].
  pose proof (Forall2_length _ _ _ (ab_data _ _ _ Hab)) as Hlen. rewrite !length_app in Hlen. cbn in Hlen.
  pose proof (ab_data _ _ _ Hab) as HF. apply Forall2_app_inv in HF as [_ H2]; [|lia].
  inversion H2 as [|? ? ? ? Ha]; subst. unfold dat in Ha. rewrite <- (same_data_dat _ _ p Hsd) in Ha.
  destruct (heap (unlinkEntry p (evict ft)) !! p) as [e|]; [|done]. injection Ha as <-. eauto.
Qed.

Lemma evict_attempts_busy n caller ft ps p l a :
  abs ft (ps ++ [p]) (l ++ [a]) -> busy (shardIdx (a_key a)) = true -> shardIdx (a_key a) <> caller ->
  abs (evict_attempts n caller ft) (ps ++ [p]) (l ++ [a]) .
Proof.
  intros Hab Hb Hc. revert ft Hab. induction n as [|n IH]; intros ft Hab; [done|]. cbn [evict_attempts].
  destruct (pop_last _ _ _ _ _ Hab) as [-> (e & He & <-)]. rewrite He.
  change (key_of (e_Flow e)) with (a_key (data e)).
  rewrite (proj2 (Nat.eqb_neq _ _)), Hb by done. cbn [negb]. apply IH, put_back_abs, Hab.
Qed.

(** an insertion into a full table spins as long as another goroutine
    holds the shard of the least recently used entry: each of the eight
    attempts of [evictOneLocked] takes the same victim and puts it back, and the
    caller's loop does not give up, whatever the number of rounds. *)
Theorem eviction_spins ft ps p l a caller fuel :
  abs ft (ps ++ [p]) (l ++ [a]) -> MaxFlows (config ft) = flowCount ft ->
  busy (shardIdx (a_key a)) = true -> shardIdx (a_key a) <> caller ->
  evict_loop fuel caller ft = None.
Proof.
  intros Hab Hfull Hb Hc. revert ft Hab Hfull. induction fuel as [|fuel IH]; intros ft Hab Hfull;
    cbn [evict_loop]; rewrite (proj2 (Z.leb_le _ _)) by lia; [done|].
  pose proof (evict_attempts_busy maxAttempts caller ft ps p l a Hab Hb Hc) as Hab'.
  apply IH; [done|]. unfold evictOneLocked. rewrite evict_attempts_config.
  rewrite (ab_count _ _ _ Hab') , Hfull, (ab_count _ _ _ Hab). done.
Qed.

(** Whatever shards are busy, eviction keeps a prefix of the table. *)
Lemma evict_attempts_inv n caller ft ps l :
  abs ft ps l -> exists ps' l', abs (evict_attempts n caller ft) ps' l' /\ l' `prefix_of` l.
Proof.
  intros Hab. destruct n as [|n]; [by eauto|].
  destruct ps as [|p ps _] using rev_ind.
  - cbn [evict_attempts]. unfold popOldestEntry. rewrite (wfl_tail _ _ (ab_list _ _ _ Hab)). eauto.
  - pose proof (Forall2_length _ _ _ (ab_data _ _ _ Hab)) as Hlen.
    destruct l as [|a l _] using rev_ind; [rewrite length_app in Hlen; cbn [length] in Hlen; lia|].
    destruct (decide (busy (shardIdx (a_key a)) = true /\ shardIdx (a_key a) <> caller)) as [[Hb Hc]|Hfree].
    + exists (ps ++ [p]), (l ++ [a]). split; [|done]. by apply evict_attempts_busy.
    + exists ps, l. split; [|by exists [a]].
      pose proof (evictOneLocked_abs ft ps p l a caller Hab) as H.
      revert H. unfold evictOneLocked, maxAttempts. cbn [evict_attempts].
      destruct (pop_last _ _ _ _ _ Hab) as [-> (e & He & <-)]. rewrite He.
      change (key_of (e_Flow e)) with (a_key (data e)). intros H.
      destruct (Nat.eqb_spec (shardIdx (a_key (data e))) caller); [auto|].
      destruct (busy (shardIdx (a_key (data e)))); cbn [negb] in *; [exfalso; auto|auto].
Qed.

Lemma evict_loop_inv fuel caller ft ps l ft' :
  abs ft ps l -> evict_loop fuel caller ft = Some ft' ->
  exists ps' l', abs ft' ps' l' /\ l' `prefix_of` l /\ config ft' = config ft /\
    Z.of_nat (length ps') < MaxFlows (config ft').
Proof.
  revert ft ps l. induction fuel as [|fuel IH]; intros ft ps l Hab; cbn [evict_loop];
    destruct (MaxFlows (config ft) <=? flowCount ft) eqn:E; bool_to_prop; try done.
  - intros [= <-]. rewrite (ab_count _ _ _ Hab) in E. eauto 8.
  - destruct (evict_attempts_inv maxAttempts caller ft ps l Hab) as (ps' & l' & Hab' & Hpre).
    intros H. destruct (IH _ _ _ Hab' H) as (ps2 & l2 & ? & ? & Hc & ?).
    unfold evictOneLocked in Hc. rewrite evict_attempts_config in Hc.
    exists ps2, l2. split_and!; try done. by etrans.
  - intros [= <-]. rewrite (ab_count _ _ _ Hab) in E. eauto 8.
Qed.

Lemma lookup_missing_inv fuel ft ps l f create st now rp r c ft' :
  abs ft ps l -> Forall (fun b => a_key b <> key_of f) l ->
  lookup_missing fuel (key_of f) (NormalizeFlowKey f).2 f create st now ft = Some (rp, r, c, ft') ->
  exists ps' l', abs ft' ps' l' /\ config ft' = config ft.
Proof.
  intros Hab Hk. unfold lookup_missing. destruct create; cbn [negb]; [|intros [= _ _ _ <-]; eauto].
  destruct (evict_loop fuel _ ft) as [ft1|] eqn:E; [|done]. rewrite bind_Some_eq.
  destruct (evict_loop_inv _ _ _ _ _ _ Hab E) as (ps1 & l1 & Hab1 & [l2 ->] & Hc & Hlt).
  apply Forall_app in Hk as [Hk _].
  destruct (insert_new_abs ft1 ps1 l1 f now st (NormalizeFlowKey f).2 Hab1 Hk Hlt) as [Hab2 _].
  intros [= _ _ _ <-]. eexists _, _. split; [exact Hab2|done].
Qed.

Lemma Lookup_inv fuel ft ps l f create st now rp r c ft' :
  abs ft ps l -> Lookup fuel f create st now ft = Some (rp, r, c, ft') ->
  exists ps' l', abs ft' ps' l' /\ config ft' = config ft.
Proof.
  intros Hab. unfold Lookup. rewrite (surjective_pairing (NormalizeFlowKey f)). fold (key_of f).
  destruct (find_flow (key_of f) ft) as [p|] eqn:Hf.
  - destruct (abs_find _ _ _ _ _ Hab Hf) as
      (ps1 & ps2 & l1 & a & l2 & e & -> & -> & Hl & Ha & Hk & He & <- & _ & Hrem).
    rewrite He, bind_Some_eq. destruct (isEntryExpired _ _ _).
    + pose proof (drop_entry_abs _ _ _ _ _ _ _ Hab Hl Ha) as Hab'. rewrite Hk in Hab'.
      apply (lookup_missing_inv _ _ _ _ _ _ _ _ _ _ _ _ Hab'). rewrite <- Hrem. apply a_remove_keys.
    + intros [= _ _ _ <-]. eexists _, _. split; [by eapply refresh_abs|done].
  - apply (lookup_missing_inv _ _ _ _ _ _ _ _ _ _ _ _ Hab). by eapply abs_missing.
Qed.

(** What [refresh] does to the heap, whatever the state of the list. *)
Lemma refresh_dat ft p q now st :
  dat (refresh p now st ft) q = (if decide (q = p) then a_touch now st <$> dat ft p else dat ft q).
Proof.
  unfold dat, refresh. cbn [evict set_evict]. rewrite (same_data_dat _ _ q (moveToFrontLocked_data p _)).
  cbn [heap upd_heap]. case_decide as Hq.
  - subst q. rewrite lookup_alter_eq. by destruct (heap (evict ft) !! p).
  - by rewrite lookup_alter_ne.
Qed.

(** A lookup that may not create: it finds a live entry and refreshes it. *)
Lemma Lookup_hit fuel f st now ft q r c ft' :
  Lookup fuel f false st now ft = Some (Some q, r, c, ft') ->
  c = false /\ find_flow (key_of f) ft = Some q /\
  exists e, heap (evict ft) !! q = Some e /\ isEntryExpired (config ft) e now = false /\
    let st' := if decide (e_State e = FlowStateNew /\ st = FlowStateEstablished)
               then FlowStateEstablished else e_State e in
    ft' = refresh q now st' ft /\ dat ft' q = Some (a_touch now st' (data e)).
Proof.
  unfold Lookup, lookup_missing. rewrite (surjective_pairing (NormalizeFlowKey f)). fold (key_of f).
  destruct (find_flow (key_of f) ft) as [p|]; [|done].
  destruct (heap (evict ft) !! p) as [e|] eqn:He; [|done]. rewrite bind_Some_eq.
  destruct (isEntryExpired _ _ _) eqn:Hexp; [done|].
  intros [= <- _ <- <-]. split_and!; [done..|]. exists e. split_and!; [done..|].
  rewrite refresh_dat, decide_True by done. unfold dat. by rewrite He.
Qed.

(** ** What the operations do to the data of the entries *)
Lemma drop_entry_dat i k p ft q : dat (drop_entry i k p ft) q = dat ft q.
Proof. unfold dat. cbn. apply (same_data_dat _ _ q (unlinkEntry_data p _)). Qed.

Lemma delete_victim_dat k ft q : dat (delete_victim k ft) q = dat ft q.
Proof. unfold delete_victim. by destruct (find_flow k ft). Qed.

Lemma evict_attempts_dat n caller ft q : dat (evict_attempts n caller ft) q = dat ft q.
Proof.
  revert ft. induction n as [|n IH]; intros ft; [done|]. cbn [evict_attempts].
  unfold popOldestEntry. destruct (tail (evict ft)) as [e|]; [|done].
  assert (forall s, same_data (heap s) (heap (evict ft)) -> dat (set_evict ft s) q = dat ft q) as Hset.
  { intros s' Hs. apply (same_data_dat _ _ q Hs). }
  destruct (heap (unlinkEntry e (evict ft)) !! e); [|apply Hset, unlinkEntry_data].
  repeat case_match; rewrite ?delete_victim_dat, ?IH; apply Hset; try apply unlinkEntry_data.
  eapply same_data_trans; [apply linkEntryBack_data|apply unlinkEntry_data].
Qed.

Lemma evict_loop_dat fuel caller ft ft' q : evict_loop fuel caller ft = Some ft' -> dat ft' q = dat ft q.
Proof.
  revert ft. induction fuel as [|fuel IH]; intros ft; cbn [evict_loop]; case_match; try done;
    [by intros [= <-]| |by intros [= <-]].
  intros ->%IH. apply evict_attempts_dat.
Qed.

Lemma insert_new_dat k f now st r ft q :
  dat (insert_new k f now st r ft).2 q =
  if decide (q = fresh ft)
  then Some {| a_Flow := f; a_Created := now; a_LastSeen := now; a_State := st; a_IsReplyDir := r |}
  else dat ft q.
Proof.
  unfold dat. cbn [insert_new snd evict]. rewrite (same_data_dat _ _ q (linkEntryFront_data _ _)).
  cbn [heap upd_heap]. case_decide as Hq.
  - subst q. by rewrite lookup_insert_eq.
  - by rewrite lookup_insert_ne.
Qed.

(** Which keys may be established: [P] holds for every established entry. *)
Definition established_in (P : FlowKey -> Prop) (ft : FlowTable) : Prop :=
  (exists ps l, abs ft ps l) /\
  forall q a, dat ft q = Some a -> a_State a = FlowStateEstablished -> P (a_key a).

Lemma established_index P ft k q :
  established_in P ft -> find_flow k ft = Some q -> exists a, dat ft q = Some a /\ a_key a = k.
Proof. intros [(ps & l & Hab) _] Hf. by apply (ab_index _ _ _ Hab) in Hf as [_ ?]. Qed.

Lemma lookup_missing_established P fuel k r f create st now ft rp r' c ft' :
  (st = FlowStateEstablished -> P (key_of f)) ->
  (forall q a, dat ft q = Some a -> a_State a = FlowStateEstablished -> P (a_key a)) ->
  lookup_missing fuel k r f create st now ft = Some (rp, r', c, ft') ->
  forall q a, dat ft' q = Some a -> a_State a = FlowStateEstablished -> P (a_key a).
Proof.
  intros Hst Hft. unfold lookup_missing. destruct create; cbn [negb]; [|by intros [= _ _ _ <-]].
  destruct (evict_loop _ _ ft) as [ft1|] eqn:E; [|done]. rewrite bind_Some_eq.
  pose proof (insert_new_dat k f now st r ft1) as Hins.
  destruct (insert_new k f now st r ft1) as [p ft2]. intros [= _ _ _ <-] q a. cbn [snd] in Hins.
  rewrite Hins, (evict_loop_dat _ _ _ _ _ E). case_decide; [|apply Hft].
  intros [= <-] Ha. by apply Hst.
Qed.

Lemma Lookup_established P fuel f create st now ft rp r c ft' :
  established_in P ft -> (st = FlowStateEstablished -> P (key_of f)) ->
  Lookup fuel f create st now ft = Some (rp, r, c, ft') -> established_in P ft'.
Proof.
  intros Hinv Hst HL. split.
  { destruct Hinv as [(ps & l & Hab) _]. destruct (Lookup_inv _ _ _ _ _ _ _ _ _ _ _ _ Hab HL) as (? & ? & ? & _). eauto. }
  revert HL. unfold Lookup. rewrite (surjective_pairing (NormalizeFlowKey f)). fold (key_of f).
  destruct (find_flow (key_of f) ft) as [p|] eqn:Hf; [|by apply lookup_missing_established, Hinv].
  destruct (heap (evict ft) !! p) as [e|] eqn:He; [|done]. rewrite bind_Some_eq.
  destruct (isEntryExpired _ _ _).
  - apply lookup_missing_established; [done|]. intros q a. rewrite drop_entry_dat. apply Hinv.
  - intros [= _ _ _ <-] q a. rewrite refresh_dat. case_decide as Hq; [|apply Hinv].
    destruct (established_index _ _ _ _ Hinv Hf) as (a0 & Ha0 & Hk). rewrite Ha0. intros [= <-].
    cbn [a_State a_touch]. change (a_key (a_touch now _ a0)) with (a_key a0).
    unfold dat in Ha0. rewrite He in Ha0. injection Ha0 as <-.
    case_decide as Hd; [|intros Hs; eapply Hinv; [|exact Hs]; unfold dat; by rewrite He].
    intros _. rewrite Hk. by apply Hst, Hd.
Qed.

Lemma UpdateState_established P f st now ft :
  established_in P ft -> st <> FlowStateEstablished -> established_in P (UpdateState f st now ft).2.
Proof.
  intros Hinv Hst. split.
  { destruct Hinv as [(ps & l & Hab) _]. pose proof (UpdateState_abs ft ps l f st now Hab) as H.
    destruct (spec_UpdateState (config ft) f st now l) as [ok l']. destruct H as (ft' & ps' & -> & ? & ?). eauto. }
  unfold UpdateState. destruct (find_flow (key_of f) ft) as [p|]; [|apply Hinv].
  destruct (heap (evict ft) !! p) as [e|]; [|apply Hinv].
  destruct (isEntryExpired _ _ _); cbn [snd]; intros q a.
  - rewrite drop_entry_dat. apply Hinv.
  - rewrite refresh_dat. case_decide; [|apply Hinv]. destruct (dat ft p); [|done]. by intros [= <-].
Qed.

Lemma expire_dat range_map now ft q : dat (ExpireOldFlows range_map now ft).2 q = dat ft q.
Proof.
  unfold ExpireOldFlows. assert (forall i kps acc, dat (foldl (expire_one now i) acc kps).2 q = dat acc.2 q) as Hin.
  { intros i kps. induction kps as [|kp kps IH]; intros acc; [done|]. cbn [foldl]. rewrite IH.
    unfold expire_one. destruct acc as [n ft1]. destruct (heap (evict ft1) !! kp.2); [|done].
    destruct (_ || _); [|done]. apply drop_entry_dat. }
  assert (forall idxs acc, dat (foldl (fun acc i => foldl (expire_one now i) acc
    (range_map (default ∅ (shards acc.2 !! i)))) acc idxs).2 q = dat acc.2 q) as Hout.
  { intros idxs. induction idxs as [|i idxs IH]; intros acc; [done|]. cbn [foldl]. by rewrite IH, Hin. }
  apply Hout.
Qed.

Lemma expire_established P range_map now ft :
  (forall m, range_map m ≡ₚ map_to_list m) -> established_in P ft ->
  established_in P (ExpireOldFlows range_map now ft).2.
Proof.
  intros Hr [(ps & l & Hab) Hest]. split.
  - destruct (ExpireOldFlows_abs range_map ft ps l now Hr Hab) as (n & ft' & ps' & -> & ? & _). eauto.
  - intros q a. rewrite expire_dat. apply Hest.
Qed.

(** Rewriting the time of an entry in place. *)
Lemma rewrite_abs ft ps l p g :
  abs ft ps l ->
  (forall e, e_Flow (g e) = e_Flow e /\ e_prev (g e) = e_prev e /\ e_next (g e) = e_next e) ->
  exists l', abs (set_evict ft (upd_heap (alter g p) (evict ft))) ps l'.
Proof.
  intros [Hw HF Hi Hpl Hsh Hcnt Hmax Hpos Hfresh] Hg.
  set (ft' := set_evict ft (upd_heap (alter g p) (evict ft))).
  assert (forall q a, dat ft q = Some a -> exists a', dat ft' q = Some a' /\ a_key a' = a_key a) as Hdat.
  { intros q a. unfold dat. cbn [evict set_evict heap upd_heap ft']. destruct (decide (p = q)) as [->|Hne].
    - rewrite lookup_alter_eq. destruct (heap (evict ft) !! q) as [e|]; [|done]. cbn. intros [= <-].
      eexists. split; [done|]. unfold a_key. cbn. by destruct (Hg e) as [-> _].
    - rewrite lookup_alter_ne by done. eauto. }
  assert (forall q a', dat ft' q = Some a' -> exists a, dat ft q = Some a /\ a_key a = a_key a') as Hdat'.
  { intros q a' Ha'. destruct (dat ft q) as [a|] eqn:E.
    - destruct (Hdat _ _ E) as (a2 & Ha2 & Hk). exists a. split; [done|]. congruence.
    - exfalso. unfold dat in E, Ha'. cbn [evict set_evict heap upd_heap ft'] in Ha'.
      destruct (heap (evict ft) !! q) eqn:E2; [done|].
      destruct (decide (p = q)) as [->|]; [rewrite lookup_alter_eq, E2 in Ha'|rewrite lookup_alter_ne, E2 in Ha' by done]; done. }
  exists (omap (dat ft') ps). split; try done.
  - destruct Hw as [Hseg ???]. split; try done. apply seg_links; [|done]. intros e. destruct (Hg e) as (_ & ? & ?). done.
  - clear - HF Hdat. induction HF as [|q a qs l Hq _ IH]; cbn; [constructor|].
    destruct (Hdat _ _ Hq) as (a1 & E & _). rewrite E. by constructor.
  - intros k q. change (find_flow k ft') with (find_flow k ft). rewrite Hi. split; intros (Hq & a & Ha & Hk); (split; [done|]).
    + destruct (Hdat _ _ Ha) as (a' & ? & ?). exists a'. split; [done|congruence].
    + destruct (Hdat' _ _ Ha) as (a' & ? & ?). exists a'. split; [done|congruence].
  - intros q Hq. apply Hfresh. cbn in Hq. by rewrite lookup_alter_is_Some in Hq.
Qed.

End Table.

(** ** Normalized keys *)

(** The other direction of a flow. *)
Definition swap_flow (f : Flow) : Flow :=
  {| SrcIP := DstIP f; DstIP := SrcIP f; SrcPort := DstPort f; DstPort := SrcPort f;
     FProto := FProto f; IPv6 := IPv6 f |}.

(** Addresses as the parser stores them: 16 bytes, the first twelve zero for
    IPv4. *)
Definition flow_canon (f : Flow) : Prop :=
  length (SrcIP f) = 16%nat /\ length (DstIP f) = 16%nat /\
  (IPv6 f = false -> take 12 (SrcIP f) = zeros 12 /\ take 12 (DstIP f) = zeros 12).

Lemma compare_bytes_opp a b : compare_bytes b a = - compare_bytes a b.
Proof.
  revert b. induction a as [|x a IH]; intros [|y b]; cbn; try done.
  destruct (Z.ltb_spec x y), (Z.ltb_spec y x); try lia. apply IH.
Qed.

Lemma compare_bytes_eq a b : length a = length b -> compare_bytes a b = 0 -> a = b.
Proof.
  revert b. induction a as [|x a IH]; intros [|y b] Hl; cbn; try done.
  destruct (Z.ltb_spec x y), (Z.ltb_spec y x); try done. cbn in Hl. intros Hc.
  assert (x = y) as -> by lia. f_equal. apply IH; [lia|done].
Qed.

Lemma compareIPs_opp a b v6 : compareIPs b a v6 = - compareIPs a b v6.
Proof. unfold compareIPs. destruct v6; apply compare_bytes_opp. Qed.

Lemma compareIPs_eq f :
  flow_canon f -> compareIPs (SrcIP f) (DstIP f) (IPv6 f) = 0 -> SrcIP f = DstIP f.
Proof.
  intros (Hs & Hd & Hz). unfold compareIPs. destruct (IPv6 f); intros Hc.
  - apply compare_bytes_eq; [congruence|done].
  - destruct (Hz eq_refl) as [H1 H2]. rewrite <- (take_drop 12 (SrcIP f)), <- (take_drop 12 (DstIP f)), H1, H2.
    f_equal. apply compare_bytes_eq; [rewrite !length_drop; congruence|done].
Qed.

(** Whether a flow is in its canonical direction. *)
Definition forward (f : Flow) : bool :=
  let cmp := compareIPs (SrcIP f) (DstIP f) (IPv6 f) in
  (cmp <? 0) || ((cmp =? 0) && (SrcPort f <=? DstPort f)).

Definition key_as_is (f : Flow) : FlowKey :=
  {| k_SrcIP := SrcIP f; k_DstIP := DstIP f; k_SrcPort := SrcPort f; k_DstPort := DstPort f;
     k_Proto := FProto f; k_IPv6 := IPv6 f |}.

Lemma key_of_forward f : key_of f = key_as_is (if forward f then f else swap_flow f).
Proof.
  unfold key_of, NormalizeFlowKey. fold (forward f). cbv zeta. fold (forward f).
  by destruct (forward f).
Qed.

Lemma key_as_is_inj f g : key_as_is f = key_as_is g -> f = g.
Proof. destruct f, g. unfold key_as_is. cbn. by intros [= -> -> -> -> -> ->]. Qed.

Lemma swap_swap f : swap_flow (swap_flow f) = f.
Proof. by destruct f. Qed.

(** Both directions are canonical only for a flow equal to its reverse. *)
Lemma forward_swap f :
  flow_canon f -> forward (swap_flow f) = negb (forward f) \/ swap_flow f = f.
Proof.
  intros Hc. unfold forward. cbn [swap_flow SrcIP DstIP SrcPort DstPort IPv6].
  rewrite (compareIPs_opp (SrcIP f)).
  destruct (Z.eq_dec (compareIPs (SrcIP f) (DstIP f) (IPv6 f)) 0) as [E|E].
  - rewrite E. cbn. pose proof (compareIPs_eq f Hc E) as Heq.
    destruct (Z.leb_spec (DstPort f) (SrcPort f)), (Z.leb_spec (SrcPort f) (DstPort f)); try lia;
      [right|by left..]. destruct f; unfold swap_flow; cbn in *. subst. f_equal; lia.
  - left. set (c := compareIPs _ _ _) in *. clearbody c.
    destruct (Z.ltb_spec (- c) 0), (Z.ltb_spec c 0); try lia; cbn;
      rewrite ?(proj2 (Z.eqb_neq c 0)), ?(proj2 (Z.eqb_neq (- c) 0)) by lia; done.
Qed.

Lemma key_of_swap f : flow_canon f -> key_of (swap_flow f) = key_of f.
Proof.
  intros Hc. rewrite !key_of_forward. destruct (forward_swap f Hc) as [->|H].
  - rewrite swap_swap. by destruct (forward f).
  - by rewrite !H.
Qed.

(** two flows share an entry exactly when they are the same flow or the two
    directions of one connection; and the two directions of a connection
    between distinct endpoints are told apart by the reply flag. *)
Theorem NormalizeFlowKey_bidirectional f g :
  flow_canon f -> flow_canon g ->
  (key_of f = key_of g <-> g = f \/ g = swap_flow f) /\
  (swap_flow f <> f -> (NormalizeFlowKey (swap_flow f)).2 = negb (NormalizeFlowKey f).2).
Proof.
  intros Hf Hg. split.
  - split.
    + rewrite !key_of_forward. intros H%key_as_is_inj.
      destruct (forward f), (forward g); subst; rewrite ?swap_swap in *; auto.
      left. by rewrite <- (swap_swap g), <- H, swap_swap.
    + intros [->| ->]; [done|]. by rewrite key_of_swap.
  - intros Hne. assert (forall h, (NormalizeFlowKey h).2 = negb (forward h)) as Hr.
    { intros h. unfold NormalizeFlowKey. cbv zeta. fold (forward h). by destruct (forward h). }
    rewrite !Hr. destruct (forward_swap f Hf) as [->|]; done.
Qed.

(** ** Every reachable table *)

(** One completed operation on the table, under any contention. *)
Inductive table_step (maphash : list Z -> Z) : FlowTable -> FlowTable -> Prop :=
| TS_Lookup busy ft fuel f create st now rp r c ft' :
    Lookup maphash busy fuel f create st now ft = Some (rp, r, c, ft') -> table_step maphash ft ft'
| TS_UpdateState ft f st now : table_step maphash ft (UpdateState maphash f st now ft).2
| TS_RemoveFlow ft k : table_step maphash ft (RemoveFlow maphash k ft).2
| TS_Expire range_map ft now :
    (forall m, range_map m ≡ₚ map_to_list m) ->
    table_step maphash ft (ExpireOldFlows range_map now ft).2.

Lemma table_step_abs maphash ft ft' ps l :
  abs maphash ft ps l -> table_step maphash ft ft' ->
  exists ps' l', abs maphash ft' ps' l' /\ config ft' = config ft.
Proof.
  intros Hab. destruct 1 as [busy ft fuel f create st now rp r c ft' H|ft f st now|ft k|range_map ft now Hr].
  - by eapply Lookup_inv.
  - pose proof (UpdateState_abs maphash ft ps l f st now Hab) as H.
    destruct (spec_UpdateState (config ft) f st now l) as [ok l']. destruct H as (ft' & ps' & -> & ? & ?). eauto.
  - pose proof (RemoveFlow_abs maphash ft ps l k Hab) as H.
    destruct (spec_RemoveFlow k l) as [ok l']. destruct H as (ft' & ps' & -> & ? & ?). eauto.
  - destruct (ExpireOldFlows_abs maphash range_map ft ps l now Hr Hab) as (n & ft' & ps' & -> & ? & ? & _). eauto.
Qed.

(** After any sequence of operations that run one after another on a new table,
    whatever shards look contended to their evictions, the eviction list, the
    shards and the counter agree: the list holds each stored entry exactly once,
    each key is in its own shard, the counter is the number of entries and it
    does not exceed the configured maximum.  What holds when operations
    interleave is the subject of [FlowConc]. *)
Theorem table_invariant maphash c ft :
  rtc (table_step maphash) (NewFlowTable c) ft ->
  (exists ps l, abs maphash ft ps l) /\ config ft = config (NewFlowTable c) /\
  0 <= Len ft <= MaxFlows (config ft).
Proof.
  intros Hr. assert ((exists ps l, abs maphash ft ps l) /\ config ft = config (NewFlowTable c)) as [(ps & l & Hab) Hc].
  { revert Hr. apply (rtc_ind_r (fun ft => (exists ps l, abs maphash ft ps l) /\ config ft = config (NewFlowTable c))).
    - split; [|done]. exists [], []. apply NewFlowTable_abs.
    - intros x y _ Hs [(ps & l & Hab) Hc].
      destruct (table_step_abs maphash x y ps l Hab Hs) as (ps' & l' & Hab' & Hc'). split; [eauto|congruence]. }
  split_and!; [by exists ps, l|done|..]; unfold Len; rewrite (ab_count _ _ _ _ Hab); [lia|].
  apply (ab_max _ _ _ _ Hab).
Qed.

(** ** Witnesses and the eviction race *)
Definition demo_hash (l : list Z) : Z := default 0 (l !! 15%nat).
Definition demo_flow (a b : Z) : Flow :=
  {| SrcIP := zeros 12 ++ [10; 0; 0; a]; DstIP := zeros 12 ++ [10; 0; 0; b]; SrcPort := 1000;
     DstPort := 80; FProto := 6; IPv6 := false |}.
Definition demo_config : FlowTableConfig :=
  {| MaxFlows := 2; TCPIdleTimeout := 0; UDPIdleTimeout := 0; ICMPIdleTimeout := 0 |}.
Definition no_busy (i : nat) : bool := false.
Definition or_table (r : option (option ptr * bool * bool * FlowTable)) : FlowTable :=
  match r with Some (_, _, _, ft) => ft | None => NewFlowTable demo_config end.

(** Two flows, of shards 1 and 2, in a table for two. *)
Definition demo_table1 : FlowTable :=
  or_table (Lookup demo_hash no_busy 2 (demo_flow 1 9) true FlowStateNew 1 (NewFlowTable demo_config)).
Definition demo_table2 : FlowTable :=
  or_table (Lookup demo_hash no_busy 2 (demo_flow 2 9) true FlowStateNew 2 demo_table1).

(** Whether a lookup returned; evaluating it avoids comparing whole tables. *)
Definition returned (r : option (option ptr * bool * bool * FlowTable)) : bool :=
  match r with Some _ => true | None => false end.

Lemma lookup_reach maphash busy ft fuel f create st now :
  returned (Lookup maphash busy fuel f create st now ft) = true ->
  table_step maphash ft (or_table (Lookup maphash busy fuel f create st now ft)).
Proof.
  destruct (Lookup maphash busy fuel f create st now ft) as [[[[rp r] c] ft']|] eqn:E; [|done].
  intros _. by eapply TS_Lookup.
Qed.

Lemma demo_reach1 : table_step demo_hash (NewFlowTable demo_config) demo_table1.
Proof. apply lookup_reach. vm_compute. reflexivity. Qed.
Lemma demo_reach2 : table_step demo_hash demo_table1 demo_table2.
Proof. apply lookup_reach. vm_compute. reflexivity. Qed.

Lemma table_invariant_witness :
  (exists ps l, abs demo_hash demo_table2 ps l) /\ 0 <= Len demo_table2 <= 2.
Proof.
  destruct (table_invariant demo_hash demo_config demo_table2) as (H & _ & H2).
  - eapply rtc_l; [apply demo_reach1|]. apply rtc_once. apply demo_reach2.
  - split; [exact H|exact H2].
Defined.

Lemma Lookup_refines_witness :
  exists rp ft' ps',
    Lookup demo_hash no_busy 1 (demo_flow 1 9) true FlowStateNew 1 (NewFlowTable demo_config) =
      Some (rp, false, true, ft') /\
    abs demo_hash ft' ps' [data {| e_Flow := demo_flow 1 9; e_Created := 1; e_LastSeen := 1;
      e_State := FlowStateNew; e_IsReplyDir := false; e_next := None; e_prev := None |}] /\
    config ft' = config (NewFlowTable demo_config) /\
    (rp ≫= dat ft') = Some (data {| e_Flow := demo_flow 1 9; e_Created := 1; e_LastSeen := 1;
      e_State := FlowStateNew; e_IsReplyDir := false; e_next := None; e_prev := None |}).
Proof.
  exact (Lookup_refines demo_hash no_busy 1 (NewFlowTable demo_config) [] [] (demo_flow 1 9) true
           FlowStateNew 1 (NewFlowTable_abs demo_hash demo_config) (fun _ => eq_refl) (le_n 1)).
Defined.

(** The abstract content of the demo tables. *)
Definition demo_entry (a : Z) : AEntry :=
  {| a_Flow := demo_flow a 9; a_Created := a; a_LastSeen := a; a_State := FlowStateNew; a_IsReplyDir := false |}.

Lemma demo_abs1 : exists ps, abs demo_hash demo_table1 ps [demo_entry 1] /\
  config demo_table1 = config (NewFlowTable demo_config).
Proof.
  destruct (Lookup_abs demo_hash no_busy 2 (NewFlowTable demo_config) [] [] (demo_flow 1 9) true
    FlowStateNew 1 (NewFlowTable_abs demo_hash demo_config)) as (rp & ft' & ps' & E & Hab & Hc & _); [done|lia|].
  exists ps'. unfold demo_table1. rewrite E. done.
Qed.

Lemma demo_abs2 : exists ps, abs demo_hash demo_table2 ps [demo_entry 2; demo_entry 1] /\
  config demo_table2 = config (NewFlowTable demo_config).
Proof.
  destruct demo_abs1 as (ps & Hab1 & Hc1).
  pose proof (Lookup_abs demo_hash no_busy 2 demo_table1 ps _ (demo_flow 2 9) true
    FlowStateNew 2 Hab1 ltac:(done) ltac:(lia)) as H.
  unfold spec_Lookup, spec_create in H. rewrite a_find_none in H by (repeat constructor; vm_compute; done).
  rewrite Hc1 in H. destruct H as (rp & ft' & ps' & E & Hab & Hc & _).
  exists ps'. unfold demo_table2. rewrite E. split; [exact Hab|]. exact Hc.
Qed.

Lemma eviction_spins_witness :
  evict_loop demo_hash (fun i => i =? 1)%nat 1000 3 demo_table2 = None.
Proof.
  generalize 1000%nat as fuel. intros fuel. destruct demo_abs2 as (ps & Hab & Hc).
  pose proof (Forall2_length _ _ _ (ab_data _ _ _ _ Hab)) as Hl.
  destruct ps as [|q [|p [|]]]; try discriminate Hl.
  refine (eviction_spins demo_hash (fun i => i =? 1)%nat demo_table2 [q] p [demo_entry 2] (demo_entry 1) 3 fuel
            Hab _ _ _).
  - rewrite (ab_count _ _ _ _ Hab), Hc. reflexivity.
  - vm_compute. reflexivity.
  - vm_compute. discriminate.
Defined.

Lemma ExpireOldFlows_refines_witness :
  exists n ft' ps', ExpireOldFlows map_to_list (301 * second) demo_table2 = (n, ft') /\
    abs demo_hash ft' ps' [] /\ n = 2%nat.
Proof.
  destruct demo_abs2 as (ps & Hab & Hc).
  destruct (ExpireOldFlows_refines demo_hash map_to_list demo_table2 ps _ (301 * second)
    (fun m => Permutation_refl _) Hab) as (n & ft' & ps' & E & Ha & _ & Hn).
  rewrite Hc in Ha, Hn. exists n, ft', ps'. split; [exact E|]. split; [exact Ha|].
  match type of Hn with (n + length ?x)%nat = _ => change x with (@nil AEntry) in Hn end. cbn in Hn. lia.
Defined.

Lemma NormalizeFlowKey_bidirectional_witness :
  key_of (demo_flow 9 1) = key_of (swap_flow (demo_flow 9 1)).
Proof.
  refine (proj2 (proj1 (NormalizeFlowKey_bidirectional (demo_flow 9 1) (swap_flow (demo_flow 9 1)) _ _)) _);
    [repeat split..|by right].
Defined.

(** The pointers reached from the head by following [next]. *)
Fixpoint follow (n : nat) (h : gmap ptr FlowEntry) (p : option ptr) : list ptr :=
  match n, p with
  | S n, Some p => p :: follow n h (next_of h p)
  | _, _ => []
  end.

Lemma follow_seg n h prv ps :
  seg h prv ps None -> (length ps < n)%nat -> follow n h (first_or ps None) = ps.
Proof.
  revert prv ps. induction n as [|n IH]; intros prv [|p ps]; cbn [seg length]; try done; [lia|].
  intros [(e & He & _ & Hn) Hs] Hl. cbn [first_or follow]. unfold next_of. rewrite He. cbn.
  rewrite Hn. f_equal. eapply IH; [done|lia].
Qed.

(** In a consistent table every stored entry is on the list. *)
Lemma abs_follow maphash ft ps l k p n :
  abs maphash ft ps l -> find_flow maphash k ft = Some p -> (Z.to_nat (flowCount ft) < n)%nat ->
  p ∈ follow n (heap (evict ft)) (head (evict ft)).
Proof.
  intros Hab Hf Hn. pose proof (ab_list _ _ _ _ Hab) as Hw.
  rewrite (wfl_head _ _ Hw), (follow_seg n _ None ps) by
    (apply Hw || (rewrite (ab_count _ _ _ _ Hab) in Hn; lia)).
  by apply (ab_index _ _ _ _ Hab) in Hf as [? _].
Qed.

(** Goroutine A inserts into the full [demo_table2]: [race1] is the table after
    it has popped the oldest entry, of shard 1, and before it tries that
    shard's lock.  Goroutine B, which holds shard 1, looks the same flow up:
    [race2].  Then A takes the shard and deletes its victim: [race3]. *)
Definition race1 : FlowTable := set_evict demo_table2 (popOldestEntry (evict demo_table2)).2.
Definition race2 : FlowTable :=
  or_table (Lookup demo_hash no_busy 2 (demo_flow 1 9) true FlowStateNew 3 race1).
Definition race3 : FlowTable := delete_victim demo_hash (key_of (demo_flow 1 9)) race2.

(** eviction is not safe against a concurrent lookup of its victim: the
    lookup moves an entry that is already unlinked, which cuts every other
    entry off the list.  From a consistent table this interleaving reaches one
    in which a stored flow is on no list, so that it is never evicted. *)
Theorem eviction_race_corrupts :
  (exists ps l, abs demo_hash demo_table2 ps l) /\
  find_flow demo_hash (key_of (demo_flow 2 9)) race3 <> None /\
  ~ exists ps l, abs demo_hash race3 ps l.
Proof.
  split; [|split].
  - destruct demo_abs2 as (ps & Hab & _). eauto.
  - vm_compute. discriminate.
  - intros (ps & l & Hab).
    assert (find_flow demo_hash (key_of (demo_flow 2 9)) race3 = Some 1%nat) as Hf by (vm_compute; reflexivity).
    pose proof (abs_follow _ _ _ _ _ _ 4 Hab Hf ltac:(vm_compute; lia)) as Hin.
    assert (follow 4 (heap (evict race3)) (head (evict race3)) = [0%nat]) as E by (vm_compute; reflexivity).
    rewrite E in Hin. apply list_elem_of_singleton in Hin. discriminate Hin.
Qed.

End FlowTable.
