(* ===== verification/FlowConc.v ===== *)
(** * The flow table under concurrent use

    [FlowConc] models [src/internal/acl/flowtable.go] at the grain of its locks:
    several goroutines are inside the operations at once.  A goroutine stops
    between any two of: a [Lock], [TryLock] or [Unlock] of a shard, an access to
    the map of a shard it holds (with the fields of the entry it reads there), a
    section under [evictMu], and an access to the atomic counter.  The choices of
    the scheduler are which goroutine goes on, what it calls next, whether a
    [TryLock] of a free shard succeeds, and the order in which a [range] visits a
    map.

    The eviction list is changed as the code changes it, but nothing is claimed
    of it here: [FlowTable.eviction_race_corrupts] shows that interleaved
    evictions break it.  What holds in every interleaving is the part that the
    limit on flows rests on: shards, locks and counter. *)
From Stdlib Require Import ZArith Lia.
From stdpp Require Import base numbers list gmap strings fin_maps sets.
From S2P Require Import Prelude AclPolicy AclParse FlowTable.
Import AclPolicy.Policy AclParse.Parse FlowTable.FlowTable.

Module FlowConc.

(** A call of an operation, with the time it reads. *)
Inductive call :=
| CLookup (f : Flow) (createIfMissing : bool) (initialState : FlowState) (now : Z)
| CUpdateState (f : Flow) (state : FlowState) (now : Z)
| CRemoveFlow (key : FlowKey).

Inductive request := Op (c : call) | Expire (now : Z).

(** Where a goroutine is. *)
Inductive pc :=
| Idle
| Want (c : call)                                            (* at shard.mu.Lock *)
| Have (c : call)                                            (* with the shard *)
| Unlink (c : call) (p : ptr)                                (* deleted from the shard, not yet from the list *)
| Count (c : call)                                           (* deleted, not yet counted *)
| Move (c : call) (p : ptr)                                  (* refreshed, not yet moved *)
| Check (c : call)                                           (* at the loop of Lookup *)
| Pop (c : call) (attempts : nat)                            (* in evictOneLocked *)
| Try (c : call) (attempts : nat) (e : ptr)
| Back (c : call) (attempts : nat) (e : ptr)
| Victim (c : call) (key : FlowKey) (other : option nat)     (* with the victim's shard *)
| VCount (c : call) (other : option nat)
| VUnlock (c : call) (other : option nat)
| Insert (c : call)                                          (* past the limit *)
| Link (c : call) (p : ptr)                                  (* in the shard, not yet on the list *)
| Add (c : call)                                             (* not yet counted *)
| Unlock (c : call)
| EWant (now : Z) (i : nat)                                  (* ExpireOldFlows at shard i *)
| ERange (now : Z) (i : nat) (seen : gset FlowKey)
| EUnlink (now : Z) (i : nat) (seen : gset FlowKey) (p : ptr)
| ECount (now : Z) (i : nat) (seen : gset FlowKey).

(** What the scheduler chooses. *)
Record choice := { ch_call : option request; ch_try : bool; ch_key : option FlowKey }.

Definition call_key (c : call) : FlowKey :=
  match c with CLookup f _ _ _ => key_of f | CUpdateState f _ _ => key_of f | CRemoveFlow key => key end.
Definition creates (c : call) : bool := match c with CLookup _ create _ _ => create | _ => false end.

Definition with_shards (ss : list (gmap FlowKey ptr)) (ft : FlowTable) : FlowTable :=
  {| shards := ss; config := config ft; evict := evict ft; flowCount := flowCount ft; fresh := fresh ft |}.
Definition add_count (n : Z) (ft : FlowTable) : FlowTable :=
  {| shards := shards ft; config := config ft; evict := evict ft; flowCount := flowCount ft + n; fresh := fresh ft |}.

Section Conc.
Variable maphash : list Z -> Z.

Definition shard_of (c : call) : nat := shardIdx maphash (call_key c).

(** The entry is missing: [Lookup] may create it, the others return. *)
Definition after_missing (c : call) : pc := if creates c then Check c else Unlock c.

Definition touch_at (p : ptr) (now : Z) (st : FlowState) (ft : FlowTable) : FlowTable :=
  set_evict ft (upd_heap (alter (touch now st) p) (evict ft)).

(** The entry [p] of the key is found in the shard. *)
Definition found (c : call) (p : ptr) (ft : FlowTable) : option (pc * FlowTable) :=
  let gone := (Unlink c p, with_shards (del_flow maphash (call_key c) (shards ft)) ft) in
  match c with
  | CRemoveFlow _ => Some gone
  | CLookup _ _ initialState now =>
      e ← heap (evict ft) !! p;
      if isEntryExpired (config ft) e now then Some gone
      else
        let st := if decide (e_State e = FlowStateNew /\ initialState = FlowStateEstablished)
                  then FlowStateEstablished else e_State e in
        Some (Move c p, touch_at p now st ft)
  | CUpdateState _ state now =>
      e ← heap (evict ft) !! p;
      if isEntryExpired (config ft) e now then Some gone else Some (Move c p, touch_at p now state ft)
  end.

(** One step of a goroutine at [p], with the locked shards [L]; [None]: it waits,
    or the choice is not one it has. *)
Definition tstep (ch : choice) (p : pc) (L : gset nat) (ft : FlowTable) : option (pc * gset nat * FlowTable) :=
  match p with
  | Idle => match ch_call ch with
            | Some (Op c) => Some (Want c, L, ft)
            | Some (Expire now) => Some (EWant now 0, L, ft)
            | None => None
            end
  | Want c => if decide (shard_of c ∈ L) then None else Some (Have c, {[shard_of c]} ∪ L, ft)
  | Have c =>
      match find_flow maphash (call_key c) ft with
      | None => Some (after_missing c, L, ft)
      | Some q => '(p', ft') ← found c q ft; Some (p', L, ft')
      end
  | Unlink c q => Some (Count c, L, set_evict ft (unlinkEntry q (evict ft)))
  | Count c => Some (after_missing c, L, add_count (-1) ft)
  | Move c q => Some (Unlock c, L, set_evict ft (moveToFrontLocked q (evict ft)))
  | Check c => Some (if MaxFlows (config ft) <=? flowCount ft then Pop c maxAttempts else Insert c, L, ft)
  | Pop c O => Some (Check c, L, ft)
  | Pop c (S n) =>
      match popOldestEntry (evict ft) with
      | (None, _) => Some (Check c, L, ft)
      | (Some e, s) => Some (Try c n e, L, set_evict ft s)
      end
  | Try c n e =>
      match heap (evict ft) !! e with
      | None => Some (Check c, L, ft)
      | Some entry =>
          let key := key_of (e_Flow entry) in
          let i := shardIdx maphash key in
          if (i =? shard_of c)%nat then Some (Victim c key None, L, ft)
          else if bool_decide (i ∉ L) && ch_try ch then Some (Victim c key (Some i), {[i]} ∪ L, ft)
          else Some (Back c n e, L, ft)
      end
  | Back c n e => Some (Pop c n, L, set_evict ft (linkEntryBack e (evict ft)))
  | Victim c key o =>
      match find_flow maphash key ft with
      | Some _ => Some (VCount c o, L, with_shards (del_flow maphash key (shards ft)) ft)
      | None => Some (VUnlock c o, L, ft)
      end
  | VCount c o => Some (VUnlock c o, L, add_count (-1) ft)
  | VUnlock c o => Some (Check c, match o with Some i => L ∖ {[i]} | None => L end, ft)
  | Insert (CLookup f _ st now as c) =>
      let q := fresh ft in
      let entry := {| e_Flow := f; e_Created := now; e_LastSeen := now; e_State := st;
                      e_IsReplyDir := (NormalizeFlowKey f).2; e_next := None; e_prev := None |} in
      Some (Link c q, L, {| shards := put_flow maphash (key_of f) q (shards ft); config := config ft;
                            evict := upd_heap <[q := entry]> (evict ft); flowCount := flowCount ft; fresh := S q |})
  | Insert _ => None
  | Link c q => Some (Add c, L, set_evict ft (linkEntryFront q (evict ft)))
  | Add c => Some (Unlock c, L, add_count 1 ft)
  | Unlock c => Some (Idle, L ∖ {[shard_of c]}, ft)
  | EWant now i =>
      if decide (numShards <= i)%nat then Some (Idle, L, ft)
      else if decide (i ∈ L) then None else Some (ERange now i ∅, {[i]} ∪ L, ft)
  | ERange now i seen =>
      flows ← shards ft !! i;
      match ch_key ch with
      | None => if bool_decide (dom flows ⊆ seen) then Some (EWant now (S i), L ∖ {[i]}, ft) else None
      | Some k =>
          if decide (k ∈ seen) then None
          else
            q ← flows !! k;
            e ← heap (evict ft) !! q;
            if isEntryExpired (config ft) e now || bool_decide (e_State e = FlowStateClosed)
            then Some (EUnlink now i ({[k]} ∪ seen) q, L, with_shards (alter (delete k) i (shards ft)) ft)
            else Some (ERange now i ({[k]} ∪ seen), L, ft)
      end
  | EUnlink now i seen q => Some (ECount now i seen, L, set_evict ft (unlinkEntry q (evict ft)))
  | ECount now i seen => Some (ERange now i seen, L, add_count (-1) ft)
  end.

(** ** The goroutines *)

(** A goroutine, and whether it is one that creates flows. *)
Record thread := { inserter : bool; at_pc : pc }.
Record conc := { tbl : FlowTable; locks : gset nat; threads : list thread }.

Definition pc_creates (p : pc) : bool :=
  match p with
  | Want c | Have c | Unlink c _ | Count c | Move c _ | Check c | Pop c _ | Try c _ _ | Back c _ _
  | Victim c _ _ | VCount c _ | VUnlock c _ | Insert c | Link c _ | Add c | Unlock c => creates c
  | Idle | EWant _ _ | ERange _ _ _ | EUnlink _ _ _ _ | ECount _ _ _ => false
  end.

Definition cstep (t : nat) (ch : choice) (s : conc) : option conc :=
  th ← threads s !! t;
  '(p, L, ft) ← tstep ch (at_pc th) (locks s) (tbl s);
  if pc_creates p && negb (inserter th) then None
  else Some {| tbl := ft; locks := L; threads := <[t := {| inserter := inserter th; at_pc := p |}]> (threads s) |}.

Fixpoint crun (sched : list (nat * choice)) (s : conc) : option conc :=
  match sched with
  | [] => Some s
  | (t, ch) :: sched => s ← cstep t ch s; crun sched s
  end.

(** A new table and its goroutines; [flags] says which of them create flows. *)
Definition boot (c : FlowTableConfig) (flags : list bool) : conc :=
  {| tbl := NewFlowTable c; locks := ∅; threads := (fun b => {| inserter := b; at_pc := Idle |}) <$> flags |}.

(** ** What every interleaving keeps *)

(** The shards a goroutine has locked. *)
Definition holds (p : pc) : gset nat :=
  match p with
  | Idle | Want _ | EWant _ _ => ∅
  | Have c | Unlink c _ | Count c | Move c _ | Check c | Pop c _ | Try c _ _ | Back c _ _ | Insert c | Link c _ | Add c | Unlock c =>
      {[shard_of c]}
  | Victim c _ o | VCount c o | VUnlock c o => {[shard_of c]} ∪ match o with Some i => {[i]} | None => ∅ end
  | ERange _ i _ | EUnlink _ i _ _ | ECount _ i _ => {[i]}
  end.

(** By how much the counter is ahead of the shards because of a goroutine. *)
Definition ahead (p : pc) : Z :=
  match p with
  | Unlink _ _ | Count _ | VCount _ _ | EUnlink _ _ _ _ | ECount _ _ _ => 1
  | Link _ _ | Add _ => -1
  | _ => 0
  end.

(** A goroutine that has passed the limit and not yet counted its flow. *)
Definition past (p : pc) : Z := match p with Insert _ | Link _ _ | Add _ => 1 | _ => 0 end.

(** The key a goroutine found missing and is about to insert. *)
Definition missing (p : pc) : option FlowKey :=
  match p with
  | Unlink c _ | Count c | Check c | Pop c _ | Try c _ _ | Back c _ _ | Victim c _ _ | VCount c _ | VUnlock c _ | Insert c =>
      if creates c then Some (call_key c) else None
  | _ => None
  end.

Definition pc_ok (p : pc) : Prop :=
  match p with
  | Check c | Pop c _ | Try c _ _ | Back c _ _ | Insert c | Link c _ | Add c => creates c = true
  | Victim c _ o | VCount c o | VUnlock c o => creates c = true /\ o <> Some (shard_of c)
  | ERange _ i _ | EUnlink _ i _ _ | ECount _ i _ => (i < numShards)%nat
  | _ => True
  end.

Definition stored (ft : FlowTable) : Z := foldr (fun m n => Z.of_nat (size m) + n) 0 (shards ft).

Record table_ok (ft : FlowTable) : Prop := {
  to_len : length (shards ft) = numShards;
  to_place : forall i m k q, shards ft !! i = Some m -> m !! k = Some q -> shardIdx maphash k = i;
  to_heap : forall i m k q, shards ft !! i = Some m -> m !! k = Some q -> is_Some (heap (evict ft) !! q)
}.

Lemma stored_alter ss i m g :
  ss !! i = Some m ->
  foldr (fun m n => Z.of_nat (size m) + n) 0 (alter g i ss) =
    foldr (fun (m : gmap FlowKey ptr) n => Z.of_nat (size m) + n) 0 ss - Z.of_nat (size m) + Z.of_nat (size (g m)).
Proof.
  revert i. induction ss as [|m0 ss IH]; intros [|i] Hi; try done.
  - injection Hi as ->. cbn. lia.
  - cbn. rewrite (IH i) by done. lia.
Qed.

Lemma stored_delete ft i m k q :
  shards ft !! i = Some m -> m !! k = Some q -> stored (with_shards (alter (delete k) i (shards ft)) ft) = stored ft - 1.
Proof.
  intros Hi Hk. unfold stored. cbn [shards with_shards]. rewrite (stored_alter _ _ _ _ Hi), map_size_delete_Some by eauto.
  assert (size m <> 0)%nat by (intros E; apply map_size_empty_iff in E; by rewrite E in Hk). lia.
Qed.

Lemma find_flow_Some ft k q : find_flow maphash k ft = Some q ->
  exists m, shards ft !! shardIdx maphash k = Some m /\ m !! k = Some q.
Proof. unfold find_flow. rewrite bind_Some. naive_solver. Qed.

Lemma stored_put ft k q : table_ok ft -> find_flow maphash k ft = None ->
  foldr (fun m n => Z.of_nat (size m) + n) 0 (put_flow maphash k q (shards ft)) = stored ft + 1.
Proof.
  intros T Hf. destruct (find_flow_shard maphash k ft _ (to_len _ T) eq_refl) as (m & Hm & E). unfold put_flow, stored.
  rewrite (stored_alter _ _ _ _ Hm), map_size_insert_None by congruence. lia.
Qed.

(** Shards after a delete hold what they held. *)
Lemma alter_delete_sub ft i k j m k' q :
  alter (delete k) i (shards ft) !! j = Some m -> m !! k' = Some q ->
  exists m0, shards ft !! j = Some m0 /\ m0 !! k' = Some q /\ (i = j -> k <> k').
Proof.
  intros Hj Hk. destruct (decide (i = j)) as [->|Hne].
  - rewrite list_lookup_alter_eq in Hj. destruct (shards ft !! j) as [m0|]; [|done]. injection Hj as <-.
    apply lookup_delete_Some in Hk as [Hne Hk]. by exists m0.
  - rewrite list_lookup_alter_ne in Hj by done. by exists m.
Qed.

Lemma table_ok_delete ft i k : table_ok ft -> table_ok (with_shards (alter (delete k) i (shards ft)) ft).
Proof.
  intros [T1 T2 T3]. split; cbn [shards with_shards evict]; [by rewrite length_alter|..]; intros j m k' q Hj Hk;
    destruct (alter_delete_sub _ _ _ _ _ _ _ Hj Hk) as (m0 & H0 & Hk0 & _); eauto.
Qed.

Lemma table_ok_evict ft s : table_ok ft -> (forall q, is_Some (heap (evict ft) !! q) -> is_Some (heap s !! q)) -> table_ok (set_evict ft s).
Proof. intros [T1 T2 T3] Hs. split; cbn [shards set_evict evict]; [done..|]. intros. apply Hs. eauto. Qed.

Lemma same_data_keeps h h' q : same_data h' h -> is_Some (h !! q) -> is_Some (h' !! q).
Proof. intros Hs. by apply same_data_in. Qed.

Lemma alter_keeps (g : FlowEntry -> FlowEntry) (h : gmap ptr FlowEntry) p q : is_Some (h !! q) -> is_Some (alter g p h !! q).
Proof. by rewrite lookup_alter_is_Some. Qed.

Lemma find_flow_deleted ft i k k' : find_flow maphash k ft = None ->
  find_flow maphash k (with_shards (alter (delete k') i (shards ft)) ft) = None.
Proof.
  intros Hf. destruct (find_flow _ _ _) as [q|] eqn:E in |- *; [|done]. apply find_flow_Some in E as (m & Hm & Hk). cbn [shards with_shards] in Hm.
  destruct (alter_delete_sub _ _ _ _ _ _ _ Hm Hk) as (m0 & H0 & Hk0 & _). unfold find_flow in Hf. rewrite H0 in Hf. cbn in Hf. congruence.
Qed.

(** *** One step *)

(** What a step does to the locks. *)
Inductive lock_effect (p : pc) (L : gset nat) (p' : pc) (L' : gset nat) : Prop :=
| LE_same : L' = L -> holds p' = holds p -> lock_effect p L p' L'
| LE_acquire i : (i ∉ L) -> L' = {[i]} ∪ L -> holds p' = {[i]} ∪ holds p -> lock_effect p L p' L'
| LE_release i : i ∈ holds p -> L' = L ∖ {[i]} -> holds p' = holds p ∖ {[i]} -> lock_effect p L p' L'.

Ltac step_cases H :=
  unfold tstep, found, after_missing in H;
  repeat (case_match; simplify_option_eq; try discriminate).

Lemma tstep_locks ch p L ft p' L' ft' : pc_ok p -> tstep ch p L ft = Some (p', L', ft') -> lock_effect p L p' L'.
Proof.
  intros Hp Hs. step_cases Hs; cbn [pc_ok] in *; try (apply LE_same; [done|cbn [holds]; set_solver]).
  all: try (eapply LE_acquire; [eassumption|done|cbn [holds]; set_solver]).
  all: eapply LE_release; [|done|]; cbn [holds]; set_solver.
Qed.

Lemma table_ok_touch ft q now st : table_ok ft -> table_ok (touch_at q now st ft).
Proof. intros T. apply table_ok_evict; [done|]. intros q0. apply alter_keeps. Qed.

Lemma table_ok_count ft n : table_ok ft -> table_ok (add_count n ft).
Proof. by intros [T1 T2 T3]. Qed.

Lemma table_ok_pop ft e s : table_ok ft -> popOldestEntry (evict ft) = (e, s) -> table_ok (set_evict ft s).
Proof.
  intros T. unfold popOldestEntry. destruct (tail (evict ft)); intros [= <- <-]; apply table_ok_evict; try done.
  intros q0. apply same_data_keeps, unlinkEntry_data.
Qed.

(** An entry is new on the heap and in the shard of its key. *)
Lemma table_ok_put ft k q e n x :
  table_ok ft -> table_ok {| shards := put_flow maphash k q (shards ft); config := config ft; evict := upd_heap <[q := e]> (evict ft);
                             flowCount := n; fresh := x |}.
Proof.
  intros [T1 T2 T3]. unfold put_flow. split; cbn [shards evict upd_heap heap]; [by rewrite length_alter|..]; intros i m k' q' Hi Hk.
  - destruct (decide (shardIdx maphash k = i)) as [<-|Hne]; [|rewrite list_lookup_alter_ne in Hi by done; eauto].
    rewrite list_lookup_alter_eq in Hi. destruct (shards ft !! shardIdx maphash k) as [m0|] eqn:E; [|done]. injection Hi as <-.
    apply lookup_insert_Some in Hk as [[<- _]|[_ Hk]]; eauto.
  - rewrite lookup_insert_is_Some'. destruct (decide (shardIdx maphash k = i)) as [<-|Hne]; [|rewrite list_lookup_alter_ne in Hi by done; eauto].
    rewrite list_lookup_alter_eq in Hi. destruct (shards ft !! shardIdx maphash k) as [m0|] eqn:E; [|done]. injection Hi as <-.
    apply lookup_insert_Some in Hk as [[_ <-]|[_ Hk]]; eauto.
Qed.

Lemma tstep_table ch p L ft p' L' ft' :
  table_ok ft -> tstep ch p L ft = Some (p', L', ft') -> table_ok ft' /\ config ft' = config ft.
Proof.
  intros T Hs. step_cases Hs; try done; (split; [|done]);
    eauto using table_ok_delete, table_ok_touch, table_ok_count, table_ok_pop, table_ok_put;
    (apply table_ok_evict; [done|]; intros q0; apply same_data_keeps;
         (apply unlinkEntry_data || apply moveToFrontLocked_data || apply linkEntryFront_data || apply linkEntryBack_data)).
Qed.

Lemma tstep_pc ch p L ft p' L' ft' : pc_ok p -> tstep ch p L ft = Some (p', L', ft') -> pc_ok p'.
Proof. intros Hp Hs. step_cases Hs; cbn [pc_ok] in *; rewrite ?Nat.eqb_neq in *; lia || naive_solver. Qed.

Lemma tstep_creates ch p L ft p' L' ft' :
  p <> Idle -> tstep ch p L ft = Some (p', L', ft') -> pc_creates p' = true -> pc_creates p = true.
Proof. intros Hp Hs. step_cases Hs; cbn [pc_creates] in *; congruence. Qed.

Lemma stored_del ft k q :
  find_flow maphash k ft = Some q -> stored (with_shards (del_flow maphash k (shards ft)) ft) = stored ft - 1.
Proof. intros (m & Hm & Hk)%find_flow_Some. by eapply stored_delete. Qed.

(** The counter and the shards move together, the goroutine's part included. *)
Lemma tstep_count ch p L ft p' L' ft' :
  table_ok ft -> (forall k, missing p = Some k -> find_flow maphash k ft = None) -> pc_ok p ->
  tstep ch p L ft = Some (p', L', ft') ->
  flowCount ft' - stored ft' - ahead p' = flowCount ft - stored ft - ahead p.
Proof.
  intros T Hm Hp Hs. step_cases Hs; cbn [ahead missing pc_ok creates] in *;
    try (unfold stored; cbn [shards flowCount set_evict add_count touch_at]; lia).
  all: cbn [flowCount with_shards].
  all: try (erewrite stored_del by eassumption; lia); try (erewrite stored_delete by eassumption; lia).
  subst. unfold stored at 1. cbn [shards]. rewrite stored_put by auto. lia.
Qed.

(** The counter grows only on account of a goroutine that has passed the limit. *)
Lemma tstep_bound ch p L ft p' L' ft' :
  tstep ch p L ft = Some (p', L', ft') ->
  flowCount ft' + past p' <= flowCount ft + past p \/ flowCount ft' < MaxFlows (config ft).
Proof.
  intros Hs. step_cases Hs; cbn [past flowCount set_evict add_count touch_at with_shards]; try (left; lia).
  right. bool_to_prop. lia.
Qed.

Lemma missing_held p k : missing p = Some k -> shardIdx maphash k ∈ holds p.
Proof. destruct p; cbn; try done; destruct (creates c); intros [= <-]; unfold shard_of; set_solver. Qed.

(** A key appears only in a shard its goroutine holds. *)
Lemma tstep_keys ch p L ft p' L' ft' k :
  pc_ok p -> tstep ch p L ft = Some (p', L', ft') -> find_flow maphash k ft = None ->
  find_flow maphash k ft' = None \/ shardIdx maphash k ∈ holds p.
Proof.
  intros Hp Hs Hk. step_cases Hs; try (by left); try (left; by apply find_flow_deleted).
  destruct (decide (k = key_of f)) as [->|Hne]; [right; cbn; unfold shard_of; set_solver|left].
  rewrite <- Hk. by eapply (find_flow_alter maphash ft _ <[key_of f := fresh ft]>); [|intros; apply lookup_insert_ne|].
Qed.

Lemma find_flow_gone ft k : find_flow maphash k (with_shards (del_flow maphash k (shards ft)) ft) = None.
Proof.
  unfold find_flow, del_flow. cbn [shards with_shards]. rewrite list_lookup_alter_eq.
  destruct (shards ft !! shardIdx maphash k); cbn; [apply lookup_delete_eq|done].
Qed.

(** After a goroutine has found its key missing, it stays so for its own steps. *)
Lemma tstep_missing ch p L ft p' L' ft' k :
  (forall k, missing p = Some k -> find_flow maphash k ft = None) -> tstep ch p L ft = Some (p', L', ft') ->
  missing p' = Some k -> find_flow maphash k ft' = None.
Proof.
  intros Hm Hs. step_cases Hs; cbn [missing] in *; try done; try (by apply Hm); try (intros E; by apply find_flow_deleted, Hm).
  1-2: intros [= <-]; apply find_flow_gone.
  by intros [= <-].
Qed.

(** Only the wait for a lock stops a goroutine. *)
Lemma tstep_progress p L ft :
  table_ok ft -> pc_ok p -> p <> Idle ->
  (exists ch r, tstep ch p L ft = Some r) \/ (holds p = ∅ /\ exists i, i ∈ L).
Proof.
  intros T Hp Hne. set (ch0 := {| ch_call := None; ch_try := false; ch_key := None |}).
  assert (forall i m k q, shards ft !! i = Some m -> m !! k = Some q -> exists e, heap (evict ft) !! q = Some e) as Hh
    by (intros i m k q Hi Hk; apply (to_heap _ T _ _ _ _ Hi Hk)).
  destruct p; cbn [pc_ok] in Hp; try done; try (left; exists ch0; cbn; by eauto).
  - cbn. destruct (decide (shard_of c ∈ L)); [right; eauto|left; exists ch0; eauto].
  - left. exists ch0. cbn. destruct (find_flow maphash (call_key c) ft) as [q|] eqn:E; [|eauto].
    apply find_flow_Some in E as (m & Hm & Hk). destruct (Hh _ _ _ _ Hm Hk) as [e He]. unfold found.
    destruct c; rewrite ?He; cbn; try destruct (isEntryExpired _ _ _); cbn; eauto.
  - left. exists ch0. destruct attempts; cbn; [eauto|]. destruct (popOldestEntry (evict ft)) as [[e|] s]; eauto.
  - left. exists ch0. cbn. destruct (heap (evict ft) !! e); [|eauto]. destruct (_ =? _)%nat; [eauto|]. destruct (_ && _); eauto.
  - left. exists ch0. cbn. destruct (find_flow maphash key ft); eauto.
  - left. exists ch0. destruct c; try done. cbn. eauto.
  - cbn. destruct (decide (numShards <= i)%nat) as [Hi|Hi]; [left; exists ch0; eauto|].
    destruct (decide (i ∈ L)); [right; eauto|left; exists ch0; eauto].
  - left. destruct (lookup_lt_is_Some_2 (shards ft) i) as [m Hm]; [by rewrite (to_len _ T)|].
    destruct (decide (dom m ⊆ seen)) as [Hd|Hd].
    { exists ch0. cbn. rewrite Hm. cbn. rewrite bool_decide_true by done. eauto. }
    destruct (set_choose (dom m ∖ seen)) as [k Hk]; [intros E; apply Hd; intros k Hk; destruct (decide (k ∈ seen)); [done|set_solver]|]. apply elem_of_difference in Hk as [[q Hq]%elem_of_dom Hs].
    exists {| ch_call := None; ch_try := false; ch_key := Some k |}. cbn. destruct (Hh _ _ _ _ Hm Hq) as [e He].
    rewrite Hm. cbn. rewrite decide_False by done. rewrite Hq. cbn. rewrite He. cbn. destruct (_ || _); eauto.
Qed.

(** *** All goroutines *)
Fixpoint tsum (f : thread -> Z) (l : list thread) : Z := match l with [] => 0 | th :: l => f th + tsum f l end.

Lemma tsum_insert f l t th th' : l !! t = Some th -> tsum f (<[t := th']> l) = tsum f l - f th + f th'.
Proof.
  revert t. induction l as [|x l IH]; intros [|t] Ht; try done.
  - injection Ht as ->. cbn. lia.
  - change (<[S t := th']> (x :: l)) with (x :: <[t := th']> l). cbn [tsum]. rewrite (IH t) by done. lia.
Qed.

Lemma tsum_le f g l : (forall th, th ∈ l -> f th <= g th) -> tsum f l <= tsum g l.
Proof.
  induction l as [|x l IH]; intros Hle; cbn [tsum]; [lia|].
  pose proof (Hle x ltac:(by left)). pose proof (IH ltac:(intros; apply Hle; by right)). lia.
Qed.

Definition inserters (l : list thread) : Z := tsum (fun th => if inserter th then 1 else 0) l.

Record cinv (s : conc) : Prop := {
  ci_table : table_ok (tbl s);
  ci_pc : forall t th, threads s !! t = Some th -> pc_ok (at_pc th) /\ (pc_creates (at_pc th) = true -> inserter th = true);
  ci_absent : forall t th k, threads s !! t = Some th -> missing (at_pc th) = Some k -> find_flow maphash k (tbl s) = None;
  ci_excl : forall t u th uh, t <> u -> threads s !! t = Some th -> threads s !! u = Some uh -> holds (at_pc th) ## holds (at_pc uh);
  ci_held : forall i, i ∈ locks s <-> exists t th, threads s !! t = Some th /\ i ∈ holds (at_pc th);
  ci_count : flowCount (tbl s) = stored (tbl s) + tsum (fun th => ahead (at_pc th)) (threads s);
  ci_bound : flowCount (tbl s) + tsum (fun th => past (at_pc th)) (threads s) <= MaxFlows (config (tbl s)) - 1 + inserters (threads s)
}.

Lemma past_creates p : pc_ok p -> past p <= if pc_creates p then 1 else 0.
Proof. destruct p; cbn; try (intros; destruct (creates c); lia); try lia; intros ->; lia. Qed.

Lemma past_inserters s :
  (forall t th, threads s !! t = Some th -> pc_ok (at_pc th) /\ (pc_creates (at_pc th) = true -> inserter th = true)) ->
  tsum (fun th => past (at_pc th)) (threads s) <= inserters (threads s).
Proof.
  intros Hp. apply tsum_le. intros th [t Ht]%list_elem_of_lookup. destruct (Hp t th Ht) as [Ho Hc].
  pose proof (past_creates _ Ho). destruct (pc_creates (at_pc th)); [rewrite Hc by done; lia|]. destruct (inserter th); lia.
Qed.

Lemma insert_cases (l : list thread) t th th' u uh :
  l !! t = Some th -> <[t := th']> l !! u = Some uh -> (u = t /\ uh = th') \/ (u <> t /\ l !! u = Some uh).
Proof.
  intros Ht Hu. destruct (decide (u = t)) as [->|Hne]; [left|right; by rewrite list_lookup_insert_ne in Hu].
  rewrite list_lookup_insert_eq in Hu by (by eapply lookup_lt_Some). split; congruence.
Qed.

(** The locks stay with one goroutine each. *)
Lemma locks_step s t th th' L' :
  cinv s -> threads s !! t = Some th -> lock_effect (at_pc th) (locks s) (at_pc th') L' ->
  (forall u v uh vh, u <> v -> <[t := th']> (threads s) !! u = Some uh -> <[t := th']> (threads s) !! v = Some vh ->
     holds (at_pc uh) ## holds (at_pc vh)) /\
  (forall i, i ∈ L' <-> exists u uh, <[t := th']> (threads s) !! u = Some uh /\ i ∈ holds (at_pc uh)).
Proof.
  intros I Ht Hl. pose proof (ci_excl _ I) as Hx. pose proof (ci_held _ I) as Hh.
  assert (forall u uh, u <> t -> threads s !! u = Some uh -> holds (at_pc uh) ## holds (at_pc th') ) as Hd.
  { intros u uh Hu Huh. pose proof (Hx u t uh th Hu Huh Ht) as D.
    destruct Hl as [_ ->|i Hi _ ->|i Hi _ ->]; [done| |set_solver].
    assert (i ∉ holds (at_pc uh)) by (intros Hin; apply Hi, Hh; eauto). set_solver. }
  split.
  - intros u v uh vh Hne Hu Hv. destruct (insert_cases _ _ _ _ _ _ Ht Hu) as [[-> ->]|[Hut Hu']], (insert_cases _ _ _ _ _ _ Ht Hv) as [[-> ->]|[Hvt Hv']];
      [done|symmetry; eauto|eauto|eauto].
  - assert (forall i, (exists u uh, <[t := th']> (threads s) !! u = Some uh /\ i ∈ holds (at_pc uh)) <->
              i ∈ holds (at_pc th') \/ exists u uh, u <> t /\ threads s !! u = Some uh /\ i ∈ holds (at_pc uh)) as He.
    { intros i. split.
      - intros (u & uh & Hu & Hi). destruct (insert_cases _ _ _ _ _ _ Ht Hu) as [[-> ->]|[Hut Hu']]; [by left|right; eauto].
      - intros [Hi|(u & uh & Hut & Hu & Hi)]; [exists t, th'|exists u, uh; by rewrite list_lookup_insert_ne].
        split; [|done]. apply list_lookup_insert_eq. by eapply lookup_lt_Some. }
    assert (forall i, i ∈ locks s <-> i ∈ holds (at_pc th) \/ exists u uh, u <> t /\ threads s !! u = Some uh /\ i ∈ holds (at_pc uh)) as Hh'.
    { intros i. rewrite Hh. split; [|intros [Hi|(u & uh & _ & Hu & Hi)]; eauto].
      intros (u & uh & Hu & Hi). destruct (decide (u = t)) as [->|]; [left; congruence|right; eauto 6]. }
    intros i. rewrite He. destruct Hl as [-> ->|j Hj -> ->|j Hj -> ->]; [apply Hh'|rewrite elem_of_union, elem_of_union, Hh'; tauto|].
    rewrite !elem_of_difference, Hh'. split; [tauto|]. intros [?|(u & uh & Hut & Hu & Hi)]; [tauto|]. split; [right; eauto 6|].
    intros ->%elem_of_singleton. pose proof (Hx u t uh th Hut Hu Ht). set_solver.
Qed.

Lemma cstep_inv t ch s s' :
  cinv s -> cstep t ch s = Some s' ->
  cinv s' /\ config (tbl s') = config (tbl s) /\ inserters (threads s') = inserters (threads s).
Proof.
  intros I Hs. unfold cstep in Hs. destruct (threads s !! t) as [th|] eqn:Ht; [|done]. rewrite bind_Some_eq in Hs.
  destruct (tstep ch (at_pc th) (locks s) (tbl s)) as [[[p' L'] ft']|] eqn:Es; [|done]. rewrite bind_Some_eq in Hs.
  destruct (pc_creates p' && negb (inserter th)) eqn:Eg; [done|]. injection Hs as <-.
  set (th' := {| inserter := inserter th; at_pc := p' |}). destruct (ci_pc _ I t th Ht) as [Hpc Hfl].
  pose proof (ci_absent _ I t th) as Hab.
  destruct (tstep_table _ _ _ _ _ _ _ (ci_table _ I) Es) as [Tok Tc]. pose proof (tstep_pc _ _ _ _ _ _ _ Hpc Es) as Hpc'.
  assert (inserters (<[t := th']> (threads s)) = inserters (threads s)) as Hins by (unfold inserters; rewrite (tsum_insert _ _ _ _ _ Ht); cbn; lia).
  destruct (locks_step s t th th' L' I Ht (tstep_locks _ _ _ _ _ _ _ Hpc Es)) as [Hx Hh].
  assert (forall u uh, <[t := th']> (threads s) !! u = Some uh -> pc_ok (at_pc uh) /\ (pc_creates (at_pc uh) = true -> inserter uh = true)) as Hpcs.
  { intros u uh Hu. destruct (insert_cases _ _ _ _ _ _ Ht Hu) as [[-> ->]|[_ Hu']]; [|by apply (ci_pc _ I u)]. split; [done|].
    cbn [at_pc inserter th']. intros E. rewrite E in Eg. by destruct (inserter th). }
  split; [|by split]. split; cbn [tbl locks threads]; [done|done| |done|done|..].
  - intros u uh k Hu Hk. destruct (insert_cases _ _ _ _ _ _ Ht Hu) as [[-> ->]|[Hut Hu']].
    + by eapply (tstep_missing _ _ _ _ _ _ _ _ (fun k => Hab k Ht) Es).
    + destruct (tstep_keys _ _ _ _ _ _ _ k Hpc Es (ci_absent _ I _ _ _ Hu' Hk)) as [|Hin]; [done|].
      pose proof (ci_excl _ I u t uh th Hut Hu' Ht). pose proof (missing_held _ _ Hk). set_solver.
  - rewrite (tsum_insert _ _ _ _ _ Ht). cbn [at_pc th']. pose proof (ci_count _ I).
    pose proof (tstep_count _ _ _ _ _ _ _ (ci_table _ I) (fun k => Hab k Ht) Hpc Es). lia.
  - rewrite Hins, Tc. destruct (tstep_bound _ _ _ _ _ _ _ Es) as [Hb|Hb].
    + rewrite (tsum_insert _ _ _ _ _ Ht). cbn [at_pc th']. pose proof (ci_bound _ I). lia.
    + pose proof (past_inserters {| tbl := ft'; locks := L'; threads := <[t := th']> (threads s) |} Hpcs) as Hle.
      cbn [threads] in Hle. rewrite Hins in Hle. lia.
Qed.

Lemma crun_inv sched s s' :
  cinv s -> crun sched s = Some s' ->
  cinv s' /\ config (tbl s') = config (tbl s) /\ inserters (threads s') = inserters (threads s).
Proof.
  revert s. induction sched as [|[t ch] sched IH]; intros s I; cbn [crun]; [by intros [= <-]|].
  intros (s1 & H1 & H2)%bind_Some. destruct (cstep_inv _ _ _ _ I H1) as (I1 & <- & <-). by apply IH.
Qed.

Lemma tsum_idle f c flags : f Idle = 0 -> tsum (fun th => f (at_pc th)) (threads (boot c flags)) = 0.
Proof. intros Hf. cbn [boot threads]. induction flags as [|b flags IH]; [done|]. cbn [fmap list_fmap tsum at_pc]. rewrite IH, Hf. done. Qed.

Lemma boot_inserters c flags : inserters (threads (boot c flags)) = Z.of_nat (length (filter (fun b => b = true) flags)).
Proof.
  unfold inserters. cbn [boot threads]. induction flags as [|[] flags IH]; [done|..]; cbn [fmap list_fmap tsum inserter]; rewrite IH;
    [rewrite filter_cons_True by done|by rewrite filter_cons_False]. cbn [length]. lia.
Qed.

Lemma boot_inv c flags : cinv (boot c flags).
Proof.
  assert (forall t th, threads (boot c flags) !! t = Some th -> at_pc th = Idle) as Hi.
  { intros t th Ht. cbn [threads boot] in Ht. rewrite list_lookup_fmap in Ht. by destruct (flags !! t); [injection Ht as <-|]. }
  pose proof (NewFlowTable_abs maphash c) as Hab.
  assert (forall i m k q, shards (NewFlowTable c) !! i = Some m -> m !! k = Some q -> False) as Hn.
  { intros i m k q Hm Hk. cbn [shards NewFlowTable] in Hm. apply lookup_replicate in Hm as [-> _]. by rewrite lookup_empty in Hk. }
  split.
  - split; [apply (ab_shards _ _ _ _ Hab)|..]; intros; exfalso; eauto.
  - intros t th Ht. by rewrite (Hi t th Ht).
  - intros t th k Ht. by rewrite (Hi t th Ht).
  - intros t u th uh _ Ht _. rewrite (Hi t th Ht). set_solver.
  - intros i. cbn [locks boot]. split; [set_solver|]. intros (t & th & Ht & Hin). rewrite (Hi t th Ht) in Hin. set_solver.
  - by rewrite tsum_idle.
  - rewrite tsum_idle by done. pose proof (ab_pos _ _ _ _ Hab) as Hpos. cbn [tbl boot flowCount NewFlowTable] in *.
    rewrite boot_inserters. lia.
Qed.

(** While a goroutine is in an operation, one of them can go on. *)
Lemma no_deadlock s t th :
  cinv s -> threads s !! t = Some th -> at_pc th <> Idle ->
  exists u uh ch s', threads s !! u = Some uh /\ at_pc uh <> Idle /\ cstep u ch s = Some s'.
Proof.
  intros I.
  assert (forall u uh, threads s !! u = Some uh -> at_pc uh <> Idle -> (exists ch r, tstep ch (at_pc uh) (locks s) (tbl s) = Some r) ->
    exists ch s', cstep u ch s = Some s') as Hgo.
  { intros u uh Hu Hne (ch & [[p' L'] ft'] & E). destruct (ci_pc _ I u uh Hu) as [_ Hfl]. exists ch. unfold cstep. rewrite Hu, bind_Some_eq, E, bind_Some_eq.
    destruct (pc_creates p') eqn:Ec; [|by eexists]. rewrite Hfl; [by eexists|]. by eapply tstep_creates. }
  intros Ht Hne. destruct (tstep_progress (at_pc th) (locks s) (tbl s) (ci_table _ I) (proj1 (ci_pc _ I t th Ht)) Hne) as [Hp|[_ [i Hi]]].
  { destruct (Hgo t th Ht Hne Hp) as (ch & s' & Hs). by exists t, th, ch, s'. }
  apply (ci_held _ I) in Hi as (u & uh & Hu & Hin). assert (at_pc uh <> Idle) as Hun by (intros E; rewrite E in Hin; set_solver).
  destruct (tstep_progress (at_pc uh) (locks s) (tbl s) (ci_table _ I) (proj1 (ci_pc _ I u uh Hu)) Hun) as [Hp|[E _]]; [|set_solver].
  destruct (Hgo u uh Hu Hun Hp) as (ch & s' & Hs). by exists u, uh, ch, s'.
Qed.

(** C15: In every interleaving of the goroutines that use a new table, at the
    grain of its locks: no shard is locked by two of them; each flow is in the
    shard of its key, so that a key is stored once; the counter differs from the
    number of stored flows by what the goroutines in the middle of a change
    account for, and equals it when none is in an operation; counter and stored
    flows exceed the maximum by less than the number of goroutines that create
    flows; and while some goroutine is in an operation, one that is can go on. *)
Theorem concurrent_flows_bounded c flags sched s :
  crun sched (boot c flags) = Some s ->
  let limit := MaxFlows (config (NewFlowTable c)) - 1 + Z.of_nat (length (filter (fun b => b = true) flags)) in
  (forall t u th uh, t <> u -> threads s !! t = Some th -> threads s !! u = Some uh -> holds (at_pc th) ## holds (at_pc uh)) /\
  (forall i m k q, shards (tbl s) !! i = Some m -> m !! k = Some q -> shardIdx maphash k = i) /\
  Len (tbl s) = stored (tbl s) + tsum (fun th => ahead (at_pc th)) (threads s) /\
  (Forall (fun th => at_pc th = Idle) (threads s) -> Len (tbl s) = stored (tbl s)) /\
  Len (tbl s) <= limit /\ stored (tbl s) <= limit /\
  (forall t th, threads s !! t = Some th -> at_pc th <> Idle ->
     exists u uh ch s', threads s !! u = Some uh /\ at_pc uh <> Idle /\ cstep u ch s = Some s').
Proof.
  intros Hr limit. destruct (crun_inv _ _ _ (boot_inv c flags) Hr) as (I & Hc & Hi). cbn [boot tbl] in Hc. rewrite boot_inserters in Hi.
  pose proof (ci_bound _ I) as Hb. rewrite Hc, Hi in Hb. pose proof (ci_count _ I) as Hn. unfold Len.
  assert (0 <= tsum (fun th => past (at_pc th)) (threads s)) as H0.
  { clear. induction (threads s) as [|th l IH]; cbn [tsum]; [lia|]. destruct (at_pc th); cbn [past]; lia. }
  assert (- tsum (fun th => ahead (at_pc th)) (threads s) <= tsum (fun th => past (at_pc th)) (threads s)) as H1.
  { clear. induction (threads s) as [|th l IH]; cbn [tsum]; [lia|]. destruct (at_pc th); cbn [past ahead]; lia. }
  split_and!; [apply I|apply (ci_table _ I)|done| |unfold limit; lia|unfold limit; lia|].
  - intros Hf. rewrite Hn. enough (tsum (fun th => ahead (at_pc th)) (threads s) = 0) by lia. clear -Hf.
    induction Hf as [|th l Hth _ IH]; [done|]. cbn [tsum]. rewrite IH, Hth. done.
  - intros t th. by apply no_deadlock.
Qed.

(** *** An operation alone

    The definitions of [FlowTable] are what a goroutine does when the others,
    which hold the shards [L], stand still. *)
(** Nothing to start, and a free lock is taken. *)
Definition willing : choice := {| ch_call := None; ch_try := true; ch_key := None |}.
Definition solo (x y : pc * gset nat * FlowTable) : Prop := exists ch, tstep ch x.1.1 x.1.2 x.2 = Some y.

Section Alone.
Variables (c : call) (L : gset nat).
Hypothesis free : (shard_of c ∉ L).
Abbreviation busy := (fun i => bool_decide (i ∈ L)).
Abbreviation mine := ({[shard_of c]} ∪ L).

Lemma solo_step p L1 ft y z : (exists ch, tstep ch p L1 ft = Some y) -> rtc solo y z -> rtc solo (p, L1, ft) z.
Proof. intros Hs. apply rtc_l, Hs. Qed.

(** A step that does not depend on the choice. *)
Ltac solo_go := eapply solo_step; [exists willing; cbn; reflexivity|].

Lemma solo_unlock ft : rtc solo (Unlock c, mine, ft) (Idle, L, ft).
Proof. solo_go. replace (mine ∖ {[shard_of c]}) with L by set_solver. done. Qed.

Lemma solo_victim key o L1 ft :
  rtc solo (Victim c key o, L1, ft) (Check c, match o with Some i => L1 ∖ {[i]} | None => L1 end, delete_victim maphash key ft).
Proof.
  unfold delete_victim. destruct (find_flow maphash key ft) eqn:E;
    (eapply solo_step; [exists willing; cbn; rewrite E; reflexivity|]); [do 2 solo_go|solo_go]; done.
Qed.

Lemma solo_attempts n ft : rtc solo (Pop c n, mine, ft) (Check c, mine, evict_attempts maphash busy n (shard_of c) ft).
Proof.
  revert ft. induction n as [|n IH]; intros ft; [by solo_go|]. cbn [evict_attempts].
  destruct (popOldestEntry (evict ft)) as [[e|] s] eqn:Ep; (eapply solo_step; [exists willing; cbn; rewrite Ep; reflexivity|]); [|done].
  destruct (heap s !! e) as [entry|] eqn:He;
    [|eapply solo_step; [exists willing; cbn; rewrite He; reflexivity|]; done].
  destruct (shardIdx maphash (key_of (e_Flow entry)) =? shard_of c)%nat eqn:Ei.
  { eapply solo_step; [exists willing; cbn; rewrite He, Ei; reflexivity|]. apply solo_victim. }
  apply Nat.eqb_neq in Ei as Hi. case_bool_decide as Hb; cbn [negb].
  - eapply solo_step.
    { exists willing. cbn. rewrite He, Ei, bool_decide_false by set_solver. reflexivity. }
    solo_go. apply IH.
  - eapply solo_step.
    { exists willing. cbn. rewrite He, Ei, bool_decide_true by set_solver. reflexivity. }
    etrans; [apply solo_victim|]. cbn.
    replace (({[shardIdx maphash (key_of (e_Flow entry))]} ∪ mine) ∖ {[shardIdx maphash (key_of (e_Flow entry))]}) with mine by set_solver. done.
Qed.

Lemma solo_loop fuel ft ft' :
  evict_loop maphash busy fuel (shard_of c) ft = Some ft' -> rtc solo (Check c, mine, ft) (Insert c, mine, ft').
Proof.
  revert ft. induction fuel as [|n IH]; intros ft; cbn [evict_loop];
    (destruct (MaxFlows (config ft) <=? flowCount ft) eqn:E; [|intros [= <-]; eapply solo_step; [|done]; exists willing; cbn; by rewrite E]); [done|].
  intros Hl. eapply solo_step; [exists willing; cbn; rewrite E; reflexivity|].
  etrans; [apply solo_attempts|]. by apply IH.
Qed.

Lemma solo_want ft z : rtc solo (Have c, mine, ft) z -> rtc solo (Want c, L, ft) z.
Proof. apply solo_step. exists willing. cbn. by rewrite decide_False. Qed.
End Alone.

Ltac solo_by H := eapply solo_step; [exists willing; cbn; rewrite H; reflexivity|].
Ltac solo_go := eapply solo_step; [exists willing; cbn; reflexivity|].

Lemma solo_missing fuel f create st now L ft rp r b ft' (c := CLookup f create st now) :
  (shard_of c ∉ L) -> 
  lookup_missing maphash (fun i => bool_decide (i ∈ L)) fuel (key_of f) (NormalizeFlowKey f).2 f create st now ft = Some (rp, r, b, ft') ->
  rtc solo (after_missing c, {[shard_of c]} ∪ L, ft) (Idle, L, ft').
Proof.
  intros Hf. unfold lookup_missing, after_missing. cbn [creates c]. destruct create; cbn [negb].
  - intros (ft1 & Hl & Hn)%bind_Some. etrans; [by eapply solo_loop|]. injection Hn as <- <- <- <-. 
    do 3 solo_go. by apply solo_unlock.
  - intros [= <- <- <- <-]. by apply solo_unlock.
Qed.

(** [Lookup] alone is the [Lookup] of [FlowTable]. *)
Lemma solo_Lookup fuel f create st now L ft rp r b ft' (c := CLookup f create st now) :
  (shard_of c ∉ L) -> Lookup maphash (fun i => bool_decide (i ∈ L)) fuel f create st now ft = Some (rp, r, b, ft') ->
  rtc solo (Want c, L, ft) (Idle, L, ft').
Proof.
  intros Hf Hl. apply solo_want; [done|]. unfold Lookup in Hl. destruct (NormalizeFlowKey f) as [key isReply] eqn:En.
  assert (key = key_of f) as -> by (unfold key_of; by rewrite En). assert (isReply = (NormalizeFlowKey f).2) as -> by (by rewrite En).
  destruct (find_flow maphash (key_of f) ft) as [q|] eqn:Eq; [|solo_by Eq; by eapply solo_missing].
  apply bind_Some in Hl as (e & He & Hl). destruct (isEntryExpired (config ft) e now) eqn:Ex.
  - eapply solo_step; [exists willing; cbn; rewrite Eq; cbn; rewrite He; cbn; rewrite Ex; reflexivity|]. do 2 solo_go. by eapply solo_missing.
  - injection Hl as <- <- <- <-. eapply solo_step; [exists willing; cbn; rewrite Eq; cbn; rewrite He; cbn; rewrite Ex; reflexivity|].
    solo_go. by apply solo_unlock.
Qed.

Lemma solo_UpdateState f st now L ft (c := CUpdateState f st now) :
  (shard_of c ∉ L) -> table_ok ft -> rtc solo (Want c, L, ft) (Idle, L, (UpdateState maphash f st now ft).2).
Proof.
  intros Hf T. apply solo_want; [done|]. unfold UpdateState. destruct (find_flow maphash (key_of f) ft) as [q|] eqn:Eq; [|solo_by Eq; by apply solo_unlock].
  pose proof Eq as (m & Hm & Hk)%find_flow_Some. destruct (to_heap _ T _ _ _ _ Hm Hk) as [e He]. rewrite He.
  destruct (isEntryExpired (config ft) e now) eqn:Ex;
    (eapply solo_step; [exists willing; cbn; rewrite Eq; cbn; rewrite He; cbn; rewrite Ex; reflexivity|]); [do 2 solo_go|solo_go]; by apply solo_unlock.
Qed.

Lemma solo_RemoveFlow key L ft (c := CRemoveFlow key) :
  (shard_of c ∉ L) -> rtc solo (Want c, L, ft) (Idle, L, (RemoveFlow maphash key ft).2).
Proof.
  intros Hf. apply solo_want; [done|]. unfold RemoveFlow. destruct (find_flow maphash key ft) as [q|] eqn:Eq; [|solo_by Eq; by apply solo_unlock].
  eapply solo_step; [exists willing; cbn; rewrite Eq; reflexivity|]. do 2 solo_go. by apply solo_unlock.
Qed.

End Conc.

(** ** Schedules on concrete input *)
Definition calling (c : call) : choice := {| ch_call := Some (Op c); ch_try := true; ch_key := None |}.
Definition creating (a now : Z) : call := CLookup (demo_flow a 9) true FlowStateNew now.
(** [n] steps of a goroutine, and a call with its first [n] steps. *)
Definition steps (t n : nat) : list (nat * choice) := replicate n (t, willing).
Definition first_steps (t : nat) (c : call) (n : nat) : list (nat * choice) := (t, calling c) :: steps t (pred n).

(** Two goroutines pass the limit of a table for one flow together. *)
Definition one_flow : FlowTableConfig := {| MaxFlows := 1; TCPIdleTimeout := 0; UDPIdleTimeout := 0; ICMPIdleTimeout := 0 |}.
Definition overshoot : list (nat * choice) :=
  first_steps 0 (creating 1 1) 4 ++ first_steps 1 (creating 2 1) 4 ++ steps 0 4 ++ steps 1 4.
Definition after (sched : list (nat * choice)) (c : FlowTableConfig) (flags : list bool) : conc :=
  default (boot c flags) (crun demo_hash sched (boot c flags)).

Lemma crun_after sched c flags :
  (if crun demo_hash sched (boot c flags) then true else false) = true -> crun demo_hash sched (boot c flags) = Some (after sched c flags).
Proof. unfold after. by destruct (crun _ _ _). Qed.

Example limit_is_tight : Len (tbl (after overshoot one_flow [true; true])) = 2 /\ stored (tbl (after overshoot one_flow [true; true])) = 2.
Proof. by vm_compute. Qed.

Lemma concurrent_flows_bounded_witness : Len (tbl (after overshoot one_flow [true; true])) <= 2.
Proof.
  refine (proj1 (proj2 (proj2 (proj2 (proj2 (concurrent_flows_bounded demo_hash one_flow [true; true] overshoot _ (crun_after _ _ _ _))))))).
  by vm_compute.
Defined.

(** The race of [FlowTable.eviction_race_corrupts] as a schedule: goroutine 0 has
    popped the flow 1 to make room for the flow 3 when goroutine 1 looks the flow
    1 up, which moves the unlinked entry; then goroutine 0 goes on.  Afterwards
    the flow 2 is stored and not on the list. *)
Definition race : list (nat * choice) :=
  first_steps 0 (creating 1 1) 8 ++ first_steps 0 (creating 2 2) 8 ++ first_steps 0 (creating 3 3) 5 ++
  first_steps 1 (CLookup (demo_flow 1 9) false FlowStateNew 4) 5 ++ steps 0 9.
Definition race_table : FlowTable := tbl (after race demo_config [true; false]).

Example race_loses_entry :
  Forall (fun th => at_pc th = Idle) (threads (after race demo_config [true; false])) /\
  find_flow demo_hash (key_of (demo_flow 2 9)) race_table = Some 1%nat /\
  (1%nat ∉ follow 10 (heap (evict race_table)) (head (evict race_table))).
Proof. split_and!; vm_compute; [repeat constructor|done|]. intros Hin. repeat (apply elem_of_cons in Hin as [|Hin]; [done|]). by apply elem_of_nil in Hin. Qed.

End FlowConc.
