(* ===== verification/PeerTable.v ===== *)
(** * Addresses and the peer table

    [Netip] models the part of Go's [net/netip] the code uses.  [PeerTable]
    models [src/internal/peer/state.go] and [src/internal/peer/table.go]: the
    entries live in a heap, because the four indexes of the table and its users
    share them by pointer and compare them by pointer. *)
From Stdlib Require Import ZArith Lia.
From stdpp Require Import base numbers list gmap strings fin_maps.
From S2P Require Import Prelude.

Module Netip.

(** [netip.Addr]: the zero value, an IPv4 address, or an IPv6 address with its
    zone. *)
Inductive Addr := AddrZero | Addr4 (v : Z) | Addr6 (v : Z) (zone : string).

#[export] Instance Addr_eq_dec : EqDecision Addr.
Proof. solve_decision. Defined.

Definition addr_code (a : Addr) : option (Z + Z * string) :=
  match a with AddrZero => None | Addr4 v => Some (inl v) | Addr6 v z => Some (inr (v, z)) end.
Definition addr_decode (c : option (Z + Z * string)) : Addr :=
  match c with None => AddrZero | Some (inl v) => Addr4 v | Some (inr (v, z)) => Addr6 v z end.
#[export] Instance Addr_countable : Countable Addr.
Proof. refine (inj_countable' addr_code addr_decode _). by intros []. Defined.

Definition AddrFrom4 (b : list Z) : Addr := Addr4 (be_get b).
Definition AddrFrom16 (b : list Z) : Addr := Addr6 (be_get b) "".

Definition addr_valid (a : Addr) : bool := match a with AddrZero => false | _ => true end.

(** [Unmap]: an IPv4-mapped IPv6 address becomes the IPv4 address. *)
Definition is4in6 (v : Z) : bool := Z.shiftr v 32 =? 0xFFFF.
Definition Unmap (a : Addr) : Addr :=
  match a with
  | Addr6 v _ => if is4in6 v then Addr4 (Z.land v (Z.ones 32)) else a
  | _ => a
  end.

Definition bit_len (a : Addr) : Z :=
  match a with AddrZero => 0 | Addr4 _ => 32 | Addr6 _ _ => 128 end.
Definition addr_val (a : Addr) : Z :=
  match a with AddrZero => 0 | Addr4 v => v | Addr6 v _ => v end.
Definition has_zone (a : Addr) : bool :=
  match a with Addr6 _ z => negb (String.eqb z "") | _ => false end.

(** [netip.Prefix]. *)
Record Prefix := { p_addr : Addr; p_bits : Z }.

#[export] Instance Prefix_eq_dec : EqDecision Prefix.
Proof. solve_decision. Defined.

Definition prefix_valid (p : Prefix) : bool :=
  addr_valid (p_addr p) && (0 <=? p_bits p) && (p_bits p <=? bit_len (p_addr p)).

Definition Masked (p : Prefix) : Prefix :=
  if prefix_valid p then
    let host := bit_len (p_addr p) - p_bits p in
    let v := Z.shiftl (Z.shiftr (addr_val (p_addr p)) host) host in
    {| p_addr := match p_addr p with Addr4 _ => Addr4 v | Addr6 _ _ => Addr6 v "" | AddrZero => AddrZero end;
       p_bits := p_bits p |}
  else {| p_addr := AddrZero; p_bits := -1 |}.

Definition Contains (p : Prefix) (ip : Addr) : bool :=
  if negb (prefix_valid p) || has_zone ip then false
  else if (bit_len (p_addr p) =? 0) || (bit_len ip =? 0) || negb (bit_len (p_addr p) =? bit_len ip) then false
  else Z.shiftr (Z.lxor (addr_val ip) (addr_val (p_addr p))) (bit_len ip - p_bits p) =? 0.

(** [netip.AddrPort]. *)
Record AddrPort := { ap_addr : Addr; ap_port : Z }.

#[export] Instance AddrPort_eq_dec : EqDecision AddrPort.
Proof. solve_decision. Defined.
#[export] Instance AddrPort_countable : Countable AddrPort.
Proof.
  refine (inj_countable' (fun x => (ap_addr x, ap_port x)) (fun '(a, p) => Build_AddrPort a p) _). by intros [].
Defined.

Definition ap_zero : AddrPort := {| ap_addr := AddrZero; ap_port := 0 |}.
Definition ap_valid (ep : AddrPort) : bool := addr_valid (ap_addr ep).

End Netip.

Module PeerTable.
Import Netip.

Definition HoldQueueMax : nat := 64.

Inductive State := StatePending | StateHandshaking | StateConnected.

#[export] Instance State_eq_dec : EqDecision State.
Proof. solve_decision. Defined.

(** Pointers to entries and to sessions. *)
Abbreviation ptr := nat.
Abbreviation sptr := nat.

Record Entry := {
  ID : list Z;                     (* [32]byte *)
  X25519Pub : list Z;              (* [32]byte *)
  VPNAddr : Addr;
  Name : string;
  SubnetRoutes : list Prefix;
  endpoint : AddrPort;
  session : option sptr;
  pendingSession : option sptr;
  prevSession : option sptr;
  state : State;
  lastSeen : Z;
  holdQueue : list (list Z)
}.

(** ** Operations of one entry *)
Definition with_endpoint (ep : AddrPort) (e : Entry) : Entry :=
  {| ID := ID e; X25519Pub := X25519Pub e; VPNAddr := VPNAddr e; Name := Name e;
     SubnetRoutes := SubnetRoutes e; endpoint := ep; session := session e;
     pendingSession := pendingSession e; prevSession := prevSession e; state := state e;
     lastSeen := lastSeen e; holdQueue := holdQueue e |}.
Definition with_sessions (s pending prev : option sptr) (st : State) (e : Entry) : Entry :=
  {| ID := ID e; X25519Pub := X25519Pub e; VPNAddr := VPNAddr e; Name := Name e;
     SubnetRoutes := SubnetRoutes e; endpoint := endpoint e; session := s;
     pendingSession := pending; prevSession := prev; state := st;
     lastSeen := lastSeen e; holdQueue := holdQueue e |}.
Definition with_queue (seen : Z) (q : list (list Z)) (e : Entry) : Entry :=
  {| ID := ID e; X25519Pub := X25519Pub e; VPNAddr := VPNAddr e; Name := Name e;
     SubnetRoutes := SubnetRoutes e; endpoint := endpoint e; session := session e;
     pendingSession := pendingSession e; prevSession := prevSession e; state := state e;
     lastSeen := seen; holdQueue := q |}.

Definition SetEndpoint (ep : AddrPort) (e : Entry) : Entry := with_endpoint ep e.

Definition SetSession (s : option sptr) (e : Entry) : Entry :=
  with_sessions s (pendingSession e)
    (if negb (bool_decide (session e = None)) && negb (bool_decide (session e = s))
     then session e else prevSession e) StateConnected e.

Definition SetPendingSession (s : option sptr) (e : Entry) : Entry :=
  with_sessions (session e) s (prevSession e) (state e) e.

Definition PromotePendingSession (e : Entry) : bool * Entry :=
  match pendingSession e with
  | Some s =>
      (true, with_sessions (Some s) None
               (match session e with Some _ => session e | None => prevSession e end) StateConnected e)
  | None => (false, e)
  end.

Definition SetState (st : State) (e : Entry) : Entry :=
  with_sessions (session e) (pendingSession e) (prevSession e) st e.

Definition Touch (now : Z) (e : Entry) : Entry := with_queue now (holdQueue e) e.

Definition Enqueue (pkt : list Z) (e : Entry) : bool * Entry :=
  if (HoldQueueMax <=? length (holdQueue e))%nat then (false, e)
  else (true, with_queue (lastSeen e) (holdQueue e ++ [pkt]) e).

Definition DrainQueue (e : Entry) : list (list Z) * Entry :=
  (holdQueue e, with_queue (lastSeen e) [] e).

(** ** The table *)
Record Table := {
  entries : gmap ptr Entry;        (* the heap *)
  byID : gmap (list Z) ptr;
  byVPN : gmap Addr ptr;
  byEndpoint : gmap AddrPort ptr;
  byName : gmap string ptr
}.

Definition New : Table := {| entries := ∅; byID := ∅; byVPN := ∅; byEndpoint := ∅; byName := ∅ |}.

Definition with_entries (h : gmap ptr Entry) (t : Table) : Table :=
  {| entries := h; byID := byID t; byVPN := byVPN t; byEndpoint := byEndpoint t; byName := byName t |}.

(** [delete(m, k)] when [m[k] == p]. *)
Definition delete_if {K} `{Countable K} (k : K) (p : ptr) (m : gmap K ptr) : gmap K ptr :=
  if bool_decide (m !! k = Some p) then delete k m else m.

Definition unindex (p : ptr) (e : Entry) (t : Table) : Table :=
  {| entries := entries t; byID := byID t;
     byVPN := delete_if (VPNAddr e) p (byVPN t);
     byEndpoint := if ap_valid (endpoint e) then delete_if (endpoint e) p (byEndpoint t) else byEndpoint t;
     byName := if String.eqb (Name e) "" then byName t else delete_if (to_lower (Name e)) p (byName t) |}.

(** The ID of the entry a pointer refers to. *)
Definition id_of (t : Table) (p : ptr) : option (list Z) := ID <$> entries t !! p.

(** [if owner, ok := m[k]; !ok || owner.ID == id { m[k] = p }]. *)
Definition put_if_free {K} `{Countable K} (t : Table) (k : K) (id : list Z) (p : ptr) (m : gmap K ptr)
  : gmap K ptr :=
  match m !! k with
  | None => <[k := p]> m
  | Some owner => if bool_decide (id_of t owner = Some id) then <[k := p]> m else m
  end.

(** [Upsert] of the entry at pointer [p]. *)
Definition Upsert (p : ptr) (t : Table) : bool * Table :=
  match entries t !! p with
  | None => (false, t)
  | Some e =>
      let taken := match byVPN t !! VPNAddr e with
                   | Some owner => negb (bool_decide (id_of t owner = Some (ID e)))
                   | None => false
                   end in
      if addr_valid (VPNAddr e) && taken then (false, t)
      else
        let t1 := match byID t !! ID e with
                  | Some old => match entries t !! old with Some oe => unindex old oe t | None => t end
                  | None => t
                  end in
        (true,
         {| entries := entries t1;
            byID := <[ID e := p]> (byID t1);
            byVPN := if addr_valid (VPNAddr e) then <[VPNAddr e := p]> (byVPN t1) else byVPN t1;
            byEndpoint := if ap_valid (endpoint e)
                          then put_if_free t1 (endpoint e) (ID e) p (byEndpoint t1) else byEndpoint t1;
            byName := if String.eqb (Name e) "" then byName t1
                      else put_if_free t1 (to_lower (Name e)) (ID e) p (byName t1) |})
  end.

Definition setEndpoint (id : list Z) (ep : AddrPort) (claim : bool) (t : Table) : bool * Table :=
  match byID t !! id with
  | None => (false, t)
  | Some p =>
      let owner := if ap_valid ep then byEndpoint t !! ep else None in
      let other := match owner with Some q => negb (q =? p)%nat | None => false end in
      if other && negb claim then (false, t)
      else
        let h1 := match owner with
                  | Some q => if negb (q =? p)%nat then alter (SetEndpoint ap_zero) q (entries t) else entries t
                  | None => entries t
                  end in
        let old := match h1 !! p with Some e => endpoint e | None => ap_zero end in
        let m1 := if ap_valid old then delete_if old p (byEndpoint t) else byEndpoint t in
        (true,
         {| entries := alter (SetEndpoint ep) p h1;
            byID := byID t; byVPN := byVPN t;
            byEndpoint := if ap_valid ep then <[ep := p]> m1 else m1;
            byName := byName t |})
  end.

Definition UpdateEndpoint (id : list Z) (ep : AddrPort) (t : Table) : bool * Table := setEndpoint id ep false t.
Definition ClaimEndpoint (id : list Z) (ep : AddrPort) (t : Table) : bool * Table := setEndpoint id ep true t.

Definition LookupByID (id : list Z) (t : Table) : option ptr := byID t !! id.
Definition LookupByVPN (a : Addr) (t : Table) : option ptr := byVPN t !! a.
Definition LookupByEndpoint (ep : AddrPort) (t : Table) : option ptr := byEndpoint t !! ep.
Definition LookupByName (n : string) (t : Table) : option ptr := byName t !! to_lower n.

Definition Remove (id : list Z) (t : Table) : Table :=
  match byID t !! id with
  | None => t
  | Some p =>
      let t1 := {| entries := entries t; byID := delete id (byID t); byVPN := byVPN t;
                   byEndpoint := byEndpoint t; byName := byName t |} in
      match entries t !! p with Some e => unindex p e t1 | None => t1 end
  end.

Definition Len (t : Table) : nat := size (byID t).
Definition List (t : Table) : list ptr := (map_to_list (byID t)).*2.

Definition PeerLookupFn (t : Table) (ed25519Pub : list Z) : option (list Z) :=
  if negb (length ed25519Pub =? 32)%nat then None
  else p ← byID t !! ed25519Pub; X25519Pub <$> entries t !! p.

(** ** The invariant of the table *)

(** What every slot of an index satisfies: it refers to a peer of the table
    whose field has the slot's key. *)
Definition slot_ok {K} (field : Entry -> K) (valid : K -> bool) (t : Table) (k : K) (p : ptr) : Prop :=
  valid k = true /\ exists e, entries t !! p = Some e /\ field e = k /\ byID t !! ID e = Some p.

Definition name_key (e : Entry) : string := to_lower (Name e).
Definition name_valid (n : string) : bool := negb (String.eqb n "").

Record table_ok (t : Table) : Prop := {
  tk_id : forall id p, byID t !! id = Some p -> exists e, entries t !! p = Some e /\ ID e = id;
  tk_vpn : forall a p, byVPN t !! a = Some p -> slot_ok VPNAddr addr_valid t a p;
  tk_reach : forall id p e, byID t !! id = Some p -> entries t !! p = Some e ->
    addr_valid (VPNAddr e) = true -> byVPN t !! VPNAddr e = Some p;
  tk_ep : forall ep p, byEndpoint t !! ep = Some p -> slot_ok endpoint ap_valid t ep p;
  tk_name : forall n p, byName t !! n = Some p -> slot_ok name_key name_valid t n p
}.

(** ** Proofs about the indexes *)
Section Index.
Context {K : Type} `{Countable K}.

Lemma delete_if_Some (k : K) p m j q :
  delete_if k p m !! j = Some q <-> m !! j = Some q /\ ~ (j = k /\ q = p).
Proof.
  unfold delete_if. case_bool_decide as Hk.
  - rewrite lookup_delete_Some. destruct (decide (j = k)) as [->|]; [|naive_solver].
    rewrite Hk. naive_solver.
  - split; [|tauto]. intros Hj. split; [done|]. intros [-> ->]. done.
Qed.

(** A write to a slot, and the slots it leaves alone. *)
Lemma put_if_free_Some t (k : K) id p m j q :
  put_if_free t k id p m !! j = Some q -> (j = k /\ q = p) \/ m !! j = Some q.
Proof.
  unfold put_if_free. intros Hj.
  assert (<[k := p]> m !! j = Some q \/ m !! j = Some q) as [Hi|]; [|by apply lookup_insert_Some in Hi; naive_solver|auto].
  destruct (m !! k); [case_bool_decide|]; auto.
Qed.

Lemma put_if_free_other t (k : K) id p m j q :
  m !! j = Some q -> id_of t q <> Some id -> put_if_free t k id p m !! j = Some q.
Proof.
  intros Hj Hq. unfold put_if_free. destruct (m !! k) as [o|] eqn:E.
  - case_bool_decide as Ho; [|done]. rewrite lookup_insert_ne; [done|]. intros ->. congruence.
  - rewrite lookup_insert_ne; [done|]. intros ->. congruence.
Qed.

(** Dropping the slot of the entry at [p] drops every slot that refers to it. *)
Lemma drop_slot (field : Entry -> K) (valid : K -> bool) t (m : gmap K ptr) p e j q :
  (forall k r, m !! k = Some r -> slot_ok field valid t k r) -> entries t !! p = Some e ->
  (if valid (field e) then delete_if (field e) p m else m) !! j = Some q <-> m !! j = Some q /\ q <> p.
Proof.
  intros Hm Hp.
  assert (forall k, m !! k = Some p -> k = field e /\ valid (field e) = true) as Hkey.
  { intros k (Hv & e' & He' & Hk & _)%Hm. rewrite Hp in He'. injection He' as <-. subst. done. }
  destruct (valid (field e)) eqn:Hv.
  - rewrite delete_if_Some. split; intros [Hj Hne]; (split; [done|]).
    + intros ->. apply Hne. split; [|done]. by apply Hkey.
    + naive_solver.
  - split; [|tauto]. intros Hj. split; [done|]. intros ->. by apply Hkey in Hj as [_ ?].
Qed.
End Index.

Lemma name_valid_lower e : name_valid (name_key e) = negb (String.eqb (Name e) "").
Proof. unfold name_valid, name_key. by destruct (Name e). Qed.

(** The slots left by [unindex]. *)
Lemma unindex_slots t p e :
  table_ok t -> entries t !! p = Some e ->
  (forall a q, byVPN (unindex p e t) !! a = Some q <-> byVPN t !! a = Some q /\ q <> p) /\
  (forall a q, byEndpoint (unindex p e t) !! a = Some q <-> byEndpoint t !! a = Some q /\ q <> p) /\
  (forall a q, byName (unindex p e t) !! a = Some q <-> byName t !! a = Some q /\ q <> p).
Proof.
  intros Ht He. split_and!; intros a q; cbn [unindex byVPN byEndpoint byName].
  - rewrite <- (drop_slot VPNAddr addr_valid t (byVPN t) p e a q (tk_vpn _ Ht) He).
    destruct (addr_valid (VPNAddr e)) eqn:Hv; [done|]. unfold delete_if.
    case_bool_decide as Hk; [|done]. apply (tk_vpn _ Ht) in Hk as [? _]. congruence.
  - apply (drop_slot endpoint ap_valid t); [apply Ht|done].
  - rewrite <- (drop_slot name_key name_valid t (byName t) p e a q (tk_name _ Ht) He), name_valid_lower.
    by destruct (String.eqb (Name e) "").
Qed.

(** The table after the previous entry with the same ID has left the indexes. *)
Definition without_old (id : list Z) (t : Table) : Table :=
  match byID t !! id with
  | Some old => match entries t !! old with Some oe => unindex old oe t | None => t end
  | None => t
  end.

Lemma without_old_slots id t :
  table_ok t ->
  entries (without_old id t) = entries t /\ byID (without_old id t) = byID t /\
  (forall a q, byVPN (without_old id t) !! a = Some q <-> byVPN t !! a = Some q /\ byID t !! id <> Some q) /\
  (forall a q, byEndpoint (without_old id t) !! a = Some q <-> byEndpoint t !! a = Some q /\ byID t !! id <> Some q) /\
  (forall a q, byName (without_old id t) !! a = Some q <-> byName t !! a = Some q /\ byID t !! id <> Some q).
Proof.
  intros Ht. unfold without_old. destruct (byID t !! id) as [old|] eqn:E.
  - destruct (tk_id _ Ht _ _ E) as (oe & Ho & _). rewrite Ho.
    destruct (unindex_slots t old oe Ht Ho) as (H1 & H2 & H3).
    split_and!; try done; intros; rewrite ?H1, ?H2, ?H3; naive_solver.
  - split_and!; try done; intros; naive_solver.
Qed.

(** A slot of another peer survives the registration of [p] under [id]. *)
Lemma slot_ok_upsert {K} (field : Entry -> K) valid t t' id p k q :
  slot_ok field valid t k q -> byID t !! id <> Some q ->
  entries t' = entries t -> byID t' = <[id := p]> (byID t) -> slot_ok field valid t' k q.
Proof.
  intros (Hv & e & He & Hk & Hid) Hq Hent Hb. split; [done|]. exists e. rewrite Hent, Hb.
  split_and!; [done..|]. rewrite lookup_insert_ne; [done|]. intros ->. done.
Qed.

Lemma Upsert_ok p t : table_ok t -> table_ok (Upsert p t).2.
Proof.
  intros Ht. unfold Upsert. destruct (entries t !! p) as [e|] eqn:Hp; [|done].
  destruct (addr_valid (VPNAddr e) && _) eqn:Htaken; [done|]. fold (without_old (ID e) t).
  destruct (without_old_slots (ID e) t Ht) as (Hent & Hby & Hvpn & Hep & Hname).
  cbn [snd]. match goal with |- table_ok ?x => set (t' := x) end.
  assert (byID t' = <[ID e := p]> (byID t)) as Hb' by (cbn; by rewrite Hby).
  assert (forall K (field : Entry -> K) valid k q, slot_ok field valid t k q -> byID t !! ID e <> Some q ->
    slot_ok field valid t' k q) as Hkeep by (intros; by eapply slot_ok_upsert).
  assert (byID t' !! ID e = Some p) as Hme by (rewrite Hb'; apply lookup_insert_eq).
  assert (entries t' = entries t) as Hent' by done.
  split.
  - intros id q. rewrite Hb', Hent'. intros [[<- <-]|[_ Hq]]%lookup_insert_Some; [eauto|by apply Ht].
  - intros a q. cbn [byVPN t']. destruct (addr_valid (VPNAddr e)) eqn:Hv.
    + intros [[<- <-]|[_ [Hq Ho]%Hvpn]]%lookup_insert_Some.
      * split; [done|]. exists e. rewrite Hent'. done.
      * apply Hkeep; [by apply Ht|done].
    + intros [Hq Ho]%Hvpn. apply Hkeep; [by apply Ht|done].
  - intros id q e' Hid. rewrite Hent'. rewrite Hb' in Hid. intros Hq Hv'.
    apply lookup_insert_Some in Hid as [[<- <-]|[Hne Hid]].
    + rewrite Hp in Hq. injection Hq as <-. cbn [byVPN t']. rewrite Hv'. apply lookup_insert_eq.
    + pose proof (tk_reach _ Ht _ _ _ Hid Hq Hv') as Hreach.
      destruct (tk_id _ Ht _ _ Hid) as (e'' & He'' & Hid''). rewrite Hq in He''. injection He'' as <-.
      assert (byID t !! ID e <> Some q) as Ho.
      { intros (e3 & He3 & Hid3)%(tk_id _ Ht). congruence. }
      assert (byVPN (without_old (ID e) t) !! VPNAddr e' = Some q) as Hold by by apply Hvpn.
      cbn [byVPN t']. destruct (addr_valid (VPNAddr e)) eqn:Hv; [|done].
      rewrite lookup_insert_ne; [done|]. intros Heq. rewrite Heq, Hreach in Htaken.
      cbn in Htaken. apply negb_false_iff, bool_decide_eq_true in Htaken.
      unfold id_of in Htaken. rewrite Hq in Htaken. cbn in Htaken. congruence.
  - intros ep q. cbn [byEndpoint t']. destruct (ap_valid (endpoint e)) eqn:Hv.
    + intros [[-> ->]|[Hq Ho]%Hep]%put_if_free_Some.
      * split; [done|]. exists e. rewrite Hent'. done.
      * apply Hkeep; [by apply Ht|done].
    + intros [Hq Ho]%Hep. apply Hkeep; [by apply Ht|done].
  - intros n q. cbn [byName t']. destruct (String.eqb (Name e) "") eqn:Hv.
    + intros [Hq Ho]%Hname. apply Hkeep; [by apply Ht|done].
    + intros [[-> ->]|[Hq Ho]%Hname]%put_if_free_Some.
      * split; [fold (name_key e); by rewrite name_valid_lower, Hv|]. exists e. rewrite Hent'. done.
      * apply Hkeep; [by apply Ht|done].
Qed.

Lemma Remove_ok id t : table_ok t -> table_ok (Remove id t).
Proof.
  intros Ht. unfold Remove. destruct (byID t !! id) as [p|] eqn:Hid; [|done].
  destruct (tk_id _ Ht _ _ Hid) as (e & Hp & <-). rewrite Hp.
  destruct (unindex_slots t p e Ht Hp) as (Hvpn & Hep & Hname).
  match goal with |- table_ok ?x => set (t' := x) end.
  assert (forall K (field : Entry -> K) valid k q, slot_ok field valid t k q -> q <> p ->
    slot_ok field valid t' k q) as Hkeep.
  { intros K field valid k q (Hv & e' & He' & Hk & Hid') Hq. split; [done|]. exists e'.
    split_and!; [done..|]. cbn. rewrite lookup_delete_ne; [done|]. intros Heq. congruence. }
  split.
  - intros id' q Hq. cbn in Hq. apply lookup_delete_Some in Hq as [_ Hq]. by apply Ht.
  - intros a q [Hq Hne]%Hvpn. apply Hkeep; [by apply Ht|done].
  - intros id' q e' Hq Hq' Hv. cbn in Hq. apply lookup_delete_Some in Hq as [Hne Hq].
    apply Hvpn. split; [by eapply tk_reach|]. intros ->.
    destruct (tk_id _ Ht _ _ Hq) as (e2 & He2 & Hid2). cbn in Hq'. congruence.
  - intros ep q [Hq Hne]%Hep. apply Hkeep; [by apply Ht|done].
  - intros n q [Hq Hne]%Hname. apply Hkeep; [by apply Ht|done].
Qed.

(** A rewrite of entries that keeps the indexed fields keeps the invariant. *)
Definition same_keys (e e' : Entry) : Prop :=
  ID e' = ID e /\ VPNAddr e' = VPNAddr e /\ Name e' = Name e.

Lemma alter_fields g p (h : gmap ptr Entry) q e :
  (forall e, same_keys e (g e)) -> h !! q = Some e ->
  exists e', alter g p h !! q = Some e' /\ same_keys e e' /\ (q <> p -> e' = e).
Proof.
  intros Hg Hq. destruct (decide (p = q)) as [->|Hne].
  - exists (g e). rewrite lookup_alter_eq, Hq. by split_and!.
  - exists e. by rewrite lookup_alter_ne.
Qed.

Lemma alter_fields_inv g p (h : gmap ptr Entry) q e' :
  (forall e, same_keys e (g e)) -> alter g p h !! q = Some e' -> exists e, h !! q = Some e /\ same_keys e e'.
Proof.
  intros Hg. destruct (decide (p = q)) as [->|Hne].
  - rewrite lookup_alter_eq. destruct (h !! q) as [e|]; [|done]. intros [= <-]. eauto.
  - rewrite lookup_alter_ne by done. intros ->. exists e'. by split_and!.
Qed.

(** The indexes other than the endpoints survive changes of unindexed fields. *)
Lemma rewrite_ok t h (m : gmap AddrPort ptr) :
  table_ok t ->
  (forall q e, entries t !! q = Some e -> exists e', h !! q = Some e' /\ same_keys e e') ->
  (forall q e', h !! q = Some e' -> exists e, entries t !! q = Some e /\ same_keys e e') ->
  let t' := {| entries := h; byID := byID t; byVPN := byVPN t; byEndpoint := m; byName := byName t |} in
  (forall ep q, m !! ep = Some q -> slot_ok endpoint ap_valid t' ep q) -> table_ok t'.
Proof.
  intros Ht Hfwd Hbwd t' Hep.
  assert (forall K (field : Entry -> K) valid k q, (forall e e', same_keys e e' -> field e' = field e) ->
    slot_ok field valid t k q -> slot_ok field valid t' k q) as Hkeep.
  { intros K field valid k q Hf (Hv & e & He & Hk & Hid).
    destruct (Hfwd _ _ He) as (e' & He' & Hs). split; [done|]. exists e'. split_and!; [done|by rewrite (Hf e e')|].
    destruct Hs as (Hide & _). by rewrite Hide. }
  split.
  - intros id q Hq. destruct (tk_id _ Ht _ _ Hq) as (e & He & <-). destruct (Hfwd _ _ He) as (e' & He' & Hide & _).
    exists e'. split; [done|exact Hide].
  - intros a q Hq. apply Hkeep; [by intros ? ? (_ & ? & _)|by apply Ht].
  - intros id q e' Hq He' Hv. destruct (Hbwd _ _ He') as (e & He & _ & HV & _). rewrite HV in Hv |- *.
    by apply (tk_reach t Ht id q e).
  - done.
  - intros n q Hq. apply Hkeep; [|by apply Ht]. intros ? ? (_ & _ & HN). unfold name_key. by rewrite HN.
Qed.

(** Session, state, queue and last-seen updates of an entry. *)
Lemma entry_op_ok g p t :
  table_ok t -> (forall e, same_keys e (g e) /\ endpoint (g e) = endpoint e) ->
  table_ok (with_entries (alter g p (entries t)) t).
Proof.
  intros Ht Hg. apply (rewrite_ok t); [done|..].
  - intros q e Hq. edestruct (alter_fields g p (entries t) q e) as (e' & ? & ? & _); eauto. intros. apply Hg.
  - intros q e' Hq. apply (alter_fields_inv g p (entries t)); [|done]. intros. apply Hg.
  - intros ep q Hq. destruct (tk_ep _ Ht _ _ Hq) as (Hv & e & He & Hk & Hid). split; [done|].
    destruct (decide (p = q)) as [->|Hne].
    + exists (g e). cbn. rewrite lookup_alter_eq, He. destruct (Hg e) as [(Hide & _) Hend].
      rewrite Hide, Hend. done.
    + exists e. cbn. by rewrite lookup_alter_ne.
Qed.

Lemma setEndpoint_ok id ep claim t : table_ok t -> table_ok (setEndpoint id ep claim t).2.
Proof.
  intros Ht. unfold setEndpoint. destruct (byID t !! id) as [p|] eqn:Hid; [|done].
  destruct (tk_id _ Ht _ _ Hid) as (e & Hp & <-). cbv zeta.
  set (owner := if ap_valid ep then byEndpoint t !! ep else None).
  destruct (_ && negb claim); [done|]. cbn [snd].
  set (h1 := match owner with Some q => if negb (q =? p)%nat then alter (SetEndpoint ap_zero) q (entries t)
                                        else entries t | None => entries t end).
  assert (h1 !! p = Some e) as Hp1.
  { unfold h1. destruct owner as [q|]; [|done]. destruct (Nat.eqb_spec q p); cbn; [done|].
    by rewrite lookup_alter_ne. }
  assert (forall q, h1 !! q = entries t !! q \/ (owner = Some q /\ q <> p /\ h1 !! q = SetEndpoint ap_zero <$> entries t !! q)) as Hh1.
  { intros q. unfold h1. destruct owner as [o|]; [|by left]. destruct (Nat.eqb_spec o p); cbn; [by left|].
    destruct (decide (o = q)) as [->|]; [|left; by apply lookup_alter_ne]. right. by rewrite lookup_alter_eq. }
  rewrite Hp1.
  set (m1 := if ap_valid (endpoint e) then delete_if (endpoint e) p (byEndpoint t) else byEndpoint t).
  assert (forall k q, m1 !! k = Some q <-> byEndpoint t !! k = Some q /\ q <> p) as Hm1.
  { intros k q. apply (drop_slot endpoint ap_valid t); [apply Ht|done]. }
  apply (rewrite_ok t); [done|..].
  - intros q e0 Hq. destruct (Hh1 q) as [E|(_ & _ & E)]; rewrite Hq in E;
      (edestruct (alter_fields (SetEndpoint ep) p h1 q) as (e' & ? & ? & _); [by intros|exact E|]); eauto.
  - intros q e' (e0 & E & Hs)%(alter_fields_inv (SetEndpoint ep) p h1); [|done].
    destruct (Hh1 q) as [E1|(_ & _ & E1)]; rewrite E in E1; [eauto|].
    destruct (entries t !! q) as [e1|] eqn:Hq; [|done]. injection E1 as ->. exists e1. done.
  - intros k q Hk.
    assert ((ap_valid ep = true /\ k = ep /\ q = p) \/ ((ap_valid ep = true -> k <> ep) /\ m1 !! k = Some q)) as [(Hv & -> & ->)|[Hne Hk1]].
    { destruct (ap_valid ep); [|by right]. apply lookup_insert_Some in Hk; naive_solver. }
    + split; [done|]. exists (SetEndpoint ep e). cbn. rewrite lookup_alter_eq, Hp1. by split_and!.
    + apply Hm1 in Hk1 as [Hk1 Hqp]. destruct (tk_ep _ Ht _ _ Hk1) as (Hv & e0 & He0 & He0k & Hid0).
      split; [done|]. exists e0. cbn. rewrite lookup_alter_ne by done. split_and!; [|done..].
      destruct (Hh1 q) as [->|(Ho & _)]; [done|]. exfalso. unfold owner in Ho.
      destruct (ap_valid ep) eqn:Hvep; [|done]. destruct (tk_ep _ Ht _ _ Ho) as (_ & e1 & He1 & He1k & _).
      apply Hne; [done|]. congruence.
Qed.

(** ** Properties of the table *)

(** Every operation on the table and on its entries. *)
Inductive peer_step : Table -> Table -> Prop :=
| PS_insert t p e : entries t !! p = None -> peer_step t (Upsert p (with_entries (<[p := e]> (entries t)) t)).2
| PS_upsert t p : peer_step t (Upsert p t).2
| PS_remove t id : peer_step t (Remove id t)
| PS_update t id ep : peer_step t (UpdateEndpoint id ep t).2
| PS_claim t id ep : peer_step t (ClaimEndpoint id ep t).2
| PS_session t p s : peer_step t (with_entries (alter (SetSession s) p (entries t)) t)
| PS_pending t p s : peer_step t (with_entries (alter (SetPendingSession s) p (entries t)) t)
| PS_promote t p : peer_step t (with_entries (alter (fun e => (PromotePendingSession e).2) p (entries t)) t)
| PS_state t p st : peer_step t (with_entries (alter (SetState st) p (entries t)) t)
| PS_touch t p now : peer_step t (with_entries (alter (Touch now) p (entries t)) t)
| PS_enqueue t p pkt : peer_step t (with_entries (alter (fun e => (Enqueue pkt e).2) p (entries t)) t)
| PS_drain t p : peer_step t (with_entries (alter (fun e => (DrainQueue e).2) p (entries t)) t).

Lemma new_entry_ok t p e : table_ok t -> entries t !! p = None -> table_ok (with_entries (<[p := e]> (entries t)) t).
Proof.
  intros Ht Hp.
  assert (forall q e', entries t !! q = Some e' -> <[p := e]> (entries t) !! q = Some e') as Hfwd.
  { intros q e' Hq. rewrite lookup_insert_ne; [done|]. intros ->. congruence. }
  assert (forall K (field : Entry -> K) valid k q, slot_ok field valid t k q ->
    slot_ok field valid (with_entries (<[p := e]> (entries t)) t) k q) as Hkeep.
  { intros K field valid k q (Hv & e' & He' & Hk & Hid). split; [done|]. exists e'. cbn. auto. }
  split; cbn.
  - intros id q (e' & He' & Hid)%(tk_id _ Ht). eauto.
  - intros a q Hq. apply Hkeep. by apply Ht.
  - intros id q e' Hq Hq' Hv. destruct (tk_id _ Ht _ _ Hq) as (e2 & He2 & _).
    pose proof (Hfwd _ _ He2) as He3. rewrite Hq' in He3. injection He3 as ->. by eapply tk_reach.
  - intros ep q Hq. apply Hkeep. by apply Ht.
  - intros n q Hq. apply Hkeep. by apply Ht.
Qed.

Lemma peer_step_ok t t' : peer_step t t' -> table_ok t -> table_ok t'.
Proof.
  destruct 1; intros Ht; unfold UpdateEndpoint, ClaimEndpoint; auto using Upsert_ok, new_entry_ok, Remove_ok, setEndpoint_ok;
    try (apply entry_op_ok; [done|]; intros e; by split_and!).
  - apply entry_op_ok; [done|]. intros e. unfold PromotePendingSession. destruct (pendingSession e); by split_and!.
  - apply entry_op_ok; [done|]. intros e. unfold Enqueue. destruct (_ <=? _)%nat; by split_and!.
Qed.

Lemma New_ok : table_ok New.
Proof. split; intros *; cbn; rewrite lookup_empty; done. Qed.

(** C36: after any sequence of operations the four indexes agree: every slot
    refers to a peer of the table that has the slot's address, endpoint or
    name; every peer with a valid VPN address is reached by that address; and
    two peers never share a VPN address. *)
Theorem peer_table_invariant t :
  rtc peer_step New t ->
  table_ok t /\
  (forall id1 id2 p1 p2 e1 e2, byID t !! id1 = Some p1 -> byID t !! id2 = Some p2 ->
     entries t !! p1 = Some e1 -> entries t !! p2 = Some e2 ->
     addr_valid (VPNAddr e1) = true -> VPNAddr e1 = VPNAddr e2 -> id1 = id2).
Proof.
  intros Hr. assert (table_ok t) as Ht.
  { revert Hr. apply (rtc_ind_r table_ok); [apply New_ok|]. intros; by eapply peer_step_ok. }
  split; [done|]. intros id1 id2 p1 p2 e1 e2 H1 H2 E1 E2 Hv Heq.
  pose proof (tk_reach _ Ht _ _ _ H1 E1 Hv) as R1. rewrite Heq in Hv.
  pose proof (tk_reach _ Ht _ _ _ H2 E2 Hv) as R2. rewrite Heq, R2 in R1. injection R1 as ->.
  destruct (tk_id _ Ht _ _ H1) as (? & ? & ?), (tk_id _ Ht _ _ H2) as (? & ? & ?). congruence.
Qed.

(** When [Upsert] refuses. *)
Lemma Upsert_refused t p e :
  table_ok t -> entries t !! p = Some e ->
  (Upsert p t).1 = false <-> exists q, byVPN t !! VPNAddr e = Some q /\ id_of t q <> Some (ID e).
Proof.
  intros Ht Hp. unfold Upsert. rewrite Hp. destruct (byVPN t !! VPNAddr e) as [q|] eqn:E.
  - destruct (tk_vpn _ Ht _ _ E) as [-> _]. cbn [andb]. case_bool_decide as Hid; cbn; [naive_solver|].
    split; [eauto|done].
  - rewrite andb_false_r. cbn. naive_solver.
Qed.

Lemma other_not_owner t q id : table_ok t -> id_of t q <> Some id -> byID t !! id <> Some q.
Proof.
  intros Ht Hq Hid. destruct (tk_id _ Ht _ _ Hid) as (e & He & Hi). apply Hq. unfold id_of. rewrite He. cbn. congruence.
Qed.

Lemma Upsert_keeps_others t p e q :
  table_ok t -> entries t !! p = Some e -> id_of t q <> Some (ID e) ->
  (forall a, byVPN t !! a = Some q -> byVPN (Upsert p t).2 !! a = Some q) /\
  (forall ep, byEndpoint t !! ep = Some q -> byEndpoint (Upsert p t).2 !! ep = Some q) /\
  (forall n, byName t !! n = Some q -> byName (Upsert p t).2 !! n = Some q).
Proof.
  intros Ht Hp Hq. unfold Upsert. rewrite Hp.
  destruct (addr_valid (VPNAddr e) && _) eqn:Htaken; [done|]. fold (without_old (ID e) t).
  destruct (without_old_slots (ID e) t Ht) as (Hent & Hby & Hvpn & Hep & Hname).
  pose proof (other_not_owner _ _ _ Ht Hq) as Ho.
  assert (id_of (without_old (ID e) t) q <> Some (ID e)) as Hq' by (unfold id_of in *; by rewrite Hent).
  cbn [snd byVPN byEndpoint byName]. split_and!.
  - intros a Ha. assert (byVPN (without_old (ID e) t) !! a = Some q) by by apply Hvpn.
    destruct (addr_valid (VPNAddr e)) eqn:Hv; [|done]. rewrite lookup_insert_ne; [done|].
    intros <-. rewrite Ha in Htaken. cbn in Htaken. by apply negb_false_iff, bool_decide_eq_true in Htaken.
  - intros ep Ha. assert (byEndpoint (without_old (ID e) t) !! ep = Some q) by by apply Hep.
    destruct (ap_valid (endpoint e)); [|done]. by apply put_if_free_other.
  - intros n Ha. assert (byName (without_old (ID e) t) !! n = Some q) by by apply Hname.
    destruct (String.eqb (Name e) ""); [done|]. by apply put_if_free_other.
Qed.

Lemma UpdateEndpoint_keeps_others t id ep q k :
  table_ok t -> id_of t q <> Some id -> byEndpoint t !! k = Some q ->
  byEndpoint (UpdateEndpoint id ep t).2 !! k = Some q.
Proof.
  intros Ht Hq Hk. pose proof (other_not_owner _ _ _ Ht Hq) as Ho. unfold UpdateEndpoint, setEndpoint.
  destruct (byID t !! id) as [p|] eqn:Hid; [|done]. cbv zeta.
  destruct (tk_id _ Ht _ _ Hid) as (e & Hp & _).
  assert (q <> p) as Hqp by congruence.
  destruct (decide (k = ep)) as [->|Hne].
  - destruct (tk_ep _ Ht _ _ Hk) as [-> _]. rewrite Hk. by rewrite (proj2 (Nat.eqb_neq _ _)).
  - destruct (_ && negb false) eqn:E; [done|]. cbn [snd byEndpoint].
    set (old := match _ with Some e0 => endpoint e0 | None => ap_zero end).
    assert ((if ap_valid old then delete_if old p (byEndpoint t) else byEndpoint t) !! k = Some q) as Hm.
    { destruct (ap_valid old); [|done]. apply delete_if_Some. naive_solver. }
    destruct (ap_valid ep); [|done]. by rewrite lookup_insert_ne.
Qed.

(** no takeover by an unauthenticated source: [Upsert] refuses exactly an
    entry whose VPN address belongs to another peer, and whether it refuses or
    not every address, endpoint and name slot of every other peer is kept, as
    [UpdateEndpoint] keeps every slot of every other peer; a stored entry is
    found by its ID and its VPN address. *)
Theorem no_takeover t p e ok t' :
  table_ok t -> entries t !! p = Some e -> Upsert p t = (ok, t') ->
  (ok = false <-> exists q, byVPN t !! VPNAddr e = Some q /\ id_of t q <> Some (ID e)) /\
  (ok = true -> LookupByID (ID e) t' = Some p /\
     (addr_valid (VPNAddr e) = true -> LookupByVPN (VPNAddr e) t' = Some p)) /\
  (forall q, id_of t q <> Some (ID e) ->
     (forall a, byVPN t !! a = Some q -> byVPN t' !! a = Some q) /\
     (forall ep, byEndpoint t !! ep = Some q -> byEndpoint t' !! ep = Some q) /\
     (forall n, byName t !! n = Some q -> byName t' !! n = Some q)) /\
  (forall id ep q k, id_of t q <> Some id -> byEndpoint t !! k = Some q ->
     byEndpoint (UpdateEndpoint id ep t).2 !! k = Some q).
Proof.
  intros Ht Hp HU. pose proof (Upsert_refused t p e Ht Hp) as Href.
  pose proof (Upsert_keeps_others t p e) as Hothers. rewrite HU in Href, Hothers. cbn [fst snd] in *.
  split_and!; [done| |by auto|by intros; apply UpdateEndpoint_keeps_others].
  intros ->. unfold Upsert in HU. rewrite Hp in HU. destruct (_ && _); [done|]. injection HU as <-.
  unfold LookupByID, LookupByVPN. cbn [byID byVPN]. split; [apply lookup_insert_eq|].
  intros ->. apply lookup_insert_eq.
Qed.

(** a handshake authenticated as [id] from [ep] moves the endpoint: packets
    from [ep] are attributed to that peer, the peer that held [ep] before is
    left without endpoint, and no other peer loses its endpoint. *)
Theorem ClaimEndpoint_moves t id p e ep :
  table_ok t -> byID t !! id = Some p -> entries t !! p = Some e -> ap_valid ep = true ->
  let t' := (ClaimEndpoint id ep t).2 in
  LookupByEndpoint ep t' = Some p /\
  (endpoint <$> entries t' !! p) = Some ep /\
  (forall q, byEndpoint t !! ep = Some q -> q <> p -> (endpoint <$> entries t' !! q) = Some ap_zero) /\
  (forall k q, byEndpoint t !! k = Some q -> k <> ep -> q <> p -> byEndpoint t' !! k = Some q).
Proof.
  intros Ht Hid Hp Hv. unfold ClaimEndpoint, setEndpoint, LookupByEndpoint. rewrite Hid, Hv, andb_false_r.
  cbn [snd byEndpoint entries]. split_and!.
  - apply lookup_insert_eq.
  - rewrite lookup_alter_eq. destruct (byEndpoint t !! ep) as [q|]; [|by rewrite Hp].
    destruct (Nat.eqb_spec q p); cbn [negb]; [by rewrite Hp|]. by rewrite lookup_alter_ne, Hp.
  - intros q Hq Hne. rewrite Hq, (proj2 (Nat.eqb_neq _ _)) by done. cbn [negb].
    rewrite lookup_alter_ne, lookup_alter_eq by done.
    destruct (tk_ep _ Ht _ _ Hq) as (_ & e' & He' & _). by rewrite He'.
  - intros k q Hk Hne Hqp. rewrite lookup_insert_ne by done.
    set (old := match _ with Some e0 => endpoint e0 | None => ap_zero end).
    destruct (ap_valid old); [|done]. apply delete_if_Some. naive_solver.
Qed.

(** The hold queue is a FIFO of at most [HoldQueueMax] packets. *)
Definition queue_all (pkts : list (list Z)) (e : Entry) : Entry :=
  foldl (fun e pkt => (Enqueue pkt e).2) e pkts.

Lemma queue_all_app pkts e :
  (length (holdQueue e) <= HoldQueueMax)%nat ->
  holdQueue (queue_all pkts e) = take HoldQueueMax (holdQueue e ++ pkts).
Proof.
  unfold queue_all. revert e. induction pkts as [|pkt pkts IH]; intros e He; cbn [foldl].
  - rewrite app_nil_r, take_ge by lia. done.
  - unfold Enqueue at 2. destruct (Nat.leb_spec HoldQueueMax (length (holdQueue e))); cbn [snd].
    + rewrite IH by done. rewrite !take_app_le by lia. done.
    + rewrite IH by (cbn [holdQueue with_queue]; rewrite length_app; cbn; lia).
      cbn [holdQueue with_queue]. by rewrite <- app_assoc.
Qed.

(** the hold queue keeps the first 64 packets, in order and unchanged: of
    any burst held for a peer, draining gives the longest prefix that fits and
    leaves the queue empty. *)
Theorem hold_queue_fifo pkts e :
  holdQueue e = [] ->
  let '(q, e') := DrainQueue (queue_all pkts e) in
  q = take HoldQueueMax pkts /\ holdQueue e' = [].
Proof.
  intros He. cbn. split; [|done]. rewrite queue_all_app; rewrite He; [done|cbn; lia].
Qed.

(** ** Witnesses *)
Definition demo_peer (n : Z) (name : string) (ep : AddrPort) : Entry :=
  {| ID := replicate 32 n; X25519Pub := replicate 32 n; VPNAddr := Addr4 (0x0A000000 + n); Name := name;
     SubnetRoutes := []; endpoint := ep; session := None; pendingSession := None; prevSession := None;
     state := StatePending; lastSeen := 0; holdQueue := [] |}.
Definition demo_ep (n : Z) : AddrPort := {| ap_addr := Addr4 (0xC0000200 + n); ap_port := 51820 |}.
Definition demo_t1 : Table :=
  (Upsert 1 (with_entries (<[1%nat := demo_peer 1 "alice" (demo_ep 1)]> (entries New)) New)).2.
Definition demo_t2 : Table :=
  (Upsert 2 (with_entries (<[2%nat := demo_peer 2 "bob" (demo_ep 2)]> (entries demo_t1)) demo_t1)).2.

Lemma demo_t2_reach : rtc peer_step New demo_t2.
Proof.
  eapply rtc_l; [apply (PS_insert New 1 (demo_peer 1 "alice" (demo_ep 1))); reflexivity|].
  apply rtc_once. apply (PS_insert demo_t1 2 (demo_peer 2 "bob" (demo_ep 2))). vm_compute. reflexivity.
Qed.

Lemma demo_t2_ok : table_ok demo_t2.
Proof.
  generalize demo_t2_reach. apply (rtc_ind_r table_ok); [apply New_ok|]. intros; by eapply peer_step_ok.
Qed.

Lemma peer_table_invariant_witness : table_ok demo_t2 /\ Len demo_t2 = 2%nat.
Proof.
  split; [exact (proj1 (peer_table_invariant demo_t2 demo_t2_reach))|vm_compute; reflexivity].
Defined.

(** A third peer that claims bob's address is refused. *)
Definition demo_impostor : Entry :=
  {| ID := replicate 32 3; X25519Pub := []; VPNAddr := Addr4 0x0A000002; Name := "ALICE"; SubnetRoutes := [];
     endpoint := demo_ep 1; session := None; pendingSession := None; prevSession := None;
     state := StatePending; lastSeen := 0; holdQueue := [] |}.
Definition demo_t3 : Table := with_entries (<[3%nat := demo_impostor]> (entries demo_t2)) demo_t2.

Lemma no_takeover_witness : (Upsert 3 demo_t3).1 = false.
Proof.
  assert (entries demo_t2 !! 3%nat = None) as Hfree by (vm_compute; reflexivity).
  refine (proj2 (proj1 (no_takeover demo_t3 3 demo_impostor _ _ (new_entry_ok demo_t2 3 _ demo_t2_ok Hfree) _
            (surjective_pairing (Upsert 3 demo_t3)))) _).
  - vm_compute. reflexivity.
  - exists 2%nat. split; [vm_compute; reflexivity|]. vm_compute. discriminate.
Defined.

Lemma ClaimEndpoint_moves_witness :
  LookupByEndpoint (demo_ep 1) (ClaimEndpoint (replicate 32 2) (demo_ep 1) demo_t2).2 = Some 2%nat.
Proof.
  refine (proj1 (ClaimEndpoint_moves demo_t2 (replicate 32 2) 2 (demo_peer 2 "bob" (demo_ep 2)) (demo_ep 1)
    demo_t2_ok _ _ _)); vm_compute; reflexivity.
Defined.

Lemma hold_queue_fifo_witness :
  (DrainQueue (queue_all [[1]; [2]] (demo_peer 1 "alice" (demo_ep 1)))).1 = [[1]; [2]].
Proof.
  exact (proj1 (hold_queue_fifo [[1]; [2]] (demo_peer 1 "alice" (demo_ep 1)) eq_refl)).
Defined.

End PeerTable.
