(* ===== verification/Dispatcher.v ===== *)
(** * The data plane

    Models [src/internal/dataplane/packet.go] and
    [src/internal/dataplane/dispatcher.go]: the handlers of one packet from the
    TUN device and of one packet from the UDP socket, over the peer table, the
    sessions, the policy, the flow table and the drop counters.  What a handler
    does outside (a datagram, a write to the TUN, a callback) is an [event] of
    its result.  [None] is a run-time panic, or an eviction loop of the flow
    table that [fuel] rounds do not finish. *)
From Stdlib Require Import ZArith Lia.
From stdpp Require Import base numbers list gmap strings fin_maps.
From S2P Require Import Prelude Session AclPolicy AclCompile AclParse FlowTable PeerTable.
Import AclPolicy.Policy AclCompile.Compiled AclCompile.Combined AclCompile.Loader
  AclParse.Parse FlowTable.FlowTable PeerTable.Netip PeerTable.PeerTable.

Module Wire.

Definition HeaderSize : nat := 16.
Definition TypeData : Z := 1.
Definition TypeHandshakeInit : Z := 2.
Definition TypeHandshakeResp : Z := 3.
Definition TypeKeepalive : Z := 4.
Definition TypeNATProbe : Z := 5.

Definition buildDataPacket (nonce : Z) (ct : list Z) : list Z :=
  be_put 4 TypeData ++ be_put 4 0 ++ be_put 8 nonce ++ ct.

(** The header of a packet of at least [HeaderSize] bytes: type, sender index,
    nonce. *)
Definition parseHeader (hdr : list Z) : option (Z * Z * Z) :=
  a ← sub hdr 0 4; t ← be_uint 4 a;
  b ← sub hdr 4 8; i ← be_uint 4 b;
  c ← sub hdr 8 16; n ← be_uint 8 c;
  Some (t, i, n).

(** A packet of any type. *)
Lemma parseHeader_packet ty nonce ct :
  0 <= ty < 2 ^ 32 -> 0 <= nonce < 2 ^ 64 ->
  let pkt := be_put 4 ty ++ be_put 4 0 ++ be_put 8 nonce ++ ct in
  (hdr ← sub pkt 0 HeaderSize; parseHeader hdr) = Some (ty, 0, nonce) /\ sub_from pkt HeaderSize = Some ct.
Proof.
  intros Hty Hn pkt. unfold pkt.
  set (a := be_put 4 ty). set (b := be_put 4 0). set (c := be_put 8 nonce).
  assert (length a = 4%nat /\ length b = 4%nat /\ length c = 8%nat) as (La & Lb & Lc)
    by (split_and!; apply length_be_put).
  assert (be_get c = nonce) as Gc by (unfold c; rewrite be_get_put; apply Z.mod_small; exact Hn).
  assert (be_get a = ty) as Ga by (unfold a; rewrite be_get_put; apply Z.mod_small; exact Hty). assert (be_get b = 0) as Gb by reflexivity.
  clearbody a b c. unfold HeaderSize.
  destruct a as [|a0 [|a1 [|a2 [|a3 [|]]]]]; try discriminate La.
  destruct b as [|b0 [|b1 [|b2 [|b3 [|]]]]]; try discriminate Lb.
  destruct c as [|c0 [|c1 [|c2 [|c3 [|c4 [|c5 [|c6 [|c7 [|]]]]]]]]]; try discriminate Lc.
  cbn [app]. split.
  - rewrite sub_Some by (cbn; lia). cbn [Nat.sub take drop]. rewrite bind_Some_eq.
    unfold parseHeader, be_uint. rewrite !sub_Some by (cbn; lia). cbn [Nat.sub take drop].
    repeat (rewrite bind_Some_eq; cbn [length]; rewrite ?decide_True by lia; cbn [take]).
    by rewrite !take_0, Ga, Gb, Gc.
  - rewrite sub_from_Some by (cbn; lia). done.
Qed.
Lemma parseHeader_build nonce ct :
  0 <= nonce < 2 ^ 64 ->
  (hdr ← sub (buildDataPacket nonce ct) 0 HeaderSize; parseHeader hdr) = Some (TypeData, 0, nonce) /\
  sub_from (buildDataPacket nonce ct) HeaderSize = Some ct.
Proof. apply (parseHeader_packet TypeData nonce ct). by vm_compute. Qed.

(** what [buildDataPacket] writes [parseHeader] reads back: the type, the
    reserved index, the nonce and, after the header, the ciphertext. *)
Theorem data_packet_roundtrip nonce ct :
  0 <= nonce < 2 ^ 64 ->
  exists hdr, sub (buildDataPacket nonce ct) 0 HeaderSize = Some hdr /\
    parseHeader hdr = Some (TypeData, 0, nonce) /\
    sub_from (buildDataPacket nonce ct) HeaderSize = Some ct.
Proof.
  intros Hn. destruct (parseHeader_build nonce ct Hn) as [H1 H2].
  destruct (sub (buildDataPacket nonce ct) 0 HeaderSize) as [hdr|]; [|done]. exists hdr. done.
Qed.

Lemma data_packet_roundtrip_witness :
  exists hdr, sub (buildDataPacket 7 [1; 2; 3]) 0 HeaderSize = Some hdr /\
    parseHeader hdr = Some (TypeData, 0, 7) /\
    sub_from (buildDataPacket 7 [1; 2; 3]) HeaderSize = Some [1; 2; 3].
Proof. apply (data_packet_roundtrip 7 [1; 2; 3]). lia. Defined.

End Wire.

Module Reject.

(** [buildTCPRST]: the addresses passed along with the flow are not used. *)
Definition buildTCPRST (flow : Flow) : list Z :=
  if IPv6 flow then
    [0x60; 0; 0; 0] ++ be_put 2 20 ++ [6; 64] ++ DstIP flow ++ SrcIP flow
    ++ be_put 2 (DstPort flow) ++ be_put 2 (SrcPort flow) ++ be_put 4 0 ++ be_put 4 0
    ++ [0x50; 0x04] ++ zeros 6
  else
    [0x45; 0] ++ be_put 2 40 ++ be_put 2 0 ++ be_put 2 0 ++ [64; 6] ++ zeros 2
    ++ drop 12 (DstIP flow) ++ drop 12 (SrcIP flow)
    ++ be_put 2 (DstPort flow) ++ be_put 2 (SrcPort flow) ++ be_put 4 0 ++ be_put 4 0
    ++ [0x50; 0x04] ++ zeros 6.

Definition buildICMPAdminProhibited (flow : Flow) (originalPkt : list Z) : list Z :=
  if IPv6 flow then
    let quotedLen := Nat.min (1280 - 40 - 8) (length originalPkt) in
    [0x60; 0; 0; 0] ++ be_put 2 (u16 (8 + Z.of_nat quotedLen)) ++ [58; 64]
    ++ DstIP flow ++ SrcIP flow ++ [1; 1] ++ zeros 6 ++ take quotedLen originalPkt
  else
    let maxQuoted := Nat.min (576 - 20 - 8) (length originalPkt) in
    [0x45; 0] ++ be_put 2 (u16 (20 + 8 + Z.of_nat maxQuoted)) ++ be_put 2 0 ++ be_put 2 0
    ++ [64; 1] ++ zeros 2 ++ drop 12 (DstIP flow) ++ drop 12 (SrcIP flow)
    ++ [3; 13] ++ zeros 6 ++ take maxQuoted originalPkt.

(** A plain IPv4 header, without options and not a fragment. *)
Lemma ParsePacket_v4 tos len ident ttl proto cs src dst transport :
  length len = 2%nat -> length ident = 2%nat -> length cs = 2%nat -> length src = 4%nat -> length dst = 4%nat ->
  (4 <= length transport)%nat ->
  ParsePacket ([0x45; tos] ++ len ++ ident ++ [0; 0] ++ [ttl; proto] ++ cs ++ src ++ dst ++ transport) =
  parseTransport {| SrcIP := zeros 12 ++ src; DstIP := zeros 12 ++ dst; SrcPort := 0; DstPort := 0;
                    FProto := proto; IPv6 := false |} proto transport.
Proof.
  intros Hl Hi Hc Hs Hd Ht.
  destruct len as [|l0 [|l1 [|]]]; try discriminate Hl. destruct ident as [|i0 [|i1 [|]]]; try discriminate Hi.
  destruct cs as [|c0 [|c1 [|]]]; try discriminate Hc.
  destruct src as [|s0 [|s1 [|s2 [|s3 [|]]]]]; try discriminate Hs.
  destruct dst as [|d0 [|d1 [|d2 [|d3 [|]]]]]; try discriminate Hd.
  cbn [app]. match goal with |- ParsePacket ?x = _ => set (pkt := x) end.
  assert (length pkt = (20 + length transport)%nat) as Hlen by done.
  assert (idx pkt 0 = Some 0x45) as E0 by reflexivity. assert (idx pkt 9 = Some proto) as E9 by reflexivity.
  assert (sub pkt 12 16 = Some [s0; s1; s2; s3]) as Es by (rewrite sub_Some by lia; reflexivity).
  assert (sub pkt 16 20 = Some [d0; d1; d2; d3]) as Ed by (rewrite sub_Some by lia; reflexivity).
  assert (u16_at pkt 6 = Some 0) as E6 by (unfold u16_at; rewrite sub_Some by lia; reflexivity).
  assert (exists v, u16_at pkt 2 = Some v) as [v E2]
    by (eexists; unfold u16_at; rewrite sub_Some by lia; reflexivity).
  assert (sub_from pkt 20 = Some transport) as Et by (rewrite sub_from_Some by lia; reflexivity).
  unfold ParsePacket, parseIPv4. rewrite !(proj2 (Nat.ltb_ge (length pkt) 20)) by lia.
  rewrite E0, E9, Es, Ed, E6, E2. repeat (rewrite bind_Some_eq; cbv zeta).
  change (Z.shiftr 0x45 4 =? 4) with true. cbv iota. repeat (rewrite bind_Some_eq; cbv zeta).
  change (Z.land 0x45 15) with 5. change (Z.to_nat (5 * 4)) with 20%nat. change (5 <? 5) with false. cbv iota.
  rewrite !(proj2 (Nat.ltb_ge (length pkt) 20)) by lia. repeat (rewrite bind_Some_eq; cbv zeta).
  change (0 <? Z.land 0 0x1FFF) with false. cbv iota.
  rewrite (proj2 (Nat.ltb_ge (length pkt) (20 + 4))), Et, bind_Some_eq by lia. reflexivity.
Qed.

(** A plain IPv6 header. *)
Lemma ParsePacket_v6 plen p src dst transport :
  length src = 16%nat -> length dst = 16%nat -> transport <> [] -> 0 <= plen < 65536 ->
  p = ProtoTCP \/ p = ProtoUDP \/ p = ProtoICMP \/ p = ProtoICMPv6 ->
  ParsePacket ([0x60; 0; 0; 0] ++ be_put 2 plen ++ [p; 64] ++ src ++ dst ++ transport) =
  parseTransport {| SrcIP := src; DstIP := dst; SrcPort := 0; DstPort := 0; FProto := p; IPv6 := true |} p transport.
Proof.
  intros Hs Hd Ht Hpl Hp.
  assert (be_get (be_put 2 plen) = plen) as Hget by (rewrite be_get_put; apply Z.mod_small; exact Hpl).
  pose proof (length_be_put 2 plen) as Hlb. destruct (be_put 2 plen) as [|b0 [|b1 [|]]]; try discriminate Hlb.
  set (hdr := 0x60 :: 0 :: 0 :: 0 :: b0 :: b1 :: p :: 64 :: src ++ dst).
  assert (length hdr = 40%nat) as Hlen by (cbn; rewrite length_app; lia).
  assert (u16_at hdr 4 = Some plen) as Hu.
  { rewrite <- Hget. apply (u16_at_pair [0x60; 0; 0; 0]). }
  pose proof (ParsePacket_chain hdr [] p transport 0x60 plen Hlen eq_refl eq_refl Hu eq_refl) as H.
  cbn [chain_bytes app length] in H.
  replace ([0x60; 0; 0; 0] ++ [b0; b1] ++ [p; 64] ++ src ++ dst ++ transport) with (hdr ++ transport)
    by (cbn; by rewrite <- app_assoc).
  rewrite H by (done || lia || constructor).
  change (drop 8 hdr) with (src ++ dst). change (drop 24 hdr) with (drop 16 (src ++ dst)).
  by rewrite take_app_length', drop_app_length'.
Qed.

(** A TCP header as the rejection builds it. *)
Lemma parseTCP_rst f sp dp :
  0 <= sp < 65536 -> 0 <= dp < 65536 ->
  parseTCP f (be_put 2 sp ++ be_put 2 dp ++ be_put 4 0 ++ be_put 4 0 ++ [0x50; 0x04] ++ zeros 6) =
  Some (set_ports f sp dp, KindEnd, None).
Proof.
  intros Hsp Hdp.
  assert (be_get (be_put 2 sp) = sp) as Gs by (rewrite be_get_put; apply Z.mod_small; exact Hsp).
  assert (be_get (be_put 2 dp) = dp) as Gd by (rewrite be_get_put; apply Z.mod_small; exact Hdp).
  pose proof (length_be_put 2 sp) as Ls. destruct (be_put 2 sp) as [|s0 [|s1 [|]]]; try discriminate Ls.
  pose proof (length_be_put 2 dp) as Ld. destruct (be_put 2 dp) as [|d0 [|d1 [|]]]; try discriminate Ld.
  match goal with |- parseTCP _ ?x = _ => set (tcp := x) end.
  assert (u16_at tcp 0 = Some sp) as E0.
  { rewrite <- Gs. apply (u16_at_pair []). }
  assert (u16_at tcp 2 = Some dp) as E2.
  { rewrite <- Gd. apply (u16_at_pair [s0; s1]). }
  unfold parseTCP. rewrite E0, E2. reflexivity.
Qed.

(** The flow of the rejection, as the parser stores addresses. *)
Definition v4_part (ip : list Z) : list Z := zeros 12 ++ drop 12 ip.

(** the TCP reset injected for a denied connection is a well-formed packet
    of the opposite direction that ends the connection: it parses without error
    to the swapped addresses and ports, with kind "end". *)
Theorem buildTCPRST_parses f :
  flow_ok f ->
  ParsePacket (buildTCPRST f) =
  Some ({| SrcIP := if IPv6 f then DstIP f else v4_part (DstIP f);
           DstIP := if IPv6 f then SrcIP f else v4_part (SrcIP f);
           SrcPort := DstPort f; DstPort := SrcPort f; FProto := ProtoTCP; IPv6 := IPv6 f |}, KindEnd, None).
Proof.
  intros [[_ Hs] [_ Hd] Hsp Hdp _]. unfold buildTCPRST. destruct (IPv6 f).
  - rewrite ParsePacket_v6; [|done..|lia|by left].
    unfold parseTransport. cbn [Z.eqb ProtoTCP Pos.eqb]. by rewrite parseTCP_rst.
  - change [64; 6] with ([64; ProtoTCP]). change (be_put 2 0) with [0; 0] at 2.
    rewrite ParsePacket_v4 by
      (repeat rewrite ?length_be_put, ?length_drop, ?length_app; unfold zeros; rewrite ?length_replicate; cbn [length]; lia).
    unfold parseTransport. cbn [Z.eqb ProtoTCP Pos.eqb]. by rewrite parseTCP_rst.
Qed.

Lemma buildTCPRST_parses_witness :
  ParsePacket (buildTCPRST (demo_flow 1 2)) =
  Some ({| SrcIP := zeros 12 ++ [10; 0; 0; 2]; DstIP := zeros 12 ++ [10; 0; 0; 1];
           SrcPort := 80; DstPort := 1000; FProto := 6; IPv6 := false |}, KindEnd, None).
Proof.
  refine (buildTCPRST_parses (demo_flow 1 2) _).
  split; try (split; [apply (bool_decide_unpack _); vm_compute; exact I|reflexivity]); cbn; unfold byte_ok; lia.
Defined.

End Reject.

Module Dispatcher.
Import Wire Reject.

Abbreviation Sess := Session.Session.Session.

Record Dispatcher := {
  d_tun : option Prefix;                 (* the TUN's address; [None] is a nil TUN *)
  d_peers : Table;
  d_sessions : gmap sptr Sess;           (* the heap of sessions *)
  d_policyDecider : option PolicyDecider;
  d_swap : option CompiledPolicy;        (* the policy swap the decider may refer to *)
  d_selfPeerID : list Z;
  d_flowTable : FlowTable;
  d_dropCounters : DropCounters;
  d_lastDropLog : Z
}.

Inductive event :=
| SendUDP (pkt : list Z) (ep : AddrPort)
| WriteTUN (pkt : list Z)
| OnHandshakeRequired (entry : PeerTable.PeerTable.ptr)
| OnRekeyRequired (entry : PeerTable.PeerTable.ptr)
| OnHandshakePacket (pkt : list Z) (ep : AddrPort)
| OnNATProbePacket (pkt : list Z) (ep : AddrPort)
| OnSessionEstablished (entry : PeerTable.PeerTable.ptr).

Definition with_peers (d : Dispatcher) (t : Table) : Dispatcher :=
  {| d_tun := d_tun d; d_peers := t; d_sessions := d_sessions d; d_policyDecider := d_policyDecider d;
     d_swap := d_swap d; d_selfPeerID := d_selfPeerID d; d_flowTable := d_flowTable d;
     d_dropCounters := d_dropCounters d; d_lastDropLog := d_lastDropLog d |}.
Definition with_sess (d : Dispatcher) (i : sptr) (s : Sess) : Dispatcher :=
  {| d_tun := d_tun d; d_peers := d_peers d; d_sessions := <[i := s]> (d_sessions d);
     d_policyDecider := d_policyDecider d; d_swap := d_swap d; d_selfPeerID := d_selfPeerID d;
     d_flowTable := d_flowTable d; d_dropCounters := d_dropCounters d; d_lastDropLog := d_lastDropLog d |}.
Definition with_flows (d : Dispatcher) (ft : FlowTable) : Dispatcher :=
  {| d_tun := d_tun d; d_peers := d_peers d; d_sessions := d_sessions d; d_policyDecider := d_policyDecider d;
     d_swap := d_swap d; d_selfPeerID := d_selfPeerID d; d_flowTable := ft;
     d_dropCounters := d_dropCounters d; d_lastDropLog := d_lastDropLog d |}.
Definition with_drops (d : Dispatcher) (dc : DropCounters) (log : Z) : Dispatcher :=
  {| d_tun := d_tun d; d_peers := d_peers d; d_sessions := d_sessions d; d_policyDecider := d_policyDecider d;
     d_swap := d_swap d; d_selfPeerID := d_selfPeerID d; d_flowTable := d_flowTable d;
     d_dropCounters := dc; d_lastDropLog := log |}.

(** Update the entry at a pointer. *)
Definition upd_entry (p : PeerTable.PeerTable.ptr) (f : Entry -> Entry) (d : Dispatcher) : Dispatcher :=
  with_peers d (PeerTable.PeerTable.with_entries (alter f p (entries (d_peers d))) (d_peers d)).

(** [extractDestIP] and [extractSrcIP]: the outer option is a panic. *)
Definition extractDestIP (pkt : list Z) : option (option Addr) :=
  if (length pkt <? 1)%nat then Some None else
  b0 ← idx pkt 0;
  if Z.shiftr b0 4 =? 4 then
    if (length pkt <? 20)%nat then Some None else (b ← sub pkt 16 20; Some (Some (AddrFrom4 b)))
  else if Z.shiftr b0 4 =? 6 then
    if (length pkt <? 40)%nat then Some None else (b ← sub pkt 24 40; Some (Some (AddrFrom16 b)))
  else Some None.

Definition extractSrcIP (pkt : list Z) : option (option Addr) :=
  if (length pkt <? 1)%nat then Some None else
  b0 ← idx pkt 0;
  if Z.shiftr b0 4 =? 4 then
    if (length pkt <? 20)%nat then Some None else (b ← sub pkt 12 16; Some (Some (AddrFrom4 b)))
  else if Z.shiftr b0 4 =? 6 then
    if (length pkt <? 40)%nat then Some None else (b ← sub pkt 8 24; Some (Some (AddrFrom16 b)))
  else Some None.

(** The sender of a datagram: a UDP address, or another [net.Addr] with what
    parsing its string gives. *)
Inductive net_addr := UDPAddr (ap : AddrPort) | OtherAddr (parsed : option AddrPort).

Definition unmap_port (ap : AddrPort) : AddrPort := {| ap_addr := Unmap (ap_addr ap); ap_port := ap_port ap |}.

Definition addrToAddrPort (a : net_addr) : option AddrPort :=
  match a with
  | UDPAddr ap => if ap_valid (unmap_port ap) then Some (unmap_port ap) else None
  | OtherAddr (Some ap) => Some (unmap_port ap)
  | OtherAddr None => None
  end.

Definition sourceAllowed (d : Dispatcher) (p : PeerTable.PeerTable.ptr) (entry : Entry) (pkt : list Z) : option bool :=
  osrc ← extractSrcIP pkt;
  match osrc with
  | None => Some false
  | Some src =>
      let src := Unmap src in
      if bool_decide (src = VPNAddr entry) then Some true
      else if match d_tun d with Some a => Contains (Masked a) src | None => false end then Some false
      else if match LookupByVPN src (d_peers d) with Some owner => negb (owner =? p)%nat | None => false end
      then Some false
      else Some (existsb (fun pfx => Contains pfx src) (SubnetRoutes entry))
  end.

Definition deny : Decision := {| d_Action := ActionDeny; d_RuleIndex := -1; d_OutboundOnly := false |}.

(** [recordDrop]: counters, and the rate limit of the log line. *)
Definition recordDrop (now : Z) (peerID : list Z) (dec : Decision) (d : Dispatcher) : Dispatcher :=
  let dc := IncrementPeer peerID (d_dropCounters d) in
  let dc := if 0 <=? d_RuleIndex dec then IncrementRule (d_RuleIndex dec) dc else dc in
  let dc := if d_OutboundOnly dec then IncrementOutboundOnly peerID dc else dc in
  with_drops d dc (if 60 * second <? now - d_lastDropLog d then now else d_lastDropLog d).

Definition sendReject (d : Dispatcher) (flow : Flow) (originalPkt : list Z) : list event :=
  match d_tun d with
  | None => []
  | Some _ =>
      [WriteTUN (if FProto flow =? ProtoTCP then buildTCPRST flow
                 else buildICMPAdminProhibited flow originalPkt)]
  end.

(** [SetPolicyDecider] stores into an [atomic.Value], which panics ([None]) on
    nil and on a value whose concrete type differs from the stored one. *)
Definition same_type (a b : PolicyDecider) : bool :=
  match a, b with
  | PDPolicy _, PDPolicy _ | PDSwap, PDSwap | PDCombined _ _, PDCombined _ _ => true
  | _, _ => false
  end.
Definition SetPolicyDecider (pd : option PolicyDecider) (d : Dispatcher) : option Dispatcher :=
  match pd with
  | None => None
  | Some new =>
      if match d_policyDecider d with Some old => same_type old new | None => true end
      then Some {| d_tun := d_tun d; d_peers := d_peers d; d_sessions := d_sessions d;
                   d_policyDecider := Some new; d_swap := d_swap d; d_selfPeerID := d_selfPeerID d;
                   d_flowTable := d_flowTable d; d_dropCounters := d_dropCounters d;
                   d_lastDropLog := d_lastDropLog d |}
      else None
  end.

(** A dispatcher that was given the loader's decider without a network policy
    panics when it is given the one with a network policy. *)
Lemma network_policy_panics n d d1 :
  SetPolicyDecider (Combine (Some PDSwap) None) d = Some d1 ->
  SetPolicyDecider (Combine (Some PDSwap) (Some n)) d1 = None.
Proof. cbn. destruct (match d_policyDecider d with Some _ => _ | None => _ end); [|done]. by intros [= <-]. Qed.

(** [pd.Decide] of the current policy decider. *)
Definition decide_now (d : Dispatcher) (pd : PolicyDecider) (src dst : list Z) (proto port : Z) : Decision :=
  dispatch (d_swap d) pd src dst proto port.

(** Try one session on a data packet: the plaintext when it opens. *)
Definition try_session (i : sptr) (nonce : Z) (payload : list Z) (d : Dispatcher) : Dispatcher * goslice :=
  match d_sessions d !! i with
  | None => (d, None)
  | Some s => let '(s', plain) := Session.Session.Decrypt s nonce payload in (with_sess d i s', plain)
  end.

Definition decryptDataPacket (p : PeerTable.PeerTable.ptr) (entry : Entry) (nonce : Z) (payload : list Z)
  (d : Dispatcher) : Dispatcher * list event * goslice :=
  let '(d, plain) := match session entry with
                     | Some i => try_session i nonce payload d
                     | None => (d, None)
                     end in
  match plain with
  | Some pl => (d, [], Some pl)
  | None =>
      let '(d, plain) := match pendingSession entry with
                         | Some i => try_session i nonce payload d
                         | None => (d, None)
                         end in
      match plain with
      | Some pl => (upd_entry p (fun e => (PromotePendingSession e).2) d, [OnSessionEstablished p], Some pl)
      | None =>
          match prevSession entry with
          | Some i =>
              if negb (bool_decide (prevSession entry = session entry)) then
                let '(d, plain) := try_session i nonce payload d in (d, [], plain)
              else (d, [], None)
          | None => (d, [], None)
          end
      end
  end.

Section Handlers.
Variable maphash : list Z -> Z.
Variable busy : nat -> bool.
Variable fuel : nat.

(** [d.flowTable.Lookup], keeping the entry found. *)
Definition flow_lookup (flow : Flow) (create : bool) (st : FlowState) (now : Z) (d : Dispatcher)
  : option (option FlowEntry * bool * Dispatcher) :=
  '(rp, _, created, ft) ← FlowTable.FlowTable.Lookup maphash busy fuel flow create st now (d_flowTable d);
  Some (rp ≫= (fun q => heap (evict ft) !! q), created, with_flows d ft).

(** [flowEntry.LastSeen = time.Now()] on the entry of the flow. *)
Definition touch_flow (flow : Flow) (now : Z) (d : Dispatcher) : Dispatcher :=
  match find_flow maphash (key_of flow) (d_flowTable d) with
  | Some q => with_flows d (set_evict (d_flowTable d)
                (upd_heap (alter (fun e => touch now (e_State e) e) q) (evict (d_flowTable d))))
  | None => d
  end.

(** The inbound ACL check and flow tracking: whether the packet passes. *)
Definition checkInbound (pd : PolicyDecider) (srcPeerID : list Z) (plain : list Z) (now : Z) (d : Dispatcher)
  : option (bool * Dispatcher) :=
  '(flow, kind, err) ← ParsePacket plain;
  match err with
  | Some _ => Some (false, d)
  | None =>
      match kind with
      | KindStart =>
          let dec := decide_now d pd srcPeerID (d_selfPeerID d) (FProto flow) (DstPort flow) in
          if decide (d_Action dec = ActionDeny) then Some (false, recordDrop now srcPeerID dec d)
          else
            '(_, _, d) ← flow_lookup flow true FlowStateEstablished now d;
            Some (true, d)
      | KindEnd =>
          '(fe, created, d) ← flow_lookup flow false FlowStateNew now d;
          match fe with
          | Some e =>
              if negb created && bool_decide (e_State e = FlowStateEstablished)
              then Some (true, with_flows d (UpdateState maphash flow FlowStateClosing now (d_flowTable d)).2)
              else Some (false, recordDrop now srcPeerID deny d)
          | None => Some (false, recordDrop now srcPeerID deny d)
          end
      | KindFragment | KindError | KindOther =>
          '(fe, created, d) ← flow_lookup flow false FlowStateNew now d;
          match fe with
          | Some e =>
              if negb created && bool_decide (e_State e = FlowStateEstablished)
              then Some (true, touch_flow flow now d)
              else Some (false, recordDrop now srcPeerID deny d)
          | None => Some (false, recordDrop now srcPeerID deny d)
          end
      end
  end.

(** The [TypeData] case of [handleUDPPacket]. *)
Definition handleData (addr : net_addr) (nonce : Z) (payload : list Z) (now : Z) (d : Dispatcher)
  : option (Dispatcher * list event) :=
  match addrToAddrPort addr with
  | None => Some (d, [])
  | Some ep =>
      match LookupByEndpoint ep (d_peers d) with
      | None => Some (d, [])
      | Some p =>
          match entries (d_peers d) !! p with
          | None => Some (d, [])
          | Some entry =>
              let '(d, evs, plain) := decryptDataPacket p entry nonce payload d in
              match plain with
              | None => Some (d, evs)
              | Some plain =>
                  allowed ← sourceAllowed d p entry plain;
                  if negb allowed then Some (d, evs)
                  else
                    '(pass, d) ← match d_policyDecider d with
                                 | None => Some (true, d)
                                 | Some pd => checkInbound pd (ID entry) plain now d
                                 end;
                    if negb pass then Some (d, evs)
                    else
                      let d := upd_entry p (Touch now) d in
                      Some (d, evs ++ match d_tun d with Some _ => [WriteTUN plain] | None => [] end)
              end
          end
      end
  end.

Definition handleUDPPacket (pkt : list Z) (addr : net_addr) (now : Z) (d : Dispatcher)
  : option (Dispatcher * list event) :=
  hdr ← sub pkt 0 HeaderSize;
  '(pktType, _, nonce) ← parseHeader hdr;
  payload ← sub_from pkt HeaderSize;
  if pktType =? TypeData then handleData addr nonce payload now d
  else if pktType =? TypeKeepalive then
    match addrToAddrPort addr ≫= (fun ep => LookupByEndpoint ep (d_peers d)) with
    | Some p => Some (upd_entry p (Touch now) d, [])
    | None => Some (d, [])
    end
  else if (pktType =? TypeHandshakeInit) || (pktType =? TypeHandshakeResp) then
    Some (d, match addr with UDPAddr ap => [OnHandshakePacket pkt ap]
                           | OtherAddr o => [OnHandshakePacket pkt (default ap_zero o)] end)
  else if pktType =? TypeNATProbe then
    Some (d, match addr with UDPAddr ap => [OnNATProbePacket pkt ap]
                           | OtherAddr o => [OnNATProbePacket pkt (default ap_zero o)] end)
  else Some (d, []).

(** Hold a packet until a session exists, and ask for one. *)
Definition hold (p : PeerTable.PeerTable.ptr) (pkt : list Z) (ev : event) (d : Dispatcher) : Dispatcher * list event :=
  (upd_entry p (fun e => (Enqueue pkt e).2) d, [ev]).

(** The rest of [handleTunPacket] once the policy lets the packet through. *)
Definition encryptAndSend (p : PeerTable.PeerTable.ptr) (entry : Entry) (flow : Flow) (kind : Kind)
  (pkt : list Z) (now : Z) (d : Dispatcher) : option (Dispatcher * list event) :=
  match session entry ≫= (fun i => s ← d_sessions d !! i; Some (i, s)) with
  | None => Some (hold p pkt (OnHandshakeRequired p) d)
  | Some (i, sess) =>
      if Session.Session.NeedsRekey sess now then Some (hold p pkt (OnRekeyRequired p) d)
      else
        let '(sess', r) := Session.Session.Encrypt sess pkt in
        let d := with_sess d i sess' in
        match r with
        | Err _ => Some (hold p pkt (OnRekeyRequired p) d)
        | Ok (nonce, ct) =>
            if negb (ap_valid (endpoint entry)) then Some (d, [])
            else
              d ← (if decide (kind = KindStart)
                   then '(_, _, d) ← flow_lookup flow true FlowStateNew now d; Some d
                   else Some d);
              Some (d, [SendUDP (buildDataPacket nonce ct) (endpoint entry)])
        end
  end.

(** The decision on an outbound packet: none without a policy or a protocol. *)
Definition outbound_decision (entry : Entry) (flow : Flow) (d : Dispatcher) : option Decision :=
  match d_policyDecider d with
  | Some pd =>
      if negb (FProto flow =? 0)
      then Some (decide_now d pd (d_selfPeerID d) (ID entry) (FProto flow) (DstPort flow))
      else None
  | None => None
  end.

Definition handleTunPacket (pkt : list Z) (now : Z) (d : Dispatcher) : option (Dispatcher * list event) :=
  odst ← extractDestIP pkt;
  match odst ≫= (fun destIP => p ← LookupByVPN destIP (d_peers d);
                               e ← entries (d_peers d) !! p; Some (p, e)) with
  | None => Some (d, [])
  | Some (p, entry) =>
      '(flow, kind, err) ← ParsePacket pkt;
      match err with
      | Some _ => Some (d, [])
      | None =>
          match outbound_decision entry flow d with
          | Some dec =>
              if decide (d_Action dec = ActionDeny)
              then Some (recordDrop now (ID entry) dec d, sendReject d flow pkt)
              else encryptAndSend p entry flow kind pkt now d
          | None => encryptAndSend p entry flow kind pkt now d
          end
      end
  end.

(** [FlushHoldQueue]: the packets that still encrypt are sent in order. *)
Fixpoint flush (i : sptr) (ep : AddrPort) (pkts : list (list Z)) (d : Dispatcher) : Dispatcher * list event :=
  match pkts with
  | [] => (d, [])
  | pkt :: rest =>
      match d_sessions d !! i with
      | None => (d, [])
      | Some sess =>
          let '(sess', r) := Session.Session.Encrypt sess pkt in
          let '(d', evs) := flush i ep rest (with_sess d i sess') in
          (d', match r with Ok (nonce, ct) => SendUDP (buildDataPacket nonce ct) ep :: evs | Err _ => evs end)
      end
  end.

Definition FlushHoldQueue (p : PeerTable.PeerTable.ptr) (d : Dispatcher) : Dispatcher * list event :=
  match entries (d_peers d) !! p with
  | None => (d, [])
  | Some entry =>
      match session entry with
      | None => (d, [])
      | Some i =>
          if negb (ap_valid (endpoint entry)) then (d, [])
          else flush i (endpoint entry) (DrainQueue entry).1 (upd_entry p (fun e => (DrainQueue e).2) d)
      end
  end.

Definition checkRekey (now : Z) (d : Dispatcher) : list event :=
  omap (fun p => e ← entries (d_peers d) !! p; i ← session e; s ← d_sessions d !! i;
                 if Session.Session.NeedsRekey s now then Some (OnRekeyRequired p) else None)
    (List (d_peers d)).

End Handlers.

(** ** Decryption authenticates *)

(** A packet that a session opens carries what its receive cipher opens. *)
Lemma Decrypt_opens s nonce ct s' pl :
  Session.Session.Decrypt s nonce ct = (s', Some pl) ->
  Session.Session.c_open (Session.Session.s_recv s) nonce ct = Some (Some pl).
Proof.
  unfold Session.Session.Decrypt. destruct (_ <=? nonce); [done|].
  destruct (negb _); [done|]. destruct (Session.Session.c_open _ _ _) as [o|]; [|done].
  destruct (Session.Window.checkAndMark _ _) as [w []]; [|done]. by intros [= _ ->].
Qed.

Lemma Decrypt_recv s nonce ct :
  Session.Session.s_recv (Session.Session.Decrypt s nonce ct).1 = Session.Session.s_recv s.
Proof.
  unfold Session.Session.Decrypt. destruct (_ <=? nonce); [done|].
  destruct (negb _); [done|]. destruct (Session.Session.c_open _ _ _) as [o|]; [|done].
  by destruct (Session.Window.checkAndMark _ _) as [w []].
Qed.

(** [opens d i nonce ct pl]: the receive cipher of session [i] opens [ct]. *)
Definition opens (d : Dispatcher) (i : sptr) (nonce : Z) (ct pl : list Z) : Prop :=
  exists s, d_sessions d !! i = Some s /\
    Session.Session.c_open (Session.Session.s_recv s) nonce ct = Some (Some pl).

(** Everything but the sessions (and, after promotion, one entry) is unchanged. *)
Definition frame (d d' : Dispatcher) : Prop :=
  d_tun d' = d_tun d /\ d_policyDecider d' = d_policyDecider d /\ d_swap d' = d_swap d /\
  d_selfPeerID d' = d_selfPeerID d /\ d_flowTable d' = d_flowTable d /\
  byVPN (d_peers d') = byVPN (d_peers d).

Lemma try_session_spec i nonce ct d d' o :
  try_session i nonce ct d = (d', o) ->
  frame d d' /\ d_peers d' = d_peers d /\
  (forall j nonce ct pl, opens d' j nonce ct pl -> opens d j nonce ct pl) /\
  (forall pl, o = Some pl -> opens d i nonce ct pl).
Proof.
  unfold try_session. destruct (d_sessions d !! i) as [s|] eqn:Hs.
  - pose proof (Decrypt_opens s nonce ct) as Hop. pose proof (Decrypt_recv s nonce ct) as Hr.
    destruct (Session.Session.Decrypt s nonce ct) as [s' pl']. intros [= <- <-]. cbn [fst] in Hr.
    split_and!; try done.
    + intros j n c pl (s2 & Hj & Ho). cbn in Hj. apply lookup_insert_Some in Hj as [[<- <-]|[_ Hj]].
      * exists s. by rewrite <- Hr.
      * by exists s2.
    + intros pl ->. exists s. split; [done|]. by eapply Hop.
  - intros [= <- <-]. by split_and!.
Qed.

Lemma frame_trans d1 d2 d3 : frame d1 d2 -> frame d2 d3 -> frame d1 d3.
Proof. unfold frame. intuition congruence. Qed.

(** Trying an optional session. *)
Lemma try_opt_spec (oi : option sptr) nonce ct d d' o :
  match oi with Some i => try_session i nonce ct d | None => (d, None) end = (d', o) ->
  frame d d' /\ d_peers d' = d_peers d /\
  (forall j nonce ct pl, opens d' j nonce ct pl -> opens d j nonce ct pl) /\
  (forall pl, o = Some pl -> exists i, oi = Some i /\ opens d i nonce ct pl).
Proof.
  destruct oi as [i|].
  - intros (H1 & H2 & H3 & H4)%try_session_spec. split_and!; try done. intros pl Hpl. eauto.
  - intros [= <- <-]. by split_and!.
Qed.

Lemma decryptDataPacket_spec p entry nonce ct d d' evs o :
  decryptDataPacket p entry nonce ct d = (d', evs, o) ->
  frame d d' /\ (forall pl, WriteTUN pl ∉ evs) /\
  (forall pl, o = Some pl -> exists i, opens d i nonce ct pl /\
     (session entry = Some i \/ pendingSession entry = Some i \/ prevSession entry = Some i)).
Proof.
  unfold decryptDataPacket.
  destruct (match session entry with Some i => try_session i nonce ct d | None => (d, None) end) as [d1 o1] eqn:E1.
  apply try_opt_spec in E1 as (F1 & _ & B1 & O1). destruct o1 as [pl1|].
  { intros [= <- <- <-]. split_and!; [done|set_solver|]. intros pl [= <-].
    destruct (O1 pl1 eq_refl) as (i & ? & ?). eauto. }
  destruct (match pendingSession entry with Some i => try_session i nonce ct d1 | None => (d1, None) end)
    as [d2 o2] eqn:E2.
  apply try_opt_spec in E2 as (F2 & _ & B2 & O2). destruct o2 as [pl2|].
  { intros [= <- <- <-]. split_and!;
      [apply (frame_trans _ d2); [by apply (frame_trans _ d1)|by repeat split]|set_solver|].
    intros pl [= <-]. destruct (O2 pl2 eq_refl) as (i & ? & ?). exists i. split; [by apply B1|auto]. }
  assert (frame d d2) as F by by apply (frame_trans _ d1).
  destruct (prevSession entry) as [i|] eqn:Hprev; [|intros [= <- <- <-]; split_and!; [done|set_solver|done]].
  destruct (negb _); [|intros [= <- <- <-]; split_and!; [done|set_solver|done]].
  destruct (try_session i nonce ct d2) as [d3 o3] eqn:E3. intros [= <- <- <-].
  apply try_session_spec in E3 as (F3 & _ & _ & O3). split_and!; [by apply (frame_trans _ d2)|set_solver|].
  intros pl Hpl. exists i. split; [|auto]. apply B1, B2, O3, Hpl.
Qed.

(** ** Inbound packets *)

(** The flow has a live entry in state [FlowStateEstablished]. *)
Definition live_established (maphash : list Z -> Z) (ft : FlowTable) (flow : Flow) (now : Z) : Prop :=
  exists q e, find_flow maphash (key_of flow) ft = Some q /\ heap (evict ft) !! q = Some e /\
    e_State e = FlowStateEstablished /\ isEntryExpired (config ft) e now = false.

(** The address a peer may send from. *)
Definition may_send_from (d : Dispatcher) (p : PeerTable.PeerTable.ptr) (entry : Entry) (src : Addr) : Prop :=
  Unmap src = VPNAddr entry \/
  (forall a, d_tun d = Some a -> Contains (Masked a) (Unmap src) = false) /\
  (forall owner, byVPN (d_peers d) !! Unmap src = Some owner -> owner = p) /\
  Exists (fun pfx => Contains pfx (Unmap src) = true) (SubnetRoutes entry).

Lemma sourceAllowed_true d p entry pkt :
  sourceAllowed d p entry pkt = Some true ->
  exists src, extractSrcIP pkt = Some (Some src) /\ may_send_from d p entry src.
Proof.
  unfold sourceAllowed. destruct (extractSrcIP pkt) as [[src|]|]; [|done|done]. rewrite bind_Some_eq.
  intros H. exists src. split; [done|]. unfold may_send_from. case_bool_decide as Hv; [by left|]. right.
  destruct (d_tun d) as [a|] eqn:Ht; [destruct (Contains (Masked a) (Unmap src)) eqn:Hm; [done|]|].
  all: unfold LookupByVPN in H; destruct (byVPN (d_peers d) !! Unmap src) as [owner|] eqn:Ho;
    [destruct (Nat.eqb_spec owner p); [|done]|]; cbn in H; injection H as H; split_and!; try naive_solver.
  all: apply existsb_exists in H as (pfx & Hin & Hc); apply Exists_exists; exists pfx; split; [by apply list_elem_of_In|done].
Qed.

Section Inbound.
Variable maphash : list Z -> Z.
Variable busy : nat -> bool.
Variable fuel : nat.

Lemma flow_lookup_hit flow now d e created d' :
  flow_lookup maphash busy fuel flow false FlowStateNew now d = Some (Some e, created, d') ->
  created = false /\
  exists q e0, find_flow maphash (key_of flow) (d_flowTable d) = Some q /\
    heap (evict (d_flowTable d)) !! q = Some e0 /\ e_State e = e_State e0 /\
    isEntryExpired (config (d_flowTable d)) e0 now = false.
Proof.
  unfold flow_lookup.
  destruct (FlowTable.FlowTable.Lookup _ _ _ _ _ _ _ _) as [[[[[q|] r] c] ft]|] eqn:E; [|done|done].
  rewrite bind_Some_eq, bind_Some_eq.
  apply Lookup_hit in E as (-> & Hf & e0 & He0 & Hexp & _ & Hd).
  intros [= He <- _]. split; [done|]. exists q, e0. split_and!; try done.
  unfold dat in Hd. rewrite He in Hd. injection Hd as _ _ _ -> _.
  destruct (decide _) as [[_ [=]]|]; done.
Qed.

(** What passes the inbound check. *)
Lemma checkInbound_pass pd src plain now d d' :
  checkInbound maphash busy fuel pd src plain now d = Some (true, d') ->
  exists flow kind, ParsePacket plain = Some (flow, kind, None) /\
    (kind = KindStart /\ d_Action (decide_now d pd src (d_selfPeerID d) (FProto flow) (DstPort flow)) = ActionAllow \/
     kind <> KindStart /\ live_established maphash (d_flowTable d) flow now).
Proof.
  unfold checkInbound. destruct (ParsePacket plain) as [[[flow kind] [err|]]|]; [done| |done].
  rewrite bind_Some_eq. intros H. exists flow, kind. split; [done|].
  assert (forall e created d1, flow_lookup maphash busy fuel flow false FlowStateNew now d = Some (Some e, created, d1) ->
    negb created && bool_decide (e_State e = FlowStateEstablished) = true ->
    live_established maphash (d_flowTable d) flow now) as Hlive.
  { intros e created d1 (_ & q & e0 & ? & ? & Hst & ?)%flow_lookup_hit [_ He%bool_decide_eq_true]%andb_true_iff.
    exists q, e0. rewrite <- Hst. done. }
  destruct kind.
  - left. split; [done|]. destruct (d_Action (decide_now _ _ _ _ _ _)); [done|by destruct (decide _)].
  - right. split; [done|]. destruct (flow_lookup _ _ _ _ _ _ _ _) as [[[[e|] created] d1]|] eqn:E; [|done|done].
    rewrite bind_Some_eq in H. destruct (negb created && _) eqn:Hb; [eauto|done].
  - right. split; [done|]. destruct (flow_lookup _ _ _ _ _ _ _ _) as [[[[e|] created] d1]|] eqn:E; [|done|done].
    rewrite bind_Some_eq in H. destruct (negb created && _) eqn:Hb; [eauto|done].
  - right. split; [done|]. destruct (flow_lookup _ _ _ _ _ _ _ _) as [[[[e|] created] d1]|] eqn:E; [|done|done].
    rewrite bind_Some_eq in H. destruct (negb created && _) eqn:Hb; [eauto|done].
  - right. split; [done|]. destruct (flow_lookup _ _ _ _ _ _ _ _) as [[[[e|] created] d1]|] eqn:E; [|done|done].
    rewrite bind_Some_eq in H. destruct (negb created && _) eqn:Hb; [eauto|done].
Qed.

Lemma inbound_delivery pkt addr now d d' evs plain :
  handleUDPPacket maphash busy fuel pkt addr now d = Some (d', evs) -> WriteTUN plain ∈ evs ->
  exists ep p entry i nonce payload src,
    addrToAddrPort addr = Some ep /\ byEndpoint (d_peers d) !! ep = Some p /\
    entries (d_peers d) !! p = Some entry /\
    (session entry = Some i \/ pendingSession entry = Some i \/ prevSession entry = Some i) /\
    opens d i nonce payload plain /\
    extractSrcIP plain = Some (Some src) /\ may_send_from d p entry src /\
    forall pd, d_policyDecider d = Some pd ->
      exists flow kind, ParsePacket plain = Some (flow, kind, None) /\
        (kind = KindStart /\
           d_Action (decide_now d pd (ID entry) (d_selfPeerID d) (FProto flow) (DstPort flow)) = ActionAllow \/
         kind <> KindStart /\ live_established maphash (d_flowTable d) flow now).
Proof.
  unfold handleUDPPacket. destruct (sub pkt 0 HeaderSize) as [hdr|]; [|done]. rewrite bind_Some_eq.
  destruct (parseHeader hdr) as [[[ty ix] nonce]|]; [|done]. rewrite bind_Some_eq.
  destruct (sub_from pkt HeaderSize) as [payload|]; [|done]. rewrite bind_Some_eq.
  destruct (ty =? TypeData).
  2:{ repeat case_match; intros [= <- <-]; set_solver. }
  unfold handleData, LookupByEndpoint. destruct (addrToAddrPort addr) as [ep|]; [|intros [= <- <-]; set_solver].
  destruct (byEndpoint (d_peers d) !! ep) as [p|] eqn:Hep; [|intros [= <- <-]; set_solver].
  destruct (entries (d_peers d) !! p) as [entry|] eqn:Hp; [|intros [= <- <-]; set_solver].
  destruct (decryptDataPacket p entry nonce payload d) as [[d1 evs1] o] eqn:Hdec.
  apply decryptDataPacket_spec in Hdec as (F & Hnw & Hopen). destruct F as (Ftun & Fpd & Fsw & Fself & Fft & Fvpn).
  destruct o as [pl|]; [|intros [= <- <-] Hin; by apply Hnw in Hin].
  destruct (sourceAllowed d1 p entry pl) as [[]|] eqn:Hsrc; [|intros [= <- <-] Hin; by apply Hnw in Hin|done].
  rewrite bind_Some_eq. cbn [negb].
  apply sourceAllowed_true in Hsrc as (src & Hsrc & Hfrom).
  destruct (match d_policyDecider d1 with None => Some (true, d1)
            | Some pd => checkInbound maphash busy fuel pd (ID entry) pl now d1 end) as [[[] d2]|] eqn:Hchk;
    [|rewrite bind_Some_eq; intros [= <- <-] Hin; by apply Hnw in Hin|done].
  rewrite bind_Some_eq. cbn [negb]. intros [= <- <-] Hin.
  assert (plain = pl) as ->.
  { apply elem_of_app in Hin as [Hin|Hin]; [by apply Hnw in Hin|].
    case_in Hin; [|by apply not_elem_of_nil in Hin].
    by apply list_elem_of_singleton in Hin as [= ->]. }
  destruct (Hopen pl eq_refl) as (i & Ho & Hi).
  exists ep, p, entry, i, nonce, payload, src. split_and!; try done.
  - unfold may_send_from in *. by rewrite Ftun, Fvpn in Hfrom.
  - intros pd Hpd. rewrite Fpd, Hpd in Hchk. apply checkInbound_pass in Hchk as (flow & kind & Hparse & Hcase).
    exists flow, kind. split; [done|]. unfold decide_now in *. by rewrite Fsw, Fself, Fft in Hcase.
Qed.

(** C3: whatever arrives on the socket, a packet is handed to the local network
    stack only if it came from the endpoint of a known peer, one of that peer's
    sessions authenticated it, its source address belongs to that peer (its VPN
    address, or a subnet it advertises that is neither in the mesh nor another
    peer's address), and, when a policy is set, it either starts a connection
    the policy allows from that peer to this node or belongs to a live
    established flow. *)
Theorem inbound_authorized pkt addr now d d' evs plain :
  handleUDPPacket maphash busy fuel pkt addr now d = Some (d', evs) -> WriteTUN plain ∈ evs ->
  exists ep p entry i nonce payload src,
    addrToAddrPort addr = Some ep /\ byEndpoint (d_peers d) !! ep = Some p /\
    entries (d_peers d) !! p = Some entry /\
    (session entry = Some i \/ pendingSession entry = Some i \/ prevSession entry = Some i) /\
    opens d i nonce payload plain /\
    extractSrcIP plain = Some (Some src) /\ may_send_from d p entry src /\
    forall pd, d_policyDecider d = Some pd ->
      exists flow kind, ParsePacket plain = Some (flow, kind, None) /\
        (kind = KindStart /\
           d_Action (decide_now d pd (ID entry) (d_selfPeerID d) (FProto flow) (DstPort flow)) = ActionAllow \/
         kind <> KindStart /\ live_established maphash (d_flowTable d) flow now).
Proof. apply inbound_delivery. Qed.

(** ** Outbound packets *)

Lemma encryptAndSend_sent p entry flow kind pkt now d d' evs out ep :
  encryptAndSend maphash busy fuel p entry flow kind pkt now d = Some (d', evs) -> SendUDP out ep ∈ evs ->
  exists i s s' nonce ct, ep = endpoint entry /\ ap_valid ep = true /\
    session entry = Some i /\ d_sessions d !! i = Some s /\ Session.Session.NeedsRekey s now = false /\
    Session.Session.Encrypt s pkt = (s', Ok (nonce, ct)) /\ out = buildDataPacket nonce ct.
Proof.
  unfold encryptAndSend, hold. intros HS Hin.
  destruct (session entry) as [i|] eqn:Hsess; [|injection HS as <- <-; set_solver]. rewrite bind_Some_eq in HS.
  destruct (d_sessions d !! i) as [s0|] eqn:Hs; [|injection HS as <- <-; set_solver]. rewrite bind_Some_eq in HS.
  destruct (Session.Session.NeedsRekey s0 now) eqn:Hre; [injection HS as <- <-; set_solver|].
  destruct (Session.Session.Encrypt s0 pkt) as [s' [[nonce ct]|err]] eqn:Henc; [|injection HS as <- <-; set_solver].
  cbv zeta in HS. destruct (ap_valid (endpoint entry)) eqn:Hv; cbn [negb] in HS; [|injection HS as <- <-; set_solver].
  match type of HS with (?m ≫= _) = _ => destruct m as [d2|]; [|done] end. rewrite bind_Some_eq in HS.
  injection HS as <- <-. apply list_elem_of_singleton in Hin as [= -> ->].
  exists i, s0, s', nonce, ct. done.
Qed.

Lemma outbound_allowed entry flow d pd :
  (forall dec, outbound_decision entry flow d = Some dec -> d_Action dec <> ActionDeny) ->
  d_policyDecider d = Some pd -> FProto flow <> 0 ->
  d_Action (decide_now d pd (d_selfPeerID d) (ID entry) (FProto flow) (DstPort flow)) = ActionAllow.
Proof.
  unfold outbound_decision. intros H Hpd Hp. rewrite Hpd, (proj2 (Z.eqb_neq _ _) Hp) in H. cbn [negb] in H.
  specialize (H _ eq_refl). by destruct (d_Action _).
Qed.

(** C12: a datagram leaves for a packet of the local stack only to the peer that
    owns the packet's destination address, at that peer's endpoint, sealed by
    that peer's current session while it needs no rekey, and only if one of the
    following holds: no policy is set; the policy allows, from this node to that
    peer, the protocol and the port the parser reports; or the parser reports
    protocol 0, in which case the code asks no policy.  The last never happens
    for a packet that starts a connection. *)
Theorem outbound_authorized pkt now d d' evs out ep :
  handleTunPacket maphash busy fuel pkt now d = Some (d', evs) -> SendUDP out ep ∈ evs ->
  exists dest p entry i s s' nonce ct flow kind,
    extractDestIP pkt = Some (Some dest) /\ byVPN (d_peers d) !! dest = Some p /\
    entries (d_peers d) !! p = Some entry /\ ep = endpoint entry /\ ap_valid ep = true /\
    session entry = Some i /\ d_sessions d !! i = Some s /\ Session.Session.NeedsRekey s now = false /\
    Session.Session.Encrypt s pkt = (s', Ok (nonce, ct)) /\ out = buildDataPacket nonce ct /\
    ParsePacket pkt = Some (flow, kind, None) /\ (kind = KindStart -> FProto flow <> 0) /\
    (d_policyDecider d = None \/ FProto flow = 0 \/
     exists pd, d_policyDecider d = Some pd /\
       d_Action (decide_now d pd (d_selfPeerID d) (ID entry) (FProto flow) (DstPort flow)) = ActionAllow).
Proof.
  unfold handleTunPacket, LookupByVPN.
  destruct (extractDestIP pkt) as [[dest|]|]; [|intros [= <- <-]; set_solver|done].
  rewrite bind_Some_eq, bind_Some_eq.
  destruct (byVPN (d_peers d) !! dest) as [p|] eqn:Hvpn; [|intros [= <- <-]; set_solver]. rewrite bind_Some_eq.
  destruct (entries (d_peers d) !! p) as [entry|] eqn:Hp; [|intros [= <- <-]; set_solver]. rewrite bind_Some_eq.
  destruct (ParsePacket pkt) as [[[flow kind] [err|]]|] eqn:Hparse; [intros [= <- <-]; set_solver| |done].
  rewrite bind_Some_eq. intros H Hin.
  assert ((forall dec, outbound_decision entry flow d = Some dec -> d_Action dec <> ActionDeny) /\
    encryptAndSend maphash busy fuel p entry flow kind pkt now d = Some (d', evs)) as [Hallow HS].
  { destruct (outbound_decision entry flow d) as [dec|]; [|done]. destruct (decide _) as [Hd|Hd].
    - injection H as <- <-. unfold sendReject in Hin. destruct (d_tun d); set_solver.
    - split; [by intros ? [= <-]|done]. }
  destruct (encryptAndSend_sent _ _ _ _ _ _ _ _ _ _ _ HS Hin) as (i & s0 & s' & nonce & ct & ? & ? & ? & ? & ? & ? & ?).
  exists dest, p, entry, i, s0, s', nonce, ct, flow, kind. split_and!; try done.
  - intros ->. by apply (ParsePacket_start pkt).
  - destruct (d_policyDecider d) as [pd|] eqn:Hpd; [|by left]. right.
    destruct (decide (FProto flow = 0)) as [?|Hproto]; [by left|]. right. exists pd. split; [done|]. by apply outbound_allowed.
Qed.

(** Traffic for an address that is no peer's VPN address goes nowhere, also
    when a peer advertises a route that covers it. *)
Lemma subnet_traffic_dropped pkt dest now d :
  extractDestIP pkt = Some (Some dest) -> byVPN (d_peers d) !! dest = None ->
  handleTunPacket maphash busy fuel pkt now d = Some (d, []).
Proof.
  intros Hd Hn. unfold handleTunPacket, LookupByVPN. rewrite Hd, bind_Some_eq, bind_Some_eq, Hn. done.
Qed.

(** ** Replies to connections this node opened *)

(** C39: a flow that this node opened is recorded as new and nothing inbound but
    a connection start promotes it, so while it is in that state every answer
    that is not itself a start (SYN-ACK, data, FIN, echo reply, fragment, ICMP
    error) is dropped. *)
Theorem reply_to_new_flow_dropped pd src plain flow kind now d pass d' q e :
  ParsePacket plain = Some (flow, kind, None) -> kind <> KindStart ->
  find_flow maphash (key_of flow) (d_flowTable d) = Some q ->
  heap (evict (d_flowTable d)) !! q = Some e -> e_State e = FlowStateNew ->
  checkInbound maphash busy fuel pd src plain now d = Some (pass, d') -> pass = false.
Proof.
  intros Hparse Hk Hf He Hst H. destruct pass; [|done]. exfalso.
  apply checkInbound_pass in H as (flow' & kind' & Hparse' & Hcase).
  rewrite Hparse in Hparse'. injection Hparse' as <- <-.
  destruct Hcase as [[? _]|[_ (q' & e' & Hf' & He' & Hst' & _)]]; congruence.
Qed.

(** The policy is consulted for connection starts only: what happens to every
    other packet of a flow does not depend on the policy in force, so a reload
    that revokes the rule does not end an established inbound connection. *)
Lemma established_not_rechecked pd1 pd2 src plain flow kind now d :
  ParsePacket plain = Some (flow, kind, None) -> kind <> KindStart ->
  checkInbound maphash busy fuel pd1 src plain now d = checkInbound maphash busy fuel pd2 src plain now d.
Proof. intros Hparse Hk. unfold checkInbound. rewrite Hparse, !bind_Some_eq. by destruct kind. Qed.

(** ** Where established flows come from *)
Variable P : FlowKey -> Prop.

Lemma flow_lookup_established flow create st now d r d' :
  established_in maphash P (d_flowTable d) -> (st = FlowStateEstablished -> P (key_of flow)) ->
  flow_lookup maphash busy fuel flow create st now d = Some (r, d') ->
  established_in maphash P (d_flowTable d') /\ frame (with_flows d (d_flowTable d')) d'.
Proof.
  intros Hinv Hst. unfold flow_lookup.
  destruct (FlowTable.FlowTable.Lookup _ _ _ _ _ _ _ _) as [[[[rp r0] c] ft]|] eqn:E; [|done].
  rewrite bind_Some_eq. intros [= _ <-]. split; [|by repeat split]. by eapply Lookup_established.
Qed.

Lemma touch_flow_established flow now d :
  established_in maphash P (d_flowTable d) -> established_in maphash P (d_flowTable (touch_flow maphash flow now d)).
Proof.
  intros Hinv. unfold touch_flow. destruct (find_flow _ _ _) as [q|]; [|done]. cbn [d_flowTable with_flows].
  destruct Hinv as [(ps & l & Hab) Hest]. split.
  - destruct (rewrite_abs maphash (d_flowTable d) ps l q (fun e => touch now (e_State e) e) Hab) as [l' Hab']; [done|].
    eauto.
  - intros q' a. unfold dat. cbn [evict set_evict heap upd_heap]. destruct (decide (q = q')) as [<-|Hne].
    + rewrite lookup_alter_eq. destruct (heap (evict (d_flowTable d)) !! q) as [e|] eqn:He; [|done].
      cbn. intros [= <-] Hst. apply (Hest q (data e)); [unfold dat; by rewrite He|exact Hst].
    + rewrite lookup_alter_ne by done. apply Hest.
Qed.

Lemma checkInbound_established pd src plain now d pass d' :
  established_in maphash P (d_flowTable d) ->
  (forall flow, d_Action (decide_now d pd src (d_selfPeerID d) (FProto flow) (DstPort flow)) = ActionAllow ->
     P (key_of flow)) ->
  checkInbound maphash busy fuel pd src plain now d = Some (pass, d') ->
  established_in maphash P (d_flowTable d') /\ frame (with_flows d (d_flowTable d')) d'.
Proof.
  intros Hinv Hallow. unfold checkInbound.
  destruct (ParsePacket plain) as [[[flow kind] [err|]]|]; [| |done]; rewrite bind_Some_eq;
    [intros [= _ <-]; by split|].
  assert (forall st0 c0 r d1, (st0 = FlowStateEstablished -> P (key_of flow)) ->
    flow_lookup maphash busy fuel flow c0 st0 now d = Some (r, d1) ->
    established_in maphash P (d_flowTable d1) /\ frame (with_flows d (d_flowTable d1)) d1) as HL
    by (intros; by eapply flow_lookup_established).
  destruct kind; cbv zeta.
  1:{ destruct (decide _) as [Hd|Hd]; [intros [= _ <-]; by split|].
      destruct (flow_lookup _ _ _ _ _ _ _ _) as [[r d1]|] eqn:E; [|done]. rewrite bind_Some_eq. destruct r.
      intros [= _ <-]. eapply HL; [|exact E]. intros _. apply Hallow. by destruct (d_Action _). }
  all: destruct (flow_lookup _ _ _ _ _ _ _ _) as [[[fe created] d1]|] eqn:E; [|done]; rewrite bind_Some_eq;
    apply HL in E as [H1 F1]; [|done]; destruct fe as [e|]; [|by intros [= _ <-]; split];
    destruct (_ && _); intros [= _ <-]; [|by split].
  all: try (split; [by apply touch_flow_established|]; unfold touch_flow; destruct (find_flow _ _ _); [|done];
    unfold frame in *; cbn in *; intuition).
  split; [|unfold frame in *; cbn in *; intuition]. cbn [d_flowTable with_flows]. by apply UpdateState_established.
Qed.

End Inbound.

(** A policy in force: the decider and the content of the swap. *)
Abbreviation policy := (option PolicyDecider * option CompiledPolicy)%type.
Definition policy_of (d : Dispatcher) : policy := (d_policyDecider d, d_swap d).

(** Some policy of [Ps] allowed a connection start with this key to this node. *)
Definition allowed_key (Ps : list policy) (self : list Z) (k : FlowKey) : Prop :=
  exists pd sw src flow, (Some pd, sw) ∈ Ps /\ key_of flow = k /\
    d_Action (dispatch sw pd src self (FProto flow) (DstPort flow)) = ActionAllow.

Definition set_policy (d : Dispatcher) (pol : policy) : Dispatcher :=
  {| d_tun := d_tun d; d_peers := d_peers d; d_sessions := d_sessions d; d_policyDecider := pol.1;
     d_swap := pol.2; d_selfPeerID := d_selfPeerID d; d_flowTable := d_flowTable d;
     d_dropCounters := d_dropCounters d; d_lastDropLog := d_lastDropLog d |}.
Definition set_env (d : Dispatcher) (tun : option Prefix) (t : Table) (ss : gmap sptr Sess) : Dispatcher :=
  {| d_tun := tun; d_peers := t; d_sessions := ss; d_policyDecider := d_policyDecider d;
     d_swap := d_swap d; d_selfPeerID := d_selfPeerID d; d_flowTable := d_flowTable d;
     d_dropCounters := d_dropCounters d; d_lastDropLog := d_lastDropLog d |}.

(** A run of the data plane, with the policies in force so far.  Other
    components may change the peers, the sessions, the TUN and the policy. *)
Inductive dstep (maphash : list Z -> Z) : Dispatcher * list policy -> Dispatcher * list policy -> Prop :=
| DS_tun busy fuel pkt now d Ps d' evs :
    handleTunPacket maphash busy fuel pkt now d = Some (d', evs) -> dstep maphash (d, Ps) (d', Ps)
| DS_udp busy fuel pkt addr now d Ps d' evs :
    handleUDPPacket maphash busy fuel pkt addr now d = Some (d', evs) -> dstep maphash (d, Ps) (d', Ps)
| DS_expire range_map now d Ps :
    (forall m, range_map m ≡ₚ map_to_list m) ->
    dstep maphash (d, Ps) (with_flows d (ExpireOldFlows range_map now (d_flowTable d)).2, Ps)
| DS_policy d Ps pol : dstep maphash (d, Ps) (set_policy d pol, pol :: Ps)
| DS_env d Ps tun t ss : dstep maphash (d, Ps) (set_env d tun t ss, Ps).

Definition flows_allowed (maphash : list Z -> Z) (self : list Z) (x : Dispatcher * list policy) : Prop :=
  d_selfPeerID x.1 = self /\ policy_of x.1 ∈ x.2 /\
  established_in maphash (allowed_key x.2 self) (d_flowTable x.1).

Lemma allowed_key_mono Ps Ps' self k : Ps ⊆ Ps' -> allowed_key Ps self k -> allowed_key Ps' self k.
Proof. intros Hs (pd & sw & src & flow & Hin & H). exists pd, sw, src, flow. split; [by apply Hs|done]. Qed.

Lemma handleTunPacket_established maphash busy fuel P pkt now d d' evs :
  established_in maphash P (d_flowTable d) -> handleTunPacket maphash busy fuel pkt now d = Some (d', evs) ->
  established_in maphash P (d_flowTable d') /\ policy_of d' = policy_of d /\ d_selfPeerID d' = d_selfPeerID d.
Proof.
  intros Hinv. unfold handleTunPacket.
  destruct (extractDestIP pkt) as [odst|]; [|done]. rewrite bind_Some_eq.
  destruct (odst ≫= _) as [[p entry]|]; [|by intros [= <- _]].
  destruct (ParsePacket pkt) as [[[flow kind] [err|]]|]; [by intros [= <- _]| |done]. rewrite bind_Some_eq.
  assert (encryptAndSend maphash busy fuel p entry flow kind pkt now d = Some (d', evs) ->
    established_in maphash P (d_flowTable d') /\ policy_of d' = policy_of d /\ d_selfPeerID d' = d_selfPeerID d) as HS.
  { unfold encryptAndSend, hold. destruct (session entry ≫= _) as [[i s]|]; [|by intros [= <- _]].
    destruct (Session.Session.NeedsRekey s now); [by intros [= <- _]|].
    destruct (Session.Session.Encrypt s pkt) as [s' [[nonce ct]|err]]; [|by intros [= <- _]]. cbv zeta.
    destruct (negb _); [by intros [= <- _]|]. destruct (decide _); [|rewrite bind_Some_eq; by intros [= <- _]].
    destruct (flow_lookup _ _ _ _ _ _ _ _) as [[r d1]|] eqn:E; [|done].
    apply (flow_lookup_established maphash busy fuel P) in E as [H1 F]; [|done|done].
    rewrite bind_Some_eq. destruct r. rewrite bind_Some_eq. intros [= <- _]. split; [done|].
    unfold frame, policy_of in *. cbn in F. destruct F as (_ & -> & -> & -> & _). done. }
  destruct (outbound_decision entry flow d) as [dec|]; [|exact HS].
  destruct (decide _); [by intros [= <- _]|exact HS].
Qed.

Lemma handleUDPPacket_established maphash busy fuel P pkt addr now d d' evs :
  established_in maphash P (d_flowTable d) ->
  (forall pd src flow, d_policyDecider d = Some pd ->
     d_Action (decide_now d pd src (d_selfPeerID d) (FProto flow) (DstPort flow)) = ActionAllow -> P (key_of flow)) ->
  handleUDPPacket maphash busy fuel pkt addr now d = Some (d', evs) ->
  established_in maphash P (d_flowTable d') /\ policy_of d' = policy_of d /\ d_selfPeerID d' = d_selfPeerID d.
Proof.
  intros Hinv Hallow. unfold handleUDPPacket. destruct (sub pkt 0 HeaderSize) as [hdr|]; [|done]. rewrite bind_Some_eq.
  destruct (parseHeader hdr) as [[[ty ix] nonce]|]; [|done]. rewrite bind_Some_eq.
  destruct (sub_from pkt HeaderSize) as [payload|]; [|done]. rewrite bind_Some_eq.
  destruct (ty =? TypeData); [|repeat case_match; by intros [= <- _]].
  unfold handleData. destruct (addrToAddrPort addr) as [ep|]; [|by intros [= <- _]].
  destruct (LookupByEndpoint _ _) as [p|]; [|by intros [= <- _]].
  destruct (entries (d_peers d) !! p) as [entry|]; [|by intros [= <- _]].
  destruct (decryptDataPacket p entry nonce payload d) as [[d1 evs1] o] eqn:Hdec.
  apply decryptDataPacket_spec in Hdec as (F & _ & _). destruct F as (_ & Fpd & Fsw & Fself & Fft & _).
  assert (established_in maphash P (d_flowTable d1) /\ policy_of d1 = policy_of d) as [Hinv1 Hpol].
  { unfold policy_of. by rewrite Fft, Fpd, Fsw. }
  destruct o as [pl|]; [|by intros [= <- _]].
  destruct (sourceAllowed d1 p entry pl) as [[]|]; [|by intros [= <- _]|done]. rewrite bind_Some_eq. cbn [negb].
  destruct (match d_policyDecider d1 with None => Some (true, d1)
            | Some pd => checkInbound maphash busy fuel pd (ID entry) pl now d1 end) as [[pass d2]|] eqn:Hchk; [|done].
  assert (established_in maphash P (d_flowTable d2) /\ policy_of d2 = policy_of d /\ d_selfPeerID d2 = d_selfPeerID d) as HR.
  { destruct (d_policyDecider d1) as [pd|] eqn:Hpd; [|by injection Hchk as _ <-].
    apply (checkInbound_established maphash busy fuel P) in Hchk as [H2 F2]; [| |].
    - split; [done|]. destruct F2 as (_ & E1 & E2 & E3 & _). cbn in E1, E2, E3.
      unfold policy_of in *. rewrite E1, E2, E3. by rewrite Hpd in *.
    - done.
    - intros flow. unfold decide_now. rewrite Fsw, Fself. apply Hallow. by rewrite <- Fpd. }
  rewrite bind_Some_eq. destruct pass; cbn [negb]; by intros [= <- _].
Qed.

Lemma dstep_flows_allowed maphash self x y : dstep maphash x y -> flows_allowed maphash self x -> flows_allowed maphash self y.
Proof.
  destruct 1 as [busy fuel pkt now d Ps d' evs H|busy fuel pkt addr now d Ps d' evs H|range_map now d Ps Hr|d Ps pol|d Ps tun t ss];
    intros (Hself & Hin & Hest); cbn [fst snd] in *.
  - destruct (handleTunPacket_established _ _ _ _ _ _ _ _ _ Hest H) as (H1 & H2 & H3).
    split_and!; cbn [fst snd]; [congruence|by rewrite H2|done].
  - apply (handleUDPPacket_established _ _ _ (allowed_key Ps self)) in H as (H1 & H2 & H3); [|done|].
    + split_and!; cbn [fst snd]; [congruence|by rewrite H2|done].
    + intros pd src flow Hpd Ha. exists pd, (d_swap d), src, flow. split_and!; [|done|by rewrite <- Hself].
      unfold policy_of in Hin. by rewrite Hpd in Hin.
  - split_and!; [done|done|]. cbn [fst snd d_flowTable with_flows]. by apply expire_established.
  - split_and!; [done|by destruct pol; left|]. cbn [fst snd]. destruct Hest as [Hab He]. split; [done|].
    intros q a Hq Ha. eapply allowed_key_mono; [|by eapply He]. set_solver.
  - done.
Qed.

(** C2: no inbound packet passes without an allowed connection: along any run
    of the data plane, under changing policies, peers and sessions and under
    contention, every packet handed to the local stack while a policy is set
    has a flow for which one of the policies in force so far allowed a
    connection start to this node. *)
Theorem delivered_flow_was_allowed maphash c d0 d Ps busy fuel pkt addr now d' evs plain pd :
  d_flowTable d0 = NewFlowTable c ->
  rtc (dstep maphash) (d0, [policy_of d0]) (d, Ps) ->
  handleUDPPacket maphash busy fuel pkt addr now d = Some (d', evs) -> WriteTUN plain ∈ evs ->
  d_policyDecider d = Some pd ->
  exists flow kind, ParsePacket plain = Some (flow, kind, None) /\
    allowed_key Ps (d_selfPeerID d0) (key_of flow).
Proof.
  intros Hnew Hrun HU Hin Hpd.
  assert (flows_allowed maphash (d_selfPeerID d0) (d, Ps)) as (Hself & Hpol & Hest).
  { revert Hrun. apply (rtc_ind_r (flows_allowed maphash (d_selfPeerID d0))).
    - split_and!; cbn [fst snd]; [done|by left|]. rewrite Hnew. split; [eauto using NewFlowTable_abs|].
      intros q a Hq. unfold dat in Hq. cbn in Hq. done.
    - intros; by eapply dstep_flows_allowed. }
  cbn [fst snd] in *.
  destruct (inbound_delivery _ _ _ _ _ _ _ _ _ _ HU Hin) as (ep & p & entry & i & nonce & payload & src & _ & _ & _ & _ & _ & _ & _ & HP).
  destruct (HP pd Hpd) as (flow & kind & Hparse & Hcase). exists flow, kind. split; [done|].
  destruct Hcase as [[_ Ha]|[_ (q & e & Hf & He & Hst & _)]].
  - exists pd, (d_swap d), (ID entry), flow. split_and!; [|done|by rewrite <- Hself].
    unfold policy_of in Hpol. by rewrite Hpd in Hpol.
  - destruct (established_index _ _ _ _ _ Hest Hf) as (a & Ha & <-).
    apply (proj2 Hest q a Ha). unfold dat in Ha. rewrite He in Ha. injection Ha as <-. done.
Qed.

(** ** The handlers return *)
Section Total.
Variable maphash : list Z -> Z.
Variable fuel : nat.
Hypothesis Hfuel : (0 < fuel)%nat.
Abbreviation no_contention := (fun _ : nat => false).

(** The ciphers give byte strings, and the flow table is consistent. *)
Definition env_ok (d : Dispatcher) : Prop :=
  (exists ps l, abs maphash (d_flowTable d) ps l) /\
  forall i nonce ct pl, opens d i nonce ct pl -> bytes_ok pl.

Lemma flow_lookup_returns flow create st now d :
  (exists ps l, abs maphash (d_flowTable d) ps l) ->
  exists r, flow_lookup maphash no_contention fuel flow create st now d = Some r.
Proof.
  intros (ps & l & Hab). unfold flow_lookup.
  pose proof (Lookup_abs maphash no_contention fuel (d_flowTable d) ps l flow create st now Hab ltac:(done) Hfuel) as H.
  destruct (spec_Lookup _ _ _ _ _ _) as [[[ra r] c] l']. destruct H as (rp & ft' & ps' & -> & _).
  rewrite bind_Some_eq. eauto.
Qed.

Lemma extract_returns pkt :
  bytes_ok pkt -> (exists o, extractSrcIP pkt = Some o) /\ (exists o, extractDestIP pkt = Some o).
Proof.
  intros Hb. assert (returns (extractSrcIP pkt) (fun _ => True) /\ returns (extractDestIP pkt) (fun _ => True)) as [H1 H2].
  { unfold extractSrcIP, extractDestIP. split; repeat ret_step; done. }
  destruct (extractSrcIP pkt), (extractDestIP pkt); try done. eauto.
Qed.

Lemma parse_returns pkt : bytes_ok pkt -> exists r, ParsePacket pkt = Some r.
Proof.
  intros Hb. pose proof (ParsePacket_returns pkt Hb) as H. destruct (ParsePacket pkt); [eauto|done].
Qed.

Lemma checkInbound_returns pd src plain now d :
  bytes_ok plain -> (exists ps l, abs maphash (d_flowTable d) ps l) ->
  exists r, checkInbound maphash no_contention fuel pd src plain now d = Some r.
Proof.
  intros Hb Hab. unfold checkInbound. destruct (parse_returns plain Hb) as ([[flow kind] [err|]] & ->);
    rewrite bind_Some_eq; [eauto|].
  destruct kind; cbv zeta; [destruct (decide _); [eauto|]|..].
  all: edestruct (flow_lookup_returns flow) as ([[fe c] d1] & ->); [done|]; rewrite bind_Some_eq; [..|].
  all: try (by eauto); destruct fe; repeat case_match; eauto.
Qed.

(** C38: on every datagram of at least a header's length and on every packet
    read from the TUN, the handlers return: no access is out of range and the
    eviction loop of the flow table ends, when no other goroutine holds the
    shard of a victim. *)
Theorem handlers_return pkt addr now d :
  bytes_ok pkt -> env_ok d ->
  ((HeaderSize <= length pkt)%nat ->
     exists d' evs, handleUDPPacket maphash no_contention fuel pkt addr now d = Some (d', evs)) /\
  exists d' evs, handleTunPacket maphash no_contention fuel pkt now d = Some (d', evs).
Proof.
  intros Hb [Hab Hopen]. split.
  - intros Hlen. unfold handleUDPPacket. rewrite sub_Some, sub_from_Some by lia. rewrite bind_Some_eq.
    set (hdr := take (HeaderSize - 0) (drop 0 pkt)).
    assert (length hdr = 16%nat) as Hh by (unfold hdr, HeaderSize in *; rewrite length_take, length_drop; lia).
    assert (exists r, parseHeader hdr = Some r) as ([[ty ix] nonce] & ->).
    { unfold parseHeader, be_uint. rewrite !sub_Some by lia.
      repeat (rewrite ?bind_Some_eq; rewrite ?decide_True by (rewrite length_take, length_drop; lia)).
      eauto. }
    rewrite !bind_Some_eq. destruct (ty =? TypeData); [|repeat case_match; eauto].
    unfold handleData. destruct (addrToAddrPort addr) as [ep|]; [|eauto].
    destruct (LookupByEndpoint _ _) as [p|]; [|eauto]. destruct (entries (d_peers d) !! p) as [entry|]; [|eauto].
    destruct (decryptDataPacket p entry nonce _ d) as [[d1 evs1] o] eqn:Hdec.
    apply decryptDataPacket_spec in Hdec as (F & _ & Ho). destruct o as [pl|]; [|eauto].
    destruct (Ho pl eq_refl) as (i & Hi & _). pose proof (Hopen _ _ _ _ Hi) as Hpl.
    assert (exists b, sourceAllowed d1 p entry pl = Some b) as [b ->].
    { unfold sourceAllowed. destruct (proj1 (extract_returns pl Hpl)) as [[src|] ->]; rewrite bind_Some_eq; [|eauto].
      repeat case_match; eauto. }
    rewrite bind_Some_eq. destruct b; cbn [negb]; [|eauto].
    assert (exists r, match d_policyDecider d1 with None => Some (true, d1)
      | Some pd => checkInbound maphash no_contention fuel pd (ID entry) pl now d1 end = Some r) as ([pass d2] & ->).
    { destruct (d_policyDecider d1); [|eauto]. apply checkInbound_returns; [done|]. destruct F as (_ & _ & _ & _ & -> & _). done. }
    rewrite bind_Some_eq. destruct pass; cbn [negb]; eauto.
  - unfold handleTunPacket. destruct (proj2 (extract_returns pkt Hb)) as [odst ->]. rewrite bind_Some_eq.
    destruct (odst ≫= _) as [[p entry]|]; [|eauto].
    destruct (parse_returns pkt Hb) as ([[flow kind] [err|]] & ->); rewrite bind_Some_eq; [eauto|].
    assert (exists d' evs, encryptAndSend maphash no_contention fuel p entry flow kind pkt now d = Some (d', evs)) as HS.
    { unfold encryptAndSend, hold. destruct (session entry ≫= _) as [[i s]|]; [|eauto].
      destruct (Session.Session.NeedsRekey s now); [eauto|].
      destruct (Session.Session.Encrypt s pkt) as [s' [[nonce ct]|err]]; [|eauto]. cbv zeta.
      destruct (negb _); [eauto|]. destruct (decide _); [|rewrite bind_Some_eq; eauto].
      edestruct (flow_lookup_returns flow true FlowStateNew now (with_sess d i s')) as ([[fe c] d1] & ->); [done|].
      rewrite !bind_Some_eq. eauto. }
    destruct (outbound_decision entry flow d); [|exact HS]. destruct (decide _); [eauto|exact HS].
Qed.
End Total.

(** ** Witnesses *)

(** This node is bob, 10.0.0.2; alice, 10.0.0.1, is a peer with a session; the
    policy allows everything. *)
Definition allow_all : CompiledPolicy :=
  {| rules := []; defaultAction := ActionAllow; outboundOnly := ∅; knownPeers := ∅ |}.
Definition demo_alice : Entry := SetSession (Some 7%nat) (demo_peer 1 "alice" (demo_ep 1)).
Definition demo_peers : Table :=
  (Upsert 1 (PeerTable.PeerTable.with_entries (<[1%nat := demo_alice]> ∅) PeerTable.PeerTable.New)).2.
Definition demo_session : Sess := Session.Session.New Session.Session.demo_result 0.
Definition demo_d : Dispatcher :=
  {| d_tun := Some {| p_addr := Addr4 0x0A000002; p_bits := 24 |}; d_peers := demo_peers;
     d_sessions := {[7%nat := demo_session]}; d_policyDecider := Some (PDPolicy allow_all); d_swap := None;
     d_selfPeerID := replicate 32 2; d_flowTable := NewFlowTable demo_config;
     d_dropCounters := NewDropCounters; d_lastDropLog := 0 |}.

(** The two parts of a handler's result; evaluating the events alone avoids
    comparing whole states. *)
Definition res_state (r : option (Dispatcher * list event)) : Dispatcher :=
  match r with Some (d, _) => d | None => demo_d end.
Definition res_events (r : option (Dispatcher * list event)) : list event :=
  match r with Some (_, evs) => evs | None => [] end.
Definition res_ok (r : option (Dispatcher * list event)) : bool :=
  match r with Some _ => true | None => false end.
Lemma res_eq r : res_ok r = true -> r = Some (res_state r, res_events r).
Proof. by destruct r as [[]|]. Qed.

(** Alice's SYN to port 22 of bob, as it arrives. *)
Definition demo_in : option (Dispatcher * list event) :=
  handleUDPPacket demo_hash no_busy 2 (buildDataPacket 0 (0 :: demo_syn)) (UDPAddr (demo_ep 1)) 5 demo_d.

Lemma demo_in_eq : demo_in = Some (res_state demo_in, [WriteTUN demo_syn]).
Proof.
  assert (res_events demo_in = [WriteTUN demo_syn]) as <- by (vm_compute; reflexivity).
  apply res_eq. vm_compute. reflexivity.
Qed.

Lemma inbound_authorized_witness :
  exists ep p entry src, byEndpoint (d_peers demo_d) !! ep = Some p /\
    entries (d_peers demo_d) !! p = Some entry /\
    extractSrcIP demo_syn = Some (Some src) /\ may_send_from demo_d p entry src.
Proof.
  destruct (inbound_authorized demo_hash no_busy 2 (buildDataPacket 0 (0 :: demo_syn)) (UDPAddr (demo_ep 1)) 5
    demo_d (res_state demo_in) [WriteTUN demo_syn] demo_syn demo_in_eq
    (proj2 (list_elem_of_singleton _ _) eq_refl)) as (ep & p & entry & i & nonce & payload & src & _ & ? & ? & _ & _ & ? & ? & _).
  exists ep, p, entry, src. done.
Defined.

Lemma delivered_flow_was_allowed_witness :
  exists flow kind, ParsePacket demo_syn = Some (flow, kind, None) /\
    allowed_key [policy_of demo_d] (replicate 32 2) (key_of flow).
Proof.
  exact (delivered_flow_was_allowed demo_hash demo_config demo_d demo_d [policy_of demo_d] no_busy 2
    (buildDataPacket 0 (0 :: demo_syn)) (UDPAddr (demo_ep 1)) 5 (res_state demo_in) [WriteTUN demo_syn] demo_syn (PDPolicy allow_all) eq_refl (rtc_refl _ _) demo_in_eq (proj2 (list_elem_of_singleton _ _) eq_refl) eq_refl).
Defined.

(** Bob's SYN from port 2000 to port 80 of alice, and alice's SYN-ACK. *)
Definition demo_out_syn : list Z :=
  [0x45;0;0;40; 0;0;0x40;0; 64;6;0;0; 10;0;0;2; 10;0;0;1;
   7;208;0;80; 0;0;0;0; 0;0;0;0; 0x50;2;0;0; 0;0;0;0].
Definition demo_syn_ack : list Z :=
  [0x45;0;0;40; 0;0;0x40;0; 64;6;0;0; 10;0;0;1; 10;0;0;2;
   0;80;7;208; 0;0;0;0; 0;0;0;0; 0x50;0x12;0;0; 0;0;0;0].
Definition demo_out : option (Dispatcher * list event) :=
  handleTunPacket demo_hash no_busy 2 demo_out_syn 5 demo_d.

Lemma demo_out_eq :
  demo_out = Some (res_state demo_out, [SendUDP (buildDataPacket 0 (0 :: demo_out_syn)) (demo_ep 1)]).
Proof.
  assert (res_events demo_out = [SendUDP (buildDataPacket 0 (0 :: demo_out_syn)) (demo_ep 1)]) as <-
    by (vm_compute; reflexivity).
  apply res_eq. vm_compute. reflexivity.
Qed.

Lemma outbound_authorized_witness :
  exists dest p entry, extractDestIP demo_out_syn = Some (Some dest) /\
    byVPN (d_peers demo_d) !! dest = Some p /\ entries (d_peers demo_d) !! p = Some entry /\
    demo_ep 1 = endpoint entry.
Proof.
  destruct (outbound_authorized demo_hash no_busy 2 demo_out_syn 5 demo_d (res_state demo_out)
    [SendUDP (buildDataPacket 0 (0 :: demo_out_syn)) (demo_ep 1)] (buildDataPacket 0 (0 :: demo_out_syn)) (demo_ep 1) demo_out_eq
    (proj2 (list_elem_of_singleton _ _) eq_refl)) as (dest & p & entry & i & s & s' & nonce & ct & flow & kind & ? & ? & ? & ? & _).
  exists dest, p, entry. done.
Defined.

(** A policy that denies everything does not hold back a fragment with protocol
    0, nor an ICMP error that quotes a packet with protocol 0. *)
Definition deny_all : CompiledPolicy :=
  {| rules := []; defaultAction := ActionDeny; outboundOnly := ∅; knownPeers := ∅ |}.
Definition deny_d : Dispatcher :=
  {| d_tun := d_tun demo_d; d_peers := demo_peers; d_sessions := d_sessions demo_d; d_policyDecider := Some (PDPolicy deny_all);
     d_swap := None; d_selfPeerID := d_selfPeerID demo_d; d_flowTable := d_flowTable demo_d;
     d_dropCounters := NewDropCounters; d_lastDropLog := 0 |}.
Definition proto0_fragment : list Z :=
  [0x45;0;0;24; 0;0;0x20;1; 64;0;0;0; 10;0;0;2; 10;0;0;1; 7;7;7;7].
Definition proto0_error : list Z :=
  [0x45;0;0;52; 0;0;0x40;0; 64;1;0;0; 10;0;0;2; 10;0;0;1; 3;1;0;0; 0;0;0;0] ++
  [0x45;0;0;40; 0;0;0x40;0; 64;0;0;0; 10;0;0;1; 10;0;0;2; 0;0;0;0].

Example unpoliced_packet_leaves :
  res_events (handleTunPacket demo_hash no_busy 2 proto0_fragment 5 deny_d) =
    [SendUDP (buildDataPacket 0 (0 :: proto0_fragment)) (demo_ep 1)] /\
  res_events (handleTunPacket demo_hash no_busy 2 proto0_error 5 deny_d) =
    [SendUDP (buildDataPacket 0 (0 :: proto0_error)) (demo_ep 1)] /\
  forallb (fun ev => match ev with SendUDP _ _ => false | _ => true end)
    (res_events (handleTunPacket demo_hash no_busy 2 demo_out_syn 5 deny_d)) = true.
Proof. split_and!; vm_compute; reflexivity. Qed.

(** Whether a check lets the packet pass. *)
Definition passes (r : option (bool * Dispatcher)) : option bool := fst <$> r.

Lemma reply_to_new_flow_dropped_witness :
  passes (checkInbound demo_hash no_busy 2 (PDPolicy allow_all) (replicate 32 1) demo_syn_ack 6 (res_state demo_out)) =
  Some false.
Proof.
  set (d1 := res_state demo_out).
  destruct (checkInbound demo_hash no_busy 2 (PDPolicy allow_all) (replicate 32 1) demo_syn_ack 6 d1) as [[pass d2]|] eqn:E.
  2:{ exfalso. assert (passes (checkInbound demo_hash no_busy 2 (PDPolicy allow_all) (replicate 32 1) demo_syn_ack 6 d1) <> None)
        as Hn by (vm_compute; discriminate). rewrite E in Hn. done. }
  cbn. f_equal.
  assert (exists e, heap (evict (d_flowTable d1)) !! 0%nat = Some e /\ e_State e = FlowStateNew) as (e & He & Hst).
  { assert (e_State <$> heap (evict (d_flowTable d1)) !! 0%nat = Some FlowStateNew) as H by (vm_compute; reflexivity).
    destruct (heap (evict (d_flowTable d1)) !! 0%nat) as [e|]; [|done]. injection H as H. eauto. }
  refine (reply_to_new_flow_dropped demo_hash no_busy 2 _ _ demo_syn_ack
    {| SrcIP := zeros 12 ++ [10; 0; 0; 1]; DstIP := zeros 12 ++ [10; 0; 0; 2]; SrcPort := 80; DstPort := 2000;
       FProto := 6; IPv6 := false |} KindOther 6 d1 pass d2 0%nat e _ _ _ He Hst E); [vm_compute; reflexivity|done|].
  vm_compute. reflexivity.
Defined.

Lemma handlers_return_witness :
  exists d' evs, handleTunPacket demo_hash (fun _ => false) 1 demo_out_syn 5 (set_env demo_d None demo_peers ∅) =
    Some (d', evs).
Proof.
  refine (proj2 (handlers_return demo_hash 1 ltac:(lia) demo_out_syn (UDPAddr (demo_ep 1)) 5
    (set_env demo_d None demo_peers ∅) _ _)).
  - apply (bool_decide_unpack _). vm_compute. exact I.
  - split; [exists [], []; apply NewFlowTable_abs|]. by intros i nonce ct pl (s & Hs & _).
Defined.

End Dispatcher.
