(* ===== verification/AddrText.v ===== *)
(** * The text forms of [net/netip] addresses and prefixes

    [Addr.String], [ParseAddr], [Prefix.String], [ParsePrefix], [Addr.Next] and
    [Addr.Compare] of Go's [net/netip], as the coordinator's registry uses them
    to keep addresses as text.  Strings are scanned as byte lists, in the order
    the library scans them.  The IPv4 half is proved to round-trip. *)
From Stdlib Require Import ZArith Lia Ascii.
From stdpp Require Import base numbers list gmap strings.
From S2P Require Import Prelude GoLib PeerTable.

Module AddrText.
Import Netip Strings.

Definition dot : Z := 46.
Definition colon : Z := 58.
Definition percent : Z := 37.
Definition slash : Z := 47.

(** ** Printing *)

(** Decimal and hexadecimal digits of a number, without leading zeros. *)
Fixpoint digits (fuel : nat) (base n : Z) (acc : list Z) : list Z :=
  match fuel with
  | O => acc
  | S f =>
      let acc' := Hex.hexdigit (n mod base) :: acc in
      if n <? base then acc' else digits f base (n / base) acc'
  end.

Definition dec (n : Z) : list Z := digits 20 10 n [].
Definition hex (n : Z) : list Z := digits 16 16 n [].

Definition octet (v : Z) (i : Z) : Z := Z.land (Z.shiftr v (24 - 8 * i)) 255.

Definition string4 (v : Z) : list Z :=
  dec (octet v 0) ++ dot :: dec (octet v 1) ++ dot :: dec (octet v 2) ++ dot :: dec (octet v 3).

Definition group (v : Z) (i : Z) : Z := Z.land (Z.shiftr v (112 - 16 * i)) 0xFFFF.

(** The number of zero groups from group [i] on. *)
Fixpoint zero_run (n : nat) (v i : Z) : Z :=
  match n with
  | O => 0
  | S n' => if (i <? 8) && (group v i =? 0) then 1 + zero_run n' v (i + 1) else 0
  end.

(** The first of the longest runs of at least two zero groups, as its start and
    end; (255, 255) when there is none. *)
Definition longest_run (v : Z) : Z * Z :=
  foldl (fun '(s, e) i =>
           let j := i + zero_run 8 v i in
           if (2 <=? j - i) && (e - s <? j - i) then (i, j) else (s, e))
        (255, 255) [0; 1; 2; 3; 4; 5; 6; 7].

Fixpoint groups_from (n : nat) (v i zs ze : Z) : list Z :=
  match n with
  | O => []
  | S n' =>
      if 8 <=? i then []
      else if i =? zs then
        colon :: colon ::
          (if 8 <=? ze then [] else hex (group v ze) ++ groups_from n' v (ze + 1) zs ze)
      else (if 0 <? i then [colon] else []) ++ hex (group v i) ++ groups_from n' v (i + 1) zs ze
  end.

Definition zone_suffix (zone : string) : list Z :=
  if String.eqb zone "" then [] else percent :: bytes_of_string zone.

Definition addr_bytes (a : Addr) : list Z :=
  match a with
  | AddrZero => bytes_of_string "invalid IP"
  | Addr4 v => string4 v
  | Addr6 v zone =>
      (if is4in6 v then bytes_of_string "::ffff:" ++ string4 (Z.land v (Z.ones 32))
       else let '(zs, ze) := longest_run v in groups_from 9 v 0 zs ze) ++ zone_suffix zone
  end.

(** [Addr.String]. *)
Definition addr_string (a : Addr) : string := string_of_bytes (addr_bytes a).

(** [AddrPort.String]. *)
Definition addr_port_string (ap : AddrPort) : string :=
  match ap_addr ap with
  | AddrZero => "invalid AddrPort"
  | Addr4 v => string_of_bytes (string4 v ++ colon :: dec (ap_port ap))
  | Addr6 _ _ => string_of_bytes (91 :: addr_bytes (ap_addr ap) ++ 93 :: colon :: dec (ap_port ap))
  end.

(** [Prefix.String]. *)
Definition prefix_string (p : Prefix) : string :=
  if prefix_valid p then string_of_bytes (addr_bytes (p_addr p) ++ slash :: dec (p_bits p))
  else "invalid Prefix".

(** ** Parsing *)

(** The loop of [parseIPv4Fields]: [val] and [digLen] describe the current
    octet, [fields] the octets that are complete, latest first. *)
Fixpoint fields4 (l : list Z) (val digLen : Z) (fields : list Z) : option (list Z) :=
  match l with
  | [] => if (length fields <? 3)%nat then None else Some (val :: fields)
  | c :: l' =>
      if Scan.is_digit c then
        if (digLen =? 1) && (val =? 0) then None
        else
          let val' := val * 10 + (c - 48) in
          if 255 <? val' then None else fields4 l' val' (digLen + 1) fields
      else if c =? dot then
        if (digLen =? 0) || bool_decide (l' = []) then None
        else if (length fields =? 3)%nat then None
        else fields4 l' 0 0 (val :: fields)
      else None
  end.

Definition parse4 (l : list Z) : option Z := fields ← fields4 l 0 0 []; Some (be_get (reverse fields)).

(** One hexadecimal group: its value and the rest; at most four digits. *)
Fixpoint hex_group (off : nat) (acc : Z) (l : list Z) : option (nat * Z * list Z) :=
  match l with
  | [] => Some (off, acc, [])
  | c :: l' =>
      match Hex.digit c with
      | None => Some (off, acc, l)
      | Some d => if (3 <? off)%nat then None else hex_group (S off) (acc * 16 + d) l'
      end
  end.

(** The loop of [parseIPv6]: [ip] holds the bytes read so far, [ell] the
    position of the ellipsis.  The result is the final [ip], [ell] and the
    unread rest. *)
Fixpoint fields6 (n : nat) (s ip : list Z) (ell : option nat) : option (list Z * option nat * list Z) :=
  match n with
  | O => Some (ip, ell, s)
  | S n' =>
      if (16 <=? length ip)%nat then Some (ip, ell, s) else
      '(off, acc, rest) ← hex_group 0 0 s;
      if (off =? 0)%nat then None
      else match rest with
           | 46 :: _ =>
               if bool_decide (ell = None) && negb (length ip =? 12)%nat then None
               else if (16 <? length ip + 4)%nat then None
               else v ← parse4 s; Some (ip ++ be_put 4 v, ell, [])
           | [] => Some (ip ++ be_put 2 acc, ell, [])
           | [58] => None
           | 58 :: 58 :: rest' =>
               match ell with
               | Some _ => None
               | None =>
                   let ip' := ip ++ be_put 2 acc in
                   if bool_decide (rest' = []) then Some (ip', Some (length ip'), [])
                   else fields6 n' rest' ip' (Some (length ip'))
               end
           | 58 :: rest' => fields6 n' rest' (ip ++ be_put 2 acc) ell
           | _ => None
           end
  end.

Fixpoint split_at (c : Z) (l : list Z) : list Z * option (list Z) :=
  match l with
  | [] => ([], None)
  | x :: l' => if x =? c then ([], Some l') else let '(a, b) := split_at c l' in (x :: a, b)
  end.

Definition parse6 (l : list Z) : option Addr :=
  let '(s, z) := split_at percent l in
  if bool_decide (z = Some []) then None
  else
    let zone := match z with Some z => string_of_bytes z | None => EmptyString end in
    let '(s, ell) := match s with 58 :: 58 :: s' => (s', Some 0%nat) | _ => (s, None) end in
    if bool_decide (ell = Some 0%nat) && bool_decide (s = []) then Some (Addr6 0 zone)
    else
      '(ip, ell, rest) ← fields6 9 s [] ell;
      if negb (bool_decide (rest = [])) then None
      else if (length ip <? 16)%nat then
        e ← ell; Some (Addr6 (be_get (take e ip ++ zeros (16 - length ip) ++ drop e ip)) zone)
      else match ell with Some _ => None | None => Some (Addr6 (be_get ip) zone) end.

(** [ParseAddr]: the first "." or ":" decides the family. *)
Fixpoint family (l : list Z) : option bool :=
  match l with
  | [] => None
  | c :: l' =>
      if c =? dot then Some true
      else if c =? colon then Some false
      else if c =? percent then None
      else family l'
  end.

Definition parse_addr (l : list Z) : option Addr :=
  match family l with
  | Some true => v ← parse4 l; Some (Addr4 v)
  | Some false => parse6 l
  | None => None
  end.

Definition ParseAddr (s : string) : option Addr := parse_addr (bytes_of_string s).

(** The last "/" splits the prefix. *)
Fixpoint split_last (c : Z) (l : list Z) : option (list Z * list Z) :=
  match l with
  | [] => None
  | x :: l' =>
      match split_last c l' with
      | Some (a, b) => Some (x :: a, b)
      | None => if x =? c then Some ([], l') else None
      end
  end.

Definition parse_bits (l : list Z) : option Z :=
  match l with
  | [] => None
  | c :: l' =>
      if negb (bool_decide (l' = [])) && ((c <? 49) || (57 <? c)) then None
      else if forallb Scan.is_digit l then Some (Scan.dec_value l) else None
  end.

Definition ParsePrefix (s : string) : option Prefix :=
  '(a, b) ← split_last slash (bytes_of_string s);
  ip ← parse_addr a;
  if has_zone ip then None
  else
    bits ← parse_bits b;
    if bit_len ip <? bits then None else Some {| p_addr := ip; p_bits := bits |}.

(** [ParseAddrPort]: the last ":" splits the port, an IPv6 address stands in
    brackets. *)
Definition parse_port (l : list Z) : option Z :=
  if bool_decide (l = []) || negb (forallb Scan.is_digit l) then None
  else if 65535 <? Scan.dec_value l then None else Some (Scan.dec_value l).

Definition ParseAddrPort (s : string) : option AddrPort :=
  '(ip, port) ← split_last colon (bytes_of_string s);
  if bool_decide (ip = []) then None
  else
    '(ip, v6) ← match ip with
                | 91 :: rest => match last rest with
                                | Some 93 => Some (take (length rest - 1) rest, true)
                                | _ => None
                                end
                | _ => Some (ip, false)
                end;
    p ← parse_port port;
    a ← parse_addr ip;
    match a, v6 with
    | Addr4 _, false | Addr6 _ _, true => Some {| ap_addr := a; ap_port := p |}
    | _, _ => None
    end.

(** [net.SplitHostPort]: the last ":" splits the port; a host in brackets ends with
    its first "]", right before that ":", and a host without brackets has no ":";
    there are no further brackets. *)
Definition SplitHostPort (s : string) : option (string * string) :=
  let l := bytes_of_string s in
  '(before, port) ← split_last colon l;
  match l with
  | 91 :: rest =>
      match split_at 93 rest with
      | (host, Some after) =>
          if bool_decide (before = 91 :: host ++ [93]) && negb (bool_decide (91 ∈ rest)) && negb (bool_decide (93 ∈ after))
          then Some (string_of_bytes host, string_of_bytes port) else None
      | (_, None) => None
      end
  | _ =>
      if bool_decide (colon ∈ before) || bool_decide (91 ∈ l) || bool_decide (93 ∈ l) then None
      else Some (string_of_bytes before, string_of_bytes port)
  end.

Definition IsUnspecified (a : Addr) : bool :=
  match a with
  | AddrZero => false
  | Addr4 v => v =? 0
  | Addr6 v z => (v =? 0) && String.eqb z ""
  end.

(** [IsMulticast]: of an IPv4-mapped address, that of the IPv4 address. *)
Definition IsMulticast (a : Addr) : bool :=
  match Unmap a with
  | AddrZero => false
  | Addr4 v => Z.shiftr v 28 =? 14
  | Addr6 v _ => Z.shiftr v 120 =? 255
  end.

(** ** Order *)

(** [Addr.Next]: the zero address on overflow. *)
Definition Next (a : Addr) : Addr :=
  match a with
  | AddrZero => AddrZero
  | Addr4 v => if v + 1 =? 2 ^ 32 then AddrZero else Addr4 (v + 1)
  | Addr6 v z => if v + 1 =? 2 ^ 128 then AddrZero else Addr6 (v + 1) z
  end.

Definition cmp_then (c k : comparison) : comparison := match c with Eq => k | _ => c end.

(** [Addr.Compare]. *)
Definition addr_compare (a b : Addr) : comparison :=
  cmp_then (bit_len a ?= bit_len b)
    (cmp_then (addr_val a ?= addr_val b)
       (match a, b with
        | Addr6 _ z1, Addr6 _ z2 => String.compare z1 z2
        | _, _ => Eq
        end)).

(** ** The IPv4 text round-trips *)
Definition ip4_ok (a : Addr) : Prop :=
  match a with Addr4 v => 0 <= v < 2 ^ 32 | _ => False end.

#[export] Instance ip4_ok_dec a : Decision (ip4_ok a).
Proof. destruct a; apply _. Defined.

Lemma octet_byte v i : byte_ok (octet v i).
Proof.
  unfold byte_ok, octet. change 255 with (Z.ones 8). rewrite Z.land_ones by lia.
  apply Z.mod_pos_bound. lia.
Qed.

(** Reading the decimal of a byte leaves that byte as the current value. *)
Lemma fields4_dec b rest fs :
  byte_ok b -> exists n, 0 < n /\ fields4 (dec b ++ rest) 0 0 fs = fields4 rest b n fs.
Proof.
  intros Hb. unfold byte_ok in Hb.
  assert (forall c l v n f, 48 <= c <= 57 -> (n =? 1) && (v =? 0) = false -> v * 10 + (c - 48) <= 255 ->
            fields4 (c :: l) v n f = fields4 l (v * 10 + (c - 48)) (n + 1) f) as Hstep.
  { intros c l v n f Hc Hz Hv. cbn [fields4]. unfold Scan.is_digit.
    rewrite (proj2 (Z.leb_le 48 c)), (proj2 (Z.leb_le c 57)) by lia. cbn [andb].
    rewrite Hz, (proj2 (Z.ltb_ge _ _)) by lia. done. }
  pose proof (Z.mod_pos_bound b 10) as M0. pose proof (Z.mod_pos_bound (b / 10) 10) as M1.
  pose proof (Z.div_mod b 10) as D0. pose proof (Z.div_mod (b / 10) 10) as D1.
  unfold dec. cbn [digits]. unfold Hex.hexdigit.
  rewrite !(proj2 (Z.ltb_lt (_ mod 10) 10)) by (apply Z.mod_pos_bound; lia).
  destruct (b <? 10) eqn:E0; bool_to_prop; cbn [app].
  - exists 1. split; [lia|]. rewrite Hstep by (try reflexivity; lia).
    f_equal; lia.
  - assert (1 <= b / 10) by (apply Z.div_le_lower_bound; lia).
    destruct (b / 10 <? 10) eqn:E1; bool_to_prop; cbn [app].
    + exists 2. split; [lia|]. rewrite Hstep by (try reflexivity; lia).
      rewrite Hstep; [f_equal; lia|lia| |lia].
      cbn. apply Z.eqb_neq. lia.
    + assert (1 <= b / 10 / 10) by (apply Z.div_le_lower_bound; lia).
      assert (b / 10 / 10 < 10) by (rewrite Z.div_div by lia; apply Z.div_lt_upper_bound; lia).
      rewrite (proj2 (Z.ltb_lt (b / 10 / 10) 10)) by lia.
      pose proof (Z.mod_small (b / 10 / 10) 10) as M2.
      exists 3. split; [lia|]. cbn [app]. rewrite Hstep by (try reflexivity; lia).
      rewrite Hstep; [|lia| |lia].
      2: { cbn. apply Z.eqb_neq. lia. }
      rewrite Hstep; [f_equal; lia|lia|reflexivity|lia].
Qed.

Lemma fields4_dot rest b n fs :
  0 < n -> rest <> [] -> (length fs < 3)%nat ->
  fields4 (dot :: rest) b n fs = fields4 rest 0 0 (b :: fs).
Proof.
  intros Hn Hr Hf. cbn [fields4].
  change (Scan.is_digit dot) with false. cbn match. rewrite Z.eqb_refl.
  rewrite (proj2 (Z.eqb_neq n 0)), (bool_decide_eq_false_2 _ Hr) by lia. cbn [orb].
  by rewrite (proj2 (Nat.eqb_neq _ 3)) by lia.
Qed.

Lemma dec_nonempty b rest : dec b ++ rest <> [].
Proof.
  assert (forall f n acc, (0 < f)%nat \/ acc <> [] -> digits f 10 n acc <> []) as H.
  { intros f. induction f as [|f IH]; intros n acc Hf; [destruct Hf; [lia|done]|].
    cbn. case_step; [done|]. apply IH. by right. }
  intros [E _]%app_eq_nil. eapply (H 20%nat b []); [left; lia|done].
Qed.

Lemma fields4_octet b rest fs :
  byte_ok b -> rest <> [] -> (length fs < 3)%nat ->
  fields4 (dec b ++ dot :: rest) 0 0 fs = fields4 rest 0 0 (b :: fs).
Proof.
  intros Hb Hr Hf. destruct (fields4_dec b (dot :: rest) fs Hb) as (n & Hn & ->).
  by apply fields4_dot.
Qed.

Lemma octet_div v i : 0 <= i <= 3 -> octet v i = (v / 256 ^ (3 - i)) mod 256.
Proof.
  intros Hi. unfold octet. change 255 with (Z.ones 8). rewrite Z.land_ones, Z.shiftr_div_pow2 by lia.
  replace (24 - 8 * i) with (8 * (3 - i)) by lia. by rewrite Z.pow_mul_r by lia.
Qed.

Lemma be_get_octets v :
  0 <= v < 2 ^ 32 -> be_get [octet v 0; octet v 1; octet v 2; octet v 3] = v.
Proof.
  intros Hv. rewrite !octet_div by lia.
  change (be_get (be_put 4 v) = v). rewrite be_get_put.
  apply Z.mod_small. cbn. lia.
Qed.

Lemma parse4_string4 v : 0 <= v < 2 ^ 32 -> parse4 (string4 v) = Some v.
Proof.
  intros Hv. unfold parse4, string4.
  rewrite !fields4_octet; [|solve [apply octet_byte | cbn; lia | apply dec_nonempty
                            | rewrite <- (app_nil_r (dec _)); apply dec_nonempty]..].
  rewrite <- (app_nil_r (dec (octet v 3))).
  destruct (fields4_dec (octet v 3) [] [octet v 2; octet v 1; octet v 0] (octet_byte v 3)) as (n & _ & ->).
  cbn [fields4]. cbn -[octet be_get]. by rewrite be_get_octets.
Qed.

Lemma digits_hexdigits f base n acc :
  2 <= base <= 10 -> Forall (fun c => 48 <= c <= 57) acc -> Forall (fun c => 48 <= c <= 57) (digits f base n acc).
Proof.
  intros Hb. revert n acc. induction f as [|f IH]; intros n acc Ha; cbn; [done|].
  pose proof (Z.mod_pos_bound n base ltac:(lia)).
  assert (Forall (fun c => 48 <= c <= 57) (Hex.hexdigit (n mod base) :: acc)).
  { constructor; [|done]. unfold Hex.hexdigit. rewrite (proj2 (Z.ltb_lt _ _)) by lia. lia. }
  case_step; [done|]. by apply IH.
Qed.

Lemma dec_digits n : Forall (fun c => 48 <= c <= 57) (dec n).
Proof. apply digits_hexdigits; [lia|constructor]. Qed.

Lemma string4_bytes_ok v : bytes_ok (string4 v).
Proof.
  unfold string4, bytes_ok.
  assert (forall n, Forall byte_ok (dec n)).
  { intros n. eapply Forall_impl; [apply dec_digits|]. unfold byte_ok. cbn. lia. }
  rewrite !Forall_app, !Forall_cons, !Forall_app, !Forall_cons, !Forall_app, !Forall_cons.
  unfold byte_ok, dot. naive_solver lia.
Qed.

Lemma family_string4 v : family (string4 v) = Some true.
Proof.
  unfold string4. generalize (dec_digits (octet v 0)). generalize (dec (octet v 0)) as l.
  induction 1 as [|c l Hc _ IH]; [done|]. cbn. unfold dot, colon, percent in *.
  by rewrite !(proj2 (Z.eqb_neq _ _)) by lia.
Qed.

Lemma parse_addr_bytes a : ip4_ok a -> parse_addr (addr_bytes a) = Some a.
Proof.
  destruct a as [|v|]; try done. intros Hv. cbn [addr_bytes]. unfold parse_addr.
  by rewrite family_string4, parse4_string4.
Qed.

Lemma ParseAddr_String a : ip4_ok a -> ParseAddr (addr_string a) = Some a.
Proof.
  intros Ha. unfold ParseAddr, addr_string. rewrite bytes_of_string_of_bytes.
  - by apply parse_addr_bytes.
  - destruct a; try done. apply string4_bytes_ok.
Qed.

Lemma addr_string_inj a b : ip4_ok a -> ip4_ok b -> addr_string a = addr_string b -> a = b.
Proof.
  intros Ha Hb E. apply (f_equal ParseAddr) in E. rewrite !ParseAddr_String in E by done. congruence.
Qed.

Lemma split_last_fresh c l : c ∉ l -> split_last c l = None.
Proof.
  induction l as [|x l IH]; [done|]. rewrite not_elem_of_cons. intros [Hx Hl]. cbn.
  rewrite (IH Hl). by rewrite (proj2 (Z.eqb_neq x c)) by congruence.
Qed.

Lemma split_last_app c a b : c ∉ b -> split_last c (a ++ c :: b) = Some (a, b).
Proof.
  intros Hb. induction a as [|x a IH]; cbn.
  - by rewrite split_last_fresh, Z.eqb_refl.
  - by rewrite IH.
Qed.

Lemma parse_bits_dec n : 0 <= n <= 32 -> parse_bits (dec n) = Some n.
Proof.
  intros Hn. assert (Forall (fun i => parse_bits (dec (Z.of_nat i)) = Some (Z.of_nat i)) (seq 0 33)) as H.
  { cbn [seq]. repeat (apply Forall_cons; split; [reflexivity|]). constructor. }
  rewrite Forall_forall in H. specialize (H (Z.to_nat n)). rewrite Z2Nat.id in H by lia.
  apply H. apply elem_of_seq. lia.
Qed.

Definition prefix4_ok (p : Prefix) : Prop := ip4_ok (p_addr p) /\ 0 <= p_bits p <= 32.

#[export] Instance prefix4_ok_dec p : Decision (prefix4_ok p).
Proof. unfold prefix4_ok. apply _. Defined.

Lemma prefix4_valid p : prefix4_ok p -> prefix_valid p = true.
Proof.
  intros [Ha Hb]. unfold prefix_valid. destruct (p_addr p); try done. cbn.
  by rewrite !(proj2 (Z.leb_le _ _)) by lia.
Qed.

Lemma ParsePrefix_String p : prefix4_ok p -> ParsePrefix (prefix_string p) = Some p.
Proof.
  intros Hp. unfold prefix_string. rewrite prefix4_valid by done.
  destruct Hp as [Ha Hb]. destruct p as [[|v|] bits]; try done. cbn [p_addr p_bits] in *.
  assert (Forall byte_ok (dec bits)).
  { eapply Forall_impl; [apply dec_digits|]. unfold byte_ok. cbn. lia. }
  unfold ParsePrefix. rewrite bytes_of_string_of_bytes.
  2: { apply bytes_ok_app. split; [apply string4_bytes_ok|].
       constructor; [unfold byte_ok, slash; lia|done]. }
  rewrite split_last_app.
  2: { intros Hin. pose proof (dec_digits bits) as Hd. rewrite Forall_forall in Hd.
       specialize (Hd _ Hin). unfold slash in Hd. lia. }
  rewrite bind_Some_eq, parse_addr_bytes, bind_Some_eq by done. cbn [has_zone].
  rewrite parse_bits_dec, bind_Some_eq by done. cbn [bit_len].
  by rewrite (proj2 (Z.ltb_ge _ _)) by lia.
Qed.

(** The digits of a number are read back as that number. *)
Lemma digits_value f n acc : 0 <= n < 10 ^ Z.of_nat f -> (0 < f)%nat ->
  foldl (fun acc c => acc * 10 + (c - 48)) 0 (digits f 10 n acc) = foldl (fun acc c => acc * 10 + (c - 48)) n acc.
Proof.
  revert n acc. induction f as [|f IH]; intros n acc Hn Hf; [lia|]. cbn [digits].
  pose proof (Z.mod_pos_bound n 10 ltac:(lia)) as Hm. pose proof (Z.div_mod n 10 ltac:(lia)) as Hd.
  assert (Hex.hexdigit (n mod 10) = 48 + n mod 10) as -> by (unfold Hex.hexdigit; by rewrite (proj2 (Z.ltb_lt _ _)) by lia).
  destruct (n <? 10) eqn:E; bool_to_prop.
  - rewrite Z.mod_small by lia. cbn [foldl]. f_equal. lia.
  - rewrite Nat2Z.inj_succ, Z.pow_succ_r in Hn by lia. destruct f as [|f]; [cbn in Hn; lia|].
    rewrite IH by lia. cbn [foldl]. f_equal. lia.
Qed.

Lemma parse_port_dec n : 0 <= n < 65536 -> parse_port (dec n) = Some n.
Proof.
  intros Hn. assert (Scan.dec_value (dec n) = n) as Hv by (apply (digits_value 20 n []); [|lia]; lia).
  unfold parse_port. rewrite Hv, (proj2 (Z.ltb_ge _ _)) by lia.
  assert (forallb Scan.is_digit (dec n) = true) as ->.
  { apply forallb_forall. intros c Hc. pose proof (dec_digits n) as Hd. rewrite List.Forall_forall in Hd. specialize (Hd c Hc).
    unfold Scan.is_digit. by rewrite !(proj2 (Z.leb_le _ _)) by lia. }
  rewrite bool_decide_false; [done|]. intros E. by apply (dec_nonempty n []); rewrite app_nil_r.
Qed.

Lemma ParseAddrPort_String v port :
  0 <= v < 2 ^ 32 -> 0 <= port < 65536 ->
  ParseAddrPort (addr_port_string {| ap_addr := Addr4 v; ap_port := port |}) = Some {| ap_addr := Addr4 v; ap_port := port |}.
Proof.
  intros Hv Hp. unfold addr_port_string. cbn [ap_addr ap_port]. unfold ParseAddrPort. rewrite bytes_of_string_of_bytes.
  2: { apply bytes_ok_app. split; [apply string4_bytes_ok|]. constructor; [unfold byte_ok, colon; lia|].
       eapply Forall_impl; [apply dec_digits|]. unfold byte_ok. cbn. lia. }
  rewrite split_last_app.
  2: { intros Hin. pose proof (dec_digits port) as Hd. rewrite Forall_forall in Hd. specialize (Hd _ Hin). unfold colon in Hd. lia. }
  rewrite bind_Some_eq. destruct (string4 v) as [|c l] eqn:E.
  { unfold string4 in E. by apply app_eq_nil in E as [_ ?]. }
  rewrite bool_decide_false by done.
  assert (48 <= c <= 57) as Hc.
  { unfold string4 in E. pose proof (dec_digits (octet v 0)) as Hd. destruct (dec (octet v 0)) as [|c' l'] eqn:E2.
    - exfalso. by apply (dec_nonempty (octet v 0) []); rewrite E2.
    - inversion Hd; subst. cbn in E. congruence. }
  assert ((match c :: l with
           | 91 :: rest => match last rest with Some 93 => Some (take (length rest - 1) rest, true) | _ => None end
           | _ => Some (c :: l, false)
           end : option (list Z * bool)) = Some (c :: l, false)) as ->.
  { assert (c = 48 \/ c = 49 \/ c = 50 \/ c = 51 \/ c = 52 \/ c = 53 \/ c = 54 \/ c = 55 \/ c = 56 \/ c = 57) as Hcs by lia.
    by repeat (destruct Hcs as [->|Hcs]; [done|]); subst. }
  rewrite bind_Some_eq, parse_port_dec, bind_Some_eq by done. rewrite <- E.
  pose proof (parse_addr_bytes (Addr4 v) Hv) as Hpa. cbn [addr_bytes] in Hpa. rewrite Hpa. done.
Qed.

(** Printing and parsing on the forms the documentation of the library gives. *)
Example text_samples :
  addr_string (Addr6 (Z.shiftl 0x20010db8 96 + 1) "") = "2001:db8::1"%string /\
  addr_string (Addr6 0 "") = "::"%string /\
  addr_string (Addr6 (Z.shiftl 0xFFFF 32 + 0x01020304) "") = "::ffff:1.2.3.4"%string /\
  addr_string (Addr6 (Z.shiftl 0xfe80 112 + 1) "eth0") = "fe80::1%eth0"%string /\
  ParseAddr "fe80::1%eth0" = Some (Addr6 (Z.shiftl 0xfe80 112 + 1) "eth0") /\
  ParseAddr "::ffff:1.2.3.4" = Some (Addr6 (Z.shiftl 0xFFFF 32 + 0x01020304) "") /\
  ParseAddr "1:2:3:4:5:6:7:8" = Some (Addr6 0x00010002000300040005000600070008 "") /\
  ParseAddr "1:2:3:4:5:6:7::8" = None /\ ParseAddr "1::2::3" = None /\
  ParseAddr "01.2.3.4" = None /\ ParseAddr "1.2.3" = None /\ ParseAddr "1.2.3.256" = None /\
  ParseAddrPort "192.0.2.1:80" = Some {| ap_addr := Addr4 0xC0000201; ap_port := 80 |} /\
  ParseAddrPort "[::1]:080" = Some {| ap_addr := Addr6 1 ""; ap_port := 80 |} /\
  ParseAddrPort "::1:80" = None /\ ParseAddrPort "1.2.3.4:" = None /\ ParseAddrPort "1.2.3.4:65536" = None /\
  IsMulticast (Addr4 0xE0000001) = true /\
  ParsePrefix "10.0.0.0/08" = None /\ ParsePrefix "10.0.0.0/33" = None /\
  ParsePrefix "10.0.0.0/8" = Some {| p_addr := Addr4 0x0A000000; p_bits := 8 |}.
Proof. by vm_compute. Qed.

Example split4 : SplitHostPort "192.0.2.1:80" = Some ("192.0.2.1", "80")%string. Proof. vm_compute. reflexivity. Qed.
Example split6 : SplitHostPort "[2001:db8::1]:443" = Some ("2001:db8::1", "443")%string. Proof. vm_compute. reflexivity. Qed.
Example split_colons : SplitHostPort "2001:db8::1:443" = None. Proof. vm_compute. reflexivity. Qed.
Example split_no_port : SplitHostPort "[::1]" = None /\ SplitHostPort "host" = None /\ SplitHostPort "[::1]x:1" = None /\ SplitHostPort "[a]]:1" = None.
Proof. vm_compute. auto. Qed.
Example split_empty_host : SplitHostPort ":1" = Some (""%string, "1"%string). Proof. vm_compute. reflexivity. Qed.

End AddrText.
