(* ===== verification/Registry.v ===== *)
(** * The coordinator's registry

    [src/coord/server/registry.go] and the registry half of
    [src/coord/server/sweep.go].  The registry keeps networks and peers in two
    bbolt buckets and the advertised endpoints in memory.

    bbolt is a parameter: a bucket is any finite map with string keys (the
    [FinMap] interface), [Get] its lookup, [Put] its insert, [Delete] its delete
    and [ForEach] a fold over its bindings.  A write transaction applies the
    function it is given to a snapshot and replaces the snapshot only when the
    function succeeds and bbolt accepts and commits the writes; [io] says whether
    it does (it is false on a disk error and for a key bbolt refuses).  A row is
    the JSON text of a record: it decodes to the record that was encoded, and a
    row of unknown origin may not decode at all.  The clock is an argument, in
    nanoseconds since the epoch.  Names compare as ASCII text (the server admits
    DNS labels only).  The value a function returns next to a non-nil
    error, which no caller reads, is left out. *)
From Stdlib Require Import ZArith Lia.
From stdpp Require Import base numbers list gmap fin_maps fin_map_dom strings.
From S2P Require Import Prelude GoLib PeerTable AddrText.

Module Registry.
Import Netip AddrText.

(** ** Records *)

Record networkRecord := {
  nID : string; CIDR : string; nName : string; AccountID : string; NextIP : string;
  MachineCount : Z; CreatedAt : Z;
  AssignedAddrs : option (gmap string Z)       (* None is the nil map of an old row *)
}.

Record peerRecord := {
  pID : string; NetworkID : string; pName : string; VPNAddr : string;
  Ed25519Public : string; X25519Public : string; Endpoint : string;
  SubnetRoutes : list string; LastSeen : Z; RegisteredAt : Z
}.

(** [coordcore.Network]. *)
Record Network := { net_ID : string; net_CIDR : Prefix; net_Name : string }.

Inductive row (A : Type) := Decodable (a : A) | Undecodable.
Arguments Decodable {A} a.
Arguments Undecodable {A}.

Definition decoded {A} (v : row A) : option A :=
  match v with Decodable a => Some a | Undecodable => None end.

Inductive error :=
| ErrMachineLimit | ErrAddressSpaceExhausted | ErrPeerIDTaken | ErrPeerKeyMismatch
| ErrNetworkExists | ErrNetworkNotFound | ErrPeerNotFound
| ErrUnreadable            (* json.Unmarshal *)
| ErrBadAddress            (* netip.ParseAddr or ParsePrefix of a stored text *)
| ErrStore                 (* bbolt *)
| ErrNoFuel.               (* never returned: see [for_hosts_total] *)

(** Field updates. *)
Definition with_Endpoint (ep : string) (p : peerRecord) : peerRecord :=
  {| pID := pID p; NetworkID := NetworkID p; pName := pName p; VPNAddr := VPNAddr p;
     Ed25519Public := Ed25519Public p; X25519Public := X25519Public p; Endpoint := ep;
     SubnetRoutes := SubnetRoutes p; LastSeen := LastSeen p; RegisteredAt := RegisteredAt p |}.
Definition with_Name (nm : string) (p : peerRecord) : peerRecord :=
  {| pID := pID p; NetworkID := NetworkID p; pName := nm; VPNAddr := VPNAddr p;
     Ed25519Public := Ed25519Public p; X25519Public := X25519Public p; Endpoint := Endpoint p;
     SubnetRoutes := SubnetRoutes p; LastSeen := LastSeen p; RegisteredAt := RegisteredAt p |}.
Definition with_LastSeen (t : Z) (p : peerRecord) : peerRecord :=
  {| pID := pID p; NetworkID := NetworkID p; pName := pName p; VPNAddr := VPNAddr p;
     Ed25519Public := Ed25519Public p; X25519Public := X25519Public p; Endpoint := Endpoint p;
     SubnetRoutes := SubnetRoutes p; LastSeen := t; RegisteredAt := RegisteredAt p |}.
Definition with_Routes (rs : list string) (p : peerRecord) : peerRecord :=
  {| pID := pID p; NetworkID := NetworkID p; pName := pName p; VPNAddr := VPNAddr p;
     Ed25519Public := Ed25519Public p; X25519Public := X25519Public p; Endpoint := Endpoint p;
     SubnetRoutes := rs; LastSeen := LastSeen p; RegisteredAt := RegisteredAt p |}.
Definition with_place (addr networkID : string) (p : peerRecord) : peerRecord :=
  {| pID := pID p; NetworkID := networkID; pName := pName p; VPNAddr := addr;
     Ed25519Public := Ed25519Public p; X25519Public := X25519Public p; Endpoint := Endpoint p;
     SubnetRoutes := SubnetRoutes p; LastSeen := LastSeen p; RegisteredAt := RegisteredAt p |}.
Definition with_alloc (next : string) (count : Z) (m : option (gmap string Z)) (n : networkRecord) : networkRecord :=
  {| nID := nID n; CIDR := CIDR n; nName := nName n; AccountID := AccountID n; NextIP := next;
     MachineCount := count; CreatedAt := CreatedAt n; AssignedAddrs := m |}.

(** ** Time *)
Definition unix (now : Z) : Z := now / 10 ^ 9.
Definition lastSeenGranularity : Z := 3600.
Definition maxFallbackHosts : Z := 65536.

Definition roundToHour (secs : Z) : Z :=
  if secs <=? 0 then secs else secs - Z.rem secs lastSeenGranularity.

Definition DefaultSweepInterval : Z := 3600 * 10 ^ 9.
Definition MinSweepInterval : Z := 60 * 10 ^ 9.

Definition normalizeSweepInterval (d : Z) : Z :=
  if d <=? 0 then DefaultSweepInterval
  else if d <? MinSweepInterval then MinSweepInterval
  else d.

(** ** Loops over the addresses of a network *)

(** [for a := first; cond(a); a = a.Next()]: the addresses the body runs on. *)
Fixpoint for_addrs (fuel : nat) (cond : Addr -> bool) (a : Addr) : option (list Addr) :=
  match fuel with
  | O => None
  | S f => if cond a then l ← for_addrs f cond (Next a); Some (a :: l) else Some []
  end.

Definition prefix_zero : Prefix := {| p_addr := AddrZero; p_bits := -1 |}.
Definition cidr_of (n : networkRecord) : Prefix := default prefix_zero (ParsePrefix (CIDR n)).

Definition nextIPAfterNetwork (p : Prefix) : Addr := Next (p_addr p).

Definition host_fuel (cidr : Prefix) : nat :=
  S (Z.to_nat (2 ^ (bit_len (p_addr cidr) - p_bits cidr))).

(** The loop condition stops before the broadcast address. *)
Definition for_hosts (cidr : Prefix) : option (list Addr) :=
  for_addrs (host_fuel cidr) (fun a => Contains cidr (Next a)) (nextIPAfterNetwork (Masked cidr)).

Definition is_lt (c : comparison) : bool := match c with Lt => true | _ => false end.

Definition mark_freed (used : gset Addr) (l : list Addr) (m : gmap string Z) : gmap string Z :=
  foldl (fun m a => if decide (a ∈ used) then m else <[addr_string a := 1]> m) m l.

Definition mark_held (used : gset Addr) : gmap string Z :=
  foldl (fun m a => <[addr_string a := 0]> m) ∅ (elements used).

Definition migrateAssignedAddrs (n : networkRecord) (used : gset Addr) : option networkRecord :=
  match AssignedAddrs n with
  | Some _ => Some n
  | None =>
      let m := mark_held used in
      let cidr := cidr_of n in
      let set m' := Some (with_alloc (NextIP n) (MachineCount n) (Some m') n) in
      match ParseAddr (NextIP n) with
      | Some nextIP =>
          if negb (addr_valid nextIP) || negb (Contains cidr nextIP) then
            hosts ← for_hosts cidr;
            if maxFallbackHosts <? Z.of_nat (length hosts) then set m else set (mark_freed used hosts m)
          else
            l ← for_addrs (host_fuel cidr)
                  (fun a => Contains cidr a && is_lt (addr_compare a nextIP)) (nextIPAfterNetwork (Masked cidr));
            set (mark_freed used l m)
      | None =>
          hosts ← for_hosts cidr;
          if maxFallbackHosts <? Z.of_nat (length hosts) then set m else set (mark_freed used hosts m)
      end
  end.

(** The allocation loop: [Some (inl a)] the lowest never assigned address,
    [Some (inr a)] the address freed longest ago, [None] neither. *)
Fixpoint alloc_scan (used : gset Addr) (assigned : gmap string Z) (l : list Addr)
    (oldestFreed : Addr) (oldestFreedTime : Z) : Addr * Addr :=
  match l with
  | [] => (AddrZero, oldestFreed)
  | a :: l' =>
      if decide (a ∈ used) then alloc_scan used assigned l' oldestFreed oldestFreedTime
      else match assigned !! addr_string a with
           | Some freedAt =>
               if (0 <? freedAt) && ((oldestFreedTime =? -1) || (freedAt <? oldestFreedTime))
               then alloc_scan used assigned l' a freedAt
               else alloc_scan used assigned l' oldestFreed oldestFreedTime
           | None => (a, oldestFreed)
           end
  end.

Definition allocate (cidr : Prefix) (used : gset Addr) (assigned : gmap string Z) : option (option Addr) :=
  hosts ← for_hosts cidr;
  let '(neverUsed, oldestFreed) := alloc_scan used assigned hosts AddrZero (-1) in
  Some (if decide (neverUsed <> AddrZero) then Some neverUsed
        else if decide (oldestFreed <> AddrZero) then Some oldestFreed
        else None).

(** Advance [NextIP] past an address at or beyond it. *)
Definition advance_NextIP (cidr : Prefix) (assigned : Addr) (next : string) : string :=
  match ParseAddr next with
  | Some nextIP =>
      if negb (addr_valid nextIP) || negb (Contains cidr nextIP)
         || negb (is_lt (addr_compare assigned nextIP))
      then if Contains cidr (Next assigned) then addr_string (Next assigned) else next
      else next
  | None => next
  end.

(** ** The store *)
Section Store.
Context {M : Type -> Type} `{FMap M, forall A, Lookup string A (M A), forall A, Empty (M A),
  forall A, PartialAlter string A (M A), OMap M, Merge M, forall A, MapFold string A (M A), !FinMap string M}.

Record DB := { networks : M (row networkRecord); peers : M (row peerRecord) }.

Record Registry := { db : DB; endpoints : gmap string string }.

Definition put_peer (k : string) (p : peerRecord) (d : DB) : DB :=
  {| networks := networks d; peers := <[k := Decodable p]> (peers d) |}.
Definition put_network (k : string) (n : networkRecord) (d : DB) : DB :=
  {| networks := <[k := Decodable n]> (networks d); peers := peers d |}.
Definition del_peer (k : string) (d : DB) : DB :=
  {| networks := networks d; peers := delete k (peers d) |}.

(** [db.Update]. *)
Definition update {A} (io : bool) (f : DB -> result error (DB * A)) (d : DB) : DB * result error A :=
  match f d with
  | Ok (d', a) => if io then (d', Ok a) else (d, Err ErrStore)
  | Err e => (d, Err e)
  end.

(** The decodable records of a bucket, as [ForEach] visits them. *)
Definition records {A} (b : M (row A)) : list A := omap (fun '(_, v) => decoded v) (map_to_list b).

Definition blankPersistedEndpoints (d : DB) : result error (DB * unit) :=
  let legacy := filter (fun p => Endpoint p <> ""%string) (records (peers d)) in
  Ok (foldl (fun d p => put_peer (pID p) (with_Endpoint "" p) d) d legacy, tt).

Definition NewRegistry (io : bool) (d : DB) : result error Registry :=
  match update io blankPersistedEndpoints d with
  | (d', Ok _) => Ok {| db := d'; endpoints := ∅ |}
  | (_, Err e) => Err e
  end.

Definition setEndpoint (peerID endpoint : string) (r : Registry) : Registry :=
  {| db := db r; endpoints := <[peerID := endpoint]> (endpoints r) |}.
Definition dropEndpoint (peerID : string) (r : Registry) : Registry :=
  {| db := db r; endpoints := delete peerID (endpoints r) |}.
Definition applyEndpoints (r : Registry) (l : list peerRecord) : list peerRecord :=
  map (fun p => with_Endpoint (default ""%string (endpoints r !! pID p)) p) l.
Definition set_db (d : DB) (r : Registry) : Registry := {| db := d; endpoints := endpoints r |}.

(** A write that touches the buckets only. *)
Definition write {A} (io : bool) (f : DB -> result error (DB * A)) (r : Registry) : Registry * result error A :=
  let '(d, res) := update io f (db r) in (set_db d r, res).

Definition create_tx (net : Network) (accountID : string) (now : Z) (d : DB) : result error (DB * unit) :=
  match networks d !! net_ID net with
  | Some _ => Err ErrNetworkExists
  | None =>
      Ok (put_network (net_ID net)
            {| nID := net_ID net; CIDR := prefix_string (net_CIDR net); nName := net_Name net;
               AccountID := accountID; NextIP := addr_string (nextIPAfterNetwork (net_CIDR net));
               MachineCount := 0; CreatedAt := unix now; AssignedAddrs := Some ∅ |} d, tt)
  end.

Definition CreateNetwork (io : bool) (net : Network) (accountID : string) (now : Z) : Registry -> Registry * result error unit :=
  write io (create_tx net accountID now).

Definition get_row {A} (b : M (row A)) (k : string) (e : error) : result error A :=
  match b !! k with
  | None => Err e
  | Some Undecodable => Err ErrUnreadable
  | Some (Decodable a) => Ok a
  end.

Definition GetNetwork (networkID : string) (r : Registry) : result error (Network * string) :=
  (n <-! get_row (networks (db r)) networkID ErrNetworkNotFound;
   match ParsePrefix (CIDR n) with
   | None => Err ErrBadAddress
   | Some cidr => Ok ({| net_ID := nID n; net_CIDR := cidr; net_Name := nName n |}, AccountID n)
   end)%veld.

Definition NetworkMachineCount (networkID : string) (r : Registry) : result error Z :=
  (n <-! get_row (networks (db r)) networkID ErrNetworkNotFound; Ok (MachineCount n))%veld.

Definition nameTaken (b : M (row peerRecord)) (networkID peerID name : string) : bool :=
  existsb (fun p => bool_decide (NetworkID p = networkID) && negb (bool_decide (pID p = peerID))
                    && equal_fold (pName p) name) (records b).

(** The addresses the peers of a network hold. *)
Definition used_addrs (b : M (row peerRecord)) (networkID : string) : gset Addr :=
  list_to_set (omap (fun p => if decide (NetworkID p = networkID) then ParseAddr (VPNAddr p) else None) (records b)).

Definition reregister (rec p : peerRecord) : peerRecord :=
  with_Routes (SubnetRoutes p) (with_Name (pName p) (with_LastSeen (roundToHour (LastSeen p)) rec)).

(** The part of the transaction for a peer that is not registered. *)
Definition register_new (p : peerRecord) (networkID : string) (maxMachines : Z) (d : DB) : result error (DB * Addr) :=
  (n <-! get_row (networks d) networkID ErrNetworkNotFound;
   if (0 <? maxMachines) && (maxMachines <=? MachineCount n) then Err ErrMachineLimit
   else
     let used := used_addrs (peers d) networkID in
     match migrateAssignedAddrs n used with
     | None => Err ErrNoFuel
     | Some n =>
         let cidr := cidr_of n in
         let m := default ∅ (AssignedAddrs n) in
         match allocate cidr used m with
         | None => Err ErrNoFuel
         | Some None => Err ErrAddressSpaceExhausted
         | Some (Some a) =>
             let n' := with_alloc (advance_NextIP cidr a (NextIP n)) (i64 (MachineCount n + 1))
                         (Some (<[addr_string a := 0]> m)) n in
             let p' := with_LastSeen (roundToHour (LastSeen p)) (with_place (addr_string a) networkID p) in
             Ok (put_peer (pID p) p' (put_network networkID n' d), a)
         end
     end)%veld.

(** A name another peer of the network holds is not stored. *)
Definition settle_name (b : M (row peerRecord)) (networkID : string) (p : peerRecord) : peerRecord :=
  if negb (String.eqb (pName p) "") && nameTaken b networkID (pID p) (pName p) then with_Name "" p else p.

Definition register_tx (p0 : peerRecord) (networkID : string) (maxMachines : Z) (d : DB) : result error (DB * Addr) :=
  let p := settle_name (peers d) networkID p0 in
  match peers d !! pID p with
  | Some Undecodable => Err ErrUnreadable
  | Some (Decodable rec) =>
      if negb (bool_decide (NetworkID rec = networkID)) then Err ErrPeerIDTaken
      else if negb (bool_decide (X25519Public rec = X25519Public p)) then Err ErrPeerKeyMismatch
      else match ParseAddr (VPNAddr rec) with
           | None => Err ErrBadAddress
           | Some addr => Ok (put_peer (pID p) (reregister rec p) d, addr)
           end
  | None => register_new p networkID maxMachines d
  end.

Definition RegisterPeer (io : bool) (p : peerRecord) (networkID : string) (maxMachines : Z) (r : Registry)
    : Registry * result error Addr :=
  match write io (register_tx (with_Endpoint "" p) networkID maxMachines) r with
  | (r', Ok a) => (setEndpoint (pID p) (Endpoint p) r', Ok a)
  | (r', Err e) => (r', Err e)
  end.

Definition GetPeer (peerID : string) (r : Registry) : result error peerRecord :=
  get_row (peers (db r)) peerID ErrPeerNotFound.

(** A [ForEach] whose callback returns the error of an undecodable row. *)
Definition all_records {A} (b : M (row A)) : result error (list A) :=
  if forallb (fun '(_, v) => match decoded v with Some _ => true | None => false end) (map_to_list b)
  then Ok (records b) else Err ErrUnreadable.

Definition ListPeers (networkID : string) (r : Registry) : result error (list peerRecord) :=
  (l <-! all_records (peers (db r));
   Ok (applyEndpoints r (filter (fun p => NetworkID p = networkID) l)))%veld.

Definition touch_tx (peerID : string) (now : Z) (d : DB) : result error (DB * unit) :=
  (p <-! get_row (peers d) peerID ErrPeerNotFound;
   Ok (put_peer peerID (with_LastSeen (roundToHour (unix now)) p) d, tt))%veld.

Definition UpdateEndpoint (io : bool) (peerID endpoint : string) (now : Z) (r : Registry) : Registry * result error unit :=
  match write io (touch_tx peerID now) r with
  | (r', Ok _) => (setEndpoint peerID endpoint r', Ok tt)
  | (r', Err e) => (r', Err e)
  end.

Definition TouchPeer (io : bool) (peerID : string) (now : Z) : Registry -> Registry * result error unit :=
  write io (touch_tx peerID now).

Definition remove_tx (peerID : string) (now : Z) (d : DB) : result error (DB * peerRecord) :=
  (removed <-! get_row (peers d) peerID ErrPeerNotFound;
   let d1 := del_peer peerID d in
   let networkID := NetworkID removed in
   match networks d1 !! networkID with
   | Some (Decodable n) =>
       let count := if 0 <? MachineCount n then MachineCount n - 1 else MachineCount n in
       match migrateAssignedAddrs n (used_addrs (peers d1) networkID) with
       | None => Err ErrNoFuel
       | Some n1 =>
           let m := <[VPNAddr removed := unix now]> (default ∅ (AssignedAddrs n1)) in
           Ok (put_network networkID (with_alloc (NextIP n1) count (Some m) n1) d1, removed)
       end
   | _ => Ok (d1, removed)
   end)%veld.

Definition RemovePeer (io : bool) (peerID : string) (now : Z) (r : Registry) : Registry * result error peerRecord :=
  match write io (remove_tx peerID now) r with
  | (r', Ok p) => (dropEndpoint peerID r', Ok p)
  | (r', Err e) => (r', Err e)
  end.

Definition NetworkCount (accountID : string) (r : Registry) : result error Z :=
  (l <-! all_records (networks (db r));
   Ok (Z.of_nat (length (filter (fun n => AccountID n = accountID) l))))%veld.

(** ** The sweep *)
Definition last_activity (p : peerRecord) : Z :=
  if LastSeen p =? 0 then RegisteredAt p else LastSeen p.

Definition skipped (skip : option (string -> bool)) (p : peerRecord) : bool :=
  match skip with Some f => f (pID p) | None => false end.

Definition sweep_one (d : DB) (p : peerRecord) : DB :=
  let d1 := del_peer (pID p) d in
  match networks d1 !! NetworkID p with
  | Some (Decodable n) =>
      if 0 <? MachineCount n
      then put_network (NetworkID p) (with_alloc (NextIP n) (MachineCount n - 1) (AssignedAddrs n) n) d1
      else d1
  | _ => d1
  end.

Definition sweep_tx (cutoff : Z) (skip : option (string -> bool)) (d : DB) : result error (DB * list peerRecord) :=
  let stale := filter (fun p => last_activity p < cutoff) (records (peers d)) in
  let removed := filter (fun p => skipped skip p = false) stale in
  Ok (foldl sweep_one d removed, removed).

Definition SweepStalePeers (io : bool) (ttl now : Z) (skip : option (string -> bool)) (r : Registry)
    : Registry * result error (list peerRecord) :=
  if ttl <=? 0 then (r, Ok [])
  else match write io (sweep_tx (unix (now - ttl)) skip) r with
       | (r', Ok removed) => (foldl (fun r p => dropEndpoint (pID p) r) r' removed, Ok removed)
       | (r', Err e) => (r', Err e)
       end.

End Store.
Arguments DB M : clear implicits.
Arguments Registry M : clear implicits.

(** ** The hosts of an IPv4 network *)
Definition base (p : Prefix) : Z := addr_val (p_addr p) / 2 ^ (32 - p_bits p) * 2 ^ (32 - p_bits p).
Definition block (p : Prefix) : Z := 2 ^ (32 - p_bits p).

(** Every address but the first and the last. *)
Definition hosts4 (p : Prefix) : list Addr := map Addr4 (seqZ (base p + 1) (block p - 2)).

Lemma base_bounds p : prefix4_ok p -> 0 <= base p /\ 1 <= block p /\ base p + block p <= 2 ^ 32.
Proof.
  intros [Ha Hb]. unfold base, block. destruct (p_addr p) as [|v|]; try done. cbn in *.
  set (h := 32 - p_bits p). assert (0 < 2 ^ h) by (apply Z.pow_pos_nonneg; lia).
  assert (2 ^ 32 = 2 ^ p_bits p * 2 ^ h) as E by (rewrite <- Z.pow_add_r by lia; f_equal; lia).
  assert (v / 2 ^ h < 2 ^ p_bits p) by (apply Z.div_lt_upper_bound; lia).
  pose proof (Z.div_pos v (2 ^ h)). nia.
Qed.

Lemma Masked_addr p : prefix4_ok p -> p_addr (Masked p) = Addr4 (base p).
Proof.
  intros Hp. pose proof (prefix4_valid p Hp) as E. destruct Hp as [Ha Hb].
  unfold Masked. rewrite E. unfold base. destruct (p_addr p) as [|v|]; try done. cbn in *.
  by rewrite Z.shiftr_div_pow2, Z.shiftl_mul_pow2 by lia.
Qed.

Lemma shiftr_lxor_eq x y h :
  0 <= h -> 0 <= x -> 0 <= y -> Z.shiftr (Z.lxor x y) h = 0 <-> x / 2 ^ h = y / 2 ^ h.
Proof.
  intros Hh Hx Hy. rewrite Z.shiftr_lxor, !Z.shiftr_div_pow2 by lia. apply Z.lxor_eq_0_iff.
Qed.

Lemma div_same_block x y b : 0 < b -> x / b = y / b <-> y / b * b <= x < y / b * b + b.
Proof.
  intros Hb. pose proof (Z.div_mod x b). pose proof (Z.mod_pos_bound x b). split; [nia|].
  intros Hr. symmetry. apply (Z.div_unique x b (y / b) (x - y / b * b)); lia.
Qed.

Lemma Contains4 p x :
  prefix4_ok p -> 0 <= x ->
  Contains p (Addr4 x) = true <-> base p <= x < base p + block p.
Proof.
  intros Hp Hx. pose proof (prefix4_valid p Hp) as E. destruct Hp as [Ha Hb].
  unfold Contains. rewrite E. unfold base, block. destruct (p_addr p) as [|v|]; try done. cbn in *.
  assert (0 < 2 ^ (32 - p_bits p)) by (apply Z.pow_pos_nonneg; lia).
  rewrite Z.eqb_eq, shiftr_lxor_eq, div_same_block by lia. done.
Qed.

Lemma Contains_zero p : Contains p AddrZero = false.
Proof.
  unfold Contains. destruct (_ || _); [done|]. cbn. by rewrite orb_true_r.
Qed.

(** The loop condition at an address. *)
Lemma host_cond p x :
  prefix4_ok p -> base p <= x < 2 ^ 32 ->
  Contains p (Next (Addr4 x)) = (x + 1 <? base p + block p).
Proof.
  intros Hp Hx. pose proof (base_bounds p Hp). cbn [Next].
  destruct (x + 1 =? 2 ^ 32) eqn:E; bool_to_prop.
  - rewrite Contains_zero. symmetry. apply Z.ltb_ge. lia.
  - apply eq_true_iff_eq. rewrite Contains4, Z.ltb_lt by (done || lia). lia.
Qed.

Lemma for_addrs_hosts p n x :
  prefix4_ok p -> base p <= x < base p + block p -> base p + block p - x <= Z.of_nat n ->
  for_addrs n (fun a => Contains p (Next a)) (Addr4 x) = Some (map Addr4 (seqZ x (base p + block p - 1 - x))).
Proof.
  intros Hp. pose proof (base_bounds p Hp). revert x. induction n as [|n IH]; intros x Hx Hn; [lia|].
  cbn [for_addrs]. rewrite host_cond by (done || lia).
  destruct (x + 1 <? _) eqn:E; bool_to_prop.
  - cbn [Next]. rewrite (proj2 (Z.eqb_neq _ _)) by lia.
    rewrite IH by lia. rewrite bind_Some_eq.
    rewrite (seqZ_cons x) by lia. cbn [map]. do 3 f_equal. f_equal; lia.
  - by rewrite seqZ_nil by lia.
Qed.

Lemma for_hosts_total p : prefix4_ok p -> for_hosts p = Some (hosts4 p).
Proof.
  intros Hp. pose proof (base_bounds p Hp) as HB. unfold for_hosts, nextIPAfterNetwork, hosts4.
  rewrite Masked_addr by done.
  assert (host_fuel p = S (Z.to_nat (block p))) as ->.
  { unfold host_fuel, block. destruct Hp as [Ha _]. by destruct (p_addr p). }
  cbn [Next]. destruct (base p + 1 =? 2 ^ 32) eqn:E; bool_to_prop.
  - cbn [for_addrs Next]. rewrite Contains_zero. by rewrite seqZ_nil by lia.
  - destruct (decide (block p = 1)) as [Hb|Hb].
    + cbn [for_addrs]. rewrite host_cond by (done || lia).
      rewrite (proj2 (Z.ltb_ge _ _)) by lia. by rewrite seqZ_nil by lia.
    + rewrite for_addrs_hosts by (done || lia). do 3 f_equal. lia.
Qed.

Lemma elem_of_hosts4 p a :
  a ∈ hosts4 p <-> exists x, a = Addr4 x /\ base p + 1 <= x < base p + block p - 1.
Proof.
  unfold hosts4. rewrite list_elem_of_fmap. setoid_rewrite elem_of_seqZ.
  split; intros (x & ? & ?); exists x; (split; [done|lia]).
Qed.

Lemma hosts4_ok p a : prefix4_ok p -> a ∈ hosts4 p -> ip4_ok a.
Proof.
  intros Hp (x & -> & Hx)%elem_of_hosts4. pose proof (base_bounds p Hp). cbn. lia.
Qed.

Lemma hosts4_valid p a : a ∈ hosts4 p -> a <> AddrZero.
Proof. by intros (x & -> & _)%elem_of_hosts4. Qed.

Lemma NoDup_hosts4 p : NoDup (hosts4 p).
Proof. unfold hosts4. apply NoDup_fmap_2, NoDup_seqZ. intros x y E. congruence. Qed.

Lemma cidr_of_print n p : CIDR n = prefix_string p -> prefix4_ok p -> cidr_of n = p.
Proof. intros E Hp. unfold cidr_of. by rewrite E, ParsePrefix_String. Qed.

(** ** The allocation loop *)

(** Free for reuse since [t]. *)
Definition freed_at (used : gset Addr) (m : gmap string Z) (a : Addr) (t : Z) : Prop :=
  (a ∉ used) /\ m !! addr_string a = Some t /\ 0 < t.

(** Neither held nor ever assigned. *)
Definition fresh (used : gset Addr) (m : gmap string Z) (a : Addr) : Prop :=
  (a ∉ used) /\ m !! addr_string a = None.

(** What the allocation promises, for the hosts in address order: the first
    fresh host; when there is none, a freed host none of the others was freed
    before, the first of those; and nothing when there is no such host. *)
Definition alloc_spec (used : gset Addr) (m : gmap string Z) (hosts : list Addr) (res : option Addr) : Prop :=
  match res with
  | Some a =>
      (exists l1 l2, hosts = l1 ++ a :: l2 /\ fresh used m a /\ (forall b, b ∈ l1 -> ~ fresh used m b)) \/
      (exists l1 l2 t, hosts = l1 ++ a :: l2 /\ freed_at used m a t /\ (forall b, b ∈ hosts -> ~ fresh used m b) /\
         (forall b t', b ∈ l1 -> freed_at used m b t' -> t < t') /\
         (forall b t', b ∈ l2 -> freed_at used m b t' -> t <= t'))
  | None => forall b, b ∈ hosts -> ~ fresh used m b /\ forall t, ~ freed_at used m b t
  end.

(** What the loop knows after the hosts [pre]. *)
Definition scan_inv (used : gset Addr) (m : gmap string Z) (pre : list Addr) (o : Addr) (ot : Z) : Prop :=
  (forall b, b ∈ pre -> ~ fresh used m b) /\
  ((o = AddrZero /\ ot = -1 /\ (forall b t, b ∈ pre -> ~ freed_at used m b t)) \/
   (exists l1 l2, pre = l1 ++ o :: l2 /\ freed_at used m o ot /\
      (forall b t, b ∈ l1 -> freed_at used m b t -> ot < t) /\
      (forall b t, b ∈ l2 -> freed_at used m b t -> ot <= t))).

Definition alloc_result (r : Addr * Addr) : option Addr :=
  if decide (r.1 <> AddrZero) then Some r.1
  else if decide (r.2 <> AddrZero) then Some r.2 else None.

Lemma scan_inv_skip used m pre o ot a :
  scan_inv used m pre o ot -> ~ fresh used m a ->
  (forall t, freed_at used m a t -> o <> AddrZero /\ ot <= t) ->
  scan_inv used m (pre ++ [a]) o ot.
Proof.
  intros [Hf Ho] Ha Ht. split.
  { intros b [Hb|Hb%list_elem_of_singleton]%elem_of_app; [by apply Hf|by subst]. }
  destruct Ho as [(-> & -> & Hn)|(l1 & l2 & -> & Hat & H1 & H2)].
  - left. split_and!; [done..|]. intros b t [Hb|Hb%list_elem_of_singleton]%elem_of_app Hbt; [by eapply Hn|].
    subst. by destruct (Ht t Hbt).
  - right. exists l1, (l2 ++ [a]). split_and!; [by rewrite <- app_assoc|done..|].
    intros b t [Hb|Hb%list_elem_of_singleton]%elem_of_app Hbt; [by eauto|]. subst. by apply Ht.
Qed.

Lemma alloc_scan_spec used m l : forall pre o ot,
  AddrZero ∉ pre -> AddrZero ∉ l -> scan_inv used m pre o ot ->
  alloc_spec used m (pre ++ l) (alloc_result (alloc_scan used m l o ot)).
Proof.
  induction l as [|a l IH]; intros pre o ot Hz Hzl [Hf Ho].
  - cbn. unfold alloc_result. cbn. rewrite app_nil_r.
    destruct Ho as [(-> & -> & Hn)|(l1 & l2 & -> & Hat & H1 & H2)].
    + rewrite decide_False by (by intros []). intros b Hb. split; [by apply Hf|]. intros t. by apply Hn.
    + rewrite decide_False by (by intros []). rewrite decide_True.
      2: { intros ->. apply Hz. apply elem_of_app. right. by left. }
      right. exists l1, l2, ot. split_and!; done.
  - rewrite not_elem_of_cons in Hzl. destruct Hzl as [Hza Hzl].
    assert (AddrZero ∉ pre ++ [a]) as Hz'.
    { rewrite not_elem_of_app, list_elem_of_singleton. done. }
    replace (pre ++ a :: l) with ((pre ++ [a]) ++ l) by by rewrite <- app_assoc.
    cbn [alloc_scan]. case_decide as Hu.
    + apply IH; [done..|]. apply scan_inv_skip; [done|by intros []|]. by intros t [].
    + destruct (m !! addr_string a) as [t|] eqn:Em.
      * assert (~ fresh used m a) by (intros [_ ?]; congruence).
        destruct ((0 <? t) && _) eqn:Ec; bool_to_prop.
        -- apply IH; [done..|]. split.
           { intros b [Hb|Hb%list_elem_of_singleton]%elem_of_app; [by apply Hf|by subst]. }
           right. exists pre, []. split_and!; [done|by split_and!| |by intros ? ? ?%not_elem_of_nil].
           intros b t' Hb Hbt. apply orb_true_iff in H1 as [E|E]; bool_to_prop.
           ++ destruct Ho as [(_ & _ & Hn)|(l1 & l2 & _ & (_ & _ & ?) & _)]; [by edestruct Hn|lia].
           ++ destruct Ho as [(-> & -> & Hn)|(l1 & l2 & -> & Hat & H1' & H2')]; [by edestruct Hn|].
              apply elem_of_app in Hb as [Hb|Hb]; [specialize (H1' _ _ Hb Hbt); lia|].
              apply elem_of_cons in Hb as [->|Hb]; [|specialize (H2' _ _ Hb Hbt); lia].
              destruct Hat as (_ & E1 & _), Hbt as (_ & E2 & _). rewrite E1 in E2. injection E2. lia.
        -- apply IH; [done..|]. apply scan_inv_skip; [done..|]. intros t' (_ & Em' & Ht').
           rewrite Em in Em'. injection Em' as <-. rewrite (proj2 (Z.ltb_lt 0 t)) in Ec by done. cbn in Ec.
           bool_to_prop. split; [|done].
           destruct Ho as [(-> & -> & _)|(l1 & l2 & -> & _)]; [done|]. intros ->. apply Hz.
           apply elem_of_app. right. by left.
      * unfold alloc_result. cbn [fst]. rewrite decide_True by congruence.
        left. exists pre, l. split_and!; [by rewrite <- app_assoc|done|done].
Qed.

Lemma allocate_spec p used m :
  prefix4_ok p -> exists res, allocate p used m = Some res /\ alloc_spec used m (hosts4 p) res.
Proof.
  intros Hp. unfold allocate. rewrite for_hosts_total, bind_Some_eq by done.
  exists (alloc_result (alloc_scan used m (hosts4 p) AddrZero (-1))). split.
  { unfold alloc_result. by destruct (alloc_scan _ _ _ _ _). }
  apply (alloc_scan_spec used m (hosts4 p) []).
  - apply not_elem_of_nil.
  - intros Hz. by apply hosts4_valid in Hz.
  - split; [by intros ? ?%not_elem_of_nil|]. left. split_and!; [done..|]. by intros ? ? ?%not_elem_of_nil.
Qed.

Lemma alloc_spec_host used m hosts a :
  alloc_spec used m hosts (Some a) -> a ∈ hosts /\ a ∉ used.
Proof.
  intros [(l1 & l2 & -> & [Hu _] & _)|(l1 & l2 & t & -> & (Hu & _) & _)];
    (split; [apply elem_of_app; right; by left|done]).
Qed.

(** ** Migration of a row written before addresses were tracked *)
Lemma for_addrs_bounded p cond n x :
  prefix4_ok p -> (forall a, cond a = true -> Contains p a = true) ->
  base p <= x < 2 ^ 32 -> base p + block p - x < Z.of_nat n -> (0 < n)%nat ->
  exists l, for_addrs n cond (Addr4 x) = Some l /\ Forall ip4_ok l.
Proof.
  intros Hp Hc. pose proof (base_bounds p Hp). revert x. induction n as [|n IH]; intros x Hx Hn Hn0; [lia|].
  cbn [for_addrs]. destruct (cond (Addr4 x)) eqn:Ex; [|by exists []].
  apply Hc, Contains4 in Ex; [|done|lia]. cbn [Next].
  destruct (x + 1 =? 2 ^ 32) eqn:E; bool_to_prop.
  - exists [Addr4 x]. split; [|constructor; [cbn; lia|done]].
    destruct n as [|n]; [lia|]. cbn [for_addrs].
    destruct (cond AddrZero) eqn:E0; [apply Hc in E0; by rewrite Contains_zero in E0|done].
  - destruct (IH (x + 1)) as (l & -> & Hl); [lia..|].
    exists (Addr4 x :: l). split; [done|constructor; [cbn; lia|done]].
Qed.

Lemma mark_held_lookup (used : gset Addr) a : a ∈ used -> mark_held used !! addr_string a = Some 0.
Proof.
  intros Ha%elem_of_elements. unfold mark_held.
  assert (forall l (m : gmap string Z), a ∈ l \/ m !! addr_string a = Some 0 ->
            foldl (fun m a => <[addr_string a := 0]> m) m l !! addr_string a = Some 0) as Hfold.
  { induction l as [|b l IH]; intros m [Hin|Hm]; cbn; [by apply not_elem_of_nil in Hin|done|..].
    - apply elem_of_cons in Hin as [->|Hin]; apply IH; [right; apply lookup_insert_eq|by left].
    - apply IH. right. destruct (decide (addr_string b = addr_string a)) as [->|Hne];
        [apply lookup_insert_eq|by rewrite lookup_insert_ne]. }
  apply Hfold. by left.
Qed.

Lemma mark_freed_held (used : gset Addr) a l m :
  a ∈ used -> ip4_ok a -> Forall ip4_ok l -> m !! addr_string a = Some 0 ->
  mark_freed used l m !! addr_string a = Some 0.
Proof.
  intros Ha Hok Hl. revert m. induction Hl as [|b l Hb Hl IH]; intros m Hm; [done|].
  cbn. apply IH. case_decide; [done|]. rewrite lookup_insert_ne; [done|].
  intros ->%addr_string_inj; done.
Qed.

(** The migration returns, keeps a map it finds, and otherwise makes one that
    marks every held address as assigned. *)
Lemma migrate_total n p used :
  CIDR n = prefix_string p -> prefix4_ok p -> (forall a, a ∈ used -> ip4_ok a) ->
  exists m, migrateAssignedAddrs n used = Some (with_alloc (NextIP n) (MachineCount n) (Some m) n) /\
    (forall m0, AssignedAddrs n = Some m0 -> m = m0) /\
    (AssignedAddrs n = None -> forall a, a ∈ used -> m !! addr_string a = Some 0).
Proof.
  intros Hn Hp Hu. unfold migrateAssignedAddrs. rewrite (cidr_of_print n p) by done.
  destruct (AssignedAddrs n) as [m0|] eqn:Em.
  { exists m0. split_and!; [|congruence|done]. destruct n; cbn in *. by subst. }
  assert (forall l, Forall ip4_ok l -> forall a, a ∈ used ->
            mark_freed used l (mark_held used) !! addr_string a = Some 0) as Hfreed.
  { intros l Hl a Ha. apply mark_freed_held; auto using mark_held_lookup. }
  assert (exists m, (hosts ← for_hosts p;
      (if maxFallbackHosts <? Z.of_nat (length hosts)
       then Some (with_alloc (NextIP n) (MachineCount n) (Some (mark_held used)) n)
       else Some (with_alloc (NextIP n) (MachineCount n) (Some (mark_freed used hosts (mark_held used))) n)))
      = Some (with_alloc (NextIP n) (MachineCount n) (Some m) n) /\
      forall a, a ∈ used -> m !! addr_string a = Some 0) as (mf & Efb & Hmf).
  { rewrite for_hosts_total, bind_Some_eq by done. case_step.
    - exists (mark_held used). eauto using mark_held_lookup.
    - eexists. split; [done|]. apply Hfreed, Forall_forall. eauto using hosts4_ok. }
  destruct (ParseAddr (NextIP n)) as [nextIP|]; [|by exists mf].
  case_step; [by exists mf|].
  pose proof (base_bounds p Hp) as HB. unfold nextIPAfterNetwork. rewrite Masked_addr by done.
  assert (exists l, for_addrs (host_fuel p) (fun a => Contains p a && is_lt (addr_compare a nextIP))
            (Next (Addr4 (base p))) = Some l /\ Forall ip4_ok l) as (l & El & Hl).
  { assert (host_fuel p = S (Z.to_nat (block p))) as ->.
    { unfold host_fuel, block. destruct Hp as [Ha _]. by destruct (p_addr p). }
    cbn [Next]. case_step; bool_to_prop.
    - exists []. cbn [for_addrs]. by rewrite Contains_zero.
    - apply (for_addrs_bounded p); [done|by intros a [? _]%andb_true_iff|lia..]. }
  rewrite El, bind_Some_eq. eexists. split_and!; [done|done|]. intros _. by apply Hfreed.
Qed.

(** ** The invariant of the store *)
Section Invariant.
Context {M : Type -> Type} `{FMap M, forall A, Lookup string A (M A), forall A, Empty (M A),
  forall A, PartialAlter string A (M A), OMap M, Merge M, forall A, MapFold string A (M A), !FinMap string M}.

Implicit Types d : DB M.
Implicit Types r : Registry M.

Definition peer_at d (k : string) (p : peerRecord) : Prop := peers d !! k = Some (Decodable p).
Definition net_at d (k : string) (n : networkRecord) : Prop := networks d !! k = Some (Decodable n).

Definition in_net (networkID : string) (v : row peerRecord) : Prop :=
  match v with Decodable p => NetworkID p = networkID | Undecodable => False end.

#[local] Instance in_net_dec networkID v : Decision (in_net networkID v).
Proof. destruct v; cbn; apply _. Defined.

Definition peer_count d (networkID : string) : nat :=
  size (filter (fun kv : string * row peerRecord => in_net networkID kv.2) (peers d)).

Definition net_ok d (k : string) (n : networkRecord) : Prop :=
  nID n = k /\ (exists c, CIDR n = prefix_string c /\ prefix4_ok c) /\
  MachineCount n = Z.of_nat (peer_count d k).

(** The address of a peer of network [n]: a host of the network, recorded as
    assigned. *)
Definition placed (n : networkRecord) (addr : string) : Prop :=
  (exists c a, CIDR n = prefix_string c /\ prefix4_ok c /\ a ∈ hosts4 c /\ addr = addr_string a) /\
  (forall m, AssignedAddrs n = Some m -> m !! addr = Some 0).

Definition peer_ok d (k : string) (p : peerRecord) : Prop :=
  pID p = k /\ Endpoint p = ""%string /\ roundToHour (LastSeen p) = LastSeen p /\
  exists n, net_at d (NetworkID p) n /\ placed n (VPNAddr p).

Record inv_db d : Prop := {
  ib_nets : forall k v, networks d !! k = Some v -> exists n, v = Decodable n /\ net_ok d k n;
  ib_peers : forall k v, peers d !! k = Some v -> exists p, v = Decodable p /\ peer_ok d k p;
  ib_addrs : forall k1 k2 p1 p2, peer_at d k1 p1 -> peer_at d k2 p2 ->
    NetworkID p1 = NetworkID p2 -> VPNAddr p1 = VPNAddr p2 -> k1 = k2;
  ib_names : forall k1 k2 p1 p2, peer_at d k1 p1 -> peer_at d k2 p2 ->
    NetworkID p1 = NetworkID p2 -> pName p1 <> ""%string -> equal_fold (pName p1) (pName p2) = true -> k1 = k2
}.

Definition inv r : Prop :=
  inv_db (db r) /\ forall k ep, endpoints r !! k = Some ep -> is_Some (peers (db r) !! k).

Lemma ib_peer d k p : inv_db d -> peer_at d k p -> peer_ok d k p.
Proof. intros I Hp. destruct (ib_peers d I k _ Hp) as (p' & [= <-] & ?). done. Qed.

Lemma ib_net d k n : inv_db d -> net_at d k n -> net_ok d k n.
Proof. intros I Hn. destruct (ib_nets d I k _ Hn) as (n' & [= <-] & ?). done. Qed.

Lemma elem_of_records {A} (b : M (row A)) a : a ∈ records b <-> exists k, b !! k = Some (Decodable a).
Proof.
  unfold records. rewrite list_elem_of_omap. split.
  - intros ([k v] & Hin%elem_of_map_to_list & E). exists k. destruct v; cbn in E; congruence.
  - intros [k Hk]. exists (k, Decodable a). split; [by apply elem_of_map_to_list|done].
Qed.

Lemma elem_of_used (b : M (row peerRecord)) networkID a :
  a ∈ used_addrs b networkID <->
  exists k p, b !! k = Some (Decodable p) /\ NetworkID p = networkID /\ ParseAddr (VPNAddr p) = Some a.
Proof.
  unfold used_addrs. rewrite elem_of_list_to_set, list_elem_of_omap. setoid_rewrite elem_of_records. split.
  - intros (p & [k Hk] & E). case_decide; [|done]. eauto 10.
  - intros (k & p & Hk & Hn & E). exists p. split; [by exists k|]. by rewrite decide_True.
Qed.

(** Under the invariant the used set is the set of the peers' addresses. *)
Lemma used_ip4 d networkID a : inv_db d -> a ∈ used_addrs (peers d) networkID -> ip4_ok a.
Proof.
  intros I (k & p & Hk & Hn & E)%elem_of_used.
  destruct (ib_peer d k p I Hk) as (_ & _ & _ & n & _ & (c & a' & _ & Hc & Ha & Ev) & _).
  rewrite Ev, ParseAddr_String in E by eauto using hosts4_ok. injection E as <-. eauto using hosts4_ok.
Qed.

Lemma used_of_peer d k p :
  inv_db d -> peer_at d k p -> exists a, VPNAddr p = addr_string a /\ ip4_ok a /\
                                      a ∈ used_addrs (peers d) (NetworkID p).
Proof.
  intros I Hk. destruct (ib_peer d k p I Hk) as (_ & _ & _ & n & _ & (c & a & _ & Hc & Ha & Ev) & _).
  exists a. split_and!; [done|by eapply hosts4_ok|].
  apply elem_of_used. exists k, p. split_and!; [done..|]. rewrite Ev. apply ParseAddr_String. eauto using hosts4_ok.
Qed.

(** *** Counting the peers of a network *)
Lemma peer_count_insert_new d k p n :
  peers d !! k = None ->
  peer_count (put_peer k p d) n = ((if decide (NetworkID p = n) then 1 else 0) + peer_count d n)%nat.
Proof.
  intros Hk. unfold peer_count. cbn [put_peer peers]. case_decide as E.
  - rewrite map_filter_insert_True by done. rewrite map_size_insert_None; [done|].
    apply map_lookup_filter_None. by left.
  - rewrite map_filter_insert_False by done. by rewrite delete_id.
Qed.

Lemma peer_count_insert_same d k p p' n :
  peer_at d k p -> NetworkID p' = NetworkID p -> peer_count (put_peer k p' d) n = peer_count d n.
Proof.
  intros Hk E. unfold peer_count. cbn [put_peer peers].
  destruct (decide (NetworkID p = n)) as [En|En].
  - rewrite map_filter_insert_True by (cbn; congruence). rewrite map_size_insert_Some; [done|].
    exists (Decodable p). by apply map_lookup_filter_Some.
  - rewrite map_filter_insert_not'; [done|cbn; congruence|].
    intros v Hv. unfold peer_at in Hk. rewrite Hk in Hv. injection Hv as <-. done.
Qed.

Lemma peer_count_delete d k p n :
  peer_at d k p ->
  Z.of_nat (peer_count (del_peer k d) n) =
    Z.of_nat (peer_count d n) - (if decide (NetworkID p = n) then 1 else 0).
Proof.
  intros Hk. unfold peer_count. cbn [del_peer peers]. case_decide as En.
  - rewrite map_filter_delete.
    assert (filter (fun kv => in_net n kv.2) (peers d) !! k = Some (Decodable p)) as E
      by by apply map_lookup_filter_Some.
    rewrite map_size_delete_Some by by exists (Decodable p).
    assert (size (filter (fun kv => in_net n kv.2) (peers d)) <> 0%nat); [|lia].
    intros E0%map_size_empty_inv. rewrite E0 in E. by rewrite lookup_empty in E.
  - rewrite map_filter_delete_not; [lia|].
    intros v Hv. unfold peer_at in Hk. rewrite Hk in Hv. injection Hv as <-. done.
Qed.

Lemma peer_count_networks d k n nid : peer_count (put_network k n d) nid = peer_count d nid.
Proof. done. Qed.

Lemma peer_count_pos d k p : peer_at d k p -> (0 < peer_count d (NetworkID p))%nat.
Proof.
  intros Hk. pose proof (peer_count_delete d k p (NetworkID p) Hk) as E. rewrite decide_True in E by done. lia.
Qed.

(** Distinct addresses bound the number of peers. *)
Definition addr_num (kv : string * row peerRecord) : Z :=
  match kv.2 with
  | Decodable p => match ParseAddr (VPNAddr p) with Some a => addr_val a | None => 0 end
  | Undecodable => 0
  end.

Lemma peer_count_bound d n : inv_db d -> Z.of_nat (peer_count d n) <= 2 ^ 32.
Proof.
  intros I. unfold peer_count. rewrite <- length_map_to_list.
  set (l := map_to_list _).
  assert (forall kv, kv ∈ l -> exists p a, kv.2 = Decodable p /\ peer_at d kv.1 p /\ NetworkID p = n /\
             VPNAddr p = addr_string a /\ addr_num kv = addr_val a /\ ip4_ok a) as Hl.
  { intros [k v] Hin. apply elem_of_map_to_list, map_lookup_filter_Some in Hin as [Hk Hn].
    destruct (ib_peers d I k v Hk) as (p & -> & _).
    destruct (used_of_peer d k p I Hk) as (a & Ea & Hok & _). exists p, a. split_and!; [done..| |done].
    unfold addr_num. cbn. by rewrite Ea, ParseAddr_String. }
  assert (NoDup (map addr_num l)) as Hnd.
  { apply NoDup_fmap_2_strong; [|apply NoDup_map_to_list].
    intros [k1 v1] [k2 v2] Hin1 Hin2 E.
    destruct (Hl _ Hin1) as (p1 & a1 & E1 & K1 & N1 & V1 & A1 & O1).
    destruct (Hl _ Hin2) as (p2 & a2 & E2 & K2 & N2 & V2 & A2 & O2). cbn in *. subst v1 v2.
    assert (a1 = a2) as -> by (destruct a1, a2; try done; cbn in *; congruence).
    assert (k1 = k2) as -> by (eapply (ib_addrs d I); eauto; congruence).
    unfold peer_at in *. congruence. }
  assert (map addr_num l ⊆+ seqZ 0 (2 ^ 32)) as Hsub.
  { apply NoDup_submseteq; [done|]. intros x (kv & -> & Hin)%list_elem_of_fmap.
    destruct (Hl _ Hin) as (p & a & _ & _ & _ & _ & -> & Hok). apply elem_of_seqZ.
    by destruct a. }
  apply submseteq_length in Hsub. rewrite length_map, length_seqZ in Hsub. lia.
Qed.

(** *** Changes of the store that preserve the invariant *)
Lemma equal_fold_sym s1 s2 : equal_fold s1 s2 = equal_fold s2 s1.
Proof. unfold equal_fold. apply String.eqb_sym. Qed.

Lemma peer_at_put d k p k' p' :
  peer_at (put_peer k p d) k' p' -> (k' = k /\ p' = p) \/ (k' <> k /\ peer_at d k' p').
Proof.
  unfold peer_at. cbn. destruct (decide (k' = k)) as [->|Hne].
  - rewrite lookup_insert_eq. intros [= ->]. by left.
  - rewrite lookup_insert_ne by congruence. by right.
Qed.

Lemma peer_at_del d k k' p' : peer_at (del_peer k d) k' p' <-> k' <> k /\ peer_at d k' p'.
Proof. unfold peer_at. cbn. rewrite lookup_delete_Some. naive_solver. Qed.

(** Rewriting a row: the address and the network stay, the name is free. *)
Lemma inv_put_same d k p p' :
  inv_db d -> peer_at d k p ->
  pID p' = pID p -> NetworkID p' = NetworkID p -> VPNAddr p' = VPNAddr p ->
  Endpoint p' = ""%string -> roundToHour (LastSeen p') = LastSeen p' ->
  (forall k2 p2, peer_at d k2 p2 -> k2 <> k -> NetworkID p2 = NetworkID p ->
     pName p' <> ""%string -> equal_fold (pName p') (pName p2) = false) ->
  inv_db (put_peer k p' d).
Proof.
  intros I Hk Eid Enet Eaddr Eep Els Hname. split.
  - intros k0 v Hv. destruct (ib_nets d I k0 v Hv) as (n & -> & E1 & E2 & E3). exists n.
    split_and!; [done..|]. unfold net_ok. rewrite (peer_count_insert_same d k p) by done. done.
  - intros k0 v Hv. cbn in Hv. destruct (decide (k0 = k)) as [->|Hne].
    + rewrite lookup_insert_eq in Hv. injection Hv as <-. exists p'. split; [done|].
      destruct (ib_peer d k p I Hk) as (E1 & _ & _ & n & E4 & E5).
      split_and!; [congruence|done..|]. exists n. by rewrite Enet, Eaddr.
    + rewrite lookup_insert_ne in Hv by done. by apply (ib_peers d I).
  - intros k1 k2 p1 p2 [[-> ->]|[N1 K1]]%peer_at_put [[-> ->]|[N2 K2]]%peer_at_put En Ea; [done|..];
      eapply (ib_addrs d I); eauto; congruence.
  - intros k1 k2 p1 p2 [[-> ->]|[N1 K1]]%peer_at_put [[-> ->]|[N2 K2]]%peer_at_put En Ene Ef; [done|..].
    + rewrite (Hname k2 p2) in Ef; [done|done|done|congruence|done].
    + rewrite equal_fold_sym, (Hname k1 p1) in Ef; [done|done|done|congruence|].
      intros E0. rewrite E0, equal_fold_sym in Ef. by destruct (pName p1).
    + eapply (ib_names d I); eauto.
Qed.

(** A peer in a new row, at an address nobody holds. *)
Lemma inv_put_new d k p nid n c a m next :
  inv_db d -> peers d !! k = None -> net_at d nid n ->
  CIDR n = prefix_string c -> prefix4_ok c -> a ∈ hosts4 c -> a ∉ used_addrs (peers d) nid ->
  (forall k2 p2, peer_at d k2 p2 -> NetworkID p2 = nid -> m !! VPNAddr p2 = Some 0) ->
  pID p = k -> NetworkID p = nid -> VPNAddr p = addr_string a -> Endpoint p = ""%string ->
  roundToHour (LastSeen p) = LastSeen p ->
  (forall k2 p2, peer_at d k2 p2 -> NetworkID p2 = nid -> pName p <> ""%string ->
     equal_fold (pName p) (pName p2) = false) ->
  inv_db (put_peer k p (put_network nid
    (with_alloc next (i64 (MachineCount n + 1)) (Some (<[addr_string a := 0]> m)) n) d)).
Proof.
  intros I Hk Hn Ec Hc Ha Hu Hm Eid Enet Eaddr Eep Els Hname.
  set (n' := with_alloc _ _ _ n).
  assert (forall addr, placed n addr -> (exists k2 p2, peer_at d k2 p2 /\ NetworkID p2 = nid /\ VPNAddr p2 = addr) ->
            placed n' addr) as Hplaced.
  { intros addr [Hin _] (k2 & p2 & K2 & N2 & <-). split; [done|]. cbn. intros m' [= <-].
    destruct (decide (addr_string a = VPNAddr p2)) as [->|Hne];
      [apply lookup_insert_eq|rewrite lookup_insert_ne by done; eauto]. }
  assert (forall k2 p2, peer_at d k2 p2 -> NetworkID p2 = nid -> VPNAddr p2 <> addr_string a) as Hfree.
  { intros k2 p2 K2 N2 E. destruct (used_of_peer d k2 p2 I K2) as (b & Eb & Hb & Hin).
    rewrite E in Eb. apply addr_string_inj in Eb; [|by eapply hosts4_ok|done]. subst b. by rewrite N2 in Hin. }
  destruct (ib_net d nid n I Hn) as (En & Hcidr & Ecount). split.
  - intros k0 v Hv. cbn in Hv. destruct (decide (k0 = nid)) as [->|Hne].
    + rewrite lookup_insert_eq in Hv. injection Hv as <-. exists n'. split_and!; [done..|].
      unfold net_ok. rewrite peer_count_insert_new, peer_count_networks, decide_True by done.
      change (MachineCount n') with (i64 (MachineCount n + 1)). rewrite Ecount.
      pose proof (peer_count_bound d nid I). rewrite i64_small by lia. split_and!; [done..|lia].
    + rewrite lookup_insert_ne in Hv by done. destruct (ib_nets d I k0 v Hv) as (n0 & -> & E1 & E2 & E3).
      exists n0. split_and!; [done..|]. unfold net_ok.
      rewrite peer_count_insert_new, peer_count_networks, decide_False by (done || congruence). done.
  - intros k0 v Hv. cbn in Hv. destruct (decide (k0 = k)) as [->|Hne].
    + rewrite lookup_insert_eq in Hv. injection Hv as <-. exists p. split_and!; [done..|].
      split_and!; [done..|]. exists n'. split; [unfold net_at; cbn; rewrite Enet; apply lookup_insert_eq|].
      split; [by exists c, a; rewrite Eaddr|]. cbn. intros m' [= <-]. rewrite Eaddr. apply lookup_insert_eq.
    + rewrite lookup_insert_ne in Hv by done. destruct (ib_peers d I k0 v Hv) as (p0 & -> & E1 & E2 & E3 & n0 & N0 & P0).
      exists p0. split_and!; [done..|]. split_and!; [done..|].
      unfold net_at. cbn. destruct (decide (NetworkID p0 = nid)) as [E0|E0].
      * exists n'. rewrite E0, lookup_insert_eq. split; [done|]. unfold net_at in *. rewrite E0, Hn in N0.
        injection N0 as <-. apply Hplaced; [done|]. by exists k0, p0.
      * exists n0. by rewrite lookup_insert_ne.
  - intros k1 k2 p1 p2 [[-> ->]|[N1 K1]]%peer_at_put [[-> ->]|[N2 K2]]%peer_at_put E1 E2; [done|..].
    + destruct (Hfree k2 p2 K2); congruence.
    + destruct (Hfree k1 p1 K1); congruence.
    + eapply (ib_addrs d I); eauto.
  - intros k1 k2 p1 p2 [[-> ->]|[N1 K1]]%peer_at_put [[-> ->]|[N2 K2]]%peer_at_put E1 Ene Ef; [done|..].
    + rewrite (Hname k2 p2) in Ef; [done|done|congruence|done].
    + rewrite equal_fold_sym, (Hname k1 p1) in Ef; [done|done|congruence|].
      intros E0. rewrite E0, equal_fold_sym in Ef. by destruct (pName p1).
    + eapply (ib_names d I); eauto.
Qed.

(** Deleting a row and counting it out of its network. *)
Lemma inv_delete d k p n next m' :
  inv_db d -> peer_at d k p -> net_at d (NetworkID p) n ->
  (forall k2 p2 m, peer_at d k2 p2 -> k2 <> k -> NetworkID p2 = NetworkID p -> m' = Some m ->
     m !! VPNAddr p2 = Some 0) ->
  inv_db (put_network (NetworkID p) (with_alloc next (MachineCount n - 1) m' n) (del_peer k d)).
Proof.
  intros I Hk Hn Hm. set (n' := with_alloc _ _ _ n).
  destruct (ib_net d _ n I Hn) as (En & Hcidr & Ecount). split.
  - intros k0 v Hv. cbn in Hv. destruct (decide (k0 = NetworkID p)) as [->|Hne].
    + rewrite lookup_insert_eq in Hv. injection Hv as <-. exists n'. split_and!; [done..|].
      unfold net_ok. rewrite peer_count_networks, (peer_count_delete d k p), decide_True by done.
      split_and!; [done..|]. cbn [MachineCount with_alloc n']. lia.
    + rewrite lookup_insert_ne in Hv by done. destruct (ib_nets d I k0 v Hv) as (n0 & -> & E1 & E2 & E3).
      exists n0. split_and!; [done..|].
      unfold net_ok. rewrite peer_count_networks, (peer_count_delete d k p), decide_False by done.
      split_and!; [done..|lia].
  - intros k0 v Hv. cbn in Hv. apply lookup_delete_Some in Hv as [Hne Hv].
    destruct (ib_peers d I k0 v Hv) as (p0 & -> & E1 & E2 & E3 & n0 & N0 & P0).
    exists p0. split_and!; [done..|]. split_and!; [done..|]. unfold net_at. cbn.
    destruct (decide (NetworkID p0 = NetworkID p)) as [E0|E0].
    + exists n'. rewrite E0, lookup_insert_eq. split; [done|]. unfold net_at in *. rewrite E0, Hn in N0.
      injection N0 as <-. destruct P0 as [Hin _]. split; [done|]. cbn. intros m E. eapply Hm; eauto.
    + exists n0. by rewrite lookup_insert_ne.
  - intros k1 k2 p1 p2 K1 K2. apply (peer_at_del d) in K1 as [_ K1]. apply (peer_at_del d) in K2 as [_ K2].
    by apply (ib_addrs d I).
  - intros k1 k2 p1 p2 K1 K2. apply (peer_at_del d) in K1 as [_ K1]. apply (peer_at_del d) in K2 as [_ K2].
    by apply (ib_names d I).
Qed.

(** *** The registration transaction *)
Lemma roundToHour_idem x : roundToHour (roundToHour x) = roundToHour x.
Proof.
  unfold roundToHour at 2 3. destruct (x <=? 0) eqn:E; bool_to_prop.
  - unfold roundToHour. by rewrite (proj2 (Z.leb_le x 0)).
  - rewrite Z.rem_mod_nonneg by (unfold lastSeenGranularity; lia). unfold lastSeenGranularity.
    assert (x - x mod 3600 = x / 3600 * 3600) as -> by (pose proof (Z.div_mod x 3600); lia).
    unfold roundToHour. case_step; [done|]. bool_to_prop.
    rewrite Z.rem_mod_nonneg by (unfold lastSeenGranularity; lia). unfold lastSeenGranularity.
    rewrite Z.mod_mul by lia. lia.
Qed.

Lemma settle_name_fields (b : M (row peerRecord)) nid p :
  let p' := settle_name b nid p in
  pID p' = pID p /\ Endpoint p' = Endpoint p /\ LastSeen p' = LastSeen p /\
  X25519Public p' = X25519Public p /\ SubnetRoutes p' = SubnetRoutes p /\
  Ed25519Public p' = Ed25519Public p.
Proof. unfold settle_name. by destruct (_ && _). Qed.

Lemma settle_name_free (b : M (row peerRecord)) nid p k2 p2 :
  b !! k2 = Some (Decodable p2) -> NetworkID p2 = nid -> pID p2 <> pID p ->
  pName (settle_name b nid p) <> ""%string ->
  equal_fold (pName (settle_name b nid p)) (pName p2) = false.
Proof.
  intros K2 N2 Hid. unfold settle_name. destruct (_ && _) eqn:E; [done|]. intros Hne.
  apply andb_false_iff in E as [E|E].
  { apply negb_false_iff, String.eqb_eq in E. done. }
  destruct (equal_fold (pName p) (pName p2)) eqn:Ef; [|done]. exfalso.
  apply (proj2 (not_true_iff_false _) E). unfold nameTaken. apply existsb_exists. exists p2.
  split; [apply list_elem_of_In, elem_of_records; by exists k2|].
  rewrite bool_decide_eq_true_2, bool_decide_eq_false_2, equal_fold_sym by done. done.
Qed.

(** The outcome for a peer that is not registered. *)
Lemma register_new_outcome d p nid limit n :
  inv_db d -> net_at d nid n -> (0 <? limit) && (limit <=? MachineCount n) = false ->
  exists c m res,
    CIDR n = prefix_string c /\ prefix4_ok c /\
    (forall m0, AssignedAddrs n = Some m0 -> m = m0) /\
    (forall k2 p2, peer_at d k2 p2 -> NetworkID p2 = nid -> m !! VPNAddr p2 = Some 0) /\
    alloc_spec (used_addrs (peers d) nid) m (hosts4 c) res /\
    register_new p nid limit d =
      match res with
      | None => Err ErrAddressSpaceExhausted
      | Some a =>
          Ok (put_peer (pID p) (with_LastSeen (roundToHour (LastSeen p)) (with_place (addr_string a) nid p))
                (put_network nid (with_alloc (advance_NextIP c a (NextIP n)) (i64 (MachineCount n + 1))
                                    (Some (<[addr_string a := 0]> m)) n) d), a)
      end.
Proof.
  intros I Hn Hlim. destruct (ib_net d nid n I Hn) as (En & (c & Ec & Hc) & Ecount).
  destruct (migrate_total n c (used_addrs (peers d) nid) Ec Hc) as (m & Em & Hm1 & Hm2).
  { intros a Ha. by eapply used_ip4. }
  destruct (allocate_spec c (used_addrs (peers d) nid) m Hc) as (res & Er & Hspec).
  exists c, m, res. split_and!; [done..| |done|].
  { intros k2 p2 K2 N2. destruct (AssignedAddrs n) as [m0|] eqn:E0.
    - destruct (ib_peer d k2 p2 I K2) as (_ & _ & _ & n2 & Hn2 & _ & Ha). unfold net_at in *.
      rewrite N2, Hn in Hn2. injection Hn2 as <-. rewrite (Hm1 m0) by done. by apply Ha.
    - destruct (used_of_peer d k2 p2 I K2) as (a & -> & _ & Hin). apply Hm2; [done|]. by rewrite N2 in Hin. }
  unfold register_new, get_row. unfold net_at in Hn. rewrite Hn. cbn [result_bind]. rewrite Hlim, Em.
  assert (cidr_of (with_alloc (NextIP n) (MachineCount n) (Some m) n) = c) as ->.
  { unfold cidr_of. cbn [CIDR with_alloc]. by rewrite Ec, ParsePrefix_String. }
  cbn [AssignedAddrs with_alloc]. change (default ∅ (Some m)) with m. rewrite Er. by destruct res.
Qed.

Lemma register_tx_inv d p nid limit d' a :
  inv_db d -> Endpoint p = ""%string -> register_tx p nid limit d = Ok (d', a) ->
  inv_db d' /\ is_Some (peers d' !! pID p) /\ (forall k, is_Some (peers d !! k) -> is_Some (peers d' !! k)).
Proof.
  intros I Hep. unfold register_tx.
  pose proof (settle_name_fields (peers d) nid p) as (Eid & Eep & Els & EX & _).
  pose proof (fun k2 p2 => settle_name_free (peers d) nid p k2 p2) as Hfree.
  set (q := settle_name (peers d) nid p) in *. clearbody q. cbn in *.
  assert (forall v, is_Some (<[pID q := v]> (peers d) !! pID p) /\
                    forall k, is_Some (peers d !! k) -> is_Some (<[pID q := v]> (peers d) !! k)) as Hdom.
  { intros v. rewrite Eid, lookup_insert_eq. split; [done|]. intros k. rewrite lookup_insert_is_Some'. tauto. }
  destruct (peers d !! pID q) as [[rec|]|] eqn:Ek; [|done|].
  - intros E. ok_inv. case_in E; [|done]. injection E as <- <-. bool_to_prop. apply bool_decide_eq_true in Heqb.
    destruct (ib_peer d (pID q) rec I Ek) as (E1 & E2 & E3 & _). split; [|apply Hdom].
    apply (inv_put_same d (pID q) rec); try done.
    + cbn. apply roundToHour_idem.
    + intros k2 p2 K2 Hne N2. cbn. apply (Hfree k2); [done|congruence|].
      destruct (ib_peer d k2 p2 I K2) as [-> _]. congruence.
  - intros E. destruct (networks d !! nid) as [[n|]|] eqn:En;
      [|unfold register_new, get_row in E; by rewrite En in E..].
    destruct ((0 <? limit) && (limit <=? MachineCount n)) eqn:El.
    { unfold register_new, get_row in E. rewrite En in E. cbn [result_bind] in E. by rewrite El in E. }
    destruct (register_new_outcome d q nid limit n I En El) as (c & m & res & Ec & Hc & _ & Hm & Hspec & Er).
    rewrite Er in E. destruct res as [a0|]; [|done]. injection E as <- <-.
    apply alloc_spec_host in Hspec as [Hh Hu]. split; [|apply Hdom].
    eapply inv_put_new; try done; cbn; try congruence.
    + apply roundToHour_idem.
    + intros k2 p2 K2 N2. apply (Hfree k2); [done..|]. destruct (ib_peer d k2 p2 I K2) as [-> _].
      intros ->. unfold peer_at in K2. congruence.
Qed.

(** *** The other transactions *)
Lemma get_row_Ok {A} (b : M (row A)) k e a : get_row b k e = Ok a <-> b !! k = Some (Decodable a).
Proof. unfold get_row. destruct (b !! k) as [[]|]; naive_solver. Qed.

Lemma touch_tx_inv d k now d' u :
  inv_db d -> touch_tx k now d = Ok (d', u) ->
  inv_db d' /\ exists p, peer_at d k p /\ d' = put_peer k (with_LastSeen (roundToHour (unix now)) p) d.
Proof.
  intros I E. unfold touch_tx in E. apply result_bind_Ok in E as (p & Hp%get_row_Ok & E).
  injection E as <- <-. split; [|by exists p].
  destruct (ib_peer d k p I Hp) as (E1 & E2 & E3 & _).
  apply (inv_put_same d k p); try done; [apply roundToHour_idem|].
  intros k2 p2 K2 Hne N2 Hnm. destruct (equal_fold (pName p) (pName p2)) eqn:Ef; [|done].
  destruct Hne. symmetry. by eapply (ib_names d I).
Qed.

Lemma peer_count_unknown d nid : inv_db d -> networks d !! nid = None -> peer_count d nid = 0%nat.
Proof.
  intros I Hn. unfold peer_count. apply map_size_empty_iff, map_empty. intros k.
  apply map_lookup_filter_None. destruct (peers d !! k) as [v|] eqn:Ek; [right|by left].
  intros v' [= <-] Hin. destruct (ib_peers d I k v Ek) as (p & -> & _ & _ & _ & n & Hn' & _).
  cbn in Hin. subst nid. unfold net_at in Hn'. congruence.
Qed.

Lemma create_tx_inv d net acc now d' u :
  inv_db d -> prefix4_ok (net_CIDR net) -> create_tx net acc now d = Ok (d', u) ->
  inv_db d' /\ peers d' = peers d.
Proof.
  intros I Hp. unfold create_tx. destruct (networks d !! net_ID net) eqn:En; [done|]. intros [= <- _].
  split; [|done]. split.
  - intros k v. cbn. destruct (decide (k = net_ID net)) as [->|Hne].
    + rewrite lookup_insert_eq. intros [= <-]. eexists. split_and!; [done|]. split_and!; [done|by exists (net_CIDR net)|].
      rewrite peer_count_networks, peer_count_unknown by done. done.
    + rewrite lookup_insert_ne by done. apply (ib_nets d I).
  - intros k v Hv. destruct (ib_peers d I k v Hv) as (p & -> & E1 & E2 & E3 & n & Hn & Hpl).
    exists p. split_and!; [done..|]. split_and!; [done..|]. exists n. split; [|done].
    unfold net_at in *. cbn. rewrite lookup_insert_ne; [done|congruence].
  - apply (ib_addrs d I).
  - apply (ib_names d I).
Qed.

(** Removing a peer: its row goes, its network counts it out and records when
    the address was freed. *)
Lemma remove_tx_outcome d k now p :
  inv_db d -> peer_at d k p ->
  exists n m, net_at d (NetworkID p) n /\ (forall m0, AssignedAddrs n = Some m0 -> m = m0) /\
    (forall k2 p2, peer_at d k2 p2 -> k2 <> k -> NetworkID p2 = NetworkID p -> m !! VPNAddr p2 = Some 0) /\
    remove_tx k now d =
      Ok (put_network (NetworkID p)
            (with_alloc (NextIP n) (MachineCount n - 1) (Some (<[VPNAddr p := unix now]> m)) n) (del_peer k d), p).
Proof.
  intros I Hk. destruct (ib_peer d k p I Hk) as (E1 & E2 & E3 & n & Hn & Hpl).
  destruct (ib_net d _ n I Hn) as (En & (c & Ec & Hc) & Ecount).
  assert (forall a, a ∈ used_addrs (peers (del_peer k d)) (NetworkID p) -> a ∈ used_addrs (peers d) (NetworkID p)) as Hsub.
  { intros a (k2 & p2 & K2 & N2 & Ea)%elem_of_used. cbn in K2. apply lookup_delete_Some in K2 as [_ K2].
    apply elem_of_used. eauto. }
  destruct (migrate_total n c (used_addrs (peers (del_peer k d)) (NetworkID p)) Ec Hc) as (m & Em & Hm1 & Hm2).
  { intros a Ha%Hsub. by eapply used_ip4. }
  exists n, m. split_and!; [done..| |].
  - intros k2 p2 K2 Hne N2. destruct (AssignedAddrs n) as [m0|] eqn:E0.
    + destruct (ib_peer d k2 p2 I K2) as (_ & _ & _ & n2 & Hn2 & _ & Ha). unfold net_at in *.
      rewrite N2, Hn in Hn2. injection Hn2 as <-. rewrite (Hm1 m0) by done. by apply Ha.
    + destruct (used_of_peer d k2 p2 I K2) as (a & Ea & Hok & _). rewrite Ea. apply Hm2; [done|].
      apply elem_of_used. exists k2, p2. split_and!; [cbn; by apply lookup_delete_Some|done|].
      rewrite Ea. by apply ParseAddr_String.
  - unfold remove_tx. rewrite (proj2 (get_row_Ok _ _ _ p)) by done. cbn [result_bind].
    unfold net_at in Hn. cbn [del_peer networks] in *. rewrite Hn, Em.
    pose proof (peer_count_pos d k p Hk). rewrite (proj2 (Z.ltb_lt _ _)) by lia. done.
Qed.

Lemma remove_tx_inv d k now d' p :
  inv_db d -> remove_tx k now d = Ok (d', p) -> inv_db d' /\ peer_at d k p /\ peers d' = delete k (peers d).
Proof.
  intros I E. pose proof E as E'. unfold remove_tx in E'.
  apply result_bind_Ok in E' as (q & Hq%get_row_Ok & _).
  destruct (remove_tx_outcome d k now q I Hq) as (n & m & Hn & Hm1 & Hm2 & Er).
  rewrite Er in E. injection E as <- <-. split_and!; [|done..].
  apply inv_delete; [done..|]. intros k2 p2 m' K2 Hne N2 [= <-].
  rewrite lookup_insert_ne; [by eapply Hm2|]. intros Ea. apply Hne. symmetry. by eapply (ib_addrs d I).
Qed.

(** *** The sweep *)
Lemma records_ids d : inv_db d -> map pID (records (peers d)) = (map_to_list (peers d)).*1.
Proof.
  intros I. unfold records.
  assert (forall kv, kv ∈ map_to_list (peers d) -> exists p, kv.2 = Decodable p /\ pID p = kv.1) as Hl.
  { intros [k v] Hin%elem_of_map_to_list. destruct (ib_peers d I k v Hin) as (p & -> & E & _). by exists p. }
  induction (map_to_list (peers d)) as [|[k v] l IH]; [done|].
  destruct (Hl (k, v)) as (p & E & Eid); [by left|]. cbn in E, Eid. subst v. cbn. rewrite Eid. f_equal.
  apply IH. intros kv Hin. apply Hl. by right.
Qed.

Lemma NoDup_stale d (P : peerRecord -> Prop) `{!forall p, Decision (P p)} :
  inv_db d -> NoDup (map pID (filter P (records (peers d)))).
Proof.
  intros I. eapply sublist_NoDup; [|apply fmap_sublist, sublist_filter].
  rewrite records_ids by done. apply NoDup_fst_map_to_list.
Qed.

Lemma records_at d p : inv_db d -> p ∈ records (peers d) <-> peer_at d (pID p) p.
Proof.
  intros I. rewrite elem_of_records. split; [|by eauto].
  intros [k Hk]. by destruct (ib_peer d k p I Hk) as [-> _].
Qed.

Lemma sweep_one_inv d p :
  inv_db d -> peer_at d (pID p) p ->
  inv_db (sweep_one d p) /\ peers (sweep_one d p) = delete (pID p) (peers d).
Proof.
  intros I Hk. destruct (ib_peer d _ p I Hk) as (_ & _ & _ & n & Hn & Hpl).
  destruct (ib_net d _ n I Hn) as (_ & _ & Ecount). pose proof (peer_count_pos d _ p Hk).
  unfold sweep_one. cbn [del_peer networks]. unfold net_at in Hn. rewrite Hn.
  rewrite (proj2 (Z.ltb_lt _ _)) by lia. split; [|done].
  apply inv_delete; [done..|]. intros k2 p2 m K2 _ N2 Em.
  destruct (ib_peer d k2 p2 I K2) as (_ & _ & _ & n2 & Hn2 & _ & Ha). unfold net_at in *.
  rewrite N2, Hn in Hn2. injection Hn2 as <-. by apply Ha.
Qed.

Lemma sweep_fold l : forall d,
  inv_db d -> NoDup (map pID l) -> (forall p, p ∈ l -> peer_at d (pID p) p) ->
  inv_db (foldl sweep_one d l) /\
  forall k, peers (foldl sweep_one d l) !! k = if decide (k ∈ map pID l) then None else peers d !! k.
Proof.
  induction l as [|p l IH]; intros d I Hnd Hl; [done|].
  cbn [map] in Hnd. apply NoDup_cons in Hnd as [Hfresh Hnd].
  destruct (sweep_one_inv d p I) as [I1 E1]; [apply Hl; by left|]. cbn [foldl].
  destruct (IH (sweep_one d p) I1 Hnd) as [I2 E2].
  { intros q Hq. unfold peer_at. rewrite E1, lookup_delete_ne; [apply Hl; by right|].
    intros Eq. apply Hfresh. rewrite Eq. by apply list_elem_of_fmap_2. }
  split; [done|]. intros k. rewrite E2, E1. cbn [map].
  destruct (decide (k = pID p)) as [->|Hne].
  - rewrite lookup_delete_eq. rewrite (decide_True (P := pID p ∈ pID p :: _)) by by left. by case_decide.
  - rewrite lookup_delete_ne by done. do 2 case_decide; try done; exfalso; set_solver.
Qed.

Lemma drop_fold l : forall r,
  db (foldl (fun r p => dropEndpoint (pID p) r) r l) = db r /\
  forall k, endpoints (foldl (fun r p => dropEndpoint (pID p) r) r l) !! k =
            if decide (k ∈ map pID l) then None else endpoints r !! k.
Proof.
  induction l as [|p l IH]; intros r; [done|]. cbn [foldl map].
  destruct (IH (dropEndpoint (pID p) r)) as [E1 E2]. split; [done|]. intros k. rewrite E2. cbn.
  destruct (decide (k = pID p)) as [->|Hne].
  - rewrite lookup_delete_eq. rewrite (decide_True (P := pID p ∈ pID p :: _)) by by left. by case_decide.
  - rewrite lookup_delete_ne by done. do 2 case_decide; try done; exfalso; set_solver.
Qed.

(** A store that satisfies the invariant has no endpoint to blank. *)
Lemma blank_noop d : inv_db d -> blankPersistedEndpoints d = Ok (d, tt).
Proof.
  intros I. unfold blankPersistedEndpoints.
  assert (filter (fun p => Endpoint p <> ""%string) (records (peers d)) = []) as ->; [|done].
  apply elem_of_nil_inv. intros p [Hp Hin]%list_elem_of_filter. apply records_at in Hin; [|done].
  by destruct (ib_peer d _ p I Hin) as (_ & ? & _).
Qed.

(** *** Runs of the registry *)
Inductive op :=
| OpCreate (io : bool) (net : Network) (accountID : string) (now : Z)
| OpRegister (io : bool) (p : peerRecord) (networkID : string) (maxMachines : Z)
| OpRemove (io : bool) (peerID : string) (now : Z)
| OpUpdateEndpoint (io : bool) (peerID endpoint : string) (now : Z)
| OpTouch (io : bool) (peerID : string) (now : Z)
| OpSweep (io : bool) (ttl now : Z) (skip : option (string -> bool))
| OpRestart (io : bool).

Definition run r (o : op) : Registry M :=
  match o with
  | OpCreate io net acc now => fst (CreateNetwork io net acc now r)
  | OpRegister io p nid limit => fst (RegisterPeer io p nid limit r)
  | OpRemove io k now => fst (RemovePeer io k now r)
  | OpUpdateEndpoint io k ep now => fst (UpdateEndpoint io k ep now r)
  | OpTouch io k now => fst (TouchPeer io k now r)
  | OpSweep io ttl now skip => fst (SweepStalePeers io ttl now skip r)
  | OpRestart io => match NewRegistry io (db r) with Ok r' => r' | Err _ => r end
  end.

(** Networks are created over IPv4 prefixes. *)
Definition op_ok (o : op) : Prop :=
  match o with OpCreate _ net _ _ => prefix4_ok (net_CIDR net) | _ => True end.

Definition empty_registry : Registry M :=
  {| db := {| networks := ∅; peers := ∅ |}; endpoints := ∅ |}.

Lemma set_db_same r : set_db (db r) r = r.
Proof. by destruct r. Qed.

(** A write either commits or changes nothing. *)
Lemma write_cases {A} io (f : DB M -> result error (DB M * A)) r :
  (exists d a, io = true /\ f (db r) = Ok (d, a) /\ write io f r = (set_db d r, Ok a)) \/
  (exists e, write io f r = (r, Err e) /\ (io = true -> f (db r) = Err e)).
Proof.
  unfold write, update. destruct (f (db r)) as [[d a]|e] eqn:Ef.
  - destruct io; [left; by exists d, a|right; exists ErrStore]. by rewrite set_db_same.
  - right. exists e. by rewrite set_db_same.
Qed.

Lemma inv_empty : inv empty_registry.
Proof.
  assert (forall A k (v : row A), (∅ : M (row A)) !! k = Some v -> False) as He.
  { intros A k v. by rewrite lookup_empty. }
  split; [|intros k ep; cbn; by rewrite lookup_empty].
  split; cbn; unfold peer_at; cbn; intros; exfalso; by eapply He.
Qed.

Lemma register_inv r io p nid limit : inv r -> inv (fst (RegisterPeer io p nid limit r)).
Proof.
  intros [I He]. unfold RegisterPeer.
  destruct (write_cases io (register_tx (with_Endpoint "" p) nid limit) r) as [(d & a & _ & Ef & ->)|(e & -> & _)]; [|done].
  destruct (register_tx_inv _ (with_Endpoint "" p) _ _ _ _ I eq_refl Ef) as (I' & Hid & Hdom). split; [done|].
  cbn. intros k ep. rewrite lookup_insert_Some. intros [[<- _]|[_ Hk]]; [done|]. eauto.
Qed.

Lemma touch_dom d k p' k0 : is_Some (peers d !! k0) -> is_Some (peers (put_peer k p' d) !! k0).
Proof. cbn. rewrite lookup_insert_is_Some'. by right. Qed.

Lemma remove_inv r io k now : inv r -> inv (fst (RemovePeer io k now r)).
Proof.
  intros [I He]. unfold RemovePeer.
  destruct (write_cases io (remove_tx k now) r) as [(d & p & _ & Ef & ->)|(e & -> & _)]; [|done].
  destruct (remove_tx_inv _ _ _ _ _ I Ef) as (I' & _ & Ep). split; [done|]. cbn. intros k0 ep.
  rewrite lookup_delete_Some, Ep. intros [Hne Hk]. rewrite lookup_delete_ne by done. eauto.
Qed.

(** What a sweep that commits does. *)
Lemma sweep_outcome r ttl now skip :
  inv r -> 0 < ttl ->
  exists r' removed,
    SweepStalePeers true ttl now skip r = (r', Ok removed) /\ inv r' /\
    NoDup (map pID removed) /\
    (forall p, p ∈ removed <-> peer_at (db r) (pID p) p /\ last_activity p < unix (now - ttl) /\ skipped skip p = false) /\
    (forall k, peers (db r') !! k = if decide (k ∈ map pID removed) then None else peers (db r) !! k) /\
    (forall k, endpoints r' !! k = if decide (k ∈ map pID removed) then None else endpoints r !! k) /\
    networks (db r') = networks (foldl sweep_one (db r) removed).
Proof.
  intros [I He] Httl. unfold SweepStalePeers. rewrite (proj2 (Z.leb_gt _ _)) by done.
  unfold write, update, sweep_tx. cbn match.
  set (removed := filter _ (filter _ _)).
  assert (forall p, p ∈ removed <-> peer_at (db r) (pID p) p /\ last_activity p < unix (now - ttl) /\ skipped skip p = false) as Hrem.
  { intros p. unfold removed. rewrite !list_elem_of_filter, records_at by done. tauto. }
  assert (NoDup (map pID removed)) as Hnd.
  { eapply sublist_NoDup; [|apply fmap_sublist, sublist_filter]. by apply NoDup_stale. }
  destruct (sweep_fold removed (db r) I Hnd) as [I' Ep]; [by intros p [? _]%Hrem|].
  destruct (drop_fold removed (set_db (foldl sweep_one (db r) removed) r)) as [Ed Ee].
  eexists _, removed. split; [done|]. split_and!; [|done|done| |done|by rewrite Ed].
  - split; rewrite Ed; [done|]. intros k ep. rewrite Ee. cbn. rewrite Ep. case_decide; [done|]. apply He.
  - intros k. by rewrite Ed, <- Ep.
Qed.

Lemma sweep_inv r io ttl now skip : inv r -> inv (fst (SweepStalePeers io ttl now skip r)).
Proof.
  intros I. destruct (decide (0 < ttl)) as [Ht|Ht].
  - destruct io.
    + destruct (sweep_outcome r ttl now skip I Ht) as (r' & removed & -> & I' & _). done.
    + unfold SweepStalePeers. rewrite (proj2 (Z.leb_gt _ _)) by done.
      destruct (write_cases false (sweep_tx (unix (now - ttl)) skip) r) as [(d & a & ? & _)|(e & -> & _)]; done.
  - unfold SweepStalePeers. by rewrite (proj2 (Z.leb_le _ _)) by lia.
Qed.

Lemma run_inv r o : op_ok o -> inv r -> inv (run r o).
Proof.
  intros Ho I. destruct o as [io net acc now|io p nid limit|io k now|io k ep now|io k now|io ttl now skip|io]; cbn [run].
  - destruct I as [I He]. unfold CreateNetwork.
    destruct (write_cases io (create_tx net acc now) r) as [(d & u & _ & Ef & ->)|(e & -> & _)]; [|done].
    destruct (create_tx_inv _ _ _ _ _ _ I Ho Ef) as [I' Ep]. split; [done|]. cbn. by rewrite Ep.
  - by apply register_inv.
  - by apply remove_inv.
  - destruct I as [I He]. unfold UpdateEndpoint.
    destruct (write_cases io (touch_tx k now) r) as [(d & u & _ & Ef & ->)|(e & -> & _)]; [|done].
    destruct (touch_tx_inv _ _ _ _ _ I Ef) as (I' & p & Hp & ->). split; [done|]. cbn.
    intros k0 ep0. rewrite lookup_insert_Some, lookup_insert_is_Some'. intros [[<- _]|[_ Hk]]; [by left|right; eauto].
  - destruct I as [I He]. unfold TouchPeer.
    destruct (write_cases io (touch_tx k now) r) as [(d & u & _ & Ef & ->)|(e & -> & _)]; [|done].
    destruct (touch_tx_inv _ _ _ _ _ I Ef) as (I' & p & Hp & ->). split; [done|].
    intros k0 ep0 Hk. apply touch_dom. eauto.
  - by apply sweep_inv.
  - destruct I as [I He]. unfold NewRegistry, update. rewrite blank_noop by done.
    destruct io; [|done]. split; [done|]. intros k ep. cbn. by rewrite lookup_empty.
Qed.

Lemma runs_inv ops r : Forall op_ok ops -> inv r -> inv (foldl run r ops).
Proof. intros Hops. revert r. induction Hops; intros r I; cbn; [done|]. auto using run_inv. Qed.

(** C11: From an empty registry, whatever sequence of operations runs, with
    whatever store failures, restarts and clock values, as long as networks are
    created over IPv4 prefixes: every row decodes and is stored under its own ID;
    every peer belongs to an existing network and holds an address that is a host
    of that network's prefix, recorded as assigned, that no other peer of the
    network holds; no two peers of a network have the same name up to case; a
    network's machine count is the number of its peers; no endpoint is on disk,
    last-seen times are rounded to the hour, and the endpoints in memory belong
    to registered peers. *)
Theorem registry_invariant ops : Forall op_ok ops -> inv (foldl run empty_registry ops).
Proof. intros Hops. apply runs_inv; [done|apply inv_empty]. Qed.

(** A new peer gets the lowest host address never assigned in the network;
    when there is none, the address freed longest ago, the lowest of those; when
    there is none either, registration fails and changes nothing.  A successful
    registration stores the peer under its ID with that address and network and
    with its keys, remembers its endpoint, adds one to the machine count, marks
    the address as assigned and leaves every other peer alone. *)
Theorem register_allocates r p nid limit n m :
  inv r -> net_at (db r) nid n -> AssignedAddrs n = Some m -> peers (db r) !! pID p = None ->
  (0 <? limit) && (limit <=? MachineCount n) = false ->
  exists c res, ParsePrefix (CIDR n) = Some c /\
    alloc_spec (used_addrs (peers (db r)) nid) m (hosts4 c) res /\
    match res with
    | None => RegisterPeer true p nid limit r = (r, Err ErrAddressSpaceExhausted)
    | Some a =>
        exists r' q n', RegisterPeer true p nid limit r = (r', Ok a) /\
          peer_at (db r') (pID p) q /\ pID q = pID p /\ VPNAddr q = addr_string a /\ NetworkID q = nid /\
          X25519Public q = X25519Public p /\ Ed25519Public q = Ed25519Public p /\
          (forall k, k <> pID p -> peers (db r') !! k = peers (db r) !! k) /\
          endpoints r' = <[pID p := Endpoint p]> (endpoints r) /\
          networks (db r') = <[nid := Decodable n']> (networks (db r)) /\
          MachineCount n' = MachineCount n + 1 /\ AssignedAddrs n' = Some (<[addr_string a := 0]> m)
    end.
Proof.
  intros [I He] Hn Em Hk Hlim.
  pose proof (settle_name_fields (peers (db r)) nid (with_Endpoint "" p)) as (Eid & _ & _ & EX & _ & EE).
  assert (forall f, register_tx (with_Endpoint "" p) nid limit (db r) = f ->
            register_new (settle_name (peers (db r)) nid (with_Endpoint "" p)) nid limit (db r) = f) as Htx.
  { intros f <-. unfold register_tx. rewrite Eid. cbn [pID with_Endpoint]. by rewrite Hk. }
  set (q := settle_name (peers (db r)) nid (with_Endpoint "" p)) in *. clearbody q. cbn in Eid, Htx, EX, EE.
  destruct (register_new_outcome (db r) q nid limit n I Hn Hlim) as (c & m' & res & Ec & Hc & Hm & _ & Hspec & Er).
  rewrite (Hm m Em) in *. exists c, res. split_and!; [by rewrite Ec, ParsePrefix_String|done|].
  rewrite (Htx _ eq_refl) in Er. unfold RegisterPeer, write, update. rewrite Er.
  destruct res as [a|]; [|by rewrite set_db_same].
  pose proof (peer_count_bound (db r) nid I) as Hb. destruct (ib_net _ _ _ I Hn) as (_ & _ & Ecount).
  eexists _, _, _. split; [done|]. cbn. unfold peer_at. cbn. rewrite Eid, lookup_insert_eq.
  split_and!; try done.
  - intros k Hne. by rewrite lookup_insert_ne.
  - cbn. rewrite i64_small; lia.
Qed.

(** Registering again.  A peer that registers again in its network with its
    stored X25519 key gets the address it has; only its last-seen time, name and
    subnet routes (and its endpoint in memory) change, the networks, the machine
    counts and the other peers do not.  With another key, or in another network,
    registration is refused and nothing changes. *)
Theorem reregister_keeps_address r p nid limit rec :
  inv r -> peer_at (db r) (pID p) rec ->
  (NetworkID rec <> nid -> RegisterPeer true p nid limit r = (r, Err ErrPeerIDTaken)) /\
  (NetworkID rec = nid -> X25519Public rec <> X25519Public p ->
     RegisterPeer true p nid limit r = (r, Err ErrPeerKeyMismatch)) /\
  (NetworkID rec = nid -> X25519Public rec = X25519Public p ->
     exists r' a rec', RegisterPeer true p nid limit r = (r', Ok a) /\
       addr_string a = VPNAddr rec /\ peers (db r') = <[pID p := Decodable rec']> (peers (db r)) /\
       networks (db r') = networks (db r) /\ endpoints r' = <[pID p := Endpoint p]> (endpoints r) /\
       (forall k, peer_count (db r') k = peer_count (db r) k) /\
       rec' = with_LastSeen (roundToHour (LastSeen p)) (with_Routes (SubnetRoutes p) (with_Name (pName rec') rec)) /\
       (pName rec' = pName p \/ pName rec' = ""%string)).
Proof.
  intros [I He] Hk.
  pose proof (settle_name_fields (peers (db r)) nid (with_Endpoint "" p)) as (Eid & _ & Els & EX & Ers & _).
  assert (pName (settle_name (peers (db r)) nid (with_Endpoint "" p)) = pName p \/
          pName (settle_name (peers (db r)) nid (with_Endpoint "" p)) = ""%string) as Hname
    by (unfold settle_name; destruct (_ && _); [by right|by left]).
  unfold RegisterPeer, write, update, register_tx.
  set (q := settle_name (peers (db r)) nid (with_Endpoint "" p)) in *. clearbody q. cbn in *.
  rewrite Eid. unfold peer_at in Hk. rewrite Hk.
  destruct (decide (NetworkID rec = nid)) as [En|En].
  2: { rewrite bool_decide_eq_false_2 by done. cbn. rewrite set_db_same. split_and!; done. }
  rewrite bool_decide_eq_true_2 by done. cbn [negb]. split; [done|].
  destruct (decide (X25519Public rec = X25519Public p)) as [Ek|Ek].
  2: { rewrite bool_decide_eq_false_2 by congruence. cbn. rewrite set_db_same. split; [done|]. intros; done. }
  rewrite bool_decide_eq_true_2 by congruence. cbn [negb]. split; [done|]. intros _ _.
  destruct (used_of_peer _ _ _ I Hk) as (a & Ea & Hok & _). rewrite Ea, ParseAddr_String by done.
  eexists _, a, (reregister rec q). split; [done|]. cbn [db set_db setEndpoint put_peer peers networks endpoints].
  split_and!; try done.
  - intros k. by apply (peer_count_insert_same (db r) (pID p) rec).
  - unfold reregister. cbn. by rewrite Els, Ers.
Qed.

(** The sweep removes exactly the peers whose last activity (the
    registration time when they never sent a heartbeat) is before the cutoff and
    whom [skip] does not protect: their rows and endpoints go, every other row
    and endpoint stays as it was, and the machine counts stay exact. *)
Theorem sweep_exact r ttl now skip :
  inv r -> 0 < ttl ->
  exists r' removed,
    SweepStalePeers true ttl now skip r = (r', Ok removed) /\ NoDup (map pID removed) /\
    (forall p, p ∈ removed <-> peer_at (db r) (pID p) p /\ last_activity p < unix (now - ttl) /\ skipped skip p = false) /\
    (forall k, peers (db r') !! k = if decide (k ∈ map pID removed) then None else peers (db r) !! k) /\
    (forall k, endpoints r' !! k = if decide (k ∈ map pID removed) then None else endpoints r !! k) /\
    (forall k n, net_at (db r') k n -> MachineCount n = Z.of_nat (peer_count (db r') k)).
Proof.
  intros I Ht. destruct (sweep_outcome r ttl now skip I Ht) as (r' & removed & E1 & I' & E3 & E4 & E5 & E6 & _).
  exists r', removed. split_and!; [done..|]. intros k n Hn. by destruct (ib_net _ _ _ (proj1 I') Hn) as (_ & _ & ?).
Qed.

(** *** The machine limit *)
Definition limited (nid : string) (L : Z) (o : op) : Prop :=
  match o with OpRegister _ _ nid' limit => nid' = nid -> limit = L | _ => True end.

(** Only a registration of a new peer makes a network grow, and only below its
    limit. *)
Lemma peer_count_run r o nid L :
  inv r -> op_ok o -> limited nid L o -> 0 < L -> Z.of_nat (peer_count (db r) nid) <= L ->
  Z.of_nat (peer_count (db (run r o)) nid) <= L.
Proof.
  intros [I He] Ho Hl HL Hc. destruct o as [io net acc now|io p nid' limit|io k now|io k ep now|io k now|io ttl now skip|io]; cbn [run].
  - unfold CreateNetwork. destruct (write_cases io (create_tx net acc now) r) as [(d & u & _ & Ef & ->)|(e & -> & _)]; [|done].
    destruct (create_tx_inv _ _ _ _ _ _ I Ho Ef) as [_ Ep]. unfold peer_count in *. cbn. by rewrite Ep.
  - unfold RegisterPeer.
    destruct (write_cases io (register_tx (with_Endpoint "" p) nid' limit) r) as [(d & a & _ & Ef & ->)|(e & -> & _)]; [|done].
    cbn [fst db setEndpoint set_db]. unfold register_tx in Ef.
    set (q := settle_name _ _ _) in *. clearbody q.
    destruct (peers (db r) !! pID q) as [[rec|]|] eqn:Ek; [|done|].
    { ok_inv. case_in Ef; [|done]. injection Ef as <- _.
      rewrite (peer_count_insert_same (db r) (pID q) rec) by done. done. }
    destruct (networks (db r) !! nid') as [[n|]|] eqn:En; [|unfold register_new, get_row in Ef; by rewrite En in Ef..].
    destruct ((0 <? limit) && (limit <=? MachineCount n)) eqn:El.
    { unfold register_new, get_row in Ef. rewrite En in Ef. cbn [result_bind] in Ef. by rewrite El in Ef. }
    destruct (register_new_outcome (db r) q nid' limit n I En El) as (c & m & res & _ & _ & _ & _ & _ & Er).
    rewrite Er in Ef. destruct res; [|done]. injection Ef as <- _.
    rewrite peer_count_insert_new, peer_count_networks by done. cbn [NetworkID with_place with_LastSeen].
    case_decide as E; [|done]. subst nid'. rewrite (Hl eq_refl), (proj2 (Z.ltb_lt 0 L)) in El by done.
    destruct (ib_net _ _ _ I En) as (_ & _ & Ecount). cbn [andb] in El. bool_to_prop. lia.
  - unfold RemovePeer. destruct (write_cases io (remove_tx k now) r) as [(d & p & _ & Ef & ->)|(e & -> & _)]; [|done].
    destruct (remove_tx_inv _ _ _ _ _ I Ef) as (_ & Hk & Ep). cbn [fst db dropEndpoint set_db].
    pose proof (peer_count_delete (db r) k p nid Hk) as E. unfold peer_count in *. rewrite Ep.
    cbn [del_peer peers] in E. case_decide; lia.
  - unfold UpdateEndpoint. destruct (write_cases io (touch_tx k now) r) as [(d & u & _ & Ef & ->)|(e & -> & _)]; [|done].
    destruct (touch_tx_inv _ _ _ _ _ I Ef) as (_ & p & Hp & ->). cbn [fst db setEndpoint set_db].
    by rewrite (peer_count_insert_same (db r) k p).
  - unfold TouchPeer. destruct (write_cases io (touch_tx k now) r) as [(d & u & _ & Ef & ->)|(e & -> & _)]; [|done].
    destruct (touch_tx_inv _ _ _ _ _ I Ef) as (_ & p & Hp & ->). cbn [fst db set_db].
    by rewrite (peer_count_insert_same (db r) k p).
  - unfold SweepStalePeers. case_step; [done|].
    destruct (write_cases io (sweep_tx (unix (now - ttl)) skip) r) as [(d & rm & _ & Ef & ->)|(e & -> & _)]; [|done].
    cbn [fst]. rewrite (proj1 (drop_fold rm (set_db d r))). cbn [db set_db]. injection Ef as <- <-.
    set (removed := filter _ _) in *.
    destruct (sweep_fold removed (db r) I) as [_ Ep].
    { eapply sublist_NoDup; [|apply fmap_sublist, sublist_filter]. by apply NoDup_stale. }
    { unfold removed. intros p. rewrite !list_elem_of_filter. intros (_ & _ & Hin). by apply records_at in Hin. }
    etransitivity; [|exact Hc]. apply Nat2Z.inj_le. unfold peer_count. apply map_subseteq_size, map_subseteq_spec.
    intros k v. rewrite !map_lookup_filter_Some, Ep. case_decide; naive_solver.
  - unfold NewRegistry, update. rewrite blank_noop by done. by destruct io.
Qed.

(** When every registration in a network passes the same positive machine
    limit, the network never has more peers than the limit allows, whatever the
    operations and store failures. *)
Theorem machine_limit_respected ops nid L :
  0 < L -> Forall op_ok ops -> Forall (limited nid L) ops ->
  Z.of_nat (peer_count (db (foldl run empty_registry ops)) nid) <= L.
Proof.
  intros HL Hops Hlim.
  assert (forall r, inv r -> Z.of_nat (peer_count (db r) nid) <= L ->
            Z.of_nat (peer_count (db (foldl run r ops)) nid) <= L) as H'.
  { induction Hops as [|o ops Ho Hops IH]; intros r I Hc; [done|]. inversion Hlim; subst. cbn.
    apply IH; [done|by apply run_inv|by apply peer_count_run]. }
  apply H'; [apply inv_empty|]. rewrite peer_count_unknown; [lia|apply inv_empty|]. cbn. apply lookup_empty.
Qed.

(** *** Addresses lost by the sweep *)

(** Marked as assigned, and held by nobody. *)
Definition lost (nid addr : string) r : Prop :=
  (exists n m, net_at (db r) nid n /\ AssignedAddrs n = Some m /\ m !! addr = Some 0) /\
  forall k p, peer_at (db r) k p -> NetworkID p = nid -> VPNAddr p <> addr.

Lemma alloc_spec_not_assigned used m hosts a :
  alloc_spec used m hosts (Some a) -> m !! addr_string a <> Some 0.
Proof.
  intros [(l1 & l2 & _ & [_ E] & _)|(l1 & l2 & t & _ & (_ & E & Ht) & _)]; rewrite E; [done|].
  intros [= ->]. lia.
Qed.

Lemma lost_register r io p nid' limit nid addr :
  inv_db (db r) -> lost nid addr r -> lost nid addr (fst (RegisterPeer io p nid' limit r)).
Proof.
  intros I [(n & m & Hn & Em & E0) Hfree]. unfold RegisterPeer.
  destruct (write_cases io (register_tx (with_Endpoint "" p) nid' limit) r) as [(d & a & _ & Ef & ->)|(e & -> & _)]; [|by split; eauto 10].
  cbn [fst]. unfold register_tx in Ef. set (q := settle_name _ _ _) in *. clearbody q.
  destruct (peers (db r) !! pID q) as [[rec|]|] eqn:Ek; [|done|].
  { ok_inv. case_in Ef; [|done]. injection Ef as <- _. split; [by exists n, m|].
    intros k p1 [[-> ->]|[_ K1]]%peer_at_put; [exact (Hfree (pID q) rec Ek)|by eapply Hfree]. }
  destruct (networks (db r) !! nid') as [[n'|]|] eqn:En; [|unfold register_new, get_row in Ef; by rewrite En in Ef..].
  destruct ((0 <? limit) && (limit <=? MachineCount n')) eqn:El.
  { unfold register_new, get_row in Ef. rewrite En in Ef. cbn [result_bind] in Ef. by rewrite El in Ef. }
  destruct (register_new_outcome (db r) q nid' limit n' I En El) as (c & m' & res & _ & _ & Hm & _ & Hspec & Er).
  rewrite Er in Ef. destruct res as [b|]; [|done]. injection Ef as <- _.
  apply alloc_spec_not_assigned in Hspec. unfold net_at in Hn. split.
  - destruct (decide (nid = nid')) as [<-|Hne].
    + rewrite En in Hn. injection Hn as ->. specialize (Hm m Em). subst m'.
      eexists _, _. split; [unfold net_at; cbn; apply lookup_insert_eq|]. split; [done|].
      rewrite lookup_insert_ne; [done|]. intros E. by rewrite E in Hspec.
    + exists n, m. split; [|done]. unfold net_at. cbn. by rewrite lookup_insert_ne.
  - intros k p1 [[-> ->]|[_ K1]]%peer_at_put; [|by eapply Hfree]. cbn. intros -> <-.
    rewrite En in Hn. injection Hn as ->. by rewrite (Hm m Em) in Hspec.
Qed.

Lemma sweep_one_net d p nid m :
  (exists n, net_at d nid n /\ AssignedAddrs n = Some m) ->
  exists n, net_at (sweep_one d p) nid n /\ AssignedAddrs n = Some m.
Proof.
  intros (n & Hn & Em). unfold sweep_one. cbn [del_peer networks].
  destruct (networks d !! NetworkID p) as [[n0|]|] eqn:En; [|by exists n..].
  case_step; [|by exists n]. unfold net_at in *. cbn.
  destruct (decide (nid = NetworkID p)) as [->|Hne].
  - rewrite lookup_insert_eq. rewrite En in Hn. injection Hn as ->. by eexists.
  - rewrite lookup_insert_ne by done. by exists n.
Qed.

Lemma sweep_fold_net l nid m : forall d,
  (exists n, net_at d nid n /\ AssignedAddrs n = Some m) ->
  exists n, net_at (foldl sweep_one d l) nid n /\ AssignedAddrs n = Some m.
Proof. induction l as [|p l IH]; intros d Hd; cbn; [done|]. by apply IH, sweep_one_net. Qed.

(** Writes that only change rows of peers in place keep an address lost. *)
Lemma lost_put_same d k p p' nid addr r :
  db r = d -> peer_at d k p -> NetworkID p' = NetworkID p -> VPNAddr p' = VPNAddr p ->
  lost nid addr r -> lost nid addr (set_db (put_peer k p' d) r).
Proof.
  intros <- Hk En Ea [Hn Hfree]. split; [done|]. intros k1 p1 [[-> ->]|[_ K1]]%peer_at_put; [|by eapply Hfree].
  rewrite En, Ea. by eapply Hfree.
Qed.

Lemma lost_sweep r io ttl now skip nid addr :
  inv r -> lost nid addr r -> lost nid addr (fst (SweepStalePeers io ttl now skip r)).
Proof.
  intros I Hl. pose proof Hl as [(n & m & Hn & Em & E0) Hfree]. destruct (decide (0 < ttl)) as [Ht|Ht].
  - destruct io.
    + destruct (sweep_outcome r ttl now skip I Ht) as (r' & removed & -> & _ & _ & _ & Ep & _ & En).
      split.
      * destruct (sweep_fold_net removed nid m (db r)) as (n' & Hn' & Em'); [by exists n|].
        exists n', m. unfold net_at in *. cbn [fst]. by rewrite En.
      * intros k p. unfold peer_at. cbn [fst]. rewrite Ep. case_decide; [done|]. apply Hfree.
    + unfold SweepStalePeers. rewrite (proj2 (Z.leb_gt _ _)) by done.
      destruct (write_cases false (sweep_tx (unix (now - ttl)) skip) r) as [(d & a & ? & _)|(e & -> & _)]; done.
  - unfold SweepStalePeers. by rewrite (proj2 (Z.leb_le _ _)) by lia.
Qed.

Lemma lost_run r o nid addr : op_ok o -> inv r -> lost nid addr r -> lost nid addr (run r o).
Proof.
  intros Ho I Hl. pose proof I as [Id _].
  destruct o as [io net acc now|io p nid' limit|io k now|io k ep now|io k now|io ttl now skip|io]; cbn [run].
  - unfold CreateNetwork. destruct (write_cases io (create_tx net acc now) r) as [(d & u & _ & Ef & ->)|(e & -> & _)]; [|done].
    destruct Hl as [(n & m & Hn & Em & E0) Hfree]. unfold create_tx in Ef.
    destruct (networks (db r) !! net_ID net) eqn:En; [done|]. injection Ef as <- _.
    split; [|done]. exists n, m. split; [|done]. unfold net_at in *. cbn. rewrite lookup_insert_ne; [done|congruence].
  - by apply lost_register.
  - unfold RemovePeer. destruct (write_cases io (remove_tx k now) r) as [(d & p & _ & Ef & ->)|(e & -> & _)]; [|done].
    destruct (remove_tx_inv _ _ _ _ _ Id Ef) as (_ & Hk & Ep).
    destruct (remove_tx_outcome (db r) k now p Id Hk) as (n' & m' & Hn' & Hm' & _ & Er).
    rewrite Er in Ef. injection Ef as <-. destruct Hl as [(n & m & Hn & Em & E0) Hfree]. cbn [fst]. split.
    + unfold net_at in *. cbn. destruct (decide (nid = NetworkID p)) as [->|Hne].
      * rewrite lookup_insert_eq. rewrite Hn in Hn'. injection Hn' as <-. rewrite (Hm' m Em).
        eexists _, _. split_and!; [done..|]. rewrite lookup_insert_ne; [done|]. by apply (Hfree k).
      * rewrite lookup_insert_ne by done. by exists n, m.
    + intros k1 p1. unfold peer_at. cbn. rewrite lookup_delete_Some. intros [_ K1]. by eapply Hfree.
  - unfold UpdateEndpoint. destruct (write_cases io (touch_tx k now) r) as [(d & u & _ & Ef & ->)|(e & -> & _)]; [|done].
    destruct (touch_tx_inv _ _ _ _ _ Id Ef) as (_ & p & Hp & ->). by apply (lost_put_same (db r) k p _ nid addr r).
  - unfold TouchPeer. destruct (write_cases io (touch_tx k now) r) as [(d & u & _ & Ef & ->)|(e & -> & _)]; [|done].
    destruct (touch_tx_inv _ _ _ _ _ Id Ef) as (_ & p & Hp & ->). by apply (lost_put_same (db r) k p _ nid addr r).
  - by apply lost_sweep.
  - unfold NewRegistry, update. rewrite blank_noop by done. by destruct io.
Qed.

(** An address whose peer the sweep removes is lost: the sweep, unlike
    [RemovePeer], does not record it as freed, so it stays marked as assigned and
    no later operation ever gives it to a peer of the network again. *)
Theorem swept_address_lost r ttl now skip p n m r' removed ops :
  inv r -> net_at (db r) (NetworkID p) n -> AssignedAddrs n = Some m ->
  SweepStalePeers true ttl now skip r = (r', Ok removed) -> p ∈ removed -> Forall op_ok ops ->
  forall k q, peer_at (db (foldl run r' ops)) k q -> NetworkID q = NetworkID p -> VPNAddr q <> VPNAddr p.
Proof.
  intros I Hn Em Es Hp Hops.
  assert (0 < ttl) as Ht.
  { unfold SweepStalePeers in Es. case_in Es; bool_to_prop; [|done]. injection Es as <- <-. by apply not_elem_of_nil in Hp. }
  destruct (sweep_outcome r ttl now skip I Ht) as (r1 & rm & Es' & I' & _ & Hrm & Ep & _ & En).
  rewrite Es in Es'. injection Es' as <- <-. apply Hrm in Hp as Hp'. destruct Hp' as (Hk & _).
  assert (lost (NetworkID p) (VPNAddr p) r') as Hl.
  { split.
    - destruct (sweep_fold_net removed (NetworkID p) m (db r)) as (n' & Hn' & Em'); [by exists n|].
      exists n', m. unfold net_at in *. rewrite En. split_and!; [done..|].
      destruct (ib_peer _ _ _ (proj1 I) Hk) as (_ & _ & _ & n2 & Hn2 & _ & Ha). apply Ha.
      unfold net_at in Hn2. rewrite Hn in Hn2. by injection Hn2 as <-.
    - intros k q. unfold peer_at. rewrite Ep. case_decide as Hin; [done|]. intros Hq E1 E2. apply Hin.
      assert (k = pID p) as -> by (eapply (ib_addrs _ (proj1 I)); eauto). by apply list_elem_of_fmap_2. }
  clear -Hops I' Hl FinMap0. revert r' I' Hl. induction Hops as [|o ops Ho Hops IH]; intros r I Hl; cbn [foldl].
  - apply Hl.
  - apply IH; [by apply run_inv|by apply lost_run].
Qed.

End Invariant.

(** ** A small registry

    The buckets are [gmap]s.  Network "net" is 10.0.0.0/29, whose hosts are
    10.0.0.1 to 10.0.0.6; two peers register, one of them without a free name. *)
Definition demo_prefix : Prefix := {| p_addr := Addr4 0x0A000000; p_bits := 29 |}.
Definition demo_peer (id name : string) (seen : Z) : peerRecord :=
  {| pID := id; NetworkID := ""; pName := name; VPNAddr := ""; Ed25519Public := id; X25519Public := id ++ "x";
     Endpoint := "192.0.2.1:51820"; SubnetRoutes := []; LastSeen := seen; RegisteredAt := seen |}.
Definition demo_ops : list op :=
  [ OpCreate true {| net_ID := "net"; net_CIDR := demo_prefix; net_Name := "home" |} "acc" (10 ^ 18);
    OpRegister true (demo_peer "p1" "alpha" 7000) "net" 5;
    OpRegister true (demo_peer "p2" "ALPHA" 8000000) "net" 5;
    OpRegister false (demo_peer "p3" "gamma" 8000000) "net" 5;
    OpTouch true "p2" (9000000 * 10 ^ 9);
    OpRestart true ].
Definition demo : Registry (gmap string) := foldl run empty_registry demo_ops.

Lemma demo_ops_ok : Forall op_ok demo_ops.
Proof. by repeat constructor. Qed.

Lemma demo_inv : inv demo.
Proof. apply runs_inv; [apply demo_ops_ok|apply inv_empty]. Qed.

Definition the {A} (dflt : A) (v : option (row A)) : A :=
  match v with Some (Decodable a) => a | _ => dflt end.
Definition demo_net : networkRecord :=
  the {| nID := ""; CIDR := ""; nName := ""; AccountID := ""; NextIP := ""; MachineCount := 0; CreatedAt := 0;
         AssignedAddrs := None |} (networks (db demo) !! "net"%string).
Definition demo_map : gmap string Z := default ∅ (AssignedAddrs demo_net).
Definition demo_rec (k : string) : peerRecord := the (demo_peer "" "" 0) (peers (db demo) !! k).

Example demo_rows :
  VPNAddr (demo_rec "p1") = "10.0.0.1"%string /\ pName (demo_rec "p1") = "alpha"%string /\
  VPNAddr (demo_rec "p2") = "10.0.0.2"%string /\ pName (demo_rec "p2") = ""%string /\
  LastSeen (demo_rec "p1") = 3600 /\ MachineCount demo_net = 2 /\
  snd (RegisterPeer true (demo_peer "p3" "gamma" 0) "net" 2 demo) = Err ErrMachineLimit /\
  snd (RegisterPeer true (demo_peer "p3" "gamma" 0) "net" 0 demo) = Ok (Addr4 0x0A000003).
Proof. by vm_compute. Qed.

Lemma registry_invariant_witness : Forall op_ok demo_ops /\ inv (M := gmap string) (foldl run empty_registry demo_ops).
Proof. split; [apply demo_ops_ok|]. apply registry_invariant, demo_ops_ok. Defined.

Lemma register_allocates_witness :
  exists c res, ParsePrefix (CIDR demo_net) = Some c /\
    alloc_spec (used_addrs (peers (db demo)) "net") demo_map (hosts4 c) res /\
    match res with
    | None => RegisterPeer true (demo_peer "p3" "gamma" 0) "net" 5 demo = (demo, Err ErrAddressSpaceExhausted)
    | Some a =>
        exists r' q n', RegisterPeer true (demo_peer "p3" "gamma" 0) "net" 5 demo = (r', Ok a) /\
          peer_at (db r') "p3" q /\ pID q = "p3"%string /\ VPNAddr q = addr_string a /\ NetworkID q = "net"%string /\
          X25519Public q = "p3x"%string /\ Ed25519Public q = "p3"%string /\
          (forall k, k <> "p3"%string -> peers (db r') !! k = peers (db demo) !! k) /\
          endpoints r' = <["p3"%string := "192.0.2.1:51820"%string]> (endpoints demo) /\
          networks (db r') = <["net"%string := Decodable n']> (networks (db demo)) /\
          MachineCount n' = MachineCount demo_net + 1 /\ AssignedAddrs n' = Some (<[addr_string a := 0]> demo_map)
    end.
Proof.
  apply (register_allocates demo (demo_peer "p3" "gamma" 0) "net" 5 demo_net demo_map);
    [apply demo_inv|vm_compute; reflexivity..].
Defined.

Lemma reregister_keeps_address_witness :
  peer_at (db demo) "p1" (demo_rec "p1") /\
  RegisterPeer true (demo_peer "p1" "beta" 9000) "other" 5 demo = (demo, Err ErrPeerIDTaken) /\
  exists r' a rec', RegisterPeer true (demo_peer "p1" "beta" 9000) "net" 5 demo = (r', Ok a) /\
    addr_string a = VPNAddr (demo_rec "p1") /\ peers (db r') = <["p1"%string := Decodable rec']> (peers (db demo)).
Proof.
  assert (peer_at (db demo) "p1" (demo_rec "p1")) as Hk by (vm_compute; reflexivity).
  split; [exact Hk|]. split.
  - apply (reregister_keeps_address demo (demo_peer "p1" "beta" 9000) "other" 5 (demo_rec "p1") demo_inv Hk). by vm_compute.
  - destruct (reregister_keeps_address demo (demo_peer "p1" "beta" 9000) "net" 5 (demo_rec "p1") demo_inv Hk)
      as (_ & _ & (r' & a & rec' & E1 & E2 & E3 & _)); [vm_compute; reflexivity..|].
    exists r', a, rec'. split_and!; [exact E1|exact E2|exact E3].
Defined.

(** A peer TTL of one day at a time when p1 was last seen long ago and p2 an
    hour ago. *)
Definition demo_ttl : Z := 86400 * 10 ^ 9.
Definition demo_now : Z := 9003600 * 10 ^ 9.

Lemma sweep_exact_witness :
  exists r' removed,
    SweepStalePeers true demo_ttl demo_now None demo = (r', Ok removed) /\ NoDup (map pID removed) /\
    (forall p, p ∈ removed <-> peer_at (db demo) (pID p) p /\ last_activity p < unix (demo_now - demo_ttl) /\ skipped None p = false) /\
    (forall k, peers (db r') !! k = if decide (k ∈ map pID removed) then None else peers (db demo) !! k) /\
    (forall k, endpoints r' !! k = if decide (k ∈ map pID removed) then None else endpoints demo !! k) /\
    (forall k n, net_at (db r') k n -> MachineCount n = Z.of_nat (peer_count (db r') k)).
Proof. apply (sweep_exact demo demo_ttl demo_now None demo_inv). by vm_compute. Defined.

Lemma machine_limit_respected_witness :
  Forall op_ok demo_ops /\ Forall (limited "net" 5) demo_ops /\
  Z.of_nat (peer_count (M := gmap string) (db (foldl run empty_registry demo_ops)) "net") <= 5.
Proof.
  assert (Forall (limited "net" 5) demo_ops) as Hl by (repeat constructor).
  split_and!; [apply demo_ops_ok|exact Hl|].
  apply machine_limit_respected; [lia|apply demo_ops_ok|exact Hl].
Defined.

Definition demo_swept : Registry (gmap string) := fst (SweepStalePeers true demo_ttl demo_now None demo).

(** 10.0.0.1 is not given out again, not even to the last free seat. *)
Definition demo_refill : list op :=
  [ OpRegister true (demo_peer "q1" "" 0) "net" 0; OpRegister true (demo_peer "q2" "" 0) "net" 0;
    OpRegister true (demo_peer "q3" "" 0) "net" 0; OpRegister true (demo_peer "q4" "" 0) "net" 0 ].

Lemma swept_address_lost_witness :
  snd (SweepStalePeers true demo_ttl demo_now None demo) = Ok [demo_rec "p1"] /\
  snd (RegisterPeer true (demo_peer "q5" "" 0) "net" 0 (foldl run demo_swept demo_refill)) = Err ErrAddressSpaceExhausted /\
  forall k q, peer_at (db (foldl run demo_swept demo_refill)) k q -> NetworkID q = "net"%string ->
    VPNAddr q <> "10.0.0.1"%string.
Proof.
  split; [vm_compute; reflexivity|]. split; [vm_compute; reflexivity|].
  apply (swept_address_lost demo demo_ttl demo_now None (demo_rec "p1") demo_net demo_map demo_swept [demo_rec "p1"] demo_refill);
    [apply demo_inv|vm_compute; reflexivity..|by left|by repeat constructor].
Defined.

End Registry.
