(* ===== verification/SignedMsg.v ===== *)
(** * Signed messages and the replay cache of the coordinator

    Models [src/internal/crypto/call.go], [src/internal/crypto/register.go] and
    [src/coord/server/replay.go].  [SignedMsg] is the encodings that peers sign
    and the coordinator's checks on them; Ed25519 verification and SHA-256 are
    parameters.  [Replay] is the cache of signatures already used; times are in
    nanoseconds since the epoch. *)
From Stdlib Require Import ZArith Lia Sorting.
From stdpp Require Import base numbers list gmap strings sorting.
From S2P Require Import Prelude GoLib.

Module SignedMsg.

(** ** Encodings *)
Definition CallSignatureDomain : list Z := bytes_of_string "veld-coord-call-v1" ++ [0].
Definition RegisterSignatureDomain : list Z := bytes_of_string "veld-coord-register-v2" ++ [0].
Definition RegisterTimestampWindow : Z := 120.
Definition CallTimestampWindow : Z := RegisterTimestampWindow.

Definition CallLeave : string := "Leave".
Definition CallWatch : string := "Watch".
Definition CallSendSignal : string := "SendSignal".

Record CallClaims := { Method : string; PeerID : string; Args : list string; TimestampUnix : Z }.

Record RegisterClaims := {
  NetworkID : string; Name : string; Ed25519Public : string; X25519Public : string;
  Endpoint : string; SubnetRoutes : list string; r_TimestampUnix : Z
}.

Definition appendPrefixedString (buf : list Z) (s : string) : list Z :=
  buf ++ be_put 4 (u32 (Z.of_nat (String.length s))) ++ bytes_of_string s.

Definition append_list (buf : list Z) (l : list string) : list Z :=
  foldl appendPrefixedString (buf ++ be_put 4 (u32 (Z.of_nat (length l)))) l.

Definition CallSignedMessage (c : CallClaims) : list Z :=
  let buf := CallSignatureDomain in
  let buf := appendPrefixedString buf (Method c) in
  let buf := appendPrefixedString buf (PeerID c) in
  let buf := append_list buf (Args c) in
  buf ++ be_put 8 (u64 (TimestampUnix c)).

(** [sort.Strings]: byte-wise lexicographic order. *)
Fixpoint bytes_le (l1 l2 : list Z) : bool :=
  match l1, l2 with
  | [], _ => true
  | _ :: _, [] => false
  | x :: l1', y :: l2' => (x <? y) || ((x =? y) && bytes_le l1' l2')
  end.
Definition string_le (s1 s2 : string) : Prop := bytes_le (bytes_of_string s1) (bytes_of_string s2) = true.

#[export] Instance string_le_dec : RelDecision string_le.
Proof. intros s1 s2. unfold string_le. apply _. Defined.

Definition sort_strings (l : list string) : list string := merge_sort string_le l.

Definition RegisterSignedMessage (c : RegisterClaims) : list Z :=
  let routes := sort_strings (SubnetRoutes c) in
  let buf := RegisterSignatureDomain in
  let buf := appendPrefixedString buf (NetworkID c) in
  let buf := appendPrefixedString buf (Name c) in
  let buf := appendPrefixedString buf (Ed25519Public c) in
  let buf := appendPrefixedString buf (X25519Public c) in
  let buf := appendPrefixedString buf (Endpoint c) in
  let buf := append_list buf routes in
  buf ++ be_put 8 (u64 (r_TimestampUnix c)).

Definition LeaveClaims (peerID : string) (ts : Z) : CallClaims :=
  {| Method := CallLeave; PeerID := peerID; Args := []; TimestampUnix := ts |}.
Definition WatchClaims (peerID networkID : string) (ts : Z) : CallClaims :=
  {| Method := CallWatch; PeerID := peerID; Args := [networkID]; TimestampUnix := ts |}.

(** ** Signing and verification *)
Inductive sig_error := MissingSignature | OutsideWindow | InvalidSignature.

Section Crypto.
Variable sha256 : list Z -> list Z.
Variable verify : list Z -> list Z -> list Z -> bool.   (* public key, message, signature *)
Variable sign : list Z -> list Z -> list Z.             (* private key, message *)

Definition SendSignalClaims (fromPeerID toPeerID : string) (payload : list Z) (ts : Z) : CallClaims :=
  {| Method := CallSendSignal; PeerID := fromPeerID;
     Args := [toPeerID; Hex.EncodeToString (sha256 payload)]; TimestampUnix := ts |}.

Definition SignCall (priv : list Z) (c : CallClaims) : list Z := sign priv (CallSignedMessage c).
Definition SignRegister (priv : list Z) (c : RegisterClaims) : list Z := sign priv (RegisterSignedMessage c).

Definition VerifyCallSignature (pub sig : list Z) (c : CallClaims) (now : Z) : result sig_error unit :=
  if bool_decide (sig = []) then Err MissingSignature
  else
    let drift := i64 (now - TimestampUnix c) in
    if (drift <? - CallTimestampWindow) || (CallTimestampWindow <? drift) then Err OutsideWindow
    else if negb (verify pub (CallSignedMessage c) sig) then Err InvalidSignature
    else Ok tt.

Definition VerifyRegisterSignature (pub sig : list Z) (c : RegisterClaims) (now : Z) : result sig_error unit :=
  if bool_decide (sig = []) then Err MissingSignature
  else
    let drift := i64 (now - r_TimestampUnix c) in
    if (drift <? - RegisterTimestampWindow) || (RegisterTimestampWindow <? drift) then Err OutsideWindow
    else if negb (verify pub (RegisterSignedMessage c) sig) then Err InvalidSignature
    else Ok tt.

End Crypto.

(** ** The encodings are injective *)

(** Lengths fit the 32-bit prefixes and timestamps are 64-bit integers. *)
Definition str_fits (s : string) : Prop := Z.of_nat (String.length s) < 2 ^ 32.
Definition list_fits (l : list string) : Prop := Z.of_nat (length l) < 2 ^ 32 /\ Forall str_fits l.
Definition int64_ok (x : Z) : Prop := - 2 ^ 63 <= x < 2 ^ 63.

Definition call_fits (c : CallClaims) : Prop :=
  str_fits (Method c) /\ str_fits (PeerID c) /\ list_fits (Args c) /\ int64_ok (TimestampUnix c).
Definition register_fits (c : RegisterClaims) : Prop :=
  str_fits (NetworkID c) /\ str_fits (Name c) /\ str_fits (Ed25519Public c) /\ str_fits (X25519Public c) /\
  str_fits (Endpoint c) /\ list_fits (SubnetRoutes c) /\ int64_ok (r_TimestampUnix c).

(** A length-prefixed string as the reader sees it. *)
Definition prefixed (s : string) : list Z := be_put 4 (u32 (Z.of_nat (String.length s))) ++ bytes_of_string s.

Lemma append_prefixed buf s : appendPrefixedString buf s = buf ++ prefixed s.
Proof. done. Qed.

Lemma append_list_concat buf l :
  append_list buf l = buf ++ be_put 4 (u32 (Z.of_nat (length l))) ++ concat (map prefixed l).
Proof.
  unfold append_list. rewrite app_assoc. generalize (buf ++ be_put 4 (u32 (Z.of_nat (length l)))).
  induction l as [|s l IH]; intros b; cbn; [by rewrite app_nil_r|].
  rewrite IH, append_prefixed, <- app_assoc. done.
Qed.

Lemma length_bytes_of_string s : length (bytes_of_string s) = String.length s.
Proof. induction s; cbn; congruence. Qed.

Lemma be_put_app_inj n v1 v2 r1 r2 :
  0 <= v1 < 256 ^ Z.of_nat n -> 0 <= v2 < 256 ^ Z.of_nat n ->
  be_put n v1 ++ r1 = be_put n v2 ++ r2 -> v1 = v2 /\ r1 = r2.
Proof.
  intros H1 H2 E. apply app_inj_1 in E as [E ->]; [|by rewrite !length_be_put].
  split; [by eapply be_put_inj|done].
Qed.

Lemma prefixed_inj s1 s2 r1 r2 :
  str_fits s1 -> str_fits s2 -> prefixed s1 ++ r1 = prefixed s2 ++ r2 -> s1 = s2 /\ r1 = r2.
Proof.
  unfold str_fits, prefixed, u32. intros H1 H2. rewrite <- !app_assoc, !wrap_small by lia. intros E.
  apply be_put_app_inj in E as [El E]; [|cbn; lia..].
  apply app_inj_1 in E as [E ->]; [|rewrite !length_bytes_of_string; lia].
  split; [by apply bytes_of_string_inj|done].
Qed.

Lemma concat_prefixed_inj l1 l2 r1 r2 :
  Forall str_fits l1 -> Forall str_fits l2 -> length l1 = length l2 ->
  concat (map prefixed l1) ++ r1 = concat (map prefixed l2) ++ r2 -> l1 = l2 /\ r1 = r2.
Proof.
  intros H1. revert l2. induction H1 as [|s1 l1 Hs1 _ IH]; intros [|s2 l2] H2 Hl; try done.
  cbn. rewrite <- !app_assoc. inversion H2; subst. intros E. apply prefixed_inj in E as [-> E]; [|done..].
  destruct (IH l2) as [-> ->]; [done|cbn in Hl; lia|done|done].
Qed.

Lemma list_inj l1 l2 r1 r2 :
  list_fits l1 -> list_fits l2 ->
  be_put 4 (u32 (Z.of_nat (length l1))) ++ concat (map prefixed l1) ++ r1 =
  be_put 4 (u32 (Z.of_nat (length l2))) ++ concat (map prefixed l2) ++ r2 -> l1 = l2 /\ r1 = r2.
Proof.
  intros [Hn1 H1] [Hn2 H2]. unfold u32. rewrite !wrap_small by lia. intros E.
  apply be_put_app_inj in E as [El E]; [|cbn; lia..]. apply concat_prefixed_inj in E; [done..|lia].
Qed.

Lemma timestamp_inj x y : int64_ok x -> int64_ok y -> be_put 8 (u64 x) = be_put 8 (u64 y) -> x = y.
Proof.
  intros Hx Hy E. apply be_put_inj in E; [|apply (wrap_range 64); lia..].
  rewrite <- (i64_small x), <- (i64_small y), <- i64_wrap, E by done. apply i64_wrap.
Qed.

Lemma call_message_shape c :
  CallSignedMessage c =
  CallSignatureDomain ++ prefixed (Method c) ++ prefixed (PeerID c) ++
  be_put 4 (u32 (Z.of_nat (length (Args c)))) ++ concat (map prefixed (Args c)) ++ be_put 8 (u64 (TimestampUnix c)).
Proof. unfold CallSignedMessage. rewrite append_list_concat, !append_prefixed, <- !app_assoc. done. Qed.

Lemma call_message_inj c1 c2 :
  call_fits c1 -> call_fits c2 -> CallSignedMessage c1 = CallSignedMessage c2 -> c1 = c2.
Proof.
  intros (M1 & P1 & A1 & T1) (M2 & P2 & A2 & T2). rewrite !call_message_shape. intros E.
  apply app_inv_head in E. apply prefixed_inj in E as [Em E]; [|done..].
  apply prefixed_inj in E as [Ep E]; [|done..]. apply list_inj in E as [Ea E]; [|done..].
  apply timestamp_inj in E; [|done..]. destruct c1, c2. cbn in *. congruence.
Qed.

(** *** Sorting the routes *)
Lemma bytes_le_refl l : bytes_le l l = true.
Proof. induction l; cbn; [done|]. by rewrite Z.eqb_refl, IHl, orb_true_r. Qed.

Lemma bytes_le_trans l1 l2 l3 : bytes_le l1 l2 = true -> bytes_le l2 l3 = true -> bytes_le l1 l3 = true.
Proof.
  revert l2 l3. induction l1 as [|x l1 IH]; intros [|y l2] [|z l3]; cbn; try done.
  rewrite !orb_true_iff, !andb_true_iff, !Z.ltb_lt, !Z.eqb_eq. intros [?|[-> ?]] [?|[-> ?]]; [left; lia..|].
  right. split; [done|]. eauto.
Qed.

Lemma bytes_le_antisym l1 l2 : bytes_le l1 l2 = true -> bytes_le l2 l1 = true -> l1 = l2.
Proof.
  revert l2. induction l1 as [|x l1 IH]; intros [|y l2]; cbn; try done.
  rewrite !orb_true_iff, !andb_true_iff, !Z.ltb_lt, !Z.eqb_eq. intros [?|[-> ?]] [?|[? ?]]; try lia.
  f_equal. auto.
Qed.

Lemma bytes_le_total l1 l2 : bytes_le l1 l2 = true \/ bytes_le l2 l1 = true.
Proof.
  revert l2. induction l1 as [|x l1 IH]; intros [|y l2]; cbn; auto.
  rewrite !orb_true_iff, !andb_true_iff, !Z.ltb_lt, !Z.eqb_eq.
  destruct (Z.lt_trichotomy x y) as [?|[->|?]]; auto. destruct (IH l2); auto.
Qed.

#[export] Instance string_le_trans : Transitive string_le.
Proof. intros s1 s2 s3. unfold string_le. apply bytes_le_trans. Qed.
#[export] Instance string_le_total : Total string_le.
Proof. intros s1 s2. unfold string_le. apply bytes_le_total. Qed.
#[export] Instance string_le_antisym : AntiSymm eq string_le.
Proof. intros s1 s2 H1 H2. apply bytes_of_string_inj. by apply bytes_le_antisym. Qed.

Lemma sort_strings_perm l : sort_strings l ≡ₚ l.
Proof. apply merge_sort_Permutation. Qed.

Lemma sort_strings_eq l1 l2 : sort_strings l1 = sort_strings l2 <-> l1 ≡ₚ l2.
Proof.
  split; intros E.
  - by rewrite <- (sort_strings_perm l1), E, sort_strings_perm.
  - apply (StronglySorted_unique string_le); [apply (StronglySorted_merge_sort _)..|].
    by rewrite !sort_strings_perm.
Qed.

Lemma list_fits_sort l : list_fits l -> list_fits (sort_strings l).
Proof.
  intros [Hn Hl]. split; [by rewrite (Permutation_length (sort_strings_perm l))|].
  by rewrite sort_strings_perm.
Qed.

Lemma register_message_shape c :
  RegisterSignedMessage c =
  RegisterSignatureDomain ++ prefixed (NetworkID c) ++ prefixed (Name c) ++ prefixed (Ed25519Public c) ++
  prefixed (X25519Public c) ++ prefixed (Endpoint c) ++
  be_put 4 (u32 (Z.of_nat (length (sort_strings (SubnetRoutes c))))) ++
  concat (map prefixed (sort_strings (SubnetRoutes c))) ++ be_put 8 (u64 (r_TimestampUnix c)).
Proof. unfold RegisterSignedMessage. rewrite append_list_concat, !append_prefixed, <- !app_assoc. done. Qed.

(** No message of one kind is a message of the other. *)
Lemma domains_disjoint c r : CallSignedMessage c <> RegisterSignedMessage r.
Proof.
  rewrite call_message_shape, register_message_shape. intros E. apply (f_equal (take 12)) in E.
  unfold CallSignatureDomain, RegisterSignatureDomain in E. rewrite !take_app_le in E by (cbn; lia).
  vm_compute in E. discriminate.
Qed.

Lemma register_message_eq c1 c2 :
  register_fits c1 -> register_fits c2 -> RegisterSignedMessage c1 = RegisterSignedMessage c2 ->
  NetworkID c1 = NetworkID c2 /\ Name c1 = Name c2 /\ Ed25519Public c1 = Ed25519Public c2 /\
  X25519Public c1 = X25519Public c2 /\ Endpoint c1 = Endpoint c2 /\ SubnetRoutes c1 ≡ₚ SubnetRoutes c2 /\
  r_TimestampUnix c1 = r_TimestampUnix c2.
Proof.
  intros (N1 & M1 & E1 & X1 & P1 & R1 & T1) (N2 & M2 & E2 & X2 & P2 & R2 & T2).
  rewrite !register_message_shape. intros E. apply app_inv_head in E.
  do 5 (apply prefixed_inj in E as [? E]; [|done..]).
  apply list_inj in E as [Er E]; [|by apply list_fits_sort..]. apply timestamp_inj in E; [|done..].
  apply sort_strings_eq in Er. done.
Qed.

(** The order in which the routes are listed does not matter. *)
Lemma register_message_routes c routes :
  SubnetRoutes c ≡ₚ routes ->
  RegisterSignedMessage c =
  RegisterSignedMessage {| NetworkID := NetworkID c; Name := Name c; Ed25519Public := Ed25519Public c;
    X25519Public := X25519Public c; Endpoint := Endpoint c; SubnetRoutes := routes; r_TimestampUnix := r_TimestampUnix c |}.
Proof. intros E. unfold RegisterSignedMessage. cbn. by rewrite (proj2 (sort_strings_eq _ _) E). Qed.

(** ** What an accepted signature proves *)

(** The drift check with its 64-bit subtraction. *)
Lemma drift_ok now ts :
  0 <= now < 2 ^ 62 -> int64_ok ts ->
  (i64 (now - ts) <? - 120) || (120 <? i64 (now - ts)) = false -> now - 120 <= ts <= now + 120.
Proof.
  intros Hn Ht E. bool_to_prop. unfold int64_ok in Ht. unfold i64 in *.
  pose proof (Z.div_mod (now - ts + 2 ^ 63) (2 ^ 64)). pose proof (Z.mod_pos_bound (now - ts + 2 ^ 63) (2 ^ 64)).
  lia.
Qed.

Lemma VerifyCall_inv verify pub sig c now :
  0 <= now < 2 ^ 62 -> int64_ok (TimestampUnix c) -> VerifyCallSignature verify pub sig c now = Ok tt ->
  verify pub (CallSignedMessage c) sig = true /\ now - 120 <= TimestampUnix c <= now + 120.
Proof.
  intros Hn Ht H. unfold VerifyCallSignature in H. ok_inv. apply negb_false_iff in Heqb1. by split; [|apply drift_ok].
Qed.

Lemma VerifyRegister_inv verify pub sig c now :
  0 <= now < 2 ^ 62 -> int64_ok (r_TimestampUnix c) -> VerifyRegisterSignature verify pub sig c now = Ok tt ->
  verify pub (RegisterSignedMessage c) sig = true /\ now - 120 <= r_TimestampUnix c <= now + 120.
Proof.
  intros Hn Ht H. unfold VerifyRegisterSignature in H. ok_inv. apply negb_false_iff in Heqb1. by split; [|apply drift_ok].
Qed.

(** *** Unforged signatures

    Every identity signs more than its calls and registrations with the one
    Ed25519 key it has: the string of its self-test ([crypto/keys.go],
    [config/keystore.go]), its bare X25519 key (the [X25519Sig] of both files),
    its own and the other side's X25519 key with a timestamp in a handshake
    ([SignForPeer]), and its NAT signals ([nat/signal.go]). *)
Inductive other_message : list Z -> Prop :=
| self_test_message : other_message (bytes_of_string "veld-keystore-self-test")
| x25519_key_message x : length x = 32%nat -> other_message x
| handshake_message ours theirs ts :
    length ours = 32%nat -> length theirs = 32%nat -> length ts = 8%nat -> other_message (ours ++ theirs ++ ts)
| nat_signal_message rest : other_message (bytes_of_string "veld-nat-signal-v1" ++ rest).

(** A signature that reaches the coordinator is not a forgery: a message it
    verifies for under the key is one that the holder of the key has signed,
    one of its calls, one of its registrations or one of the messages above. *)
Definition unforged (verify : list Z -> list Z -> list Z -> bool) (pub sig : list Z)
    (calls : list CallClaims) (regs : list RegisterClaims) : Prop :=
  forall m, verify pub m sig = true ->
    (exists c, c ∈ calls /\ m = CallSignedMessage c) \/ (exists r, r ∈ regs /\ m = RegisterSignedMessage r) \/ other_message m.

Lemma prefixed_length s : length (prefixed s) = (4 + String.length s)%nat.
Proof. unfold prefixed. by rewrite length_app, length_be_put, length_bytes_of_string. Qed.

(** A message that starts with a domain of the coordinator and is longer than a
    handshake's is none of the other messages. *)
Lemma domain_not_other (domain rest : list Z) :
  take 6 domain = bytes_of_string "veld-c" -> (72 < length (domain ++ rest))%nat -> ~ other_message (domain ++ rest).
Proof.
  intros Hd Hl Ho. assert (take 6 (domain ++ rest) = bytes_of_string "veld-c") as E.
  { rewrite take_app_le; [done|]. apply (f_equal length) in Hd. rewrite length_take in Hd. change (length (bytes_of_string "veld-c")) with 6%nat in Hd. lia. }
  remember (domain ++ rest) as m eqn:Em. clear Em Hd. destruct Ho as [|x Hx|ours theirs ts H1 H2 H3|rest'].
  - vm_compute in E. discriminate.
  - lia.
  - rewrite !length_app in Hl. lia.
  - rewrite take_app_le in E by (cbn; lia). vm_compute in E. discriminate.
Qed.

(** A peer ID is the hex form of an Ed25519 key. *)
Definition peer_id_len : nat := 64.

Lemma call_not_other c : String.length (PeerID c) = peer_id_len -> ~ other_message (CallSignedMessage c).
Proof.
  intros Hp. rewrite call_message_shape. apply domain_not_other; [by vm_compute|].
  rewrite !length_app, !prefixed_length, Hp, !length_be_put. unfold peer_id_len. lia.
Qed.

(** The base64 form of a 32-byte key has 44 characters. *)
Lemma register_not_other c :
  String.length (Ed25519Public c) = 44%nat -> ~ other_message (RegisterSignedMessage c).
Proof.
  intros Hp. rewrite register_message_shape. apply domain_not_other; [by vm_compute|].
  rewrite !length_app, !prefixed_length, Hp, !length_be_put. change (length RegisterSignatureDomain) with 23%nat. lia.
Qed.

(** C18: An accepted call signature that is not a forgery proves that the holder
    of the key made this very call (same method, peer, arguments and timestamp)
    with a timestamp within 120 seconds of the coordinator's clock.  No
    registration, no other method, no other split of the fields, and none of
    the other messages that an identity signs with the same key (self-test,
    X25519 key, handshake, NAT signal) passes for it. *)
Theorem accepted_call_was_signed verify pub calls regs sig c now :
  unforged verify pub sig calls regs -> Forall call_fits calls ->
  call_fits c -> String.length (PeerID c) = peer_id_len -> 0 <= now < 2 ^ 62 ->
  VerifyCallSignature verify pub sig c now = Ok tt ->
  c ∈ calls /\ now - 120 <= TimestampUnix c <= now + 120.
Proof.
  intros Hs Hcalls Hc Hp Hnow H. apply VerifyCall_inv in H as [Hv Ht]; [|done|apply Hc].
  split; [|done]. destruct (Hs _ Hv) as [(c' & Hin & E)|[(r & _ & E)|Ho]];
    [|by apply domains_disjoint in E|by apply call_not_other in Ho].
  rewrite Forall_forall in Hcalls. apply call_message_inj in E; [by subst|done|by apply Hcalls].
Qed.

(** An accepted registration signature proves that the holder of the key
    signed a registration with the same network, name, keys, endpoint and
    timestamp and the same subnet routes, in whatever order they are listed. *)
Theorem accepted_register_was_signed verify pub calls regs sig c now :
  unforged verify pub sig calls regs -> Forall register_fits regs ->
  register_fits c -> String.length (Ed25519Public c) = 44%nat -> 0 <= now < 2 ^ 62 ->
  VerifyRegisterSignature verify pub sig c now = Ok tt ->
  now - 120 <= r_TimestampUnix c <= now + 120 /\
  exists r, r ∈ regs /\ NetworkID c = NetworkID r /\ Name c = Name r /\ Ed25519Public c = Ed25519Public r /\
    X25519Public c = X25519Public r /\ Endpoint c = Endpoint r /\ SubnetRoutes c ≡ₚ SubnetRoutes r /\
    r_TimestampUnix c = r_TimestampUnix r.
Proof.
  intros Hs Hregs Hc Hp Hnow H. apply VerifyRegister_inv in H as [Hv Ht]; [|done|apply Hc].
  split; [done|]. destruct (Hs _ Hv) as [(c' & _ & E)|[(r & Hin & E)|Ho]];
    [by apply eq_sym, domains_disjoint in E| |by apply register_not_other in Ho].
  rewrite Forall_forall in Hregs. exists r. split; [done|]. apply register_message_eq; [done|by apply Hregs|done].
Qed.

(** A key whose holder made one call and one registration.  Every message has
    a signature that verifies; those of the call and of the registration are
    their own. *)
Definition demo_peer_id : string := Hex.EncodeToString (replicate 32 0xAB).
Definition demo_call : CallClaims := WatchClaims demo_peer_id "net" 1000.
Definition demo_register : RegisterClaims :=
  {| NetworkID := "net"; Name := "alpha"; Ed25519Public := Base64.EncodeToString (replicate 32 65);
     X25519Public := Base64.EncodeToString (replicate 32 66); Endpoint := "";
     SubnetRoutes := ["10.1.0.0/16"; "10.0.0.0/16"]; r_TimestampUnix := 1000 |}.
Definition demo_signature (m : list Z) : list Z :=
  if bool_decide (m = CallSignedMessage demo_call) then [1]
  else if bool_decide (m = RegisterSignedMessage demo_register) then [2] else [3].
Definition demo_verify (pub m sig : list Z) : bool := bool_decide (sig = demo_signature m).

Lemma demo_unforged sig : sig = [1] \/ sig = [2] -> unforged demo_verify [] sig [demo_call] [demo_register].
Proof.
  intros Hsig m H. apply bool_decide_eq_true in H. unfold demo_signature in H. repeat case_bool_decide; [..|by destruct Hsig; subst].
  - left. exists demo_call. split; [by left|done].
  - right; left. exists demo_register. split; [by left|done].
Qed.

Lemma demo_fits : call_fits demo_call /\ register_fits demo_register.
Proof.
  assert (forall l, forallb (fun s => Z.of_nat (String.length s) <? 2 ^ 32) l = true -> Forall str_fits l) as Hl.
  { intros l. induction l as [|s l IH]; [done|]. cbn [forallb]. rewrite andb_true_iff, Z.ltb_lt. intros [? ?]. constructor; auto. }
  unfold call_fits, register_fits, list_fits. split_and!; try (apply Hl); by vm_compute.
Qed.

(** The holder of the key passes the self-test and has signed its X25519 key. *)
Lemma accepted_call_was_signed_witness :
  (forall m, demo_verify [] m (demo_signature m) = true) /\
  VerifyCallSignature demo_verify [] [1] demo_call 1100 = Ok tt /\
  VerifyCallSignature demo_verify [] [1] demo_call 1121 = Err OutsideWindow /\
  VerifyCallSignature demo_verify [] (demo_signature (bytes_of_string "veld-keystore-self-test")) demo_call 1100 = Err InvalidSignature /\
  demo_call ∈ [demo_call].
Proof.
  split; [intros m; by apply bool_decide_true|]. do 3 (split; [vm_compute; reflexivity|]).
  apply (accepted_call_was_signed demo_verify [] [demo_call] [demo_register] [1] demo_call 1100 (demo_unforged _ (or_introl eq_refl)));
    [constructor; [apply demo_fits|constructor]|apply demo_fits|reflexivity|lia|vm_compute; reflexivity].
Defined.

Lemma accepted_register_was_signed_witness :
  exists r, r ∈ [demo_register] /\ NetworkID r = "net"%string.
Proof.
  destruct (accepted_register_was_signed demo_verify [] [demo_call] [demo_register] [2] demo_register 880 (demo_unforged _ (or_intror eq_refl)))
    as (_ & r & Hin & E & _);
    [constructor; [apply demo_fits|constructor]|apply demo_fits|reflexivity|lia|vm_compute; reflexivity|].
  exists r. split; [exact Hin|]. rewrite <- E. reflexivity.
Defined.

End SignedMsg.

Module Replay.
Import SignedMsg.

Definition maxSeenSignatures : Z := Z.shiftl 1 16.

Record seenSignatures := { seen : gmap (list Z) Z; window : Z }.

Definition newSeenSignatures (window : Z) : seenSignatures := {| seen := ∅; window := window |}.

Section Cache.
Variable sha256 : list Z -> list Z.

Definition full (m : gmap (list Z) Z) : bool := maxSeenSignatures <=? Z.of_nat (size m).

Definition firstUse (sig : list Z) (now : Z) (s : seenSignatures) : bool * seenSignatures :=
  let key := sha256 sig in
  if match seen s !! key with Some exp => now <? exp | None => false end then (false, s)
  else
    let seen1 := if full (seen s) then filter (fun kv : list Z * Z => now < kv.2) (seen s) else seen s in
    if full (seen s) && full seen1 then (false, {| seen := seen1; window := window s |})
    else (true, {| seen := <[key := now + 2 * window s]> seen1; window := window s |}).

(** A sequence of uses. *)
Definition use_all (l : list (list Z * Z)) (s : seenSignatures) : seenSignatures :=
  foldl (fun s '(sig, now) => (firstUse sig now s).2) s l.

Lemma firstUse_window sig now s : window (firstUse sig now s).2 = window s.
Proof. unfold firstUse. by repeat case_step. Qed.

(** An entry stays until its time. *)
Lemma firstUse_keeps sig now s k exp :
  seen s !! k = Some exp -> now < exp -> seen (firstUse sig now s).2 !! k = Some exp.
Proof.
  intros Hk Hlt. unfold firstUse.
  assert (forall b : bool, (if b then filter (fun kv : list Z * Z => now < kv.2) (seen s) else seen s) !! k = Some exp) as Hf.
  { intros []; [by apply map_lookup_filter_Some|done]. }
  destruct (decide (sha256 sig = k)) as [->|Hne].
  { rewrite Hk, (proj2 (Z.ltb_lt _ _)) by done. done. }
  case_step; [done|]. case_step; cbn [seen snd]; [apply Hf|]. rewrite lookup_insert_ne by done. apply Hf.
Qed.

Lemma use_all_keeps l s k exp t2 :
  seen s !! k = Some exp -> Forall (fun u : list Z * Z => u.2 <= t2) l -> t2 < exp ->
  seen (use_all l s) !! k = Some exp.
Proof.
  intros Hk Hl Ht. revert s Hk. induction Hl as [|[sig now] l Hnow Hl IH]; intros s Hk; [done|].
  unfold use_all. cbn [foldl]. apply IH, firstUse_keeps; [done|]. cbn in Hnow. lia.
Qed.

(** The cache is bounded. *)
Lemma firstUse_bounded sig now s :
  Z.of_nat (size (seen s)) <= maxSeenSignatures -> Z.of_nat (size (seen (firstUse sig now s).2)) <= maxSeenSignatures.
Proof.
  intros Hs. unfold firstUse. case_step; [done|].
  assert (forall m, full m = false -> Z.of_nat (size (<[sha256 sig := now + 2 * window s]> m)) <= maxSeenSignatures) as Hins.
  { intros m Hm. unfold full in Hm. apply Z.leb_gt in Hm. rewrite map_size_insert. destruct (m !! sha256 sig); unfold id; lia. }
  destruct (full (seen s)) eqn:Ef; cbn [andb].
  - destruct (full (filter _ _)) eqn:Ef2; cbn [seen snd]; [|by apply Hins].
    etransitivity; [|exact Hs]. apply Nat2Z.inj_le, map_subseteq_size, map_filter_subseteq.
  - cbn [seen snd]. by apply Hins.
Qed.

Definition unix (t : Z) : Z := t / 10 ^ 9.

(** Within the coordinator's window a call signature is accepted once: if it
    passes both the timestamp check and the cache at time [t1] and again at
    [t2], whatever was checked in between, then its timestamp lies exactly at
    the future edge of the window at [t1] and [t2] falls in the last second in
    which the timestamp is valid. *)
Theorem replay_only_at_edge verify pub sig c s s1 l t1 t2 s2 :
  0 <= t1 -> t2 < 2 ^ 62 -> int64_ok (TimestampUnix c) -> window s = CallTimestampWindow * 10 ^ 9 ->
  VerifyCallSignature verify pub sig c (unix t1) = Ok tt -> firstUse sig t1 s = (true, s1) ->
  Forall (fun u : list Z * Z => u.2 <= t2) l -> t1 <= t2 ->
  VerifyCallSignature verify pub sig c (unix t2) = Ok tt -> firstUse sig t2 (use_all l s1) = (true, s2) ->
  TimestampUnix c = unix t1 + 120 /\ unix t2 = unix t1 + 240.
Proof.
  intros H1 H2 Hts Hw V1 F1 Hl H12 V2 F2.
  assert (0 <= unix t1 /\ unix t1 <= unix t2 < 2 ^ 62) as [U1 U2].
  { unfold unix. split; [apply Z.div_pos; lia|]. split; [apply Z.div_le_mono; lia|].
    apply Z.div_lt_upper_bound; lia. }
  apply VerifyCall_inv in V1 as [_ V1]; [|lia|done]. apply VerifyCall_inv in V2 as [_ V2]; [|lia|done].
  assert (t1 + 240 * 10 ^ 9 <= t2) as Hgap.
  { apply Z.nlt_ge. intros Hlt.
    assert (seen s1 !! sha256 sig = Some (t1 + 240 * 10 ^ 9)) as Hk.
    { unfold firstUse in F1. case_in F1; [done|]. case_in F1; [done|]. injection F1 as <-. cbn [seen].
      rewrite lookup_insert_eq, Hw. unfold CallTimestampWindow, RegisterTimestampWindow. reflexivity. }
    pose proof (use_all_keeps l s1 _ _ t2 Hk Hl Hlt) as Hk2.
    unfold firstUse in F2. by rewrite Hk2, (proj2 (Z.ltb_lt _ _)) in F2 by done. }
  assert (unix t1 + 240 <= unix t2); [|lia].
  unfold unix. apply Z.div_le_lower_bound; [lia|]. pose proof (Z.mul_div_le t1 (10 ^ 9)). lia.
Qed.

End Cache.

(** The edge is real: accepted at 10.2 s with a timestamp 120 s ahead, and again
    at 250.9 s. *)
Definition edge_call : CallClaims := LeaveClaims "ab" 130.
Definition edge_verify (pub m sig : list Z) : bool := bool_decide (m = CallSignedMessage edge_call).
Definition edge_cache : seenSignatures := newSeenSignatures (CallTimestampWindow * 10 ^ 9).
Definition edge_t1 : Z := 10200000000.
Definition edge_t2 : Z := 250900000000.

Definition edge_cache1 : seenSignatures := (firstUse (fun x => x) [1] edge_t1 edge_cache).2.
Definition edge_cache2 : seenSignatures := (firstUse (fun x => x) [1] edge_t2 edge_cache1).2.

Lemma replay_only_at_edge_witness :
  VerifyCallSignature edge_verify [] [1] edge_call (unix edge_t1) = Ok tt /\
  VerifyCallSignature edge_verify [] [1] edge_call (unix edge_t2) = Ok tt /\
  (firstUse (fun x => x) [1] edge_t1 edge_cache).1 = true /\
  (firstUse (fun x => x) [1] edge_t2 edge_cache1).1 = true /\
  TimestampUnix edge_call = unix edge_t1 + 120 /\ unix edge_t2 = unix edge_t1 + 240.
Proof.
  split; [vm_compute; reflexivity|]. split; [vm_compute; reflexivity|].
  split; [vm_compute; reflexivity|]. split; [vm_compute; reflexivity|].
  refine (replay_only_at_edge (fun x => x) edge_verify [] [1] edge_call edge_cache edge_cache1
            [] edge_t1 edge_t2 edge_cache2 _ _ _ _ _ _ _ _ _ _).
  - by vm_compute.
  - by vm_compute.
  - by vm_compute.
  - by vm_compute.
  - vm_compute; reflexivity.
  - vm_compute; reflexivity.
  - constructor.
  - by vm_compute.
  - vm_compute; reflexivity.
  - vm_compute; reflexivity.
Defined.

End Replay.
