(* ===== verification/Bus.v ===== *)
(** * The coordinator's event bus

    Models [src/coord/server/bus.go].  Channels are shared objects: they live in
    heaps, the bus and the [Watch] streams refer to them by number.  A send on a
    closed channel and a second close panic, and a blocking send into a full
    channel never returns while the bus's mutex is held: all three are [None].
    Each operation is one critical section; [SendSignal], which releases the
    read lock before it takes the write lock, is two.  Times are nanoseconds. *)
From Stdlib Require Import ZArith Lia Sorting.
From stdpp Require Import base numbers list gmap strings fin_maps.
From S2P Require Import Prelude.

Module Bus.

Definition second : Z := 10 ^ 9.
Definition pendingSignalTTL : Z := 30 * second.
Definition maxPendingPerPeer : nat := 16.
Definition maxPendingRecipients : Z := 4096.
Definition maxSignalPayload : Z := Z.shiftl 64 10.
Definition chanCap : nat := 64.

Record signalMsg := { FromPeerID : string; ToPeerID : string; Payload : list Z }.
Record pendingSignal := { msg : signalMsg; at_ : Z }.

(** ** Channels *)
Record chan (A : Type) := { buf : list A; closed : bool }.
Arguments buf {A} c.
Arguments closed {A} c.
Arguments Build_chan {A} buf closed.

Abbreviation chans A := (gmap nat (chan A)).

(** [select { case ch <- v: default: }]. *)
Definition offer {A} (v : A) (h : chans A) (id : nat) : option (chans A) :=
  c ← h !! id;
  if closed c then None
  else if (length (buf c) <? chanCap)%nat then Some (<[id := Build_chan (buf c ++ [v]) false]> h)
  else Some h.

(** [ch <- v]: blocks when the channel is full. *)
Definition send {A} (v : A) (h : chans A) (id : nat) : option (chans A) :=
  c ← h !! id;
  if closed c then None
  else if (length (buf c) <? chanCap)%nat then Some (<[id := Build_chan (buf c ++ [v]) false]> h)
  else None.

(** [close(ch)]. *)
Definition close {A} (h : chans A) (id : nat) : option (chans A) :=
  c ← h !! id;
  if closed c then None else Some (<[id := Build_chan (buf c) true]> h).

(** [v, ok := <-ch], when it does not block. *)
Definition receive {A} (h : chans A) (id : nat) : option (option A * chans A) :=
  c ← h !! id;
  match buf c with
  | v :: rest => Some (Some v, <[id := Build_chan rest (closed c)]> h)
  | [] => if closed c then Some (None, h) else None
  end.

(** A loop of sends. *)
Fixpoint each {A B} (f : A -> B -> option A) (a : A) (l : list B) : option A :=
  match l with
  | [] => Some a
  | b :: l' => a' ← f a b; each f a' l'
  end.

Section Bus_.
Context {Ev : Type}.

Record Bus := {
  subscribers : gmap string (list nat);
  signals : gmap string (list nat);
  pending : gmap string (list pendingSignal);
  evs : chans Ev;
  sigs : chans signalMsg;
  next : nat
}.

Definition NewBus : Bus :=
  {| subscribers := ∅; signals := ∅; pending := ∅; evs := ∅; sigs := ∅; next := 0 |}.

Definition subs_of (m : gmap string (list nat)) (k : string) : list nat := default [] (m !! k).

Definition Subscribe (networkID : string) (b : Bus) : nat * Bus :=
  (next b,
   {| subscribers := <[networkID := subs_of (subscribers b) networkID ++ [next b]]> (subscribers b);
      signals := signals b; pending := pending b;
      evs := <[next b := Build_chan [] false]> (evs b); sigs := sigs b; next := S (next b) |}).

(** The first occurrence of [ch], and the list without it. *)
Fixpoint remove_first (ch : nat) (l : list nat) : option (list nat) :=
  match l with
  | [] => None
  | s :: l' => if (s =? ch)%nat then Some l' else cons s <$> remove_first ch l'
  end.

Definition Unsubscribe (networkID : string) (ch : nat) (b : Bus) : option Bus :=
  match remove_first ch (subs_of (subscribers b) networkID) with
  | None => Some b
  | Some l =>
      h ← close (evs b) ch;
      Some {| subscribers := <[networkID := l]> (subscribers b); signals := signals b; pending := pending b;
              evs := h; sigs := sigs b; next := next b |}
  end.

Definition Publish (networkID : string) (ev : Ev) (b : Bus) : option Bus :=
  h ← each (offer ev) (evs b) (subs_of (subscribers b) networkID);
  Some {| subscribers := subscribers b; signals := signals b; pending := pending b;
          evs := h; sigs := sigs b; next := next b |}.

Definition held_of (b : Bus) (peerID : string) : list pendingSignal := default [] (pending b !! peerID).

(** [p.at.After(cutoff)] with [cutoff := now.Add(-pendingSignalTTL)]. *)
Definition live (now : Z) (p : pendingSignal) : bool := now - pendingSignalTTL <? at_ p.

Definition SubscribeSignals (peerID : string) (now : Z) (b : Bus) : option (nat * Bus) :=
  let ch := next b in
  let held := held_of b peerID in
  h ← each (fun h p => if live now p then send (msg p) h ch else Some h)
           (<[ch := Build_chan [] false]> (sigs b)) held;
  Some (ch, {| subscribers := subscribers b;
               signals := <[peerID := subs_of (signals b) peerID ++ [ch]]> (signals b);
               pending := delete peerID (pending b);
               evs := evs b; sigs := h; next := S ch |}).

Definition UnsubscribeSignals (peerID : string) (ch : nat) (b : Bus) : option Bus :=
  match remove_first ch (subs_of (signals b) peerID) with
  | None => Some b
  | Some l =>
      h ← close (sigs b) ch;
      Some {| subscribers := subscribers b; signals := <[peerID := l]> (signals b); pending := pending b;
              evs := evs b; sigs := h; next := next b |}
  end.

Definition set_pending (m : gmap string (list pendingSignal)) (b : Bus) : Bus :=
  {| subscribers := subscribers b; signals := signals b; pending := m; evs := evs b; sigs := sigs b; next := next b |}.

(** The newest signal of a held slice is live. *)
Definition newest_live (now : Z) (held : list pendingSignal) : bool :=
  match last held with Some p => live now p | None => false end.

Definition lastn {A} (n : nat) (l : list A) : list A := drop (length l - n) l.

Definition full (pd : gmap string (list pendingSignal)) : bool :=
  maxPendingRecipients <=? Z.of_nat (size pd).

Definition holdLocked (m : signalMsg) (now : Z) (b : Bus) : Bus :=
  let fresh := bool_decide (pending b !! ToPeerID m = None) in
  let pd := if fresh && full (pending b)
            then filter (fun kv : string * list pendingSignal => newest_live now kv.2 = true) (pending b)
            else pending b in
  if fresh && full (pending b) && full pd then set_pending pd b
  else
    let held := filter (fun p => live now p = true) (default [] (pd !! ToPeerID m)) ++ [{| msg := m; at_ := now |}] in
    let held := if (maxPendingPerPeer <? length held)%nat then lastn maxPendingPerPeer held else held in
    set_pending (<[ToPeerID m := held]> pd) b.

Definition deliver (m : signalMsg) (b : Bus) : option Bus :=
  h ← each (offer m) (sigs b) (subs_of (signals b) (ToPeerID m));
  Some {| subscribers := subscribers b; signals := signals b; pending := pending b;
          evs := evs b; sigs := h; next := next b |}.

(** [SendSignal] up to the release of the read lock: [true] when it has to take
    the write lock. *)
Definition SendSignal_read (m : signalMsg) (hold : bool) (b : Bus) : option (bool * Bus) :=
  if bool_decide (subs_of (signals b) (ToPeerID m) = []) then Some (hold, b)
  else b' ← deliver m b; Some (false, b').

(** [SendSignal] under the write lock. *)
Definition SendSignal_write (m : signalMsg) (now : Z) (b : Bus) : option Bus :=
  if bool_decide (subs_of (signals b) (ToPeerID m) = []) then Some (holdLocked m now b)
  else deliver m b.

(** [SendSignal] when nothing runs in between. *)
Definition SendSignal (from to : string) (payload : list Z) (hold : bool) (now : Z) (b : Bus) : option Bus :=
  let m := {| FromPeerID := from; ToPeerID := to; Payload := payload |} in
  '(again, b1) ← SendSignal_read m hold b;
  if (again : bool) then SendSignal_write m now b1 else Some b1.

Definition DropPendingSignals (peerID : string) (b : Bus) : Bus := set_pending (delete peerID (pending b)) b.

End Bus_.
Arguments Bus Ev : clear implicits.

(** ** No panic and no deadlock *)

(** A table of lists of open channels: no channel is listed twice. *)
Record listed {A} (m : gmap string (list nat)) (h : chans A) (n : nat) : Prop := {
  li_open : forall k id, id ∈ subs_of m k -> exists c, h !! id = Some c /\ closed c = false;
  li_uniq : forall k1 k2 i j id, subs_of m k1 !! i = Some id -> subs_of m k2 !! j = Some id -> k1 = k2 /\ i = j;
  li_fresh : forall id, is_Some (h !! id) -> (id < n)%nat;
  li_cap : forall id c, h !! id = Some c -> (length (buf c) <= chanCap)%nat
}.

Definition pending_ok (m : gmap string (list pendingSignal)) : Prop :=
  Z.of_nat (size m) <= maxPendingRecipients /\
  forall k l, m !! k = Some l -> (length l <= maxPendingPerPeer)%nat /\ Forall (fun p => ToPeerID (msg p) = k) l.

Record bus_ok {Ev} (b : Bus Ev) : Prop := {
  bo_evs : listed (subscribers b) (evs b) (next b);
  bo_sigs : listed (signals b) (sigs b) (next b);
  bo_pending : pending_ok (pending b)
}.

Lemma subs_of_insert m k k' l : subs_of (<[k := l]> m) k' = if decide (k = k') then l else subs_of m k'.
Proof.
  unfold subs_of. case_decide as E; [subst; by rewrite lookup_insert_eq|by rewrite lookup_insert_ne].
Qed.

(** Changing the content of open channels. *)
Lemma listed_heap {A} m (h h' : chans A) n :
  listed m h n ->
  (forall id c', h' !! id = Some c' -> exists c, h !! id = Some c /\ closed c' = closed c /\ (length (buf c') <= chanCap)%nat) ->
  (forall id, is_Some (h !! id) -> is_Some (h' !! id)) ->
  listed m h' n.
Proof.
  intros [Ho Hu Hf Hc] Hback Hfwd. split; [|done| |].
  - intros k id Hin. destruct (Ho k id Hin) as (c & Hc1 & Hc2).
    destruct (Hfwd id) as [c' Hc']; [eauto|]. destruct (Hback id c' Hc') as (c0 & E & E2 & _).
    exists c'. split; [done|]. congruence.
  - intros id [c' Hc']. destruct (Hback id c' Hc') as (c & E & _). eauto.
  - intros id c' Hc'. by destruct (Hback id c' Hc') as (_ & _ & _ & ?).
Qed.

Lemma offer_spec {A} (v : A) m h n k id :
  listed m h n -> id ∈ subs_of m k -> exists h', offer v h id = Some h' /\ listed m h' n.
Proof.
  intros Hl Hin. destruct (li_open _ _ _ Hl k id Hin) as (c & Hc & Hop).
  unfold offer. rewrite Hc, bind_Some_eq, Hop.
  destruct (length (buf c) <? chanCap)%nat eqn:E; [|by exists h]. apply Nat.ltb_lt in E.
  eexists. split; [done|]. apply (listed_heap m h); [done| |].
  - intros id' c'. destruct (decide (id = id')) as [<-|Hne].
    + rewrite lookup_insert_eq. intros [= <-]. exists c. cbn. rewrite length_app. cbn. split_and!; [done..|lia].
    + rewrite lookup_insert_ne by done. intros Hc'. exists c'. split_and!; [done..|]. by eapply (li_cap _ _ _ Hl).
  - intros id' Hs. rewrite lookup_insert_is_Some'. by right.
Qed.

Lemma each_offer {A} (v : A) m n k l h :
  listed m h n -> (forall id, id ∈ l -> id ∈ subs_of m k) -> exists h', each (offer v) h l = Some h' /\ listed m h' n.
Proof.
  revert h. induction l as [|id l IH]; intros h Hl Hin; [by exists h|].
  destruct (offer_spec v m h n k id Hl) as (h1 & E & Hl1); [apply Hin; by left|].
  cbn [each]. rewrite E, bind_Some_eq. apply IH; [done|]. intros id' Hid. apply Hin. by right.
Qed.

(** A new open channel at the end of a list. *)
Lemma listed_add {A} m (h : chans A) n k c :
  listed m h n -> closed c = false -> (length (buf c) <= chanCap)%nat ->
  listed (<[k := subs_of m k ++ [n]]> m) (<[n := c]> h) (S n).
Proof.
  intros [Ho Hu Hf Hc] Hop Hlen.
  assert (forall k' id, id ∈ subs_of m k' -> id <> n) as Hne.
  { intros k' id Hin ->. destruct (Ho k' n Hin) as (c' & E & _). assert (n < n)%nat by (apply Hf; eauto). lia. }
  assert (forall k' i id, subs_of (<[k := subs_of m k ++ [n]]> m) k' !! i = Some id ->
            subs_of m k' !! i = Some id \/ (k' = k /\ id = n /\ i = length (subs_of m k))) as Hcase.
  { intros k' i id. rewrite subs_of_insert. case_decide as E; [subst k'|by left].
    rewrite lookup_app. destruct (subs_of m k !! i) eqn:Ei; [by left|]. intros Hi. right.
    apply lookup_ge_None in Ei. destruct (i - length (subs_of m k))%nat eqn:Ed; cbn in Hi; [|done].
    injection Hi as <-. split_and!; [done..|lia]. }
  assert (forall k' i id, subs_of m k' !! i = Some id -> id <> n) as Hne'.
  { intros k' i id Hi. eapply Hne, list_elem_of_lookup_2, Hi. }
  split.
  - intros k' id Hin. apply list_elem_of_lookup in Hin as [i Hi].
    destruct (Hcase _ _ _ Hi) as [Hi'|(-> & -> & _)]; [|exists c; by rewrite lookup_insert_eq].
    rewrite lookup_insert_ne by (apply not_eq_sym; eauto). eapply Ho, list_elem_of_lookup_2, Hi'.
  - intros k1 k2 i j id H1 H2.
    destruct (Hcase _ _ _ H1) as [H1'|(-> & -> & ->)], (Hcase _ _ _ H2) as [H2'|(-> & E & ->)]; subst; eauto;
      exfalso; by eapply Hne'.
  - intros id [c' Hc']. apply lookup_insert_Some in Hc' as [[<- _]|[_ Hc']]; [lia|].
    assert (id < n)%nat by (apply Hf; eauto). lia.
  - intros id c' Hc'. apply lookup_insert_Some in Hc' as [[<- <-]|[_ Hc']]; [done|by eapply Hc].
Qed.

Lemma listed_mono {A} m (h : chans A) n n' : listed m h n -> (n <= n')%nat -> listed m h n'.
Proof. intros [Ho Hu Hf Hc] Hn. split; [done..| |done]. intros id Hs. specialize (Hf id Hs). lia. Qed.

Lemma remove_first_Some ch l l' :
  remove_first ch l = Some l' -> exists i, l !! i = Some ch /\ l' = take i l ++ drop (S i) l.
Proof.
  revert l'. induction l as [|s l IH]; intros l'; cbn; [done|]. destruct (s =? ch)%nat eqn:E.
  - apply Nat.eqb_eq in E. intros [= <-]. exists 0%nat. by subst.
  - destruct (remove_first ch l) as [l0|]; [|done]. intros [= <-].
    destruct (IH l0 eq_refl) as (i & Hi & ->). by exists (S i).
Qed.

(** Removing a channel from its list and closing it. *)
Lemma listed_close {A} m (h : chans A) n k ch l :
  listed m h n -> remove_first ch (subs_of m k) = Some l ->
  exists h', close h ch = Some h' /\ listed (<[k := l]> m) h' n.
Proof.
  intros Hl (i & Hi & ->)%remove_first_Some. pose proof Hl as [Ho Hu Hf Hc].
  destruct (Ho k ch) as (c & Ec & Hop); [by eapply list_elem_of_lookup_2|].
  unfold close. rewrite Ec, bind_Some_eq, Hop. eexists. split; [done|].
  set (l := subs_of m k) in *. assert (i < length l)%nat as Hlt by by eapply lookup_lt_Some.
  (* positions in the shortened list *)
  assert (forall k' j id, subs_of (<[k := take i l ++ drop (S i) l]> m) k' !! j = Some id ->
            exists j', subs_of m k' !! j' = Some id /\ (k' = k -> j' = if (j <? i)%nat then j else S j)) as Hpos.
  { intros k' j id. rewrite subs_of_insert. case_decide as E; [subst k'|intros; exists j; split; [done|congruence]].
    rewrite lookup_app, lookup_take. case_decide as Hji.
    - rewrite (proj2 (Nat.ltb_lt j i)) by done. destruct (l !! j) eqn:Ej; [|].
      + intros [= <-]. exists j. split; [exact Ej|done].
      + apply lookup_ge_None in Ej. lia.
    - rewrite length_take_le by lia. rewrite lookup_drop. rewrite (proj2 (Nat.ltb_ge j i)) by lia.
      replace (S i + (j - i))%nat with (S j) by lia. intros Hj. by exists (S j). }
  assert (forall k' j id, subs_of (<[k := take i l ++ drop (S i) l]> m) k' !! j = Some id -> id <> ch) as Hne.
  { intros k' j id Hj ->. destruct (Hpos _ _ _ Hj) as (j' & Hj' & Ej).
    destruct (Hu _ _ _ _ _ Hj' Hi) as [-> ->]. specialize (Ej eq_refl).
    destruct (j <? i)%nat eqn:E; [apply Nat.ltb_lt in E|apply Nat.ltb_ge in E]; lia. }
  split.
  - intros k' id Hin. apply list_elem_of_lookup in Hin as [j Hj]. specialize (Hne _ _ _ Hj).
    rewrite lookup_insert_ne by done. destruct (Hpos _ _ _ Hj) as (j' & Hj' & _).
    eapply Ho, list_elem_of_lookup_2, Hj'.
  - intros k1 k2 j1 j2 id H1 H2. destruct (Hpos _ _ _ H1) as (j1' & H1' & E1), (Hpos _ _ _ H2) as (j2' & H2' & E2).
    destruct (Hu _ _ _ _ _ H1' H2') as [-> ->]. split; [done|].
    rewrite subs_of_insert in H1, H2. case_decide as E; [subst k2|by destruct (Hu _ _ _ _ _ H1 H2)].
    specialize (E1 eq_refl). specialize (E2 eq_refl).
    destruct (j1 <? i)%nat eqn:B1, (j2 <? i)%nat eqn:B2; rewrite ?Nat.ltb_lt, ?Nat.ltb_ge in *; lia.
  - intros id [c' Hc']. apply lookup_insert_Some in Hc' as [[<- _]|[_ Hc']]; apply Hf; eauto.
  - intros id c' Hc'. apply lookup_insert_Some in Hc' as [[<- <-]|[_ Hc']]; [cbn; by eapply Hc|by eapply Hc].
Qed.

(** ** Held signals *)
Lemma length_lastn {A} n (l : list A) : (length (lastn n l) <= n)%nat.
Proof. unfold lastn. rewrite length_drop. lia. Qed.

Lemma lastn_all {A} n (l : list A) : (length l <= n)%nat -> lastn n l = l.
Proof. intros. unfold lastn. by replace (length l - n)%nat with 0%nat by lia. Qed.

Lemma Forall_lastn {A} (P : A -> Prop) n l : Forall P l -> Forall P (lastn n l).
Proof. apply Forall_drop. Qed.

(** The new list of a recipient. *)
Definition hold_list (m : signalMsg) (now : Z) (old : list pendingSignal) : list pendingSignal :=
  lastn maxPendingPerPeer (filter (fun p => live now p = true) old ++ [{| msg := m; at_ := now |}]).

Lemma cap_lastn (l : list pendingSignal) :
  (if (maxPendingPerPeer <? length l)%nat then lastn maxPendingPerPeer l else l) = lastn maxPendingPerPeer l.
Proof. case_step; [done|]. apply Nat.ltb_ge in Heqb. by rewrite lastn_all. Qed.

Lemma holdLocked_pending {Ev} m now (b : Bus Ev) :
  pending_ok (pending b) -> pending_ok (pending (holdLocked m now b)).
Proof.
  intros [Hsz Hl]. unfold holdLocked. rewrite cap_lastn.
  match goal with |- context [(_ && _) && full ?x] => set (pd := x) end.
  assert (pd ⊆ pending b) as Hsub by (unfold pd; case_step; [apply map_filter_subseteq|done]).
  assert (Z.of_nat (size pd) <= maxPendingRecipients) as Hpd.
  { etransitivity; [|exact Hsz]. by apply Nat2Z.inj_le, map_subseteq_size. }
  assert (forall k l, pd !! k = Some l -> (length l <= maxPendingPerPeer)%nat /\ Forall (fun p => ToPeerID (msg p) = k) l) as Hpl.
  { intros k l Hk. apply Hl. by eapply lookup_weaken. }
  destruct (bool_decide _ && full (pending b) && full pd) eqn:E; [done|]. cbn [pending set_pending]. split.
  - rewrite map_size_insert. destruct (pd !! ToPeerID m) eqn:Em; [done|].
    assert (full pd = false) as Hfull.
    { destruct (full pd) eqn:Ef; [|done]. exfalso.
      assert (full (pending b) = true) as Efb.
      { unfold full in *. apply Z.leb_le in Ef. apply Z.leb_le. etransitivity; [exact Ef|].
        by apply Nat2Z.inj_le, map_subseteq_size. }
      rewrite Efb, !andb_true_r in E. unfold pd in Em, Ef. rewrite E, Efb in Em, Ef. cbn in Em, Ef.
      apply bool_decide_eq_false in E. congruence. }
    unfold full in Hfull. apply Z.leb_gt in Hfull. lia.
  - intros k l. rewrite lookup_insert_Some. intros [[<- <-]|[_ Hk]]; [|by apply Hpl].
    split; [apply length_lastn|]. apply Forall_lastn, Forall_app. split; [|by repeat constructor].
    apply Forall_forall. intros p [_ Hin]%list_elem_of_filter. destruct (pd !! ToPeerID m) eqn:Em; cbn in Hin;
      [|by apply not_elem_of_nil in Hin]. apply Hpl in Em as [_ Hall]. by eapply Forall_forall in Hall.
Qed.

Lemma pending_ok_delete m k : pending_ok m -> pending_ok (delete k m).
Proof.
  intros [Hsz Hl]. split.
  - etransitivity; [|exact Hsz]. apply Nat2Z.inj_le, map_subseteq_size, delete_subseteq.
  - intros k' l [_ Hk]%lookup_delete_Some. by apply Hl.
Qed.

(** The sends of [SubscribeSignals] fit the new channel. *)
Lemma fill_spec (h : chans signalMsg) ch now l c :
  h !! ch = Some c -> closed c = false -> (length (buf c) + length l <= chanCap)%nat ->
  each (fun h p => if live now p then send (msg p) h ch else Some h) h l =
    Some (<[ch := Build_chan (buf c ++ map msg (filter (fun p => live now p = true) l)) false]> h).
Proof.
  revert h c. induction l as [|p l IH]; intros h c Hc Hop Hlen; cbn [each].
  - rewrite app_nil_r. destruct c as [bf cl]; cbn in *. subst cl. by rewrite insert_id.
  - cbn [length] in Hlen. rewrite filter_cons. destruct (live now p) eqn:Ep.
    + rewrite decide_True by done. unfold send. rewrite Hc, bind_Some_eq, Hop.
      rewrite (proj2 (Nat.ltb_lt _ _)) by lia. rewrite bind_Some_eq.
      erewrite (IH _ (Build_chan (buf c ++ [msg p]) false)); [|by rewrite lookup_insert_eq|done|cbn; rewrite length_app; cbn; lia].
      rewrite insert_insert_eq. cbn [buf map]. by rewrite <- app_assoc.
    + rewrite decide_False by done. rewrite bind_Some_eq. apply IH; [done..|lia].
Qed.

Lemma SubscribeSignals_spec {Ev} peerID now (b : Bus Ev) :
  bus_ok b ->
  exists b', SubscribeSignals peerID now b = Some (next b, b') /\ bus_ok b' /\
    sigs b' !! next b = Some (Build_chan (map msg (filter (fun p => live now p = true) (held_of b peerID))) false) /\
    pending b' = delete peerID (pending b).
Proof.
  intros [He Hs Hp]. unfold SubscribeSignals.
  assert (length (held_of b peerID) <= maxPendingPerPeer)%nat as Hlen.
  { unfold held_of. destruct (pending b !! peerID) eqn:E; [by apply Hp in E as [? _]|cbn; lia]. }
  rewrite (fill_spec _ _ _ _ (Build_chan [] false));
    [|by rewrite lookup_insert_eq|done|cbn; unfold maxPendingPerPeer, chanCap in *; lia].
  rewrite bind_Some_eq. eexists. split; [done|]. split; [|split; [by cbn; rewrite lookup_insert_eq|done]].
  split; cbn [subscribers signals pending evs sigs next].
  - eapply listed_mono; [done|lia].
  - rewrite insert_insert_eq. apply listed_add; [done..|]. cbn. rewrite length_map.
    etransitivity; [apply length_filter|]. unfold maxPendingPerPeer, chanCap in *. lia.
  - by apply pending_ok_delete.
Qed.

(** ** Runs: the critical sections of any number of callers, in any order *)
Inductive op (Ev : Type) :=
| OpSubscribe (networkID : string)
| OpUnsubscribe (networkID : string) (ch : nat)
| OpPublish (networkID : string) (ev : Ev)
| OpSubscribeSignals (peerID : string) (now : Z)
| OpUnsubscribeSignals (peerID : string) (ch : nat)
| OpSendRead (m : signalMsg) (hold : bool)
| OpSendWrite (m : signalMsg) (now : Z)
| OpDrop (peerID : string)
| OpReceiveEvent (ch : nat)
| OpReceiveSignal (ch : nat).
Arguments OpSubscribe {Ev}. Arguments OpUnsubscribe {Ev}. Arguments OpPublish {Ev}.
Arguments OpSubscribeSignals {Ev}. Arguments OpUnsubscribeSignals {Ev}. Arguments OpSendRead {Ev}.
Arguments OpSendWrite {Ev}. Arguments OpDrop {Ev}. Arguments OpReceiveEvent {Ev}. Arguments OpReceiveSignal {Ev}.

Definition set_heaps {Ev} (e : chans Ev) (s : chans signalMsg) (b : Bus Ev) : Bus Ev :=
  {| subscribers := subscribers b; signals := signals b; pending := pending b; evs := e; sigs := s; next := next b |}.

(** [None]: the operation panics or blocks for ever holding the mutex.  A
    receive that would block changes nothing. *)
Definition exec {Ev} (b : Bus Ev) (o : op Ev) : option (Bus Ev) :=
  match o with
  | OpSubscribe n => Some (Subscribe n b).2
  | OpUnsubscribe n ch => Unsubscribe n ch b
  | OpPublish n ev => Publish n ev b
  | OpSubscribeSignals p now => snd <$> SubscribeSignals p now b
  | OpUnsubscribeSignals p ch => UnsubscribeSignals p ch b
  | OpSendRead m hold => snd <$> SendSignal_read m hold b
  | OpSendWrite m now => SendSignal_write m now b
  | OpDrop p => Some (DropPendingSignals p b)
  | OpReceiveEvent ch => Some (match receive (evs b) ch with Some (_, h) => set_heaps h (sigs b) b | None => b end)
  | OpReceiveSignal ch => Some (match receive (sigs b) ch with Some (_, h) => set_heaps (evs b) h b | None => b end)
  end.

Lemma receive_listed {A} m (h : chans A) n ch v h' :
  listed m h n -> receive h ch = Some (v, h') -> listed m h' n.
Proof.
  intros Hl. unfold receive. destruct (h !! ch) as [c|] eqn:Ec; [|done]. rewrite bind_Some_eq.
  pose proof (li_cap _ _ _ Hl _ _ Ec) as Hcap.
  destruct (buf c) as [|x rest] eqn:Eb; [by destruct (closed c); [intros [= _ <-]|]|]. intros [= _ <-].
  apply (listed_heap m h); [done| |].
  - intros id c'. destruct (decide (ch = id)) as [<-|Hne].
    + rewrite lookup_insert_eq. intros [= <-]. exists c. cbn in *. split_and!; [done..|lia].
    + rewrite lookup_insert_ne by done. intros Hc'. exists c'. split_and!; [done..|]. by eapply (li_cap _ _ _ Hl).
  - intros id Hs. rewrite lookup_insert_is_Some'. by right.
Qed.

Lemma deliver_ok {Ev} m (b : Bus Ev) : bus_ok b -> exists b', deliver m b = Some b' /\ bus_ok b'.
Proof.
  intros [He Hs Hp]. unfold deliver.
  destruct (each_offer m _ _ (ToPeerID m) (subs_of (signals b) (ToPeerID m)) _ Hs) as (h & -> & Hh); [done|].
  rewrite bind_Some_eq. eexists. split; [done|]. by split.
Qed.

Lemma exec_ok {Ev} (b : Bus Ev) o : bus_ok b -> exists b', exec b o = Some b' /\ bus_ok b'.
Proof.
  intros Hb. pose proof Hb as [He Hs Hp]. destruct o as [n|n ch|n ev|p now|p ch|m hold|m now|p|ch|ch]; cbn [exec].
  - eexists. split; [done|]. split; cbn; [by apply listed_add; [|done|cbn; lia]|eapply listed_mono; [done|lia]|done].
  - unfold Unsubscribe. destruct (remove_first _ _) as [l|] eqn:E; [|eauto].
    destruct (listed_close _ _ _ _ _ _ He E) as (h & -> & Hh). rewrite bind_Some_eq. eexists. split; [done|]. by split.
  - unfold Publish. destruct (each_offer ev _ _ n (subs_of (subscribers b) n) _ He) as (h & -> & Hh); [done|].
    rewrite bind_Some_eq. eexists. split; [done|]. by split.
  - destruct (SubscribeSignals_spec p now b Hb) as (b' & -> & Hb' & _). by exists b'.
  - unfold UnsubscribeSignals. destruct (remove_first _ _) as [l|] eqn:E; [|eauto].
    destruct (listed_close _ _ _ _ _ _ Hs E) as (h & -> & Hh). rewrite bind_Some_eq. eexists. split; [done|]. by split.
  - unfold SendSignal_read. case_bool_decide; [by exists b|].
    destruct (deliver_ok m b Hb) as (b' & -> & Hb'). by exists b'.
  - unfold SendSignal_write. case_bool_decide; [|by apply deliver_ok].
    eexists. split; [done|]. split; [..|by apply holdLocked_pending]; unfold holdLocked; by repeat case_step.
  - eexists. split; [done|]. split; [done..|]. by apply pending_ok_delete.
  - eexists. split; [done|]. destruct (receive (evs b) ch) as [[v h]|] eqn:E; [|done].
    split; [by eapply receive_listed|done..].
  - eexists. split; [done|]. destruct (receive (sigs b) ch) as [[v h]|] eqn:E; [|done].
    split; [done|by eapply receive_listed|done].
Qed.

(** [SendSignal] as a whole. *)
Lemma SendSignal_ok {Ev} from to payload hold now (b : Bus Ev) :
  bus_ok b -> exists b', SendSignal from to payload hold now b = Some b' /\ bus_ok b'.
Proof.
  intros Hb. unfold SendSignal. set (m := {| FromPeerID := from; ToPeerID := to; Payload := payload |}).
  destruct (exec_ok b (OpSendRead m hold) Hb) as (b1 & E1 & Hb1). cbn [exec] in E1.
  destruct (SendSignal_read m hold b) as [[again b0]|]; [|done]. injection E1 as ->. rewrite bind_Some_eq.
  destruct again; [|by exists b1]. by destruct (exec_ok b1 (OpSendWrite m now) Hb1) as (b2 & E2 & Hb2); exists b2.
Qed.

Lemma NewBus_ok {Ev} : bus_ok (NewBus : Bus Ev).
Proof.
  assert (forall A, listed ∅ (∅ : chans A) 0) as H0.
  { intros A. split; unfold subs_of; setoid_rewrite lookup_empty; cbn.
    - by intros k id ?%not_elem_of_nil.
    - intros k1 k2 i j id Hi. by rewrite lookup_nil in Hi.
    - by intros id [].
    - done. }
  split; [done..|]. split; [by vm_compute|]. intros k l. cbn. by rewrite lookup_empty.
Qed.

(** Whatever the interleaving of the critical sections of subscribers,
    publishers and senders and of the reads of the streams, the bus never sends
    on a closed channel, never closes one twice and never blocks under its
    mutex; every listed channel is open and in one list only, no channel holds
    more than 64 messages, no more than 16 signals are held for a peer and no
    more than 4096 peers have held signals. *)
Theorem bus_never_panics {Ev} (ops : list (op Ev)) :
  exists b, each exec NewBus ops = Some b /\ bus_ok b.
Proof.
  assert (forall b, bus_ok b -> exists b', each exec b ops = Some b' /\ bus_ok b') as Hrun.
  { induction ops as [|o ops IH]; intros b Hb; [by exists b|]. cbn [each].
    destruct (exec_ok b o Hb) as (b1 & -> & Hb1). rewrite bind_Some_eq. by apply IH. }
  apply Hrun, NewBus_ok.
Qed.

(** ** Signals for a peer that has not subscribed yet *)

(** The signals of one recipient, with the times of their [SendSignal] calls. *)
Definition queue (to : string) (l : list (string * list Z * Z)) : list pendingSignal :=
  map (fun '(from, payload, now) => {| msg := {| FromPeerID := from; ToPeerID := to; Payload := payload |}; at_ := now |}) l.

Definition send_all {Ev} (to : string) (b : Bus Ev) (l : list (string * list Z * Z)) : option (Bus Ev) :=
  each (fun b '(from, payload, now) => SendSignal from to payload true now b) b l.

Definition ordered (l : list pendingSignal) : Prop := StronglySorted (fun p q => at_ p <= at_ q) l.

Lemma live_mono t t' p : t <= t' -> live t' p = true -> live t p = true.
Proof. unfold live. rewrite !Z.ltb_lt. lia. Qed.

Lemma filter_live_mono t t' (l : list pendingSignal) :
  t <= t' -> filter (fun p => live t' p = true) (filter (fun p => live t p = true) l) = filter (fun p => live t' p = true) l.
Proof.
  intros Ht. rewrite list_filter_filter. apply list_filter_iff. intros p. split; [tauto|].
  intros Hp. split; [done|]. by eapply live_mono.
Qed.

(** On a list in time order, dropping the expired and keeping the newest 16
    commute, one past the bound. *)
Lemma lastn_filter_live t l :
  ordered l -> (length l <= S maxPendingPerPeer)%nat ->
  lastn maxPendingPerPeer (filter (fun p => live t p = true) l) =
  filter (fun p => live t p = true) (lastn maxPendingPerPeer l).
Proof.
  intros Ho Hlen. destruct (decide (length l <= maxPendingPerPeer)%nat) as [Hs|Hs].
  { rewrite (lastn_all _ l) by done. apply lastn_all. etransitivity; [apply length_filter|done]. }
  destruct l as [|x l]; [cbn in Hs; lia|]. cbn [length] in *.
  assert (lastn maxPendingPerPeer (x :: l) = l) as ->.
  { unfold lastn. cbn [length]. replace (S (length l) - maxPendingPerPeer)%nat with 1%nat by lia. done. }
  rewrite filter_cons. case_decide as Hx.
  - assert (filter (fun p => live t p = true) l = l) as ->.
    { inversion Ho; subst. clear -Hx H2. induction l as [|y l IH]; [done|]. inversion H2; subst.
      rewrite filter_cons_True, IH; [done..|]. revert Hx. unfold live. rewrite !Z.ltb_lt. lia. }
    unfold lastn. cbn [length]. replace (S (length l) - maxPendingPerPeer)%nat with 1%nat by lia. done.
  - apply lastn_all. etransitivity; [apply length_filter|lia].
Qed.

Lemma lastn_snoc {A} n (l : list A) x : lastn n (lastn n l ++ [x]) = lastn n (l ++ [x]).
Proof.
  unfold lastn. rewrite !length_app, length_drop. cbn [length].
  destruct (decide (length l <= n)%nat).
  - replace (length l - n)%nat with 0%nat by lia. cbn [drop]. do 2 f_equal. lia.
  - rewrite !skipn_app, !length_drop, drop_drop. f_equal; f_equal; lia.
Qed.

Lemma ordered_snoc l x : ordered (l ++ [x]) -> ordered l /\ Forall (fun p => at_ p <= at_ x) l.
Proof.
  unfold ordered. intros H. induction l as [|y l IH]; [by repeat constructor|].
  cbn in H. inversion H as [|? ? Hl Hy]; subst. apply IH in Hl as [H1 H2]. apply Forall_app in Hy as [Hy Hx].
  inversion Hx; subst. split; constructor; done.
Qed.

Lemma ordered_app_r l1 l2 : ordered (l1 ++ l2) -> ordered l2.
Proof. unfold ordered. induction l1 as [|x l1 IH]; [done|]. intros H. inversion H; subst. auto. Qed.

(** One [SendSignal] to a peer without subscriber, when its slot can be had. *)
Lemma SendSignal_hold {Ev} from to payload now (b : Bus Ev) :
  subs_of (signals b) to = [] -> Z.of_nat (size (pending b)) < maxPendingRecipients \/ is_Some (pending b !! to) ->
  SendSignal from to payload true now b =
    Some (set_pending (<[to := hold_list {| FromPeerID := from; ToPeerID := to; Payload := payload |} now (held_of b to)]> (pending b)) b).
Proof.
  intros Hs Hroom. unfold SendSignal, SendSignal_read. cbn [ToPeerID]. rewrite bool_decide_eq_true_2, bind_Some_eq by done.
  unfold SendSignal_write. cbn [ToPeerID]. rewrite bool_decide_eq_true_2 by done.
  unfold holdLocked. cbn [ToPeerID]. rewrite cap_lastn.
  assert (bool_decide (pending b !! to = None) && full (pending b) = false) as ->; [|done].
  destruct Hroom as [Hlt|[x Hx]].
  - apply andb_false_iff. right. by apply Z.leb_gt.
  - by rewrite Hx, bool_decide_eq_false_2.
Qed.

(** What is held for [to] after the sends. *)
Lemma send_all_held {Ev} to (b : Bus Ev) l now :
  subs_of (signals b) to = [] -> pending b !! to = None -> Z.of_nat (size (pending b)) < maxPendingRecipients ->
  ordered (queue to l) -> Forall (fun p => at_ p <= now) (queue to l) ->
  exists pd, send_all to b l = Some (set_pending pd b) /\
    (l <> [] -> is_Some (pd !! to)) /\ (l = [] -> pd = pending b) /\
    filter (fun p => live now p = true) (default [] (pd !! to)) =
    filter (fun p => live now p = true) (lastn maxPendingPerPeer (queue to l)).
Proof.
  intros Hs Hn Hroom. revert now. induction l as [|[[from payload] t] l IH] using rev_ind; intros now Ho Hle.
  { exists (pending b). split; [by destruct b|]. split_and!; [done..|]. by rewrite Hn. }
  unfold queue in Ho, Hle. rewrite map_app in Ho, Hle. apply Forall_app in Hle as [_ Hle]. apply Forall_cons in Hle as [Hle _].
  pose proof (ordered_snoc _ _ Ho) as [Ho' Hle']. cbn in Hle, Hle'.
  destruct (IH t) as (pd & Erun & Hsome & Hnil & Hheld); [done..|].
  assert (forall (b0 : Bus Ev) l1 l2, send_all to b0 (l1 ++ l2) = b1 ← send_all to b0 l1; send_all to b1 l2) as Happ.
  { intros b0 l1 l2. unfold send_all. revert b0. induction l1 as [|[[f p] n] l1 IH']; intros b0; [done|]. cbn.
    destruct (SendSignal f to p true n b0); [apply IH'|done]. }
  rewrite Happ, Erun, bind_Some_eq. unfold send_all. cbn [each]. rewrite SendSignal_hold, bind_Some_eq; [|done|].
  2: { cbn [pending set_pending]. destruct l; [left; by rewrite Hnil|right; by apply Hsome]. }
  eexists. split; [done|]. cbn [pending set_pending]. rewrite lookup_insert_eq. split_and!; [done|by intros []%app_nil|].
  cbn [default from_option id]. unfold hold_list, held_of. cbn [pending set_pending]. rewrite Hheld.
  set (q := {| msg := _; at_ := t |}).
  assert (filter (fun p => live t p = true) (lastn maxPendingPerPeer (queue to l)) ++ [q] =
          filter (fun p => live t p = true) (lastn maxPendingPerPeer (queue to l) ++ [q])) as ->.
  { rewrite filter_app. f_equal. rewrite filter_cons_True; [done|]. unfold live, pendingSignalTTL, second. cbn. apply Z.ltb_lt. lia. }
  rewrite lastn_filter_live.
  - rewrite filter_live_mono by done. f_equal. rewrite lastn_snoc. unfold queue. by rewrite map_app.
  - unfold lastn at 1. apply (ordered_app_r (take (length (queue to l) - maxPendingPerPeer) (queue to l))).
    rewrite app_assoc, take_drop. exact Ho.
  - rewrite length_app. cbn. pose proof (length_lastn maxPendingPerPeer (queue to l)). lia.
Qed.

(** A peer that is registered and opens its stream late loses no recent
    signal: of the signals sent to it in order before it subscribes, its new
    channel starts with exactly those among the last 16 that are younger than 30
    seconds, oldest first, and nothing stays held for it. *)
Theorem held_signals_delivered {Ev} to (b b1 : Bus Ev) l now :
  bus_ok b -> subs_of (signals b) to = [] -> pending b !! to = None ->
  Z.of_nat (size (pending b)) < maxPendingRecipients ->
  ordered (queue to l) -> Forall (fun p => at_ p <= now) (queue to l) ->
  send_all to b l = Some b1 ->
  exists b2, SubscribeSignals to now b1 = Some (next b, b2) /\ pending b2 !! to = None /\
    sigs b2 !! next b =
      Some (Build_chan (map msg (filter (fun p => live now p = true) (lastn maxPendingPerPeer (queue to l)))) false).
Proof.
  intros Hb Hs Hn Hroom Ho Hle Hrun.
  destruct (send_all_held to b l now Hs Hn Hroom Ho Hle) as (pd & E & _ & _ & Hheld).
  assert (bus_ok b1) as Hb1.
  { clear -Hb Hrun. revert b Hb Hrun. unfold send_all. induction l as [|[[f p] n] l IH]; intros b Hb; cbn; [by intros [= <-]|].
    intros Hrun. destruct (SendSignal_ok f to p true n b Hb) as (b' & E & Hb').
    rewrite E, bind_Some_eq in Hrun. by eapply IH. }
  rewrite E in Hrun. injection Hrun as <-.
  destruct (SubscribeSignals_spec to now _ Hb1) as (b2 & E2 & _ & Hch & Hpd).
  exists b2. cbn [next set_pending] in *. split_and!; [done|rewrite Hpd; apply lookup_delete_eq|].
  rewrite Hch. unfold held_of. cbn [pending set_pending]. by rewrite Hheld.
Qed.

(** Three signals, the first of them expired when the peer subscribes. *)
Definition demo_sent : list (string * list Z * Z) :=
  [("a"%string, [1], 0); ("b"%string, [2], 10 * second); ("a"%string, [3], 20 * second)].

Lemma held_signals_delivered_witness :
  exists b1 b2, send_all "p" (NewBus : Bus nat) demo_sent = Some b1 /\
    SubscribeSignals "p" (31 * second) b1 = Some (0%nat, b2) /\ pending b2 !! "p"%string = None /\
    sigs b2 !! 0%nat = Some (Build_chan
      [{| FromPeerID := "b"; ToPeerID := "p"; Payload := [2] |}; {| FromPeerID := "a"; ToPeerID := "p"; Payload := [3] |}] false).
Proof.
  destruct (send_all "p" (NewBus : Bus nat) demo_sent) as [b1|] eqn:E; [|vm_compute in E; discriminate E].
  destruct (held_signals_delivered "p" NewBus b1 demo_sent (31 * second)) as (b2 & E2 & E3 & E4).
  - apply NewBus_ok.
  - vm_compute. reflexivity.
  - vm_compute. reflexivity.
  - vm_compute. reflexivity.
  - repeat constructor; vm_compute; congruence.
  - repeat constructor; vm_compute; congruence.
  - exact E.
  - exists b1, b2. split; [reflexivity|]. split; [exact E2|]. split; [exact E3|]. exact E4.
Defined.

End Bus.
