(* ===== verification/Server.v ===== *)
(** * The coordinator's RPC server

    Models [src/coord/server/server.go] over [Registry], [Bus] and
    [SignedMsg.Replay], and the community edition's collaborators
    ([src/coord/ce]).  The collaborators are an interface, the class [Backend]
    (accounts, limits and the subnet policy); calls of the audit log and of the
    lifecycle hooks, which return nothing the server uses, are recorded in the
    order they are made.

    An RPC is a computation in [Rpc]: it threads the server's state, stops at the
    first error status, and [None] is a panic of the bus.  A handler runs between
    the readings of the clock it is given ([t i] is the i-th reading); [io] says
    whether the store accepts the handler's write.  [Watch] is three operations:
    opening the stream up to the snapshot, forwarding one message, and the
    deferred clean-up. *)
From Stdlib Require Import ZArith Lia.
From stdpp Require Import base numbers list gmap strings fin_maps.
From S2P Require Import Prelude GoLib PeerTable AddrText Registry SignedMsg Bus.

Module Server.
Import Netip AddrText Registry.Registry.
Abbreviation Bus := Bus.Bus.Bus.
Abbreviation seenSignatures := SignedMsg.Replay.seenSignatures.

(** ** Collaborators *)
Record Account := { acc_ID : string; acc_Tier : Z }.

Class Backend := {
  Resolve : string -> option Account;             (* AccountStore *)
  MachineLimitFor : string -> Z;                  (* PlanEnforcer *)
  Allow : string -> Prefix -> bool                (* SubnetPolicy *)
}.

(** The community edition. *)
Definition FreeMachineLimit : Z := 5.
Definition ce_backend (tokens : gmap string Account) : Backend :=
  {| Resolve token := tokens !! token;
     MachineLimitFor _ := FreeMachineLimit;
     Allow _ _ := false |}.

(** [coordcore.Peer]. *)
Record core_Peer := { cp_ID : string; cp_Name : string; cp_VPNAddr : Addr; cp_NetworkID : string }.

Inductive AuditEventKind :=
| AuditPeerRegistered | AuditPeerLeft | AuditNetworkCreated | AuditSubnetRouteAdded | AuditRegistrationRejected.

Inductive effect :=
| RecordActivity (accountID : string)
| AuditLog (kind : AuditEventKind) (accountID networkID peerID detail : string)
| OnPeerRegistered (p : core_Peer) (n : option Network)
| OnPeerLeft (p : core_Peer) (n : option Network)
| OnSubnetRouteAdvertised (p : core_Peer) (route : Prefix).

(** ** Messages *)
Record Peer := {
  Id : string; Name : string; VpnAddr : string; v_Ed25519Public : string; v_X25519Public : string;
  v_Endpoint : string; v_SubnetRoutes : list string
}.

Inductive PeerEvent :=
| EvJoin (p : Peer)
| EvLeave (p : Peer)
| EvSignal (from : string) (payload : list Z).

Record RegisterRequest := {
  rq_NetworkId : string; rq_Token : string; rq_Name : string; rq_Ed25519Public : string;
  rq_X25519Public : string; rq_Endpoint : string; rq_SubnetRoutes : list string;
  rq_TimestampUnix : Z; rq_Signature : list Z
}.
Record RegisterResponse := {
  rs_VpnAddr : string; rs_PeerId : string; rs_NetworkId : string; rs_NetworkCidr : string
}.
Record ListPeersRequest := { lp_Token : string; lp_NetworkId : string }.
Record WatchRequest := {
  wr_Token : string; wr_NetworkId : string; wr_PeerId : string; wr_TimestampUnix : Z; wr_Signature : list Z
}.
Record SendSignalRequest := {
  sr_Token : string; sr_FromPeerId : string; sr_ToPeerId : string; sr_Payload : list Z;
  sr_TimestampUnix : Z; sr_Signature : list Z
}.
Record LeaveRequest := { lv_Token : string; lv_PeerId : string; lv_TimestampUnix : Z; lv_Signature : list Z }.

(** gRPC status codes the server returns. *)
Inductive code :=
| Unauthenticated | NotFound | InvalidArgument | PermissionDenied | AlreadyExists | ResourceExhausted | Internal.

(** An open [Watch] stream. *)
Record stream := { st_network : string; st_peer : string; st_ch : nat; st_sig : option nat }.

(** ** Names *)
Definition name_char (c : Z) : bool :=
  ((97 <=? c) && (c <=? 122)) || ((65 <=? c) && (c <=? 90)) || ((48 <=? c) && (c <=? 57)) || (c =? 45).

Definition validPeerName (name : string) : bool :=
  let l := bytes_of_string name in
  match l with
  | [] => true
  | c :: _ =>
      if (63 <? length l)%nat || (c =? 45) || bool_decide (last l = Some 45) then false
      else forallb name_char l
  end.

Definition endpoint_ok (s : string) : bool :=
  String.eqb s "" ||
  match ParseAddrPort s with
  | None => false
  | Some ep => negb ((ap_port ep =? 0) || IsUnspecified (ap_addr ep) || IsMulticast (ap_addr ep))
  end.

Section Server.
Context {M : Type -> Type} `{FMap M, forall A, Lookup string A (M A), forall A, Empty (M A),
  forall A, PartialAlter string A (M A), OMap M, Merge M, forall A, MapFold string A (M A), !FinMap string M}.
Context {be : Backend}.
Variable sha256 : list Z -> list Z.
Variable verify : list Z -> list Z -> list Z -> bool.

Record Server := {
  registry : Registry M;
  bus : Bus PeerEvent;
  connected : gmap string Z;
  seen : seenSignatures;
  calls : list effect
}.

Definition New (reg : Registry M) : Server :=
  {| registry := reg; bus := Bus.Bus.NewBus; connected := ∅;
     seen := SignedMsg.Replay.newSeenSignatures (SignedMsg.SignedMsg.CallTimestampWindow * 10 ^ 9); calls := [] |}.

Definition with_registry (r : Registry M) (s : Server) : Server :=
  {| registry := r; bus := bus s; connected := connected s; seen := seen s; calls := calls s |}.
Definition with_bus (b : Bus PeerEvent) (s : Server) : Server :=
  {| registry := registry s; bus := b; connected := connected s; seen := seen s; calls := calls s |}.
Definition with_connected (c : gmap string Z) (s : Server) : Server :=
  {| registry := registry s; bus := bus s; connected := c; seen := seen s; calls := calls s |}.
Definition with_seen (sn : seenSignatures) (s : Server) : Server :=
  {| registry := registry s; bus := bus s; connected := connected s; seen := sn; calls := calls s |}.
Definition add_calls (l : list effect) (s : Server) : Server :=
  {| registry := registry s; bus := bus s; connected := connected s; seen := seen s; calls := calls s ++ l |}.

(** ** The monad of an RPC *)
Definition Rpc (A : Type) : Type := Server -> option (Server * result code A).

Definition ret {A} (a : A) : Rpc A := fun s => Some (s, Ok a).
Definition fail {A} (c : code) : Rpc A := fun s => Some (s, Err c).
Definition bind {A B} (m : Rpc A) (k : A -> Rpc B) : Rpc B := fun s =>
  match m s with
  | None => None
  | Some (s', Ok a) => k a s'
  | Some (s', Err c) => Some (s', Err c)
  end.
Definition gets {A} (f : Server -> A) : Rpc A := fun s => Some (s, Ok (f s)).
Definition modify (f : Server -> Server) : Rpc unit := fun s => Some (f s, Ok tt).
Definition of_option {A} (c : code) (o : option A) : Rpc A :=
  match o with Some a => ret a | None => fail c end.
Definition check (b : bool) (c : code) : Rpc unit := if b then ret tt else fail c.
(** An operation of the bus. *)
Definition on_bus {A} (f : Bus PeerEvent -> option (A * Bus PeerEvent)) : Rpc A := fun s =>
  match f (bus s) with
  | None => None
  | Some (a, b) => Some (with_bus b s, Ok a)
  end.

Notation "x <-- m ;; k" := (bind m (fun x => k)) (at level 100, m at next level, right associativity).
Notation "m ;;; k" := (bind m (fun _ => k)) (at level 100, right associativity).

(** ** Authorization *)
Definition authorized_network (networkID accountID : string) (r : Registry M) : bool :=
  match GetNetwork networkID r with
  | Ok (_, owner) => String.eqb owner accountID
  | Err _ => false
  end.

Definition authorizeNetwork (networkID accountID : string) : Rpc unit :=
  ok <-- gets (fun s => authorized_network networkID accountID (registry s)) ;;
  check ok NotFound.

Definition authorizePeer (peerID networkID accountID : string) : Rpc peerRecord :=
  p <-- gets (fun s => GetPeer peerID (registry s)) ;;
  match p with
  | Err _ => fail NotFound
  | Ok rec =>
      if negb (String.eqb networkID "") && negb (String.eqb (NetworkID rec) networkID) then fail NotFound
      else
        ok <-- gets (fun s => authorized_network (NetworkID rec) accountID (registry s)) ;;
        check ok NotFound ;;; ret rec
  end.

(** A 32-byte key from its base64 text. *)
Definition decode_key (s : string) : option (list Z) :=
  b ← Base64.DecodeString s; if (length b =? 32)%nat then Some b else None.

Definition first_use (sig : list Z) (now : Z) : Rpc bool := fun s =>
  let '(ok, sn) := SignedMsg.Replay.firstUse sha256 sig now (seen s) in Some (with_seen sn s, Ok ok).

Definition verifyCall (rec : peerRecord) (sig : list Z) (claims : SignedMsg.SignedMsg.CallClaims) (now : Z) : Rpc unit :=
  pub <-- of_option Unauthenticated (decode_key (Ed25519Public rec)) ;;
  check (is_ok (SignedMsg.SignedMsg.VerifyCallSignature verify pub sig claims (unix now))) Unauthenticated ;;;
  ok <-- first_use sig now ;;
  check ok Unauthenticated.

(** ** Connected peers *)
Definition markConnected (peerID : string) (s : Server) : Server :=
  with_connected (<[peerID := default 0 (connected s !! peerID) + 1]> (connected s)) s.
Definition markDisconnected (peerID : string) (s : Server) : Server :=
  let n := default 0 (connected s !! peerID) in
  with_connected (if n <=? 1 then delete peerID (connected s) else <[peerID := n - 1]> (connected s)) s.
Definition IsConnected (s : Server) (peerID : string) : bool := 0 <? default 0 (connected s !! peerID).

(** ** Register *)

(** The advertised routes, each parsed and permitted. *)
Fixpoint check_routes (networkID : string) (l : list string) : Rpc (list Prefix) :=
  match l with
  | [] => ret []
  | r :: l' =>
      p <-- of_option InvalidArgument (ParsePrefix r) ;;
      check (Allow networkID p) PermissionDenied ;;;
      ps <-- check_routes networkID l' ;;
      ret (p :: ps)
  end.

Definition register_code (e : error) : code :=
  match e with
  | ErrPeerIDTaken | ErrPeerKeyMismatch => AlreadyExists
  | ErrMachineLimit | ErrAddressSpaceExhausted => ResourceExhausted
  | _ => Internal
  end.

Definition register_peer (io : bool) (rec : peerRecord) (networkID accountID : string) : Rpc Addr := fun s =>
  let '(r, res) := RegisterPeer io rec networkID (MachineLimitFor networkID) (registry s) in
  match res with
  | Ok a => Some (with_registry r s, Ok a)
  | Err e =>
      Some (match e with
            | ErrMachineLimit =>
                add_calls [AuditLog AuditRegistrationRejected accountID networkID "" "machine limit reached"] (with_registry r s)
            | _ => with_registry r s
            end, Err (register_code e))
  end.

Definition publish (networkID : string) (ev : PeerEvent) : Rpc unit :=
  on_bus (fun b => b' ← Bus.Bus.Publish networkID ev b; Some (tt, b')).

(** The network in a [GetNetwork] whose error is ignored. *)
Definition network_of (networkID : string) (r : Registry M) : option Network :=
  match GetNetwork networkID r with Ok (n, _) => Some n | Err _ => None end.

Definition claims_of (req : RegisterRequest) : SignedMsg.SignedMsg.RegisterClaims :=
  {| SignedMsg.SignedMsg.NetworkID := rq_NetworkId req; SignedMsg.SignedMsg.Name := rq_Name req;
     SignedMsg.SignedMsg.Ed25519Public := rq_Ed25519Public req;
     SignedMsg.SignedMsg.X25519Public := rq_X25519Public req;
     SignedMsg.SignedMsg.Endpoint := rq_Endpoint req; SignedMsg.SignedMsg.SubnetRoutes := rq_SubnetRoutes req;
     SignedMsg.SignedMsg.r_TimestampUnix := rq_TimestampUnix req |}.

Definition record_of (req : RegisterRequest) (peerID : string) (registered seen : Z) : peerRecord :=
  {| pID := peerID; NetworkID := ""; pName := rq_Name req; VPNAddr := ""; Ed25519Public := rq_Ed25519Public req;
     X25519Public := rq_X25519Public req; Endpoint := rq_Endpoint req; SubnetRoutes := rq_SubnetRoutes req;
     LastSeen := unix seen; RegisteredAt := unix registered |}.

Definition Register (io : bool) (t : nat -> Z) (req : RegisterRequest) : Rpc RegisterResponse :=
  acc <-- of_option Unauthenticated (Resolve (rq_Token req)) ;;
  authorizeNetwork (rq_NetworkId req) (acc_ID acc) ;;;
  key <-- of_option InvalidArgument (decode_key (rq_Ed25519Public req)) ;;
  let peerID := Hex.EncodeToString key in
  check (is_ok (SignedMsg.SignedMsg.VerifyRegisterSignature verify key (rq_Signature req) (claims_of req) (unix (t 0%nat))))
    Unauthenticated ;;;
  fresh <-- first_use (rq_Signature req) (t 1%nat) ;;
  check fresh Unauthenticated ;;;
  check (validPeerName (rq_Name req)) InvalidArgument ;;;
  check (endpoint_ok (rq_Endpoint req)) InvalidArgument ;;;
  routes <-- check_routes (rq_NetworkId req) (rq_SubnetRoutes req) ;;
  vpnAddr <-- register_peer io (record_of req peerID (t 2%nat) (t 3%nat)) (rq_NetworkId req) (acc_ID acc) ;;
  modify (add_calls [RecordActivity (acc_ID acc);
                     AuditLog AuditPeerRegistered (acc_ID acc) (rq_NetworkId req) peerID ""]) ;;;
  net <-- gets (fun s => network_of (rq_NetworkId req) (registry s)) ;;
  let peer := {| cp_ID := peerID; cp_Name := rq_Name req; cp_VPNAddr := vpnAddr; cp_NetworkID := rq_NetworkId req |} in
  modify (add_calls (OnPeerRegistered peer net :: map (OnSubnetRouteAdvertised peer) routes)) ;;;
  publish (rq_NetworkId req)
    (EvJoin {| Id := peerID; Name := rq_Name req; VpnAddr := addr_string vpnAddr;
               v_Ed25519Public := rq_Ed25519Public req; v_X25519Public := rq_X25519Public req;
               v_Endpoint := rq_Endpoint req; v_SubnetRoutes := rq_SubnetRoutes req |}) ;;;
  ret {| rs_VpnAddr := addr_string vpnAddr; rs_PeerId := peerID; rs_NetworkId := rq_NetworkId req;
         rs_NetworkCidr := match net with Some n => prefix_string (net_CIDR n) | None => "invalid Prefix" end |}.

(** ** ListPeers *)
Definition peer_msg (p : peerRecord) : Peer :=
  {| Id := pID p; Name := pName p; VpnAddr := VPNAddr p; v_Ed25519Public := Ed25519Public p;
     v_X25519Public := X25519Public p; v_Endpoint := Endpoint p; v_SubnetRoutes := SubnetRoutes p |}.

Definition ListPeers_rpc (req : ListPeersRequest) : Rpc (list Peer) :=
  acc <-- of_option Unauthenticated (Resolve (lp_Token req)) ;;
  authorizeNetwork (lp_NetworkId req) (acc_ID acc) ;;;
  l <-- gets (fun s => ListPeers (lp_NetworkId req) (registry s)) ;;
  match l with
  | Err _ => fail Internal
  | Ok l => ret (map peer_msg l)
  end.

(** ** Watch *)
Definition watch_auth (req : WatchRequest) (now : Z) : Rpc unit :=
  acc <-- of_option Unauthenticated (Resolve (wr_Token req)) ;;
  authorizeNetwork (wr_NetworkId req) (acc_ID acc) ;;;
  if String.eqb (wr_PeerId req) "" then ret tt
  else
    rec <-- authorizePeer (wr_PeerId req) (wr_NetworkId req) (acc_ID acc) ;;
    verifyCall rec (wr_Signature req)
      (SignedMsg.SignedMsg.WatchClaims (wr_PeerId req) (wr_NetworkId req) (wr_TimestampUnix req)) now.

(** Up to the snapshot: the stream and the synthetic JOIN events sent on it. *)
Definition Watch_open (req : WatchRequest) (t : nat -> Z) : Rpc (stream * list PeerEvent) :=
  watch_auth req (t 0%nat) ;;;
  let named := negb (String.eqb (wr_PeerId req) "") in
  modify (fun s => if named then markConnected (wr_PeerId req) s else s) ;;;
  ch <-- on_bus (fun b => Some (Bus.Bus.Subscribe (wr_NetworkId req) b)) ;;
  sigCh <-- (if named
             then c <-- on_bus (Bus.Bus.SubscribeSignals (wr_PeerId req) (t 1%nat)) ;; ret (Some c)
             else ret None) ;;
  l <-- gets (fun s => ListPeers (wr_NetworkId req) (registry s)) ;;
  let snapshot := match l with
                  | Ok l => map (fun p => EvJoin (peer_msg p)) (filter (fun p => pID p <> wr_PeerId req) l)
                  | Err _ => []
                  end in
  ret ({| st_network := wr_NetworkId req; st_peer := wr_PeerId req; st_ch := ch; st_sig := sigCh |}, snapshot).

(** The goroutine of [keepLastSeenFresh], at one tick. *)
Definition keepLastSeenFresh_tick (io : bool) (peerID : string) (now : Z) (s : Server) : Server :=
  with_registry (fst (TouchPeer io peerID now (registry s))) s.

(** One turn of the loop: the event sent on the stream, if one is ready
    ([from_sig] chooses the channel). *)
Definition Watch_forward (from_sig : bool) (st : stream) (s : Server) : Server * option PeerEvent :=
  let b := bus s in
  if from_sig then
    match st_sig st with
    | None => (s, None)
    | Some c =>
        match Bus.Bus.receive (Bus.Bus.sigs b) c with
        | Some (v, h) =>
            (with_bus (Bus.Bus.set_heaps (Bus.Bus.evs b) h b) s,
             (fun m => EvSignal (Bus.Bus.FromPeerID m) (Bus.Bus.Payload m)) <$> v)
        | None => (s, None)
        end
    end
  else
    match Bus.Bus.receive (Bus.Bus.evs b) (st_ch st) with
    | Some (v, h) => (with_bus (Bus.Bus.set_heaps h (Bus.Bus.sigs b) b) s, v)
    | None => (s, None)
    end.

(** The deferred calls, last registered first. *)
Definition Watch_close (st : stream) (s : Server) : option Server :=
  b1 ← match st_sig st with
       | Some c => Bus.Bus.UnsubscribeSignals (st_peer st) c (bus s)
       | None => Some (bus s)
       end;
  b2 ← Bus.Bus.Unsubscribe (st_network st) (st_ch st) b1;
  let s := with_bus b2 s in
  Some (if String.eqb (st_peer st) "" then s else markDisconnected (st_peer st) s).

(** ** SendSignal *)
Definition SendSignal_rpc (t : nat -> Z) (req : SendSignalRequest) : Rpc unit :=
  acc <-- of_option Unauthenticated (Resolve (sr_Token req)) ;;
  check (Z.of_nat (length (sr_Payload req)) <=? Bus.Bus.maxSignalPayload) InvalidArgument ;;;
  from <-- authorizePeer (sr_FromPeerId req) "" (acc_ID acc) ;;
  verifyCall from (sr_Signature req)
    (SignedMsg.SignedMsg.SendSignalClaims sha256 (sr_FromPeerId req) (sr_ToPeerId req) (sr_Payload req) (sr_TimestampUnix req))
    (t 0%nat) ;;;
  to <-- authorizePeer (sr_ToPeerId req) "" (acc_ID acc) ;;
  check (String.eqb (NetworkID from) (NetworkID to)) NotFound ;;;
  on_bus (fun b => b' ← Bus.Bus.SendSignal (sr_FromPeerId req) (sr_ToPeerId req) (sr_Payload req) true (t 1%nat) b; Some (tt, b')).

(** ** Leave and the sweep *)

(** What a departure does after the row is gone. *)
Definition left_peer (removed : peerRecord) (accountID detail : string) : Rpc unit :=
  net <-- gets (fun s => network_of (NetworkID removed) (registry s)) ;;
  modify (add_calls
    [OnPeerLeft {| cp_ID := pID removed; cp_Name := pName removed;
                   cp_VPNAddr := default AddrZero (ParseAddr (VPNAddr removed)); cp_NetworkID := NetworkID removed |} net;
     AuditLog AuditPeerLeft accountID (NetworkID removed) (pID removed) detail]) ;;;
  on_bus (fun b => Some (tt, Bus.Bus.DropPendingSignals (pID removed) b)) ;;;
  publish (NetworkID removed)
    (EvLeave {| Id := pID removed; Name := pName removed; VpnAddr := ""; v_Ed25519Public := ""; v_X25519Public := "";
                v_Endpoint := ""; v_SubnetRoutes := [] |}).

Definition remove_peer (io : bool) (peerID : string) (now : Z) : Rpc peerRecord := fun s =>
  let '(r, res) := RemovePeer io peerID now (registry s) in
  match res with
  | Ok p => Some (with_registry r s, Ok p)
  | Err _ => Some (with_registry r s, Err NotFound)
  end.

Definition Leave (io : bool) (t : nat -> Z) (req : LeaveRequest) : Rpc unit :=
  acc <-- of_option Unauthenticated (Resolve (lv_Token req)) ;;
  rec <-- authorizePeer (lv_PeerId req) "" (acc_ID acc) ;;
  verifyCall rec (lv_Signature req) (SignedMsg.SignedMsg.LeaveClaims (lv_PeerId req) (lv_TimestampUnix req)) (t 0%nat) ;;;
  removed <-- remove_peer io (lv_PeerId req) (t 1%nat) ;;
  left_peer removed (acc_ID acc) "".

(** The account of a network, empty when it cannot be read. *)
Definition owner_of (networkID : string) (r : Registry M) : string :=
  match GetNetwork networkID r with Ok (_, a) => a | Err _ => ""%string end.

Fixpoint expel_all (l : list peerRecord) : Rpc unit :=
  match l with
  | [] => ret tt
  | p :: l' =>
      acc <-- gets (fun s => owner_of (NetworkID p) (registry s)) ;;
      left_peer p acc "registration expired (TTL sweep)" ;;;
      expel_all l'
  end.

Definition ExpelStalePeers (io : bool) (ttl now : Z) : Rpc Z := fun s =>
  let '(r, res) := SweepStalePeers io ttl now (Some (IsConnected s)) (registry s) in
  match res with
  | Err _ => Some (with_registry r s, Err Internal)
  | Ok removed => bind (expel_all removed) (fun _ => ret (Z.of_nat (length removed))) (with_registry r s)
  end.

End Server.
Arguments Server M : clear implicits.

(** ** Weakest preconditions of RPCs *)
Section Proofs.
Context {M : Type -> Type} `{FMap M, forall A, Lookup string A (M A), forall A, Empty (M A),
  forall A, PartialAlter string A (M A), OMap M, Merge M, forall A, MapFold string A (M A), !FinMap string M}.
Context {be : Backend}.
Variable sha256 : list Z -> list Z.
Variable verify : list Z -> list Z -> list Z -> bool.

Implicit Types s : Server M.
Implicit Types r : Registry M.

(** The computation returns, and its final state and result satisfy [Q]. *)
Definition wp {A} (m : Rpc A) (Q : Server M -> result code A -> Prop) s : Prop :=
  match m s with
  | None => False
  | Some (s', res) => Q s' res
  end.

Lemma wp_bind {A B} (m : Rpc A) (k : A -> Rpc B) Q s :
  wp m (fun s' res => match res with Ok a => wp (k a) Q s' | Err c => Q s' (Err c) end) s -> wp (bind m k) Q s.
Proof. unfold wp, bind. destruct (m s) as [[s' [a|c]]|]; done. Qed.

Lemma wp_ret {A} (a : A) Q s : Q s (Ok a) -> wp (ret a) Q s.
Proof. done. Qed.
Lemma wp_fail {A} c Q s : Q s (Err c) -> wp (fail c : Rpc A) Q s.
Proof. done. Qed.
Lemma wp_gets {A} (f : Server M -> A) Q s : Q s (Ok (f s)) -> wp (gets f) Q s.
Proof. done. Qed.
Lemma wp_modify f Q s : Q (f s) (Ok tt) -> wp (modify f) Q s.
Proof. done. Qed.
Lemma wp_check b c Q s : (b = true -> Q s (Ok tt)) -> (b = false -> Q s (Err c)) -> wp (check b c) Q s.
Proof. destruct b; intros Hyes Hno; [by apply Hyes|by apply Hno]. Qed.
Lemma wp_of_option {A} c (o : option A) Q s :
  (forall a, o = Some a -> Q s (Ok a)) -> (o = None -> Q s (Err c)) -> wp (of_option c o) Q s.
Proof. destruct o; intros Hyes Hno; [by apply Hyes|by apply Hno]. Qed.
Lemma wp_mono {A} (m : Rpc A) (Q Q' : Server M -> result code A -> Prop) s :
  wp m Q s -> (forall s' res, Q s' res -> Q' s' res) -> wp m Q' s.
Proof. unfold wp. destruct (m s) as [[]|]; eauto. Qed.

(** What the handlers keep: the registry's invariant, a bus that cannot panic,
    and peers stored under the hexadecimal form of the key in their record. *)
Definition keys_ok r : Prop :=
  forall k p, peer_at (db r) k p -> exists key, decode_key (Ed25519Public p) = Some key /\ k = Hex.EncodeToString key.

Record server_ok s : Prop := {
  so_inv : inv (registry s);
  so_keys : keys_ok (registry s);
  so_bus : Bus.Bus.bus_ok (bus s)
}.

Lemma server_ok_bus s b : server_ok s -> Bus.Bus.bus_ok b -> server_ok (with_bus b s).
Proof. intros [? ? ?] Hb. by split. Qed.
Lemma server_ok_calls s l : server_ok s -> server_ok (add_calls l s).
Proof. intros [? ? ?]. by split. Qed.
Lemma server_ok_seen s sn : server_ok s -> server_ok (with_seen sn s).
Proof. intros [? ? ?]. by split. Qed.
Lemma server_ok_connected s c : server_ok s -> server_ok (with_connected c s).
Proof. intros [? ? ?]. by split. Qed.

(** *** Pieces of the handlers *)
Lemma wp_publish nid ev Q s :
  Bus.Bus.bus_ok (bus s) ->
  (forall b, Bus.Bus.bus_ok b -> Q (with_bus b s) (Ok tt)) -> wp (publish nid ev) Q s.
Proof.
  intros Hb HQ. destruct (Bus.Bus.exec_ok (bus s) (Bus.Bus.OpPublish nid ev) Hb) as (b & E & Hb'). cbn in E.
  unfold publish, on_bus, wp. rewrite E, bind_Some_eq. by apply HQ.
Qed.

Lemma wp_authorizeNetwork nid acc Q s :
  (authorized_network nid acc (registry s) = true -> Q s (Ok tt)) -> Q s (Err NotFound) ->
  wp (authorizeNetwork nid acc) Q s.
Proof. intros Hyes Hno. apply wp_bind, wp_gets, wp_check; [done|intros _; done]. Qed.

Lemma wp_authorizePeer k nid acc Q s :
  (forall p, peer_at (db (registry s)) k p -> (nid = ""%string \/ NetworkID p = nid) ->
     authorized_network (NetworkID p) acc (registry s) = true -> Q s (Ok p)) -> Q s (Err NotFound) ->
  wp (authorizePeer k nid acc) Q s.
Proof.
  intros Hyes Hno. apply wp_bind, wp_gets. cbn. destruct (GetPeer k (registry s)) as [p|e] eqn:E; [|by apply wp_fail].
  apply get_row_Ok in E. destruct (negb (String.eqb nid "") && _) eqn:En; [by apply wp_fail|].
  apply wp_bind, wp_gets, wp_bind, wp_check; [|intros _; done]. intros Ha. apply wp_ret, Hyes; [done| |done].
  apply andb_false_iff in En as [En|En]; apply negb_false_iff, String.eqb_eq in En; [by left|by right].
Qed.

(** A call signature that is accepted: only the replay cache changes. *)
Lemma wp_verifyCall rec sig claims now Q s :
  (forall sn, Q (with_seen sn s) (Err Unauthenticated)) -> Q s (Err Unauthenticated) ->
  (forall sn key, decode_key (Ed25519Public rec) = Some key ->
     SignedMsg.SignedMsg.VerifyCallSignature verify key sig claims (unix now) = Ok tt ->
     SignedMsg.Replay.firstUse sha256 sig now (seen s) = (true, sn) -> Q (with_seen sn s) (Ok tt)) ->
  wp (verifyCall sha256 verify rec sig claims now) Q s.
Proof.
  intros Hyes Hno Hacc. apply wp_bind, wp_of_option; [|done]. intros key Hk. apply wp_bind, wp_check; [|done]. intros Hv.
  destruct (SignedMsg.SignedMsg.VerifyCallSignature verify key sig claims (unix now)) as [[]|] eqn:Ev; [|done].
  apply wp_bind. unfold wp at 1, first_use.
  destruct (SignedMsg.Replay.firstUse sha256 sig now (seen s)) as [ok sn] eqn:Ef.
  apply wp_check; intros ->; eauto.
Qed.

Lemma wp_check_routes nid l Q s :
  (forall ps, Q s (Ok ps)) -> (forall c, Q s (Err c)) -> wp (check_routes nid l) Q s.
Proof.
  revert Q. induction l as [|x l IH]; intros Q Hyes Hno; [by apply wp_ret|]. cbn [check_routes].
  apply wp_bind, wp_of_option; [|done]. intros p _. apply wp_bind, wp_check; [|done]. intros _.
  apply wp_bind, IH; [|done]. intros ps. by apply wp_ret.
Qed.

Lemma RegisterPeer_err io p nid limit r r' e : RegisterPeer io p nid limit r = (r', Err e) -> r' = r.
Proof.
  unfold RegisterPeer.
  destruct (write_cases io (register_tx (with_Endpoint "" p) nid limit) r) as [(d & a & _ & _ & ->)|(e' & -> & _)]; [done|].
  by intros [= <- _].
Qed.

Lemma RemovePeer_err io k now r r' e : RemovePeer io k now r = (r', Err e) -> r' = r.
Proof.
  unfold RemovePeer. destruct (write_cases io (remove_tx k now) r) as [(d & a & _ & _ & ->)|(e' & -> & _)]; [done|].
  by intros [= <- _].
Qed.

Lemma RegisterPeer_inv io p nid limit r r' res :
  RegisterPeer io p nid limit r = (r', res) -> inv r -> inv r'.
Proof. intros E I. apply (register_inv r io p nid limit) in I. by rewrite E in I. Qed.

(** The row a successful registration writes: everybody else's stays. *)
Lemma RegisterPeer_row io p nid limit r r' a :
  RegisterPeer io p nid limit r = (r', Ok a) ->
  (forall k, k <> pID p -> peers (db r') !! k = peers (db r) !! k) /\
  exists q, peer_at (db r') (pID p) q /\ NetworkID q = nid /\
    (Ed25519Public q = Ed25519Public p \/
     exists old, peer_at (db r) (pID p) old /\ Ed25519Public q = Ed25519Public old /\ NetworkID old = nid /\
                 VPNAddr q = VPNAddr old /\ X25519Public q = X25519Public old).
Proof.
  unfold RegisterPeer.
  destruct (write_cases io (register_tx (with_Endpoint "" p) nid limit) r) as [(d & b & _ & Ef & ->)|(e' & -> & _)]; [|done].
  intros [= <- _]. cbn [db setEndpoint set_db]. unfold register_tx in Ef.
  pose proof (settle_name_fields (peers (db r)) nid (with_Endpoint "" p)) as (Eid & _ & _ & _ & _ & EE).
  set (q := settle_name _ _ _) in *. clearbody q. cbn in Eid, EE.
  destruct (peers (db r) !! pID q) as [[old|]|] eqn:Ek; [|done|].
  - ok_inv. case_in Ef; [|done]. injection Ef as <- _. bool_to_prop. apply bool_decide_eq_true in Heqb0.
    unfold peer_at. cbn. rewrite Eid in *. split; [intros k Hk; by rewrite lookup_insert_ne|].
    exists (reregister old q). rewrite lookup_insert_eq. split_and!; [done..|]. right. by exists old.
  - unfold register_new, get_row in Ef. destruct (networks (db r) !! nid) as [[n|]|]; [|done..].
    cbn [result_bind] in Ef. case_in Ef; [done|]. case_in Ef; [|done]. case_in Ef; [|done]. case_in Ef; [|done].
    injection Ef as <- _. unfold peer_at. cbn. rewrite Eid in *.
    split; [intros k Hk; by rewrite lookup_insert_ne|].
    eexists. rewrite lookup_insert_eq. split_and!; [done..|]. left. exact EE.
Qed.

Lemma keys_ok_register io p nid limit r r' a key :
  keys_ok r -> decode_key (Ed25519Public p) = Some key -> pID p = Hex.EncodeToString key ->
  RegisterPeer io p nid limit r = (r', Ok a) -> keys_ok r'.
Proof.
  intros Hk Hd Hid HR. destruct (RegisterPeer_row _ _ _ _ _ _ _ HR) as [Hoth (q & Hq & _ & Hed)].
  intros k0 p0 Hp0. destruct (decide (k0 = pID p)) as [->|Hne].
  - unfold peer_at in *. rewrite Hq in Hp0. injection Hp0 as <-.
    destruct Hed as [->|(old & Hold & -> & _)]; [by exists key|by apply Hk].
  - unfold peer_at in *. rewrite Hoth in Hp0 by done. by apply Hk.
Qed.

(** *** The handlers *)

(** The registry and the presence table are those of [s]. *)
Definition quiet s s' : Prop := server_ok s' /\ registry s' = registry s /\ connected s' = connected s.

Lemma quiet_refl s : server_ok s -> quiet s s.
Proof. done. Qed.
Lemma quiet_trans s1 s2 s3 : quiet s1 s2 -> quiet s2 s3 -> quiet s1 s3.
Proof. intros (_ & E1 & E2) (O & E3 & E4). split; [done|]. split; congruence. Qed.
Lemma quiet_seen s s' sn : quiet s s' -> quiet s (with_seen sn s').
Proof. intros (O & E1 & E2). split; [by apply server_ok_seen|done]. Qed.

(** How a registration changes the registry. *)
Definition registered io (t : nat -> Z) (req : RegisterRequest) r r' : Prop :=
  exists acc key a, Resolve (rq_Token req) = Some acc /\
    authorized_network (rq_NetworkId req) (acc_ID acc) r = true /\
    decode_key (rq_Ed25519Public req) = Some key /\
    SignedMsg.SignedMsg.VerifyRegisterSignature verify key (rq_Signature req) (claims_of req) (unix (t 0%nat)) = Ok tt /\
    RegisterPeer io (record_of req (Hex.EncodeToString key) (t 2%nat) (t 3%nat)) (rq_NetworkId req)
      (MachineLimitFor (rq_NetworkId req)) r = (r', Ok a).

Lemma wp_Register io t req s :
  server_ok s ->
  wp (Register sha256 verify io t req)
     (fun s' res => server_ok s' /\ connected s' = connected s /\
        (registry s' = registry s \/ (is_ok res = true /\ registered io t req (registry s) (registry s')))) s.
Proof.
  intros Hs. unfold Register.
  apply wp_bind, wp_of_option; [|by auto]. intros acc Hacc.
  apply wp_bind, wp_authorizeNetwork; [|by auto]. intros Hauth.
  apply wp_bind, wp_of_option; [|by auto]. intros key Hkey.
  apply wp_bind, wp_check; [|by auto]. intros Hv.
  destruct (SignedMsg.SignedMsg.VerifyRegisterSignature _ _ _ _ _) as [[]|] eqn:Ev; [|done].
  apply wp_bind. unfold wp at 1, first_use.
  destruct (SignedMsg.Replay.firstUse sha256 (rq_Signature req) (t 1%nat) (seen s)) as [fresh sn].
  assert (server_ok (with_seen sn s)) as Hs1 by by apply server_ok_seen.
  apply wp_bind, wp_check; [|by auto]. intros _. apply wp_bind, wp_check; [|by auto]. intros _.
  apply wp_bind, wp_check; [|by auto]. intros _.
  apply wp_bind, wp_check_routes; [|by auto]. intros routes.
  apply wp_bind. unfold wp at 1, register_peer.
  destruct (RegisterPeer io _ _ _ (registry (with_seen sn s))) as [r' [a|e]] eqn:ER.
  2: { apply RegisterPeer_err in ER. subst r'.
       assert (forall x : Server M, x = with_registry (registry s) (with_seen sn s) -> server_ok x) as Hx.
       { intros x ->. destruct Hs1. by split. }
       destruct e; (split; [try apply server_ok_calls; by apply Hx|]); auto. }
  assert (server_ok (with_registry r' (with_seen sn s))) as Hs2.
  { destruct Hs1 as [I K B]. cbn in I, K, B, ER. split; [|by refine (keys_ok_register _ _ _ _ _ _ _ key K _ _ ER)|done].
    by eapply RegisterPeer_inv. }
  apply wp_bind, wp_modify. cbn match. apply wp_bind, wp_gets. apply wp_bind, wp_modify.
  apply wp_bind, wp_publish; [apply Hs2|]. intros b Hb. apply wp_ret.
  split; [|split; [done|right; split; [done|by exists acc, key, a]]].
  apply server_ok_bus; [|done]. by do 2 apply server_ok_calls.
Qed.

Lemma wp_ListPeers req s : server_ok s -> wp (ListPeers_rpc req) (fun s' _ => s' = s) s.
Proof.
  intros Hs. unfold ListPeers_rpc. apply wp_bind, wp_of_option; [|done]. intros acc _.
  apply wp_bind, wp_authorizeNetwork; [|done]. intros _. apply wp_bind, wp_gets. by case_step.
Qed.

Lemma wp_left_peer p acc detail s :
  server_ok s -> wp (left_peer p acc detail) (fun s' res => res = Ok tt /\ quiet s s') s.
Proof.
  intros Hs. unfold left_peer. apply wp_bind, wp_gets. apply wp_bind, wp_modify. apply wp_bind.
  unfold wp at 1, on_bus. set (s1 := add_calls _ s).
  destruct (Bus.Bus.exec_ok (bus s) (Bus.Bus.OpDrop (pID p)) (so_bus s Hs)) as (b & [= <-] & Hb).
  apply wp_publish; [done|]. intros b' Hb'. split; [done|]. split; [|done].
  by do 2 (apply server_ok_bus; [|done]); apply server_ok_calls.
Qed.

(** How a departure changes the registry. *)
Definition departed io (t : nat -> Z) (req : LeaveRequest) r r' : Prop :=
  exists acc rec key p, Resolve (lv_Token req) = Some acc /\ peer_at (db r) (lv_PeerId req) rec /\
    authorized_network (NetworkID rec) (acc_ID acc) r = true /\ decode_key (Ed25519Public rec) = Some key /\
    SignedMsg.SignedMsg.VerifyCallSignature verify key (lv_Signature req)
      (SignedMsg.SignedMsg.LeaveClaims (lv_PeerId req) (lv_TimestampUnix req)) (unix (t 0%nat)) = Ok tt /\
    RemovePeer io (lv_PeerId req) (t 1%nat) r = (r', Ok p).

Lemma RemovePeer_rows io k now r r' p :
  inv r -> RemovePeer io k now r = (r', Ok p) -> peer_at (db r) k p /\ peers (db r') = delete k (peers (db r)).
Proof.
  intros [I _]. unfold RemovePeer.
  destruct (write_cases io (remove_tx k now) r) as [(d & q & _ & Ef & ->)|(e' & -> & _)]; [|done].
  intros [= <- <-]. by destruct (remove_tx_inv _ _ _ _ _ I Ef) as (_ & ? & ?).
Qed.

Lemma wp_Leave io t req s :
  server_ok s ->
  wp (Leave sha256 verify io t req)
     (fun s' res => server_ok s' /\ connected s' = connected s /\
        (registry s' = registry s \/ (is_ok res = true /\ departed io t req (registry s) (registry s')))) s.
Proof.
  intros Hs. unfold Leave. apply wp_bind, wp_of_option; [|by auto]. intros acc Hacc.
  apply wp_bind, wp_authorizePeer; [|by auto]. intros rec Hrec _ Hauth.
  apply wp_bind, wp_verifyCall; [intros sn; split; [by apply server_ok_seen|split; [done|by left]]|by auto|].
  intros sn key Hkey Hv _. assert (server_ok (with_seen sn s)) as Hs1 by by apply server_ok_seen.
  apply wp_bind. unfold wp at 1, remove_peer.
  destruct (RemovePeer io _ _ (registry (with_seen sn s))) as [r' [p|e]] eqn:ER.
  2: { apply RemovePeer_err in ER. subst r'. split; [|by auto]. destruct Hs1. by split. }
  cbn [registry with_seen] in ER.
  assert (server_ok (with_registry r' (with_seen sn s))) as Hs2.
  { destruct Hs1 as [I K B]. cbn in I, K, B. split; [| |done]; cbn [registry with_registry].
    - pose proof (remove_inv (registry s) io (lv_PeerId req) (t 1%nat) I) as I'. by rewrite ER in I'.
    - destruct (RemovePeer_rows _ _ _ _ _ _ I ER) as [_ Ep]. intros k0 p0. unfold peer_at. rewrite Ep.
      rewrite lookup_delete_Some. intros [_ Hk0]. by apply K. }
  eapply wp_mono; [by apply wp_left_peer|]. intros s' res (-> & O & E1 & E2). cbn in E1, E2.
  split; [done|]. split; [done|]. right. split; [done|]. rewrite E1. by exists acc, rec, key, p.
Qed.

Lemma wp_SendSignal t req s :
  server_ok s -> wp (SendSignal_rpc sha256 verify t req) (fun s' _ => quiet s s') s.
Proof.
  intros Hs. unfold SendSignal_rpc. apply wp_bind, wp_of_option; [|done]. intros acc Hacc.
  apply wp_bind, wp_check; [|done]. intros _. apply wp_bind, wp_authorizePeer; [|done]. intros from Hfrom _ _.
  apply wp_bind, wp_verifyCall; [intros sn; by apply quiet_seen|done|]. intros sn key _ _ _.
  apply wp_bind, wp_authorizePeer; [|by apply quiet_seen]. intros to Hto _ _.
  apply wp_bind, wp_check; [|intros _; by apply quiet_seen]. intros _. unfold wp, on_bus.
  assert (exists b, Bus.Bus.SendSignal (sr_FromPeerId req) (sr_ToPeerId req) (sr_Payload req) true (t 1%nat)
                      (bus (with_seen sn s)) = Some b /\ Bus.Bus.bus_ok b) as (b & -> & Hb)
    by apply Bus.Bus.SendSignal_ok, Hs.
  rewrite bind_Some_eq. split; [|done]. apply server_ok_bus; [by apply server_ok_seen|done].
Qed.

Lemma wp_Watch_open req t s :
  server_ok s ->
  wp (Watch_open sha256 verify req t)
     (fun s' res => server_ok s' /\ registry s' = registry s /\
        match res with
        | Ok (st, _) =>
            st_peer st = wr_PeerId req /\
            connected s' = if String.eqb (wr_PeerId req) "" then connected s
                           else <[wr_PeerId req := default 0 (connected s !! wr_PeerId req) + 1]> (connected s)
        | Err _ => connected s' = connected s
        end) s.
Proof.
  intros Hs. unfold Watch_open. apply wp_bind.
  apply (wp_mono _ (fun s' _ => quiet s s')).
  { unfold watch_auth. apply wp_bind, wp_of_option; [|done]. intros acc _.
    apply wp_bind, wp_authorizeNetwork; [|done]. intros _. case_step; [done|].
    apply wp_bind, wp_authorizePeer; [|done]. intros rec _ _ _.
    apply wp_verifyCall; [intros sn; by apply quiet_seen|done|]. intros sn key _ _ _. by apply quiet_seen. }
  intros s1 [[]|c] (O1 & E1 & E2); [|done].
  apply wp_bind, wp_modify. cbn match.
  match goal with |- wp _ _ ?x => set (s2 := x) end.
  assert (server_ok s2 /\ registry s2 = registry s /\
          connected s2 = if String.eqb (wr_PeerId req) "" then connected s
                         else <[wr_PeerId req := default 0 (connected s !! wr_PeerId req) + 1]> (connected s)) as (O2 & E3 & E4).
  { unfold s2. destruct (String.eqb (wr_PeerId req) ""); cbn [negb]; [done|]. unfold markConnected.
    split; [by apply server_ok_connected|]. cbn. by rewrite E2. }
  clearbody s2. apply wp_bind. unfold wp at 1, on_bus at 1.
  destruct (Bus.Bus.exec_ok (bus s2) (Bus.Bus.OpSubscribe (wr_NetworkId req)) (so_bus s2 O2)) as (b & Eb & Hb).
  cbn [Bus.Bus.exec] in Eb. destruct (Bus.Bus.Subscribe (wr_NetworkId req) (bus s2)) as [ch b0]. injection Eb as ->.
  assert (server_ok (with_bus b s2)) as O3 by by apply server_ok_bus.
  apply wp_bind. destruct (String.eqb (wr_PeerId req) "") eqn:En; cbn [negb].
  - apply wp_ret. apply wp_bind, wp_gets. by apply wp_ret.
  - apply wp_bind. unfold wp at 1, on_bus.
    destruct (Bus.Bus.SubscribeSignals_spec (wr_PeerId req) (t 1%nat) (bus (with_bus b s2)) Hb) as (b' & -> & Hb' & _).
    apply wp_ret. apply wp_bind, wp_gets. apply wp_ret. split; [by apply server_ok_bus|done].
Qed.

Lemma wp_expel_all l s : server_ok s -> wp (expel_all l) (fun s' res => res = Ok tt /\ quiet s s') s.
Proof.
  revert s. induction l as [|p l IH]; intros s Hs; [by apply wp_ret|]. cbn [expel_all].
  apply wp_bind, wp_gets, wp_bind. eapply wp_mono; [by apply wp_left_peer|]. intros s1 res (-> & Q1).
  eapply wp_mono; [apply IH, Q1|]. intros s2 res (-> & Q2). split; [done|]. by eapply quiet_trans.
Qed.

Lemma SweepStalePeers_err io ttl now skip r r' e : SweepStalePeers io ttl now skip r = (r', Err e) -> r' = r.
Proof.
  unfold SweepStalePeers. case_step; [done|].
  destruct (write_cases io (sweep_tx (unix (now - ttl)) skip) r) as [(d & a & _ & _ & ->)|(e' & -> & _)]; [done|].
  by intros [= <- _].
Qed.

Lemma wp_Expel io ttl now s :
  server_ok s ->
  wp (ExpelStalePeers io ttl now)
     (fun s' res => server_ok s' /\ connected s' = connected s /\
        (registry s' = registry s \/
         exists removed, SweepStalePeers io ttl now (Some (IsConnected s)) (registry s) = (registry s', Ok removed) /\
                         res = Ok (Z.of_nat (length removed)))) s.
Proof.
  intros Hs. match goal with |- wp _ ?q _ => set (Q := q) end. unfold ExpelStalePeers, wp.
  destruct (SweepStalePeers io ttl now (Some (IsConnected s)) (registry s)) as [r' [removed|e]] eqn:ES.
  2: { apply SweepStalePeers_err in ES. subst r' Q. split; [|by auto]. destruct Hs. by split. }
  assert (server_ok (with_registry r' s)) as Hs1.
  { pose proof Hs as [I K B]. split; [| |done]; cbn [registry with_registry].
    - pose proof (sweep_inv (registry s) io ttl now (Some (IsConnected s)) I) as I'. by rewrite ES in I'.
    - intros k p Hp. apply K. destruct (decide (0 < ttl)) as [Ht|Ht].
      + destruct io.
        * destruct (sweep_outcome (registry s) ttl now (Some (IsConnected s)) I Ht) as (r2 & rm & E2 & _ & _ & _ & Ep & _).
          rewrite ES in E2. injection E2 as <- <-. unfold peer_at in *. rewrite Ep in Hp. by case_decide.
        * unfold SweepStalePeers in ES. rewrite (proj2 (Z.leb_gt _ _)) in ES by done.
          by destruct (write_cases false (sweep_tx (unix (now - ttl)) (Some (IsConnected s))) (registry s))
            as [(d & a & ? & _)|(e' & E & _)]; [|rewrite E in ES].
      + unfold SweepStalePeers in ES. rewrite (proj2 (Z.leb_le _ _)) in ES by lia. by injection ES as <- _. }
  change (wp (bind (expel_all removed) (fun _ => ret (Z.of_nat (length removed)))) Q (with_registry r' s)).
  apply wp_bind. eapply wp_mono; [by apply wp_expel_all|]. intros s1 res (-> & O & E1 & E2). apply wp_ret.
  split; [done|]. split; [done|]. right. exists removed. rewrite E1. done.
Qed.

(** ** The server with its open streams *)
Record Sys := { srv : Server M; streams : list stream }.

Inductive sys_op :=
| SRegister (io : bool) (t : nat -> Z) (req : RegisterRequest)
| SListPeers (req : ListPeersRequest)
| SWatch (t : nat -> Z) (req : WatchRequest)
| SForward (i : nat) (from_sig : bool)
| STick (i : nat) (io : bool) (now : Z)
| SClose (i : nat)
| SSendSignal (t : nat -> Z) (req : SendSignalRequest)
| SLeave (io : bool) (t : nat -> Z) (req : LeaveRequest)
| SExpel (io : bool) (ttl now : Z).

Definition on_srv {A} (m : Rpc A) (y : Sys) : option Sys :=
  '(s, _) ← m (srv y); Some {| srv := s; streams := streams y |}.

Definition sys_step (y : Sys) (o : sys_op) : option Sys :=
  match o with
  | SRegister io t req => on_srv (Register sha256 verify io t req) y
  | SListPeers req => on_srv (ListPeers_rpc req) y
  | SWatch t req =>
      '(s, res) ← Watch_open sha256 verify req t (srv y);
      Some {| srv := s; streams := match res with Ok (st, _) => streams y ++ [st] | Err _ => streams y end |}
  | SForward i from_sig =>
      match streams y !! i with
      | Some st => Some {| srv := (Watch_forward from_sig st (srv y)).1; streams := streams y |}
      | None => Some y
      end
  | STick i io now =>
      match streams y !! i with
      | Some st => Some {| srv := if String.eqb (st_peer st) "" then srv y
                                  else keepLastSeenFresh_tick io (st_peer st) now (srv y);
                           streams := streams y |}
      | None => Some y
      end
  | SClose i =>
      match streams y !! i with
      | Some st => s ← Watch_close st (srv y); Some {| srv := s; streams := delete i (streams y) |}
      | None => Some y
      end
  | SSendSignal t req => on_srv (SendSignal_rpc sha256 verify t req) y
  | SLeave io t req => on_srv (Leave sha256 verify io t req) y
  | SExpel io ttl now => on_srv (ExpelStalePeers io ttl now) y
  end.

(** The number of open streams that name a peer. *)
Definition open_streams (l : list stream) (id : string) : Z :=
  Z.of_nat (length (filter (fun st => st_peer st = id) l)).

Record sys_ok (y : Sys) : Prop := {
  sy_srv : server_ok (srv y);
  sy_conn : forall id, id <> ""%string -> default 0 (connected (srv y) !! id) = open_streams (streams y) id
}.

Lemma wp_on_srv {A} (m : Rpc A) Q y :
  wp m Q (srv y) -> exists s res, on_srv m y = Some {| srv := s; streams := streams y |} /\ m (srv y) = Some (s, res) /\ Q s res.
Proof.
  unfold wp, on_srv. destruct (m (srv y)) as [[s res]|]; [|done]. intros HQ. exists s, res. by rewrite bind_Some_eq.
Qed.

Lemma open_streams_delete l i st id :
  l !! i = Some st -> open_streams (delete i l) id = open_streams l id - (if decide (st_peer st = id) then 1 else 0).
Proof.
  intros Hi. unfold open_streams.
  pose proof (Permutation_length (filter_Permutation (fun st => st_peer st = id) _ _ (delete_Permutation l i st Hi))) as E.
  rewrite filter_cons in E. case_decide; cbn [length] in E; lia.
Qed.

Lemma touch_server_ok io k now s : server_ok s -> server_ok (keepLastSeenFresh_tick io k now s).
Proof.
  intros [I K B]. split; [| |done]; cbn [registry keepLastSeenFresh_tick with_registry].
  - by apply (run_inv (registry s) (OpTouch io k now)).
  - destruct I as [I _]. unfold TouchPeer.
    destruct (write_cases io (touch_tx k now) (registry s)) as [(d & u & _ & Ef & ->)|(e & -> & _)]; [|done].
    destruct (touch_tx_inv _ _ _ _ _ I Ef) as (_ & p & Hp & ->). intros k0 p0 [[-> ->]|[_ K0]]%peer_at_put; [by apply (K _ p)|by apply (K _ p0)].
Qed.

Lemma Watch_close_ok st s :
  server_ok s -> exists s', Watch_close st s = Some s' /\ server_ok s' /\ registry s' = registry s /\
    connected s' = if String.eqb (st_peer st) "" then connected s
                   else connected (markDisconnected (st_peer st) s).
Proof.
  intros Hs. unfold Watch_close.
  assert (exists b1, match st_sig st with Some c => Bus.Bus.UnsubscribeSignals (st_peer st) c (bus s) | None => Some (bus s) end = Some b1
                     /\ Bus.Bus.bus_ok b1) as (b1 & -> & Hb1).
  { destruct (st_sig st) as [c|]; [|eexists; split; [done|apply Hs]].
    by destruct (Bus.Bus.exec_ok (bus s) (Bus.Bus.OpUnsubscribeSignals (st_peer st) c) (so_bus s Hs)) as (b & E & Hb); exists b. }
  destruct (Bus.Bus.exec_ok b1 (Bus.Bus.OpUnsubscribe (st_network st) (st_ch st)) Hb1) as (b2 & E2 & Hb2). cbn [Bus.Bus.exec] in E2.
  rewrite bind_Some_eq, E2, bind_Some_eq. eexists. split; [done|].
  destruct (String.eqb (st_peer st) ""); [split; [by apply server_ok_bus|done]|].
  split; [apply server_ok_connected; by apply server_ok_bus|done].
Qed.

Lemma forward_ok from_sig st s :
  server_ok s -> server_ok (Watch_forward from_sig st s).1 /\ registry (Watch_forward from_sig st s).1 = registry s /\
                 connected (Watch_forward from_sig st s).1 = connected s.
Proof.
  intros Hs. unfold Watch_forward. destruct from_sig; [destruct (st_sig st) as [c|]; [|done]|].
  - destruct (Bus.Bus.exec_ok (bus s) (Bus.Bus.OpReceiveSignal c) (so_bus s Hs)) as (b & [= <-] & Hb).
    destruct (Bus.Bus.receive (Bus.Bus.sigs (bus s)) c) as [[v h]|]; [|done]. split; [by apply server_ok_bus|done].
  - destruct (Bus.Bus.exec_ok (bus s) (Bus.Bus.OpReceiveEvent (st_ch st)) (so_bus s Hs)) as (b & [= <-] & Hb).
    destruct (Bus.Bus.receive (Bus.Bus.evs (bus s)) (st_ch st)) as [[v h]|]; [|done]. split; [by apply server_ok_bus|done].
Qed.

(** One step: it returns, keeps the invariant, and changes the registry only as
    the operation's own case says. *)
Definition registry_change (o : sys_op) (y : Sys) (r' : Registry M) : Prop :=
  let r := registry (srv y) in
  r' = r \/
  match o with
  | SRegister io t req => registered io t req r r'
  | SLeave io t req => departed io t req r r'
  | STick i io now => exists st, streams y !! i = Some st /\ st_peer st <> ""%string /\ r' = fst (TouchPeer io (st_peer st) now r)
  | SExpel io ttl now => exists removed, SweepStalePeers io ttl now (Some (IsConnected (srv y))) r = (r', Ok removed)
  | _ => False
  end.

Lemma sys_step_ok y o :
  sys_ok y -> exists y', sys_step y o = Some y' /\ sys_ok y' /\ registry_change o y (registry (srv y')).
Proof.
  intros [Hs Hc]. unfold registry_change.
  assert (forall s, server_ok s -> connected s = connected (srv y) -> sys_ok {| srv := s; streams := streams y |}) as Hkeep.
  { intros s O E. split; [done|]. cbn. by rewrite E. }
  destruct o as [io t req|req|t req|i fs|i io now|i|t req|io t req|io ttl now]; cbn [sys_step].
  - destruct (wp_on_srv _ _ _ (wp_Register io t req _ Hs)) as (s & res & -> & _ & O & E & Hr).
    eexists. split; [done|]. split; [by apply Hkeep|]. cbn. destruct Hr as [->|[_ Hr]]; [by left|by right].
  - destruct (wp_on_srv _ _ _ (wp_ListPeers req _ Hs)) as (s & res & -> & _ & ->).
    eexists. split; [done|]. split; [by apply Hkeep|by left].
  - pose proof (wp_Watch_open req t _ Hs) as Hw. unfold wp in Hw.
    destruct (Watch_open sha256 verify req t (srv y)) as [[s res]|]; [|done]. rewrite bind_Some_eq.
    destruct Hw as (O & E & Hres). eexists. split; [done|]. split; [|by left]. split; [done|]. cbn.
    destruct res as [[st ev]|c]; [|by rewrite Hres]. destruct Hres as [Ep Econn]. intros id Hid.
    unfold open_streams. rewrite filter_app, length_app. cbn [filter list_filter]. rewrite Econn, Ep.
    destruct (String.eqb_spec (wr_PeerId req) "") as [E0|E0].
    + rewrite Hc, decide_False by congruence. unfold open_streams. cbn. lia.
    + destruct (decide (wr_PeerId req = id)) as [<-|Hne].
      * rewrite lookup_insert_eq. cbn. rewrite Hc by done. unfold open_streams. lia.
      * rewrite lookup_insert_ne, Hc by done. unfold open_streams. cbn. lia.
  - destruct (streams y !! i) as [st|]; [|exists y; split; [done|split; [by split|by left]]].
    destruct (forward_ok fs st _ Hs) as (O & E1 & E2). eexists. split; [done|]. split; [by apply Hkeep|by left].
  - destruct (streams y !! i) as [st|] eqn:Ei; [|exists y; split; [done|split; [by split|by left]]].
    eexists. split; [done|]. destruct (String.eqb_spec (st_peer st) "") as [E0|E0]; [split; [by apply Hkeep|by left]|].
    split; [by apply Hkeep; [apply touch_server_ok|]|]. right. by exists st.
  - destruct (streams y !! i) as [st|] eqn:Ei; [|exists y; split; [done|split; [by split|by left]]].
    destruct (Watch_close_ok st _ Hs) as (s & -> & O & E1 & E2). rewrite bind_Some_eq. eexists. split; [done|].
    split; [|by left]. split; [done|]. cbn. intros id Hid. rewrite E2, (open_streams_delete _ i st) by done.
    destruct (String.eqb_spec (st_peer st) "") as [E0|E0].
    { rewrite Hc, decide_False by congruence. lia. }
    unfold markDisconnected. cbn [connected with_connected]. destruct (decide (st_peer st = id)) as [<-|Hne].
    + rewrite !Hc by done. case_step; bool_to_prop.
      * rewrite lookup_delete_eq. cbn.
        assert (0 < open_streams (streams y) (st_peer st)); [|lia]. unfold open_streams.
        destruct (filter _ _) eqn:Ef; [|cbn; lia]. exfalso.
        eapply (not_elem_of_nil st). rewrite <- Ef. apply list_elem_of_filter. split; [done|]. by eapply list_elem_of_lookup_2.
      * by rewrite lookup_insert_eq.
    + rewrite Z.sub_0_r. case_step; [rewrite lookup_delete_ne by done|rewrite lookup_insert_ne by done]; by apply Hc.
  - destruct (wp_on_srv _ _ _ (wp_SendSignal t req _ Hs)) as (s & res & -> & _ & O & E1 & E2).
    eexists. split; [done|]. split; [by apply Hkeep|by left].
  - destruct (wp_on_srv _ _ _ (wp_Leave io t req _ Hs)) as (s & res & -> & _ & O & E & Hr).
    eexists. split; [done|]. split; [by apply Hkeep|]. cbn. destruct Hr as [->|[_ Hr]]; [by left|by right].
  - destruct (wp_on_srv _ _ _ (wp_Expel io ttl now _ Hs)) as (s & res & -> & _ & O & E & Hr).
    eexists. split; [done|]. split; [by apply Hkeep|]. cbn. destruct Hr as [->|(rm & Hr & _)]; [by left|right; eauto].
Qed.

Lemma sys_run_ok ops : forall y, sys_ok y -> exists y', Bus.Bus.each sys_step y ops = Some y' /\ sys_ok y'.
Proof.
  induction ops as [|o ops IH]; intros y Hy; [by exists y|]. cbn [Bus.Bus.each].
  destruct (sys_step_ok y o Hy) as (y1 & -> & Hy1 & _). rewrite bind_Some_eq. by apply IH.
Qed.

Lemma sys_start r : inv r -> keys_ok r -> sys_ok {| srv := New r; streams := [] |}.
Proof. intros I K. split; [split; [done..|apply Bus.Bus.NewBus_ok]|]. intros id _. cbn. by rewrite lookup_empty. Qed.

(** C16: Whatever sequence of requests, stream turns, clean-ups, sweeps and store
    failures it serves, the server never panics; the registry keeps its
    invariant, every peer is stored under the hexadecimal form of its own key,
    and the presence table counts exactly the open streams of each peer. *)
Theorem server_invariant r ops :
  inv r -> keys_ok r ->
  exists y, Bus.Bus.each sys_step {| srv := New r; streams := [] |} ops = Some y /\ sys_ok y.
Proof. intros I K. by apply sys_run_ok, sys_start. Qed.

(** C6: A peer's row changes only on behalf of the holder of the peer's own key,
    or by ageing.  If a step changes the row of [k], it is a registration whose
    verified key is [k] in a network of the caller's account; or a departure
    verified under the key [k] stored for it, in a network of the caller's
    account; or a tick of a stream open for [k], which changes the last-seen
    time only; or a sweep, when [k] was inactive beyond the TTL and has no open
    stream. *)
Theorem row_change_authorized y o y' k :
  sys_ok y -> k <> ""%string -> sys_step y o = Some y' ->
  peers (db (registry (srv y'))) !! k <> peers (db (registry (srv y))) !! k ->
  match o with
  | SRegister io t req =>
      exists acc key, Resolve (rq_Token req) = Some acc /\ decode_key (rq_Ed25519Public req) = Some key /\
        k = Hex.EncodeToString key /\ authorized_network (rq_NetworkId req) (acc_ID acc) (registry (srv y)) = true /\
        SignedMsg.SignedMsg.VerifyRegisterSignature verify key (rq_Signature req) (claims_of req) (unix (t 0%nat)) = Ok tt
  | SLeave io t req =>
      exists acc rec key, Resolve (lv_Token req) = Some acc /\ k = lv_PeerId req /\ k = Hex.EncodeToString key /\
        peer_at (db (registry (srv y))) k rec /\
        authorized_network (NetworkID rec) (acc_ID acc) (registry (srv y)) = true /\
        SignedMsg.SignedMsg.VerifyCallSignature verify key (lv_Signature req)
          (SignedMsg.SignedMsg.LeaveClaims k (lv_TimestampUnix req)) (unix (t 0%nat)) = Ok tt
  | STick i io now =>
      0 < open_streams (streams y) k /\
      exists p, peer_at (db (registry (srv y))) k p /\
        peer_at (db (registry (srv y'))) k (with_LastSeen (roundToHour (unix now)) p)
  | SExpel io ttl now =>
      open_streams (streams y) k = 0 /\
      exists p, peer_at (db (registry (srv y))) k p /\ last_activity p < unix (now - ttl)
  | _ => False
  end.
Proof.
  intros Hy Hk0 Hstep Hch. destruct (sys_step_ok y o Hy) as (y1 & E & _ & Hr). rewrite Hstep in E. injection E as <-.
  destruct Hr as [Hr|Hr]; [by rewrite Hr in Hch|]. destruct Hy as [[I K B] Hc].
  destruct o as [io t req|req|t req|i fs|i io now|i|t req|io t req|io ttl now]; try done.
  - destruct Hr as (acc & key & a & E1 & E2 & E3 & E4 & E5). exists acc, key. split_and!; try done.
    destruct (RegisterPeer_row _ _ _ _ _ _ _ E5) as [Hoth _]. destruct (decide (k = Hex.EncodeToString key)); [done|].
    destruct Hch. by apply Hoth.
  - destruct Hr as (st & Hi & Hne & Er). rewrite Er in *. unfold TouchPeer in *.
    destruct (write_cases io (touch_tx (st_peer st) now) (registry (srv y))) as [(d & u & _ & Ef & Ew)|(e & Ew & _)];
      rewrite Ew in *; [|done]. destruct (touch_tx_inv _ _ _ _ _ (proj1 I) Ef) as (_ & p & Hp & ->). cbn in *.
    destruct (decide (st_peer st = k)) as [<-|Hk]; [|by rewrite lookup_insert_ne in Hch]. split.
    + unfold open_streams. destruct (filter _ _) eqn:Ef'; [|cbn; lia]. exfalso.
      eapply (not_elem_of_nil st). rewrite <- Ef'. apply list_elem_of_filter. split; [done|]. by eapply list_elem_of_lookup_2.
    + exists p. split; [done|]. apply lookup_insert_eq.
  - destruct Hr as (acc & rec & key & p & E1 & E2 & E3 & E4 & E5 & E6).
    destruct (RemovePeer_rows _ _ _ _ _ _ I E6) as [_ Ep]. rewrite Ep in Hch.
    destruct (decide (lv_PeerId req = k)) as [<-|Hk]; [|by rewrite lookup_delete_ne in Hch].
    exists acc, rec, key. split_and!; try done. destruct (K _ _ E2) as (key' & Ek & ->). congruence.
  - destruct Hr as (removed & Es). destruct (decide (0 < ttl)) as [Ht|Ht].
    2: { unfold SweepStalePeers in Es. rewrite (proj2 (Z.leb_le _ _)) in Es by lia. injection Es as E _. by rewrite <- E in Hch. }
    destruct io.
    2: { unfold SweepStalePeers in Es. rewrite (proj2 (Z.leb_gt _ _)) in Es by done.
         by destruct (write_cases false (sweep_tx (unix (now - ttl)) (Some (IsConnected (srv y)))) (registry (srv y)))
           as [(d & a & ? & _)|(e' & E & _)]; [|rewrite E in Es]. }
    destruct (sweep_outcome _ ttl now (Some (IsConnected (srv y))) I Ht) as (r2 & rm & Es' & _ & _ & Hrm & Ep & _).
    rewrite Es in Es'. injection Es' as E <-. rewrite <- E in Ep. rewrite Ep in Hch.
    case_decide as Hin; [|done]. apply list_elem_of_fmap in Hin as (p & -> & Hin). apply Hrm in Hin as (Hp & Hl & Hskip).
    split; [|by exists p]. cbn [skipped] in Hskip. unfold IsConnected in Hskip. rewrite Hc in Hskip by done. bool_to_prop.
    unfold open_streams in *. lia.
Qed.

(** C17: A signal is relayed only for the holder of the sender's key and only
    inside a network of the caller's account: when [SendSignal] succeeds, the
    token's account owns the network both peers are in, and the request, with
    this very payload, is signed by the key the sender is stored under; when it
    fails the bus is untouched. *)
Theorem signal_authorized t req s s' res :
  server_ok s -> SendSignal_rpc sha256 verify t req s = Some (s', res) ->
  match res with
  | Err _ => bus s' = bus s
  | Ok _ =>
      exists acc from to key, Resolve (sr_Token req) = Some acc /\
        peer_at (db (registry s)) (sr_FromPeerId req) from /\ peer_at (db (registry s)) (sr_ToPeerId req) to /\
        NetworkID from = NetworkID to /\ authorized_network (NetworkID to) (acc_ID acc) (registry s) = true /\
        sr_FromPeerId req = Hex.EncodeToString key /\
        SignedMsg.SignedMsg.VerifyCallSignature verify key (sr_Signature req)
          (SignedMsg.SignedMsg.SendSignalClaims sha256 (sr_FromPeerId req) (sr_ToPeerId req) (sr_Payload req)
             (sr_TimestampUnix req)) (unix (t 0%nat)) = Ok tt /\
        Bus.Bus.SendSignal (sr_FromPeerId req) (sr_ToPeerId req) (sr_Payload req) true (t 1%nat) (bus s) = Some (bus s')
  end.
Proof.
  intros Hs Hrun.
  assert (wp (SendSignal_rpc sha256 verify t req) (fun s' res =>
    match res with
    | Err _ => bus s' = bus s
    | Ok _ =>
      exists acc from to key, Resolve (sr_Token req) = Some acc /\
        peer_at (db (registry s)) (sr_FromPeerId req) from /\ peer_at (db (registry s)) (sr_ToPeerId req) to /\
        NetworkID from = NetworkID to /\ authorized_network (NetworkID to) (acc_ID acc) (registry s) = true /\
        sr_FromPeerId req = Hex.EncodeToString key /\
        SignedMsg.SignedMsg.VerifyCallSignature verify key (sr_Signature req)
          (SignedMsg.SignedMsg.SendSignalClaims sha256 (sr_FromPeerId req) (sr_ToPeerId req) (sr_Payload req)
             (sr_TimestampUnix req)) (unix (t 0%nat)) = Ok tt /\
        Bus.Bus.SendSignal (sr_FromPeerId req) (sr_ToPeerId req) (sr_Payload req) true (t 1%nat) (bus s) = Some (bus s')
    end) s) as Hwp; [|unfold wp in Hwp; by rewrite Hrun in Hwp].
  unfold SendSignal_rpc. apply wp_bind, wp_of_option; [|done]. intros acc Hacc.
  apply wp_bind, wp_check; [|done]. intros _. apply wp_bind, wp_authorizePeer; [|done]. intros from Hfrom _ _.
  apply wp_bind, wp_verifyCall; [done|done|]. intros sn key Hkey Hv _.
  apply wp_bind, wp_authorizePeer; [|done]. intros to Hto _ Hauth.
  apply wp_bind, wp_check; [|done]. intros Hnet. apply String.eqb_eq in Hnet. unfold wp, on_bus.
  destruct (Bus.Bus.SendSignal_ok (sr_FromPeerId req) (sr_ToPeerId req) (sr_Payload req) true (t 1%nat) (bus s) (so_bus s Hs))
    as (b & Eb & Hb). cbn [bus with_seen]. rewrite Eb, bind_Some_eq.
  exists acc, from, to, key. split_and!; try done. destruct (so_keys s Hs _ _ Hfrom) as (key' & Ek & ->). congruence.
Qed.

End Proofs.

(** ** A small coordinator

    The community edition with one token, a signature that is the key followed by
    the message, and the identity for SHA-256: two peers register, both watch,
    and the first signals the second. *)
Definition demo_backend : Backend := ce_backend {[ "token"%string := {| acc_ID := "acc"; acc_Tier := 0 |} ]}.
Definition demo_hash (l : list Z) : list Z := l.
Definition demo_verify (pub msg sig : list Z) : bool := bool_decide (sig = pub ++ msg).
Definition demo_sec : Z := 1000000000.
Definition demo_clock (i : nat) : Z := demo_sec * 10 ^ 9 + Z.of_nat i.

Definition demo_key (first : string) : string := (first ++ "AAAAAAAAAAAAAAAAAAAAAAAAAAAAAAAAAAAAAAAAAA=")%string.
Definition demo_pub (first : string) : list Z := default [] (decode_key (demo_key first)).
Definition demo_id (first : string) : string := Hex.EncodeToString (demo_pub first).

Definition demo_register (first name : string) : RegisterRequest :=
  let req sig := {| rq_NetworkId := "net"; rq_Token := "token"; rq_Name := name; rq_Ed25519Public := demo_key first;
     rq_X25519Public := "x"; rq_Endpoint := "192.0.2.1:51820"; rq_SubnetRoutes := [];
     rq_TimestampUnix := demo_sec; rq_Signature := sig |} in
  req (demo_pub first ++ SignedMsg.SignedMsg.RegisterSignedMessage (claims_of (req []))).
Definition demo_call (first : string) (c : SignedMsg.SignedMsg.CallClaims) : list Z :=
  demo_pub first ++ SignedMsg.SignedMsg.CallSignedMessage c.
Definition demo_watch (first : string) : WatchRequest :=
  {| wr_Token := "token"; wr_NetworkId := "net"; wr_PeerId := demo_id first; wr_TimestampUnix := demo_sec;
     wr_Signature := demo_call first (SignedMsg.SignedMsg.WatchClaims (demo_id first) "net" demo_sec) |}.
Definition demo_signal (from to : string) (payload : list Z) : SendSignalRequest :=
  {| sr_Token := "token"; sr_FromPeerId := demo_id from; sr_ToPeerId := demo_id to; sr_Payload := payload;
     sr_TimestampUnix := demo_sec;
     sr_Signature := demo_call from
       (SignedMsg.SignedMsg.SendSignalClaims demo_hash (demo_id from) (demo_id to) payload demo_sec) |}.
Definition demo_leave (first : string) : LeaveRequest :=
  {| lv_Token := "token"; lv_PeerId := demo_id first; lv_TimestampUnix := demo_sec;
     lv_Signature := demo_call first (SignedMsg.SignedMsg.LeaveClaims (demo_id first) demo_sec) |}.

(** The store with the network alone. *)
Definition demo_store : Registry (gmap string) := foldl run empty_registry (take 1 demo_ops).
Definition demo_run (ops : list sys_op) : option Sys :=
  Bus.Bus.each (sys_step (be := demo_backend) demo_hash demo_verify) {| srv := New demo_store; streams := [] |} ops.
Definition demo_requests : list sys_op :=
  [ SRegister true demo_clock (demo_register "A" "alpha"); SRegister true demo_clock (demo_register "B" "beta");
    SWatch demo_clock (demo_watch "A"); SWatch demo_clock (demo_watch "B") ].
Definition demo_sys : Sys := default {| srv := New demo_store; streams := [] |} (demo_run demo_requests).
Definition demo_left : Sys :=
  default demo_sys (sys_step (be := demo_backend) demo_hash demo_verify demo_sys (SLeave true demo_clock (demo_leave "A"))).

Lemma demo_store_ok : inv demo_store /\ keys_ok demo_store.
Proof.
  split; [apply runs_inv; [by repeat constructor|apply inv_empty]|].
  assert (peers (db demo_store) = ∅) as E by (by vm_compute). intros k p. unfold peer_at. by rewrite E, lookup_empty.
Qed.

Example demo_served :
  length (streams demo_sys) = 2%nat /\ connected (srv demo_sys) !! demo_id "A" = Some 1 /\
  IsConnected (srv demo_sys) (demo_id "B") = true /\
  is_Some (peers (db (registry (srv demo_sys))) !! demo_id "A").
Proof. split_and!; [by vm_compute..|by vm_compute; eexists]. Qed.

Lemma demo_sys_ok : sys_ok demo_sys.
Proof.
  destruct (sys_run_ok (be := demo_backend) demo_hash demo_verify demo_requests _ (sys_start _ (proj1 demo_store_ok) (proj2 demo_store_ok)))
    as (y & E & Hy). unfold demo_sys, demo_run. by rewrite E.
Qed.

Lemma server_invariant_witness :
  inv demo_store /\ exists y, demo_run demo_requests = Some y /\ sys_ok y.
Proof.
  split; [apply demo_store_ok|].
  apply (server_invariant (be := demo_backend)); [apply demo_store_ok|apply demo_store_ok].
Defined.

Lemma demo_left_step :
  sys_step (be := demo_backend) demo_hash demo_verify demo_sys (SLeave true demo_clock (demo_leave "A")) = Some demo_left.
Proof.
  assert (is_Some (sys_step (be := demo_backend) demo_hash demo_verify demo_sys (SLeave true demo_clock (demo_leave "A"))))
    as [y E]; [|unfold demo_left; by rewrite E].
  destruct (sys_step_ok (be := demo_backend) demo_hash demo_verify _ (SLeave true demo_clock (demo_leave "A")) demo_sys_ok)
    as (y & -> & _). by eexists.
Qed.

Lemma demo_left_gone :
  peers (db (registry (srv demo_left))) !! demo_id "A" <> peers (db (registry (srv demo_sys))) !! demo_id "A".
Proof. by vm_compute. Qed.

Lemma row_change_authorized_witness :
  exists acc rec key, Resolve (Backend := demo_backend) "token" = Some acc /\ demo_id "A" = demo_id "A" /\
    demo_id "A" = Hex.EncodeToString key /\ peer_at (db (registry (srv demo_sys))) (demo_id "A") rec /\
    authorized_network (NetworkID rec) (acc_ID acc) (registry (srv demo_sys)) = true /\
    SignedMsg.SignedMsg.VerifyCallSignature demo_verify key (lv_Signature (demo_leave "A"))
      (SignedMsg.SignedMsg.LeaveClaims (demo_id "A") demo_sec) (unix (demo_clock 0)) = Ok tt.
Proof.
  apply (row_change_authorized (be := demo_backend) demo_hash demo_verify demo_sys (SLeave true demo_clock (demo_leave "A"))
           demo_left (demo_id "A")).
  - apply demo_sys_ok.
  - by vm_compute.
  - apply demo_left_step.
  - apply demo_left_gone.
Defined.

Definition demo_sent : option (Server (gmap string) * result code unit) :=
  SendSignal_rpc (be := demo_backend) demo_hash demo_verify demo_clock (demo_signal "A" "B" [1; 2; 3]) (srv demo_sys).

Lemma signal_authorized_witness :
  match demo_sent with
  | Some (s', Ok _) =>
      exists acc from to key, Resolve (Backend := demo_backend) "token" = Some acc /\
        peer_at (db (registry (srv demo_sys))) (demo_id "A") from /\
        peer_at (db (registry (srv demo_sys))) (demo_id "B") to /\
        NetworkID from = NetworkID to /\ authorized_network (NetworkID to) (acc_ID acc) (registry (srv demo_sys)) = true /\
        demo_id "A" = Hex.EncodeToString key /\
        SignedMsg.SignedMsg.VerifyCallSignature demo_verify key (sr_Signature (demo_signal "A" "B" [1; 2; 3]))
          (SignedMsg.SignedMsg.SendSignalClaims demo_hash (demo_id "A") (demo_id "B") [1; 2; 3] demo_sec)
          (unix (demo_clock 0)) = Ok tt /\
        Bus.Bus.SendSignal (demo_id "A") (demo_id "B") [1; 2; 3] true (demo_clock 1) (bus (srv demo_sys)) = Some (bus s')
  | _ => False
  end.
Proof.
  pose proof (signal_authorized (be := demo_backend) demo_hash demo_verify demo_clock (demo_signal "A" "B" [1; 2; 3])
                (srv demo_sys)) as Hs.
  assert (match demo_sent with Some (_, Ok _) => True | _ => False end) as Hok by (by vm_compute).
  unfold demo_sent in *. destruct (SendSignal_rpc _ _ _ _ _) as [[s' [u|c]]|]; [|done|done].
  exact (Hs s' (Ok u) (sy_srv _ demo_sys_ok) eq_refl).
Defined.

End Server.
