(* ===== verification/Tofu.v ===== *)
(** * Trust on first use

    Models [src/internal/tofu/store.go]: the pins of Ed25519 keys to VPN
    addresses, in memory and in the file.  SHA-256 is a parameter; the file is
    kept as what [json.Unmarshal] reads from it, once as a [storeFile] and once
    in the old format (of which only the number of pins matters).  [io] says
    whether writing and renaming the file succeed; [iter] is the order in which
    Go iterates over the pins. *)
From Stdlib Require Import ZArith Lia.
From stdpp Require Import base numbers list gmap strings fin_maps.
From S2P Require Import Prelude GoLib.

Module Tofu.

Inductive tofu_error := ErrFingerprintMismatch | SaveError.

Definition pubKeyString (pub : list Z) : string := Hex.EncodeToString pub.

Record pinValue := {
  Fingerprint_ : list Z;           (* [32]byte *)
  Ed25519Pub : string;
  VPNAddr : string;
  PrevVPNAddrs : list string
}.

Definition maxPrevVPNAddrs : nat := 16.

Record pinEntry := {
  pe_VPNAddr : string;
  pe_Ed25519Pub : string;
  pe_Fingerprint : string;
  pe_PrevVPNAddrs : list string
}.

Record storeFile := { Version : Z; Pins : list pinEntry }.

(** The file, as it decodes: [None] is a JSON error. *)
Record document := { as_store : option storeFile; as_old : option nat }.

Record Store := {
  pins : gmap string pinValue;
  vpnToPub : gmap string string;
  file : option document            (* None: no such file *)
}.

Section Store.
Variable sha256 : list Z -> list Z.
Variable iter : gmap string pinValue -> list (string * pinValue).

Definition Fingerprint (pub : list Z) : list Z := sha256 pub.

Definition entry_of (v : pinValue) : pinEntry :=
  {| pe_VPNAddr := VPNAddr v; pe_Ed25519Pub := Ed25519Pub v;
     pe_Fingerprint := Hex.EncodeToString (Fingerprint_ v); pe_PrevVPNAddrs := PrevVPNAddrs v |}.

Definition doc_of (m : gmap string pinValue) : document :=
  let l := map (fun kv => entry_of (snd kv)) (iter m) in
  {| as_store := Some {| Version := 3; Pins := l |}; as_old := Some (length l) |}.

Definition save (io : bool) (s : Store) : Store * result tofu_error unit :=
  if io then ({| pins := pins s; vpnToPub := vpnToPub s; file := Some (doc_of (pins s)) |}, Ok tt)
  else (s, Err SaveError).

(** ** Loading *)

(** The pin of an entry of the file, [None] when the entry is skipped. *)
Definition pin_of (p : pinEntry) : option pinValue :=
  if String.eqb (pe_Ed25519Pub p) "" || String.eqb (pe_Fingerprint p) "" then None
  else
    b ← Hex.DecodeString (pe_Fingerprint p);
    if (length b =? 32)%nat
    then Some {| Fingerprint_ := b; Ed25519Pub := pe_Ed25519Pub p; VPNAddr := pe_VPNAddr p;
                 PrevVPNAddrs := pe_PrevVPNAddrs p |}
    else None.

(** The addresses before the current one are reserved when they are free. *)
Definition reserve_free (k : string) (m : gmap string string) (a : string) : gmap string string :=
  match m !! a with Some _ => m | None => <[a := k]> m end.

Definition load_pin (s : Store) (p : pinEntry) : Store :=
  match pin_of p with
  | None => s
  | Some v =>
      {| pins := <[Ed25519Pub v := v]> (pins s);
         vpnToPub := foldl (reserve_free (Ed25519Pub v)) (<[VPNAddr v := Ed25519Pub v]> (vpnToPub s)) (PrevVPNAddrs v);
         file := file s |}
  end.

Definition load_old (io : bool) (d : document) (s : Store) : Store * result tofu_error unit :=
  match as_old d with
  | Some (S _) => save io s
  | _ => (s, Ok tt)
  end.

Definition valid_entry (p : pinEntry) : bool :=
  negb (String.eqb (pe_Ed25519Pub p) "") && negb (String.eqb (pe_Fingerprint p) "").

Definition load (io : bool) (d : document) (s : Store) : Store * result tofu_error unit :=
  match as_store d with
  | Some f => if existsb valid_entry (Pins f) then (foldl load_pin s (Pins f), Ok tt) else load_old io d s
  | None => load_old io d s
  end.

Definition empty_store (f : option document) : Store := {| pins := ∅; vpnToPub := ∅; file := f |}.

(** [readable]: an existing file can be read.  [None]: [New] fails. *)
Definition New (readable io : bool) (f : option document) : option Store :=
  match f with
  | None => Some (empty_store None)
  | Some d =>
      if readable then
        let '(s, res) := load io d (empty_store f) in if is_ok res then Some s else None
      else None
  end.

(** ** Checking *)
Definition prev_addrs (stored : pinValue) (vpnAddr : string) : list string :=
  VPNAddr stored :: filter (fun a => a <> vpnAddr /\ a <> VPNAddr stored) (PrevVPNAddrs stored).

Definition Check (io : bool) (vpnAddr : string) (pub : list Z) (s : Store) : Store * result tofu_error unit :=
  let fp := Fingerprint pub in
  let pubStr := pubKeyString pub in
  let other := match vpnToPub s !! vpnAddr with Some owner => negb (String.eqb owner pubStr) | None => false end in
  match pins s !! pubStr with
  | Some stored =>
      if negb (bool_decide (Fingerprint_ stored = fp)) then (s, Err ErrFingerprintMismatch)
      else if String.eqb (VPNAddr stored) vpnAddr then (s, Ok tt)
      else if other then (s, Err ErrFingerprintMismatch)
      else
        let prev := prev_addrs stored vpnAddr in
        let released := drop maxPrevVPNAddrs prev in
        save io
          {| pins := <[pubStr := {| Fingerprint_ := Fingerprint_ stored; Ed25519Pub := Ed25519Pub stored;
                                    VPNAddr := vpnAddr; PrevVPNAddrs := take maxPrevVPNAddrs prev |}]> (pins s);
             vpnToPub := <[vpnAddr := pubStr]> (foldl (fun m a => delete a m) (vpnToPub s) released);
             file := file s |}
  | None =>
      if other then (s, Err ErrFingerprintMismatch)
      else
        save io
          {| pins := <[pubStr := {| Fingerprint_ := fp; Ed25519Pub := pubStr; VPNAddr := vpnAddr; PrevVPNAddrs := [] |}]> (pins s);
             vpnToPub := <[vpnAddr := pubStr]> (vpnToPub s);
             file := file s |}
  end.

(** ** Forgetting *)
Definition release (k : string) (m : gmap string string) (a : string) : gmap string string :=
  if bool_decide (default ""%string (m !! a) = k) then delete a m else m.

Definition unpin (v : pinValue) (s : Store) : Store :=
  {| pins := delete (Ed25519Pub v) (pins s);
     vpnToPub := foldl (release (Ed25519Pub v)) (vpnToPub s) (VPNAddr v :: PrevVPNAddrs v);
     file := file s |}.

Definition Forget (io : bool) (pub : list Z) (s : Store) : Store * result tofu_error unit :=
  save io (match pins s !! pubKeyString pub with Some v => unpin v s | None => s end).

Definition ForgetByVPNAddr (io : bool) (vpnAddr : string) (s : Store) : Store * result tofu_error unit :=
  save io
    (match vpnToPub s !! vpnAddr with
     | None => s
     | Some pubStr =>
         match pins s !! pubStr with
         | Some v => unpin v s
         | None => {| pins := pins s; vpnToPub := delete vpnAddr (vpnToPub s); file := file s |}
         end
     end).

Definition List (s : Store) : gmap string string :=
  foldl (fun out kv => <[VPNAddr (snd kv) := Hex.EncodeToString (Fingerprint_ (snd kv))]> out) ∅ (iter (pins s)).

End Store.

(** ** Folds over addresses *)
Lemma lookup_delete_all (l : list string) (m : gmap string string) a :
  foldl (fun m a => delete a m) m l !! a = if decide (a ∈ l) then None else m !! a.
Proof.
  revert m. induction l as [|b l IH]; intros m; cbn [foldl]; [by rewrite decide_False by apply not_elem_of_nil|].
  rewrite IH. destruct (decide (a = b)) as [->|Hne].
  - rewrite lookup_delete_eq, (decide_True (P := b ∈ b :: l)) by by left. by case_decide.
  - rewrite lookup_delete_ne by done. apply decide_ext. set_solver.
Qed.

Lemma lookup_release_all k l (m : gmap string string) a :
  k <> ""%string -> foldl (release k) m l !! a = if decide (a ∈ l /\ m !! a = Some k) then None else m !! a.
Proof.
  intros Hk. revert m. induction l as [|b l IH]; intros m; cbn [foldl].
  { rewrite decide_False; [done|]. by intros [?%not_elem_of_nil _]. }
  rewrite IH. unfold release. case_bool_decide as Eb.
  - assert (m !! b = Some k) as Hb by (destruct (m !! b); cbn in Eb; congruence).
    destruct (decide (a = b)) as [->|Hne].
    + rewrite lookup_delete_eq, (decide_True (P := _ /\ m !! b = _)) by (split; [by left|done]). by case_decide.
    + rewrite !lookup_delete_ne by done. apply decide_ext. set_solver.
  - apply decide_ext. rewrite elem_of_cons. split; [naive_solver|]. intros [[->|Hl] Ha]; [|done]. by rewrite Ha in Eb.
Qed.

Lemma lookup_reserve_all k l (m : gmap string string) a :
  foldl (reserve_free k) m l !! a = if decide (a ∈ l /\ m !! a = None) then Some k else m !! a.
Proof.
  revert m. induction l as [|b l IH]; intros m; cbn [foldl].
  { rewrite decide_False; [done|]. by intros [?%not_elem_of_nil _]. }
  rewrite IH. unfold reserve_free. destruct (m !! b) as [o|] eqn:Eb.
  - apply decide_ext. rewrite elem_of_cons. split; [naive_solver|]. intros [[->|Hl] Ha]; [congruence|done].
  - destruct (decide (a = b)) as [->|Hne].
    + rewrite lookup_insert_eq, (decide_True (P := _ /\ m !! b = None)) by (split; [by left|done]). by case_decide.
    + rewrite !lookup_insert_ne by done. apply decide_ext. set_solver.
Qed.

(** ** The invariant *)
Section Proofs.
Variable sha256 : list Z -> list Z.
Variable iter : gmap string pinValue -> list (string * pinValue).

(** An Ed25519 public key. *)
Definition key_ok (pub : list Z) : Prop := bytes_ok pub /\ length pub = 32%nat.

(** The addresses a pin holds, the current one first. *)
Definition reserved (v : pinValue) : list string := VPNAddr v :: PrevVPNAddrs v.

Record pin_ok (k : string) (v : pinValue) : Prop := {
  pk_key : Ed25519Pub v = k;
  pk_print : exists pub, key_ok pub /\ k = pubKeyString pub /\ Fingerprint_ v = sha256 pub;
  pk_nodup : NoDup (reserved v);
  pk_len : (length (PrevVPNAddrs v) <= maxPrevVPNAddrs)%nat
}.

Record store_ok (s : Store) : Prop := {
  so_pin : forall k v, pins s !! k = Some v -> pin_ok k v;
  so_vpn : forall a k, vpnToPub s !! a = Some k <-> exists v, pins s !! k = Some v /\ a ∈ reserved v
}.

Lemma key_nonempty pub : key_ok pub -> pubKeyString pub <> ""%string.
Proof.
  intros [Hb Hl] E. apply (f_equal bytes_of_string) in E. unfold pubKeyString, Hex.EncodeToString in E.
  rewrite Strings.bytes_of_string_of_bytes in E by by apply Hex.encode_bytes_ok. destruct pub; [done|]. done.
Qed.

Lemma pin_key_nonempty k v : pin_ok k v -> k <> ""%string.
Proof. intros [_ (pub & Hp & -> & _) _ _]. by apply key_nonempty. Qed.

Lemma pin_fingerprint pub v : key_ok pub -> pin_ok (pubKeyString pub) v -> Fingerprint_ v = Fingerprint sha256 pub.
Proof. intros [Hb _] [_ (p & [Hp _] & E & ->) _ _]. apply Hex.EncodeToString_inj in E; [|done..]. by subst. Qed.

(** No two keys hold an address. *)
Lemma reserved_unique s k1 k2 v1 v2 a :
  store_ok s -> pins s !! k1 = Some v1 -> pins s !! k2 = Some v2 -> a ∈ reserved v1 -> a ∈ reserved v2 -> k1 = k2.
Proof.
  intros [_ Hv] Hp1 Hp2 Ha1 Ha2. assert (vpnToPub s !! a = Some k1) as E1 by (apply Hv; eauto).
  assert (vpnToPub s !! a = Some k2) as E2 by (apply Hv; eauto). congruence.
Qed.

Lemma store_ok_ext s s' : pins s = pins s' -> vpnToPub s = vpnToPub s' -> store_ok s -> store_ok s'.
Proof. intros Ep Ev [Hp Hv]. split; [by rewrite <- Ep|by rewrite <- Ep, <- Ev]. Qed.

(** The pin of one key replaced, its addresses re-reserved. *)
Lemma store_ok_put s k v m :
  store_ok s -> pin_ok k v ->
  (forall a k', m !! a = Some k' <-> (k' = k /\ a ∈ reserved v) \/ (k' <> k /\ vpnToPub s !! a = Some k')) ->
  store_ok {| pins := <[k := v]> (pins s); vpnToPub := m; file := file s |}.
Proof.
  intros [Hp Hv] Hk Hm. split; cbn.
  - intros k' v'. rewrite lookup_insert_Some. intros [[<- <-]|[_ Hv']]; [done|by apply Hp].
  - intros a k'. rewrite Hm, Hv. setoid_rewrite lookup_insert_Some. destruct (decide (k' = k)) as [->|]; naive_solver.
Qed.

Lemma store_ok_unpin s v : store_ok s -> pins s !! Ed25519Pub v = Some v -> store_ok (unpin v s).
Proof.
  intros Hs Hk. pose proof (so_pin s Hs _ _ Hk) as Hok. pose proof (pin_key_nonempty _ _ Hok) as Hne.
  pose proof Hs as [Hp Hv]. split; cbn [pins vpnToPub unpin].
  - intros k' v' [_ Hk']%lookup_delete_Some. by apply Hp.
  - intros a k'. rewrite lookup_release_all by done. setoid_rewrite lookup_delete_Some. case_decide as Hd.
    + split; [done|]. intros (v' & [Hne' Hk'] & Ha). destruct Hne'.
      destruct Hd as [Hd _]. by apply (reserved_unique s _ _ v v' a Hs).
    + rewrite Hv. split; [|naive_solver]. intros (v' & Hk' & Ha). exists v'. split; [|done]. split; [|done].
      intros <-. rewrite Hk in Hk'. injection Hk' as <-. apply Hd. split; [done|]. apply Hv. eauto.
Qed.

(** ** Checking refines the abstract reservations

    Abstractly every key holds its last addresses, at most seventeen, the most
    recent first. *)
Definition held (s : Store) (k : string) : list string :=
  match pins s !! k with Some v => reserved v | None => [] end.

Definition use_addr (a : string) (l : list string) : list string :=
  take (S maxPrevVPNAddrs) (a :: filter (fun b => b <> a) l).

Lemma other_owner s a pub :
  store_ok s ->
  match vpnToPub s !! a with Some owner => negb (String.eqb owner (pubKeyString pub)) | None => false end = true <->
  exists k', k' <> pubKeyString pub /\ a ∈ held s k'.
Proof.
  intros Hs. unfold held. destruct (vpnToPub s !! a) as [o|] eqn:Eo.
  - apply (so_vpn s Hs) in Eo as (v & Ho & Ha). rewrite negb_true_iff, String.eqb_neq. split.
    + intros Hne. exists o. by rewrite Ho.
    + intros (k' & Hne & Hin) ->. destruct (pins s !! k') as [v'|] eqn:E'; [|by apply not_elem_of_nil in Hin].
      by destruct Hne; apply (reserved_unique s _ _ v' v a Hs).
  - split; [done|]. intros (k' & _ & Hin). destruct (pins s !! k') as [v'|] eqn:E'; [|by apply not_elem_of_nil in Hin].
    assert (vpnToPub s !! a = Some k') by (apply (so_vpn s Hs); eauto). congruence.
Qed.

Lemma filter_both (v a : string) (l : list string) :
  v ∉ l -> filter (fun b => b <> a /\ b <> v) l = filter (fun b => b <> a) l.
Proof.
  induction l as [|b l IH]; [done|]. intros [Hv Hl]%not_elem_of_cons. rewrite !filter_cons, IH by done.
  repeat case_decide; try done; exfalso; naive_solver.
Qed.

Lemma filter_not_in (a : string) (l : list string) : a ∉ l -> filter (fun b => b <> a) l = l.
Proof.
  induction l as [|b l IH]; [done|]. intros [Ha Hl]%not_elem_of_cons. rewrite filter_cons_True, IH; congruence.
Qed.

Lemma NoDup_split {A} n (l : list A) : NoDup l -> NoDup (take n l) /\ forall x, x ∈ take n l -> x ∉ drop n l.
Proof. rewrite <- (take_drop n l) at 1. rewrite NoDup_app. tauto. Qed.

Lemma in_split {A} n (l : list A) x : x ∈ l <-> x ∈ take n l \/ x ∈ drop n l.
Proof. by rewrite <- elem_of_app, take_drop. Qed.

(** The new addresses of a key that moves. *)
Lemma moved_addrs v a k :
  pin_ok k v -> VPNAddr v <> a ->
  a :: take maxPrevVPNAddrs (prev_addrs v a) = use_addr a (reserved v).
Proof.
  intros [_ _ Hn _] Hne. unfold use_addr, reserved, prev_addrs. apply NoDup_cons in Hn as [Hv _].
  rewrite filter_cons_True by done. by rewrite filter_both.
Qed.

Lemma NoDup_use_addr a l : NoDup l -> NoDup (use_addr a l).
Proof.
  intros Hl. unfold use_addr. apply NoDup_split. apply NoDup_cons. split; [|by apply NoDup_filter].
  rewrite list_elem_of_filter. naive_solver.
Qed.

Lemma moved_pin_ok k v a :
  pin_ok k v -> VPNAddr v <> a ->
  pin_ok k {| Fingerprint_ := Fingerprint_ v; Ed25519Pub := Ed25519Pub v; VPNAddr := a;
              PrevVPNAddrs := take maxPrevVPNAddrs (prev_addrs v a) |}.
Proof.
  intros Hok Hne. pose proof (moved_addrs v a k Hok Hne) as E. destruct Hok as [Hk Hp Hn Hl].
  split; cbn [Fingerprint_ Ed25519Pub PrevVPNAddrs]; try done.
  - unfold reserved. cbn [VPNAddr PrevVPNAddrs]. rewrite E. by apply NoDup_use_addr.
  - rewrite length_take. lia.
Qed.

(** A key checked again at its current address. *)
Lemma same_addr k v a : pin_ok k v -> VPNAddr v = a -> reserved v = use_addr a (reserved v).
Proof.
  intros [_ _ Hn Hl] <-. unfold use_addr, reserved. apply NoDup_cons in Hn as [Hv _].
  rewrite filter_cons_False, filter_not_in by tauto. cbn [take]. by rewrite take_ge.
Qed.

(** The index after a move: the released addresses are gone, the new one is
    the key's. *)
Lemma moved_index s k v a b k' :
  store_ok s -> pins s !! k = Some v -> VPNAddr v <> a -> (forall o, vpnToPub s !! a = Some o -> o = k) ->
  <[a := k]> (foldl (fun m a => delete a m) (vpnToPub s) (drop maxPrevVPNAddrs (prev_addrs v a))) !! b = Some k' <->
  (k' = k /\ b ∈ a :: take maxPrevVPNAddrs (prev_addrs v a)) \/ (k' <> k /\ vpnToPub s !! b = Some k').
Proof.
  intros Hs Hk Hne Hfree. pose proof (so_pin s Hs _ _ Hk) as Hok.
  assert (NoDup (prev_addrs v a)) as Hnd.
  { destruct Hok as [_ _ Hn _]. unfold prev_addrs. apply NoDup_cons in Hn as [Hv Hn].
    apply NoDup_cons. rewrite list_elem_of_filter. split; [tauto|by apply NoDup_filter]. }
  assert (forall c, c ∈ prev_addrs v a <-> c <> a /\ vpnToPub s !! c = Some k) as Hprev.
  { intros c. unfold prev_addrs. rewrite elem_of_cons, list_elem_of_filter, (so_vpn s Hs). split.
    - intros [->|[[Hca _] Hc]]; (split; [done|]); exists v; (split; [done|]); [by left|by right].
    - intros [Hca (v' & Hv' & Hin)]. rewrite Hk in Hv'. injection Hv' as <-. apply elem_of_cons in Hin.
      destruct (decide (c = VPNAddr v)); naive_solver. }
  rewrite lookup_insert_Some, lookup_delete_all, elem_of_cons. case_decide as Hd.
  - assert (b ∈ prev_addrs v a) as [Hba Hbk]%Hprev by (apply (in_split maxPrevVPNAddrs); auto).
    assert (b ∉ take maxPrevVPNAddrs (prev_addrs v a)) as Ht by (intros Ht; by apply (proj2 (NoDup_split maxPrevVPNAddrs _ Hnd) b)).
    clear - Hba Hbk Ht. intuition congruence.
  - destruct (decide (b = a)) as [->|Hba].
    { specialize (Hfree k'). clear - Hfree. destruct (decide (k' = k)) as [->|]; intuition congruence. }
    assert (b ∈ take maxPrevVPNAddrs (prev_addrs v a) <-> vpnToPub s !! b = Some k) as Ht.
    { pose proof (in_split maxPrevVPNAddrs (prev_addrs v a) b). pose proof (Hprev b). tauto. }
    rewrite Ht. clear - Hba. destruct (decide (k' = k)) as [->|]; intuition congruence.
Qed.

Lemma save_cases io s :
  save iter io s = (s, Err SaveError) /\ io = false \/
  save iter io s = ({| pins := pins s; vpnToPub := vpnToPub s; file := Some (doc_of iter (pins s)) |}, Ok tt) /\ io = true.
Proof. destruct io; [by right|by left]. Qed.

(** What the check of a key at an address does to the store it keeps or
    writes. *)
Lemma Check_step io a pub s :
  store_ok s -> key_ok pub ->
  let k := pubKeyString pub in
  ((exists k', k' <> k /\ a ∈ held s k') /\ Check sha256 iter io a pub s = (s, Err ErrFingerprintMismatch)) \/
  (~ (exists k', k' <> k /\ a ∈ held s k') /\
   ((Check sha256 iter io a pub s = (s, Ok tt) /\ held s k = use_addr a (held s k)) \/
    exists s', Check sha256 iter io a pub s = save iter io s' /\ store_ok s' /\ file s' = file s /\
               held s' k = use_addr a (held s k) /\ forall k', k' <> k -> held s' k' = held s k')).
Proof.
  intros Hs Hpub k. pose proof (other_owner s a pub Hs) as Hoth. fold k in Hoth. unfold Check. fold k.
  destruct (match vpnToPub s !! a with Some owner => _ | None => false end) eqn:Eo.
  - left. split; [by apply Hoth|]. destruct (pins s !! k) as [v|] eqn:Ek; [|done].
    rewrite (pin_fingerprint pub v Hpub (so_pin s Hs _ _ Ek)), bool_decide_true by done. cbn.
    destruct (String.eqb_spec (VPNAddr v) a) as [Ea|]; [|done]. exfalso.
    destruct (proj1 Hoth eq_refl) as (k' & Hne & Hin). unfold held in Hin.
    destruct (pins s !! k') as [v'|] eqn:Ek'; [|by apply not_elem_of_nil in Hin].
    destruct Hne. apply (reserved_unique s _ _ v' v a Hs Ek' Ek Hin). rewrite <- Ea. by left.
  - right. split; [intros Hex; by apply Hoth in Hex|].
    assert (forall k', vpnToPub s !! a = Some k' -> k' = k) as Hfree.
    { intros k' E. rewrite E in Eo. by apply negb_false_iff, String.eqb_eq in Eo. }
    destruct (pins s !! k) as [v|] eqn:Ek.
    + pose proof (so_pin s Hs _ _ Ek) as Hok.
      rewrite (pin_fingerprint pub v Hpub Hok), bool_decide_true by done. cbn [negb].
      destruct (String.eqb_spec (VPNAddr v) a) as [Ea|Ea].
      * left. split; [done|]. unfold held. rewrite Ek. by apply same_addr with k.
      * right. eexists. split; [done|]. split_and!; [|done| |].
        -- rewrite <- (pin_fingerprint pub v Hpub Hok). apply (store_ok_put s); [done|by apply moved_pin_ok|].
           intros b k'. by apply moved_index.
        -- unfold held. cbn. rewrite lookup_insert_eq, Ek. by apply moved_addrs with k.
        -- intros k' Hne. unfold held. cbn. by rewrite lookup_insert_ne.
    + right. eexists. split; [done|]. split_and!; [|done| |].
      * apply (store_ok_put s); [done| |].
        { split; cbn; [done|by exists pub|apply NoDup_singleton|lia]. }
        intros b k'. rewrite lookup_insert_Some. unfold reserved. cbn. rewrite list_elem_of_singleton.
        assert (vpnToPub s !! b = Some k -> False) as Hk by (intros (v & Hv & _)%(so_vpn s Hs); congruence).
        naive_solver.
      * unfold held. cbn. by rewrite lookup_insert_eq, Ek.
      * intros k' Hne. unfold held. cbn. by rewrite lookup_insert_ne.
Qed.

Lemma held_ext s s' k : pins s = pins s' -> held s k = held s' k.
Proof. intros E. unfold held. by rewrite E. Qed.

Lemma save_ok io s s' res :
  save iter io s = (s', res) ->
  pins s' = pins s /\ vpnToPub s' = vpnToPub s /\ res <> Err ErrFingerprintMismatch /\ (io = true -> res = Ok tt) /\
  (file s' = file s /\ res = Err SaveError \/ file s' = Some (doc_of iter (pins s)) /\ res = Ok tt).
Proof.
  intros E. destruct (save_cases io s) as [[E' ->]|[E' ->]]; rewrite E in E'; injection E' as -> ->; cbn;
    split_and!; try done; [by left|by right].
Qed.

(** Checking a key at an address implements trust on first use: it is
    refused, without any change, exactly when another key holds the address now
    or held it among its last seventeen; otherwise the address becomes the most
    recent of the at most seventeen the key holds, nothing changes for the other
    keys, and the check can fail only because the file cannot be written. *)
Theorem Check_refines io a pub s s' res :
  store_ok s -> key_ok pub -> Check sha256 iter io a pub s = (s', res) ->
  let k := pubKeyString pub in
  ((exists k', k' <> k /\ a ∈ held s k') -> res = Err ErrFingerprintMismatch /\ s' = s) /\
  (~ (exists k', k' <> k /\ a ∈ held s k') ->
     held s' k = use_addr a (held s k) /\ (forall k', k' <> k -> held s' k' = held s k') /\ store_ok s' /\
     res <> Err ErrFingerprintMismatch /\ (io = true -> res = Ok tt)).
Proof.
  intros Hs Hpub E. cbv zeta. set (k := pubKeyString pub).
  destruct (Check_step io a pub s Hs Hpub) as [[Hex E']|[Hno [[E' Hh]|(s1 & E' & Hs1 & _ & Hk & Ho)]]]; rewrite E' in E.
  - injection E as <- <-. split; [done|]. by intros ?.
  - injection E as <- <-. split; [done|]. intros _. by split_and!.
  - apply save_ok in E as (Ep & Ev & Hm & Hio & _). split; [done|]. intros _.
    rewrite (held_ext s' s1 k) by done. split_and!; [done| | |done|done].
    + intros k' Hk'. rewrite (held_ext s' s1 k') by done. by apply Ho.
    + by apply (store_ok_ext s1).
Qed.

(** ** The file *)
Hypothesis sha256_ok : forall x, bytes_ok (sha256 x) /\ length (sha256 x) = 32%nat.
Hypothesis iter_perm : forall m, iter m ≡ₚ map_to_list m.

(** What is loaded from a list of pins. *)
Record loaded (l : list (string * pinValue)) (s : Store) : Prop := {
  ld_pins : forall k v, pins s !! k = Some v <-> (k, v) ∈ l;
  ld_vpn : forall a k, vpnToPub s !! a = Some k <-> exists v, (k, v) ∈ l /\ a ∈ reserved v
}.

Lemma pin_of_entry k v : pin_ok k v -> pin_of (entry_of v) = Some v.
Proof.
  intros Hok. pose proof (pin_key_nonempty k v Hok) as Hne. destruct Hok as [Hk (pub & Hpub & _ & Hf) _ _].
  unfold pin_of, entry_of. cbn [pe_Ed25519Pub pe_Fingerprint pe_VPNAddr pe_PrevVPNAddrs].
  destruct (String.eqb_spec (Ed25519Pub v) "") as [|_]; [congruence|]. cbn [orb].
  destruct (sha256_ok pub) as [Hb Hl]. rewrite Hf.
  destruct (String.eqb_spec (Hex.EncodeToString (sha256 pub)) "") as [E|_].
  { by apply (key_nonempty (sha256 pub)) in E. }
  rewrite Hex.Decode_EncodeToString, bind_Some_eq, Hl by done. cbn [Nat.eqb]. rewrite <- Hf. by destruct v.
Qed.

Lemma valid_entry_of k v : pin_ok k v -> valid_entry (entry_of v) = true.
Proof.
  intros Hok. pose proof (pin_of_entry k v Hok) as E. unfold pin_of in E. unfold valid_entry.
  by destruct (String.eqb (pe_Ed25519Pub (entry_of v)) ""), (String.eqb (pe_Fingerprint (entry_of v)) "").
Qed.

Lemma load_file l : forall s, file (foldl load_pin s l) = file s.
Proof. induction l as [|p l IH]; intros s; cbn [foldl]; [done|]. rewrite IH. unfold load_pin. by destruct (pin_of p). Qed.

(** The index after one more pin is loaded. *)
Lemma load_index (m : gmap string string) (l : list (string * pinValue)) k v a k' :
  (forall a k', m !! a = Some k' <-> exists v', (k', v') ∈ l /\ a ∈ reserved v') ->
  (forall v', (k, v') ∈ l -> False) ->
  (forall a k', m !! a = Some k' -> a ∈ reserved v -> False) ->
  (if decide (a ∈ PrevVPNAddrs v /\ <[VPNAddr v := k]> m !! a = None) then Some k else <[VPNAddr v := k]> m !! a) = Some k' <->
  exists v', ((k', v') ∈ l \/ (k', v') = (k, v)) /\ a ∈ reserved v'.
Proof.
  intros Hm Hnew Hfree. rewrite lookup_insert.
  destruct (decide (a ∈ reserved v)) as [Ha|Ha].
  - assert (m !! a = None) as Hn by (destruct (m !! a) eqn:E; [by apply Hfree in E|done]).
    assert ((if decide (a ∈ PrevVPNAddrs v /\ (if decide (VPNAddr v = a) then Some k else m !! a) = None)
             then Some k else if decide (VPNAddr v = a) then Some k else m !! a) = Some k) as ->.
    { unfold reserved in Ha. apply elem_of_cons in Ha. case_decide as Hd; [done|]. case_decide; [done|]. rewrite Hn in *. naive_solver. }
    split; [intros [= <-]; exists v; auto|]. intros (v' & [Hin|[= -> ->]] & Ha'); [|done].
    assert (m !! a = Some k') by (apply Hm; eauto). congruence.
  - unfold reserved in Ha. apply not_elem_of_cons in Ha as [Ha1 Ha2].
    rewrite decide_False by tauto. rewrite decide_False by congruence. rewrite Hm. split.
    + intros (v' & Hin & Ha). eauto.
    + intros (v' & [Hin|[= -> ->]] & Ha); [eauto|]. unfold reserved in Ha. apply elem_of_cons in Ha. tauto.
Qed.

Lemma load_all l :
  Forall (fun kv => pin_ok kv.1 kv.2) l -> NoDup l.*1 ->
  (forall k1 v1 k2 v2 a, (k1, v1) ∈ l -> (k2, v2) ∈ l -> a ∈ reserved v1 -> a ∈ reserved v2 -> k1 = k2) ->
  forall f, loaded l (foldl load_pin (empty_store f) (map (fun kv => entry_of kv.2) l)).
Proof.
  intros Hok Hnd Hdis f. induction l as [|[k v] l IH] using rev_ind.
  { split; intros ??; cbn; rewrite lookup_empty; set_solver. }
  apply Forall_app in Hok as [Hok Hkv]. rewrite Forall_singleton in Hkv. cbn in Hkv.
  rewrite fmap_app in Hnd. apply NoDup_app in Hnd as (Hnd & Hnk & _).
  assert (loaded l (foldl load_pin (empty_store f) (map (fun kv => entry_of kv.2) l))) as [Hp Hv].
  { apply IH; [done|done|]. intros k1 v1 k2 v2 a Hin1 Hin2. apply Hdis; apply elem_of_app; by left. }
  rewrite map_app, foldl_app. cbn [map foldl snd]. revert Hp Hv.
  generalize (foldl load_pin (empty_store f) (map (fun kv => entry_of kv.2) l)) as s0. intros s0 Hp Hv.
  unfold load_pin. rewrite (pin_of_entry k v Hkv), (pk_key k v Hkv).
  assert (forall v', (k, v') ∈ l -> False) as Hnew.
  { intros v' Hin. apply (Hnk k); [|by left]. apply list_elem_of_fmap. by exists (k, v'). }
  split; cbn [pins vpnToPub].
  - intros k' v'. rewrite lookup_insert_Some, Hp, elem_of_app, list_elem_of_singleton.
    destruct (decide (k' = k)) as [->|]; naive_solver.
  - intros a k'. rewrite lookup_reserve_all. setoid_rewrite elem_of_app. setoid_rewrite list_elem_of_singleton.
    apply load_index; [done|done|]. intros b k0 (v' & Hin & Hb)%Hv Hbv. apply (Hnew v'). replace k with k0; [done|].
    apply (Hdis k0 v' k v b); [apply elem_of_app; by left| |done|done]. apply elem_of_app. right. by left.
Qed.

Lemma reload io s :
  store_ok s ->
  exists s', New iter true io (Some (doc_of iter (pins s))) = Some s' /\
             pins s' = pins s /\ vpnToPub s' = vpnToPub s /\ file s' = Some (doc_of iter (pins s)).
Proof.
  intros Hs. unfold New, load, doc_of. cbn [as_store Pins].
  assert (loaded (iter (pins s)) (foldl load_pin (empty_store (Some (doc_of iter (pins s)))) (map (fun kv => entry_of kv.2) (iter (pins s)))))
    as Hl.
  { apply load_all.
    - apply Forall_forall. intros [k v] Hin. rewrite iter_perm in Hin. apply elem_of_map_to_list in Hin. by apply (so_pin s Hs).
    - rewrite iter_perm. apply NoDup_fst_map_to_list.
    - intros k1 v1 k2 v2 a. rewrite !iter_perm, !elem_of_map_to_list. by apply reserved_unique. }
  assert (forall s', loaded (iter (pins s)) s' -> pins s' = pins s /\ vpnToPub s' = vpnToPub s) as Heq.
  { intros s' [Hp Hv]. split; apply map_eq; intros i; apply option_eq; intros x.
    - by rewrite Hp, iter_perm, elem_of_map_to_list.
    - rewrite Hv, (so_vpn s Hs). by setoid_rewrite iter_perm; setoid_rewrite elem_of_map_to_list. }
  destruct (existsb valid_entry _) eqn:Ev.
  - eexists. split; [done|]. destruct (Heq _ Hl) as [Ep Eq]. split_and!; [done|done|]. apply load_file.
  - destruct (iter (pins s)) as [|[k v] l] eqn:Ei.
    + cbn. eexists. split; [done|]. destruct (Heq (empty_store (Some (doc_of iter (pins s))))) as [Ep Eq].
      { split; intros ??; cbn; rewrite lookup_empty; set_solver. }
      split_and!; [done|done|]. cbn. unfold doc_of. by rewrite ?Ei.
    + exfalso. assert (pin_ok k v) as Hok.
      { apply (so_pin s Hs), elem_of_map_to_list. rewrite <- iter_perm, Ei. by left. }
      cbn in Ev. apply orb_false_iff in Ev as [Ev _]. by rewrite (valid_entry_of k v Hok) in Ev.
Qed.

(** Pins survive a restart: a store that was saved is read back with the same
    pins and the same reserved addresses, in whatever order the pins were
    written. *)
Theorem reload_restores io s :
  store_ok s ->
  exists s', New iter true io (Some (doc_of iter (pins s))) = Some s' /\
             pins s' = pins s /\ vpnToPub s' = vpnToPub s /\ file s' = Some (doc_of iter (pins s)).
Proof. apply reload. Qed.

(** ** Runs

    The store of the daemon and its file.  [OpForgetVPN] is a call on that store;
    [OpCliForget] is the command [veld tofu forget], a process of its own that
    opens the file, forgets there and leaves the daemon's store alone. *)
Inductive op :=
| OpCheck (io : bool) (a : string) (pub : list Z)
| OpForget (io : bool) (pub : list Z)
| OpForgetVPN (io : bool) (a : string)
| OpCliForget (io : bool) (a : string)
| OpRestart (io : bool).

Definition step (s : Store) (o : op) : Store :=
  match o with
  | OpCheck io a pub => (Check sha256 iter io a pub s).1
  | OpForget io pub => (Forget iter io pub s).1
  | OpForgetVPN io a => (ForgetByVPNAddr iter io a s).1
  | OpCliForget io a =>
      match New iter true io (file s) with
      | Some c => {| pins := pins s; vpnToPub := vpnToPub s; file := file (ForgetByVPNAddr iter io a c).1 |}
      | None => s
      end
  | OpRestart io => default s (New iter true io (file s))
  end.

Definition op_ok (o : op) : Prop :=
  match o with OpCheck _ _ pub | OpForget _ pub => key_ok pub | _ => True end.

(** The file is absent or was saved from a store that satisfied the invariant. *)
Definition saved (f : option document) : Prop :=
  f = None \/ exists m v, store_ok {| pins := m; vpnToPub := v; file := None |} /\ f = Some (doc_of iter m).

Definition run_ok (s : Store) : Prop := store_ok s /\ saved (file s).

Lemma save_run_ok io s : store_ok s -> saved (file s) -> run_ok (save iter io s).1.
Proof.
  intros Hs Hf. destruct (save_cases io s) as [[-> _]|[-> _]]; [done|]. split; [by apply (store_ok_ext s)|].
  right. exists (pins s), (vpnToPub s). split; [by apply (store_ok_ext s)|done].
Qed.

Lemma empty_ok f : store_ok (empty_store f).
Proof. clear iter_perm sha256_ok. split; intros ??; cbn; rewrite lookup_empty; naive_solver. Qed.

Lemma restart_run_ok io f : saved f -> exists s, New iter true io f = Some s /\ run_ok s /\ file s = f.
Proof.
  intros [->|(m & v & Hs & ->)].
  - exists (empty_store None). split; [done|]. split; [|done]. split; [apply empty_ok|by left].
  - destruct (reload io _ Hs) as (s' & E & Ep & Ev & Ef). cbn [pins vpnToPub file] in *. exists s'. split; [done|]. split; [|done].
    split; [by apply (store_ok_ext {| pins := m; vpnToPub := v; file := None |})|]. right. by exists m, v.
Qed.

Lemma forget_run_ok io a s : run_ok s -> run_ok (ForgetByVPNAddr iter io a s).1.
Proof.
  intros [Hs Hf]. unfold ForgetByVPNAddr. destruct (vpnToPub s !! a) as [k|] eqn:Ea; [|by apply save_run_ok].
  apply (so_vpn s Hs) in Ea as (v & Ek & _). rewrite Ek. apply save_run_ok; [|done].
  apply store_ok_unpin; [done|]. by rewrite (pk_key _ _ (so_pin s Hs _ _ Ek)).
Qed.

Lemma tofu_step_ok s o : op_ok o -> run_ok s -> run_ok (step s o).
Proof.
  intros Ho [Hs Hf]. destruct o as [io a pub|io pub|io a|io a|io]; cbn [step] in *.
  - destruct (Check_step io a pub s Hs Ho) as [[_ ->]|[_ [[-> _]|(s1 & -> & Hs1 & Ef & _)]]]; [by split..|].
    apply save_run_ok; [done|by rewrite Ef].
  - unfold Forget. apply save_run_ok; destruct (pins s !! pubKeyString pub) as [v|] eqn:Ek; try done.
    apply store_ok_unpin; [done|]. by rewrite (pk_key _ _ (so_pin s Hs _ _ Ek)).
  - by apply forget_run_ok.
  - destruct (restart_run_ok io (file s) Hf) as (c & -> & Hc & _). split; [by apply (store_ok_ext s)|]. by apply forget_run_ok.
  - destruct (restart_run_ok io (file s) Hf) as (s' & -> & Hs' & _). done.
Qed.

Lemma steps_ok ops s : Forall op_ok ops -> run_ok s -> run_ok (foldl step s ops).
Proof. intros Ho. revert s. induction Ho as [|o ops Ho _ IH]; intros s Hs; cbn; [done|]. apply IH. by apply tofu_step_ok. Qed.

(** Along any sequence of checks, forgettings, restarts and failures to write
    the file, every address is reserved for exactly one key, the index of
    addresses agrees with the pins, a pin holds at most seventeen distinct
    addresses and the fingerprint of its own key. *)
Theorem tofu_invariant ops : Forall op_ok ops -> store_ok (foldl step (empty_store None) ops).
Proof. intros Ho. apply steps_ok; [done|]. split; [apply empty_ok|by left]. Qed.

(** ** A pinned address stays refused to other keys *)

(** The address an operation moves a key to. *)
Definition moved_to (pub : list Z) (o : op) : option string :=
  match o with OpCheck _ b p => if decide (p = pub) then Some b else None | _ => None end.

(** The other addresses a key is seen at. *)
Definition moves (pub : list Z) (a : string) (ops : list op) : gset string :=
  list_to_set (omap (moved_to pub) ops) ∖ {[a]}.

(** An address is held behind at most the addresses of a set. *)
Definition behind (D : gset string) (a : string) (l : list string) : Prop :=
  exists pre post, l = pre ++ a :: post /\ list_to_set pre ⊆ D.

Lemma use_addr_behind D a b l :
  NoDup l -> behind D a l -> b = a \/ b ∈ D -> (size D <= maxPrevVPNAddrs)%nat -> behind D a (use_addr b l).
Proof.
  intros Hnd (pre & post & -> & Hsub) Hb Hsz. unfold use_addr. destruct (decide (b = a)) as [->|Hne].
  { exists [], (take maxPrevVPNAddrs (filter (fun c => c <> a) (pre ++ a :: post))). split; [done|set_solver]. }
  destruct Hb as [|Hb]; [done|]. rewrite filter_app, filter_cons_True by done.
  assert (length (b :: filter (fun c => c <> b) pre) <= size D)%nat as Hl.
  { apply NoDup_app in Hnd as (Hnd & _ & _). rewrite <- (size_list_to_set (C := gset string)).
    - apply subseteq_size. intros c. rewrite list_to_set_cons, elem_of_union, elem_of_singleton, elem_of_list_to_set, list_elem_of_filter.
      intros [->|[_ Hc]]; [done|]. apply Hsub. by apply elem_of_list_to_set.
    - apply NoDup_cons. rewrite list_elem_of_filter. split; [tauto|by apply NoDup_filter]. }
  exists (b :: filter (fun c => c <> b) pre), (take (S maxPrevVPNAddrs - length (b :: filter (fun c => c <> b) pre) - 1) (filter (fun c => c <> b) post)).
  split.
  - rewrite app_comm_cons, take_app_ge by lia. f_equal.
    destruct (S maxPrevVPNAddrs - length (b :: filter (fun c => c <> b) pre))%nat eqn:E; [lia|]. cbn [take]. by rewrite Nat.sub_1_r.
  - intros c. rewrite list_to_set_cons, elem_of_union, elem_of_singleton, elem_of_list_to_set, list_elem_of_filter.
    intros [->|[_ Hc]]; [done|]. apply Hsub. by apply elem_of_list_to_set.
Qed.

(** What a restart would read. *)
Definition disk (s : Store) : Store := step s (OpRestart true).

(** An operation that does not forget a key: the removals are of other keys and
    of addresses that the key does not hold, in the store they act on.  Any of
    its writes may fail. *)
Definition keeps (pub : list Z) (s : Store) (o : op) : Prop :=
  match o with
  | OpCheck _ _ _ | OpRestart _ => True
  | OpForget _ p => p <> pub
  | OpForgetVPN _ b => b ∉ held s (pubKeyString pub)
  | OpCliForget _ b => b ∉ held (disk s) (pubKeyString pub)
  end.

Fixpoint all_keep (pub : list Z) (s : Store) (ops : list op) : Prop :=
  match ops with
  | [] => True
  | o :: ops => keeps pub s o /\ all_keep pub (step s o) ops
  end.

Definition synced (s : Store) : Prop := file s = Some (doc_of iter (pins s)).

Lemma held_NoDup s k : store_ok s -> NoDup (held s k).
Proof. intros Hs. unfold held. destruct (pins s !! k) eqn:E; [|apply NoDup_nil_2]. apply (so_pin s Hs) in E. apply E. Qed.

(** Nothing is written while such a file is read. *)
Lemma restart_io io f : saved f -> New iter true io f = New iter true true f.
Proof.
  intros [->|(m & v & Hm & ->)]; [done|].
  destruct (reload true _ Hm) as (s1 & E1 & P1 & V1 & F1). destruct (reload io _ Hm) as (s2 & E2 & P2 & V2 & F2).
  cbn [pins] in *. rewrite E1, E2. f_equal. destruct s1, s2. cbn in *. congruence.
Qed.

(** What is on disk depends on the file only, and is the store itself after a
    save. *)
Lemma disk_file s s' k : saved (file s) -> file s = file s' -> held (disk s) k = held (disk s') k.
Proof.
  intros Hf E. unfold disk. cbn [step]. rewrite <- E. by destruct (restart_run_ok true (file s) Hf) as (c & -> & _).
Qed.

Lemma disk_synced s k : store_ok s -> synced s -> held (disk s) k = held s k.
Proof.
  intros Hs Hsy. unfold disk. cbn [step]. rewrite Hsy. destruct (reload true s Hs) as (s' & -> & Ep & _). by apply held_ext.
Qed.

(** The key holds the address in memory and on disk. *)
Definition both (D : gset string) (a k : string) (s : Store) : Prop := behind D a (held s k) /\ behind D a (held (disk s) k).

Lemma both_save D a k io s : run_ok s -> both D a k s -> both D a k (save iter io s).1.
Proof.
  intros [Hs Hf] [Hm Hd]. destruct (save_cases io s) as [[-> _]|[-> _]]; [done|]. cbn [fst]. unfold both.
  rewrite disk_synced; [by rewrite (held_ext _ s)|by apply (store_ok_ext s)|done].
Qed.

(** A store changed in memory only. *)
Lemma both_memory D a k s s1 :
  saved (file s) -> file s1 = file s -> behind D a (held s1 k) -> both D a k s -> both D a k s1.
Proof. intros Hf E Hm [_ Hd]. split; [done|]. by rewrite (disk_file s1 s) by (by rewrite ?E). Qed.

Lemma unpin_held s v k : Ed25519Pub v <> k -> held (unpin v s) k = held s k.
Proof. intros Hne. unfold held. cbn [pins unpin]. by rewrite lookup_delete_ne. Qed.

Lemma forget_both D a io b pub s :
  run_ok s -> (b ∉ held s (pubKeyString pub)) -> both D a (pubKeyString pub) s ->
  both D a (pubKeyString pub) (ForgetByVPNAddr iter io b s).1.
Proof.
  intros Hrun Hb Hboth. pose proof Hrun as [Hs Hf]. unfold ForgetByVPNAddr. destruct (vpnToPub s !! b) as [k|] eqn:Eb; [|by apply both_save].
  apply (so_vpn s Hs) in Eb as (v & Ek & Hin). rewrite Ek. pose proof (pk_key _ _ (so_pin s Hs _ _ Ek)) as Hk.
  assert (k <> pubKeyString pub) as Hne by (intros ->; apply Hb; unfold held; by rewrite Ek).
  apply both_save; [split; [|done]; apply store_ok_unpin; [done|by rewrite Hk]|].
  apply (both_memory D a _ s); [done|done| |done]. rewrite unpin_held; [apply Hboth|by rewrite Hk].
Qed.

Lemma step_both D s o pub a :
  run_ok s -> op_ok o -> key_ok pub -> keeps pub s o -> both D a (pubKeyString pub) s ->
  (forall b, moved_to pub o = Some b -> b = a \/ b ∈ D) -> (size D <= maxPrevVPNAddrs)%nat ->
  both D a (pubKeyString pub) (step s o).
Proof.
  intros Hrun Ho Hpub Hk Hh HD Hsz. pose proof Hrun as [Hs Hf].
  destruct o as [io b p|io p|io b|io b|io]; cbn [keeps moved_to op_ok] in *.
  - cbn [step]. destruct (Check_step io b p s Hs Ho) as [[_ ->]|[_ [[-> _]|(s1 & -> & Hs1 & Ef & Hu & Hoth)]]]; [done..|].
    apply both_save; [split; [done|by rewrite Ef]|]. apply (both_memory D a _ s); [done|done| |done].
    destruct (decide (p = pub)) as [->|Hp].
    + rewrite Hu. apply use_addr_behind; [by apply held_NoDup|apply Hh|by apply HD|done].
    + rewrite Hoth; [apply Hh|]. intros E. apply Hp. symmetry. apply Hex.EncodeToString_inj; [apply Hpub|apply Ho|done].
  - cbn [step]. unfold Forget. destruct (pins s !! pubKeyString p) as [v|] eqn:Ev; [|by apply both_save].
    pose proof (pk_key _ _ (so_pin s Hs _ _ Ev)) as Ek.
    apply both_save; [split; [apply store_ok_unpin; [done|by rewrite Ek]|done]|].
    apply (both_memory D a _ s); [done|done| |done]. rewrite unpin_held; [apply Hh|].
    rewrite Ek. intros E. apply Hk. apply Hex.EncodeToString_inj; [apply Ho|apply Hpub|done].
  - by apply forget_both.
  - cbn [step]. rewrite restart_io by done. destruct (restart_run_ok true (file s) Hf) as (c & Ec & Hc & Efc).
    assert (disk s = c) as Ed by (unfold disk; cbn [step]; by rewrite Ec). rewrite Ec. unfold both in Hh. rewrite Ed in Hk, Hh.
    assert (both D a (pubKeyString pub) c) as Hcb.
    { split; [apply Hh|]. rewrite (disk_file c s), Ed by (rewrite ?Efc; done). apply Hh. }
    destruct (forget_both D a io b pub c Hc Hk Hcb) as [_ Hd]. split; [apply Hh|].
    rewrite (disk_file _ (ForgetByVPNAddr iter io b c).1); [done| |done]. cbn [file]. by apply forget_run_ok.
  - cbn [step]. rewrite restart_io by done. destruct (restart_run_ok true (file s) Hf) as (c & Ec & Hc & Efc).
    assert (disk s = c) as Ed by (unfold disk; cbn [step]; by rewrite Ec). unfold both in Hh. rewrite Ed in Hh. rewrite Ec.
    cbn [default from_option id]. split; [apply Hh|]. rewrite (disk_file c s), Ed by (rewrite ?Efc; done). apply Hh.
Qed.

Lemma moves_cons (D : gset string) pub a o ops :
  moves pub a (o :: ops) ⊆ D -> (forall b, moved_to pub o = Some b -> b = a \/ b ∈ D) /\ moves pub a ops ⊆ D.
Proof.
  clear sha256_ok iter_perm. unfold moves. cbn [omap list_omap]. destruct (moved_to pub o) as [c|]; [|done].
  intros HD. split; [|set_solver]. intros b [= <-]. destruct (decide (c = a)); [by left|right]. set_solver.
Qed.

Lemma run_both D pub a ops : forall s,
  run_ok s -> Forall op_ok ops -> key_ok pub -> all_keep pub s ops ->
  both D a (pubKeyString pub) s -> moves pub a ops ⊆ D -> (size D <= maxPrevVPNAddrs)%nat ->
  a ∈ held (foldl step s ops) (pubKeyString pub).
Proof.
  induction ops as [|o ops IH]; intros s Hs Hok Hpub Hk Hh HD Hsz; cbn [foldl].
  { destruct Hh as [(pre & post & -> & _) _]. apply elem_of_app. right. by left. }
  apply Forall_cons in Hok as [Ho Hok]. destruct Hk as [Hko Hk]. apply moves_cons in HD as [HDo HD].
  apply IH; try done; [by apply tofu_step_ok|by apply step_both].
Qed.

(** C19: Once a key is accepted at an address and the file holds the pin, no other
    key is accepted there.  Between may lie any checks of any keys, restarts,
    writes of the file that fail, removals of other keys and removals by
    addresses that the key does not hold, in the daemon or by the command line
    program on the file; and the key itself may have been seen at up to sixteen
    other addresses. *)
Theorem pinned_address_refused s s1 ops a pub pub' io0 io :
  run_ok s -> key_ok pub -> key_ok pub' -> pub <> pub' ->
  Check sha256 iter io0 a pub s = (s1, Ok tt) -> synced s1 ->
  Forall op_ok ops -> all_keep pub s1 ops -> (size (moves pub a ops) <= maxPrevVPNAddrs)%nat ->
  let s2 := foldl step s1 ops in Check sha256 iter io a pub' s2 = (s2, Err ErrFingerprintMismatch).
Proof.
  intros Hs Hpub Hpub' Hne E Hsy Hok Hk Hn s2.
  assert (run_ok s1) as Hs1 by (pose proof (tofu_step_ok s (OpCheck io0 a pub) Hpub Hs) as Hr; cbn in Hr; by rewrite E in Hr).
  assert (both (moves pub a ops) a (pubKeyString pub) s1) as H0.
  { assert (forall l l', l' = use_addr a l -> behind (moves pub a ops) a l') as Hu' by (intros l l' ->; exists []; eexists; split; [done|set_solver]).
    unfold both. rewrite (disk_synced s1) by (done || apply Hs1).
    destruct (Check_step io0 a pub s (proj1 Hs) Hpub) as [[_ E']|[_ [[E' Hh]|(s' & E' & _ & _ & Hh & _)]]];
      rewrite E' in E; [done|injection E as <-; split; by eapply Hu'|].
    apply save_ok in E as (Ep & _). rewrite (held_ext _ s') by done. split; by eapply Hu'. }
  destruct (steps_ok ops s1 Hok Hs1) as [Hs2 _].
  destruct (Check_step io a pub' s2 Hs2 Hpub') as [[_ E2]|[Hno _]]; [done|]. destruct Hno.
  exists (pubKeyString pub). split; [|by apply (run_both (moves pub a ops))].
  intros Eq. apply Hne. apply Hex.EncodeToString_inj; [apply Hpub|apply Hpub'|done].
Qed.

(** A pin whose first save fails is accepted from memory later without being
    written again, so a restart forgets it. *)
Lemma unsaved_pin_accepted a pub s io :
  store_ok s -> key_ok pub -> pins s !! pubKeyString pub = None -> vpnToPub s !! a = None ->
  exists s1, Check sha256 iter false a pub s = (s1, Err SaveError) /\
             Check sha256 iter io a pub s1 = (s1, Ok tt) /\ file s1 = file s.
Proof.
  intros Hs Hpub Hk Ha. unfold Check at 1. rewrite Hk, Ha. eexists. split; [done|]. unfold Check. cbn.
  rewrite !lookup_insert_eq. cbn. by rewrite bool_decide_true, String.eqb_refl by done.
Qed.

End Proofs.

(** ** A small store

    Two keys; the hash is a constant, the iteration order that of [gmap]. *)
Definition demo_hash (_ : list Z) : list Z := zeros 32.
Definition demo_iter (m : gmap string pinValue) : list (string * pinValue) := map_to_list m.
Definition demo_pub (b : Z) : list Z := replicate 32 b.

Lemma demo_hash_ok x : bytes_ok (demo_hash x) /\ length (demo_hash x) = 32%nat.
Proof. split; [apply zeros_ok|done]. Qed.
Lemma demo_iter_perm m : demo_iter m ≡ₚ map_to_list m.
Proof. done. Qed.
Lemma demo_pub_ok : key_ok (demo_pub 1) /\ key_ok (demo_pub 2).
Proof. split; (split; [apply Forall_replicate; unfold byte_ok; lia|done]). Qed.

Definition demo_step := step demo_hash demo_iter.
Definition demo_first : list op := [OpCheck true "10.0.0.2" (demo_pub 1)].
Definition demo_store : Store := foldl demo_step (empty_store None) demo_first.
Definition demo_later : list op :=
  [OpCheck true "10.0.0.9" (demo_pub 2); OpCheck false "10.0.0.3" (demo_pub 1); OpForgetVPN true "10.0.0.9"; OpRestart true;
   OpForget true (demo_pub 2); OpCheck true "10.0.0.4" (demo_pub 1); OpCliForget true "10.0.0.8"].

Lemma demo_first_ok : Forall op_ok demo_first.
Proof. repeat (apply Forall_cons; split; [first [apply demo_pub_ok|exact I]|]). apply Forall_nil. exact I. Qed.
Lemma demo_later_ok : Forall op_ok demo_later.
Proof. repeat (apply Forall_cons; split; [first [apply demo_pub_ok|exact I]|]). apply Forall_nil. exact I. Qed.

(** The key of the first check stays at its addresses. *)
Lemma demo_keeps : all_keep demo_hash demo_iter (demo_pub 1) demo_store demo_later.
Proof.
  unfold demo_later. cbn [all_keep keeps]. split_and!; try exact I; try (vm_compute; intros; discriminate).
  all: apply (bool_decide_unpack _); vm_compute; exact I.
Qed.

Lemma tofu_invariant_witness :
  Forall op_ok (demo_first ++ demo_later) /\ store_ok demo_hash (foldl demo_step (empty_store None) (demo_first ++ demo_later)).
Proof.
  split; [apply Forall_app; split; [apply demo_first_ok|apply demo_later_ok]|].
  apply (tofu_invariant demo_hash demo_iter demo_hash_ok demo_iter_perm).
  apply Forall_app; split; [apply demo_first_ok|apply demo_later_ok].
Defined.

Lemma demo_tofu_ok : run_ok demo_hash demo_iter demo_store.
Proof.
  apply (steps_ok demo_hash demo_iter demo_hash_ok demo_iter_perm); [apply demo_first_ok|].
  split; [by apply (empty_ok demo_hash)|by left].
Qed.

Lemma Check_refines_witness :
  held demo_store (pubKeyString (demo_pub 1)) = ["10.0.0.2"%string] /\
  Check demo_hash demo_iter true "10.0.0.2" (demo_pub 2) demo_store = (demo_store, Err ErrFingerprintMismatch).
Proof.
  split; [by vm_compute|].
  destruct (Check demo_hash demo_iter true "10.0.0.2" (demo_pub 2) demo_store) as [s' res] eqn:E.
  destruct (Check_refines demo_hash demo_iter true "10.0.0.2" (demo_pub 2) demo_store s' res
              (proj1 demo_tofu_ok) (proj2 demo_pub_ok) E) as [Hrej _].
  destruct Hrej as [-> ->]; [|done]. exists (pubKeyString (demo_pub 1)). split; [by vm_compute|].
  vm_compute. by left.
Defined.

Lemma reload_restores_witness :
  exists s', New demo_iter true true (file demo_store) = Some s' /\ pins s' = pins demo_store /\
             vpnToPub s' = vpnToPub demo_store /\ file s' = file demo_store.
Proof.
  change (file demo_store) with (Some (doc_of demo_iter (pins demo_store))).
  apply (reload_restores demo_hash demo_iter demo_hash_ok demo_iter_perm). apply demo_tofu_ok.
Defined.

Lemma pinned_address_refused_witness :
  held (foldl demo_step demo_store demo_later) (pubKeyString (demo_pub 1)) = ["10.0.0.4"; "10.0.0.3"; "10.0.0.2"]%string /\
  Check demo_hash demo_iter true "10.0.0.2" (demo_pub 2) (foldl demo_step demo_store demo_later) =
    (foldl demo_step demo_store demo_later, Err ErrFingerprintMismatch).
Proof.
  split; [by vm_compute|].
  apply (pinned_address_refused demo_hash demo_iter demo_hash_ok demo_iter_perm demo_store demo_store demo_later
           "10.0.0.2" (demo_pub 1) (demo_pub 2) true true).
  - apply demo_tofu_ok.
  - apply demo_pub_ok.
  - apply demo_pub_ok.
  - by vm_compute.
  - vm_compute; reflexivity.
  - vm_compute; reflexivity.
  - apply demo_later_ok.
  - apply demo_keeps.
  - vm_compute; lia.
Defined.

(** The command line program forgets a pin in the file; the running daemon goes
    on refusing the new key and its next save puts the pin back. *)
Example cli_forget_undone :
  let s1 := demo_step demo_store (OpCliForget true "10.0.0.2") in
  let s2 := demo_step (demo_step s1 (OpCheck true "10.0.0.7" (demo_pub 3))) (OpRestart true) in
  snd (Check demo_hash demo_iter true "10.0.0.2" (demo_pub 2) s1) = Err ErrFingerprintMismatch /\
  snd (Check demo_hash demo_iter true "10.0.0.2" (demo_pub 2) s2) = Err ErrFingerprintMismatch /\
  snd (Check demo_hash demo_iter true "10.0.0.2" (demo_pub 2) (demo_step s1 (OpRestart true))) = Ok tt.
Proof. by vm_compute. Qed.

(** The first save fails, the pin is accepted from memory, the restart forgets
    it, and the address goes to another key. *)
Example unsaved_pin_lost :
  let s1 := (Check demo_hash demo_iter false "10.0.0.2" (demo_pub 1) (empty_store None)).1 in
  let s2 := (Check demo_hash demo_iter true "10.0.0.2" (demo_pub 1) s1).1 in
  snd (Check demo_hash demo_iter true "10.0.0.2" (demo_pub 1) s1) = Ok tt /\
  snd (Check demo_hash demo_iter true "10.0.0.2" (demo_pub 2) (demo_step s2 (OpRestart true))) = Ok tt.
Proof. by vm_compute. Qed.

End Tofu.
