(* ===== verification/Noise.v ===== *)
(** * Identities and the Noise IK handshake

    Models [src/internal/crypto/keys.go] and [src/internal/crypto/noise.go].
    The Noise library, Ed25519, X25519 and SHA-256 are an interface, the class
    [NoiseLib]; what the end-to-end theorems need of the library's IK handshake
    is the class [NoiseIK], which states its documented completeness.  Random
    bytes are arguments, [None] being a failure of the generator; [now] is the
    clock read by [VerifyPeerSig].  A [None] result is [ErrHandshakeDrop]. *)
From Stdlib Require Import ZArith Lia.
From stdpp Require Import base numbers list gmap strings.
From S2P Require Import Prelude Session GoLib.

Module Noise.
#[local] Open Scope veld_scope.
Abbreviation Cipher := Session.Session.Cipher.
Abbreviation HandshakeResult := Session.Session.HandshakeResult.

(** ** Third-party code *)
Class NoiseLib := {
  HandshakeState : Type;
  new_initiator : list Z -> list Z -> list Z -> option HandshakeState;   (* private, public, peer static *)
  new_responder : list Z -> list Z -> option HandshakeState;
  (* the randomness for the ephemeral key, the payload; the cipher states are
     those of the last message, junk before *)
  WriteMessage : list Z -> HandshakeState -> list Z -> option (HandshakeState * list Z * Cipher * Cipher);
  ReadMessage : HandshakeState -> list Z -> option (HandshakeState * list Z * Cipher * Cipher);
  PeerStatic : HandshakeState -> list Z;
  sign : list Z -> list Z -> list Z;                 (* private key, message *)
  verify : list Z -> list Z -> list Z -> bool;       (* public key, message, signature *)
  public_of : list Z -> list Z;                      (* Ed25519 *)
  X25519 : list Z -> option (list Z);                (* multiple of the base point *)
  sha256 : list Z -> list Z
}.

(** ** Identities *)
Record Identity := {
  Ed25519Private : list Z;         (* 64 bytes *)
  Ed25519Public : list Z;          (* 32 bytes *)
  X25519Private : list Z;
  X25519Public : list Z;
  X25519Sig : list Z               (* 64 bytes *)
}.

Inductive identity_error :=
| ErrGenerate | ErrPrivateSize | ErrPublicMismatch | ErrSelfTest | ErrZeroX25519 | ErrDerive | ErrX25519Mismatch | ErrX25519Sig.

(** The array after [copy(dst[:n], src)]. *)
Definition array (n : nat) (l : list Z) : list Z := take n (l ++ zeros n).

(** RFC 7748 clamping, written on the bytes. *)
Definition clamp (priv : list Z) : list Z :=
  let p1 := alter (fun b => Z.land b 248) 0%nat priv in
  let p2 := alter (fun b => Z.land b 127) 31%nat p1 in
  alter (fun b => Z.lor b 64) 31%nat p2.

Definition selfTestMsg : list Z := bytes_of_string "veld-keystore-self-test".

Section Crypto.
Context `{NoiseLib}.

Definition selfTest (id : Identity) : result identity_error unit :=
  _ <-! guard_err (length (Ed25519Private id) =? 64)%nat ErrPrivateSize;
  _ <-! guard_err (bool_decide (Ed25519Public id = public_of (Ed25519Private id))) ErrPublicMismatch;
  _ <-! guard_err (verify (Ed25519Public id) selfTestMsg (sign (Ed25519Private id) selfTestMsg)) ErrSelfTest;
  _ <-! guard_err (negb (forallb (Z.eqb 0) (X25519Private id))) ErrZeroX25519;
  match X25519 (X25519Private id) with
  | None => Err ErrDerive
  | Some derived =>
      _ <-! guard_err (bool_decide (array 32 derived = X25519Public id)) ErrX25519Mismatch;
      guard_err (verify (Ed25519Public id) (X25519Public id) (X25519Sig id)) ErrX25519Sig
  end.

(** [Generate] from the private key Ed25519 generated and 32 random bytes. *)
Definition Generate (priv random : option (list Z)) : result identity_error Identity :=
  match priv, random with
  | Some priv, Some random =>
      let x := clamp random in
      match X25519 x with
      | None => Err ErrGenerate
      | Some pub =>
          let xpub := array 32 pub in
          let id := {| Ed25519Private := priv; Ed25519Public := public_of priv; X25519Private := x;
                       X25519Public := xpub; X25519Sig := array 64 (sign priv xpub) |} in
          _ <-! selfTest id; Ok id
      end
  | _, _ => Err ErrGenerate
  end.

Definition Fingerprint (id : Identity) : string := Hex.EncodeToString (sha256 (Ed25519Public id)).
Definition FingerprintBytes (pub : list Z) : list Z := sha256 pub.

(** ** Signatures of the handshake *)
Definition second : Z := 1000000000.
Definition MaxTimestampSkew : Z := 30 * second.

(** [byte((ts >> (56 - 8*i)) & 0xFF)] for [i] from 0 to 7. *)
Definition ts_bytes (ts : Z) : list Z :=
  map (fun i => Z.land (Z.shiftr ts (56 - 8 * i)) 0xFF) [0; 1; 2; 3; 4; 5; 6; 7].

Definition sig_message (signerX otherX : list Z) (ts : Z) : list Z := signerX ++ otherX ++ ts_bytes ts.

Definition SignForPeer (id : Identity) (theirX : list Z) (ts : Z) : list Z :=
  array 64 (sign (Ed25519Private id) (sig_message (X25519Public id) theirX ts)).

Definition NormalizeTimestamp (raw : Z) : Z :=
  if 1000000000000 <? raw then raw else i64 (raw * 1000000000).

Definition VerifyPeerSig (peerEd peerX ourX sig : list Z) (ts now : Z) : bool :=
  verify peerEd (sig_message peerX ourX ts) sig &&
  (let diff := i64 (now - NormalizeTimestamp ts) in
   negb ((diff <? - MaxTimestampSkew) || (MaxTimestampSkew <? diff))).

(** ** The initiator *)
Record InitiatorHS := {
  i_localID : Identity;
  i_peerX25519 : list Z;
  i_networkID : list Z;
  i_ephSeed : list Z;
  i_payload1 : option (list Z)
}.

Definition NewInitiatorHS (localID : Identity) (peerX25519 networkID : list Z) (random : option (list Z)) : option InitiatorHS :=
  seed ← random;
  Some {| i_localID := localID; i_peerX25519 := peerX25519; i_networkID := networkID; i_ephSeed := seed; i_payload1 := None |}.

Definition state (h : InitiatorHS) : option HandshakeState :=
  new_initiator (X25519Private (i_localID h)) (X25519Public (i_localID h)) (i_peerX25519 h).

Definition payload1 (id : Identity) (sig networkID : list Z) (ts : Z) : list Z :=
  array 32 (Ed25519Public id) ++ sig ++ networkID ++ be_put 8 (u64 ts).

Definition BuildMessage1 (h : InitiatorHS) (nowNano : Z) : option (InitiatorHS * list Z) :=
  let sig := SignForPeer (i_localID h) (i_peerX25519 h) nowNano in
  let payload := payload1 (i_localID h) sig (i_networkID h) nowNano in
  hs ← state h;
  '(_, msg, _, _) ← WriteMessage (i_ephSeed h) hs payload;
  Some ({| i_localID := i_localID h; i_peerX25519 := i_peerX25519 h; i_networkID := i_networkID h;
           i_ephSeed := i_ephSeed h; i_payload1 := Some payload |}, msg).

(** [payload[i:j]] of a payload whose length was checked. *)
Definition field (l : list Z) (i j : nat) : list Z := take (j - i) (drop i l).

Definition ProcessMessage2 (h : InitiatorHS) (msg : list Z) (now : Z) : option HandshakeResult :=
  p1 ← i_payload1 h;
  hs ← state h;
  '(hs, _, _, _) ← WriteMessage (i_ephSeed h) hs p1;
  '(_, payload, cs1, cs2) ← ReadMessage hs msg;
  if negb (length payload =? 112)%nat then None
  else
    let peerEd := field payload 0 32 in
    let sig := field payload 32 96 in
    let ts := i64 (be_get (field payload 104 112)) in
    if negb (VerifyPeerSig peerEd (i_peerX25519 h) (X25519Public (i_localID h)) sig ts now) then None
    else Some {| Session.Session.hr_SendCS := cs1; Session.Session.hr_RecvCS := cs2;
                 Session.Session.hr_SessionID := field payload 96 104;
                 Session.Session.hr_PeerEd25519Public := peerEd;
                 Session.Session.hr_NetworkID := i_networkID h |}.

(** ** The responder *)
Record ResponderHS := {
  r_hs : HandshakeState;
  r_localID : Identity;
  r_peerLookup : list Z -> option (list Z);
  r_peerX25519 : list Z;
  r_peerEd25519Public : list Z;
  r_networkID : list Z
}.

Definition NewResponderHS (localID : Identity) (peerLookup : list Z -> option (list Z)) : option ResponderHS :=
  hs ← new_responder (X25519Private localID) (X25519Public localID);
  Some {| r_hs := hs; r_localID := localID; r_peerLookup := peerLookup;
          r_peerX25519 := zeros 32; r_peerEd25519Public := []; r_networkID := zeros 16 |}.

(** The new responder state and the timestamp. *)
Definition ProcessMessage1 (h : ResponderHS) (msg : list Z) (now : Z) : option (ResponderHS * Z) :=
  '(hs, payload, _, _) ← ReadMessage (r_hs h) msg;
  if negb (length payload =? 120)%nat then None
  else
    let peerEd := field payload 0 32 in
    let sig := field payload 32 96 in
    let networkID := field payload 96 112 in
    let ts := i64 (be_get (field payload 112 120)) in
    let peerX := PeerStatic hs in
    if negb (length peerX =? 32)%nat then None
    else
      registered ← r_peerLookup h peerEd;
      if negb (bool_decide (peerX = registered)) then None
      else if negb (VerifyPeerSig peerEd peerX (X25519Public (r_localID h)) sig ts now) then None
      else Some ({| r_hs := hs; r_localID := r_localID h; r_peerLookup := r_peerLookup h; r_peerX25519 := peerX;
                    r_peerEd25519Public := peerEd; r_networkID := networkID |}, ts).

Definition payload2 (id : Identity) (sig sessionID : list Z) (ts : Z) : list Z :=
  array 32 (Ed25519Public id) ++ sig ++ sessionID ++ be_put 8 (u64 ts).

(** [eph] is what the library draws for its ephemeral key. *)
Definition BuildMessage2 (h : ResponderHS) (random : option (list Z)) (eph : list Z) (nowNano : Z)
  : option (list Z * HandshakeResult) :=
  let sig := SignForPeer (r_localID h) (r_peerX25519 h) nowNano in
  sessionID ← random;
  '(_, msg, cs1, cs2) ← WriteMessage eph (r_hs h) (payload2 (r_localID h) sig sessionID nowNano);
  Some (msg, {| Session.Session.hr_SendCS := cs2; Session.Session.hr_RecvCS := cs1;
                Session.Session.hr_SessionID := sessionID;
                Session.Session.hr_PeerEd25519Public := r_peerEd25519Public h;
                Session.Session.hr_NetworkID := r_networkID h |}).

End Crypto.

(** ** What the library's IK handshake promises

    An initiator that knows the responder's static key: the responder decrypts
    message 1 to the payload and to the initiator's static key, the initiator
    decrypts the responder's message 2, and the cipher states pair up.  The
    initiator's state after message 1 depends on the seed and the payload only. *)
Class NoiseIK `{NoiseLib} := {
  key_pair : list Z -> list Z -> Prop;
  ik_completes : forall ipriv ipub rpriv rpub seed eph p1 p2,
    key_pair ipriv ipub -> key_pair rpriv rpub ->
    exists hi hi1 m1 x1 y1 hr hr1 x2 y2 hr2 m2 rc1 rc2 hi2 ic1 ic2,
      new_initiator ipriv ipub rpub = Some hi /\ WriteMessage seed hi p1 = Some (hi1, m1, x1, y1) /\
      new_responder rpriv rpub = Some hr /\ ReadMessage hr m1 = Some (hr1, p1, x2, y2) /\ PeerStatic hr1 = ipub /\
      WriteMessage eph hr1 p2 = Some (hr2, m2, rc1, rc2) /\ ReadMessage hi1 m2 = Some (hi2, p2, ic1, ic2) /\
      Session.Session.CipherPair ic1 rc1 /\ Session.Session.CipherPair rc2 ic2;
  sign_verifies : forall priv m, verify (public_of priv) m (sign priv m) = true;
  sign_length : forall priv m, length (sign priv m) = 64%nat
}.


(** ** Lemmas *)
Definition int64_ok (x : Z) : Prop := - 2 ^ 63 <= x < 2 ^ 63.

Lemma length_array n l : length (array n l) = n.
Proof. unfold array. rewrite length_take, length_app. unfold zeros. rewrite length_replicate. lia. Qed.

Lemma array_exact n l : length l = n -> array n l = l.
Proof. intros Hl. unfold array. by rewrite take_app_length'. Qed.

Lemma length_ts_bytes ts : length (ts_bytes ts) = 8%nat.
Proof. done. Qed.

(** The timestamp a payload carries is read back. *)
Lemma timestamp_roundtrip ts : int64_ok ts -> i64 (be_get (be_put 8 (u64 ts))) = ts.
Proof.
  intros Hts. rewrite be_get_put. change (256 ^ Z.of_nat 8) with (2 ^ 64).
  unfold u64, wrap. rewrite Zmod_mod. fold (wrap 64 ts). fold (u64 ts). by rewrite i64_wrap, i64_small.
Qed.

Lemma field_app_l (a b : list Z) n : length a = n -> field (a ++ b) 0 n = a.
Proof. intros Hn. unfold field. rewrite drop_0, Nat.sub_0_r. by rewrite take_app_length'. Qed.

Lemma field_app_r (a b : list Z) i j n : length a = n -> (n <= i)%nat -> field (a ++ b) i j = field b (i - n) (j - n).
Proof. intros <- Hi. unfold field. rewrite drop_app_ge by lia. f_equal. lia. Qed.

(** The fields of a payload built from four parts. *)
Lemma fields4 (a b c d : list Z) na nb nc nd :
  length a = na -> length b = nb -> length c = nc -> length d = nd ->
  let l := a ++ b ++ c ++ d in
  field l 0 na = a /\ field l na (na + nb) = b /\ field l (na + nb) (na + nb + nc) = c /\
  field l (na + nb + nc) (na + nb + nc + nd) = d /\ length l = (na + nb + nc + nd)%nat.
Proof.
  intros Ha Hb Hc Hd l. unfold l. split_and!.
  - by apply field_app_l.
  - rewrite (field_app_r _ _ _ _ na) by lia. rewrite Nat.sub_diag, Nat.add_comm, Nat.add_sub. by apply field_app_l.
  - rewrite (field_app_r _ _ _ _ na), (field_app_r _ _ _ _ nb) by lia.
    replace (na + nb - na - nb)%nat with 0%nat by lia. replace (na + nb + nc - na - nb)%nat with nc by lia. by apply field_app_l.
  - rewrite (field_app_r _ _ _ _ na), (field_app_r _ _ _ _ nb), (field_app_r _ _ _ _ nc) by lia.
    replace (na + nb + nc - na - nb - nc)%nat with 0%nat by lia.
    replace (na + nb + nc + nd - na - nb - nc)%nat with nd by lia. unfold field. rewrite drop_0, Nat.sub_0_r, take_ge; [done|lia].
  - rewrite !length_app. lia.
Qed.

(** A timestamp accepted by the freshness check lies within the skew of the
    clock, also when the subtraction wraps. *)
Lemma fresh_window ts now :
  int64_ok ts -> 0 <= now < 2 ^ 62 ->
  let diff := i64 (now - ts) in
  negb ((diff <? - MaxTimestampSkew) || (MaxTimestampSkew <? diff)) = true <-> Z.abs (now - ts) <= MaxTimestampSkew.
Proof.
  intros Hts Hnow. cbv zeta. unfold int64_ok in Hts. rewrite negb_true_iff, orb_false_iff, !Z.ltb_ge.
  assert (MaxTimestampSkew = 30000000000) as -> by done.
  destruct (Z_lt_le_dec (now - ts) (2 ^ 63)) as [Hlt|Hge].
  - rewrite i64_small by lia. lia.
  - assert (i64 (now - ts) = now - ts - 2 ^ 64) as ->; [|lia].
    unfold i64. rewrite (Z.mod_eq (now - ts + 2 ^ 63)) by lia.
    rewrite <- (Z.div_unique (now - ts + 2 ^ 63) (2 ^ 64) 1 (now - ts + 2 ^ 63 - 2 ^ 64)); lia.
Qed.

Lemma NormalizeTimestamp_ok raw : int64_ok raw -> int64_ok (NormalizeTimestamp raw).
Proof. intros Hr. unfold NormalizeTimestamp. destruct (_ <? raw); [done|]. apply i64_range. Qed.

Section Lemmas.
Context `{NoiseLib}.

(** What an accepted signature establishes. *)
Lemma VerifyPeerSig_true peerEd peerX ourX sig ts now :
  int64_ok ts -> 0 <= now < 2 ^ 62 -> VerifyPeerSig peerEd peerX ourX sig ts now = true ->
  verify peerEd (sig_message peerX ourX ts) sig = true /\ Z.abs (now - NormalizeTimestamp ts) <= MaxTimestampSkew.
Proof.
  unfold VerifyPeerSig. intros Hts Hnow [Hv Hd]%andb_true_iff. split; [done|].
  by apply fresh_window; [apply NormalizeTimestamp_ok| |].
Qed.

(** A message 1 that is accepted: who made it and what it says. *)
Record message1 (h : ResponderHS) (msg : list Z) (now : Z) (h' : ResponderHS) (ts : Z) (payload : list Z) : Prop := {
  m1_read : exists x y, ReadMessage (r_hs h) msg = Some (r_hs h', payload, x, y);
  m1_static : PeerStatic (r_hs h') = r_peerX25519 h';
  m1_key : r_peerEd25519Public h' = field payload 0 32;
  m1_key_len : length (r_peerEd25519Public h') = 32%nat;
  m1_network : r_networkID h' = field payload 96 112;
  m1_ts : ts = i64 (be_get (field payload 112 120));
  m1_registered : r_peerLookup h (r_peerEd25519Public h') = Some (r_peerX25519 h');
  m1_signed : VerifyPeerSig (r_peerEd25519Public h') (r_peerX25519 h') (X25519Public (r_localID h)) (field payload 32 96) ts now = true;
  m1_local : r_localID h' = r_localID h
}.

Lemma ProcessMessage1_inv h msg now h' ts :
  ProcessMessage1 h msg now = Some (h', ts) -> exists payload, message1 h msg now h' ts payload.
Proof.
  unfold ProcessMessage1. destruct (ReadMessage (r_hs h) msg) as [[[[hs payload] x] y]|] eqn:Em; [|done]. rewrite bind_Some_eq.
  destruct (length payload =? 120)%nat eqn:El; [|done]. cbn [negb].
  destruct (length (PeerStatic hs) =? 32)%nat; [|done]. cbn [negb].
  destruct (r_peerLookup h (field payload 0 32)) as [reg|] eqn:Er; [|done]. rewrite bind_Some_eq.
  case_bool_decide as Ep; [|done]. cbn [negb]. subst reg.
  destruct (VerifyPeerSig _ _ _ _ _ _) eqn:Ev; [|done]. cbn [negb]. intros [= <- <-]. exists payload.
  split; cbn [r_hs r_localID r_peerX25519 r_peerEd25519Public r_networkID]; try done; [by exists x, y|].
  unfold field. apply Nat.eqb_eq in El. rewrite length_take, length_drop. lia.
Qed.

Lemma ProcessMessage2_inv h msg now res :
  ProcessMessage2 h msg now = Some res ->
  exists p1 hs0 hs1 m x y hs2 payload,
    i_payload1 h = Some p1 /\ state h = Some hs0 /\ WriteMessage (i_ephSeed h) hs0 p1 = Some (hs1, m, x, y) /\
    ReadMessage hs1 msg = Some (hs2, payload, Session.Session.hr_SendCS res, Session.Session.hr_RecvCS res) /\
    Session.Session.hr_PeerEd25519Public res = field payload 0 32 /\ Session.Session.hr_NetworkID res = i_networkID h /\
    VerifyPeerSig (field payload 0 32) (i_peerX25519 h) (X25519Public (i_localID h)) (field payload 32 96)
      (i64 (be_get (field payload 104 112))) now = true.
Proof.
  unfold ProcessMessage2. destruct (i_payload1 h) as [p1|]; [|done]. rewrite bind_Some_eq.
  destruct (state h) as [hs0|]; [|done]. rewrite bind_Some_eq.
  destruct (WriteMessage (i_ephSeed h) hs0 p1) as [[[[hs1 m] x] y]|] eqn:Ew; [|done]. rewrite bind_Some_eq.
  destruct (ReadMessage hs1 msg) as [[[[hs2 payload] c1] c2]|] eqn:Er; [|done]. rewrite bind_Some_eq.
  destruct (length payload =? 112)%nat; [|done]. cbn [negb].
  destruct (VerifyPeerSig _ _ _ _ _ _) eqn:Ev; [|done]. cbn [negb]. intros [= <-].
  exists p1, hs0, hs1, m, x, y, hs2, payload. by split_and!.
Qed.

End Lemmas.

(** ** Two honest identities complete the handshake *)
Section Complete.
Context `{NoiseIK}.

Record identity_ok (id : Identity) : Prop := {
  io_public : Ed25519Public id = public_of (Ed25519Private id);
  io_len : length (Ed25519Public id) = 32%nat;
  io_xlen : length (X25519Public id) = 32%nat;
  io_pair : key_pair (X25519Private id) (X25519Public id)
}.

Definition in_skew (ts now : Z) : Prop :=
  int64_ok ts /\ 0 <= now < 2 ^ 62 /\ Z.abs (now - NormalizeTimestamp ts) <= MaxTimestampSkew.

Lemma signed_verifies id other ts now :
  identity_ok id -> in_skew ts now ->
  VerifyPeerSig (Ed25519Public id) (X25519Public id) other (SignForPeer id other ts) ts now = true.
Proof.
  intros Hid (Hts & Hnow & Hf). unfold VerifyPeerSig. apply andb_true_iff. split.
  - unfold SignForPeer. rewrite array_exact by apply sign_length. rewrite (io_public id Hid). apply sign_verifies.
  - by apply fresh_window; [apply NormalizeTimestamp_ok| |].
Qed.

(** The messages of the two sides, and what each ends up with. *)
Record completed (a b : Identity) (net sid : list Z) (ra rb : HandshakeResult) : Prop := {
  cp_forth : Session.Session.CipherPair (Session.Session.hr_SendCS ra) (Session.Session.hr_RecvCS rb);
  cp_back : Session.Session.CipherPair (Session.Session.hr_SendCS rb) (Session.Session.hr_RecvCS ra);
  cp_peer_a : Session.Session.hr_PeerEd25519Public ra = Ed25519Public b;
  cp_peer_b : Session.Session.hr_PeerEd25519Public rb = Ed25519Public a;
  cp_net_a : Session.Session.hr_NetworkID ra = net;
  cp_net_b : Session.Session.hr_NetworkID rb = net;
  cp_sid_a : Session.Session.hr_SessionID ra = sid;
  cp_sid_b : Session.Session.hr_SessionID rb = sid
}.

Lemma handshake_pairs a b net seed eph sid ta nb tb na lookup :
  identity_ok a -> identity_ok b -> length net = 16%nat -> length sid = 8%nat ->
  lookup (Ed25519Public a) = Some (X25519Public a) -> in_skew ta nb -> in_skew tb na ->
  exists h h1 msg1 hr hr1 msg2 ra rb,
    NewInitiatorHS a (X25519Public b) net (Some seed) = Some h /\ BuildMessage1 h ta = Some (h1, msg1) /\
    NewResponderHS b lookup = Some hr /\ ProcessMessage1 hr msg1 nb = Some (hr1, ta) /\
    BuildMessage2 hr1 (Some sid) eph tb = Some (msg2, rb) /\ ProcessMessage2 h1 msg2 na = Some ra /\
    completed a b net sid ra rb.
Proof.
  intros Ha Hb Hnet Hsid Hlook Hfa Hfb.
  set (s1 := SignForPeer a (X25519Public b) ta). set (s2 := SignForPeer b (X25519Public a) tb).
  set (p1 := payload1 a s1 net ta). set (p2 := payload2 b s2 sid tb).
  destruct (ik_completes (X25519Private a) (X25519Public a) (X25519Private b) (X25519Public b) seed eph p1 p2 (io_pair a Ha) (io_pair b Hb))
    as (hi & hi1 & m1 & x1 & y1 & hr & hr1 & x2 & y2 & hr2 & m2 & rc1 & rc2 & hi2 & ic1 & ic2 &
        E1 & E2 & E3 & E4 & E5 & E6 & E7 & Hp1 & Hp2).
  destruct (fields4 (array 32 (Ed25519Public a)) s1 net (be_put 8 (u64 ta)) 32 64 16 8
              (length_array _ _) (length_array _ _) Hnet (length_be_put _ _)) as (F1 & F2 & F3 & F4 & F5).
  destruct (fields4 (array 32 (Ed25519Public b)) s2 sid (be_put 8 (u64 tb)) 32 64 8 8
              (length_array _ _) (length_array _ _) Hsid (length_be_put _ _)) as (G1 & G2 & G3 & G4 & G5).
  pose proof (array_exact 32 _ (io_len a Ha)) as Ea. pose proof (array_exact 32 _ (io_len b Hb)) as Eb. cbn [Nat.add] in *.
  do 8 eexists. split; [done|]. unfold BuildMessage1, state. cbn [i_localID i_peerX25519 i_networkID i_ephSeed].
  rewrite E1, bind_Some_eq. fold s1. fold p1. rewrite E2, bind_Some_eq. split; [done|].
  unfold NewResponderHS. rewrite E3, bind_Some_eq. split; [done|].
  assert (VerifyPeerSig (Ed25519Public a) (X25519Public a) (X25519Public b) s1 ta nb = true) as V1 by by apply signed_verifies.
  assert (VerifyPeerSig (Ed25519Public b) (X25519Public b) (X25519Public a) s2 tb na = true) as V2 by by apply signed_verifies.
  split.
  { unfold ProcessMessage1. cbn [r_hs r_localID r_peerLookup]. rewrite E4, bind_Some_eq.
    unfold p1, payload1 in *. rewrite F5. cbn [negb Nat.eqb]. rewrite E5, (io_xlen a Ha), F1, F2, F3, F4, Ea, timestamp_roundtrip by apply Hfa.
    cbn [negb Nat.eqb]. rewrite Hlook, bind_Some_eq, bool_decide_true, V1 by done. cbn [negb]. reflexivity. }
  split.
  { unfold BuildMessage2. cbn [r_hs r_localID r_peerX25519]. rewrite bind_Some_eq. fold s2. fold p2. rewrite E6, bind_Some_eq. reflexivity. }
  split.
  { unfold ProcessMessage2, state. cbn [i_payload1 i_localID i_peerX25519 i_ephSeed i_networkID].
    rewrite bind_Some_eq, E1, bind_Some_eq. rewrite E2, bind_Some_eq, E7, bind_Some_eq. unfold p2, payload2 in *.
    rewrite G5. cbn [negb Nat.eqb]. rewrite G1, G2, G3, G4, Eb, timestamp_roundtrip, V2 by apply Hfb. reflexivity. }
  by split.
Qed.

End Complete.

End Noise.
