(* ===== verification/Handshake.v ===== *)
(** * The handshake manager

    Models [src/internal/handshake/manager.go] over the peer table, the sessions
    and [Noise].  Pending handshakes are records in a heap, because the code
    compares them by pointer to see whether an attempt was replaced.  The state
    threaded through the handlers is the node: the manager, the peer table, the
    heap of sessions, the pins and the replay file on disk.  [t i] is the i-th
    reading of the clock in a handler; [io] says whether the replay file can be
    written; random bytes are arguments. *)
From Stdlib Require Import ZArith Lia Sorted.
From stdpp Require Import base numbers list gmap strings fin_maps infinite.
From S2P Require Import Prelude Session GoLib PeerTable Dispatcher AddrText Noise Tofu.

Module Handshake.
Import Netip AddrText.AddrText PeerTable.PeerTable Noise.Noise.
Abbreviation ptr := PeerTable.PeerTable.ptr.
Abbreviation Sess := Session.Session.Session.

Definition typeHandshakeInit : Z := 0x02.
Definition typeHandshakeResp : Z := 0x03.
Definition headerSize : nat := 16.
Definition handshakeRetryTimeout : Z := 5 * second.
Definition maxHandshakeRetries : Z := 3.

Section Types.
Context `{NoiseLib}.

Record pendingHS := { hs : InitiatorHS; peerID : list Z; createdAt : Z; retries : Z }.

Record Manager := {
  localID : Identity;
  networkID : list Z;
  pending : gmap (list Z) nat;             (* pointers into the heap *)
  heap : gmap nat pendingHS;
  next : nat;
  initTimestamps : gmap (list Z) Z;
  replayPath : bool                        (* set *)
}.
End Types.

(** ** The interface to the pins

    [TOFUCheck], wired by the daemon to the store's [Check]; [None] disables
    pinning. *)
Class Pinning (T : Type) := TOFUCheck : option (string -> list Z -> T -> T * bool).

Inductive event :=
| SendTo (pkt : list Z) (ep : Dispatcher.Dispatcher.net_addr)
| SessionEstablished (entry : ptr)
| TOFUMismatch (vpnAddr : string) (fingerprint : list Z).

(** Peers and their timestamps, as [json.Unmarshal] reads the file (what it read
    before an error, if the file is damaged). *)
Abbreviation replayFile := (gmap string Z).

Section Manager.
Context `{NoiseLib} {T : Type} `{Pinning T}.

Record Node := {
  mgr : Manager;
  peers : Table;
  sessions : gmap sptr Sess;
  tofu : T;
  file : option replayFile                 (* None: no such file *)
}.

Definition with_mgr (m : Manager) (n : Node) : Node :=
  {| mgr := m; peers := peers n; sessions := sessions n; tofu := tofu n; file := file n |}.
Definition with_peers (t : Table) (n : Node) : Node :=
  {| mgr := mgr n; peers := t; sessions := sessions n; tofu := tofu n; file := file n |}.
Definition with_tofu (t : T) (n : Node) : Node :=
  {| mgr := mgr n; peers := peers n; sessions := sessions n; tofu := t; file := file n |}.
Definition with_file (f : option replayFile) (n : Node) : Node :=
  {| mgr := mgr n; peers := peers n; sessions := sessions n; tofu := tofu n; file := f |}.
Definition with_pending (p : gmap (list Z) nat) (m : Manager) : Manager :=
  {| localID := localID m; networkID := networkID m; pending := p; heap := heap m; next := next m;
     initTimestamps := initTimestamps m; replayPath := replayPath m |}.
Definition with_heap (h : gmap nat pendingHS) (m : Manager) : Manager :=
  {| localID := localID m; networkID := networkID m; pending := pending m; heap := h; next := next m;
     initTimestamps := initTimestamps m; replayPath := replayPath m |}.
Definition with_timestamps (ts : gmap (list Z) Z) (m : Manager) : Manager :=
  {| localID := localID m; networkID := networkID m; pending := pending m; heap := heap m; next := next m;
     initTimestamps := ts; replayPath := replayPath m |}.

Definition New (id : Identity) (net : list Z) : Manager :=
  {| localID := id; networkID := net; pending := ∅; heap := ∅; next := 0; initTimestamps := ∅; replayPath := false |}.

(** A new session in the heap. *)
Definition alloc_session (s : Sess) (n : Node) : sptr * Node :=
  let i := fresh (dom (sessions n)) in
  (i, {| mgr := mgr n; peers := peers n; sessions := <[i := s]> (sessions n); tofu := tofu n; file := file n |}).

(** The entry at [p] after an update of its fields. *)
Definition upd_entry (p : ptr) (f : Entry -> Entry) (n : Node) : Node :=
  with_peers (with_entries (alter f p (entries (peers n))) (peers n)) n.

Definition buildPacket (pktType : Z) (msg : list Z) : list Z :=
  be_put 4 (u32 pktType) ++ zeros 12 ++ msg.

(** ** Initiating *)

(** The pending handshake of a peer with its retry counted, or the reason not
    to start one: [inl] is the manager to return with. *)
Definition prepare_retry (id : list Z) (t : nat -> Z) (m : Manager) : Manager + Manager * option nat :=
  match pending m !! id with
  | None => inr (m, None)
  | Some q =>
      match heap m !! q with
      | None => inl m
      | Some phs =>
          if t 0%nat - createdAt phs <? handshakeRetryTimeout then inl m
          else if maxHandshakeRetries <=? retries phs then inl (with_pending (delete id (pending m)) m)
          else inr (with_heap (<[q := {| hs := hs phs; peerID := peerID phs; createdAt := t 1%nat; retries := retries phs + 1 |}]> (heap m)) m, Some q)
      end
  end.

Definition retries_of (m : Manager) (q : option nat) : Z :=
  match q with Some q => match heap m !! q with Some phs => retries phs | None => 0 end | None => 0 end.

(** The failure path gives the counted retry back. *)
Definition undo_retry (q : option nat) (m : Manager) : Manager :=
  match q with
  | Some q => with_heap (alter (fun phs => {| hs := hs phs; peerID := peerID phs; createdAt := createdAt phs; retries := retries phs - 1 |}) q (heap m)) m
  | None => m
  end.

Definition store_pending (id : list Z) (h : InitiatorHS) (created r : Z) (m : Manager) : Manager :=
  {| localID := localID m; networkID := networkID m; pending := <[id := next m]> (pending m);
     heap := <[next m := {| hs := h; peerID := id; createdAt := created; retries := r |}]> (heap m);
     next := S (next m); initTimestamps := initTimestamps m; replayPath := replayPath m |}.

Definition Initiate (p : ptr) (random : option (list Z)) (t : nat -> Z) (n : Node) : Node * list event :=
  match entries (peers n) !! p with
  | None => (n, [])
  | Some entry =>
      match prepare_retry (ID entry) t (mgr n) with
      | inl m => (with_mgr m n, [])
      | inr (m, q) =>
          match h ← NewInitiatorHS (localID m) (X25519Pub entry) (networkID m) random; BuildMessage1 h (t 2%nat) with
          | None => (with_mgr (undo_retry q m) n, [])
          | Some (h, msg1) =>
              let m := store_pending (ID entry) h (t 3%nat) (retries_of m q) m in
              let n := upd_entry p (SetState StateHandshaking) (with_mgr m n) in
              if negb (ap_valid (endpoint entry)) then
                (with_mgr (with_pending (delete (ID entry) (pending m)) m) n, [])
              else (n, [SendTo (buildPacket typeHandshakeInit msg1) (Dispatcher.Dispatcher.UDPAddr (endpoint entry))])
          end
      end
  end.

(** ** Replay protection *)

(** The timestamps that still matter, and their form on disk. *)
Definition kept (now : Z) (m : gmap (list Z) Z) : gmap (list Z) Z :=
  filter (fun kv : list Z * Z => now - MaxTimestampSkew <= kv.2) m.
Definition snapshot (m : gmap (list Z) Z) : replayFile :=
  list_to_map (prod_map Hex.EncodeToString (fun ts => ts) <$> map_to_list m).

Definition pruneTimestampsLocked (now : Z) (m : Manager) : Manager * replayFile :=
  let k := kept now (initTimestamps m) in (with_timestamps k m, snapshot k).

Definition saveReplayState (io : bool) (f : replayFile) (n : Node) : Node := if io then with_file (Some f) n else n.

Definition load_timestamp (cutoff : Z) (m : gmap (list Z) Z) (kv : string * Z) : gmap (list Z) Z :=
  match Hex.DecodeString (fst kv) with
  | None => m
  | Some id =>
      if negb (length id =? 32)%nat || (snd kv <? cutoff) then m
      else if default 0 (m !! id) <? snd kv then <[id := snd kv]> m else m
  end.

(** [UseReplayState]; [readable]: an existing file can be read.  [None]: it
    fails. *)
Definition UseReplayState (readable : bool) (now : Z) (n : Node) : option Node :=
  match file n, readable with
  | Some _, false => None
  | f, _ =>
      let m := mgr n in
      Some (with_mgr {| localID := localID m; networkID := networkID m; pending := pending m; heap := heap m; next := next m;
                        initTimestamps := foldl (load_timestamp (now - MaxTimestampSkew)) (initTimestamps m) (map_to_list (default ∅ f));
                        replayPath := true |} n)
  end.

Definition OnPeerRemoved (id : list Z) (n : Node) : Node :=
  with_mgr (with_pending (delete id (pending (mgr n))) (mgr n)) n.

(** ** Pinning *)
Definition check_pin (vpnAddr : string) (pub : list Z) (n : Node) : Node * bool :=
  match TOFUCheck with
  | None => (n, true)
  | Some f => let '(t, ok) := f vpnAddr pub (tofu n) in (with_tofu t n, ok)
  end.

(** ** Responding *)

(** The timestamp of an Init is newer than any accepted from the peer. *)
Definition newer (id : list Z) (ts : Z) (m : Manager) : bool :=
  match initTimestamps m !! id with Some last => last <? ts | None => true end.

(** Recording it, and saving what is recorded. *)
Definition record_init (io : bool) (id : list Z) (ts now : Z) (n : Node) : Node :=
  let m := with_timestamps (<[id := ts]> (initTimestamps (mgr n))) (mgr n) in
  if replayPath m then
    let '(m, snap) := pruneTimestampsLocked now m in saveReplayState io snap (with_mgr m n)
  else with_mgr m n.

Definition handleInit (noiseMsg : list Z) (addr : Dispatcher.Dispatcher.net_addr) (random : option (list Z)) (eph : list Z)
  (io : bool) (t : nat -> Z) (n : Node) : Node * list event :=
  match h ← NewResponderHS (localID (mgr n)) (PeerLookupFn (peers n)); ProcessMessage1 h noiseMsg (t 0%nat) with
  | None => (n, [])
  | Some (h, tsRaw) =>
      let ts := NormalizeTimestamp tsRaw in
      match BuildMessage2 h random eph (t 1%nat) with
      | None => (n, [])
      | Some (msg2, result) =>
          if negb (bool_decide (Session.Session.hr_NetworkID result = networkID (mgr n))) then (n, [])
          else
            let id := Session.Session.hr_PeerEd25519Public result in
            match LookupByID id (peers n) with
            | None => (n, [])
            | Some p =>
                match entries (peers n) !! p with
                | None => (n, [])
                | Some entry =>
                    if (ts =? 0) || negb (newer id ts (mgr n)) then (n, [])
                    else
                      let n := record_init io id ts (t 2%nat) n in
                      let '(n, pinned) := check_pin (addr_string (VPNAddr entry)) id n in
                      if negb pinned then (n, [TOFUMismatch (addr_string (VPNAddr entry)) (FingerprintBytes id)])
                      else
                        let n := match Dispatcher.Dispatcher.addrToAddrPort addr with
                                 | Some ep => with_peers (ClaimEndpoint id ep (peers n)).2 n
                                 | None => n
                                 end in
                        let '(i, n) := alloc_session (Session.Session.New result (t 3%nat)) n in
                        (upd_entry p (SetPendingSession (Some i)) n, [SendTo (buildPacket typeHandshakeResp msg2) addr])
                end
            end
      end
  end.

(** ** Completing *)

(** Up to the second lock: the peer, the attempt and its outcome. *)
Definition handleResp_read (noiseMsg : list Z) (addr : Dispatcher.Dispatcher.net_addr) (now : Z) (n : Node)
  : option (ptr * Entry * nat * HandshakeResult) :=
  ep ← Dispatcher.Dispatcher.addrToAddrPort addr;
  p ← LookupByEndpoint ep (peers n);
  entry ← entries (peers n) !! p;
  q ← pending (mgr n) !! ID entry;
  phs ← heap (mgr n) !! q;
  result ← ProcessMessage2 (hs phs) noiseMsg now;
  if bool_decide (Session.Session.hr_PeerEd25519Public result = ID entry) then Some (p, entry, q, result) else None.

Definition handleResp_complete (p : ptr) (entry : Entry) (q : nat) (result : HandshakeResult) (now : Z) (n : Node) : Node * list event :=
  if negb (bool_decide (pending (mgr n) !! ID entry = Some q)) then (n, [])
  else
    let n := with_mgr (with_pending (delete (ID entry) (pending (mgr n))) (mgr n)) n in
    let '(i, n) := alloc_session (Session.Session.New result now) n in
    (upd_entry p (SetSession (Some i)) n, [SessionEstablished p]).

Definition handleResp (noiseMsg : list Z) (addr : Dispatcher.Dispatcher.net_addr) (t : nat -> Z) (n : Node) : Node * list event :=
  match handleResp_read noiseMsg addr (t 0%nat) n with
  | None => (n, [])
  | Some (p, entry, q, result) =>
      let id := Session.Session.hr_PeerEd25519Public result in
      let '(n, pinned) := check_pin (addr_string (VPNAddr entry)) id n in
      if negb pinned then (n, [TOFUMismatch (addr_string (VPNAddr entry)) (FingerprintBytes id)])
      else handleResp_complete p entry q result (t 1%nat) n
  end.

Definition HandlePacket (pkt : list Z) (addr : Dispatcher.Dispatcher.net_addr) (random : option (list Z)) (eph : list Z)
  (io : bool) (t : nat -> Z) (n : Node) : Node * list event :=
  if (length pkt <? headerSize)%nat then (n, [])
  else
    let pktType := be_get (take 4 pkt) in
    let noiseMsg := drop headerSize pkt in
    if pktType =? typeHandshakeInit then handleInit noiseMsg addr random eph io t n
    else if pktType =? typeHandshakeResp then handleResp noiseMsg addr t n
    else (n, []).

(** Confirmation by the first data packet. *)
Definition HandleDataPacket (p : ptr) (nonce : Z) (ciphertext : list Z) (n : Node) : Node * list event * goslice :=
  match entries (peers n) !! p with
  | None => (n, [], None)
  | Some entry =>
      match pendingSession entry with
      | None => (n, [], None)
      | Some i =>
          match sessions n !! i with
          | None => (n, [], None)
          | Some s =>
              let '(s, plain) := Session.Session.Decrypt s nonce ciphertext in
              let n := {| mgr := mgr n; peers := peers n; sessions := <[i := s]> (sessions n); tofu := tofu n; file := file n |} in
              match plain with
              | None => (n, [], None)
              | Some plain =>
                  (upd_entry p (fun e => (PromotePendingSession e).2) n,
                   if (PromotePendingSession entry).1 then [SessionEstablished p] else [], Some plain)
              end
          end
      end
  end.

End Manager.

(** ** The replay state *)

(** Times: after 1970-01-01 00:00:30 and before 2116. *)
Definition time_ok (now : Z) : Prop := MaxTimestampSkew < now < 2 ^ 62.

(** Some timestamp not older than [ts] is recorded, or [ts] is too old. *)
Definition covered (now ts : Z) (o : option Z) : Prop :=
  (exists ts', o = Some ts' /\ ts <= ts') \/ ts < now - MaxTimestampSkew.

Lemma covered_mono now now' ts o : now <= now' -> covered now ts o -> covered now' ts o.
Proof. unfold covered. intros Hle [?|?]; [by left|right; lia]. Qed.

Definition peer_id_ok (id : list Z) : Prop := bytes_ok id /\ length id = 32%nat.

Definition timestamps_ok (m : gmap (list Z) Z) : Prop := forall id ts, m !! id = Some ts -> peer_id_ok id.

Lemma decode_bytes_ok l b : Hex.decode_bytes l = Some b -> bytes_ok b.
Proof.
  assert (forall c v, Hex.digit c = Some v -> 0 <= v < 16) as Hd.
  { intros c v. unfold Hex.digit. repeat case_step; try done; intros [= <-]; bool_to_prop; lia. }
  revert b. induction l as [l IH] using (induction_ltof1 _ (@length Z)). intros b. unfold ltof in IH.
  destruct l as [|h [|x l]]; cbn; [intros [= <-]; constructor|done|].
  destruct (Hex.digit h) as [v1|] eqn:E1; [|done]. destruct (Hex.digit x) as [v2|] eqn:E2; [|done]. cbn.
  destruct (Hex.decode_bytes l) as [r|] eqn:Er; [|done]. cbn. intros [= <-].
  apply Hd in E1. apply Hd in E2. constructor; [unfold byte_ok; lia|]. apply (IH l); [cbn; lia|done].
Qed.

Lemma load_timestamp_ok cutoff m kv : timestamps_ok m -> timestamps_ok (load_timestamp cutoff m kv).
Proof.
  intros Hm. unfold load_timestamp. destruct (Hex.DecodeString (fst kv)) as [id|] eqn:E; [|done].
  destruct (length id =? 32)%nat eqn:El; cbn; [|done]. apply Nat.eqb_eq in El.
  destruct (_ <? cutoff); [done|]. destruct (_ <? snd kv); [|done].
  intros id' ts' [[<- <-]|[_ Hi]]%lookup_insert_Some; [|by eapply Hm]. split; [by apply (decode_bytes_ok (bytes_of_string (fst kv)))|done].
Qed.

(** Loading never lowers a timestamp, and takes in what the file holds. *)
Lemma load_timestamp_mono cutoff m kv id : default 0 (m !! id) <= default 0 (load_timestamp cutoff m kv !! id).
Proof.
  unfold load_timestamp. destruct (Hex.DecodeString (fst kv)) as [id'|]; [|done].
  destruct (negb _ || _); [done|]. destruct (_ <? snd kv) eqn:E; [|done]. bool_to_prop.
  destruct (decide (id' = id)) as [->|]; [rewrite lookup_insert_eq; cbn; lia|by rewrite lookup_insert_ne].
Qed.

Lemma load_all_mono cutoff l : forall m id, default 0 (m !! id) <= default 0 (foldl (load_timestamp cutoff) m l !! id).
Proof.
  induction l as [|kv l IH]; intros m id; cbn [foldl]; [done|].
  etransitivity; [apply (load_timestamp_mono cutoff m kv)|apply IH].
Qed.

Lemma load_all_takes cutoff l : forall m id ts,
  peer_id_ok id -> (Hex.EncodeToString id, ts) ∈ l -> cutoff <= ts ->
  ts <= default 0 (foldl (load_timestamp cutoff) m l !! id).
Proof.
  induction l as [|kv l IH]; intros m id ts [Hb Hlen] Hin Hc; [by apply not_elem_of_nil in Hin|]. cbn [foldl].
  apply elem_of_cons in Hin as [<-|Hin]; [|by apply IH].
  etransitivity; [|apply load_all_mono]. unfold load_timestamp. cbn [fst snd].
  rewrite Hex.Decode_EncodeToString, Hlen by done. cbn [Nat.eqb negb orb]. rewrite (proj2 (Z.ltb_ge _ _)) by done.
  destruct (_ <? ts) eqn:E; bool_to_prop; [by rewrite lookup_insert_eq|done].
Qed.

Lemma load_all_ok cutoff l m : timestamps_ok m -> timestamps_ok (foldl (load_timestamp cutoff) m l).
Proof. revert m. induction l as [|kv l IH]; intros m Hm; cbn [foldl]; [done|]. apply IH. by apply load_timestamp_ok. Qed.

(** The snapshot holds the kept timestamps under their hexadecimal keys. *)
Lemma snapshot_lookup (m : gmap (list Z) Z) id :
  timestamps_ok m -> peer_id_ok id ->
  snapshot m !! Hex.EncodeToString id = m !! id.
Proof.
  unfold snapshot. intros Hm [Hid _]. apply option_eq. intros ts. rewrite <- elem_of_list_to_map.
  - rewrite list_elem_of_fmap. split.
    + intros ([id' ts'] & [= E ->] & Hin%elem_of_map_to_list). cbn in E.
      apply Hex.EncodeToString_inj in E as <-; [done|done|]. by apply Hm in Hin as [].
    + intros Hin%elem_of_map_to_list. by exists (id, ts).
  - rewrite <- list_fmap_compose. apply NoDup_fmap_2_strong; [|apply NoDup_map_to_list].
    intros [i1 t1] [i2 t2] Hi1%elem_of_map_to_list Hi2%elem_of_map_to_list E. cbn in E.
    apply Hex.EncodeToString_inj in E as <-; [congruence|by apply Hm in Hi1 as []|by apply Hm in Hi2 as []].
Qed.


Section Proofs.
Context `{NoiseLib} {T : Type} `{Pinning T}.
Implicit Types n : Node (T := T).

(** ** What an Init that is taken in establishes *)
Record init_accepted (msg : list Z) (now : Z) n (p : ptr) (e : Entry) (x : list Z) (tsRaw : Z) (payload : list Z) : Prop := {
  ia_read : exists hs0 hs1 c1 c2, new_responder (X25519Private (localID (mgr n))) (X25519Public (localID (mgr n))) = Some hs0 /\
      ReadMessage hs0 msg = Some (hs1, payload, c1, c2) /\ PeerStatic hs1 = x;
  ia_key : ID e = field payload 0 32;
  ia_peer : byID (peers n) !! ID e = Some p /\ entries (peers n) !! p = Some e /\ x = X25519Pub e;
  ia_signed : VerifyPeerSig (ID e) x (X25519Public (localID (mgr n))) (field payload 32 96) tsRaw now = true;
  ia_ts : tsRaw = i64 (be_get (field payload 112 120)) /\ NormalizeTimestamp tsRaw <> 0;
  ia_network : field payload 96 112 = networkID (mgr n);
  ia_newer : newer (ID e) (NormalizeTimestamp tsRaw) (mgr n) = true
}.

(** What happens after the timestamp is recorded. *)
Definition answer_init (addr : Dispatcher.Dispatcher.net_addr) (p : ptr) (e : Entry) (result : HandshakeResult) (msg2 : list Z) (now : Z) n
  : Node (T := T) * list event :=
  let '(n, pinned) := check_pin (addr_string (VPNAddr e)) (ID e) n in
  if negb pinned then (n, [TOFUMismatch (addr_string (VPNAddr e)) (FingerprintBytes (ID e))])
  else
    let n := match Dispatcher.Dispatcher.addrToAddrPort addr with
             | Some ep => with_peers (ClaimEndpoint (ID e) ep (peers n)).2 n
             | None => n
             end in
    let '(i, n) := alloc_session (Session.Session.New result now) n in
    (upd_entry p (SetPendingSession (Some i)) n, [SendTo (buildPacket typeHandshakeResp msg2) addr]).

Lemma handleInit_cases msg addr random eph io t n :
  table_ok (peers n) ->
  handleInit msg addr random eph io t n = (n, []) \/
  exists p e x tsRaw payload result msg2,
    init_accepted msg (t 0%nat) n p e x tsRaw payload /\
    Session.Session.hr_PeerEd25519Public result = ID e /\ Session.Session.hr_NetworkID result = networkID (mgr n) /\
    handleInit msg addr random eph io t n =
      answer_init addr p e result msg2 (t 3%nat) (record_init io (ID e) (NormalizeTimestamp tsRaw) (t 2%nat) n).
Proof.
  intros Ht. unfold handleInit. destruct (NewResponderHS _ _) as [h|] eqn:Eh; [|by left]. rewrite bind_Some_eq.
  destruct (ProcessMessage1 h msg (t 0%nat)) as [[h' tsRaw]|] eqn:E1; [|by left].
  destruct (BuildMessage2 h' random eph (t 1%nat)) as [[msg2 result]|] eqn:E2; [|by left].
  case_bool_decide as Enet; cbn [negb]; [|by left].
  destruct (LookupByID _ (peers n)) as [p|] eqn:Ep; [|by left].
  destruct (entries (peers n) !! p) as [e|] eqn:Ee; [|by left].
  destruct (_ =? 0) eqn:E0; cbn [orb]; [by left|]. destruct (newer _ _ _) eqn:En; cbn [negb]; [|by left]. right.
  apply ProcessMessage1_inv in E1 as (payload & [(x1 & y1 & Hrd) Hst Hkey Hl Hnet Hts Hreg Hsig Hloc]).
  unfold NewResponderHS in Eh. destruct (new_responder _ _) as [hs0|] eqn:Enr; [|done]. rewrite bind_Some_eq in Eh.
  injection Eh as <-. cbn [r_hs r_localID r_peerLookup] in *.
  assert (Session.Session.hr_PeerEd25519Public result = r_peerEd25519Public h' /\ Session.Session.hr_NetworkID result = r_networkID h')
    as [Epk Enk].
  { unfold BuildMessage2 in E2. destruct random as [r|]; [|done]. rewrite bind_Some_eq in E2.
    destruct (WriteMessage _ _ _) as [[[[? ?] ?] ?]|]; [|done]. rewrite bind_Some_eq in E2. by injection E2 as <- <-. }
  rewrite Epk in *. destruct (tk_id _ Ht _ _ Ep) as (e' & Ee' & Hid). rewrite Ee in Ee'. injection Ee' as <-.
  exists p, e, (r_peerX25519 h'), tsRaw, payload, result, msg2. rewrite <- Hid in *. split_and!; try done.
  apply Z.eqb_neq in E0. rewrite Enk in Enet. split; try done.
  - by exists hs0, (r_hs h'), x1, y1.
  - split_and!; [done|done|]. unfold PeerLookupFn in Hreg. rewrite Hl in Hreg. cbn in Hreg.
    unfold LookupByID in Ep. rewrite Ep in Hreg. cbn in Hreg. rewrite Ee in Hreg. cbn in Hreg. congruence.
  - congruence.
Qed.

(** ** The replay state of a node *)
Record replay_ok n : Prop := {
  rp_keys : timestamps_ok (initTimestamps (mgr n));
  rp_path : replayPath (mgr n) = true
}.

Definition on_disk n (id : list Z) : option Z := f ← file n; f !! Hex.EncodeToString id.

Definition remembers (now : Z) (id : list Z) (ts : Z) n : Prop :=
  covered now ts (initTimestamps (mgr n) !! id) /\ covered now ts (on_disk n id).

Lemma kept_lookup (now : Z) (m : gmap (list Z) Z) id ts :
  kept now m !! id = Some ts <-> m !! id = Some ts /\ now - MaxTimestampSkew <= ts.
Proof. unfold kept. by rewrite map_lookup_filter_Some. Qed.

Lemma covered_kept (now now' ts : Z) (m : gmap (list Z) Z) id :
  now <= now' -> covered now' ts (m !! id) -> covered now' ts (kept now m !! id).
Proof.
  intros Hn [(ts' & E & Hle)|?]; [|by right]. destruct (decide (now - MaxTimestampSkew <= ts')) as [Hd|Hd]; [|right; lia].
  left. exists ts'. split; [|done]. by apply kept_lookup.
Qed.

Lemma kept_ok (now : Z) (m : gmap (list Z) Z) : timestamps_ok m -> timestamps_ok (kept now m).
Proof. intros Hm id ts [Hi _]%kept_lookup. by eapply Hm. Qed.

(** Recording keeps what is remembered and adds the new timestamp, in memory
    and on disk. *)
Lemma record_init_ok id ts now n :
  replay_ok n -> peer_id_ok id -> newer id ts (mgr n) = true ->
  let n' := record_init true id ts now n in
  replay_ok n' /\ remembers now id ts n' /\
  (forall now' id0 ts0, now <= now' -> peer_id_ok id0 -> remembers now' id0 ts0 n -> remembers now' id0 ts0 n') /\
  localID (mgr n') = localID (mgr n) /\ networkID (mgr n') = networkID (mgr n) /\ peers n' = peers n.
Proof.
  intros [Hk Hp] Hid Hnew. unfold record_init. cbn [replayPath with_timestamps]. rewrite Hp. cbn [pruneTimestampsLocked saveReplayState].
  set (m := <[id := ts]> (initTimestamps (mgr n))).
  assert (timestamps_ok m) as Hm.
  { intros id' ts' [[<- _]|[_ Hi]]%lookup_insert_Some; [done|by eapply Hk]. }
  assert (forall now' id0 ts0, now <= now' -> peer_id_ok id0 -> covered now' ts0 (m !! id0) ->
            remembers now' id0 ts0 (saveReplayState true (snapshot (kept now m))
              (with_mgr (with_timestamps (kept now m) (with_timestamps m (mgr n))) n))) as Hcov.
  { intros now' id0 ts0 Hle Hid0 Hc. apply (covered_kept now) in Hc; [|done]. split; [done|]. unfold on_disk. cbn [saveReplayState file with_file with_mgr].
    rewrite bind_Some_eq, snapshot_lookup by (first [by apply kept_ok|done]). done. }
  split_and!; try done.
  - split; [by apply kept_ok|done].
  - apply Hcov; [done|done|]. left. exists ts. split; [apply lookup_insert_eq|lia].
  - intros now' id0 ts0 Hle Hid0 [Hc _]. apply Hcov; [done|done|]. destruct (decide (id0 = id)) as [->|Hne].
    + unfold m. rewrite lookup_insert_eq. destruct Hc as [(ts' & E & Hts)|?]; [|by right]. left. exists ts. split; [done|].
      unfold newer in Hnew. rewrite E in Hnew. bool_to_prop. lia.
    + unfold m. by rewrite lookup_insert_ne.
Qed.

(** ** Frames: what the handlers leave alone *)
Record frame n n' : Prop := {
  fr_local : localID (mgr n') = localID (mgr n);
  fr_net : networkID (mgr n') = networkID (mgr n);
  fr_ts : initTimestamps (mgr n') = initTimestamps (mgr n);
  fr_path : replayPath (mgr n') = replayPath (mgr n);
  fr_file : file n' = file n;
  fr_peers : rtc peer_step (peers n) (peers n');
  fr_ids : byID (peers n') = byID (peers n)
}.

Lemma check_pin_eq a pub n n' ok : check_pin a pub n = (n', ok) -> exists t, n' = with_tofu t n.
Proof.
  unfold check_pin. destruct TOFUCheck as [f|].
  - destruct (f a pub (tofu n)) as [t b]. intros [= <- <-]. by exists t.
  - intros [= <- <-]. exists (tofu n). by destruct n.
Qed.

Lemma frame_tofu t n : frame n (with_tofu t n).
Proof. by split. Qed.

Lemma check_pin_frame a pub n n' ok : check_pin a pub n = (n', ok) -> frame n n' /\ sessions n' = sessions n /\ mgr n' = mgr n /\ peers n' = peers n.
Proof. intros (t & ->)%check_pin_eq. split_and!; [apply frame_tofu|done..]. Qed.

Lemma hs_frame_trans n1 n2 n3 : frame n1 n2 -> frame n2 n3 -> frame n1 n3.
Proof. intros [] []. split; try congruence. by etrans. Qed.

Lemma ClaimEndpoint_ids id ep tb : byID (ClaimEndpoint id ep tb).2 = byID tb.
Proof. unfold ClaimEndpoint, setEndpoint. destruct (byID tb !! id); [|done]. by rewrite andb_false_r. Qed.

Lemma answer_init_frame addr p e result msg2 now n : frame n (answer_init addr p e result msg2 now n).1.
Proof.
  unfold answer_init. destruct (check_pin _ _ n) as [n1 ok] eqn:E. apply check_pin_frame in E as (F & _ & _ & Ep). destruct ok; cbn [negb]; [|done].
  eapply hs_frame_trans; [exact F|]. destruct (Dispatcher.Dispatcher.addrToAddrPort addr) as [ep|]; split; try done; cbn.
  - eapply rtc_l; [apply PS_claim|]. eapply rtc_once. apply PS_pending.
  - apply ClaimEndpoint_ids.
  - eapply rtc_once. apply PS_pending.
Qed.

Definition outcome (x : Manager + Manager * option nat) : Manager :=
  match x with inl m => m | inr (m, _) => m end.

Lemma prepare_retry_frame id t m :
  let m' := outcome (prepare_retry id t m) in
  localID m' = localID m /\ networkID m' = networkID m /\ initTimestamps m' = initTimestamps m /\ replayPath m' = replayPath m.
Proof. unfold prepare_retry. repeat case_match; by split_and!. Qed.

Lemma Initiate_frame p random t n : frame n (Initiate p random t n).1.
Proof.
  unfold Initiate. destruct (entries (peers n) !! p) as [e|]; [|by split].
  destruct (prepare_retry_frame (ID e) t (mgr n)) as (F1 & F2 & F3 & F4).
  destruct (prepare_retry (ID e) t (mgr n)) as [m|[m q]]; cbn [outcome] in *; [by split|].
  destruct (_ ← _; _) as [[h msg1]|].
  - destruct (ap_valid (endpoint e)); split; try done; cbn; apply rtc_once, PS_state.
  - destruct q; by split.
Qed.

Lemma handleResp_frame msg addr t n : frame n (handleResp msg addr t n).1.
Proof.
  unfold handleResp. destruct (handleResp_read _ _ _ _) as [[[[p e] q] r]|]; [|by split].
  destruct (check_pin _ _ n) as [n1 ok] eqn:E. apply check_pin_frame in E as (F & _). destruct ok; cbn [negb]; [|done].
  unfold handleResp_complete. case_bool_decide; cbn [negb]; [|done]. eapply hs_frame_trans; [exact F|].
  split; try done. cbn. apply rtc_once, PS_session.
Qed.

Lemma HandleDataPacket_frame p nonce ct n : frame n (HandleDataPacket p nonce ct n).1.1.
Proof.
  unfold HandleDataPacket. destruct (entries (peers n) !! p) as [e|]; [|by split]. destruct (pendingSession e) as [i|]; [|by split].
  destruct (sessions n !! i) as [s|]; [|by split]. destruct (Session.Session.Decrypt s nonce ct) as [s' [pl|]]; [|by split].
  split; try done. cbn. apply rtc_once, PS_promote.
Qed.

Lemma frame_remembers now id ts n n' : frame n n' -> remembers now id ts n -> remembers now id ts n'.
Proof. intros F. unfold remembers, on_disk. by rewrite (fr_ts _ _ F), (fr_file _ _ F). Qed.

Lemma frame_replay_ok n n' : frame n n' -> replay_ok n -> replay_ok n'.
Proof. intros F [Hk Hp]. split; [by rewrite (fr_ts _ _ F)|by rewrite (fr_path _ _ F)]. Qed.

Lemma steps_table_ok t t' : rtc peer_step t t' -> table_ok t -> table_ok t'.
Proof. induction 1; eauto using peer_step_ok. Qed.

(** ** Runs of a node

    [HEnv] stands for what other components do to the table, the sessions and
    the pins; [HRestart] for a new process that loads the replay file. *)
Inductive hop :=
| HInitiate (p : ptr) (random : option (list Z)) (t : nat -> Z)
| HPacket (pkt : list Z) (addr : Dispatcher.Dispatcher.net_addr) (random : option (list Z)) (eph : list Z) (io : bool) (t : nat -> Z)
| HData (p : ptr) (nonce : Z) (ct : list Z)
| HRemoved (id : list Z)
| HEnv (tb : Table) (ss : gmap sptr Sess) (tf : T)
| HRestart (tb : Table) (tf : T) (t : nat -> Z).

Definition restart (tb : Table) (tf : T) (now : Z) n : Node (T := T) :=
  let n0 := {| mgr := New (localID (mgr n)) (networkID (mgr n)); peers := tb; sessions := ∅; tofu := tf; file := file n |} in
  default n0 (UseReplayState true now n0).

Definition hstep n (o : hop) : Node (T := T) :=
  match o with
  | HInitiate p random t => (Initiate p random t n).1
  | HPacket pkt addr random eph io t => (HandlePacket pkt addr random eph io t n).1
  | HData p nonce ct => (HandleDataPacket p nonce ct n).1.1
  | HRemoved id => OnPeerRemoved id n
  | HEnv tb ss tf => {| mgr := mgr n; peers := tb; sessions := ss; tofu := tf; file := file n |}
  | HRestart tb tf t => restart tb tf (t 0%nat) n
  end.

(** The peer table other components leave satisfies its invariant and its IDs
    are 32 bytes; the replay file can be written. *)
Definition ids_ok (tb : Table) : Prop := forall id p, byID tb !! id = Some p -> peer_id_ok id.
Definition hop_ok (o : hop) : Prop :=
  match o with
  | HPacket _ _ _ _ io _ => io = true
  | HEnv tb _ _ | HRestart tb _ _ => table_ok tb /\ ids_ok tb
  | _ => True
  end.

(** The clock does not run backwards. *)
Definition ticking (t : nat -> Z) : Prop := t 0%nat <= t 1%nat <= t 2%nat /\ t 2%nat <= t 3%nat /\ time_ok (t 0%nat) /\ time_ok (t 3%nat).
Definition clock_of (o : hop) : option (nat -> Z) :=
  match o with HInitiate _ _ t | HPacket _ _ _ _ _ t | HRestart _ _ t => Some t | _ => None end.
Fixpoint clocked (now : Z) (ops : list hop) : Prop :=
  match ops with
  | [] => True
  | o :: ops =>
      match clock_of o with
      | Some t => now <= t 0%nat /\ ticking t /\ clocked (t 3%nat) ops
      | None => clocked now ops
      end
  end.
Definition end_time (now : Z) (ops : list hop) : Z :=
  foldl (fun now o => match clock_of o with Some t => t 3%nat | None => now end) now ops.

Record node_ok n : Prop := { no_replay : replay_ok n; no_table : table_ok (peers n); no_ids : ids_ok (peers n) }.

(** A step keeps the invariant, the identity, and everything remembered. *)
Definition keeps_replay (now' : Z) n n' : Prop :=
  node_ok n' /\ localID (mgr n') = localID (mgr n) /\ networkID (mgr n') = networkID (mgr n) /\
  forall id ts, peer_id_ok id -> 0 < ts -> remembers now' id ts n -> remembers now' id ts n'.

Lemma frame_keeps now' n n' : node_ok n -> frame n n' -> keeps_replay now' n n'.
Proof.
  intros [Hr Ht Hi] F. split_and!; [|apply F..|].
  - split; [by eapply frame_replay_ok|by eapply steps_table_ok; [apply F|]|]. unfold ids_ok. by rewrite (fr_ids _ _ F).
  - intros id ts _ _. by apply frame_remembers.
Qed.

Lemma remembers_mono now now' id ts n : now <= now' -> remembers now id ts n -> remembers now' id ts n.
Proof. intros Hle [Hm Hd]. split; by eapply covered_mono. Qed.

(** An Init taken in is remembered, and so is everything before it. *)
Lemma handleInit_keeps msg addr random eph t n :
  node_ok n -> ticking t ->
  keeps_replay (t 3%nat) n (handleInit msg addr random eph true t n).1 /\
  (handleInit msg addr random eph true t n = (n, []) \/
   exists p e x tsRaw payload, init_accepted msg (t 0%nat) n p e x tsRaw payload /\
     remembers (t 3%nat) (ID e) (NormalizeTimestamp tsRaw) (handleInit msg addr random eph true t n).1).
Proof.
  intros [Hr Ht Hi] (Ht1 & Ht2 & _ & _). destruct (handleInit_cases msg addr random eph true t n Ht) as [E|(p & e & x & tsRaw & payload & result & msg2 & Ha & Hr1 & Hr2 & E)].
  { rewrite E. split; [|by left]. by apply frame_keeps. }
  rewrite E. destruct (record_init_ok (ID e) (NormalizeTimestamp tsRaw) (t 2%nat) n Hr (Hi _ _ (proj1 (ia_peer _ _ _ _ _ _ _ _ Ha))) (ia_newer _ _ _ _ _ _ _ _ Ha))
    as (Hr' & Hnew & Hold & Hl & Hn & Hp).
  set (n1 := record_init true (ID e) (NormalizeTimestamp tsRaw) (t 2%nat) n) in *.
  pose proof (answer_init_frame addr p e result msg2 (t 3%nat) n1) as F. split.
  - destruct (frame_keeps (t 3%nat) n1 (answer_init addr p e result msg2 (t 3%nat) n1).1) as (Ho & Hl' & Hn' & Hk); [|done|].
    { split; [done|by rewrite Hp|by rewrite Hp]. }
    split_and!; [done|congruence|congruence|]. intros id ts Hid Hts Hm. apply Hk; [done|done|]. by apply Hold.
  - right. exists p, e, x, tsRaw, payload. split; [done|]. eapply frame_remembers; [done|].
    by apply remembers_mono with (t 2%nat).
Qed.

Lemma restart_keeps tb tf now n :
  node_ok n -> table_ok tb -> ids_ok tb -> keeps_replay now n (restart tb tf now n).
Proof.
  intros [Hr Ht Hi] Htb Hids. unfold restart, UseReplayState. cbn [mgr file].
  assert (forall f id ts, peer_id_ok id -> 0 < ts -> covered now ts (f !! Hex.EncodeToString id) ->
            covered now ts (foldl (load_timestamp (now - MaxTimestampSkew)) ∅ (map_to_list f) !! id)) as Hload.
  { intros f id ts Hid Hpos [(ts' & E & Hle)|Hold]; [|by right].
    destruct (decide (now - MaxTimestampSkew <= ts')) as [Hd|Hd]; [|right; lia].
    apply elem_of_map_to_list in E. pose proof (load_all_takes _ _ ∅ id ts' Hid E Hd) as Hl.
    destruct (foldl _ _ _ !! id) as [ts2|]; cbn in Hl; [|lia]. left. exists ts2. split; [done|lia]. }
  destruct (file n) as [f|] eqn:Ef; cbn [default from_option id].
  - split_and!; try done.
    + split; [|done|done]. split; [|done]. by apply load_all_ok.
    + intros id ts Hid Hpos [_ Hd]. unfold on_disk in Hd. rewrite Ef, bind_Some_eq in Hd. split; [by apply Hload|]. exact Hd.
  - split_and!; try done. intros id ts Hid Hpos [_ Hd]. unfold on_disk in Hd. rewrite Ef in Hd.
    destruct Hd as [(? & ? & _)|Hd]; [done|]. split; by right.
Qed.

Lemma hstep_keeps now n o :
  node_ok n -> hop_ok o ->
  match clock_of o with Some t => now <= t 0%nat /\ ticking t | None => True end ->
  let now' := match clock_of o with Some t => t 3%nat | None => now end in
  now <= now' /\ node_ok (hstep n o) /\ localID (mgr (hstep n o)) = localID (mgr n) /\
  forall id ts, peer_id_ok id -> 0 < ts -> remembers now id ts n -> remembers now' id ts (hstep n o).
Proof.
  intros Hn Ho Hc now'.
  assert (now <= now') as Hle. { unfold now'. destruct (clock_of o) as [t|]; [|lia]. destruct Hc as (? & ? & ? & _). lia. }
  assert (exists now1, now1 <= now' /\ now <= now1 /\ keeps_replay now1 n (hstep n o)) as (now1 & Hn1 & Hn2 & (Hk1 & Hk2 & _ & Hk)).
  { destruct o as [p random t|pkt addr random eph io t|p nonce ct|id|tb ss tf|tb tf t]; cbn [hstep hop_ok clock_of] in *.
    - exists now'. split_and!; [done|done|]. apply frame_keeps; [done|apply Initiate_frame].
    - subst io. exists now'. split_and!; [done|done|]. unfold HandlePacket. destruct (_ <? _)%nat; [by apply frame_keeps|].
      destruct (_ =? typeHandshakeInit); [destruct Hc as [_ Hc]; by apply (handleInit_keeps (drop headerSize pkt) addr random eph t n)|].
      destruct (_ =? typeHandshakeResp); [apply frame_keeps; [done|apply handleResp_frame]|by apply frame_keeps].
    - exists now'. split_and!; [done|done|]. apply frame_keeps; [done|apply HandleDataPacket_frame].
    - exists now'. split_and!; [done|done|]. apply frame_keeps; [done|]. by split.
    - exists now'. split_and!; [done|done|]. destruct Hn as [[Hk Hp] Ht Hi], Ho as [Htb Hids]. by split_and!.
    - exists (t 0%nat). destruct Hc as (? & ? & ? & _). split_and!; [unfold now'; lia|done|]. by apply restart_keeps; [|apply Ho..]. }
  split_and!; try done. intros id ts Hid Hpos Hm. apply remembers_mono with now1; [done|]. apply Hk; [done|done|].
  by apply remembers_mono with now.
Qed.

Lemma run_keeps ops : forall now n,
  node_ok n -> Forall hop_ok ops -> clocked now ops ->
  node_ok (foldl hstep n ops) /\ localID (mgr (foldl hstep n ops)) = localID (mgr n) /\
  forall id ts, peer_id_ok id -> 0 < ts -> remembers now id ts n -> remembers (end_time now ops) id ts (foldl hstep n ops).
Proof.
  induction ops as [|o ops IH]; intros now n Hn Hok Hc; [by split_and!|]. apply Forall_cons in Hok as [Ho Hok]. cbn [foldl].
  unfold end_time. cbn [foldl]. cbn [clocked] in Hc.
  destruct (hstep_keeps now n o Hn Ho) as (_ & Hn' & Hl & Hk). { destruct (clock_of o); [|done]. tauto. }
  destruct (IH (match clock_of o with Some t => t 3%nat | None => now end) (hstep n o) Hn' Hok) as (Hn2 & Hl2 & Hk2).
  { destruct (clock_of o); tauto. }
  split_and!; [done|congruence|]. intros id ts Hid Hpos Hm. apply Hk2; [done|done|]. by apply Hk.
Qed.

(** C5: An Init is taken in at most once: after a handshake message was taken in,
    the same message is dropped without any effect, whatever packets, restarts
    and changes of the peer table come between, as long as the replay file can
    be written and the clock does not run backwards. *)
Theorem init_not_replayed n msg addr random eph t ops addr' random' eph' io' t' :
  node_ok n -> ticking t -> handleInit msg addr random eph true t n <> (n, []) ->
  let n1 := (handleInit msg addr random eph true t n).1 in
  let n2 := foldl hstep n1 ops in
  Forall hop_ok ops -> clocked (t 3%nat) ops -> end_time (t 3%nat) ops <= t' 0%nat -> ticking t' ->
  handleInit msg addr' random' eph' io' t' n2 = (n2, []).
Proof.
  intros Hn Ht Hne n1 n2 Hok Hc He Ht'.
  destruct (handleInit_keeps msg addr random eph t n Hn Ht) as ((Hn1 & Hl1 & _ & _) & [E|(p & e & x & tsRaw & payload & Ha & Hrem)]); [done|].
  fold n1 in Hn1, Hl1, Hrem. destruct (run_keeps ops (t 3%nat) n1 Hn1 Hok Hc) as (Hn2 & Hl2 & Hk). fold n2 in Hn2, Hl2, Hk.
  destruct (handleInit_cases msg addr' random' eph' io' t' n2 (no_table _ Hn2)) as [E2|(p' & e' & x' & tsRaw' & payload' & result & msg2 & Hb & _ & _ & _)]; [done|].
  exfalso. pose proof (no_ids _ Hn _ _ (proj1 (ia_peer _ _ _ _ _ _ _ _ Ha))) as Hkok.
  destruct Ha as [(hs0 & hs1 & c1 & c2 & Er1 & Er2 & _) Hkey _ Hsig [Hts _] _ _].
  destruct Hb as [(hs0' & hs1' & c1' & c2' & Er1' & Er2' & _) Hkey' _ Hsig' [Hts' _] _ Hnew].
  rewrite Hl2, Hl1, Er1 in Er1'. injection Er1' as <-. rewrite Er2 in Er2'. injection Er2' as _ <- _ _.
  rewrite <- Hkey in Hkey'. rewrite Hkey' in *. rewrite <- Hts in Hts'. subst tsRaw'.
  assert (int64_ok tsRaw) as H64 by (rewrite Hts; apply i64_range).
  apply VerifyPeerSig_true in Hsig as [_ Hw]; [|done|]. 2: { destruct Ht as (_ & _ & [] & _). unfold MaxTimestampSkew, second in *. lia. }
  apply VerifyPeerSig_true in Hsig' as [_ Hw']; [|done|]. 2: { destruct Ht' as (_ & _ & [] & _). unfold MaxTimestampSkew, second in *. lia. }
  destruct (Hk (ID e) (NormalizeTimestamp tsRaw) Hkok) as [Hm _]; [destruct Ht as (_ & _ & [] & _); lia|done|].
  unfold newer in Hnew. destruct Hm as [(ts' & E' & Hle)|Hold]; [rewrite E' in Hnew; bool_to_prop; lia|]. lia.
Qed.

(** ** Sessions are installed for authenticated peers only *)
Definition sess_of n (p : ptr) : option (option sptr * option sptr) :=
  (fun e => (session e, pendingSession e)) <$> entries (peers n) !! p.

(** The pins accept the peer's key at its address. *)
Definition pin_accepts n (e : Entry) : Prop := (check_pin (addr_string (VPNAddr e)) (ID e) n).2 = true.

(** A response that is taken in: it comes from the peer's endpoint while an
    attempt is pending for the peer; the attempt's Noise state, which was set up
    with the static key [i_peerX25519], reads from it the payload that names the
    peer's key and carries its signature, and yields the keys of the session. *)
Record resp_accepted (msg : list Z) (addr : Dispatcher.Dispatcher.net_addr) (now : Z) n (p : ptr) (e : Entry) (phs : pendingHS)
    (result : HandshakeResult) : Prop := {
  ra_entry : entries (peers n) !! p = Some e;
  ra_endpoint : exists ep, Dispatcher.Dispatcher.addrToAddrPort addr = Some ep /\ LookupByEndpoint ep (peers n) = Some p;
  ra_pending : exists q, pending (mgr n) !! ID e = Some q /\ heap (mgr n) !! q = Some phs;
  ra_read : exists p1 hs0 hs1 m x y hs2 payload,
    i_payload1 (hs phs) = Some p1 /\
    new_initiator (X25519Private (i_localID (hs phs))) (X25519Public (i_localID (hs phs))) (i_peerX25519 (hs phs)) = Some hs0 /\
    WriteMessage (i_ephSeed (hs phs)) hs0 p1 = Some (hs1, m, x, y) /\
    ReadMessage hs1 msg = Some (hs2, payload, Session.Session.hr_SendCS result, Session.Session.hr_RecvCS result) /\
    field payload 0 32 = ID e /\ Session.Session.hr_PeerEd25519Public result = ID e /\
    VerifyPeerSig (ID e) (i_peerX25519 (hs phs)) (X25519Public (i_localID (hs phs))) (field payload 32 96)
      (i64 (be_get (field payload 104 112))) now = true
}.

Lemma handleResp_read_inv msg addr now n p e q result :
  handleResp_read msg addr now n = Some (p, e, q, result) ->
  Session.Session.hr_PeerEd25519Public result = ID e /\ pending (mgr n) !! ID e = Some q /\
  exists phs, resp_accepted msg addr now n p e phs result.
Proof.
  unfold handleResp_read. destruct (Dispatcher.Dispatcher.addrToAddrPort addr) as [ep|] eqn:E1; [|done]. rewrite bind_Some_eq.
  destruct (LookupByEndpoint ep (peers n)) as [p'|] eqn:E2; [|done]. rewrite bind_Some_eq.
  destruct (entries (peers n) !! p') as [e'|] eqn:E3; [|done]. rewrite bind_Some_eq.
  destruct (pending (mgr n) !! ID e') as [q'|] eqn:E4; [|done]. rewrite bind_Some_eq.
  destruct (heap (mgr n) !! q') as [phs|] eqn:E5; [|done]. rewrite bind_Some_eq.
  destruct (ProcessMessage2 (hs phs) msg now) as [r|] eqn:E6; [|done]. rewrite bind_Some_eq.
  case_bool_decide as E7; [|done]. intros [= <- <- <- <-]. split_and!; [done|done|]. exists phs.
  split; [done|by exists ep|by exists q'|].
  apply ProcessMessage2_inv in E6 as (p1 & hs0 & hs1 & m & x & y & hs2 & payload & H1 & H2 & H3 & H4 & Ek & _ & Ev).
  exists p1, hs0, hs1, m, x, y, hs2, payload. rewrite <- Ek, E7 in Ev. split_and!; try done. by rewrite <- Ek.
Qed.

(** *** The attempts of a run *)















Lemma sess_of_upd n p q f :
  p <> q -> sess_of (upd_entry q f n) p = sess_of n p.
Proof. intros Hne. unfold sess_of, upd_entry. cbn. by rewrite lookup_alter_ne. Qed.

Lemma sess_of_claim n p id ep : sess_of (with_peers (ClaimEndpoint id ep (peers n)).2 n) p = sess_of n p.
Proof.
  unfold sess_of, ClaimEndpoint, setEndpoint. cbn [peers with_peers].
  destruct (byID (peers n) !! id) as [q|]; [|done]. rewrite andb_false_r. cbn [snd entries].
  assert (forall (h : gmap ptr Entry) r ep0, (fun e => (session e, pendingSession e)) <$> alter (SetEndpoint ep0) r h !! p =
            ((fun e => (session e, pendingSession e)) <$> h !! p)) as Halt.
  { intros h r ep0. destruct (decide (r = p)) as [->|Hne]; [|by rewrite lookup_alter_ne]. rewrite lookup_alter_eq. by destruct (h !! p). }
  rewrite Halt. destruct (if ap_valid ep then _ else _) as [o|]; [|done]. destruct (negb _); [apply Halt|done].
Qed.

Lemma session_change pkt addr random eph io t n n' evs p e :
  table_ok (peers n) -> entries (peers n) !! p = Some e ->
  HandlePacket pkt addr random eph io t n = (n', evs) -> sess_of n' p <> sess_of n p ->
  pin_accepts n e /\
  ((exists x tsRaw payload, init_accepted (drop headerSize pkt) (t 0%nat) n p e x tsRaw payload /\
      fst <$> sess_of n' p = Some (session e)) \/
   (exists phs result i, resp_accepted (drop headerSize pkt) addr (t 0%nat) n p e phs result /\ evs = [SessionEstablished p] /\
      pending (mgr n') !! ID e = None /\ fst <$> sess_of n' p = Some (Some i) /\
      sessions n' !! i = Some (Session.Session.New result (t 1%nat)))).
Proof.
  intros Ht He Hh Hne. unfold HandlePacket in Hh. destruct (_ <? _)%nat; [by injection Hh as <- <-|].
  destruct (_ =? typeHandshakeInit).
  - destruct (handleInit_cases (drop headerSize pkt) addr random eph io t n Ht) as [E|(p' & e' & x & tsRaw & payload & result & msg2 & Ha & _ & _ & E)];
      rewrite E in Hh; [by injection Hh as <- <-|].
    destruct (ia_peer _ _ _ _ _ _ _ _ Ha) as (_ & He' & _).
    set (n1 := record_init io (ID e') (NormalizeTimestamp tsRaw) (t 2%nat) n) in Hh.
    assert (peers n1 = peers n /\ tofu n1 = tofu n) as [Ep Etf].
    { unfold n1, record_init. destruct (replayPath _); [|done]. by destruct io. }
    unfold answer_init in Hh. destruct (check_pin _ _ n1) as [n2 ok] eqn:Ec.
    assert (ok = (check_pin (addr_string (VPNAddr e')) (ID e') n).2 /\ peers n2 = peers n) as [Eok Ep2].
    { pose proof Ec as Ec'. apply check_pin_frame in Ec' as (_ & _ & _ & ->). split; [|done].
      unfold check_pin in *. rewrite Etf in Ec. destruct TOFUCheck as [f|]; [|by injection Ec as <- <-].
      destruct (f _ _ _) as [tf b]. by injection Ec as <- <-. }
    destruct ok; cbn [negb] in Hh; [|injection Hh as <- <-; unfold sess_of in Hne; by rewrite Ep2 in Hne].
    set (n3 := match Dispatcher.Dispatcher.addrToAddrPort addr with Some ep => _ | None => n2 end) in Hh.
    assert (forall r, sess_of n3 r = sess_of n r) as Hn3.
    { intros r. unfold n3. destruct (Dispatcher.Dispatcher.addrToAddrPort addr); [rewrite sess_of_claim|]; unfold sess_of; by rewrite Ep2. }
    cbn [alloc_session] in Hh. injection Hh as <- <-.
    destruct (decide (p = p')) as [<-|Hp].
    2: { rewrite sess_of_upd in Hne by done. destruct Hne. by rewrite <- (Hn3 p). }
    rewrite He in He'. injection He' as <-. split; [done|]. left. exists x, tsRaw, payload. split; [done|].
    specialize (Hn3 p). unfold sess_of in *. cbn. rewrite lookup_alter_eq. rewrite He in Hn3.
    destruct (entries (peers n3) !! p); [|done]. cbn in *. by injection Hn3 as -> _.
  - destruct (_ =? typeHandshakeResp); [|by injection Hh as <- <-]. unfold handleResp in Hh.
    destruct (handleResp_read _ _ _ _) as [[[[p' e'] q] result]|] eqn:Er; [|by injection Hh as <- <-].
    apply handleResp_read_inv in Er as (Ek & Eq & phs & Hra). rewrite Ek in Hh.
    pose proof (ra_entry _ _ _ _ _ _ _ _ Hra) as He'.
    destruct (check_pin _ _ n) as [n2 ok] eqn:Ec. pose proof Ec as Ec'. apply check_pin_frame in Ec' as (_ & _ & Em & Ep2).
    destruct ok; cbn [negb] in Hh; [|injection Hh as <- <-; unfold sess_of in Hne; by rewrite Ep2 in Hne].
    unfold handleResp_complete in Hh. rewrite Em, bool_decide_true in Hh by done. cbn [negb alloc_session] in Hh. injection Hh as <- <-.
    destruct (decide (p = p')) as [<-|Hp].
    + rewrite He in He'. injection He' as <-. split; [unfold pin_accepts; by rewrite Ec|]. right. exists phs, result. eexists. split_and!; [done|done| | |].
      * cbn. apply lookup_delete_eq.
      * unfold sess_of. cbn. rewrite lookup_alter_eq, Ep2, He. reflexivity.
      * cbn. apply lookup_insert_eq.
    + rewrite sess_of_upd in Hne by done. unfold sess_of in Hne. cbn in Hne. by rewrite Ep2 in Hne.
Qed.


(** ** Unanswered initiations are spaced *)

(** The last Init to [id] was sent at [c]: the attempt is pending and not older,
    or the retry timeout has passed. *)
Definition spaced (id : list Z) (c now : Z) (m : Manager) : Prop :=
  c <= now /\
  match pending m !! id with
  | Some q => exists phs, heap m !! q = Some phs /\ c <= createdAt phs
  | None => c + handshakeRetryTimeout <= now
  end.

(** Calls of [Initiate], and the times at which those for [id] send a message. *)
Definition call : Type := ptr * option (list Z) * (nat -> Z).

Definition is_peer n (p : ptr) (id : list Z) : bool :=
  match entries (peers n) !! p with Some e => bool_decide (ID e = id) | None => false end.

Definition sent (evs : list event) : bool := match evs with [] => false | _ => true end.

Fixpoint sends (id : list Z) (calls : list call) n : list Z :=
  match calls with
  | [] => []
  | (p, random, t) :: cs =>
      let '(n', evs) := Initiate p random t n in
      (if is_peer n p id && sent evs then [t 3%nat] else []) ++ sends id cs n'
  end.

Fixpoint calls_clocked (now : Z) (calls : list call) : Prop :=
  match calls with
  | [] => True
  | (_, _, t) :: cs => now <= t 0%nat /\ t 0%nat <= t 1%nat <= t 2%nat /\ t 2%nat <= t 3%nat /\ calls_clocked (t 3%nat) cs
  end.

Lemma spaced_mono id c now now' m : now <= now' -> spaced id c now m -> spaced id c now' m.
Proof. unfold spaced. intros Hle [Hc Hm]. split; [lia|]. destruct (pending m !! id); [done|lia]. Qed.

(** The preparation either stops, or leaves the timeout behind it. *)
Lemma prepare_retry_spaced id id' c t m :
  spaced id' c (t 0%nat) m -> t 0%nat <= t 1%nat ->
  spaced id' c (t 1%nat) (outcome (prepare_retry id t m)) /\
  (id = id' -> match prepare_retry id t m with inl _ => True | inr _ => c + handshakeRetryTimeout <= t 0%nat end).
Proof.
  intros [Hc Hm] Hle. unfold prepare_retry. destruct (pending m !! id) as [q|] eqn:Eq.
  2: { split; [by apply spaced_mono with (t 0%nat)|]. intros <-. by rewrite Eq in Hm. }
  destruct (heap m !! q) as [phs|] eqn:Eh; [|split; [by apply spaced_mono with (t 0%nat)|done]].
  destruct (_ <? handshakeRetryTimeout) eqn:E1; [split; [by apply spaced_mono with (t 0%nat)|done]|]. bool_to_prop.
  assert (id = id' -> c + handshakeRetryTimeout <= t 0%nat) as Hid.
  { intros <-. rewrite Eq in Hm. destruct Hm as (phs' & E & Hcr). rewrite Eh in E. injection E as <-. lia. }
  destruct (maxHandshakeRetries <=? retries phs); cbn [outcome].
  - split; [|done]. split; [lia|]. cbn. destruct (decide (id' = id)) as [->|Hne].
    + rewrite lookup_delete_eq. specialize (Hid eq_refl). lia.
    + rewrite lookup_delete_ne by done. destruct (pending m !! id'); [done|lia].
  - split; [|done]. split; [lia|]. cbn. destruct (pending m !! id') as [q'|]; [|lia].
    destruct Hm as (phs' & E & Hcr). destruct (decide (q' = q)) as [->|Hne].
    + eexists. rewrite lookup_insert_eq. split; [done|]. cbn. lia.
    + exists phs'. by rewrite lookup_insert_ne.
Qed.

Lemma Initiate_spaced id c n p random t :
  t 0%nat <= t 1%nat <= t 2%nat /\ t 2%nat <= t 3%nat -> spaced id c (t 0%nat) (mgr n) ->
  let '(n', evs) := Initiate p random t n in
  if is_peer n p id && sent evs
  then c + handshakeRetryTimeout <= t 3%nat /\ spaced id (t 3%nat) (t 3%nat) (mgr n')
  else spaced id c (t 3%nat) (mgr n').
Proof.
  intros Ht Hs. unfold Initiate, is_peer. destruct (entries (peers n) !! p) as [e|] eqn:Ee.
  2: { apply spaced_mono with (t 0%nat); [lia|done]. }
  destruct (prepare_retry_spaced (ID e) id c t (mgr n) Hs ltac:(lia)) as [Hs' Hto].
  destruct (prepare_retry (ID e) t (mgr n)) as [m|[m q]]; cbn [outcome] in Hs'.
  { cbn [sent]; rewrite andb_false_r. apply spaced_mono with (t 1%nat); [lia|done]. }
  destruct (_ ← _; _) as [[h msg1]|].
  2: { cbn [sent]; rewrite andb_false_r. cbn. apply spaced_mono with (t 1%nat); [lia|]. destruct q as [q|]; [|done].
       destruct Hs' as [Hc Hm]. split; [done|]. cbn. destruct (pending m !! id) as [q'|]; [|done].
       destruct Hm as (phs & E & Hcr). destruct (decide (q = q')) as [->|Hne].
       - rewrite lookup_alter_eq, E. by eexists.
       - rewrite lookup_alter_ne by done. by exists phs. }
  destruct (ap_valid (endpoint e)); cbn [negb].
  - destruct (decide (ID e = id)) as [<-|Hid].
    + rewrite bool_decide_true by done. cbn [sent andb]. specialize (Hto eq_refl). split; [lia|].
      split; [lia|]. cbn. rewrite lookup_insert_eq. eexists. by rewrite lookup_insert_eq.
    + rewrite bool_decide_false by done. cbn [andb]. destruct Hs' as [Hc Hm]. split; [lia|]. cbn. rewrite lookup_insert_ne by done.
      destruct (pending m !! id) as [q'|]; [|lia]. destruct Hm as (phs & E & Hcr). destruct (decide (q' = next m)) as [->|Hne].
      * eexists. rewrite lookup_insert_eq. split; [done|]. cbn. lia.
      * exists phs. by rewrite lookup_insert_ne.
  - cbn [sent]; rewrite andb_false_r. destruct Hs' as [Hc Hm]. split; [lia|]. cbn.
    destruct (decide (ID e = id)) as [<-|Hid].
    + rewrite delete_insert_eq, lookup_delete_eq. specialize (Hto eq_refl). lia.
    + rewrite lookup_delete_ne, lookup_insert_ne by done. destruct (pending m !! id) as [q'|]; [|lia].
      destruct Hm as (phs & E & Hcr). destruct (decide (q' = next m)) as [->|Hne].
      * eexists. rewrite lookup_insert_eq. split; [done|]. cbn. lia.
      * exists phs. by rewrite lookup_insert_ne.
Qed.

Lemma Initiate_first id n p random t :
  t 0%nat <= t 1%nat <= t 2%nat /\ t 2%nat <= t 3%nat ->
  let '(n', evs) := Initiate p random t n in
  is_peer n p id && sent evs = true -> spaced id (t 3%nat) (t 3%nat) (mgr n').
Proof.
  intros Ht. unfold Initiate, is_peer. destruct (entries (peers n) !! p) as [e|] eqn:Ee; [|done].
  destruct (prepare_retry (ID e) t (mgr n)) as [m|[m q]]; [by cbn [sent]; rewrite andb_false_r|].
  destruct (_ ← _; _) as [[h msg1]|]; [|by cbn [sent]; rewrite andb_false_r].
  destruct (ap_valid (endpoint e)); cbn [negb]; [|by cbn [sent]; rewrite andb_false_r].
  case_bool_decide as Hid; [|done]. intros _. subst id. split; [lia|]. cbn. rewrite lookup_insert_eq. eexists. by rewrite lookup_insert_eq.
Qed.

Lemma sends_after id calls : forall c n now,
  now <= match calls with (_, _, t) :: _ => t 0%nat | [] => now end -> calls_clocked now calls -> spaced id c now (mgr n) ->
  match sends id calls n with [] => True | x :: _ => c + handshakeRetryTimeout <= x end /\
  Sorted (fun a b => a + handshakeRetryTimeout <= b) (sends id calls n).
Proof.
  induction calls as [|[[p random] t] cs IH]; intros c n now _ Hc Hs; cbn [sends]; [by split|].
  destruct Hc as (Hn & Ht1 & Ht2 & Hc).
  pose proof (Initiate_spaced id c n p random t (conj Ht1 Ht2) (spaced_mono _ _ _ _ _ Hn Hs)) as Hstep.
  destruct (Initiate p random t n) as [n' evs]. destruct (is_peer n p id && _).
  - destruct Hstep as [Hgap Hs']. destruct (IH (t 3%nat) n' (t 3%nat)) as [Hhd Hsort]; [|done|done|].
    { destruct cs as [|[[? ?] t'] ?]; [done|]. by destruct Hc. }
    cbn [app]. split; [done|]. constructor; [done|]. destruct (sends id cs n'); [constructor|by constructor].
  - cbn [app]. apply (IH c n' (t 3%nat)); [|done|done]. destruct cs as [|[[? ?] t'] ?]; [done|]. by destruct Hc.
Qed.

(** A peer that does not answer is sent at most one Init per five seconds,
    however often and for whatever peers the data plane asks for handshakes, and
    whatever attempts fail. *)
Theorem inits_spaced id calls n now :
  calls_clocked now calls -> Sorted (fun a b => a + handshakeRetryTimeout <= b) (sends id calls n).
Proof.
  revert n now. induction calls as [|[[p random] t] cs IH]; intros n now; cbn [sends calls_clocked]; [constructor|].
  intros (Hn & Ht1 & Ht2 & Hc). pose proof (Initiate_first id n p random t (conj Ht1 Ht2)) as Hfirst.
  destruct (Initiate p random t n) as [n' evs]. destruct (is_peer n p id && _); [|by apply (IH n' (t 3%nat))].
  destruct (sends_after id cs (t 3%nat) n' (t 3%nat)) as [Hhd Hsort]; [|done|by apply Hfirst|].
  { destruct cs as [|[[? ?] t'] ?]; [done|]. by destruct Hc. }
  cbn [app]. constructor; [done|]. destruct (sends id cs n'); [constructor|by constructor].
Qed.

End Proofs.

(** ** Two honest nodes complete the handshake *)
Section Complete.
Context `{NoiseIK} {T : Type} `{Pinning T}.
Implicit Types n : Node (T := T).
Abbreviation UDP := Dispatcher.Dispatcher.UDPAddr.

Lemma buildPacket_parts ty msg :
  0 <= ty < 2 ^ 32 ->
  (length (buildPacket ty msg) <? headerSize)%nat = false /\ be_get (take 4 (buildPacket ty msg)) = ty /\
  drop headerSize (buildPacket ty msg) = msg.
Proof.
  intros Hty. unfold buildPacket. split_and!.
  - apply Nat.ltb_ge. rewrite !length_app, length_be_put. unfold zeros, headerSize. rewrite length_replicate. lia.
  - rewrite take_app_length' by (by rewrite length_be_put). rewrite be_get_put. unfold u32. rewrite wrap_small by done.
    apply Z.mod_small. done.
  - rewrite app_assoc. apply drop_app_length'. by rewrite length_app, length_be_put.
Qed.

Lemma HandlePacket_init msg addr random eph io t n :
  HandlePacket (buildPacket typeHandshakeInit msg) addr random eph io t n = handleInit msg addr random eph io t n.
Proof. unfold HandlePacket. by destruct (buildPacket_parts typeHandshakeInit msg) as (-> & -> & ->). Qed.

Lemma HandlePacket_resp msg addr random eph io t n :
  HandlePacket (buildPacket typeHandshakeResp msg) addr random eph io t n = handleResp msg addr t n.
Proof. unfold HandlePacket. by destruct (buildPacket_parts typeHandshakeResp msg) as (-> & -> & ->). Qed.

(** A first attempt: what is sent and what is pending afterwards. *)
Lemma Initiate_fresh p e h h1 msg1 seed t n :
  entries (peers n) !! p = Some e -> pending (mgr n) !! ID e = None -> ap_valid (endpoint e) = true ->
  NewInitiatorHS (localID (mgr n)) (X25519Pub e) (networkID (mgr n)) (Some seed) = Some h ->
  BuildMessage1 h (t 2%nat) = Some (h1, msg1) ->
  Initiate p (Some seed) t n =
    (upd_entry p (SetState StateHandshaking) (with_mgr (store_pending (ID e) h1 (t 3%nat) 0 (mgr n)) n),
     [SendTo (buildPacket typeHandshakeInit msg1) (UDP (endpoint e))]).
Proof.
  intros He Hp Hv Eh E1. unfold Initiate. rewrite He. unfold prepare_retry. rewrite Hp. rewrite Eh, bind_Some_eq, E1, Hv. reflexivity.
Qed.

(** An Init that passes every check. *)
Lemma handleInit_accept msg addr sid eph io t n hr hr1 ts msg2 result p e :
  NewResponderHS (localID (mgr n)) (PeerLookupFn (peers n)) = Some hr -> ProcessMessage1 hr msg (t 0%nat) = Some (hr1, ts) ->
  BuildMessage2 hr1 (Some sid) eph (t 1%nat) = Some (msg2, result) ->
  Session.Session.hr_NetworkID result = networkID (mgr n) -> Session.Session.hr_PeerEd25519Public result = ID e ->
  byID (peers n) !! ID e = Some p -> entries (peers n) !! p = Some e ->
  NormalizeTimestamp ts <> 0 -> newer (ID e) (NormalizeTimestamp ts) (mgr n) = true ->
  handleInit msg addr (Some sid) eph io t n =
    answer_init addr p e result msg2 (t 3%nat) (record_init io (ID e) (NormalizeTimestamp ts) (t 2%nat) n).
Proof.
  intros E1 E2 E3 En Ek Hp He Hz Hnew. unfold handleInit. rewrite E1, bind_Some_eq, E2, E3, Ek, En.
  rewrite bool_decide_true by done. cbn [negb]. unfold LookupByID. rewrite Hp, He, (proj2 (Z.eqb_neq _ _)), Hnew by done. reflexivity.
Qed.

Lemma pin_accepts_tofu n n' e : tofu n' = tofu n -> pin_accepts n e -> exists n2, check_pin (addr_string (VPNAddr e)) (ID e) n' = (n2, true) /\ exists t, n2 = with_tofu t n'.
Proof.
  unfold pin_accepts. intros Et Hp. destruct (check_pin _ _ n') as [n2 ok] eqn:E. pose proof (check_pin_eq _ _ _ _ _ E) as Hn2.
  exists n2. split; [|done]. f_equal. unfold check_pin in *. rewrite Et in E. destruct TOFUCheck as [f|]; [|by injection E as _ <-].
  destruct (f _ _ _) as [tf b]. cbn in Hp. by injection E as _ <-.
Qed.

(** The session a node holds for a peer. *)
Definition session_at n (p : ptr) (s : Sess) : Prop :=
  exists e i, entries (peers n) !! p = Some e /\ session e = Some i /\ sessions n !! i = Some s.
Definition pending_at n (p : ptr) (s : Sess) : Prop :=
  exists e i, entries (peers n) !! p = Some e /\ pendingSession e = Some i /\ sessions n !! i = Some s.

Lemma answer_init_pending addr p e result msg2 now n :
  entries (peers n) !! p = Some e -> pin_accepts n e ->
  exists n', answer_init addr p e result msg2 now n = (n', [SendTo (buildPacket typeHandshakeResp msg2) addr]) /\
             pending_at n' p (Session.Session.New result now).
Proof.
  intros He Hpin. unfold answer_init. destruct (pin_accepts_tofu n n e eq_refl Hpin) as (n2 & -> & t & ->). cbn [negb].
  set (n3 := match Dispatcher.Dispatcher.addrToAddrPort addr with Some ep => _ | None => with_tofu t n end).
  assert (exists e3, entries (peers n3) !! p = Some e3) as [e3 He3].
  { assert (sess_of n3 p = sess_of n p) as Hs.
    { unfold n3. destruct (Dispatcher.Dispatcher.addrToAddrPort addr); [apply (sess_of_claim (with_tofu t n))|done]. }
    unfold sess_of in Hs. rewrite He in Hs. destruct (entries (peers n3) !! p) as [e3|]; [by exists e3|done]. }
  eexists. split; [reflexivity|]. exists (SetPendingSession (Some (fresh (dom (sessions n3)))) e3), (fresh (dom (sessions n3))).
  cbn. rewrite lookup_alter_eq, He3. split_and!; [done|done|]. apply lookup_insert_eq.
Qed.

(** A response to the pending attempt. *)
Lemma handleResp_accept msg addr ep t n p e q phs result :
  Dispatcher.Dispatcher.addrToAddrPort addr = Some ep -> LookupByEndpoint ep (peers n) = Some p -> entries (peers n) !! p = Some e ->
  pending (mgr n) !! ID e = Some q -> heap (mgr n) !! q = Some phs -> ProcessMessage2 (hs phs) msg (t 0%nat) = Some result ->
  Session.Session.hr_PeerEd25519Public result = ID e -> pin_accepts n e ->
  exists n', handleResp msg addr t n = (n', [SessionEstablished p]) /\ session_at n' p (Session.Session.New result (t 1%nat)).
Proof.
  intros Ea Ee He Hq Hh E2 Ek Hpin. unfold handleResp, handleResp_read.
  rewrite Ea, bind_Some_eq, Ee, bind_Some_eq, He, bind_Some_eq, Hq, bind_Some_eq, Hh, bind_Some_eq, E2, bind_Some_eq, bool_decide_true by done.
  rewrite Ek. destruct (pin_accepts_tofu n n e eq_refl Hpin) as (n2 & -> & tf & ->). cbn [negb].
  unfold handleResp_complete. rewrite bool_decide_true by done. cbn [negb]. eexists. split; [reflexivity|].
  exists (SetSession (Some (fresh (dom (sessions n)))) e), (fresh (dom (sessions n))). cbn. rewrite lookup_alter_eq, He.
  split_and!; [done|done|]. apply lookup_insert_eq.
Qed.

(** The first packet of a session is delivered and confirms it. *)
Lemma first_packet_confirms n p (ra rb : HandshakeResult) ta tb pt :
  Session.Session.CipherPair (Session.Session.hr_SendCS ra) (Session.Session.hr_RecvCS rb) -> pt <> [] ->
  pending_at n p (Session.Session.New rb tb) ->
  exists ct n' sb, (Session.Session.Encrypt (Session.Session.New ra ta) pt).2 = Ok (0, ct) /\
    HandleDataPacket p 0 ct n = (n', [SessionEstablished p], Some pt) /\ session_at n' p sb /\
    Session.Session.s_send sb = Session.Session.hr_SendCS rb.
Proof.
  intros Hcp Hpt (e & i & He & Hi & Hs). exists (Session.Session.c_seal (Session.Session.hr_SendCS ra) 0 pt).
  unfold HandleDataPacket. rewrite He, Hi, Hs. unfold Session.Session.Decrypt. cbn [Session.Session.New Session.Session.s_recv Session.Session.s_window].
  change (Session.Session.RekeyThreshold <=? 0) with false. change (negb (Window.check Window.zero 0)) with false.
  rewrite Session.Session.open_seal by done. destruct (Window.checkAndMark Window.zero 0) as [w ok] eqn:Ew.
  assert (ok = true) as -> by (change ok with (w, ok).2; rewrite <- Ew; by vm_compute). cbv beta iota.
  do 2 eexists. split; [done|]. unfold PromotePendingSession at 2. rewrite Hi. split; [reflexivity|].
  split.
  - exists (with_sessions (Some i) None (match session e with Some _ => session e | None => prevSession e end) StateConnected e), i.
    split_and!; [|done|apply lookup_insert_eq]. unfold upd_entry. cbn [peers with_peers entries with_entries].
    rewrite lookup_alter_eq, He. cbn. unfold PromotePendingSession. by rewrite Hi.
  - reflexivity.
Qed.

(** Node [na] knows node [nb] as the entry [e] at [p]. *)
Record knows n (id : Identity) (p : ptr) (e : Entry) : Prop := {
  kn_entry : entries (peers n) !! p = Some e;
  kn_id : ID e = Ed25519Public id;
  kn_key : X25519Pub e = X25519Public id;
  kn_index : byID (peers n) !! ID e = Some p;
  kn_pin : pin_accepts n e
}.

(** Two nodes that know each other complete a handshake in one exchange.  The
    initiator sends one Init, the responder answers it and keeps a pending
    session, the initiator installs its session on the answer; the two sessions
    pair up in both directions, and the initiator's first packet, whatever it
    holds, is delivered by the responder and confirms its session. *)
Theorem handshake_completes a b net na nb pB eB pA eA seed eph sid epA io io' r' eph' t u v pt :
  identity_ok a -> identity_ok b -> length net = 16%nat -> length sid = 8%nat ->
  localID (mgr na) = a -> localID (mgr nb) = b -> networkID (mgr na) = net -> networkID (mgr nb) = net ->
  knows na b pB eB -> knows nb a pA eA ->
  ap_valid (endpoint eB) = true -> Dispatcher.Dispatcher.unmap_port (endpoint eB) = endpoint eB ->
  byEndpoint (peers na) !! endpoint eB = Some pB -> pending (mgr na) !! ID eB = None ->
  in_skew (t 2%nat) (u 0%nat) -> in_skew (u 1%nat) (v 0%nat) ->
  NormalizeTimestamp (t 2%nat) <> 0 -> newer (ID eA) (NormalizeTimestamp (t 2%nat)) (mgr nb) = true -> pt <> [] ->
  exists na1 pkt1 nb1 pkt2 na2 sa sb ct nb2 sb',
    Initiate pB (Some seed) t na = (na1, [SendTo pkt1 (UDP (endpoint eB))]) /\
    HandlePacket pkt1 (UDP epA) (Some sid) eph io u nb = (nb1, [SendTo pkt2 (UDP epA)]) /\ pending_at nb1 pA sb /\
    HandlePacket pkt2 (UDP (endpoint eB)) r' eph' io' v na1 = (na2, [SessionEstablished pB]) /\ session_at na2 pB sa /\
    Session.Session.CipherPair (Session.Session.s_send sa) (Session.Session.s_recv sb) /\
    Session.Session.CipherPair (Session.Session.s_send sb) (Session.Session.s_recv sa) /\
    (Session.Session.Encrypt sa pt).2 = Ok (0, ct) /\
    HandleDataPacket pA 0 ct nb1 = (nb2, [SessionEstablished pA], Some pt) /\ session_at nb2 pA sb' /\
    Session.Session.s_send sb' = Session.Session.s_send sb.
Proof.
  intros Ha Hb Hnet Hsid La Lb Na Nb [HeB HiB HkB _ HpB] [HeA HiA HkA HxA HpA] Hv Hum Hep Hpend Hf1 Hf2 Hz Hnew Hpt.
  assert (PeerLookupFn (peers nb) (Ed25519Public a) = Some (X25519Public a)) as Hlook.
  { unfold PeerLookupFn. rewrite (io_len a Ha). cbn [Nat.eqb negb]. rewrite <- HiA, HxA, bind_Some_eq, HeA. cbn. by rewrite HkA. }
  destruct (handshake_pairs a b net seed eph sid (t 2%nat) (u 0%nat) (u 1%nat) (v 0%nat) (PeerLookupFn (peers nb)) Ha Hb Hnet Hsid Hlook Hf1 Hf2)
    as (h & h1 & msg1 & hr & hr1 & msg2 & ra & rb & E1 & E2 & E3 & E4 & E5 & E6 & [Cf Cb Ka Kb Ma Mb _ _]).
  rewrite <- La, <- HkB, <- Na in E1. pose proof (Initiate_fresh pB eB h h1 msg1 seed t na HeB Hpend Hv E1 E2) as EI.
  rewrite <- Lb in E3. rewrite <- HiA in Kb. rewrite <- HiB in Ka.
  pose proof (handleInit_accept msg1 (UDP epA) sid eph io u nb hr hr1 (t 2%nat) msg2 rb pA eA E3 E4 E5 (eq_trans Mb (eq_sym Nb)) Kb HxA HeA Hz Hnew) as EH.
  set (nr := record_init io (ID eA) (NormalizeTimestamp (t 2%nat)) (u 2%nat) nb) in EH.
  assert (peers nr = peers nb /\ tofu nr = tofu nb) as [Er1 Er2]. { unfold nr, record_init. destruct (replayPath _); [|done]. by destruct io. }
  destruct (answer_init_pending (UDP epA) pA eA rb msg2 (u 3%nat) nr) as (nb1 & EA & Hpa).
  { by rewrite Er1. }
  { destruct (pin_accepts_tofu nb nr eA Er2 HpA) as (n2 & E & _). unfold pin_accepts. by rewrite E. }
  set (na1 := upd_entry pB _ _) in EI.
  destruct (handleResp_accept msg2 (UDP (endpoint eB)) (endpoint eB) v na1 pB (SetState StateHandshaking eB) (next (mgr na))
              {| hs := h1; peerID := ID eB; createdAt := t 3%nat; retries := 0 |} ra) as (na2 & ER & Hsa).
  { unfold Dispatcher.Dispatcher.addrToAddrPort. by rewrite Hum, Hv. }
  { done. }
  { cbn. by rewrite lookup_alter_eq, HeB. }
  { cbn. apply lookup_insert_eq. }
  { cbn. apply lookup_insert_eq. }
  { exact E6. }
  { exact Ka. }
  { destruct (pin_accepts_tofu na na1 eB eq_refl HpB) as (n2 & E & _).
    change (pin_accepts na1 eB). unfold pin_accepts. by rewrite E. }
  destruct (first_packet_confirms nb1 pA ra rb (v 1%nat) (u 3%nat) pt Cf Hpt Hpa) as (ct & nb2 & sb' & Ec & Ed & Hsb & Hsend).
  exists na1, (buildPacket typeHandshakeInit msg1), nb1, (buildPacket typeHandshakeResp msg2), na2.
  exists (Session.Session.New ra (v 1%nat)), (Session.Session.New rb (u 3%nat)), ct, nb2, sb'.
  rewrite HandlePacket_init, HandlePacket_resp. split_and!; try done. by rewrite EH.
Qed.

End Complete.

(** ** With the store of pins *)
Section Pinned.
Context `{NoiseLib}.
Variable iter : gmap string Tofu.Tofu.pinValue -> list (string * Tofu.Tofu.pinValue).

(** The daemon's wiring: any error of the store refuses the handshake. *)
#[local] Instance tofu_pinning : Pinning Tofu.Tofu.Store := Some (fun vpnAddr pub s =>
  let '(s', res) := Tofu.Tofu.Check sha256 iter true vpnAddr pub s in (s', is_ok res)).

(** While the VPN address of a peer is pinned to another key, no packet
    changes the peer's sessions: neither an Init nor a response gets it one. *)
Theorem pinned_elsewhere_no_session pkt addr random eph io t (n : Node (T := Tofu.Tofu.Store)) n' evs p e k :
  table_ok (peers n) -> entries (peers n) !! p = Some e -> Tofu.Tofu.store_ok sha256 (tofu n) -> Tofu.Tofu.key_ok (ID e) ->
  k <> Tofu.Tofu.pubKeyString (ID e) -> addr_string (VPNAddr e) ∈ Tofu.Tofu.held (tofu n) k ->
  HandlePacket pkt addr random eph io t n = (n', evs) -> sess_of n' p = sess_of n p.
Proof.
  intros Ht He Hs Hk Hne Hin Hh. destruct (decide (sess_of n' p = sess_of n p)) as [|Hch]; [done|]. exfalso.
  destruct (session_change pkt addr random eph io t n n' evs p e Ht He Hh Hch) as [Hpin _].
  unfold pin_accepts, check_pin, TOFUCheck, tofu_pinning in Hpin.
  destruct (Tofu.Tofu.Check_step sha256 iter true (addr_string (VPNAddr e)) (ID e) (tofu n) Hs Hk) as [[_ E]|[Hno _]].
  - by rewrite E in Hpin.
  - apply Hno. by exists k.
Qed.

End Pinned.

(** ** A small network

    A library without secrecy: messages carry their payloads in the clear, a
    signature is the start of the public key and the message.  Nodes [a] and
    [b] know each other; pinning is off. *)
Record demo_hs := { d_initiator : bool; d_pub : list Z; d_peer : list Z }.

Definition demo_sign (pub m : list Z) : list Z := array 64 (pub ++ m).

Definition demo_lib : NoiseLib :=
  {| HandshakeState := demo_hs;
     new_initiator _ pub peer := Some {| d_initiator := true; d_pub := pub; d_peer := peer |};
     new_responder _ pub := Some {| d_initiator := false; d_pub := pub; d_peer := [] |};
     WriteMessage _ h p := Some (h, (if d_initiator h then d_pub h else []) ++ p, Session.Session.plain_cipher, Session.Session.plain_cipher);
     ReadMessage h m :=
       if d_initiator h then Some (h, m, Session.Session.plain_cipher, Session.Session.plain_cipher)
       else Some ({| d_initiator := false; d_pub := d_pub h; d_peer := take 32 m |}, drop 32 m,
                  Session.Session.plain_cipher, Session.Session.plain_cipher);
     PeerStatic := d_peer;
     sign priv m := demo_sign (take 32 priv) m;
     verify pub m sig := bool_decide (sig = demo_sign pub m);
     public_of := take 32;
     X25519 priv := Some priv;
     sha256 _ := zeros 32 |}.

Definition demo_ik : NoiseIK (H := demo_lib).
Proof.
  refine (Build_NoiseIK demo_lib (fun _ pub => length pub = 32%nat) _ _ _).
  - intros ipriv ipub rpriv rpub seed eph p1 p2 Hi Hr.
    set (c := Session.Session.plain_cipher). set (hi := {| d_initiator := true; d_pub := ipub; d_peer := rpub |}).
    set (hr := {| d_initiator := false; d_pub := rpub; d_peer := [] |}).
    set (hr1 := {| d_initiator := false; d_pub := rpub; d_peer := ipub |}).
    exists hi, hi, (ipub ++ p1), c, c, hr, hr1, c, c, hr1, p2, c, c, hi, c, c. split_and!; try reflexivity.
    + cbn. by rewrite take_app_length', drop_app_length'.
    + apply Session.Session.plain_cipher_pair.
    + apply Session.Session.plain_cipher_pair.
  - intros priv m. cbn. by apply bool_decide_true.
  - intros priv m. apply length_array.
Defined.

#[local] Existing Instance demo_lib.
#[local] Existing Instance demo_ik.

Definition demo_identity (k : Z) : Identity :=
  {| Ed25519Private := replicate 64 k; Ed25519Public := replicate 32 k; X25519Private := replicate 32 (k + 10);
     X25519Public := replicate 32 (k + 10); X25519Sig := zeros 64 |}.

Definition demo_ep (k : Z) : AddrPort := {| ap_addr := Addr4 (0xC0000200 + k); ap_port := 51820 |}.
Definition demo_entry (k : Z) : Entry :=
  {| ID := replicate 32 k; X25519Pub := replicate 32 (k + 10); VPNAddr := Addr4 (0x0A000000 + k); Name := "";
     SubnetRoutes := []; endpoint := demo_ep k; session := None; pendingSession := None; prevSession := None;
     PeerTable.PeerTable.state := StatePending; lastSeen := 0; holdQueue := [] |}.
Definition demo_table (k : Z) : Table := (Upsert 0 (with_entries {[ 0%nat := demo_entry k ]} PeerTable.PeerTable.New)).2.
Definition demo_time (i : nat) : Z := 10 ^ 18 + Z.of_nat i.
Definition demo_net : list Z := zeros 16.

(** The manager with its replay file. *)
Definition demo_mgr (k : Z) : Manager :=
  {| localID := demo_identity k; networkID := demo_net; pending := ∅; heap := ∅; next := 0; initTimestamps := ∅; replayPath := true |}.
#[local] Instance demo_no_pins : Pinning unit := None.
Definition demo_node (me other : Z) : Node (T := unit) :=
  {| mgr := demo_mgr me; peers := demo_table other; sessions := ∅; tofu := tt; file := None |}.

Lemma demo_table_ok k : table_ok (demo_table k).
Proof.
  apply Upsert_ok. apply (new_entry_ok PeerTable.PeerTable.New 0); [apply New_ok|done].
Qed.

Lemma Upsert_ids p tb e : entries tb !! p = Some e -> ids_ok tb -> peer_id_ok (ID e) -> ids_ok (Upsert p tb).2.
Proof.
  intros He Hi Hid. unfold Upsert. rewrite He. destruct (addr_valid (VPNAddr e) && _); [done|]. cbn [snd]. intros id q. cbn [byID].
  rewrite lookup_insert_Some. intros [[<- _]|[_ Hq]]; [done|]. apply (Hi id q).
  destruct (byID tb !! ID e) as [old|]; [|done]. by destruct (entries tb !! old).
Qed.

Lemma demo_node_ok : node_ok (demo_node 2 1).
Proof.
  split; [|apply demo_table_ok|].
  - split; [|done]. intros id ts. cbn. by rewrite lookup_empty.
  - apply (Upsert_ids 0 _ (demo_entry 1)); [done|intros id p; cbn; by rewrite lookup_empty|].
    split; [apply Forall_replicate; unfold byte_ok; lia|done].
Qed.

Lemma demo_ticking : ticking demo_time.
Proof. repeat split; by vm_compute. Qed.

Definition demo_later (i : nat) : Z := demo_time i + 4 * second.
Definition demo_end (i : nat) : Z := demo_time i + 9 * second.

Definition demo_events (x : Node (T := unit) * list event) : list Z :=
  match x.2 with [SendTo pkt _] => pkt | _ => [] end.
Definition demo_init : list Z := demo_events (Initiate (H := demo_lib) 0 (Some []) demo_time (demo_node 1 2)).

Lemma demo_skew : in_skew (10 ^ 18 + 2) (10 ^ 18) /\ in_skew (10 ^ 18 + 1) (10 ^ 18).
Proof. by split_and!; vm_compute. Qed.

Lemma demo_identity_ok : identity_ok (H0 := demo_ik) (demo_identity 1) /\ identity_ok (H0 := demo_ik) (demo_identity 2).
Proof. by split; split. Qed.


Lemma demo_knows k me : (k = 1 \/ k = 2) -> knows (demo_node me k) (demo_identity k) 0 (demo_entry k).
Proof. intros [->| ->]; split; by vm_compute. Qed.

Lemma handshake_completes_witness :
  exists na1 pkt1 nb1 pkt2 na2 sa sb ct nb2 sb',
    Initiate (H := demo_lib) 0 (Some []) demo_time (demo_node 1 2) = (na1, [SendTo pkt1 (Dispatcher.Dispatcher.UDPAddr (demo_ep 2))]) /\
    HandlePacket pkt1 (Dispatcher.Dispatcher.UDPAddr (demo_ep 1)) (Some (zeros 8)) [] true demo_time (demo_node 2 1) =
      (nb1, [SendTo pkt2 (Dispatcher.Dispatcher.UDPAddr (demo_ep 1))]) /\ pending_at nb1 0 sb /\
    HandlePacket pkt2 (Dispatcher.Dispatcher.UDPAddr (demo_ep 2)) None [] true demo_time na1 = (na2, [SessionEstablished 0]) /\
    session_at na2 0 sa /\
    Session.Session.CipherPair (Session.Session.s_send sa) (Session.Session.s_recv sb) /\
    Session.Session.CipherPair (Session.Session.s_send sb) (Session.Session.s_recv sa) /\
    (Session.Session.Encrypt sa [7]).2 = Ok (0, ct) /\
    HandleDataPacket 0 0 ct nb1 = (nb2, [SessionEstablished 0], Some [7]) /\ session_at nb2 0 sb' /\
    Session.Session.s_send sb' = Session.Session.s_send sb.
Proof.
  apply (handshake_completes (H0 := demo_ik) (demo_identity 1) (demo_identity 2) demo_net (demo_node 1 2) (demo_node 2 1)
           0 (demo_entry 2) 0 (demo_entry 1) [] [] (zeros 8) (demo_ep 1) true true None [] demo_time demo_time demo_time [7]).
  all: try (apply demo_identity_ok); try (apply demo_knows; auto); try (apply demo_skew); try reflexivity; by vm_compute.
Defined.




Definition demo_between : list hop := [HRestart (demo_table 1) tt demo_later].
Definition demo_seen : Node (T := unit) :=
  foldl hstep (handleInit (drop headerSize demo_init) (Dispatcher.Dispatcher.UDPAddr (demo_ep 1)) (Some (zeros 8)) [] true demo_time (demo_node 2 1)).1
    demo_between.

Lemma init_not_replayed_witness :
  handleInit (drop headerSize demo_init) (Dispatcher.Dispatcher.UDPAddr (demo_ep 1)) (Some (zeros 8)) [] true demo_end demo_seen = (demo_seen, []).
Proof.
  pose proof (init_not_replayed (demo_node 2 1) (drop headerSize demo_init) (Dispatcher.Dispatcher.UDPAddr (demo_ep 1))
           (Some (zeros 8)) [] demo_time demo_between (Dispatcher.Dispatcher.UDPAddr (demo_ep 1)) (Some (zeros 8)) [] true demo_end) as Hr.
  cbv zeta in Hr. apply Hr; clear Hr.
  - apply demo_node_ok.
  - apply demo_ticking.
  - intros E. apply (f_equal snd) in E. by vm_compute in E.
  - apply Forall_singleton. split; [apply demo_table_ok|apply demo_node_ok].
  - repeat split; by vm_compute.
  - by vm_compute.
  - repeat split; by vm_compute.
Defined.

Definition demo_calls : list call := [(0%nat, Some [], demo_time); (0%nat, Some [], demo_later); (0%nat, Some [], demo_end)].
Lemma inits_spaced_witness :
  sends (H := demo_lib) (ID (demo_entry 2)) demo_calls (demo_node 1 2) = [demo_time 3; demo_end 3] /\
  Sorted (fun a b => a + handshakeRetryTimeout <= b) (sends (H := demo_lib) (ID (demo_entry 2)) demo_calls (demo_node 1 2)).
Proof.
  split; [by vm_compute|]. apply (inits_spaced (H := demo_lib) (ID (demo_entry 2)) demo_calls (demo_node 1 2) (demo_time 0)).
  repeat split; by vm_compute.
Defined.

(** The peer's address is pinned to another key. *)
Definition demo_iter (m : gmap string Tofu.Tofu.pinValue) : list (string * Tofu.Tofu.pinValue) := map_to_list m.
Definition demo_pins : Tofu.Tofu.Store := (Tofu.Tofu.Check (fun _ => zeros 32) demo_iter true "10.0.0.1" (replicate 32 9) (Tofu.Tofu.empty_store None)).1.
Definition demo_pinned : Node (T := Tofu.Tofu.Store) :=
  {| mgr := demo_mgr 2; peers := demo_table 1; sessions := ∅; tofu := demo_pins; file := None |}.

Lemma demo_pins_ok : Tofu.Tofu.store_ok (fun _ => zeros 32) demo_pins.
Proof.
  apply (Tofu.Tofu.tofu_step_ok (fun _ => zeros 32) demo_iter Tofu.Tofu.demo_hash_ok Tofu.Tofu.demo_iter_perm
           (Tofu.Tofu.empty_store None) (Tofu.Tofu.OpCheck true "10.0.0.1" (replicate 32 9))).
  - split; [apply Forall_replicate; unfold byte_ok; lia|done].
  - split; [apply Tofu.Tofu.empty_ok|by left].
Qed.

Lemma pinned_elsewhere_no_session_witness :
  sess_of (HandlePacket (H := demo_lib) (H0 := tofu_pinning (H := demo_lib) demo_iter) demo_init
             (Dispatcher.Dispatcher.UDPAddr (demo_ep 1)) (Some (zeros 8)) [] true demo_time demo_pinned).1 0 = sess_of demo_pinned 0.
Proof.
  destruct (HandlePacket _ _ _ _ _ _ _) as [n' evs] eqn:E.
  apply (pinned_elsewhere_no_session (H := demo_lib) demo_iter demo_init (Dispatcher.Dispatcher.UDPAddr (demo_ep 1)) (Some (zeros 8)) []
           true demo_time demo_pinned n' evs 0 (demo_entry 1) (Tofu.Tofu.pubKeyString (replicate 32 9))).
  - apply demo_table_ok.
  - by vm_compute.
  - apply demo_pins_ok.
  - split; [apply Forall_replicate; unfold byte_ok; lia|done].
  - by vm_compute.
  - apply list_elem_of_singleton. by vm_compute.
  - exact E.
Defined.

End Handshake.
