(* ===== verification/Relay.v ===== *)
(** * The relay

    [RelayWire] models [src/internal/relay/relay.go] and the framing of
    [src/internal/relay/proxy.go]: the channel identifier, frames, the client's
    handshake, the messages of a connection, and the datagrams a proxy carries;
    and one direction of the relay's [splice] ([src/relay/service.go]).

    The Noise library is an interface, the class [NoiseChannel]; SHA-256 is part
    of it.  A reader is the list of the bytes that arrive before the stream
    ends. *)
From Stdlib Require Import ZArith Lia.
From stdpp Require Import base numbers list gmap strings fin_maps sets.
From S2P Require Import Prelude PeerTable Noise.

(** ** Third-party code *)
Class NoiseChannel := {
  CipherState : Type;
  ChannelHS : Type;
  cs_Encrypt : CipherState -> list Z -> option (CipherState * list Z);
  cs_Decrypt : CipherState -> list Z -> option (CipherState * list Z);
  ch_initiator : list Z -> list Z -> list Z -> option ChannelHS;          (* private, public, peer static *)
  ch_responder : list Z -> list Z -> option ChannelHS;
  ch_write : list Z -> ChannelHS -> list Z -> option (ChannelHS * list Z * CipherState * CipherState);
  ch_read : ChannelHS -> list Z -> option (ChannelHS * list Z * CipherState * CipherState);
  ch_static : ChannelHS -> list Z;
  hash : list Z -> list Z                                                 (* SHA-256 *)
}.

(** What the library promises of a pair of cipher states: messages sealed by one
    are opened by the other in the order they were sealed; the tag is 16 bytes. *)
Class CipherStreams `{NoiseChannel} := {
  paired : CipherState -> CipherState -> Prop;
  paired_step : forall a b m, paired a b -> exists a' b' ct,
    cs_Encrypt a m = Some (a', ct) /\ cs_Decrypt b ct = Some (b', m) /\ paired a' b' /\
    length ct = (length m + 16)%nat
}.

(** What the library promises of the IK handshake: an initiator that knows the
    responder's static key and a responder complete it, the responder learns the
    initiator's static key and the payload, and the cipher states pair up.
    Message 1 adds 96 bytes to its payload, message 2 has 48. *)
Class ChannelIK `{CipherStreams} := {
  ch_key_pair : list Z -> list Z -> Prop;
  ch_completes : forall ipriv ipub rpriv rpub seed eph p,
    ch_key_pair ipriv ipub -> ch_key_pair rpriv rpub ->
    exists hi hi1 m1 x1 y1 hr hr1 x2 y2 hr2 m2 rc1 rc2 hi2 ic1 ic2,
      ch_initiator ipriv ipub rpub = Some hi /\ ch_write seed hi p = Some (hi1, m1, x1, y1) /\
      length m1 = (length p + 96)%nat /\
      ch_responder rpriv rpub = Some hr /\ ch_read hr m1 = Some (hr1, p, x2, y2) /\ ch_static hr1 = ipub /\
      ch_write eph hr1 [] = Some (hr2, m2, rc1, rc2) /\ length m2 = 48%nat /\
      ch_read hi1 m2 = Some (hi2, [], ic1, ic2) /\ paired ic1 rc1 /\ paired rc2 ic2
}.

Module RelayWire.
Import Netip.

Definition maxMessage : Z := 0xFFFF - 16.
Definition ChannelIDSize : nat := 16.
Definition Msg1PayloadSize : nat := 32 + 8.

(** [bytes.Compare(a, b) > 0]. *)
Fixpoint bytes_gt (a b : list Z) : bool :=
  match a, b with
  | [], _ => false
  | _ :: _, [] => true
  | x :: a', y :: b' => if x <? y then false else if y <? x then true else bytes_gt a' b'
  end.

Inductive frame_error := ErrEOF | ErrUnexpectedEOF | ErrFrameTooLarge.

(** [io.ReadFull] of [n] bytes. *)
Definition ReadFull (n : nat) (r : list Z) : result frame_error (list Z * list Z) :=
  if (n <=? length r)%nat then Ok (take n r, drop n r)
  else if (0 <? length r)%nat then Err ErrUnexpectedEOF else Err ErrEOF.

Section Wire.
#[local] Open Scope veld_scope.

Definition WriteFrame (msg : list Z) : result frame_error (list Z) :=
  if 0xFFFF <? Z.of_nat (length msg) then Err ErrFrameTooLarge
  else Ok (be_put 2 (u16 (Z.of_nat (length msg))) ++ msg).

(** The frame and the bytes after it. *)
Definition ReadFrameMax (max : Z) (r : list Z) : result frame_error (list Z * list Z) :=
  hr <-! ReadFull 2 r;
  let '(hdr, r) := hr in
  let n := be_get hdr in
  if max <? n then Err ErrFrameTooLarge else ReadFull (Z.to_nat n) r.

Definition ReadFrame (r : list Z) : result frame_error (list Z * list Z) := ReadFrameMax 0xffff r.

End Wire.

Section Conn.
Context `{NoiseChannel}.

Definition ChannelID (a b : list Z) : list Z :=
  let '(lo, hi) := if bytes_gt a b then (b, a) else (a, b) in
  take ChannelIDSize (hash (bytes_of_string "veld-relay-channel-v1" ++ lo ++ hi)).

Definition Msg1Payload (remotePeerKey : list Z) (nowMilli : Z) : list Z := remotePeerKey ++ be_put 8 (u64 nowMilli).

(** ** The client *)
Record Conn := { send : CipherState; recv : CipherState }.

(** The first half of [Dial]: the handshake state and message 1.  [seed] is what
    the library draws for the ephemeral key. *)
Definition dial_msg1 (relayX25519 : list Z) (id : Noise.Identity) (remotePeerKey seed : list Z) (nowMilli : Z)
  : option (ChannelHS * list Z) :=
  hs ← ch_initiator (Noise.X25519Private id) (Noise.X25519Public id) relayX25519;
  '(hs, msg1, _, _) ← ch_write seed hs (Msg1Payload remotePeerKey nowMilli);
  Some (hs, msg1).

(** [Dial]; [answer] is what the relay sends in reply to the bytes written. *)
Definition Dial (relayX25519 : list Z) (id : Noise.Identity) (remotePeerKey seed : list Z) (nowMilli : Z)
    (answer : list Z -> list Z) : option Conn :=
  '(hs, msg1) ← dial_msg1 relayX25519 id remotePeerKey seed nowMilli;
  match WriteFrame msg1 with
  | Err _ => None
  | Ok w =>
      match ReadFrame (answer w) with
      | Err _ => None
      | Ok (msg2, _) => '(_, _, cs1, cs2) ← ch_read hs msg2; Some {| send := cs1; recv := cs2 |}
      end
  end.

(** [Conn.WriteMessage]: the sender's new state and the bytes written. *)
Definition WriteMessage (send : CipherState) (b : list Z) : option (CipherState * list Z) :=
  if maxMessage <? Z.of_nat (length b) then None
  else
    '(send, ct) ← cs_Encrypt send b;
    match WriteFrame ct with Ok w => Some (send, w) | Err _ => None end.

(** [Conn.ReadMessage]: the receiver's new state, the message and the rest of
    the stream. *)
Definition ReadMessage (recv : CipherState) (r : list Z) : option (CipherState * list Z * list Z) :=
  match ReadFrame r with
  | Err _ => None
  | Ok (frame, r) => '(recv, m) ← cs_Decrypt recv frame; Some (recv, m, r)
  end.

(** ** The proxy *)

(** A datagram read from the local socket as one message; [None]: skipped. *)
Definition udp_frame (d : list Z) : option (list Z) :=
  if maxMessage <? Z.of_nat (length d) + 2 then None
  else Some (be_put 2 (u16 (Z.of_nat (length d))) ++ d).

(** A message of the channel as a datagram; [None]: skipped. *)
Definition stream_datagram (frame : list Z) : option (list Z) :=
  if (length frame <? 2)%nat then None
  else
    let n := be_get (take 2 frame) in
    if negb (n =? Z.of_nat (length frame) - 2) then None else Some (drop 2 frame).

(** [IP.IsLoopback] and [IP.Equal], which takes an IPv4 address and its mapped
    form for equal. *)
Definition IsLoopback (a : Addr) : bool :=
  match Unmap a with
  | Addr4 v => Z.shiftr v 24 =? 127
  | Addr6 v _ => v =? 1
  | AddrZero => false
  end.
Definition from_daemon (target src : AddrPort) : bool :=
  (ap_port src =? ap_port target) && (bool_decide (Unmap (ap_addr src) = Unmap (ap_addr target)) || IsLoopback (ap_addr src)).

(** What the proxy relays of a datagram and its sender. *)
Definition relayed (target : AddrPort) (x : AddrPort * list Z) : option (list Z) :=
  if from_daemon target x.1 then udp_frame x.2 else None.

(** [udpToStream] on the datagrams that arrive, until an error. *)
Fixpoint udpToStream (target : AddrPort) (send : CipherState) (ds : list (AddrPort * list Z)) : CipherState * list Z :=
  match ds with
  | [] => (send, [])
  | x :: ds =>
      match relayed target x with
      | None => udpToStream target send ds
      | Some frame =>
          match WriteMessage send frame with
          | None => (send, [])
          | Some (send, w) => let '(send, ws) := udpToStream target send ds in (send, w ++ ws)
          end
      end
  end.

(** [streamToUDP] on the bytes that arrive; every frame takes at least two, so
    their number is enough fuel. *)
Fixpoint streamToUDP_loop (fuel : nat) (recv : CipherState) (r : list Z) : list (list Z) :=
  match fuel with
  | O => []
  | S f =>
      match ReadMessage recv r with
      | None => []
      | Some (recv, m, r) =>
          match stream_datagram m with
          | Some d => d :: streamToUDP_loop f recv r
          | None => streamToUDP_loop f recv r
          end
      end
  end.
Definition streamToUDP (recv : CipherState) (r : list Z) : list (list Z) := streamToUDP_loop (length r) recv r.

(** ** One direction of a splice

    One round: the frame from [src] decrypted and encrypted for [dst], what is
    written there, and the bytes of [src] that are left. *)
Definition forward_frame (recv send : CipherState) (r : list Z) : option (CipherState * CipherState * list Z * list Z) :=
  match ReadFrame r with
  | Err _ => None
  | Ok (frame, r) =>
      match cs_Decrypt recv frame with
      | None => None
      | Some (recv, plain) =>
          match cs_Encrypt send plain with
          | None => None
          | Some (send, ct) => match WriteFrame ct with Err _ => None | Ok w => Some (recv, send, w, r) end
          end
      end
  end.

(** From the bytes of [src] to those written to [dst], until an error.  [r]
    bounds the number of frames. *)
Fixpoint splice_loop (fuel : nat) (recv send : CipherState) (r : list Z) : list Z :=
  match fuel with
  | O => []
  | S f =>
      match forward_frame recv send r with
      | None => []
      | Some (recv, send, w, r) => w ++ splice_loop f recv send r
      end
  end.
Definition splice (recv send : CipherState) (r : list Z) : list Z := splice_loop (length r) recv send r.

End Conn.

(** ** Channels *)
Lemma bytes_gt_total a b : a <> b -> bytes_gt b a = negb (bytes_gt a b).
Proof.
  revert b. induction a as [|x a IH]; intros [|y b] Hne; try done. cbn [bytes_gt].
  destruct (Z.lt_trichotomy x y) as [Hlt|[->|Hlt]].
  - rewrite (proj2 (Z.ltb_lt x y)), (proj2 (Z.ltb_ge y x)) by lia. done.
  - rewrite Z.ltb_irrefl. apply IH. congruence.
  - rewrite (proj2 (Z.ltb_ge x y)), (proj2 (Z.ltb_lt y x)) by lia. done.
Qed.

(** Both ends of a pair arrive at the same channel. *)
Lemma ChannelID_sym `{NoiseChannel} a b : ChannelID a b = ChannelID b a.
Proof.
  destruct (decide (a = b)) as [->|Hne]; [done|]. unfold ChannelID. rewrite (bytes_gt_total a b Hne).
  by destruct (bytes_gt a b).
Qed.

(** ** Frames *)
Lemma WriteFrame_Ok msg : Z.of_nat (length msg) <= 0xFFFF -> WriteFrame msg = Ok (be_put 2 (Z.of_nat (length msg)) ++ msg).
Proof.
  intros Hl. unfold WriteFrame. rewrite (proj2 (Z.ltb_ge _ _)) by done. unfold u16. by rewrite wrap_small by lia.
Qed.

(** A written frame is read back, whatever follows it. *)
Lemma frame_roundtrip msg w rest : WriteFrame msg = Ok w -> ReadFrame (w ++ rest) = Ok (msg, rest).
Proof.
  unfold WriteFrame. destruct (0xFFFF <? _) eqn:E; [done|]. bool_to_prop. intros Hw.
  assert (w = be_put 2 (u16 (Z.of_nat (length msg))) ++ msg) as -> by congruence. clear Hw.
  unfold ReadFrame, ReadFrameMax, ReadFull. rewrite <- app_assoc.
  assert (length (be_put 2 (u16 (Z.of_nat (length msg)))) = 2%nat) as Hl by apply length_be_put.
  rewrite length_app, Hl. cbn [Nat.leb Nat.add result_bind]. rewrite <- Hl, take_app_length, drop_app_length, Hl.
  rewrite be_get_put. unfold u16. rewrite wrap_small by lia. rewrite Z.mod_small by (change (256 ^ Z.of_nat 2) with 65536; lia).
  rewrite (proj2 (Z.ltb_ge _ _)), Nat2Z.id by lia. rewrite length_app.
  rewrite (proj2 (Nat.leb_le _ _)) by lia. by rewrite take_app_length, drop_app_length.
Qed.

Lemma WriteFrame_length msg w : WriteFrame msg = Ok w -> length w = (length msg + 2)%nat.
Proof.
  unfold WriteFrame. destruct (0xFFFF <? _); [done|]. intros Hw.
  assert (w = be_put 2 (u16 (Z.of_nat (length msg))) ++ msg) as -> by congruence. rewrite length_app, length_be_put. lia.
Qed.

Section Carried.
Context `{CipherStreams}.

(** The bytes a receiver reads as a sequence of messages, then end. *)
Inductive carries : CipherState -> list Z -> list (list Z) -> Prop :=
| carries_nil b : carries b [] []
| carries_cons b b' frame w m rest ms :
    WriteFrame frame = Ok w -> cs_Decrypt b frame = Some (b', m) -> Z.of_nat (length m) <= maxMessage ->
    carries b' rest ms -> carries b (w ++ rest) (m :: ms).

Lemma carries_length b r ms : carries b r ms -> (length ms <= length r)%nat.
Proof. induction 1 as [|b b' frame w m rest ms Hw _ _ _ IH]; [done|]. apply WriteFrame_length in Hw. rewrite length_app. cbn. lia. Qed.

Lemma WriteMessage_carries a b m :
  paired a b -> Z.of_nat (length m) <= maxMessage ->
  exists a' b' ct w, WriteMessage a m = Some (a', w) /\ paired a' b' /\ WriteFrame ct = Ok w /\ cs_Decrypt b ct = Some (b', m).
Proof.
  intros Hp Hm. destruct (paired_step a b m Hp) as (a' & b' & ct & Ee & Ed & Hp' & Hl).
  assert (WriteFrame ct = Ok (be_put 2 (Z.of_nat (length ct)) ++ ct)) as Ew.
  { apply WriteFrame_Ok. rewrite Hl. unfold maxMessage in Hm. lia. }
  exists a', b', ct, (be_put 2 (Z.of_nat (length ct)) ++ ct). unfold WriteMessage. rewrite (proj2 (Z.ltb_ge _ _)) by done.
  by rewrite Ee, bind_Some_eq, Ew.
Qed.

Lemma udp_frame_fits d frame : udp_frame d = Some frame -> Z.of_nat (length frame) <= maxMessage.
Proof.
  unfold udp_frame. destruct (maxMessage <? _) eqn:E; [done|]. bool_to_prop. intros Hf.
  assert (frame = be_put 2 (u16 (Z.of_nat (length d))) ++ d) as -> by congruence. rewrite length_app, length_be_put. lia.
Qed.

Lemma udpToStream_carries target ds : forall a b, paired a b -> carries b (udpToStream target a ds).2 (omap (relayed target) ds).
Proof.
  induction ds as [|x ds IH]; intros a b Hp; cbn [udpToStream omap list_omap]; [constructor|].
  destruct (relayed target x) as [frame|] eqn:Er; [|by apply IH].
  assert (Z.of_nat (length frame) <= maxMessage) as Hf.
  { unfold relayed in Er. destruct (from_daemon target x.1); [|done]. by apply udp_frame_fits in Er. }
  destruct (WriteMessage_carries a b frame Hp Hf) as (a' & b' & ct & w & -> & Hp' & Hw & Hd).
  specialize (IH a' b' Hp'). destruct (udpToStream target a' ds) as [a2 ws]. cbn [snd] in *. by apply (carries_cons b b' ct).
Qed.

(** The relay re-encrypts each message for the other end. *)
Lemma splice_carries recv r ms :
  carries recv r ms -> forall fuel send b, (length ms <= fuel)%nat -> paired send b -> carries b (splice_loop fuel recv send r) ms.
Proof.
  induction 1 as [recv|recv recv' frame w m rest ms Hw Hd Hm _ IH]; intros fuel send b Hf Hp.
  { destruct fuel; constructor. }
  destruct fuel as [|fuel]; [cbn in Hf; lia|]. cbn [splice_loop]. unfold forward_frame. rewrite (frame_roundtrip frame w rest Hw), Hd.
  destruct (WriteMessage_carries send b m Hp Hm) as (send' & b' & ct & w' & Ew & Hp' & Hw' & Hd').
  unfold WriteMessage in Ew. rewrite (proj2 (Z.ltb_ge _ _)) in Ew by done.
  destruct (cs_Encrypt send m) as [[s2 ct2]|]; [|done]. rewrite bind_Some_eq in Ew. destruct (WriteFrame ct2) as [w2|] eqn:E2; [|done].
  injection Ew as <- <-.
  assert (ct2 = ct) as ->.
  { pose proof (frame_roundtrip ct2 w2 [] E2) as R1. pose proof (frame_roundtrip ct w2 [] Hw') as R2. congruence. }
  apply (carries_cons b b' ct); [done..|]. apply IH; [cbn in Hf; lia|done].
Qed.

Lemma streamToUDP_carries b r ms : carries b r ms -> forall fuel, (length ms <= fuel)%nat -> streamToUDP_loop fuel b r = omap stream_datagram ms.
Proof.
  induction 1 as [b|b b' frame w m rest ms Hw Hd Hm _ IH]; intros fuel Hf; [by destruct fuel|].
  destruct fuel as [|fuel]; [cbn in Hf; lia|]. cbn [streamToUDP_loop]. unfold ReadMessage. rewrite (frame_roundtrip frame w rest Hw), Hd, bind_Some_eq.
  cbn [omap list_omap]. rewrite IH by (cbn in Hf; lia). done.
Qed.

(** What was framed on one side is unframed on the other. *)
Lemma datagram_roundtrip d frame : udp_frame d = Some frame -> stream_datagram frame = Some d.
Proof.
  unfold udp_frame, stream_datagram. destruct (maxMessage <? _) eqn:E; [done|]. bool_to_prop. intros Hf.
  assert (frame = be_put 2 (u16 (Z.of_nat (length d))) ++ d) as -> by congruence. clear Hf.
  assert (length (be_put 2 (u16 (Z.of_nat (length d)))) = 2%nat) as Hl by apply length_be_put.
  rewrite length_app, Hl. cbn [Nat.ltb Nat.leb Nat.add]. rewrite <- Hl, take_app_length, drop_app_length, Hl.
  rewrite be_get_put. unfold u16, maxMessage in *. rewrite wrap_small by lia.
  rewrite Z.mod_small by (change (256 ^ Z.of_nat 2) with 65536; lia).
  by rewrite (proj2 (Z.eqb_eq _ _)) by lia.
Qed.

(** The datagrams of the daemon that fit a frame. *)
Definition accepted (target : AddrPort) (x : AddrPort * list Z) : bool :=
  from_daemon target x.1 && (Z.of_nat (length x.2) + 2 <=? maxMessage).

(** An element of the daemon's datagrams goes through unchanged or not at all. *)
Lemma relayed_accepted target x :
  (relayed target x ≫= stream_datagram) = (if accepted target x then Some x.2 else None).
Proof.
  unfold relayed, accepted. destruct (from_daemon target x.1); [|done]. cbn [andb].
  destruct (udp_frame x.2) as [frame|] eqn:Ef.
  - rewrite bind_Some_eq, (datagram_roundtrip x.2 frame Ef). unfold udp_frame in Ef.
    destruct (maxMessage <? _) eqn:E; [done|]. bool_to_prop. by rewrite (proj2 (Z.leb_le _ _)).
  - unfold udp_frame in Ef. destruct (maxMessage <? _) eqn:E; [|done]. bool_to_prop.
    rewrite (proj2 (Z.leb_gt _ _)); [done|lia].
Qed.

Lemma relayed_datagrams target ds :
  omap stream_datagram (omap (relayed target) ds) = map snd (List.filter (accepted target) ds).
Proof.
  induction ds as [|x ds IH]; [done|]. pose proof (relayed_accepted target x) as Hx. cbn [omap list_omap List.filter] in *.
  destruct (relayed target x) as [frame|].
  - rewrite bind_Some_eq in Hx. cbn [omap list_omap]. rewrite Hx. destruct (accepted target x); [cbn [map]; by f_equal|done].
  - cbn in Hx. destruct (accepted target x); [done|]. apply IH.
Qed.

(** C24: The relayed path is transparent: the datagrams the daemon sends to its
    proxy come out of the proxy at the other end, the same, in order and each
    once, after the relay has re-encrypted them; what other processes send to
    the proxy, and what does not fit a frame, is left out. *)
Theorem relay_path_delivers target a ra rb b ds :
  paired a ra -> paired rb b ->
  streamToUDP b (splice ra rb (udpToStream target a ds).2) = map snd (List.filter (accepted target) ds).
Proof.
  intros Hp1 Hp2. pose proof (udpToStream_carries target ds a ra Hp1) as H1.
  pose proof (splice_carries _ _ _ H1 (length (udpToStream target a ds).2) rb b (carries_length _ _ _ H1) Hp2) as H2.
  unfold streamToUDP. rewrite (streamToUDP_carries _ _ _ H2) by (by apply carries_length in H2).
  apply relayed_datagrams.
Qed.

End Carried.

(** *** An instance: a tag that counts the messages *)
Definition toy_channel : NoiseChannel := {|
  CipherState := nat; ChannelHS := unit;
  cs_Encrypt n m := Some (S n, (Z.of_nat n :: replicate 15 0) ++ m);
  cs_Decrypt n ct :=
    match ct with
    | t :: ct => if t =? Z.of_nat n then Some (S n, drop 15 ct) else None
    | [] => None
    end;
  ch_initiator _ _ _ := Some tt; ch_responder _ _ := Some tt;
  ch_write p _ m := Some (tt, m, O, O); ch_read _ m := Some (tt, m, O, O);
  ch_static _ := []; hash l := l
|}.

Lemma toy_streams_step (a b : nat) (m : list Z) : a = b ->
  exists (a' b' : nat) ct, (@cs_Encrypt toy_channel a m) = Some (a', ct) /\ (@cs_Decrypt toy_channel b ct) = Some (b', m) /\ a' = b' /\
    length ct = (length m + 16)%nat.
Proof.
  intros <-. exists (S a), (S a), ((Z.of_nat a :: replicate 15 0) ++ m). cbn. rewrite Z.eqb_refl. repeat split. lia.
Qed.

Definition toy_streams : @CipherStreams toy_channel :=
  @Build_CipherStreams toy_channel (fun a b : nat => a = b) toy_streams_step.

Definition toy_target : AddrPort := {| ap_addr := Addr4 0x7F000001; ap_port := 51820 |}.
Definition toy_stranger : AddrPort := {| ap_addr := Addr4 0x0A000001; ap_port := 51820 |}.

Lemma relay_path_delivers_witness :
  @streamToUDP toy_channel 5%nat
    (@splice toy_channel 3%nat 5%nat
       (@udpToStream toy_channel toy_target 3%nat [(toy_target, [1; 2; 3]); (toy_stranger, [9]); (toy_target, [])]).2)
  = [[1; 2; 3]; []].
Proof.
  exact (@relay_path_delivers toy_channel toy_streams toy_target 3%nat 3%nat 5%nat 5%nat
    [(toy_target, [1; 2; 3]); (toy_stranger, [9]); (toy_target, [])] eq_refl eq_refl).
Defined.

End RelayWire.
