(* ===== verification/RelayService.v ===== *)
(** * The relay server

    [RelayService] models [src/relay/service.go].  A goroutine is a [task]: what
    it does next between two acquisitions of [Service.mu]; running a task is one
    critical section of the code and leaves the tasks the goroutine goes on
    with.  Tasks run in any order, so every interleaving of the code's critical
    sections is a run of the model.  A connection is a number; it is open, and
    holds its slot of the connection limits, while it is in [sockets], until the
    first [Close] of its [limitedConn].  A splice forwards one frame per step for
    as long as its client sends any; its read blocks while the client is silent
    and fails when the connection is closed.

    Logging is left out; [Serve]'s wait is modelled by its delay. *)
From Stdlib Require Import ZArith Lia.
From stdpp Require Import base numbers list gmap strings fin_maps sets.
From S2P Require Import Prelude PeerTable Noise Relay.

Module RelayService.
Import Netip.
Import RelayWire.

Definition ms : Z := 10 ^ 6.
Definition handshakeTimeout : Z := 10 * 10 ^ 9.
Definition waitingTimeout : Z := 60 * 10 ^ 9.
Definition defaultMaxConns : Z := 4096.
Definition defaultMaxConnsPerIP : Z := 64.
Definition msg1MaxAge : Z := 30 * 10 ^ 9.
Definition maxSeenMsg1 : Z := Z.shiftl 1 16.
Definition maxMsg1Size : Z := 256.

(** The delay [Serve] takes before it accepts again after an error. *)
Definition next_backoff (backoff : Z) : Z :=
  if backoff =? 0 then 5 * ms
  else let backoff := backoff * 2 in if 10 ^ 9 <? backoff then 10 ^ 9 else backoff.

Section Service.
Context `{NoiseChannel}.

(** [raw] is the connection; two pointers are equal when their [raw] is. *)
Record serverConn := {
  raw : nat;
  sc_recv : CipherState;
  sc_send : CipherState;
  channel : list Z;
  clientKey : list Z
}.

Record Service := {
  waiting : gmap (list Z) serverConn;
  active : gmap nat serverConn;
  closed : bool;
  waitTimeout : Z;
  wg : Z;
  seenMsg1 : gmap (list Z) Z;
  maxConns : Z;
  maxConnsPerIP : Z;
  conns : Z;
  connsByIP : gmap Addr Z
}.

Definition with_conns (n : Z) (m : gmap Addr Z) (s : Service) : Service :=
  {| waiting := waiting s; active := active s; closed := closed s; waitTimeout := waitTimeout s; wg := wg s;
     seenMsg1 := seenMsg1 s; maxConns := maxConns s; maxConnsPerIP := maxConnsPerIP s; conns := n; connsByIP := m |}.
Definition with_seenMsg1 (m : gmap (list Z) Z) (s : Service) : Service :=
  {| waiting := waiting s; active := active s; closed := closed s; waitTimeout := waitTimeout s; wg := wg s;
     seenMsg1 := m; maxConns := maxConns s; maxConnsPerIP := maxConnsPerIP s; conns := conns s; connsByIP := connsByIP s |}.
Definition with_waiting (w : gmap (list Z) serverConn) (s : Service) : Service :=
  {| waiting := w; active := active s; closed := closed s; waitTimeout := waitTimeout s; wg := wg s;
     seenMsg1 := seenMsg1 s; maxConns := maxConns s; maxConnsPerIP := maxConnsPerIP s; conns := conns s; connsByIP := connsByIP s |}.
Definition with_active (a : gmap nat serverConn) (n : Z) (s : Service) : Service :=
  {| waiting := waiting s; active := a; closed := closed s; waitTimeout := waitTimeout s; wg := n;
     seenMsg1 := seenMsg1 s; maxConns := maxConns s; maxConnsPerIP := maxConnsPerIP s; conns := conns s; connsByIP := connsByIP s |}.
Definition with_closed (s : Service) : Service :=
  {| waiting := ∅; active := active s; closed := true; waitTimeout := waitTimeout s; wg := wg s;
     seenMsg1 := seenMsg1 s; maxConns := maxConns s; maxConnsPerIP := maxConnsPerIP s; conns := conns s; connsByIP := connsByIP s |}.

(** ** Construction *)
Definition Option := Service -> Service.

Definition MaxConns (total perIP : Z) : Option := fun s =>
  let s := if 0 <? total
    then {| waiting := waiting s; active := active s; closed := closed s; waitTimeout := waitTimeout s; wg := wg s;
            seenMsg1 := seenMsg1 s; maxConns := total; maxConnsPerIP := maxConnsPerIP s; conns := conns s; connsByIP := connsByIP s |}
    else s in
  if 0 <? perIP
  then {| waiting := waiting s; active := active s; closed := closed s; waitTimeout := waitTimeout s; wg := wg s;
          seenMsg1 := seenMsg1 s; maxConns := maxConns s; maxConnsPerIP := perIP; conns := conns s; connsByIP := connsByIP s |}
  else s.

(** Logging is not modelled. *)
Definition Verbose : Option := fun s => s.
Definition known_option (opt : Option) : Prop := opt = Verbose \/ exists total perIP, opt = MaxConns total perIP.

Definition NewService (opts : list Option) : Service :=
  foldl (fun s opt => opt s)
    {| waiting := ∅; active := ∅; closed := false; waitTimeout := waitingTimeout; wg := 0; seenMsg1 := ∅;
       maxConns := defaultMaxConns; maxConnsPerIP := defaultMaxConnsPerIP; conns := 0; connsByIP := ∅ |} opts.

(** ** Connection limits *)
Definition conns_of (s : Service) (ip : Addr) : Z := default 0 (connsByIP s !! ip).

(** [remote] is the client's address, [None] when it does not parse. *)
Definition conn_ip (remote : option AddrPort) : Addr :=
  match remote with Some ap => Unmap (ap_addr ap) | None => AddrZero end.

Definition admit_conn (ip : Addr) (s : Service) : option Service :=
  if (maxConns s <=? conns s) || (maxConnsPerIP s <=? conns_of s ip) then None
  else Some (with_conns (conns s + 1) (<[ip := conns_of s ip + 1]> (connsByIP s)) s).

Definition release (ip : Addr) (s : Service) : Service :=
  let n := conns_of s ip - 1 in
  with_conns (conns s - 1) (if n <=? 0 then delete ip (connsByIP s) else <[ip := n]> (connsByIP s)) s.

(** ** The replay cache *)

(** [Time.Sub] saturates. *)
Definition sub_time (a b : Z) : Z := Z.max (- 2 ^ 63) (Z.min (2 ^ 63 - 1) (a - b)).

(** [time.UnixMilli] of the client clock, in nanoseconds. *)
Definition sent_time (payload : list Z) : Z := i64 (be_get (drop 32 payload)) * ms.

Definition recent (now sent : Z) : bool :=
  let d := sub_time now sent in negb ((msg1MaxAge <? d) || (d <? - msg1MaxAge)).

Definition freshMsg1 (now : Z) (msg1 payload : list Z) (s : Service) : bool * Service :=
  let sent := sent_time payload in
  if negb (recent now sent) then (false, s)
  else
    let eph := Noise.array 32 msg1 in
    match seenMsg1 s !! eph with
    | Some _ => (false, s)
    | None =>
        let seen := seenMsg1 s in
        let seen := if maxSeenMsg1 <=? Z.of_nat (size seen) then filter (fun kv => kv.2 >= now) seen else seen in
        if maxSeenMsg1 <=? Z.of_nat (size seen) then (false, with_seenMsg1 seen s)
        else (true, with_seenMsg1 (<[eph := sent + msg1MaxAge]> seen) s)
    end.

(** ** Goroutines *)
Inductive task :=
| Handshaking (c : nat)            (* handleConn, before it knows its client *)
| Pairing (sc : serverConn)        (* handleConn, about to take the lock *)
| Evicting (sc other : serverConn) (* handleConn, to replace a stale connection *)
| Repairing (sc : serverConn)      (* handleConn, about to take the lock again *)
| Timer (sc : serverConn)          (* time.AfterFunc *)
| Splicing (dst src : serverConn)  (* splice(dst, src) *)
| Forgetting (sc : serverConn)     (* the deferred forget and wg.Done *)
| Closing (c : nat).               (* raw.Close() *)

(** What a goroutine meets: the clock, the bytes its client sends (up to the
    deadline of the handshake, or up to the end of the next frame or of the
    connection), the randomness of the relay's ephemeral key, whether its write
    goes through, and [env_quiet]: whether the client neither sends nor ends the
    connection, so that a read without a deadline blocks. *)
Record hs_env := { env_now : Z; env_bytes : list Z; env_eph : list Z; env_writes : bool; env_quiet : bool }.

(** The result holds the connection and the reply. *)

Definition handshake (id : Noise.Identity) (env : hs_env) (c : nat) (s : Service)
  : Service * option (serverConn * list Z) :=
  match ch_responder (Noise.X25519Private id) (Noise.X25519Public id) with
  | None => (s, None)
  | Some hs =>
      match ReadFrameMax maxMsg1Size (env_bytes env) with
      | Err _ => (s, None)
      | Ok (msg1, _) =>
          match ch_read hs msg1 with
          | None => (s, None)
          | Some (hs, payload, _, _) =>
              if negb (length payload =? Msg1PayloadSize)%nat then (s, None)
              else
                let '(fresh, s) := freshMsg1 (env_now env) msg1 payload s in
                if negb fresh then (s, None)
                else
                  let remoteKey := Noise.array 32 payload in
                  let clientKey := Noise.array 32 (ch_static hs) in
                  if bool_decide (clientKey = remoteKey) then (s, None)
                  else
                    match ch_write (env_eph env) hs [] with
                    | None => (s, None)
                    | Some (_, msg2, cs1, cs2) =>
                        match WriteFrame msg2 with
                        | Err _ => (s, None)
                        | Ok w =>
                            if env_writes env
                            then (s, Some ({| raw := c; sc_recv := cs1; sc_send := cs2;
                                              channel := ChannelID clientKey remoteKey; clientKey := clientKey |}, w))
                            else (s, None)
                        end
                    end
          end
      end
  end.

(** The end of the critical section of [handleConn]. *)
Definition wait_or_splice (sc : serverConn) (other : option serverConn) (s : Service) : Service * list task :=
  match other with
  | None => (with_waiting (<[channel sc := sc]> (waiting s)) s, [Timer sc])
  | Some other =>
      let s := with_waiting (delete (channel sc) (waiting s)) s in
      (with_active (<[raw other := other]> (<[raw sc := sc]> (active s))) (wg s + 2) s,
       [Splicing sc other; Splicing other sc])
  end.

Definition enter (sc : serverConn) (s : Service) : Service * list task :=
  if closed s then (s, [Closing (raw sc)])
  else
    let other := waiting s !! channel sc in
    match other with
    | Some o => if bool_decide (clientKey o = clientKey sc) then (s, [Evicting sc o]) else wait_or_splice sc other s
    | None => wait_or_splice sc other s
    end.

Definition reenter (sc : serverConn) (s : Service) : Service * list task :=
  if closed s then (s, [Closing (raw sc)]) else wait_or_splice sc (waiting s !! channel sc) s.

Definition evict (ch : list Z) (sc : serverConn) (s : Service) : Service * list task :=
  match waiting s !! ch with
  | Some o => if (raw o =? raw sc)%nat then (with_waiting (delete ch (waiting s)) s, [Closing (raw sc)]) else (s, [])
  | None => (s, [])
  end.

Definition forget (sc : serverConn) (s : Service) : Service := with_active (delete (raw sc) (active s)) (wg s) s.
Definition wg_Done (s : Service) : Service := with_active (active s) (wg s - 1) s.

(** The first [Close] of a [limitedConn] releases its slot. *)
Definition close_conn (c : nat) (socks : gmap nat Addr) (s : Service) : gmap nat Addr * Service :=
  match socks !! c with
  | Some ip => (delete c socks, release ip s)
  | None => (socks, s)
  end.

Definition with_recv (cs : CipherState) (sc : serverConn) : serverConn :=
  {| raw := raw sc; sc_recv := cs; sc_send := sc_send sc; channel := channel sc; clientKey := clientKey sc |}.
Definition with_send (cs : CipherState) (sc : serverConn) : serverConn :=
  {| raw := raw sc; sc_recv := sc_recv sc; sc_send := cs; channel := channel sc; clientKey := clientKey sc |}.

(** One round of [splice]: the frame is forwarded and the loop goes on, or a
    read, a decryption or a write fails and both connections are closed.
    [None]: the read blocks. *)
Definition splice_step (env : hs_env) (dst src : serverConn) (socks : gmap nat Addr) : option (list task) :=
  let failed := [Closing (raw src); Closing (raw dst); Forgetting dst] in
  match socks !! raw src with
  | None => Some failed
  | Some _ =>
      if env_quiet env then None
      else
        match forward_frame (sc_recv src) (sc_send dst) (env_bytes env) with
        | None => Some failed
        | Some (recv, send, _, _) =>
            if env_writes env && bool_decide (is_Some (socks !! raw dst))
            then Some [Splicing (with_send send dst) (with_recv recv src)]
            else Some failed
        end
  end.

(** A critical section of a goroutine that does not forward. *)
Definition run_section (id : Noise.Identity) (env : hs_env) (t : task) (socks : gmap nat Addr) (s : Service)
  : gmap nat Addr * Service * list task :=
  match t with
  | Handshaking c =>
      let '(s, o) := handshake id env c s in
      (socks, s, match o with Some (sc, _) => [Pairing sc] | None => [Closing c] end)
  | Pairing sc => let '(s, ts) := enter sc s in (socks, s, ts)
  | Evicting sc other => let '(s, ts) := evict (channel sc) other s in (socks, s, ts ++ [Repairing sc])
  | Repairing sc => let '(s, ts) := reenter sc s in (socks, s, ts)
  | Timer sc => let '(s, ts) := evict (channel sc) sc s in (socks, s, ts)
  | Splicing _ _ => (socks, s, [t])
  | Forgetting sc => (socks, wg_Done (forget sc s), [])
  | Closing c => let '(socks, s) := close_conn c socks s in (socks, s, [])
  end.

(** One step of a goroutine; [None]: it blocks. *)
Definition run (id : Noise.Identity) (env : hs_env) (t : task) (socks : gmap nat Addr) (s : Service)
  : option (gmap nat Addr * Service * list task) :=
  match t with
  | Splicing dst src => ts ← splice_step env dst src socks; Some (socks, s, ts)
  | _ => Some (run_section id env t socks s)
  end.

(** [Service.Close], up to the wait for the splices. *)
Definition Close (s : Service) : Service * list task :=
  if closed s then (s, [])
  else (with_closed s, map (fun kv => Closing (raw kv.2)) (map_to_list (waiting s)) ++
                       map (fun kv => Closing (raw kv.2)) (map_to_list (active s))).

(** ** The service and its goroutines *)
Record Sys := {
  svc : Service;
  sockets : gmap nat Addr;
  tasks : list task;
  next : nat
}.

Definition init_sys (opts : list Option) : Sys := {| svc := NewService opts; sockets := ∅; tasks := []; next := 0 |}.

Inductive step (id : Noise.Identity) : Sys -> Sys -> Prop :=
| step_accept y remote s' :
    admit_conn (conn_ip remote) (svc y) = Some s' ->
    step id y {| svc := s'; sockets := <[next y := conn_ip remote]> (sockets y);
                 tasks := tasks y ++ [Handshaking (next y)]; next := S (next y) |}
| step_run y env l1 t l2 socks' s' ts :
    tasks y = l1 ++ t :: l2 -> run id env t (sockets y) (svc y) = Some (socks', s', ts) ->
    step id y {| svc := s'; sockets := socks'; tasks := l1 ++ ts ++ l2; next := next y |}
| step_close y s' ts :
    Close (svc y) = (s', ts) ->
    step id y {| svc := s'; sockets := sockets y; tasks := tasks y ++ ts; next := next y |}.

Inductive reachable (id : Noise.Identity) (opts : list Option) : Sys -> Prop :=
| reach_init : reachable id opts (init_sys opts)
| reach_step y y' : reachable id opts y -> step id y y' -> reachable id opts y'.

(** ** Connection limits: the counts are exact *)
Definition held (ip : Addr) (socks : gmap nat Addr) : Z := Z.of_nat (size (filter (fun kv => kv.2 = ip) socks)).

Record counts_ok (socks : gmap nat Addr) (s : Service) : Prop := {
  co_total : conns s = Z.of_nat (size socks);
  co_ip : forall ip, conns_of s ip = held ip socks;
  co_pos : forall ip n, connsByIP s !! ip = Some n -> 0 < n;
  co_max : conns s <= maxConns s;
  co_max_ip : forall ip, conns_of s ip <= maxConnsPerIP s
}.

Lemma held_insert c ip ip' socks :
  socks !! c = None -> held ip' (<[c := ip]> socks) = held ip' socks + (if decide (ip = ip') then 1 else 0).
Proof.
  intros Hc. unfold held. destruct (decide (ip = ip')) as [->|Hne].
  - rewrite map_filter_insert_True by done. rewrite map_size_insert_None; [lia|]. apply map_lookup_filter_None. by left.
  - rewrite map_filter_insert_False by done. rewrite delete_id by done. lia.
Qed.

Lemma held_delete c ip ip' socks :
  socks !! c = Some ip -> held ip' (delete c socks) = held ip' socks - (if decide (ip = ip') then 1 else 0).
Proof.
  intros Hc. pose proof (held_insert c ip ip' (delete c socks) (lookup_delete_eq _ _)) as Hi.
  rewrite insert_delete_id in Hi by done. lia.
Qed.

Lemma conns_of_insert s ip ip' n k : conns_of (with_conns k (<[ip := n]> (connsByIP s)) s) ip' = if decide (ip = ip') then n else conns_of s ip'.
Proof. unfold conns_of. cbn [connsByIP with_conns]. destruct (decide (ip = ip')) as [->|]; [by rewrite lookup_insert_eq|by rewrite lookup_insert_ne]. Qed.

Lemma admit_counts socks s s' c ip :
  counts_ok socks s -> socks !! c = None -> admit_conn ip s = Some s' -> counts_ok (<[c := ip]> socks) s'.
Proof.
  intros [C1 C2 C3 C4 C5] Hc. unfold admit_conn. destruct (_ || _) eqn:E; [done|]. apply orb_false_iff in E as [E1 E2]. bool_to_prop.
  intros Hs. assert (s' = with_conns (conns s + 1) (<[ip := conns_of s ip + 1]> (connsByIP s)) s) as -> by congruence.
  split; cbn [conns maxConns maxConnsPerIP with_conns].
  - rewrite map_size_insert_None by done. lia.
  - intros ip'. rewrite conns_of_insert, held_insert by done. rewrite <- C2. destruct (decide (ip = ip')) as [->|]; lia.
  - intros ip' n. cbn [connsByIP with_conns]. intros [[<- <-]|[_ Hn]]%lookup_insert_Some; [|by eapply C3].
    specialize (C2 ip). unfold held in C2. lia.
  - lia.
  - intros ip'. rewrite conns_of_insert. specialize (C5 ip'). destruct (decide (ip = ip')) as [->|]; lia.
Qed.

Lemma release_counts socks s c ip : counts_ok socks s -> socks !! c = Some ip -> counts_ok (delete c socks) (release ip s).
Proof.
  intros [C1 C2 C3 C4 C5] Hc.
  assert (forall ip', conns_of (release ip s) ip' = conns_of s ip' - (if decide (ip = ip') then 1 else 0)) as Hr.
  { intros ip'. unfold release. destruct (_ <=? 0) eqn:E; bool_to_prop.
    - pose proof (C2 ip) as Hip. pose proof (held_delete c ip ip socks Hc) as Hd. rewrite decide_True in Hd by done.
      unfold conns_of at 1. cbn [connsByIP with_conns]. destruct (decide (ip = ip')) as [->|]; [|rewrite lookup_delete_ne by done; unfold conns_of; lia].
      rewrite lookup_delete_eq. cbn [default]. unfold held in *. cbn. lia.
    - rewrite conns_of_insert. destruct (decide (ip = ip')) as [->|]; lia. }
  split.
  - unfold release. cbn [conns with_conns]. rewrite map_size_delete_Some by done. rewrite C1.
    assert (size socks <> 0)%nat by (eapply map_size_ne_0_lookup_2; eauto). lia.
  - intros ip'. rewrite Hr, (held_delete c ip), C2 by done. done.
  - intros ip' n. unfold release. cbn [connsByIP with_conns]. destruct (_ <=? 0) eqn:E; bool_to_prop.
    + intros [_ Hn]%lookup_delete_Some. by eapply C3.
    + intros [[<- <-]|[_ Hn]]%lookup_insert_Some; [lia|by eapply C3].
  - unfold release. cbn [conns maxConns with_conns]. lia.
  - intros ip'. rewrite Hr. specialize (C5 ip'). change (maxConnsPerIP (release ip s)) with (maxConnsPerIP s). destruct (decide _); lia.
Qed.

(** ** Every connection has one owner *)

(** The splices that run, by the connection they write to. *)
Definition splicers (t : task) : list serverConn :=
  match t with Splicing dst _ => [dst] | Forgetting sc => [sc] | _ => [] end.

(** The connection a task stands for: it is handshaking, pairing, or spliced. *)
Definition claim (t : task) : list nat :=
  match t with
  | Handshaking c => [c]
  | Pairing sc | Evicting sc _ | Repairing sc | Forgetting sc => [raw sc]
  | Splicing dst _ => [raw dst]
  | Timer _ | Closing _ => []
  end.

(** The connections a task will close if it does not hand them on. *)
Definition owners (t : task) : list nat :=
  match t with
  | Handshaking c | Closing c => [c]
  | Pairing sc | Evicting sc _ | Repairing sc => [raw sc]
  | Splicing dst src => [raw dst; raw src]
  | Timer _ | Forgetting _ => []
  end.

Definition waits (w : gmap (list Z) serverConn) : list nat := map (fun kv => raw kv.2) (map_to_list w).
Definition claims (T : list task) (s : Service) : list nat := (T ≫= claim) ++ waits (waiting s).

Record tasks_ok (s : Service) (socks : gmap nat Addr) (T : list task) (n : nat) : Prop := {
  ok_counts : counts_ok socks s;
  ok_live : forall c, is_Some (socks !! c) -> (exists t, t ∈ T /\ c ∈ owners t) \/ c ∈ waits (waiting s);
  ok_wait : forall ch sc, waiting s !! ch = Some sc -> channel sc = ch /\ Timer sc ∈ T;
  ok_claims : NoDup (claims T s);
  ok_fresh : forall c, c ∈ claims T s \/ is_Some (socks !! c) -> (c < n)%nat;
  ok_splice : forall d s', Splicing d s' ∈ T -> channel d = channel s' /\ raw d <> raw s';
  ok_wg : wg s = Z.of_nat (length (T ≫= splicers));
  ok_active : forall c, is_Some (active s !! c) <-> c ∈ map raw (T ≫= splicers);
  ok_closed : closed s = true -> waiting s = ∅
}.

Lemma waits_insert w ch sc : w !! ch = None -> waits (<[ch := sc]> w) ≡ₚ raw sc :: waits w.
Proof. intros Hw. unfold waits. by rewrite map_to_list_insert by done. Qed.

Lemma waits_delete w ch sc : w !! ch = Some sc -> waits w ≡ₚ raw sc :: waits (delete ch w).
Proof. intros Hw. unfold waits. by rewrite <- (map_to_list_delete w ch sc) by done. Qed.

Lemma tasks_ok_perm s socks T T' n : T ≡ₚ T' -> tasks_ok s socks T n -> tasks_ok s socks T' n.
Proof.
  intros HP [K1 K2 K3 K4 K5 K6 K7 K8 K9]. unfold claims in *. split; unfold claims; try done.
  - intros c Hc. destruct (K2 c Hc) as [(t & Ht & Ho)|Hw]; [left; exists t; by rewrite <- HP|by right].
  - intros ch sc Hw. destruct (K3 ch sc Hw). split; [done|]. by rewrite <- HP.
  - by rewrite <- HP.
  - intros c. rewrite <- HP. apply K5.
  - intros d s'. rewrite <- HP. apply K6.
  - by rewrite <- HP.
  - intros c. rewrite <- HP. apply K8.
Qed.

Lemma NoDup_sub (l k : list nat) : l ⊆+ k -> NoDup k -> NoDup l.
Proof. intros [l' ->]%submseteq_Permutation Hn. by apply NoDup_app in Hn as [? _]. Qed.

(** A step that leaves the service as it is: the task's connection passes to
    the tasks that follow. *)
Lemma tasks_ok_replace s socks t ts T n :
  tasks_ok s socks (t :: T) n ->
  (forall c, c ∈ owners t -> exists t', t' ∈ ts /\ c ∈ owners t') ->
  (ts ≫= claim) ⊆+ claim t -> (forall sc, t <> Timer sc) -> map raw (ts ≫= splicers) = map raw (splicers t) ->
  (forall d s', Splicing d s' ∈ ts -> channel d = channel s' /\ raw d <> raw s') ->
  tasks_ok s socks (ts ++ T) n.
Proof.
  intros [K1 K2 K3 K4 K5 K6 K7 K8 K9] Ho Hc Ht Hs Hsp.
  assert (claims (ts ++ T) s ⊆+ claims (t :: T) s) as Hsub.
  { unfold claims. rewrite bind_app, bind_cons. apply submseteq_app; [|done]. by apply submseteq_app. }
  assert (map raw ((ts ++ T) ≫= splicers) = map raw ((t :: T) ≫= splicers)) as Esp by (rewrite bind_app, bind_cons, !map_app, Hs; done).
  split; try done.
  - intros c Hx. destruct (K2 c Hx) as [(t' & [->|Ht']%elem_of_cons & Hown)|Hw]; [| |by right].
    + destruct (Ho c Hown) as (t2 & Ht2 & Hown2). left. exists t2. split; [apply elem_of_app; by left|done].
    + left. exists t'. split; [apply elem_of_app; by right|done].
  - intros ch sc Hw. destruct (K3 ch sc Hw) as [? [E|?]%elem_of_cons]; [by destruct (Ht sc)|].
    split; [done|]. apply elem_of_app. by right.
  - by eapply NoDup_sub.
  - intros c [Hx|Hx]; apply K5; [|by right]. left. by eapply elem_of_submseteq.
  - intros d s' [Hd|Hd]%elem_of_app; [by apply Hsp|]. apply K6. by apply list_elem_of_further.
  - rewrite K7. f_equal. rewrite <- (length_map raw), <- Esp. apply length_map.
  - intros c. rewrite Esp. apply K8.
Qed.

(** The connection waits for its counterpart. *)
Lemma tasks_ok_wait s socks t sc T n :
  tasks_ok s socks (t :: T) n -> (t = Pairing sc \/ t = Repairing sc) -> closed s = false -> waiting s !! channel sc = None ->
  tasks_ok (with_waiting (<[channel sc := sc]> (waiting s)) s) socks (Timer sc :: T) n.
Proof.
  intros [K1 K2 K3 K4 K5 K6 K7 K8 K9] Ht Hcl Hw.
  assert (owners t = [raw sc] /\ claim t = [raw sc] /\ splicers t = []) as (Eo & Ec & Es) by by destruct Ht as [-> | ->].
  assert (claims (Timer sc :: T) (with_waiting (<[channel sc := sc]> (waiting s)) s) ≡ₚ claims (t :: T) s) as HP.
  { unfold claims. rewrite !bind_cons, Ec. cbn [claim waiting with_waiting app]. rewrite (waits_insert (waiting s) (channel sc) sc Hw).
    symmetry. apply Permutation_middle. }
  split; cbn [waiting active wg closed with_waiting].
  - by destruct K1.
  - intros c Hx. rewrite (waits_insert (waiting s) (channel sc) sc Hw), elem_of_cons.
    destruct (K2 c Hx) as [(t' & [->|Ht']%elem_of_cons & Hown)|Hin]; [|left; exists t'; split; [by right|done]|by auto].
    rewrite Eo in Hown. apply list_elem_of_singleton in Hown. by auto.
  - intros ch sc'. intros [[<- <-]|[_ Hn]]%lookup_insert_Some; [split; [done|by left]|].
    destruct (K3 ch sc' Hn) as [? [E|?]%elem_of_cons]; [by destruct Ht as [-> | ->]|]. split; [done|by right].
  - by rewrite HP.
  - intros c. rewrite HP. apply K5.
  - intros d s' [E|Hd]%elem_of_cons; [done|]. apply K6. by right.
  - rewrite bind_cons, Es in K7. exact K7.
  - rewrite bind_cons, Es in K8. exact K8.
  - by rewrite Hcl.
Qed.

(** The connection is spliced with the one that waits. *)
Lemma tasks_ok_pair s socks t sc o T n :
  tasks_ok s socks (t :: T) n -> (t = Pairing sc \/ t = Repairing sc) -> closed s = false -> waiting s !! channel sc = Some o ->
  tasks_ok (wait_or_splice sc (Some o) s).1 socks (Splicing sc o :: Splicing o sc :: T) n.
Proof.
  intros [K1 K2 K3 K4 K5 K6 K7 K8 K9] Ht Hcl Hw. cbn [wait_or_splice fst].
  assert (owners t = [raw sc] /\ claim t = [raw sc] /\ splicers t = []) as (Eo & Ec & Es) by by destruct Ht as [-> | ->].
  assert (claims (t :: T) s ≡ₚ raw sc :: raw o :: (T ≫= claim) ++ waits (delete (channel sc) (waiting s))) as HP.
  { unfold claims. rewrite bind_cons, Ec. cbn [app]. rewrite (waits_delete (waiting s) (channel sc) o Hw).
    apply Permutation_skip. symmetry. apply Permutation_middle. }
  assert (raw sc <> raw o) as Hne by (rewrite HP in K4; inversion K4 as [|? ? Hni]; set_solver).
  rewrite bind_cons, Es in K7. setoid_rewrite bind_cons in K8. rewrite Es in K8. cbn [app] in K7, K8.
  split; unfold claims; rewrite ?bind_cons; cbn [waiting active wg closed with_waiting with_active claim splicers app].
  - by destruct K1.
  - intros c Hx. destruct (K2 c Hx) as [(t' & [->|Ht']%elem_of_cons & Hown)|Hin].
    + left. exists (Splicing sc o). split; [by left|]. rewrite Eo in Hown. cbn. set_solver.
    + left. exists t'. split; [by do 2 right|done].
    + rewrite (waits_delete (waiting s) (channel sc) o Hw) in Hin. apply elem_of_cons in Hin as [->|Hin]; [|by right].
      left. exists (Splicing sc o). split; [by left|]. cbn. set_solver.
  - intros ch sc' [_ Hn]%lookup_delete_Some. destruct (K3 ch sc' Hn) as [? [E|?]%elem_of_cons]; [by destruct Ht as [-> | ->]|].
    split; [done|by do 2 right].
  - by rewrite HP in K4.
  - intros c Hx. apply K5. by rewrite HP.
  - intros d s' [E|[E|Hd]%elem_of_cons]%elem_of_cons; [| |apply K6; by right];
      injection E as -> ->; destruct (K3 _ _ Hw); split; congruence.
  - cbn [length]. lia.
  - intros c. cbn [map]. rewrite !elem_of_cons, <- K8, !lookup_insert_is_Some'. intuition congruence.
  - by rewrite Hcl.
Qed.

Lemma tasks_ok_evict s socks ch sc T n s' ts :
  tasks_ok s socks T n -> evict ch sc s = (s', ts) -> tasks_ok s' socks (ts ++ T) n.
Proof.
  intros K. unfold evict. destruct (waiting s !! ch) as [o|] eqn:Ew; [|by intros [= <- <-]].
  destruct (Nat.eqb_spec (raw o) (raw sc)) as [Er|]; [|by intros [= <- <-]]. intros [= <- <-]. cbn [app].
  destruct K as [K1 K2 K3 K4 K5 K6 K7 K8 K9].
  pose proof (waits_delete (waiting s) ch o Ew) as HP.
  assert (claims (Closing (raw sc) :: T) (with_waiting (delete ch (waiting s)) s) ⊆+ claims T s) as Hsub.
  { unfold claims. rewrite bind_cons. cbn [claim app waiting with_waiting]. apply submseteq_app; [done|].
    rewrite HP. by apply submseteq_cons. }
  split; cbn [waiting active wg closed with_waiting].
  - by destruct K1.
  - intros c Hx. destruct (K2 c Hx) as [(t' & Ht' & Hown)|Hin]; [left; exists t'; split; [by right|done]|].
    rewrite HP in Hin. apply elem_of_cons in Hin as [->|Hin]; [|by right].
    left. exists (Closing (raw sc)). split; [by left|]. cbn. rewrite Er. by left.
  - intros ch' sc' [_ Hn]%lookup_delete_Some. destruct (K3 ch' sc' Hn). split; [done|by right].
  - by eapply NoDup_sub.
  - intros c [Hx|Hx]; apply K5; [left; by eapply elem_of_submseteq|by right].
  - intros d s' [E|Hd]%elem_of_cons; [done|]. by apply K6.
  - by rewrite bind_cons.
  - intros c. rewrite bind_cons. apply K8.
  - intros Hc. rewrite K9 by done. apply delete_empty.
Qed.

Lemma tasks_ok_drop_timer s socks sc T n :
  tasks_ok s socks (Timer sc :: T) n -> waiting s !! channel sc <> Some sc -> tasks_ok s socks T n.
Proof.
  intros [K1 K2 K3 K4 K5 K6 K7 K8 K9] Hw. unfold claims in *. rewrite bind_cons in K4, K5. rewrite bind_cons in K7.
  setoid_rewrite bind_cons in K8. cbn [claim splicers app] in *.
  split; unfold claims; try done.
  - intros c Hx. destruct (K2 c Hx) as [(t' & [->|Ht']%elem_of_cons & Hown)|Hin]; [|left; by exists t'|by right].
    by apply elem_of_nil in Hown.
  - intros ch sc' Hn. destruct (K3 ch sc' Hn) as [E [E'|?]%elem_of_cons]; [|done].
    assert (sc' = sc) as -> by congruence. by subst ch.
  - intros d s' Hd. apply K6. by right.
Qed.

Lemma evict_gone sc s s' ts : evict (channel sc) sc s = (s', ts) -> waiting s' !! channel sc <> Some sc.
Proof.
  unfold evict. destruct (waiting s !! channel sc) as [o|] eqn:Ew; [|intros [= <- <-]; by rewrite Ew].
  destruct (Nat.eqb_spec (raw o) (raw sc)) as [Er|Er]; intros [= <- <-]; cbn [waiting with_waiting].
  - by rewrite lookup_delete_eq.
  - rewrite Ew. intros [= ->]. done.
Qed.

Lemma splicers_claim T c : c ∈ map raw (T ≫= splicers) -> c ∈ T ≫= claim.
Proof.
  intros (sc & -> & (t & Ht & HT)%list_elem_of_bind)%list_elem_of_fmap. apply list_elem_of_bind. exists t. split; [|done].
  destruct t; cbn in *; try (by apply elem_of_nil in Ht); apply list_elem_of_singleton in Ht as ->; by left.
Qed.

Lemma tasks_ok_forget s socks sc T n :
  tasks_ok s socks (Forgetting sc :: T) n -> tasks_ok (wg_Done (forget sc s)) socks T n.
Proof.
  intros [K1 K2 K3 K4 K5 K6 K7 K8 K9]. unfold claims in *. rewrite bind_cons in K4, K5. rewrite bind_cons in K7.
  setoid_rewrite bind_cons in K8. cbn [claim splicers app] in *. apply NoDup_cons in K4 as [Hni K4].
  split; unfold claims; cbn [waiting active wg closed wg_Done forget with_active] in *.
  - by destruct K1.
  - intros c Hx. destruct (K2 c Hx) as [(t' & [->|Ht']%elem_of_cons & Hown)|Hin]; [by apply elem_of_nil in Hown|left; by exists t'|by right].
  - intros ch sc' Hn. destruct (K3 ch sc' Hn) as [E [E'|?]%elem_of_cons]; done.
  - done.
  - intros c [Hx|Hx]; apply K5; [left; by right|by right].
  - intros d s' Hd. apply K6. by right.
  - cbn [length] in K7. lia.
  - intros c. specialize (K8 c). cbn [map] in K8. rewrite elem_of_cons in K8. destruct (decide (raw sc = c)) as [<-|Hne].
    + rewrite lookup_delete_eq. split; [by intros [? ?]|]. intros Hc. destruct Hni. apply elem_of_app. left. by apply splicers_claim.
    + rewrite lookup_delete_ne by done. rewrite K8. intuition congruence.
  - done.
Qed.

Lemma tasks_ok_close_conn s socks c T n socks' s' :
  tasks_ok s socks (Closing c :: T) n -> close_conn c socks s = (socks', s') -> tasks_ok s' socks' T n.
Proof.
  intros [K1 K2 K3 K4 K5 K6 K7 K8 K9] Hcl. unfold claims in *. rewrite bind_cons in K4, K5. rewrite bind_cons in K7.
  setoid_rewrite bind_cons in K8. cbn [claim splicers app] in *.
  assert (counts_ok socks' s' /\ socks' = delete c socks /\ waiting s' = waiting s /\ active s' = active s /\ wg s' = wg s /\ closed s' = closed s)
    as (C & -> & Ew & Ea & Eg & Ec).
  { unfold close_conn in Hcl. destruct (socks !! c) as [ip|] eqn:E; injection Hcl as <- <-.
    - split; [by apply release_counts|done].
    - by rewrite delete_id. }
  split; unfold claims; rewrite ?Ew, ?Ea, ?Eg, ?Ec; try done.
  - intros c' [ip [Hne Hx]%lookup_delete_Some].
    destruct (K2 c' (mk_is_Some _ _ Hx)) as [(t' & [->|Ht']%elem_of_cons & Hown)|Hin]; [|left; by exists t'|by right].
    cbn in Hown. apply list_elem_of_singleton in Hown. congruence.
  - intros ch sc' Hn. destruct (K3 ch sc' Hn) as [E [E'|?]%elem_of_cons]; done.
  - intros c' [Hx|[ip [_ Hx]%lookup_delete_Some]]; apply K5; [by left|right; by exists ip].
  - intros d s2 Hd. apply K6. by right.
Qed.

Lemma closing_tasks {K} (l : list (K * serverConn)) t :
  t ∈ map (fun kv => Closing (raw kv.2)) l -> exists c, t = Closing c.
Proof. intros (kv & -> & _)%list_elem_of_fmap. by eexists. Qed.

Lemma bind_closings {B} (f : task -> list B) ts :
  (forall t, t ∈ ts -> exists c, t = Closing c) -> (forall c, f (Closing c) = []) -> ts ≫= f = [].
Proof.
  intros Hts Hf. induction ts as [|t ts IH]; [done|]. rewrite bind_cons. destruct (Hts t) as [c ->]; [by left|].
  rewrite Hf. apply IH. intros t' Ht'. apply Hts. by right.
Qed.

Lemma Close_tasks s s' ts t : Close s = (s', ts) -> t ∈ ts -> exists c, t = Closing c.
Proof.
  unfold Close. destruct (closed s); intros [= <- <-]; [by intros ?%elem_of_nil|].
  intros [Ht|Ht]%elem_of_app; by apply closing_tasks in Ht.
Qed.

Lemma tasks_ok_Close s socks T n s' ts : tasks_ok s socks T n -> Close s = (s', ts) -> tasks_ok s' socks (T ++ ts) n.
Proof.
  intros K Hc. pose proof (Close_tasks s s' ts) as Hts. specialize (fun t => Hts t Hc).
  pose proof (bind_closings claim ts Hts (fun _ => eq_refl)) as Ec.
  pose proof (bind_closings splicers ts Hts (fun _ => eq_refl)) as Es.
  unfold Close in Hc. destruct (closed s) eqn:Ecl; injection Hc as <- <-; [by rewrite app_nil_r|].
  destruct K as [K1 K2 K3 K4 K5 K6 K7 K8 K9]. set (ts := map _ _ ++ map _ _) in *.
  assert (claims (T ++ ts) (with_closed s) ⊆+ claims T s) as Hsub.
  { unfold claims. rewrite bind_app, Ec, app_nil_r. apply submseteq_app; [done|]. apply submseteq_nil_l. }
  split; cbn [waiting active wg closed with_closed]; rewrite ?bind_app, ?Es, ?app_nil_r; try done.
  - by destruct K1.
  - intros c Hx. left. destruct (K2 c Hx) as [(t' & Ht' & Hown)|Hin]; [exists t'; split; [apply elem_of_app; by left|done]|].
    apply list_elem_of_fmap in Hin as (kv & -> & Hkv). exists (Closing (raw kv.2)). split; [|by left].
    apply elem_of_app. right. apply elem_of_app. left. by apply (list_elem_of_fmap_2 (fun kv => Closing (raw kv.2))).
  - by eapply NoDup_sub.
  - intros c [Hx|Hx]; apply K5; [left; by eapply elem_of_submseteq|by right].
  - intros d s' [Hd|Hd]%elem_of_app; [by apply K6|]. by destruct (Hts _ Hd).
Qed.

Lemma tasks_ok_accept s socks T n ip s' :
  tasks_ok s socks T n -> admit_conn ip s = Some s' -> tasks_ok s' (<[n := ip]> socks) (Handshaking n :: T) (S n).
Proof.
  intros [K1 K2 K3 K4 K5 K6 K7 K8 K9] Ha.
  assert (socks !! n = None) as Hn.
  { destruct (socks !! n) eqn:E; [|done]. assert (n < n)%nat; [apply K5; right; by eexists|lia]. }
  pose proof (admit_counts socks s s' n ip K1 Hn Ha) as C.
  assert (waiting s' = waiting s /\ active s' = active s /\ wg s' = wg s /\ closed s' = closed s) as (Ew & Ea & Eg & Ec).
  { unfold admit_conn in Ha. destruct (_ || _); [done|]. injection Ha as <-. done. }
  assert (claims (Handshaking n :: T) s' = n :: claims T s) as Ecl by (unfold claims; rewrite bind_cons, Ew; done).
  split; rewrite ?Ecl, ?Ew, ?Ea, ?Eg, ?Ec, ?bind_cons; cbn [splicers app]; try done.
  - intros c Hx. destruct (decide (n = c)) as [<-|Hne]; [left; exists (Handshaking n); split; by left|].
    rewrite lookup_insert_ne in Hx by done. destruct (K2 c Hx) as [(t' & Ht' & Hown)|Hin]; [left; exists t'; split; [by right|done]|by right].
  - intros ch sc Hw. destruct (K3 ch sc Hw). split; [done|by right].
  - apply NoDup_cons. split; [|done]. intros Hin. assert (n < n)%nat; [apply K5; by left|lia].
  - intros c. destruct (decide (n = c)) as [<-|Hne]; [lia|]. rewrite lookup_insert_ne, elem_of_cons by done.
    intros [[->|Hx]|Hx]; [lia| |]; (assert (c < n)%nat; [apply K5; auto|lia]).
  - intros d s2 [E|Hd]%elem_of_cons; [done|by apply K6].
Qed.

Lemma with_seenMsg1_id s : with_seenMsg1 (seenMsg1 s) s = s.
Proof. by destruct s. Qed.

Lemma freshMsg1_service now msg1 payload s : exists m, (freshMsg1 now msg1 payload s).2 = with_seenMsg1 m s.
Proof.
  unfold freshMsg1. destruct (negb _); [exists (seenMsg1 s); by rewrite with_seenMsg1_id|].
  destruct (seenMsg1 s !! _); [exists (seenMsg1 s); by rewrite with_seenMsg1_id|]. destruct (maxSeenMsg1 <=? _); case_match; by eexists.
Qed.

(** A handshake changes the replay cache only, and makes a connection of its
    own socket, for the channel of two different keys. *)
Lemma handshake_result id env c s s' o :
  handshake id env c s = (s', o) ->
  (exists m, s' = with_seenMsg1 m s) /\
  (forall sc w, o = Some (sc, w) -> raw sc = c /\ exists k, k <> clientKey sc /\ channel sc = ChannelID (clientKey sc) k).
Proof.
  assert (exists m, s = with_seenMsg1 m s) as Hid by (exists (seenMsg1 s); by rewrite with_seenMsg1_id).
  unfold handshake. destruct (ch_responder _ _) as [hs|]; [|by intros [= <- <-]].
  destruct (ReadFrameMax _ _) as [[msg1 r]|]; [|by intros [= <- <-]].
  destruct (ch_read hs msg1) as [[[[hs' payload] x] z]|]; [|by intros [= <- <-]].
  destruct (negb _); [by intros [= <- <-]|].
  pose proof (freshMsg1_service (env_now env) msg1 payload s) as Hm. destruct (freshMsg1 _ _ _ _) as [b s1]. cbn [snd] in Hm.
  destruct (negb b); [by intros [= <- <-]|]. case_bool_decide as Hk; [by intros [= <- <-]|].
  destruct (ch_write _ _ _) as [[[[hs2 msg2] cs1] cs2]|]; [|by intros [= <- <-]].
  destruct (WriteFrame msg2); [|by intros [= <- <-]]. destruct (env_writes env); intros E; [|by injection E as <- <-].
  assert (s' = s1) as -> by congruence. split; [done|]. intros sc w' ->. injection E as <- <-. cbn [raw clientKey channel].
  split; [done|]. eexists. by split.
Qed.

Lemma tasks_ok_seen s socks T n m : tasks_ok s socks T n -> tasks_ok (with_seenMsg1 m s) socks T n.
Proof. intros [[] K2 K3 K4 K5 K6 K7 K8 K9]. by split. Qed.

Lemma tasks_ok_pairing s socks t sc T n s' ts :
  tasks_ok s socks (t :: T) n -> (t = Pairing sc \/ t = Repairing sc) -> reenter sc s = (s', ts) -> tasks_ok s' socks (ts ++ T) n.
Proof.
  intros K Ht. unfold reenter. destruct (closed s) eqn:Ec.
  - intros [= <- <-]. apply (tasks_ok_replace s socks t _ T n K); [|by destruct Ht as [-> | ->]; apply submseteq_nil_l|by destruct Ht as [-> | ->]..|].
    + intros c Hc. exists (Closing (raw sc)). split; [by left|]. by destruct Ht as [-> | ->].
    + by intros d s2 ?%list_elem_of_singleton.
  - destruct (waiting s !! channel sc) as [o|] eqn:Ew.
    + pose proof (tasks_ok_pair s socks t sc o T n K Ht Ec Ew) as K'. intros Hr. cbn [wait_or_splice] in Hr. injection Hr as <- <-. exact K'.
    + pose proof (tasks_ok_wait s socks t sc T n K Ht Ec Ew) as K'. intros Hr. cbn [wait_or_splice] in Hr. injection Hr as <- <-. exact K'.
Qed.

Lemma tasks_ok_enter s socks sc T n s' ts :
  tasks_ok s socks (Pairing sc :: T) n -> enter sc s = (s', ts) -> tasks_ok s' socks (ts ++ T) n.
Proof.
  intros K He.
  unfold enter in He. destruct (closed s) eqn:Ec; [|destruct (waiting s !! channel sc) as [o|] eqn:Ew; [case_bool_decide|]].
  - eapply (tasks_ok_pairing s); [done|by left|]. unfold reenter. by rewrite Ec.
  - injection He as <- <-. apply (tasks_ok_replace s socks _ _ T n K); [|done..|].
    + intros c Hc. exists (Evicting sc o). split; [by left|done].
    + by intros d s2 ?%list_elem_of_singleton.
  - eapply (tasks_ok_pairing s); [done|by left|]. unfold reenter. by rewrite Ec, Ew.
  - eapply (tasks_ok_pairing s); [done|by left|]. unfold reenter. by rewrite Ec, Ew.
Qed.

Lemma splice_step_cases env d s2 socks ts :
  splice_step env d s2 socks = Some ts ->
  ts = [Closing (raw s2); Closing (raw d); Forgetting d] \/
  exists cs1 cs2, is_Some (socks !! raw s2) /\ ts = [Splicing (with_send cs1 d) (with_recv cs2 s2)].
Proof.
  unfold splice_step. destruct (socks !! raw s2) eqn:Es; [|intros [= <-]; by left]. destruct (env_quiet env); [done|].
  destruct (forward_frame _ _ _) as [[[[cs2 cs1] w] r]|]; [|intros [= <-]; by left].
  destruct (_ && _); intros [= <-]; [right; exists cs1, cs2; by eauto|by left].
Qed.

Lemma tasks_ok_run id env t socks s T n socks' s' ts :
  tasks_ok s socks (t :: T) n -> run id env t socks s = Some (socks', s', ts) -> tasks_ok s' socks' (ts ++ T) n.
Proof.
  intros K. destruct t as [c|sc|sc o|sc|sc|d s2|sc|c]; cbn [run run_section].
  - destruct (handshake id env c s) as [s1 r] eqn:Eh. intros [= <- <- <-]. apply handshake_result in Eh as [[m ->] Hr].
    apply tasks_ok_seen. destruct r as [[sc w]|]; apply (tasks_ok_replace s socks (Handshaking c) _ T n K); try done.
    + intros x Hx. exists (Pairing sc). split; [by left|]. cbn. by destruct (Hr sc w eq_refl) as [-> _].
    + cbn. by destruct (Hr sc w eq_refl) as [-> _].
    + by intros d s3 ?%list_elem_of_singleton.
    + intros x Hx. exists (Closing c). by split; [left|].
    + apply submseteq_nil_l.
    + by intros d s3 ?%list_elem_of_singleton.
  - destruct (enter sc s) as [s1 l] eqn:E. intros [= <- <- <-]. by eapply tasks_ok_enter.
  - destruct (evict (channel sc) o s) as [s1 l] eqn:E. intros [= <- <- <-].
    pose proof (tasks_ok_evict _ _ _ _ _ _ _ _ K E) as K1. apply (tasks_ok_perm _ _ ([Repairing sc] ++ (l ++ T))).
    { rewrite <- (assoc_L app). cbn [app]; apply Permutation_middle. }
    apply (tasks_ok_replace _ _ (Evicting sc o)); [|intros c Hc; exists (Repairing sc); by split; [left|]|done..|by intros d s2 ?%list_elem_of_singleton].
    eapply tasks_ok_perm; [symmetry; apply Permutation_middle|done].
  - destruct (reenter sc s) as [s1 l] eqn:E. intros [= <- <- <-]. eapply tasks_ok_pairing; [done|by right|done].
  - destruct (evict (channel sc) sc s) as [s1 l] eqn:E. intros [= <- <- <-].
    eapply tasks_ok_drop_timer; [|by eapply evict_gone].
    eapply tasks_ok_perm; [symmetry; apply Permutation_middle|]. by eapply tasks_ok_evict.
  - intros (l & El & [= <- <- <-])%bind_Some. destruct (ok_splice _ _ _ _ K d s2) as [E Hne]; [by left|].
    destruct (splice_step_cases _ _ _ _ _ El) as [->|(cs1 & cs2 & _ & ->)]; apply (tasks_ok_replace s socks _ _ T n K); try done.
    + intros c Hc. cbn in Hc. apply elem_of_cons in Hc as [->|Hc]; [exists (Closing (raw d)); set_solver|].
      apply list_elem_of_singleton in Hc as ->. exists (Closing (raw s2)). set_solver.
    + intros x y [?|[?|?]%elem_of_cons]%elem_of_cons; set_solver.
    + intros c Hc. eexists. split; [by left|]. done.
    + intros x y [= -> ->]%list_elem_of_singleton. done.
  - intros [= <- <- <-]. by apply tasks_ok_forget.
  - destruct (close_conn c socks s) as [socks1 s1] eqn:E. intros [= <- <- <-]. by eapply tasks_ok_close_conn.
Qed.

(** A service made with the options of the package. *)
Record new_service (s : Service) : Prop := {
  ns_waiting : waiting s = ∅; ns_active : active s = ∅; ns_closed : closed s = false; ns_wg : wg s = 0;
  ns_conns : conns s = 0; ns_byIP : connsByIP s = ∅; ns_max : 0 < maxConns s; ns_maxIP : 0 < maxConnsPerIP s
}.

Lemma NewService_new opts : Forall known_option opts -> new_service (NewService opts).
Proof.
  intros Ho. unfold NewService.
  assert (forall s, new_service s -> new_service (foldl (fun s opt => opt s) s opts)) as Hf; [|by apply Hf].
  induction Ho as [|opt opts Hopt _ IH]; [done|]. intros s Hs. cbn [foldl]. apply IH.
  destruct Hopt as [->|(total & perIP & ->)]; [done|]. destruct Hs. unfold MaxConns.
  destruct (0 <? total) eqn:E1, (0 <? perIP) eqn:E2; bool_to_prop; by split.
Qed.

Lemma tasks_ok_init opts : Forall known_option opts -> tasks_ok (NewService opts) ∅ [] 0.
Proof.
  intros [W A C G N B M I]%NewService_new.
  assert (waits (waiting (NewService opts)) = []) as Ew by by rewrite W.
  split; unfold claims; rewrite ?Ew, ?W, ?A, ?G; try done.
  - split; unfold conns_of; rewrite ?N, ?B; try done; [lia|]. intros ip. rewrite lookup_empty. cbn. lia.
  - by intros c [x ?].
  - constructor.
  - intros c [?%elem_of_nil|[? ?]]; done.
  - by intros d s' ?%elem_of_nil.
  - intros c. rewrite lookup_empty. split; [by intros [? ?]|by intros ?%elem_of_nil].
Qed.

Lemma relay_step_ok id y y' :
  step id y y' -> tasks_ok (svc y) (sockets y) (tasks y) (next y) -> tasks_ok (svc y') (sockets y') (tasks y') (next y').
Proof.
  intros [y0 remote s' Ha|y0 env l1 t l2 socks' s' ts Et Hr|y0 s' ts Hc] K; cbn [svc sockets tasks next].
  - eapply tasks_ok_perm; [apply Permutation_cons_append|]. by apply (tasks_ok_accept (svc y0)).
  - apply (tasks_ok_perm _ _ (ts ++ (l1 ++ l2))); [by rewrite !(assoc_L app), (Permutation_app_comm ts l1)|].
    eapply tasks_ok_run; [|done]. eapply tasks_ok_perm; [|done]. rewrite Et. symmetry. apply Permutation_middle.
  - by apply (tasks_ok_Close (svc y0)).
Qed.

Lemma reachable_ok id opts y :
  Forall known_option opts -> reachable id opts y -> tasks_ok (svc y) (sockets y) (tasks y) (next y).
Proof. intros Ho. induction 1 as [|y y' _ IH Hs]; [by apply tasks_ok_init|]. by eapply relay_step_ok. Qed.

(** C22: However the connections' goroutines interleave, the relay's books are
    exact: the connection counts are the numbers of open connections and stay
    within the limits, a waiting connection is filed under its channel with its
    timer running, a connection is in one place only, a splice joins two
    different connections of one channel, and the wait group and the active set
    are the splices that run. *)
Theorem relay_books_exact id opts y :
  Forall known_option opts -> reachable id opts y ->
  conns (svc y) = Z.of_nat (size (sockets y)) /\ conns (svc y) <= maxConns (svc y) /\
  (forall ip, conns_of (svc y) ip = held ip (sockets y) /\ held ip (sockets y) <= maxConnsPerIP (svc y)) /\
  (forall ch sc, waiting (svc y) !! ch = Some sc -> channel sc = ch /\ Timer sc ∈ tasks y) /\
  NoDup (claims (tasks y) (svc y)) /\
  (forall d s, Splicing d s ∈ tasks y -> channel d = channel s /\ raw d <> raw s) /\
  wg (svc y) = Z.of_nat (length (tasks y ≫= splicers)) /\
  (forall c, is_Some (active (svc y) !! c) <-> c ∈ map raw (tasks y ≫= splicers)).
Proof.
  intros Ho Hr. destruct (reachable_ok id opts y Ho Hr) as [[C1 C2 C3 C4 C5] K2 K3 K4 K5 K6 K7 K8 K9].
  do 2 (split; [done|]). split; [intros ip; rewrite <- C2; by split|]. by do 4 (split; [done|]).
Qed.

(** ** Nothing leaks *)

(** The steps a goroutine can still take. *)
Definition weight (t : task) : nat :=
  match t with
  | Closing _ | Forgetting _ => 1
  | Timer _ => 2
  | Splicing _ _ => 4
  | Repairing _ => 9
  | Evicting _ _ => 11
  | Pairing _ => 12
  | Handshaking _ => 13
  end.
Definition load (T : list task) : nat := sum_list_with weight T.

Lemma load_app T1 T2 : load (T1 ++ T2) = (load T1 + load T2)%nat.
Proof. apply sum_list_with_app. Qed.

Lemma evict_load ch sc s s' ts : evict ch sc s = (s', ts) -> (load ts <= 1)%nat.
Proof. unfold evict. repeat case_match; intros [= <- <-]; cbn; lia. Qed.

Lemma wait_or_splice_load sc o s s' ts : wait_or_splice sc o s = (s', ts) -> (load ts <= 8)%nat.
Proof. destruct o; cbn [wait_or_splice]; intros [= <- <-]; cbn; lia. Qed.

Lemma reenter_load sc s s' ts : reenter sc s = (s', ts) -> (load ts <= 8)%nat.
Proof. unfold reenter. case_match; [intros [= <- <-]; cbn; lia|apply wait_or_splice_load]. Qed.

(** A step that forwards a frame. *)
Definition forwards (t : task) (ts : list task) : bool :=
  match t, ts with Splicing _ _, [Splicing _ _] => true | _, _ => false end.

Lemma run_section_load id env t socks s socks' s' ts :
  run_section id env t socks s = (socks', s', ts) -> match t with Splicing _ _ => True | _ => (load ts < weight t)%nat end.
Proof.
  destruct t as [c|sc|sc o|sc|sc|d s2|sc|c]; cbn [run_section weight]; try done.
  - destruct (handshake id env c s) as [s1 [[sc w]|]]; intros [= <- <- <-]; cbn; lia.
  - unfold enter. destruct (closed s); [intros [= <- <- <-]; cbn; lia|].
    destruct (waiting s !! channel sc) as [o|]; [case_bool_decide|]; [intros [= <- <- <-]; cbn; lia|..];
      (destruct (wait_or_splice sc _ s) as [s1 l] eqn:E; apply wait_or_splice_load in E; intros [= <- <- <-]; lia).
  - destruct (evict _ o s) as [s1 l] eqn:E. apply evict_load in E. intros [= <- <- <-]. rewrite load_app. cbn. lia.
  - destruct (reenter sc s) as [s1 l] eqn:E. apply reenter_load in E. intros [= <- <- <-]. lia.
  - destruct (evict _ sc s) as [s1 l] eqn:E. apply evict_load in E. intros [= <- <- <-]. lia.
  - intros [= <- <- <-]. cbn. lia.
  - destruct (close_conn c socks s). intros [= <- <- <-]. cbn. lia.
Qed.

(** A step leaves less to do, unless it forwards a frame. *)
Lemma run_load id env t socks s socks' s' ts :
  run id env t socks s = Some (socks', s', ts) -> (load ts + (if forwards t ts then 0 else 1) <= weight t)%nat.
Proof.
  intros Hr. destruct t as [c|sc|sc o|sc|sc|d s2|sc|c]; cbn [run forwards] in *;
    try (apply (inj Some), run_section_load in Hr; cbn iota beta in Hr |- *; lia).
  apply bind_Some in Hr as (l & El & [= <- <- <-]). destruct (splice_step_cases _ _ _ _ _ El) as [->|(cs1 & cs2 & _ & ->)]; cbn; lia.
Qed.

(** Steps of goroutines, with no new connection; [k] of them forward no frame. *)
Inductive runs (id : Noise.Identity) : nat -> Sys -> Sys -> Prop :=
| runs_0 y : runs id 0 y y
| runs_S k y y' env l1 t l2 socks' s' ts :
    tasks y = l1 ++ t :: l2 -> run id env t (sockets y) (svc y) = Some (socks', s', ts) ->
    runs id k {| svc := s'; sockets := socks'; tasks := l1 ++ ts ++ l2; next := next y |} y' ->
    runs id (if forwards t ts then k else S k) y y'.

Lemma runs_load id k y y' : runs id k y y' -> (k + load (tasks y') <= load (tasks y))%nat.
Proof.
  induction 1 as [y|k y y' env l1 t l2 socks' s' ts Et Hr _ IH]; [lia|]. apply run_load in Hr.
  cbn [tasks] in IH. rewrite Et. rewrite !load_app in *. change (load (t :: l2)) with (weight t + load l2)%nat.
  destruct (forwards t ts); lia.
Qed.

Lemma runs_app id k1 k2 y1 y2 y3 : runs id k1 y1 y2 -> runs id k2 y2 y3 -> runs id (k1 + k2) y1 y3.
Proof.
  induction 1 as [y|k y y' env l1 t l2 socks' s' ts Et Hr _ IH]; [done|]. intros H2.
  pose proof (runs_S id (k + k2) y y3 env l1 t l2 socks' s' ts Et Hr (IH H2)) as H3. by destruct (forwards t ts).
Qed.

Lemma runs_ok id k y y' :
  runs id k y y' -> tasks_ok (svc y) (sockets y) (tasks y) (next y) -> tasks_ok (svc y') (sockets y') (tasks y') (next y').
Proof.
  induction 1 as [y|k y y' env l1 t l2 socks' s' ts Et Hr _ IH]; [done|]. intros K. apply IH.
  eapply relay_step_ok; [by eapply step_run|done].
Qed.

Lemma tasks_done s socks n : tasks_ok s socks [] n ->
  conns s = 0 /\ connsByIP s = ∅ /\ socks = ∅ /\ waiting s = ∅ /\ active s = ∅ /\ wg s = 0.
Proof.
  intros [[C1 C2 C3 C4 C5] K2 K3 K4 K5 K6 K7 K8 K9].
  assert (waiting s = ∅) as Hw by (apply map_empty; intros ch; apply eq_None_not_Some; intros [sc Hs]; by destruct (K3 ch sc Hs) as [_ ?%elem_of_nil]).
  assert (socks = ∅) as ->.
  { apply map_empty. intros c. apply eq_None_not_Some. intros Hs. destruct (K2 c Hs) as [(t & ?%elem_of_nil & _)|Hin]; [done|].
    rewrite Hw in Hin. by apply elem_of_nil in Hin. }
  rewrite map_size_empty in C1. repeat split; try done.
  - apply map_empty. intros ip. destruct (connsByIP s !! ip) as [m|] eqn:E; [|done]. specialize (C2 ip). unfold conns_of in C2.
    unfold held in C2. rewrite E, map_filter_empty, map_size_empty in C2. apply C3 in E. cbn in C2. lia.
  - apply map_empty. intros c. apply eq_None_not_Some. intros Hs. apply K8 in Hs. by apply elem_of_nil in Hs.
Qed.

(** *** Who will close what a splice reads

    The connection a splice reads is closed, is about to be, or, before [Close],
    is the one the other direction writes to. *)
Definition source_ok (closing : bool) (socks : gmap nat Addr) (T : list task) (c : nat) : Prop :=
  socks !! c = None \/ Closing c ∈ T \/ closing = false /\ exists d e, Splicing d e ∈ T /\ raw d = c.

(** What keeps it: connections may close, tasks other than these may go. *)
Lemma source_ok_mono closing socks socks' T T' c :
  source_ok closing socks T c ->
  (socks !! c = None -> socks' !! c = None) -> (Closing c ∈ T -> socks' !! c = None \/ Closing c ∈ T') ->
  (forall d e, Splicing d e ∈ T -> raw d = c -> source_ok closing socks' T' c) -> source_ok closing socks' T' c.
Proof. intros [Hn|[Hc|(Hb & d & e & Hd & Er)]] H1 H2 H3; [left; auto|destruct (H2 Hc); [by left|by right; left]|by eapply H3]. Qed.

Definition active_keyed (s : Service) : Prop := forall c sc, active s !! c = Some sc -> raw sc = c.

Record sources_ok (y : Sys) : Prop := {
  sr_keys : active_keyed (svc y);
  sr_source : forall d e, Splicing d e ∈ tasks y -> (raw e < next y)%nat /\ source_ok (closed (svc y)) (sockets y) (tasks y) (raw e)
}.

(** A section that does not forward: nothing that was closed is open again, the
    splices it starts are the two directions of a pair. *)
Lemma run_section_sources id env t socks s socks' s' ts :
  run_section id env t socks s = (socks', s', ts) -> (forall d e, t <> Splicing d e) -> active_keyed s ->
  closed s' = closed s /\ active_keyed s' /\ (forall c, socks !! c = None -> socks' !! c = None) /\
  (forall c, t = Closing c -> socks' !! c = None) /\
  (forall d e, Splicing d e ∈ ts -> closed s = false /\ Splicing e d ∈ ts).
Proof.
  intros Hr Ht Hk.
  assert (forall sc o s1 l, wait_or_splice sc o s = (s1, l) -> closed s1 = closed s /\ active_keyed s1 /\
    forall d e, Splicing d e ∈ l -> Splicing e d ∈ l) as Hws.
  { intros sc o s1 l. destruct o as [o|]; cbn [wait_or_splice]; intros [= <- <-]; (split_and!; [done| |]).
    - intros c x. cbn. rewrite !lookup_insert_Some. intros [[<- <-]|[_ [[<- <-]|[_ Hx]]]]; [done|done|by apply Hk].
    - intros d e. rewrite !elem_of_cons, !elem_of_nil. intros [[= -> ->]|[[= -> ->]|?]]; tauto.
    - done.
    - by intros d e ?%list_elem_of_singleton. }
  assert (forall ch sc s1 l, evict ch sc s = (s1, l) -> closed s1 = closed s /\ active_keyed s1 /\ forall d e, Splicing d e ∉ l) as Hev.
  { intros ch sc s1 l. unfold evict. repeat case_match; intros [= <- <-]; (split_and!; [done..|]); intros d e; set_solver. }
  destruct t as [c|sc|sc o|sc|sc|d0 e0|sc|c]; cbn [run_section] in Hr.
  - destruct (handshake id env c s) as [s1 o] eqn:E. apply handshake_result in E as [[m ->] _]. injection Hr as <- <- <-.
    split_and!; try done; intros d e; destruct o as [[? ?]|]; by intros ?%list_elem_of_singleton.
  - destruct (enter sc s) as [s1 l] eqn:E. injection Hr as <- <- <-. unfold enter in E. destruct (closed s) eqn:Ec.
    { injection E as <- <-. split_and!; try done; by intros d e ?%list_elem_of_singleton. }
    destruct (waiting s !! channel sc) as [o|]; [case_bool_decide; [injection E as <- <-; split_and!; try done; by intros d e ?%list_elem_of_singleton|]|];
      destruct (Hws _ _ _ _ E) as (Hc & Ha & Hl); (split_and!; [by rewrite Hc|done|done|done|by eauto]).
  - destruct (evict (channel sc) o s) as [s1 l] eqn:E. injection Hr as <- <- <-. destruct (Hev _ _ _ _ E) as (Hc & Ha & Hl).
    split_and!; try done; intros d e [Hin|Hin]%elem_of_app; [by destruct (Hl d e)|by apply list_elem_of_singleton in Hin].
  - destruct (reenter sc s) as [s1 l] eqn:E. injection Hr as <- <- <-. unfold reenter in E. destruct (closed s) eqn:Ec.
    { injection E as <- <-. split_and!; try done; by intros d e ?%list_elem_of_singleton. }
    destruct (Hws _ _ _ _ E) as (Hc & Ha & Hl). split_and!; [by rewrite Hc|done|done|done|by eauto].
  - destruct (evict (channel sc) sc s) as [s1 l] eqn:E. injection Hr as <- <- <-. destruct (Hev _ _ _ _ E) as (Hc & Ha & Hl).
    split_and!; try done; intros d e Hin; by destruct (Hl d e).
  - by destruct (Ht d0 e0).
  - injection Hr as <- <- <-. split_and!; try done; [|by intros d e ?%elem_of_nil]. intros c x. cbn. intros [_ Hx]%lookup_delete_Some. by apply Hk.
  - unfold close_conn in Hr. destruct (socks !! c) as [ip|] eqn:E; injection Hr as <- <- <-.
    + split_and!; [done|done| | |by intros d e ?%elem_of_nil].
      * intros c' Hc. apply lookup_delete_None. by right.
      * intros c' [= <-]. apply lookup_delete_eq.
    + split_and!; [done|done|done|by intros c' [= <-]|by intros d e ?%elem_of_nil].
Qed.

(** A section that does not forward. *)
Lemma sources_section id y env l1 t l2 socks' s' ts :
  let y' := {| svc := s'; sockets := socks'; tasks := l1 ++ ts ++ l2; next := next y |} in
  tasks y = l1 ++ t :: l2 -> run_section id env t (sockets y) (svc y) = (socks', s', ts) -> (forall d e, t <> Splicing d e) ->
  tasks_ok s' socks' (l1 ++ ts ++ l2) (next y) -> sources_ok y -> sources_ok y'.
Proof.
  intros y' Et Hr Hne K' [Hk Hs]. destruct (run_section_sources _ _ _ _ _ _ _ _ Hr Hne Hk) as (Ec & Hk' & Hopen & Hcl & Hnew).
  assert (forall u, u ∈ tasks y -> u = t \/ u ∈ l1 ++ ts ++ l2) as Hold by (intros u; rewrite Et; set_solver).
  split; [done|]. cbn [svc sockets tasks next y']. intros d e Hin.
  assert (Splicing d e ∈ ts \/ Splicing d e ∈ tasks y) as [Hts|Hy] by (rewrite Et; set_solver).
  - destruct (Hnew d e Hts) as [Hf Hback]. split; [|right; right; split; [by rewrite Ec|exists e, d; set_solver]].
    apply (ok_fresh _ _ _ _ K'). left. unfold claims. apply elem_of_app. left. apply list_elem_of_bind. exists (Splicing e d). cbn. set_solver.
  - destruct (Hs d e Hy) as [Hlt Hsrc]. split; [done|]. rewrite Ec. apply (source_ok_mono _ _ _ _ _ _ Hsrc); [apply Hopen| |].
    + intros Hc. destruct (Hold _ Hc) as [<-|]; [left; by apply Hcl|by right].
    + intros d' e' Hd Er. destruct (Hold _ Hd) as [<-|Hd']; [by destruct (Hne d' e')|].
      destruct Hsrc as [Hn|[Hc|(Hb & _)]]; [left; by apply Hopen| |right; right; eauto].
      destruct (Hold _ Hc) as [<-|]; [left; by apply Hcl|by right; left].
Qed.

(** A round of a splice. *)
Lemma sources_splice y l1 d0 e0 l2 env ts :
  let y' := {| svc := svc y; sockets := sockets y; tasks := l1 ++ ts ++ l2; next := next y |} in
  tasks y = l1 ++ Splicing d0 e0 :: l2 -> splice_step env d0 e0 (sockets y) = Some ts -> sources_ok y -> sources_ok y'.
Proof.
  intros y' Et Hst [Hk Hs]. split; [done|]. cbn [svc sockets tasks next y'].
  assert (forall u, u ∈ tasks y -> u = Splicing d0 e0 \/ u ∈ l1 ++ ts ++ l2) as Hold by (intros u; rewrite Et; set_solver).
  assert (forall c, source_ok (closed (svc y)) (sockets y) (tasks y) c -> source_ok (closed (svc y)) (sockets y) (l1 ++ ts ++ l2) c) as Hkeep.
  { intros c Hsrc. apply (source_ok_mono _ _ _ _ _ _ Hsrc); [done| |].
    - intros Hc. right. by destruct (Hold _ Hc).
    - intros d e Hd Er. destruct Hsrc as [Hn|[Hc|(Hb & _)]]; [by left|right; left; by destruct (Hold _ Hc)|].
      destruct (Hold _ Hd) as [[= -> ->]|Hd']; [|right; right; eauto].
      destruct (splice_step_cases _ _ _ _ _ Hst) as [->|(cs1 & cs2 & _ & ->)].
      + right; left. rewrite <- Er. set_solver.
      + right; right. split; [done|]. eexists _, _. split; [apply elem_of_app; right; by left|done]. }
  intros d e Hin. destruct (splice_step_cases _ _ _ _ _ Hst) as [Ets|(cs1 & cs2 & _ & Ets)].
  - assert (Splicing d e ∈ tasks y) as Hy by (rewrite Et; rewrite Ets in Hin; set_solver). destruct (Hs d e Hy) as [Hlt Hsrc]. split; [done|]. by apply Hkeep.
  - assert (Splicing d e = Splicing (with_send cs1 d0) (with_recv cs2 e0) \/ Splicing d e ∈ tasks y) as [[= -> ->]|Hy] by (rewrite Et; rewrite Ets in Hin; set_solver).
    + cbn [raw with_recv]. destruct (Hs d0 e0) as [Hlt Hsrc]; [rewrite Et; set_solver|]. split; [done|]. by apply Hkeep.
    + destruct (Hs d e Hy) as [Hlt Hsrc]. split; [done|]. by apply Hkeep.
Qed.

Lemma sources_step id y y' :
  step id y y' -> tasks_ok (svc y) (sockets y) (tasks y) (next y) -> sources_ok y -> sources_ok y'.
Proof.
  intros Hst K [Hk Hs]. pose proof (relay_step_ok id y y' Hst K) as K'. destruct Hst as [y remote s' Ha|y env l1 t l2 socks' s' ts Et Hr|y s' ts Hc].
  - assert (active s' = active (svc y) /\ closed s' = closed (svc y)) as [Ea Ec].
    { unfold admit_conn in Ha. destruct (_ || _); [done|]. by injection Ha as <-. }
    split; cbn [svc sockets tasks next]; [intros c sc; rewrite Ea; apply Hk|]. intros d e Hin.
    assert (Splicing d e ∈ tasks y) as Hy by set_solver. destruct (Hs d e Hy) as [Hlt Hsrc]. split; [lia|]. rewrite Ec.
    destruct Hsrc as [Hn|[Hc|(Hb & d' & e' & Hd' & Er)]]; [left; by rewrite lookup_insert_ne by lia|right; left; set_solver|].
    right; right. split; [done|]. exists d', e'. set_solver.
  - destruct t as [c|sc|sc o|sc|sc|d0 e0|sc|c]; cbn [run] in Hr; try (apply (inj Some) in Hr; by eapply sources_section).
    apply bind_Some in Hr as (l & El & [= <- <- <-]). by eapply sources_splice.
  - unfold Close in Hc. destruct (closed (svc y)) eqn:Ecl; injection Hc as <- <-.
    { split; [done|]. cbn [svc sockets tasks next]. rewrite app_nil_r, Ecl. exact Hs. }
    split; [done|]. cbn [svc sockets tasks next closed with_closed]. set (ts := map _ _ ++ map _ _). intros d e Hin.
    assert (Splicing d e ∈ tasks y) as Hy.
    { apply elem_of_app in Hin as [?|Hin]; [done|]. apply elem_of_app in Hin as [Hin|Hin]; by apply closing_tasks in Hin as [? ?]. }
    destruct (Hs d e Hy) as [Hlt Hsrc]. split; [done|]. destruct Hsrc as [Hn|[Hc|(_ & d' & e' & Hd' & Er)]]; [by left|right; left; set_solver|].
    right; left. assert (is_Some (active (svc y) !! raw e)) as [sc Hsc].
    { apply (ok_active _ _ _ _ K). rewrite <- Er. apply (list_elem_of_fmap_2 raw). apply list_elem_of_bind. exists (Splicing d' e'). cbn. set_solver. }
    apply elem_of_app. right. apply elem_of_app. right. rewrite <- (Hk _ _ Hsc).
    apply (list_elem_of_fmap_2 (fun kv => Closing (raw kv.2)) _ (raw e, sc)). by apply elem_of_map_to_list.
Qed.

Lemma reachable_sources id opts y : Forall known_option opts -> reachable id opts y -> sources_ok y.
Proof.
  intros Ho. induction 1 as [|y y' Hr IH Hst].
  - split; cbn [init_sys svc tasks]; [|by intros d e ?%elem_of_nil]. intros c sc. by rewrite (ns_active _ (NewService_new opts Ho)), lookup_empty.
  - eapply sources_step; [done| |done]. by eapply reachable_ok.
Qed.

(** Clients that neither send nor go away. *)
Definition quiet : hs_env := {| env_now := 0; env_bytes := []; env_eph := []; env_writes := false; env_quiet := true |}.

Definition is_splice (t : task) : bool := match t with Splicing _ _ => true | _ => false end.

(** After [Close] some goroutine can always go on without the clients. *)
Definition can_go_on (id : Noise.Identity) (y : Sys) : Prop :=
  exists l1 t l2 socks' s' ts, tasks y = l1 ++ t :: l2 /\ run id quiet t (sockets y) (svc y) = Some (socks', s', ts) /\ forwards t ts = false.

Lemma closed_goes_on id y : closed (svc y) = true -> sources_ok y -> tasks y = [] \/ can_go_on id y.
Proof.
  intros Hcl Hs. destruct (decide (Exists (fun t => is_splice t = false) (tasks y))) as [Hex|Hno].
  - right. apply Exists_exists in Hex as (t & (l1 & l2 & Et)%list_elem_of_split & Hns). unfold can_go_on. setoid_rewrite Et.
    assert (exists socks' s' ts, run id quiet t (sockets y) (svc y) = Some (socks', s', ts) /\ forwards t ts = false) as (socks' & s' & ts & Hr & Hf).
    { destruct (run_section id quiet t (sockets y) (svc y)) as [[socks' s'] ts] eqn:E. exists socks', s', ts.
      destruct t; try done; cbn [run]; by rewrite E. }
    exists l1, t, l2, socks', s', ts. by split_and!.
  - destruct (tasks y) as [|t T] eqn:Et; [by left|right]. rewrite Exists_exists in Hno.
    assert (exists d e, t = Splicing d e) as (d & e & ->) by (destruct t; try (destruct Hno; eexists; split; [by left|done]); eauto).
    destruct (sr_source y Hs d e) as [_ Hsrc]; [rewrite Et; by left|]. rewrite Hcl, Et in Hsrc.
    assert (sockets y !! raw e = None) as Hn.
    { destruct Hsrc as [?|[Hc|[? _]]]; [done| |done]. destruct Hno. eexists. by split; [exact Hc|]. }
    exists [], (Splicing d e), T, (sockets y), (svc y), [Closing (raw e); Closing (raw d); Forgetting d]. split_and!; [by rewrite Et| |done].
    cbn [run]. unfold splice_step. by rewrite Hn.
Qed.

Lemma runs_reachable id opts k y y' : runs id k y y' -> reachable id opts y -> reachable id opts y'.
Proof.
  induction 1 as [y|k y y' env l1 t l2 socks' s' ts Et Hr _ IH]; [done|]. intros Hy. apply IH. eapply reach_step; [done|]. by eapply step_run.
Qed.

Lemma runs_closed id k y y' : runs id k y y' -> closed (svc y) = true -> active_keyed (svc y) -> closed (svc y') = true.
Proof.
  induction 1 as [y|k y y' env l1 t l2 socks' s' ts Et Hr _ IH]; [done|]. intros Hc Hk. cbn [svc] in IH.
  destruct t as [c|sc|sc o|sc|sc|d0 e0|sc|c]; cbn [run] in Hr;
    try (apply (inj Some) in Hr; destruct (run_section_sources _ _ _ _ _ _ _ _ Hr ltac:(done) Hk) as (E & Hk' & _); apply IH; [congruence|done]).
  apply bind_Some in Hr as (l & El & [= <- <- <-]). by apply IH.
Qed.

(** C23: Nothing leaks after [Close].  A splice forwards frames for as long as its
    client sends them, and its read of an open connection may block for ever.
    Once the service is closed and no connection arrives any more: however the
    goroutines run and whatever the clients send, they take a bounded number of
    steps other than forwarding a frame; as long as one is left, one of them can
    take such a step even if no client ever sends anything or goes away, because
    the connections they read have been closed or are about to be; they can
    reach the end; and there every slot of the connection limits is free, no
    connection waits or is spliced, and the wait of [Close] for the splices is
    over. *)
Theorem relay_drains id opts y :
  Forall known_option opts -> reachable id opts y -> closed (svc y) = true ->
  (forall k y', runs id k y y' -> (k <= load (tasks y))%nat) /\
  (forall k y', runs id k y y' -> tasks y' = [] \/ can_go_on id y') /\
  (exists k y', runs id k y y' /\ tasks y' = []) /\
  (forall k y', runs id k y y' -> tasks y' = [] ->
     conns (svc y') = 0 /\ connsByIP (svc y') = ∅ /\ sockets y' = ∅ /\
     waiting (svc y') = ∅ /\ active (svc y') = ∅ /\ wg (svc y') = 0).
Proof.
  intros Ho Hr Hcl.
  assert (forall k y', runs id k y y' -> tasks y' = [] \/ can_go_on id y') as Hgo.
  { intros k y' Hk. apply closed_goes_on; [|by eapply reachable_sources, runs_reachable].
    eapply runs_closed; [done|done|]. by eapply sr_keys, reachable_sources. }
  split_and!; [by intros k y' ?%runs_load; lia|done| |].
  - assert (forall m y1, load (tasks y1) = m -> (exists k, runs id k y y1) -> exists k y', runs id k y1 y' /\ tasks y' = []) as Hend;
      [|apply (Hend _ y eq_refl); exists O; constructor].
    intros m. induction (lt_wf m) as [m _ IH]. intros y1 Em [k1 Hk1]. destruct (Hgo k1 y1 Hk1) as [E|(l1 & t & l2 & socks' & s' & ts & Et & Hrun & Hf)].
    { exists O, y1. split; [constructor|done]. }
    pose proof (runs_S id 0 y1 _ quiet l1 t l2 socks' s' ts Et Hrun (runs_0 id _)) as H1. rewrite Hf in H1.
    destruct (IH (load (l1 ++ ts ++ l2))) with {| svc := s'; sockets := socks'; tasks := l1 ++ ts ++ l2; next := next y1 |} as (k & y' & Hk & Hd).
    + apply runs_load in H1. cbn [tasks] in H1. lia.
    + done.
    + eexists. eapply runs_app; [exact Hk1|exact H1].
    + eexists _, y'. split; [|done]. eapply runs_app; [exact H1|exact Hk].
  - intros k y' Hk Hd. pose proof (runs_ok _ _ _ _ Hk (reachable_ok id opts y Ho Hr)) as K'. rewrite Hd in K'. by apply tasks_done in K'.
Qed.

(** ** A recorded message 1 is refused *)
Definition call : Type := Z * list Z * list Z.    (* the clock, message 1, its payload *)

Fixpoint fresh_calls (cs : list call) (s : Service) : Service :=
  match cs with
  | [] => s
  | (now, msg1, payload) :: cs => fresh_calls cs (freshMsg1 now msg1 payload s).2
  end.

(** The clock does not run backwards from [t]. *)
Fixpoint clock_from (t : Z) (cs : list call) : Prop :=
  match cs with
  | [] => True
  | (now, _, _) :: cs => t <= now /\ clock_from now cs
  end.
Definition last_clock (t : Z) (cs : list call) : Z := foldl (fun _ c => c.1.1) t cs.

Lemma recent_bound now sent : recent now sent = true -> now <= sent + msg1MaxAge.
Proof.
  unfold recent, sub_time. intros Hr%negb_true_iff. apply orb_false_iff in Hr as [Hr _]. bool_to_prop. unfold msg1MaxAge in *. lia.
Qed.

(** Either the key is still remembered or its message is too old. *)
Definition remembered (eph : list Z) (exp clock : Z) (s : Service) : Prop :=
  seenMsg1 s !! eph = Some exp \/ exp < clock.

Lemma freshMsg1_remembers eph exp clock now msg1 payload s :
  remembered eph exp clock s -> clock <= now -> remembered eph exp now (freshMsg1 now msg1 payload s).2.
Proof.
  intros [Hs|Hs] Hc; [|right; lia]. unfold freshMsg1, remembered. destruct (negb _); [by left|].
  destruct (seenMsg1 s !! Noise.array 32 msg1) as [e|] eqn:Ee; [by left|].
  assert (Noise.array 32 msg1 <> eph) as Hne by congruence.
  set (seen := if maxSeenMsg1 <=? _ then filter _ _ else _).
  assert (seen !! eph = Some exp \/ exp < now) as [Hk|Hk]; [|destruct (maxSeenMsg1 <=? Z.of_nat (size seen)); cbn [snd seenMsg1 with_seenMsg1]|by right].
  { subst seen. destruct (maxSeenMsg1 <=? _); [|by left]. destruct (decide (exp < now)); [by right|left].
    apply map_lookup_filter_Some. split; [done|cbn; lia]. }
  - by left.
  - left. by rewrite lookup_insert_ne.
Qed.

Lemma fresh_calls_remember eph exp clock cs s :
  remembered eph exp clock s -> clock_from clock cs -> remembered eph exp (last_clock clock cs) (fresh_calls cs s).
Proof.
  revert clock s. induction cs as [|[[now msg1] payload] cs IH]; intros clock s Hr; [done|]. intros [Hc Hcs].
  cbn [fresh_calls]. apply (IH now); [|done]. by eapply freshMsg1_remembers.
Qed.

(** A message 1 the relay has accepted is never accepted again: whatever
    handshakes come in between, and although the cache is bounded and drops
    expired keys, a replay is refused, by the cache or by its age. *)
Theorem msg1_not_replayed now msg1 payload s s1 cs now' :
  freshMsg1 now msg1 payload s = (true, s1) -> clock_from now cs -> last_clock now cs <= now' ->
  (freshMsg1 now' msg1 payload (fresh_calls cs s1)).1 = false.
Proof.
  intros Hf Hcs Hn.
  assert (remembered (Noise.array 32 msg1) (sent_time payload + msg1MaxAge) now s1) as Hr.
  { left. unfold freshMsg1 in Hf. destruct (negb _); [done|]. destruct (seenMsg1 s !! _); [done|].
    destruct (maxSeenMsg1 <=? Z.of_nat (size (if maxSeenMsg1 <=? _ then _ else _))); [done|]. injection Hf as <-. apply lookup_insert_eq. }
  apply (fresh_calls_remember _ _ _ cs) in Hr; [|done]. unfold freshMsg1.
  destruct (recent now' (sent_time payload)) eqn:Er; [|done]. apply recent_bound in Er. cbn [negb].
  destruct Hr as [-> |Hr]; [done|lia].
Qed.

(** The cache never outgrows its bound. *)
Lemma freshMsg1_bounded now msg1 payload s :
  Z.of_nat (size (seenMsg1 s)) <= maxSeenMsg1 -> Z.of_nat (size (seenMsg1 (freshMsg1 now msg1 payload s).2)) <= maxSeenMsg1.
Proof.
  intros Hs. unfold freshMsg1. destruct (negb _); [done|]. destruct (seenMsg1 s !! _) as [e|] eqn:Ee; [done|].
  set (seen := if maxSeenMsg1 <=? _ then filter _ _ else _).
  assert (seen ⊆ seenMsg1 s) as Hsub by (subst seen; destruct (_ <=? _); [apply map_filter_subseteq|done]).
  pose proof (map_subseteq_size _ _ Hsub) as Hle.
  destruct (maxSeenMsg1 <=? Z.of_nat (size seen)) eqn:E; cbn [snd seenMsg1 with_seenMsg1]; [lia|]. bool_to_prop.
  rewrite map_size_insert. case_match; unfold id; lia.
Qed.

(** ** Who is spliced to whom *)

(** A connection that pairs at once is spliced to a connection of another
    client. *)
Lemma enter_pairs_clients sc s s' ts d o :
  enter sc s = (s', ts) -> Splicing d o ∈ ts -> clientKey d <> clientKey o.
Proof.
  unfold enter. destruct (closed s); [intros [= <- <-]; by intros ?%list_elem_of_singleton|].
  destruct (waiting s !! channel sc) as [w|]; [case_bool_decide as Hk|]; [intros [= <- <-]; by intros ?%list_elem_of_singleton| |].
  - cbn [wait_or_splice]. intros [= <- <-] [E|E%list_elem_of_singleton]%elem_of_cons; injection E as -> ->; congruence.
  - cbn [wait_or_splice]. intros [= <- <-]. by intros ?%list_elem_of_singleton.
Qed.

Lemma next_backoff_range b : b = 0 \/ 5 * ms <= b <= 10 ^ 9 -> 5 * ms <= next_backoff b <= 10 ^ 9.
Proof. unfold next_backoff, ms. intros Hb. destruct (b =? 0) eqn:E; bool_to_prop; [lia|]. case_match; bool_to_prop; lia. Qed.

(** ** Runs on concrete input *)
Inductive cmd :=
| CAccept (remote : option AddrPort)
| CRun (i : nat) (env : hs_env)
| CClose.

Definition exec (id : Noise.Identity) (y : Sys) (c : cmd) : Sys :=
  match c with
  | CAccept remote =>
      match admit_conn (conn_ip remote) (svc y) with
      | Some s' => {| svc := s'; sockets := <[next y := conn_ip remote]> (sockets y);
                      tasks := tasks y ++ [Handshaking (next y)]; next := S (next y) |}
      | None => y
      end
  | CRun i env =>
      match t ← tasks y !! i; run id env t (sockets y) (svc y) with
      | Some (socks', s', ts) => {| svc := s'; sockets := socks'; tasks := take i (tasks y) ++ ts ++ drop (S i) (tasks y); next := next y |}
      | None => y
      end
  | CClose => let '(s', ts) := Close (svc y) in {| svc := s'; sockets := sockets y; tasks := tasks y ++ ts; next := next y |}
  end.

Lemma exec_reachable id opts y c : reachable id opts y -> reachable id opts (exec id y c).
Proof.
  intros Hr. destruct c as [remote|i env|]; cbn [exec].
  - destruct (admit_conn _ _) eqn:E; [|done]. eapply reach_step; [done|]. by eapply step_accept.
  - destruct (tasks y !! i) as [t|] eqn:E; [|done]. rewrite bind_Some_eq. destruct (run id env t (sockets y) (svc y)) as [[[socks' s'] ts]|] eqn:Er; [|done].
    eapply reach_step; [done|]. eapply step_run; [|done]. symmetry. by apply take_drop_middle.
  - destruct (Close (svc y)) as [s' ts] eqn:E. eapply reach_step; [done|]. by eapply step_close.
Qed.

Lemma execs_reachable id opts cs : reachable id opts (foldl (exec id) (init_sys opts) cs).
Proof.
  assert (forall y, reachable id opts y -> reachable id opts (foldl (exec id) y cs)) as Hf; [|apply Hf; constructor].
  induction cs as [|c cs IH]; [done|]. intros y Hy. cbn [foldl]. apply IH. by apply exec_reachable.
Qed.

End Service.

(** ** A client reaches the relay *)
Section Client.
Context `{ChannelIK}.

Lemma length_Msg1Payload k t : length k = 32%nat -> length (Msg1Payload k t) = Msg1PayloadSize.
Proof. intros Hk. unfold Msg1Payload. rewrite length_app, length_be_put, Hk. done. Qed.

Lemma ReadFrameMax_frame max msg w rest :
  WriteFrame msg = Ok w -> Z.of_nat (length msg) <= max <= 0xffff -> ReadFrameMax max (w ++ rest) = Ok (msg, rest).
Proof.
  intros Hw Hl. pose proof (frame_roundtrip msg w rest Hw) as Hf. revert Hf. unfold ReadFrame, ReadFrameMax.
  destruct (ReadFull 2 (w ++ rest)) as [[hdr r]|]; [|done]. cbn [result_bind].
  destruct (0xffff <? be_get hdr) eqn:E; [done|]. intros Hr. pose proof Hr as Hr'. unfold ReadFull in Hr'.
  destruct (_ <=? length r)%nat eqn:En; [|destruct (0 <? length r)%nat; done]. apply Nat.leb_le in En.
  assert (length msg = Z.to_nat (be_get hdr)) as Hm.
  { assert (msg = take (Z.to_nat (be_get hdr)) r) as -> by congruence. rewrite length_take. lia. }
  bool_to_prop. rewrite (proj2 (Z.ltb_ge _ _)); [done|lia].
Qed.

(** A client that dials the relay with the relay's key, a clock the relay
    takes for recent and a message 1 it has not seen gets its connection: both
    ends finish the handshake, the relay files the connection under the channel
    of the client's own key and the peer's, and the cipher states of the two
    ends are paired, so that what one end writes the other reads. *)
Theorem dial_reaches_relay id rid remote seed eph nowMilli now c s hi m1 :
  ch_key_pair (Noise.X25519Private id) (Noise.X25519Public id) ->
  ch_key_pair (Noise.X25519Private rid) (Noise.X25519Public rid) ->
  length remote = 32%nat -> length (Noise.X25519Public id) = 32%nat -> remote <> Noise.X25519Public id ->
  dial_msg1 (Noise.X25519Public rid) id remote seed nowMilli = Some (hi, m1) ->
  (freshMsg1 now m1 (Msg1Payload remote nowMilli) s).1 = true ->
  exists conn sc w s',
    handshake rid {| env_now := now; env_bytes := be_put 2 (Z.of_nat (length m1)) ++ m1; env_eph := eph; env_writes := true; env_quiet := false |} c s
      = (s', Some (sc, w)) /\
    Dial (Noise.X25519Public rid) id remote seed nowMilli (fun _ => w) = Some conn /\
    raw sc = c /\ clientKey sc = Noise.X25519Public id /\ channel sc = ChannelID (Noise.X25519Public id) remote /\
    paired (send conn) (sc_recv sc) /\ paired (sc_send sc) (recv conn).
Proof.
  intros Hi Hr Lr Li Hne Hd Hf.
  destruct (ch_completes _ _ _ _ seed eph (Msg1Payload remote nowMilli) Hi Hr)
    as (hi0 & hi1 & m1' & x1 & y1 & hr & hr1 & x2 & y2 & hr2 & m2 & rc1 & rc2 & hi2 & ic1 & ic2 &
        E1 & E2 & L1 & E3 & E4 & E5 & E6 & L2 & E7 & P1 & P2).
  unfold dial_msg1 in Hd. rewrite E1, bind_Some_eq, E2, bind_Some_eq in Hd. injection Hd as -> ->.
  rewrite length_Msg1Payload in L1 by done. change (Msg1PayloadSize) with 40%nat in L1.
  assert (WriteFrame m1 = Ok (be_put 2 (Z.of_nat (length m1)) ++ m1)) as W1 by (apply WriteFrame_Ok; lia).
  assert (WriteFrame m2 = Ok (be_put 2 (Z.of_nat (length m2)) ++ m2)) as W2 by (apply WriteFrame_Ok; lia).
  destruct (freshMsg1 now m1 (Msg1Payload remote nowMilli) s) as [fresh s'] eqn:Ef. cbn [fst] in Hf. subst fresh.
  assert (Noise.array 32 (Msg1Payload remote nowMilli) = remote) as Ek.
  { unfold Noise.array, Msg1Payload. rewrite <- app_assoc, take_app_length'; done. }
  assert (Noise.array 32 (ch_static hr1) = Noise.X25519Public id) as Es by (rewrite E5; by apply Noise.array_exact).
  exists {| send := ic1; recv := ic2 |}, {| raw := c; sc_recv := rc1; sc_send := rc2;
    channel := ChannelID (Noise.X25519Public id) remote; clientKey := Noise.X25519Public id |},
    (be_put 2 (Z.of_nat (length m2)) ++ m2), s'.
  split_and!; try done.
  - unfold handshake. rewrite E3. cbn [env_bytes env_now env_eph env_writes].
    rewrite <- (app_nil_r (be_put 2 (Z.of_nat (length m1)) ++ m1)), (ReadFrameMax_frame maxMsg1Size m1 _ [] W1) by (unfold maxMsg1Size; lia).
    rewrite E4, length_Msg1Payload by done. cbn [Nat.eqb negb Msg1PayloadSize]. rewrite Ef. cbn [negb]. rewrite Ek, Es.
    rewrite bool_decide_false by congruence. by rewrite E6, W2.
  - unfold Dial, dial_msg1. rewrite E1, bind_Some_eq, E2, !bind_Some_eq, W1.
    rewrite <- (app_nil_r (be_put 2 (Z.of_nat (length m2)) ++ m2)), (frame_roundtrip m2 _ [] W2). by rewrite E7, bind_Some_eq.
Qed.

End Client.

(** *** A channel library that keeps its promises, without secrecy *)
Definition toy_ik : NoiseChannel := {|
  CipherState := nat; ChannelHS := list Z * bool;
  cs_Encrypt := @cs_Encrypt toy_channel; cs_Decrypt := @cs_Decrypt toy_channel;
  ch_initiator _ pub _ := Some (pub, false); ch_responder _ _ := Some ([], true);
  ch_write _ h p := Some (h, (if h.2 then zeros 48 else zeros 32 ++ h.1 ++ zeros 32) ++ p, O, O);
  ch_read h m := Some (if h.2 then (take 32 (drop 32 m), true, drop 96 m, O, O) else (h, drop 48 m, O, O));
  ch_static h := h.1; hash l := l
|}.

Definition toy_ik_streams : @CipherStreams toy_ik :=
  @Build_CipherStreams toy_ik (fun a b : nat => a = b) toy_streams_step.

Lemma toy_ik_completes (ipriv ipub rpriv rpub seed eph p : list Z) : length ipub = 32%nat -> length rpub = 32%nat ->
  exists hi hi1 m1 x1 y1 hr hr1 x2 y2 hr2 m2 rc1 rc2 hi2 ic1 ic2,
    @ch_initiator toy_ik ipriv ipub rpub = Some hi /\ @ch_write toy_ik seed hi p = Some (hi1, m1, x1, y1) /\
    length m1 = (length p + 96)%nat /\
    @ch_responder toy_ik rpriv rpub = Some hr /\ @ch_read toy_ik hr m1 = Some (hr1, p, x2, y2) /\ @ch_static toy_ik hr1 = ipub /\
    @ch_write toy_ik eph hr1 [] = Some (hr2, m2, rc1, rc2) /\ length m2 = 48%nat /\
    @ch_read toy_ik hi1 m2 = Some (hi2, [], ic1, ic2) /\ ic1 = rc1 /\ rc2 = ic2.
Proof.
  intros Hi Hr. exists (ipub, false), (ipub, false), ((zeros 32 ++ ipub ++ zeros 32) ++ p), O, O, ([], true), (ipub, true), O, O,
    (ipub, true), (zeros 48 ++ []), O, O, (ipub, false), O, O.
  assert (length (zeros 32 ++ ipub ++ zeros 32) = 96%nat) as L by (rewrite !length_app, Hi; done).
  split_and!; try done.
  - rewrite length_app, L. lia.
  - cbn [ch_read toy_ik snd]. rewrite (drop_app_length' (zeros 32 ++ ipub ++ zeros 32) p 96) by done.
    rewrite <- !app_assoc, (drop_app_length' (zeros 32) _ 32) by done. by rewrite (take_app_length' ipub _ 32).
Qed.

Definition toy_ik_laws : @ChannelIK toy_ik toy_ik_streams :=
  @Build_ChannelIK toy_ik toy_ik_streams (fun _ pub => length pub = 32%nat) toy_ik_completes.

Definition toy_key (k : Z) : Noise.Identity :=
  {| Noise.Ed25519Private := []; Noise.Ed25519Public := []; Noise.X25519Private := []; Noise.X25519Public := replicate 32 k;
     Noise.X25519Sig := [] |}.
Definition toy_msg1 : list Z := (zeros 32 ++ replicate 32 1 ++ zeros 32) ++ Msg1Payload (replicate 32 2) 0.

Lemma dial_reaches_relay_witness :
  exists conn w, @Dial toy_ik (replicate 32 3) (toy_key 1) (replicate 32 2) [] 0 (fun _ => w) = Some conn.
Proof.
  pose proof (@dial_reaches_relay toy_ik toy_ik_streams toy_ik_laws (toy_key 1) (toy_key 3) (replicate 32 2) [] [] 0 0 O (NewService [])
    (replicate 32 1, false) toy_msg1 eq_refl eq_refl eq_refl eq_refl ltac:(vm_compute; discriminate) eq_refl ltac:(vm_compute; reflexivity))
    as (conn & sc & w & s' & Eh & Ed & _).
  exists conn, w. exact Ed.
Defined.

(** A message 1 of the toy channel is a 32-byte key and the payload. *)
Definition toy_channel2 : NoiseChannel := {|
  CipherState := nat; ChannelHS := unit;
  cs_Encrypt n m := Some (S n, m); cs_Decrypt n m := Some (S n, m);
  ch_initiator _ _ _ := Some tt; ch_responder _ _ := Some tt;
  ch_write p _ m := Some (tt, m, O, O); ch_read _ m := Some (tt, drop 32 m, O, O);
  ch_static _ := [1]; hash l := drop 21 l
|}.

Definition toy_id : Noise.Identity :=
  {| Noise.Ed25519Private := []; Noise.Ed25519Public := []; Noise.X25519Private := []; Noise.X25519Public := [];
     Noise.X25519Sig := [] |}.

Definition toy_client (eph : Z) : hs_env :=
  {| env_now := 0; env_bytes := [0; 72] ++ replicate 32 eph ++ replicate 32 2 ++ zeros 8; env_eph := []; env_writes := true; env_quiet := false |}.

(** A client waits; it connects twice more and both connections find the stale
    one.  The first replaces it and waits; the second looks again, finds the
    first, and is spliced to it. *)
Definition reconnects : list cmd :=
  [CAccept None; CAccept None; CAccept None; CRun 0 (toy_client 7); CRun 1 (toy_client 8); CRun 2 (toy_client 9);
   CRun 0 (toy_client 0); CRun 1 (toy_client 0); CRun 2 (toy_client 0); CRun 1 (toy_client 0);
   CRun 2 (toy_client 0); CRun 3 (toy_client 0); CRun 3 (toy_client 0)].

Definition self_spliced `{NoiseChannel} (t : task) : bool :=
  match t with Splicing d s => bool_decide (clientKey d = clientKey s) | _ => false end.

Example reconnects_spliced_to_itself :
  exists y, @reachable toy_channel2 toy_id [] y /\ existsb self_spliced (tasks y) = true.
Proof. eexists. split; [apply (execs_reachable toy_id [] reconnects)|]. vm_compute. reflexivity. Qed.

(** ** Witnesses *)
Definition toy_sys : @Sys toy_channel2 := foldl (@exec toy_channel2 toy_id) (init_sys [MaxConns 2 0]) (take 7 reconnects).

Lemma toy_sys_size : size (sockets toy_sys) = 2%nat /\ load (tasks toy_sys) = 14%nat.
Proof. vm_compute. done. Qed.

Lemma toy_options : Forall (@known_option toy_channel2) [MaxConns 2 0].
Proof. constructor; [|constructor]. right. by exists 2, 0. Qed.

Lemma relay_books_exact_witness : conns (svc toy_sys) = 2 /\ conns (svc toy_sys) <= maxConns (svc toy_sys).
Proof.
  pose proof (relay_books_exact toy_id [MaxConns 2 0] toy_sys toy_options (execs_reachable _ _ _)) as (E & Hle & _).
  rewrite (proj1 toy_sys_size) in E. split; [exact E|exact Hle].
Defined.

(** Two connections are spliced, one forwards a frame; while its client is silent
    the splice blocks; then the service is closed. *)
Definition toy_frame : hs_env := {| env_now := 0; env_bytes := [0; 1; 5]; env_eph := []; env_writes := true; env_quiet := false |}.
Definition toy_open : @Sys toy_channel2 := foldl (@exec toy_channel2 toy_id) (init_sys []) (reconnects ++ [CRun 3 toy_frame]).
Definition toy_closed : @Sys toy_channel2 := @exec toy_channel2 toy_id toy_open CClose.

Example toy_blocked :
  existsb (fun t => match t with Splicing d e => match @run toy_channel2 toy_id quiet t (sockets toy_open) (svc toy_open) with None => true | _ => false end | _ => false end)
    (tasks toy_open) = true.
Proof. vm_compute. reflexivity. Qed.

Lemma toy_closed_reach : @reachable toy_channel2 toy_id [] toy_closed.
Proof. apply exec_reachable, execs_reachable. Qed.

Lemma relay_drains_witness : closed (svc toy_closed) = true /\ exists k y, runs toy_id k toy_closed y /\ tasks y = [] /\ conns (svc y) = 0.
Proof.
  split; [vm_compute; reflexivity|].
  pose proof (relay_drains toy_id [] toy_closed (Forall_nil_2 _) toy_closed_reach) as Hd.
  destruct Hd as (_ & _ & (k & y & Hr & Hd) & Hz); [vm_compute; reflexivity|].
  exists k, y. split; [exact Hr|split; [exact Hd|exact (proj1 (Hz k y Hr Hd))]].
Defined.

Definition toy_fresh : bool * @Service toy_channel2 := freshMsg1 5 [1] (zeros 40) (NewService []).
Lemma toy_fresh_ok : toy_fresh = (true, toy_fresh.2).
Proof. vm_compute. reflexivity. Qed.

Lemma msg1_not_replayed_witness :
  (freshMsg1 10 [1] (zeros 40) (fresh_calls [(7, [2], zeros 40)] toy_fresh.2)).1 = false.
Proof. apply (msg1_not_replayed 5 [1] (zeros 40) (NewService []) toy_fresh.2 [(7, [2], zeros 40)] 10 toy_fresh_ok); cbn; lia. Defined.

End RelayService.
