(* ===== verification/NatSignal.v ===== *)
(** * NAT traversal: signals and STUN

    [Signal] models [src/internal/nat/signal.go]: the encryption of a signal for
    its recipient, its signed envelope and the checks of the recipient.  [Stun]
    models [src/internal/nat/stun.go]: the request and the parser of the answer.

    X25519, HKDF and ChaCha20-Poly1305 are the class [SignalCrypto], what they
    promise is the class [SignalLaws]; Ed25519 is that of [NoiseLib]. *)
From Stdlib Require Import ZArith Lia.
From stdpp Require Import base numbers list gmap strings.
From S2P Require Import Prelude PeerTable SignedMsg Noise Handshake.

Class SignalCrypto := {
  dh : list Z -> list Z -> option (list Z);                (* private, public *)
  basepoint : list Z;
  hkdf : list Z -> list Z -> nat -> list Z;                (* secret, info, length *)
  aead_seal : list Z -> list Z -> list Z -> list Z;        (* key, nonce, plaintext *)
  aead_open : list Z -> list Z -> list Z -> option (list Z)
}.

(** What the libraries promise: two key pairs agree on a secret, opening inverts
    sealing, a public key has 32 bytes and a tag 16. *)
Class SignalLaws `{SignalCrypto} := {
  dh_agree : forall a b A B, dh a basepoint = Some A -> dh b basepoint = Some B ->
    exists s, dh a B = Some s /\ dh b A = Some s;
  dh_length : forall a A, dh a basepoint = Some A -> length A = 32%nat;
  aead_open_seal : forall k n p, aead_open k n (aead_seal k n p) = Some p;
  aead_length : forall k n p, length (aead_seal k n p) = (length p + 16)%nat
}.

Module Signal.

Definition signalVersion : Z := 1.
Definition signalDomain : list Z := bytes_of_string "veld-nat-signal-v1".
Definition ed25519SignatureSize : nat := 64.
Definition ed25519PublicKeySize : nat := 32.
Definition signalMaxAgeSec : Z := 60.
Definition signalMaxSkewSec : Z := 60.
Definition signalHeaderLen : nat := 1 + 8 + ed25519SignatureSize.
Definition signalMinLen : nat := signalHeaderLen + 32 + 12 + 16.
Definition signalMaxLen : Z := Z.shiftl 16 10.

Inductive signal_error :=
| TooShort | TooLarge | UnsupportedVersion | InvalidSenderKey | SenderKeyMismatch | Expired | FutureTimestamp
| InvalidSignature.

Section Signal.
Context `{Noise.NoiseLib} `{SignalCrypto}.
#[local] Open Scope veld_scope.

Definition deriveKey (shared : list Z) : list Z := hkdf shared (bytes_of_string "veld-nat-signal-v1") 32.

(** [seed] and [nonce] are what the random reader gives. *)
Definition encryptSignal (payload recipientX25519 : list Z) (seed nonce : option (list Z)) : option (list Z) :=
  seed ← seed;
  let ephPriv := Noise.clamp seed in
  ephPubSlice ← dh ephPriv basepoint;
  let ephPub := Noise.array 32 ephPubSlice in
  shared ← dh ephPriv recipientX25519;
  nonce ← nonce;
  Some (ephPub ++ nonce ++ aead_seal (deriveKey shared) nonce payload).

Definition decryptSignal (data recipientX25519Private : list Z) : option (list Z) :=
  if (length data <? 32 + 12 + 16)%nat then None
  else
    let ephPub := take 32 data in
    let nonce := take 12 (drop 32 data) in
    shared ← dh recipientX25519Private ephPub;
    aead_open (deriveKey shared) nonce (drop 44 data).

Definition signalSignedMessage (from to : list Z) (ts : Z) (encrypted : list Z) : list Z :=
  signalDomain ++ from ++ to ++ be_put 8 (u64 ts) ++ encrypted.

Definition sealSignal (encrypted from to signer : list Z) (ts : Z) : list Z :=
  let sig := Noise.sign signer (signalSignedMessage from to ts encrypted) in
  [signalVersion] ++ be_put 8 (u64 ts) ++ Noise.array ed25519SignatureSize sig ++ encrypted.

Definition envelope_ts (envelope : list Z) : Z := i64 (be_get (take 8 (drop 1 envelope))).

Definition openSignal (envelope from to senderKey : list Z) (nowSec : Z) : result signal_error (list Z) :=
  if (length envelope <? signalMinLen)%nat then Err TooShort
  else if signalMaxLen <? Z.of_nat (length envelope) then Err TooLarge
  else if negb (bool_decide (take 1 envelope = [signalVersion])) then Err UnsupportedVersion
  else if negb (length senderKey =? ed25519PublicKeySize)%nat then Err InvalidSenderKey
  else if negb (bool_decide (senderKey = from)) then Err SenderKeyMismatch
  else
    let ts := envelope_ts envelope in
    let age := i64 (nowSec - ts) in
    if signalMaxAgeSec <? age then Err Expired
    else
      let skew := i64 (ts - nowSec) in
      if signalMaxSkewSec <? skew then Err FutureTimestamp
      else
        let sig := take ed25519SignatureSize (drop 9 envelope) in
        let encrypted := drop signalHeaderLen envelope in
        if Noise.verify senderKey (signalSignedMessage from to ts encrypted) sig then Ok encrypted else Err InvalidSignature.

Definition holdableSignal (envelope : list Z) (nowSec : Z) : bool :=
  if (length envelope <? signalMinLen)%nat || (signalMaxLen <? Z.of_nat (length envelope)) then false
  else if negb (bool_decide (take 1 envelope = [signalVersion])) then false
  else
    let ts := envelope_ts envelope in
    (i64 (nowSec - signalMaxAgeSec) <=? ts) && (ts <=? i64 (nowSec + signalMaxSkewSec)).

End Signal.

(** ** The checks of the recipient *)
Section Checks.
Context `{Noise.NoiseLib}.

(** The window of timestamps, as the code computes it: int64 subtraction lets one
    more value through, half the range away. *)
Definition in_window (ts now : Z) : Prop := now - 60 <= ts <= now + 60 \/ ts = now - 2 ^ 63.

Lemma window_i64 ts now : - 2 ^ 63 <= ts < 2 ^ 63 -> 0 <= now < 2 ^ 62 ->
  (i64 (now - ts) <= signalMaxAgeSec /\ i64 (ts - now) <= signalMaxSkewSec) <-> in_window ts now.
Proof.
  intros Ht Hn. unfold i64, signalMaxAgeSec, signalMaxSkewSec, in_window.
  pose proof (Z.div_mod (now - ts + 2 ^ 63) (2 ^ 64) ltac:(lia)) as D1.
  pose proof (Z.mod_pos_bound (now - ts + 2 ^ 63) (2 ^ 64) ltac:(lia)) as B1.
  pose proof (Z.div_mod (ts - now + 2 ^ 63) (2 ^ 64) ltac:(lia)) as D2.
  pose proof (Z.mod_pos_bound (ts - now + 2 ^ 63) (2 ^ 64) ltac:(lia)) as B2.
  generalize dependent ((now - ts + 2 ^ 63) mod 2 ^ 64). generalize dependent ((ts - now + 2 ^ 63) mod 2 ^ 64).
  generalize ((now - ts + 2 ^ 63) / 2 ^ 64). generalize ((ts - now + 2 ^ 63) / 2 ^ 64). intros q2 q1 r2 D2 B2 r1 D1 B1. lia.
Qed.

Record opened (envelope from to key : list Z) (now : Z) (blob : list Z) : Prop := {
  o_len : (signalMinLen <= length envelope)%nat /\ Z.of_nat (length envelope) <= signalMaxLen;
  o_version : take 1 envelope = [signalVersion];
  o_key : key = from /\ length key = 32%nat;
  o_window : i64 (now - envelope_ts envelope) <= signalMaxAgeSec /\ i64 (envelope_ts envelope - now) <= signalMaxSkewSec;
  o_sig : Noise.verify key (signalSignedMessage from to (envelope_ts envelope) blob) (take ed25519SignatureSize (drop 9 envelope)) = true;
  o_blob : blob = drop signalHeaderLen envelope
}.

Lemma openSignal_iff envelope from to key now blob :
  openSignal envelope from to key now = Ok blob <-> opened envelope from to key now blob.
Proof.
  unfold openSignal. split.
  - destruct (_ <? signalMinLen)%nat eqn:E1; [done|]. destruct (signalMaxLen <? _) eqn:E2; [done|].
    destruct (bool_decide (take 1 envelope = _)) eqn:E3; [|done]. destruct (length key =? _)%nat eqn:E4; [|done].
    destruct (bool_decide (key = from)) eqn:E5; [|done]. cbn [negb]. destruct (signalMaxAgeSec <? _) eqn:E6; [done|].
    destruct (signalMaxSkewSec <? _) eqn:E7; [done|]. destruct (Noise.verify _ _ _) eqn:E8; [|done].
    apply Nat.ltb_ge in E1. apply Nat.eqb_eq in E4. apply bool_decide_eq_true in E3, E5. bool_to_prop.
    intros E. assert (blob = drop signalHeaderLen envelope) as -> by congruence. by split.
  - intros [[L1 L2] V [K1 K2] [W1 W2] S ->].
    rewrite (proj2 (Nat.ltb_ge _ _)), (proj2 (Z.ltb_ge _ _)), bool_decide_true by done. cbn [negb].
    rewrite K2, bool_decide_true by done. cbn [Nat.eqb ed25519PublicKeySize negb].
    rewrite (proj2 (Z.ltb_ge signalMaxAgeSec _)), (proj2 (Z.ltb_ge signalMaxSkewSec _)) by done. by rewrite S.
Qed.

(** ** Who sent a signal *)

(** A signal the holder of a key made: the recipient, the timestamp, the blob. *)
Definition signal : Type := list Z * Z * list Z.
Definition signal_fits (x : signal) : Prop := length x.1.1 = 32%nat /\ 0 <= x.1.2 < 2 ^ 62.

(** A signature that reaches the recipient is not a forgery: a message it
    verifies for under the key is one that the holder of the key has signed, one
    of its signals or what else an identity signs with that key: calls and
    registrations at the coordinator, handshakes, the string of the self-test
    and its bare X25519 key ([Generate], [selfTest]). *)
Definition unforged (pub sig : list Z) (signals : list signal) : Prop :=
  forall m, Noise.verify pub m sig = true ->
    (exists x, x ∈ signals /\ m = signalSignedMessage pub x.1.1 x.1.2 x.2) \/
    (exists c, m = SignedMsg.CallSignedMessage c) \/ (exists r, m = SignedMsg.RegisterSignedMessage r) \/
    (exists x y ts, length x = 32%nat /\ length y = 32%nat /\ m = Noise.sig_message x y ts) \/
    m = Noise.selfTestMsg \/ length m = 32%nat.

(** The signature an envelope carries. *)
Definition envelope_sig (envelope : list Z) : list Z := take ed25519SignatureSize (drop 9 envelope).

(** The messages that are no calls and no registrations are those that
    [SignedMsg.other_message] describes by their shape. *)
Lemma other_messages x y ts from to t blob :
  length x = 32%nat -> length y = 32%nat ->
  SignedMsg.other_message Noise.selfTestMsg /\ SignedMsg.other_message x /\
  SignedMsg.other_message (Noise.sig_message x y ts) /\ SignedMsg.other_message (signalSignedMessage from to t blob).
Proof.
  intros Hx Hy. split_and!; [apply SignedMsg.self_test_message|by apply SignedMsg.x25519_key_message| |apply SignedMsg.nat_signal_message].
  by apply SignedMsg.handshake_message; [..|apply Noise.length_ts_bytes].
Qed.

Lemma signal_not_call from to ts blob c : signalSignedMessage from to ts blob <> SignedMsg.CallSignedMessage c.
Proof.
  rewrite SignedMsg.call_message_shape. intros E. apply (f_equal (take 6)) in E.
  unfold signalSignedMessage, signalDomain, SignedMsg.CallSignatureDomain in E. rewrite !take_app_le in E by (cbn; lia).
  vm_compute in E. discriminate.
Qed.

Lemma signal_not_register from to ts blob r : signalSignedMessage from to ts blob <> SignedMsg.RegisterSignedMessage r.
Proof.
  rewrite SignedMsg.register_message_shape. intros E. apply (f_equal (take 6)) in E.
  unfold signalSignedMessage, signalDomain, SignedMsg.RegisterSignatureDomain in E. rewrite !take_app_le in E by (cbn; lia).
  vm_compute in E. discriminate.
Qed.

Lemma signal_message_length from to ts blob :
  length (signalSignedMessage from to ts blob) = (26 + length from + length to + length blob)%nat.
Proof. unfold signalSignedMessage. rewrite !length_app, length_be_put. cbn [signalDomain length bytes_of_string]. lia. Qed.

Lemma signal_message_inj from to ts blob to' ts' blob' :
  length to = length to' -> - 2 ^ 63 <= ts < 2 ^ 63 -> 0 <= ts' < 2 ^ 62 ->
  signalSignedMessage from to ts blob = signalSignedMessage from to' ts' blob' -> to = to' /\ ts = ts' /\ blob = blob'.
Proof.
  intros Hl Ht Ht' E. unfold signalSignedMessage in E. apply app_inv_head in E. apply app_inv_head in E.
  apply app_inj_1 in E as [-> E]; [|done]. apply app_inj_1 in E as [E ->]; [|by rewrite !length_be_put].
  apply be_put_inj in E; [|apply wrap_range; lia..]. split; [done|]. split; [|done].
  unfold u64, wrap in E. rewrite (Z.mod_small ts') in E by lia. 
  pose proof (Z.div_mod ts (2 ^ 64) ltac:(lia)) as D. rewrite E in D.
  generalize dependent (ts / 2 ^ 64). intros q D. lia.
Qed.

(** C27: A signal the recipient accepts, under a signature that is not a forgery,
    was made by the peer it names: the holder of that peer's key sealed this very
    blob for this recipient, within a minute of the recipient's clock.  None of
    the other signatures of the same key passes for a signal: no call, no
    registration, no handshake, no self-test and no signed X25519 key. *)
Theorem signal_authentic envelope from to key now blob signals :
  unforged key (envelope_sig envelope) signals -> Forall signal_fits signals -> length to = 32%nat -> 0 <= now < 2 ^ 62 ->
  openSignal envelope from to key now = Ok blob ->
  from = key /\ exists ts, (to, ts, blob) ∈ signals /\ now - 60 <= ts <= now + 60.
Proof.
  intros Hs Hf Hto Hn Ho. apply openSignal_iff in Ho as [[L1 L2] V [K1 K2] W S Hb]. subst from. split; [done|].
  assert (- 2 ^ 63 <= envelope_ts envelope < 2 ^ 63) as Hts by apply i64_range.
  assert (length (signalSignedMessage key to (envelope_ts envelope) blob) > 72)%nat as Hlen.
  { rewrite signal_message_length, Hb, length_drop. unfold signalMinLen, signalHeaderLen, ed25519SignatureSize in *. lia. }
  destruct (Hs _ S) as [(x & Hx & E)|[(c & E)|[(r & E)|[(x & y & ts & Lx & Ly & E)|[E|E]]]]].
  - rewrite Forall_forall in Hf. destruct x as [[to' ts'] blob']. destruct (Hf _ Hx) as [F1 F2]. cbn [fst snd] in *.
    apply signal_message_inj in E as (<- & E & <-); [|congruence|done..].
    exists ts'. split; [done|]. apply (proj1 (window_i64 _ _ Hts Hn)) in W. rewrite E in W. unfold in_window in W. lia.
  - by apply signal_not_call in E.
  - by apply signal_not_register in E.
  - rewrite E in Hlen. unfold Noise.sig_message in Hlen. rewrite !length_app, Noise.length_ts_bytes in Hlen. lia.
  - rewrite E in Hlen. vm_compute in Hlen. lia.
  - lia.
Qed.

End Checks.

(** ** A signal arrives *)
Section Arrives.
Context `{Noise.NoiseIK} `{SignalLaws}.

Lemma decrypt_encrypt payload priv pub seed nonce blob :
  dh priv basepoint = Some pub -> length nonce = 12%nat ->
  encryptSignal payload pub (Some seed) (Some nonce) = Some blob ->
  decryptSignal blob priv = Some payload /\ length blob = (length payload + 60)%nat.
Proof.
  intros Hp Hn. unfold encryptSignal. rewrite bind_Some_eq. destruct (dh (Noise.clamp seed) basepoint) as [E|] eqn:De; [|done].
  rewrite bind_Some_eq. destruct (dh_agree _ _ _ _ De Hp) as (sh & S1 & S2). rewrite S1, !bind_Some_eq.
  intros Hb. pose proof (dh_length _ _ De) as Le. rewrite Noise.array_exact in Hb by done.
  assert (blob = E ++ nonce ++ aead_seal (deriveKey sh) nonce payload) as -> by congruence. clear Hb.
  pose proof (aead_length (deriveKey sh) nonce payload) as La.
  assert (length (E ++ nonce ++ aead_seal (deriveKey sh) nonce payload) = (length payload + 60)%nat) as L by (rewrite !length_app; lia).
  split; [|done]. unfold decryptSignal. rewrite L, (proj2 (Nat.ltb_ge _ _)) by lia.
  rewrite take_app_length' by done. rewrite drop_app_length' by done. rewrite take_app_length' by done.
  rewrite S2, bind_Some_eq. rewrite (app_assoc E nonce), drop_app_length' by (rewrite length_app; lia). apply aead_open_seal.
Qed.

Lemma sealed_opens payload id rid seed nonce ts now blob :
  Noise.identity_ok id -> dh (Noise.X25519Private rid) basepoint = Some (Noise.X25519Public rid) ->
  length nonce = 12%nat -> Z.of_nat (length payload) <= 16251 -> 0 <= ts < 2 ^ 62 -> 0 <= now < 2 ^ 62 -> now - 60 <= ts <= now + 60 ->
  encryptSignal payload (Noise.X25519Public rid) (Some seed) (Some nonce) = Some blob ->
  let envelope := sealSignal blob (Noise.Ed25519Public id) (Noise.Ed25519Public rid) (Noise.Ed25519Private id) ts in
  openSignal envelope (Noise.Ed25519Public id) (Noise.Ed25519Public rid) (Noise.Ed25519Public id) now = Ok blob /\
  decryptSignal blob (Noise.X25519Private rid) = Some payload /\
  holdableSignal envelope now = true.
Proof.
  intros Hid Hd Hn Hp Ht Hnow Hw He envelope.
  apply (decrypt_encrypt payload _ _ seed nonce blob Hd Hn) in He as [Hdec Lb].
  set (sig := Noise.sign (Noise.Ed25519Private id) (signalSignedMessage (Noise.Ed25519Public id) (Noise.Ed25519Public rid) ts blob)).
  assert (envelope = [signalVersion] ++ be_put 8 (u64 ts) ++ sig ++ blob) as Ee
    by (subst envelope; unfold sealSignal; rewrite Noise.array_exact; [done|apply Noise.sign_length]).
  assert (length sig = 64%nat) as Ls by apply Noise.sign_length.
  assert (length envelope = (length payload + 133)%nat) as Len by (rewrite Ee, !length_app, length_be_put, Ls, Lb; cbn [length]; lia).
  assert (envelope_ts envelope = ts) as Ets.
  { unfold envelope_ts. rewrite Ee. cbn [app skipn]. rewrite drop_0, take_app_length' by (by rewrite length_be_put). rewrite be_get_put.
    change (256 ^ Z.of_nat 8) with (2 ^ 64). unfold u64, wrap. rewrite Z.mod_mod, Z.mod_small by lia. apply i64_small. lia. }
  assert (drop 9 envelope = sig ++ blob) as E9 by (rewrite Ee; cbn [app skipn]; by rewrite drop_app_length' by (by rewrite length_be_put)).
  assert (drop signalHeaderLen envelope = blob) as E73.
  { change signalHeaderLen with (9 + 64)%nat. rewrite <- drop_drop, E9. by rewrite drop_app_length'. }
  split_and!; [|done|].
  - apply openSignal_iff. rewrite <- E73 at 1. split; rewrite ?Ets, ?E9, ?E73; try done.
    + rewrite Len. unfold signalMinLen, signalHeaderLen, ed25519SignatureSize. change signalMaxLen with 16384. lia.
    + by split; [|apply (Noise.io_len id Hid)].
    + rewrite !i64_small by lia. unfold signalMaxAgeSec, signalMaxSkewSec. lia.
    + rewrite take_app_length' by done. subst sig. rewrite (Noise.io_public id Hid) at 1. apply Noise.sign_verifies.
  - unfold holdableSignal. rewrite Len, Ets, Ee. cbn [app firstn]. rewrite bool_decide_true by done. cbn [negb].
    unfold signalMinLen, signalHeaderLen, ed25519SignatureSize, signalMaxAgeSec, signalMaxSkewSec. change signalMaxLen with 16384.
    rewrite (proj2 (Nat.ltb_ge _ _)), (proj2 (Z.ltb_ge _ _)) by lia. rewrite !i64_small by lia. cbn [orb].
    apply andb_true_iff. split; apply Z.leb_le; lia.
Qed.

(** A signal arrives: what a peer encrypts for the recipient's key and seals
    with its own identity, the recipient opens and decrypts to the same payload
    as long as the clocks are within a minute and the payload fits. *)
Theorem signal_roundtrip payload id rid seed nonce ts now blob :
  Noise.identity_ok id -> dh (Noise.X25519Private rid) basepoint = Some (Noise.X25519Public rid) ->
  length nonce = 12%nat -> Z.of_nat (length payload) <= 16251 -> 0 <= ts < 2 ^ 62 -> 0 <= now < 2 ^ 62 -> now - 60 <= ts <= now + 60 ->
  encryptSignal payload (Noise.X25519Public rid) (Some seed) (Some nonce) = Some blob ->
  let envelope := sealSignal blob (Noise.Ed25519Public id) (Noise.Ed25519Public rid) (Noise.Ed25519Private id) ts in
  openSignal envelope (Noise.Ed25519Public id) (Noise.Ed25519Public rid) (Noise.Ed25519Public id) now = Ok blob /\
  decryptSignal blob (Noise.X25519Private rid) = Some payload /\
  holdableSignal envelope now = true.
Proof. intros. by eapply sealed_opens. Qed.

End Arrives.

(** *** A library without secrecy *)
Definition toy_crypto : SignalCrypto := {|
  dh _ _ := Some (zeros 32); basepoint := [9]; hkdf _ _ n := zeros n;
  aead_seal _ _ p := p ++ zeros 16; aead_open _ _ c := Some (take (length c - 16) c)
|}.

Definition toy_laws : @SignalLaws toy_crypto.
Proof.
  refine (@Build_SignalLaws toy_crypto _ _ _ _).
  - intros a b A B _ _. by exists (zeros 32).
  - intros a A E. cbn in E. injection E as <-. done.
  - intros k n p. cbn [aead_open aead_seal toy_crypto]. rewrite length_app. change (length (zeros 16)) with 16%nat.
    by rewrite take_app_length' by lia.
  - intros k n p. cbn [aead_seal toy_crypto]. by rewrite length_app.
Defined.

#[local] Existing Instance toy_crypto.
#[local] Existing Instance toy_laws.
#[local] Existing Instance Handshake.demo_lib.
#[local] Existing Instance Handshake.demo_ik.

Definition toy_sender : Noise.Identity := Handshake.demo_identity 1.
Definition toy_receiver : Noise.Identity :=
  {| Noise.Ed25519Private := replicate 64 2; Noise.Ed25519Public := replicate 32 2; Noise.X25519Private := replicate 32 3;
     Noise.X25519Public := zeros 32; Noise.X25519Sig := zeros 64 |}.
Definition toy_blob : list Z := zeros 32 ++ zeros 12 ++ [1; 2; 3] ++ zeros 16.
Definition toy_envelope : list Z :=
  sealSignal toy_blob (Noise.Ed25519Public toy_sender) (Noise.Ed25519Public toy_receiver) (Noise.Ed25519Private toy_sender) 1000.

Lemma toy_encrypts :
  encryptSignal [1; 2; 3] (Noise.X25519Public toy_receiver) (Some (zeros 32)) (Some (zeros 12)) = Some toy_blob.
Proof. vm_compute. reflexivity. Qed.

Lemma signal_roundtrip_witness :
  openSignal toy_envelope (Noise.Ed25519Public toy_sender) (Noise.Ed25519Public toy_receiver) (Noise.Ed25519Public toy_sender) 1060 = Ok toy_blob.
Proof.
  apply (signal_roundtrip [1; 2; 3] toy_sender toy_receiver (zeros 32) (zeros 12) 1000 1060 toy_blob (proj1 Handshake.demo_identity_ok));
    [reflexivity|reflexivity|cbn; lia|lia|lia|lia|exact toy_encrypts].
Defined.

(** A signal dated a little over a minute ahead is not held, although it would
    be accepted when it is used some seconds later. *)
Example early_signal_dropped :
  holdableSignal toy_envelope 930 = false /\
  openSignal toy_envelope (Noise.Ed25519Public toy_sender) (Noise.Ed25519Public toy_receiver) (Noise.Ed25519Public toy_sender) 940 = Ok toy_blob.
Proof. split; vm_compute; reflexivity. Qed.

(** A library in which every signature of a message verifies for it, and the
    signature of one signal for nothing else.  The sender is an identity that
    passes the self-test. *)
Definition one_signal : list Z := signalSignedMessage (replicate 32 1) (replicate 32 2) 1000 toy_blob.
Definition one_sign (m : list Z) : list Z := replicate 64 (if bool_decide (m = one_signal) then 1 else 2).
Definition toy_one : Noise.NoiseLib :=
  {| Noise.HandshakeState := unit; Noise.new_initiator _ _ _ := None; Noise.new_responder _ _ := None;
     Noise.WriteMessage _ _ _ := None; Noise.ReadMessage _ _ := None; Noise.PeerStatic _ := [];
     Noise.sign _ m := one_sign m; Noise.public_of := take 32; Noise.X25519 x := Some x; Noise.sha256 l := l;
     Noise.verify _ m sig := bool_decide (sig = one_sign m) |}.
Definition one_identity : option Noise.Identity :=
  match @Noise.Generate toy_one (Some (replicate 64 1)) (Some (replicate 32 7)) with Ok id => Some id | Err _ => None end.
Definition one_envelope : list Z := @sealSignal toy_one toy_blob (replicate 32 1) (replicate 32 2) (replicate 64 1) 1000.

Lemma toy_one_unforged :
  @unforged toy_one (replicate 32 1) (envelope_sig one_envelope) [(replicate 32 2, 1000, toy_blob)].
Proof.
  intros m E. apply bool_decide_eq_true in E. unfold one_sign in E. case_bool_decide as Em; [|vm_compute in E; discriminate].
  left. eexists. split; [by left|exact Em].
Qed.

(** Another signature of the same key, that of the self-test, is refused. *)
Lemma signal_authentic_witness :
  (exists id, one_identity = Some id /\ Noise.Ed25519Public id = replicate 32 1 /\ @Noise.selfTest toy_one id = Ok tt) /\
  @openSignal toy_one ([1] ++ be_put 8 1000 ++ @Noise.sign toy_one [] Noise.selfTestMsg ++ toy_blob)
    (replicate 32 1) (replicate 32 2) (replicate 32 1) 1040 = Err InvalidSignature /\
  exists ts, (replicate 32 2, ts, toy_blob) ∈ [(replicate 32 2, 1000, toy_blob)] /\ 980 <= ts <= 1100.
Proof.
  split; [destruct one_identity as [id|] eqn:E; [|vm_compute in E; discriminate]; exists id; split; [reflexivity|];
          vm_compute in E; injection E as <-; split; vm_compute; reflexivity|].
  split; [vm_compute; reflexivity|].
  assert (@openSignal toy_one one_envelope (replicate 32 1) (replicate 32 2) (replicate 32 1) 1040 = Ok toy_blob) as Ho
    by (vm_compute; reflexivity).
  apply (@signal_authentic toy_one one_envelope (replicate 32 1) (replicate 32 2) (replicate 32 1) 1040 toy_blob
    [(replicate 32 2, 1000, toy_blob)] toy_one_unforged) in Ho as [_ (ts & Hin & Hts)];
    [|constructor; [split; [reflexivity|cbn; lia]|constructor]|reflexivity|lia].
  exists ts. split; [exact Hin|lia].
Defined.

End Signal.

Module Stun.
Import Netip.

Definition stunMagicCookie : Z := 0x2112A442.
Definition cookie_bytes : list Z := [0x21; 0x12; 0xA4; 0x42].

Inductive stun_error := ResponseTooShort | UnexpectedType | TransactionMismatch | NoMappedAddress | BadMappedAddress.

(** The binding request [QuerySTUN] sends. *)
Definition stun_request (txID : list Z) : list Z :=
  be_put 2 0x0001 ++ be_put 2 0 ++ be_put 4 stunMagicCookie ++ Noise.array 12 txID.

Definition be16_at (i : nat) (l : list Z) : Z := be_get (take 2 (drop i l)).
Definition xor_bytes (a b : list Z) : list Z := zip_with Z.lxor a b.

Definition parseXORMappedAddr (data : list Z) : result stun_error AddrPort :=
  if (length data <? 8)%nat || negb (bool_decide (data !! 1%nat = Some 1)) then Err BadMappedAddress
  else
    let port := Z.lxor (be16_at 2 data) (u16 (Z.shiftr stunMagicCookie 16)) in
    Ok {| ap_addr := AddrFrom4 (xor_bytes (take 4 (drop 4 data)) cookie_bytes); ap_port := port |}.

Definition parseMappedAddr (data : list Z) : result stun_error AddrPort :=
  if (length data <? 8)%nat || negb (bool_decide (data !! 1%nat = Some 1)) then Err BadMappedAddress
  else Ok {| ap_addr := AddrFrom4 (take 4 (drop 4 data)); ap_port := be16_at 2 data |}.

(** The loop over the attributes; each round takes at least four bytes. *)
Fixpoint parse_attrs (fuel : nat) (attrs : list Z) : result stun_error AddrPort :=
  match fuel with
  | O => Err NoMappedAddress
  | S f =>
      if (length attrs <? 4)%nat then Err NoMappedAddress
      else
        let attrType := be16_at 0 attrs in
        let attrLen := be16_at 2 attrs in
        if Z.of_nat (length attrs) <? 4 + attrLen then Err NoMappedAddress
        else
          let value := take (Z.to_nat attrLen) (drop 4 attrs) in
          if attrType =? 0x0020 then parseXORMappedAddr value
          else if attrType =? 0x0001 then parseMappedAddr value
          else
            let padded := Z.ldiff (attrLen + 3) 3 in
            if Z.of_nat (length attrs) <? 4 + padded then Err NoMappedAddress
            else parse_attrs f (drop (Z.to_nat (4 + padded)) attrs)
  end.

Definition parseSTUNResponse (data txID : list Z) : result stun_error AddrPort :=
  if (length data <? 20)%nat then Err ResponseTooShort
  else if negb (be16_at 0 data =? 0x0101) then Err UnexpectedType
  else if negb (bool_decide (take 12 (drop 8 data) = txID)) then Err TransactionMismatch
  else
    let msgLen := be16_at 2 data in
    let attrs := drop 20 data in
    let attrs := if Z.of_nat (length attrs) <? msgLen then attrs else take (Z.to_nat msgLen) attrs in
    parse_attrs (length attrs) attrs.

(** ** What a server answers (RFC 5389) *)
Definition pad4 (n : nat) : nat := (3 - (n + 3) mod 4)%nat.
Definition encode_attr (typ : Z) (value : list Z) : list Z :=
  be_put 2 typ ++ be_put 2 (Z.of_nat (length value)) ++ value ++ zeros (pad4 (length value)).

Definition xor_value (ip : list Z) (port : Z) : list Z :=
  [0; 1] ++ be_put 2 (Z.lxor port 0x2112) ++ xor_bytes ip cookie_bytes.

Definition response (txID attrs : list Z) : list Z :=
  be_put 2 0x0101 ++ be_put 2 (Z.of_nat (length attrs)) ++ be_put 4 stunMagicCookie ++ txID ++ attrs.

Definition other_attr (x : Z * list Z) : Prop :=
  0 <= x.1 < 65536 /\ x.1 <> 0x0020 /\ x.1 <> 0x0001 /\ Z.of_nat (length x.2) < 65536.

Lemma be16_here v l : 0 <= v < 65536 -> be16_at 0 (be_put 2 v ++ l) = v.
Proof.
  intros Hv. unfold be16_at. rewrite drop_0, take_app_length' by (by rewrite length_be_put). rewrite be_get_put.
  apply Z.mod_small. change (256 ^ Z.of_nat 2) with 65536. lia.
Qed.

Lemma be16_there v a l : length a = 2%nat -> 0 <= v < 65536 -> be16_at 2 (a ++ be_put 2 v ++ l) = v.
Proof. intros Ha Hv. unfold be16_at. rewrite drop_app_length' by done. by apply (be16_here v l) in Hv. Qed.

Lemma padded_len n : 0 <= n -> Z.ldiff (n + 3) 3 = n + Z.of_nat (pad4 (Z.to_nat n)).
Proof.
  intros Hn. change (Z.ldiff (n + 3) 3) with (Z.ldiff (n + 3) (Z.ones 2)). rewrite Z.ldiff_ones_r by lia. rewrite Z.shiftl_mul_pow2, Z.shiftr_div_pow2 by lia.
  unfold pad4. change (2 ^ 2) with 4. pose proof (Z.div_mod (n + 3) 4 ltac:(lia)) as D.
  pose proof (Nat.mod_upper_bound (Z.to_nat n + 3) 4 ltac:(lia)) as B.
  rewrite Nat2Z.inj_sub by lia. rewrite Nat2Z.inj_mod, Nat2Z.inj_add, Z2Nat.id by lia. change (Z.of_nat 3) with 3. change (Z.of_nat 4) with 4. lia.
Qed.

Lemma encode_attr_length typ v : length (encode_attr typ v) = (4 + length v + pad4 (length v))%nat.
Proof. unfold encode_attr. rewrite !length_app, !length_be_put. unfold zeros. rewrite length_replicate. lia. Qed.

Lemma lxor_cancel a b : Z.lxor (Z.lxor a b) b = a.
Proof. by rewrite Z.lxor_assoc, Z.lxor_nilpotent, Z.lxor_0_r. Qed.

(** One round of the loop. *)
Lemma parse_attrs_step f typ v rest :
  0 <= typ < 65536 -> Z.of_nat (length v) < 65536 ->
  parse_attrs (S f) (encode_attr typ v ++ rest) =
  if typ =? 0x0020 then parseXORMappedAddr v else if typ =? 0x0001 then parseMappedAddr v else parse_attrs f rest.
Proof.
  intros Ht Hv. cbn [parse_attrs]. pose proof (encode_attr_length typ v) as L.
  rewrite length_app, L, (proj2 (Nat.ltb_ge _ _)) by lia.
  assert (be16_at 0 (encode_attr typ v ++ rest) = typ) as -> by (unfold encode_attr; rewrite <- app_assoc; by apply be16_here).
  assert (be16_at 2 (encode_attr typ v ++ rest) = Z.of_nat (length v)) as ->.
  { unfold encode_attr. rewrite <- !app_assoc. apply be16_there; [apply length_be_put|lia]. }
  assert (drop 4 (encode_attr typ v ++ rest) = v ++ zeros (pad4 (length v)) ++ rest) as ->.
  { unfold encode_attr. rewrite <- !app_assoc, (app_assoc (be_put 2 typ)). apply drop_app_length'. by rewrite length_app, !length_be_put. }
  rewrite (proj2 (Z.ltb_ge _ _)) by lia. rewrite Nat2Z.id, take_app_length. rewrite padded_len, Nat2Z.id by lia.
  rewrite (proj2 (Z.ltb_ge _ _)) by lia. rewrite drop_app_length' by lia. done.
Qed.

Lemma xor_value_parsed ip port : length ip = 4%nat -> 0 <= port < 65536 ->
  parseXORMappedAddr (xor_value ip port) = Ok {| ap_addr := AddrFrom4 ip; ap_port := port |}.
Proof.
  intros Hip Hp. destruct ip as [|a [|b [|c [|d [|]]]]]; try done.
  assert (0 <= Z.lxor port 0x2112 < 65536) as Hx.
  { split; [apply Z.lxor_nonneg; lia|]. destruct (decide (Z.lxor port 0x2112 = 0)) as [->|Hne]; [lia|].
    assert (0 <= Z.lxor port 0x2112) by (apply Z.lxor_nonneg; lia).
    change 65536 with (2 ^ 16). apply Z.log2_lt_pow2; [lia|]. pose proof (Z.log2_lxor port 0x2112 ltac:(lia) ltac:(lia)) as Hl.
    assert (Z.log2 port <= 15) by (change 15 with (Z.log2 65535); apply Z.log2_le_mono; lia). change (Z.log2 0x2112) with 13 in Hl. lia. }
  unfold parseXORMappedAddr, xor_value.
  assert (be16_at 2 ([0; 1] ++ be_put 2 (Z.lxor port 0x2112) ++ xor_bytes [a; b; c; d] cookie_bytes) = Z.lxor port 0x2112) as ->
    by by apply be16_there.
  change (u16 (Z.shiftr stunMagicCookie 16)) with 0x2112. rewrite lxor_cancel.
  assert (take 4 (drop 4 ([0; 1] ++ be_put 2 (Z.lxor port 0x2112) ++ xor_bytes [a; b; c; d] cookie_bytes)) = xor_bytes [a; b; c; d] cookie_bytes) as ->.
  { rewrite (app_assoc [0; 1]), drop_app_length' by (by rewrite length_app, length_be_put). done. }
  rewrite !length_app, length_be_put. cbn [length Nat.add xor_bytes zip_with cookie_bytes Nat.ltb Nat.leb lookup list_lookup app orb].
  rewrite bool_decide_true by done. cbn [negb]. rewrite !lxor_cancel. done.
Qed.

Lemma parse_attrs_others f others ip port rest :
  Forall other_attr others -> (length others < f)%nat -> length ip = 4%nat -> 0 <= port < 65536 ->
  parse_attrs f (concat (map (fun x => encode_attr x.1 x.2) others) ++ encode_attr 0x0020 (xor_value ip port) ++ rest)
  = Ok {| ap_addr := AddrFrom4 ip; ap_port := port |}.
Proof.
  intros Ho. revert f. induction Ho as [|x others (H1 & H2 & H3 & H4) _ IH]; intros f Hf Hip Hp; (destruct f as [|f]; [cbn in Hf; lia|]).
  - cbn [map concat app]. rewrite parse_attrs_step; [by rewrite xor_value_parsed|lia|].
    unfold xor_value. rewrite !length_app, length_be_put. unfold xor_bytes. rewrite length_zip_with, Hip. cbn. lia.
  - cbn [map concat]. rewrite <- app_assoc, parse_attrs_step by done.
    rewrite (proj2 (Z.eqb_neq _ _)), (proj2 (Z.eqb_neq x.1 1)) by done. apply IH; [cbn in Hf; lia|done..].
Qed.

(** The address a STUN server reports is the address the client gets: from
    any answer to its transaction that carries the XOR-mapped address after
    attributes of other kinds, whatever follows. *)
Theorem stun_reports_address txID others ip port rest :
  length txID = 12%nat -> Forall other_attr others -> length ip = 4%nat -> 0 <= port < 65536 ->
  let attrs := concat (map (fun x => encode_attr x.1 x.2) others) ++ encode_attr 0x0020 (xor_value ip port) ++ rest in
  Z.of_nat (length attrs) < 65536 ->
  parseSTUNResponse (response txID attrs) txID = Ok {| ap_addr := AddrFrom4 ip; ap_port := port |}.
Proof.
  intros Htx Ho Hip Hp attrs Hl. unfold parseSTUNResponse, response.
  set (len := Z.of_nat (length attrs)) in *.
  assert (drop 20 (be_put 2 0x0101 ++ be_put 2 len ++ be_put 4 stunMagicCookie ++ txID ++ attrs) = attrs) as ->.
  { rewrite !app_assoc. apply drop_app_length'. rewrite !length_app, !length_be_put, Htx. done. }
  assert (take 12 (drop 8 (be_put 2 0x0101 ++ be_put 2 len ++ be_put 4 stunMagicCookie ++ txID ++ attrs)) = txID) as ->.
  { rewrite (app_assoc (be_put 2 0x0101)), (app_assoc (be_put 2 0x0101 ++ _)), drop_app_length' by (by rewrite !length_app, !length_be_put).
    by apply take_app_length'. }
  rewrite be16_here by lia. rewrite be16_there by (apply length_be_put || lia).
  rewrite !length_app, !length_be_put, Htx, (proj2 (Nat.ltb_ge _ _)) by lia. cbn [Z.eqb Pos.eqb negb].
  rewrite bool_decide_true by done. cbn [negb]. fold len. rewrite (proj2 (Z.ltb_ge _ _)) by done.
  subst len. rewrite Nat2Z.id, take_ge by lia. apply parse_attrs_others; [done| |done..].
  subst attrs. rewrite !length_app, encode_attr_length. clear. induction others as [|x others IH]; cbn [map concat length]; [lia|].
  rewrite length_app, encode_attr_length. lia.
Qed.

Lemma stun_reports_address_witness :
  parseSTUNResponse (response (zeros 12) (encode_attr 0x8022 [1; 2; 3] ++ encode_attr 0x0020 (xor_value [192; 0; 2; 7] 51820) ++ [])) (zeros 12)
  = Ok {| ap_addr := Addr4 0xC0000207; ap_port := 51820 |}.
Proof.
  apply (stun_reports_address (zeros 12) [(0x8022, [1; 2; 3])] [192; 0; 2; 7] 51820 []);
    [reflexivity|constructor; [repeat split; cbn; lia|constructor]|reflexivity|lia|vm_compute; reflexivity].
Defined.

(** The loop needs no more rounds than there are bytes. *)
Lemma parse_attrs_fuel f1 f2 attrs : bytes_ok attrs -> (length attrs <= f1)%nat -> (length attrs <= f2)%nat -> parse_attrs f1 attrs = parse_attrs f2 attrs.
Proof.
  revert f2 attrs. induction f1 as [|f1 IH]; intros [|f2] attrs Hb H1 H2; cbn [parse_attrs]; try done.
  - by rewrite (proj2 (Nat.ltb_lt _ _)) by lia.
  - by rewrite (proj2 (Nat.ltb_lt _ _)) by lia.
  - destruct (length attrs <? 4)%nat eqn:E; [done|]. apply Nat.ltb_ge in E. destruct (_ <? 4 + be16_at 2 attrs) eqn:E2; [done|].
    destruct (be16_at 0 attrs =? 0x20); [done|]. destruct (be16_at 0 attrs =? 1); [done|].
    destruct (_ <? 4 + Z.ldiff _ _) eqn:E3; [done|]. bool_to_prop.
    assert (0 <= be16_at 2 attrs) by (apply be_get_bound; by apply bytes_ok_take, bytes_ok_drop).
    assert (0 <= Z.ldiff (be16_at 2 attrs + 3) 3) by (apply Z.ldiff_nonneg; lia).
    apply IH; [by apply bytes_ok_drop|rewrite length_drop; lia..].
Qed.

(** Of the two address attributes the first in the answer counts, not the
    XOR-mapped one. *)
Example mapped_address_first :
  parseSTUNResponse (response (zeros 12)
    (encode_attr 0x0001 ([0; 1] ++ be_put 2 7 ++ [10; 0; 0; 1]) ++ encode_attr 0x0020 (xor_value [192; 0; 2; 7] 51820))) (zeros 12)
  = Ok {| ap_addr := Addr4 0x0A000001; ap_port := 7 |}.
Proof. vm_compute. reflexivity. Qed.

End Stun.
