(* ===== verification/Nat.v ===== *)
(** * NAT traversal: the manager

    [Nat] models [src/internal/nat/manager.go].  A session lives in a heap; the
    map [sessions] points to it while its goroutine runs, and the goroutine keeps
    its pointer.  The goroutine [negotiate] is cut where it waits:
    [negotiate_start] up to the wait for the peer's signal, [negotiate_signal] up
    to the wait for a reply, [negotiate_result] and the time-outs from there.
    The ticks that send probes and repeat the signal are steps of their own.  A
    wait is a [select] over a channel and a context: the context of a session is
    done [probeTimeout] + 5 s after its start, that of the probes [probeTimeout]
    after the signal, and both when the caller cancels.  Timers read the
    monotonic clock [now], in nanoseconds; signals are stamped and checked with
    the wall clock [nowSec], in seconds.

    The JSON codec is the class [SignalCodec]; the interfaces of the machine and
    the answer of the STUN server are arguments of [gatherCandidates]. *)
From Stdlib Require Import ZArith Lia.
From stdpp Require Import base numbers list gmap strings fin_maps sets.
From S2P Require Import Prelude GoLib PeerTable Dispatcher AddrText Noise Handshake Relay NatSignal.

(** [encoding/json] on the message of a signal. *)
Record natSignalMsg := { ProbeNonce : string; Candidates : list string }.
Class SignalCodec := {
  Marshal : natSignalMsg -> list Z;
  Unmarshal : list Z -> option natSignalMsg;
  Unmarshal_Marshal : forall x, Unmarshal (Marshal x) = Some x
}.

Module Nat.
Import Netip.
Import PeerTable.
Import AddrText.
Import Signal.

Definition second : Z := 10 ^ 9.
Definition probeTimeout : Z := 10 * second.
Definition signalResendWindow : Z := probeTimeout.
Definition sessionTimeout : Z := probeTimeout + 5 * second.
Definition probeFlag : Z := 0.
Definition replyFlag : Z := 1.
Definition maxCandidates : nat := 16.
Definition pendingMax : nat := 256.
Definition answerTTL : Z := probeTimeout + signalResendWindow.
Definition signalInCap : nat := 4.

(** Where the goroutine of a session is. *)
Inductive phase := Starting | AwaitSignal | Probing | Ended.

Record natSession := {
  peerID : list Z;
  peerX25519 : list Z;
  probeNonce : list Z;
  signalIn : list (list Z);
  result_ : option AddrPort;
  havePeer : bool;
  peerNonce : list Z;
  remotes : gset AddrPort;
  sealed : option (list Z * Z);     (* what [retransmitSignal] repeats, and until when *)
  deadline : Z;                     (* of [sessCtx] *)
  probeUntil : Z;                   (* of [probeCtx] *)
  at_ : phase
}.

(** The context a [select] waits on: whether the caller has cancelled it, the
    time, and the case that is taken when the channel is ready as well. *)
Record waiter := { cancelled : bool; clock : Z; pick : bool }.
Definition Done (w : waiter) (until : Z) : bool := cancelled w || (until <=? clock w).
(** Whether a [select] with a ready channel takes the channel's case. *)
Definition takes (w : waiter) (until : Z) : bool := negb (Done w until) || pick w.

Record probeAnswer := { tag : list Z; expires : Z }.

Record Manager := {
  localPort : Z;
  identity : Noise.Identity;
  heap : gmap nat natSession;
  next : nat;
  sessions : gmap (list Z) nat;
  answers : gmap (list Z) probeAnswer;
  pending : gmap (list Z) (list Z)
}.

(** What the manager does outside. *)
Inductive event :=
| ESignal (to envelope : list Z)                 (* sendFn *)
| EWrite (pkt : list Z) (addr : Dispatcher.Dispatcher.net_addr)
| EDiscovered (peer : list Z) (ep : AddrPort)    (* OnEndpointDiscovered *)
| ETimeout (peer : list Z).                      (* OnPunchTimeout *)

Definition New (port : Z) (id : Noise.Identity) : Manager :=
  {| localPort := port; identity := id; heap := ∅; next := 0; sessions := ∅; answers := ∅; pending := ∅ |}.

Definition upd_session (p : nat) (f : natSession -> natSession) (m : Manager) : Manager :=
  {| localPort := localPort m; identity := identity m; heap := alter f p (heap m); next := next m;
     sessions := sessions m; answers := answers m; pending := pending m |}.
Definition with_answers (a : gmap (list Z) probeAnswer) (m : Manager) : Manager :=
  {| localPort := localPort m; identity := identity m; heap := heap m; next := next m;
     sessions := sessions m; answers := a; pending := pending m |}.
Definition with_pending (a : gmap (list Z) (list Z)) (m : Manager) : Manager :=
  {| localPort := localPort m; identity := identity m; heap := heap m; next := next m;
     sessions := sessions m; answers := answers m; pending := a |}.

Definition set_signalIn (l : list (list Z)) (s : natSession) : natSession :=
  {| peerID := peerID s; peerX25519 := peerX25519 s; probeNonce := probeNonce s; signalIn := l; result_ := result_ s;
     havePeer := havePeer s; peerNonce := peerNonce s; remotes := remotes s; sealed := sealed s;
     deadline := deadline s; probeUntil := probeUntil s; at_ := at_ s |}.
Definition set_result (r : option AddrPort) (s : natSession) : natSession :=
  {| peerID := peerID s; peerX25519 := peerX25519 s; probeNonce := probeNonce s; signalIn := signalIn s; result_ := r;
     havePeer := havePeer s; peerNonce := peerNonce s; remotes := remotes s; sealed := sealed s;
     deadline := deadline s; probeUntil := probeUntil s; at_ := at_ s |}.
Definition set_sealed (x : list Z * Z) (s : natSession) : natSession :=
  {| peerID := peerID s; peerX25519 := peerX25519 s; probeNonce := probeNonce s; signalIn := signalIn s; result_ := result_ s;
     havePeer := havePeer s; peerNonce := peerNonce s; remotes := remotes s; sealed := Some x;
     deadline := deadline s; probeUntil := probeUntil s; at_ := AwaitSignal |}.
Definition set_peer (nonce : list Z) (rs : gset AddrPort) (now : Z) (s : natSession) : natSession :=
  {| peerID := peerID s; peerX25519 := peerX25519 s; probeNonce := probeNonce s; signalIn := signalIn s; result_ := result_ s;
     havePeer := true; peerNonce := nonce; remotes := rs; sealed := sealed s;
     deadline := deadline s; probeUntil := Z.min (deadline s) (now + probeTimeout); at_ := Probing |}.
Definition set_ended (s : natSession) : natSession :=
  {| peerID := peerID s; peerX25519 := peerX25519 s; probeNonce := probeNonce s; signalIn := signalIn s; result_ := result_ s;
     havePeer := havePeer s; peerNonce := peerNonce s; remotes := remotes s; sealed := sealed s;
     deadline := deadline s; probeUntil := probeUntil s; at_ := Ended |}.

(** A send on the buffered channel with a default case. *)
Definition push_signal (plain : list Z) (s : natSession) : natSession :=
  if (length (signalIn s) <? signalInCap)%nat then set_signalIn (signalIn s ++ [plain]) s else s.
Definition offer_result (ep : AddrPort) (s : natSession) : natSession :=
  match result_ s with None => set_result (Some ep) s | Some _ => s end.

Definition hexToNatID (s : string) : option (list Z) :=
  b ← Hex.DecodeString s;
  if (length b =? 32)%nat then Some b else None.

Definition addrToAddrPort (a : Dispatcher.Dispatcher.net_addr) : option AddrPort :=
  match a with
  | Dispatcher.Dispatcher.UDPAddr ap =>
      let ap := {| ap_addr := Unmap (ap_addr ap); ap_port := ap_port ap |} in
      if ap_valid ap then Some ap else None
  | Dispatcher.Dispatcher.OtherAddr (Some ap) => Some {| ap_addr := Unmap (ap_addr ap); ap_port := ap_port ap |}
  | Dispatcher.Dispatcher.OtherAddr None => None
  end.

Definition buildProbe (flags : Z) (nonce : list Z) : list Z :=
  be_put 4 0x05 ++ be_put 4 flags ++ Noise.array 8 nonce.

(** ** Candidates *)
Definition unusable (ep : AddrPort) : bool :=
  (ap_port ep =? 0) || IsUnspecified (ap_addr ep) || IsMulticast (ap_addr ep) || bool_decide (ap_addr ep = Addr4 0xFFFFFFFF).

Fixpoint usable_from (out : list AddrPort) (l : list string) : list AddrPort :=
  match l with
  | [] => out
  | s :: l =>
      match ParseAddrPort s with
      | None => usable_from out l
      | Some ep =>
          let ep := {| ap_addr := Unmap (ap_addr ep); ap_port := ap_port ep |} in
          if unusable ep || bool_decide (ep ∈ out) then usable_from out l
          else
            let out := out ++ [ep] in
            if (length out =? maxCandidates)%nat then out else usable_from out l
      end
  end.
Definition usableCandidates (l : list string) : list AddrPort := usable_from [] l.

Lemma usable_from_spec out l :
  NoDup out -> Forall (fun ep => unusable ep = false) out -> (length out < maxCandidates)%nat ->
  let r := usable_from out l in NoDup r /\ Forall (fun ep => unusable ep = false) r /\ (length r <= maxCandidates)%nat.
Proof.
  cbv zeta. revert out. induction l as [|x l IH]; intros out Hn Hu Hl; cbn [usable_from]; [split_and!; [done..|lia]|].
  destruct (ParseAddrPort x) as [ep|]; [|by apply IH]. set (ep' := {| ap_addr := Unmap (ap_addr ep) |}).
  destruct (unusable ep') eqn:Eu; cbn [orb]; [by apply IH|]. case_bool_decide as Hin; [by apply IH|].
  assert (NoDup (out ++ [ep'])) as Hn'.
  { apply NoDup_app. split_and!; [done| |apply NoDup_singleton]. intros y Hy. rewrite list_elem_of_singleton. congruence. }
  assert (Forall (fun ep => unusable ep = false) (out ++ [ep'])) as Hu' by (apply Forall_app; split; [done|by constructor]).
  destruct (length (out ++ [ep']) =? maxCandidates)%nat eqn:El; [apply Nat.eqb_eq in El; split_and!; [done..|lia]|].
  apply IH; [done..|]. apply Nat.eqb_neq in El. rewrite length_app in *. cbn [length] in *. lia.
Qed.

(** The candidates taken from a peer: few, different, and none that would direct
    probes at a group. *)
Lemma usableCandidates_ok l :
  NoDup (usableCandidates l) /\ Forall (fun ep => unusable ep = false) (usableCandidates l) /\
  (length (usableCandidates l) <= maxCandidates)%nat.
Proof. apply usable_from_spec; [constructor|constructor|unfold maxCandidates; cbn; lia]. Qed.

Definition ep4_ok (ep : AddrPort) : Prop := ip4_ok (ap_addr ep) /\ 0 <= ap_port ep < 65536.

Lemma ParseAddrPort_ep4 ep : ep4_ok ep -> ParseAddrPort (addr_port_string ep) = Some ep.
Proof. destruct ep as [[|v|] port]; intros [Ha Hp]; try done. by apply ParseAddrPort_String. Qed.

Lemma usable_from_keeps ep out l : ep ∈ out -> ep ∈ usable_from out l.
Proof.
  revert out. induction l as [|x l IH]; intros out Hin; cbn [usable_from]; [done|]. destruct (ParseAddrPort x); [|by apply IH].
  destruct (_ || _); [by apply IH|]. assert (ep ∈ out ++ [{| ap_addr := Unmap (ap_addr a); ap_port := ap_port a |}]) by set_solver.
  destruct (_ =? _)%nat; [done|by apply IH].
Qed.

(** A usable address a peer offers among at most sixteen is taken. *)
Lemma usable_from_takes ep out l :
  Forall ep4_ok l -> (length out + length l <= maxCandidates)%nat -> ep ∈ l -> unusable ep = false ->
  ep ∈ usable_from out (map addr_port_string l).
Proof.
  intros Hl. revert out. induction Hl as [|x l Hx Hl IH]; intros out Hlen Hin Hu; [by apply elem_of_nil in Hin|].
  cbn [map usable_from]. rewrite ParseAddrPort_ep4 by done.
  assert ({| ap_addr := Unmap (ap_addr x); ap_port := ap_port x |} = x) as -> by (destruct Hx as [Ha _]; by destruct x as [[|v|] port]).
  cbn [length] in Hlen. destruct (unusable x || bool_decide (x ∈ out)) eqn:Ex.
  - apply elem_of_cons in Hin as [->|Hin]; [|apply IH; [lia|done..]]. rewrite Hu in Ex. cbn [orb] in Ex.
    apply bool_decide_eq_true in Ex. by apply usable_from_keeps.
  - destruct (length (out ++ [x]) =? maxCandidates)%nat eqn:El.
    + apply Nat.eqb_eq in El. rewrite length_app in El. cbn [length] in El.
      assert (l = []) as -> by (apply length_zero_iff_nil; lia). apply list_elem_of_singleton in Hin as ->. set_solver.
    + apply elem_of_cons in Hin as [->|Hin]; [apply usable_from_keeps; set_solver|]. apply IH; [rewrite length_app; cbn; lia|done..].
Qed.

(** An interface of the machine; an address that does not convert is [None]. *)
Record iface := { if_up : bool; if_loopback : bool; if_addrs : option (list (option Addr)) }.

Definition add_candidate (ep : AddrPort) (l : list AddrPort) : list AddrPort :=
  if ap_valid ep && negb (bool_decide (ep ∈ l)) then l ++ [ep] else l.

Definition is4 (a : Addr) : bool := match a with Addr4 _ => true | _ => false end.

Definition add_iface (port : Z) (l : list AddrPort) (i : iface) : list AddrPort :=
  if negb (if_up i) || if_loopback i then l
  else
    foldl (fun l oa =>
      match oa with
      | Some a =>
          let a := Unmap a in
          if addr_valid a && negb (RelayWire.IsLoopback a) && is4 a then add_candidate {| ap_addr := a; ap_port := port |} l else l
      | None => l
      end) l (default [] (if_addrs i)).

(** [laddr] is the address the socket is bound to; [stun] is the answer of the
    server, when one is configured and answers. *)
Definition gatherCandidates (laddr : option Addr) (ifaces : option (list iface)) (stun : option AddrPort) (m : Manager) : list AddrPort :=
  let add ep l := add_candidate ep l in
  let l := match laddr with
           | Some ip => let ip := Unmap ip in
                        if addr_valid ip && negb (IsUnspecified ip) then add {| ap_addr := ip; ap_port := localPort m |} [] else []
           | None => []
           end in
  let l := foldl (add_iface (localPort m)) l (default [] ifaces) in
  let l := match l with [] => add {| ap_addr := Addr4 0x7F000001; ap_port := localPort m |} [] | _ => l end in
  match stun with Some srflx => add {| ap_addr := ap_addr srflx; ap_port := localPort m |} l | None => l end.

Section Manager.
Context `{Noise.NoiseLib} `{SignalCrypto} `{SignalCodec}.
(** The order in which the code ranges over the sessions. *)
Variable iter : gmap (list Z) nat -> list (list Z * nat).

Definition localPeerID (m : Manager) : list Z := Noise.array 32 (Noise.Ed25519Public (identity m)).

Definition authenticateSignal (peers : Table) (senderID envelope : list Z) (nowSec : Z) (m : Manager) : option (list Z) :=
  p ← LookupByID senderID peers;
  entry ← entries peers !! p;
  match openSignal envelope senderID (localPeerID m) (ID entry) nowSec with
  | Err _ => None
  | Ok enc => decryptSignal enc (Noise.X25519Private (identity m))
  end.

(** [nonce] is what [rand.Read] gives. *)
Definition Start (peers : Table) (e : Entry) (nonce : list Z) (now nowSec : Z) (m : Manager) : Manager :=
  match sessions m !! ID e with
  | Some _ => m
  | None =>
      let sess := {| peerID := ID e; peerX25519 := X25519Pub e; probeNonce := nonce; signalIn := []; result_ := None;
                     havePeer := false; peerNonce := zeros 8; remotes := ∅; sealed := None;
                     deadline := now + sessionTimeout; probeUntil := 0; at_ := Starting |} in
      let buffered := pending m !! ID e in
      let p := next m in
      let m := {| localPort := localPort m; identity := identity m; heap := <[p := sess]> (heap m); next := S p;
                  sessions := <[ID e := p]> (sessions m); answers := answers m; pending := delete (ID e) (pending m) |} in
      match buffered with
      | Some env =>
          match authenticateSignal peers (ID e) env nowSec m with
          | Some plain => upd_session p (push_signal plain) m
          | None => m
          end
      | None => m
      end
  end.

Definition DeliverSignal (peers : Table) (fromPeerID : string) (envelope : list Z) (nowSec : Z) (m : Manager) : Manager :=
  match hexToNatID fromPeerID with
  | None => m
  | Some id =>
      match sessions m !! id with
      | None =>
          let exists_ := match pending m !! id with Some _ => true | None => false end in
          if negb (holdableSignal envelope nowSec) || (negb exists_ && (pendingMax <=? size (pending m))%nat) then m
          else with_pending (<[id := envelope]> (pending m)) m
      | Some p =>
          match authenticateSignal peers id envelope nowSec m with
          | Some plain => upd_session p (push_signal plain) m
          | None => m
          end
      end
  end.

Definition replyTag (probed responder : list Z) : list Z :=
  Noise.array 8 (Noise.sha256 (bytes_of_string "veld-nat-reply-v1" ++ [0] ++ probed ++ responder)).

(** Whether a reply with this nonce from [ep] is for the session. *)
Definition reply_for (m : Manager) (ep : AddrPort) (nonce : list Z) (kp : list Z * nat) : bool :=
  match heap m !! kp.2 with
  | Some s => havePeer s && bool_decide (ep ∈ remotes s) && bool_decide (replyTag (probeNonce s) (peerNonce s) = nonce)
  | None => false
  end.

Definition HandleProbe (pkt : list Z) (addr : Dispatcher.Dispatcher.net_addr) (now : Z) (m : Manager) : Manager * list event :=
  if (length pkt <? 16)%nat then (m, [])
  else
    let flags := be_get (take 4 (drop 4 pkt)) in
    let nonce := take 8 (drop 8 pkt) in
    if flags =? probeFlag then
      match answers m !! nonce with
      | Some a =>
          if now <? expires a then (m, [EWrite (buildProbe replyFlag (tag a)) addr])
          else (with_answers (delete nonce (answers m)) m, [])
      | None => (m, [])
      end
    else
      match addrToAddrPort addr with
      | None => (m, [])
      | Some ep =>
          match List.find (reply_for m ep nonce) (iter (sessions m)) with
          | Some (_, p) => (upd_session p (offer_result ep) m, [])
          | None => (m, [])
          end
      end.

(** ** The goroutine of a session *)

(** The deferred clean-up. *)
Definition finish (p : nat) (m : Manager) : Manager :=
  match heap m !! p with
  | None => m
  | Some s =>
      let m := upd_session p set_ended m in
      {| localPort := localPort m; identity := identity m; heap := heap m; next := next m;
         sessions := delete (peerID s) (sessions m); answers := answers m; pending := pending m |}
  end.

(** Up to the wait for the peer's signal; [seed] and [rnd] are the randomness of
    the encryption. *)
Definition negotiate_start (laddr : option Addr) (ifaces : option (list iface)) (stun : option AddrPort)
    (seed rnd : option (list Z)) (now nowSec : Z) (p : nat) (m : Manager) : Manager * list event :=
  match heap m !! p with
  | Some s =>
      match at_ s with
      | Starting =>
          match gatherCandidates laddr ifaces stun m with
          | [] => (finish p m, [])
          | candidates =>
              let msg := {| ProbeNonce := Hex.EncodeToString (probeNonce s); Candidates := map addr_port_string candidates |} in
              match encryptSignal (Marshal msg) (peerX25519 s) seed rnd with
              | None => (finish p m, [])
              | Some enc =>
                  let env := sealSignal enc (localPeerID m) (peerID s) (Noise.Ed25519Private (identity m)) nowSec in
                  (upd_session p (set_sealed (env, now + signalResendWindow)) m, [ESignal (peerID s) env])
              end
          end
      | _ => (m, [])
      end
  | None => (m, [])
  end.

(** A tick of [retransmitSignal], which goes on after the session has ended. *)
Definition retransmit_tick (w : waiter) (p : nat) (m : Manager) : list event :=
  match heap m !! p with
  | Some s => match sealed s with
              | Some (env, until) => if takes w until then [ESignal (peerID s) env] else []
              | None => []
              end
  | None => []
  end.

(** The nonce and the candidates of a signal. *)
Definition read_signal (plain : list Z) : option (list Z * list AddrPort) :=
  peerMsg ← Unmarshal plain;
  n ← Hex.DecodeString (ProbeNonce peerMsg);
  if negb (length n =? 8)%nat then None
  else
    match usableCandidates (Candidates peerMsg) with
    | [] => None
    | rs => Some (n, rs)
    end.

(** The wait for the peer's signal: the context is done, or a signal is taken. *)
Definition negotiate_signal (w : waiter) (p : nat) (m : Manager) : Manager :=
  match heap m !! p with
  | Some s =>
      match at_ s, signalIn s with
      | AwaitSignal, plain :: rest =>
          if takes w (deadline s) then
            let m := upd_session p (set_signalIn rest) m in
            match read_signal plain with
            | None => finish p m
            | Some (peerNonce, rs) =>
                let now := clock w in
                let m := upd_session p (set_peer peerNonce (list_to_set rs) now) m in
                let live := filter (fun kv => now < expires kv.2) (answers m) in
                with_answers (<[peerNonce := {| tag := replyTag peerNonce (probeNonce s); expires := now + answerTTL |}]> live) m
            end
          else finish p m
      | AwaitSignal, [] => if Done w (deadline s) then finish p m else m
      | _, _ => m
      end
  | None => m
  end.

(** A tick of the probing goroutine of one candidate. *)
Definition probe_tick (w : waiter) (target : AddrPort) (p : nat) (m : Manager) : list event :=
  match heap m !! p with
  | Some s =>
      match at_ s with
      | Probing => if bool_decide (target ∈ remotes s) && takes w (probeUntil s)
                   then [EWrite (buildProbe probeFlag (probeNonce s)) (Dispatcher.Dispatcher.UDPAddr target)] else []
      | _ => []
      end
  | None => []
  end.

(** The wait for a reply: the probing time is over, or the result is taken. *)
Definition negotiate_result (w : waiter) (p : nat) (m : Manager) : Manager * list event :=
  match heap m !! p with
  | Some s =>
      match at_ s, result_ s with
      | Probing, Some ep =>
          (finish p m, if takes w (probeUntil s) then [EDiscovered (peerID s) ep] else [ETimeout (peerID s)])
      | Probing, None => if Done w (probeUntil s) then (finish p m, [ETimeout (peerID s)]) else (m, [])
      | _, _ => (m, [])
      end
  | None => (m, [])
  end.

(** ** Runs *)
Inductive op :=
| OStart (peers : Table) (e : Entry) (nonce : list Z) (now nowSec : Z)
| ODeliver (peers : Table) (from : string) (envelope : list Z) (nowSec : Z)
| OProbe (pkt : list Z) (addr : Dispatcher.Dispatcher.net_addr) (now : Z)
| OGather (laddr : option Addr) (ifaces : option (list iface)) (stun : option AddrPort)
    (seed rnd : option (list Z)) (now nowSec : Z) (p : nat)
| OSignal (w : waiter) (p : nat)
| OResult (w : waiter) (p : nat)
| OProbeTick (w : waiter) (target : AddrPort) (p : nat)
| ORetransmitTick (w : waiter) (p : nat).

Definition nstep (m : Manager) (o : op) : Manager * list event :=
  match o with
  | OStart peers e nonce now nowSec => (Start peers e nonce now nowSec m, [])
  | ODeliver peers from envelope nowSec => (DeliverSignal peers from envelope nowSec m, [])
  | OProbe pkt addr now => HandleProbe pkt addr now m
  | OGather laddr ifaces stun seed rnd now nowSec p => negotiate_start laddr ifaces stun seed rnd now nowSec p m
  | OSignal w p => (negotiate_signal w p m, [])
  | OResult w p => negotiate_result w p m
  | OProbeTick w target p => (m, probe_tick w target p m)
  | ORetransmitTick w p => (m, retransmit_tick w p m)
  end.

(** The state after some operations, and what they caused, from first to last. *)
Inductive reach (m0 : Manager) : list op -> Manager -> list event -> Prop :=
| reach_nil : reach m0 [] m0 []
| reach_snoc ops m evs o m' evs' : reach m0 ops m evs -> nstep m o = (m', evs') -> reach m0 (ops ++ [o]) m' (evs ++ evs').

(** *** What the inputs said *)
Section Log.
Variable m0 : Manager.

(** A signal from [id] was authenticated and decrypted to [plain]. *)
Definition signalled (ops : list op) (id plain : list Z) : Prop :=
  exists o, o ∈ ops /\
    match o with
    | OStart peers e _ _ nowSec => ID e = id /\ exists env, authenticateSignal peers id env nowSec m0 = Some plain
    | ODeliver peers from env nowSec => hexToNatID from = Some id /\ authenticateSignal peers id env nowSec m0 = Some plain
    | _ => False
    end.

(** A probe reply with this tag came from [ep]. *)
Definition replied (ops : list op) (ep : AddrPort) (t : list Z) : Prop :=
  exists pkt addr now, OProbe pkt addr now ∈ ops /\ addrToAddrPort addr = Some ep /\ take 8 (drop 8 pkt) = t /\
    be_get (take 4 (drop 4 pkt)) <> probeFlag.

(** A negotiation with [id] was started with this nonce. *)
Definition started (ops : list op) (id nonce : list Z) : Prop :=
  exists peers e now nowSec, OStart peers e nonce now nowSec ∈ ops /\ ID e = id.

Record session_ok (ops : list op) (s : natSession) : Prop := {
  so_nonce : started ops (peerID s) (probeNonce s);
  so_cap : (length (signalIn s) <= signalInCap)%nat;
  so_signals : Forall (signalled ops (peerID s)) (signalIn s);
  so_phase : havePeer s = true -> at_ s = Probing \/ at_ s = Ended;
  so_peer : havePeer s = true -> exists plain rs, signalled ops (peerID s) plain /\
    read_signal plain = Some (peerNonce s, rs) /\ remotes s = list_to_set rs;
  so_result : forall ep, result_ s = Some ep ->
    havePeer s = true /\ ep ∈ remotes s /\ replied ops ep (replyTag (probeNonce s) (peerNonce s))
}.

Record nat_ok (ops : list op) (m : Manager) : Prop := {
  no_id : identity m = identity m0;
  no_fresh : forall p, is_Some (heap m !! p) -> (p < next m)%nat;
  no_index : forall id p, sessions m !! id = Some p <-> exists s, heap m !! p = Some s /\ peerID s = id /\ at_ s <> Ended;
  no_session : forall p s, heap m !! p = Some s -> session_ok ops s;
  no_pending : (size (pending m) <= pendingMax)%nat;
  no_held : forall id env, pending m !! id = Some env -> Z.of_nat (length env) <= signalMaxLen
}.

Lemma signalled_mono ops o id plain : signalled ops id plain -> signalled (ops ++ [o]) id plain.
Proof. intros (x & Hx & Hs). exists x. split; [apply elem_of_app; by left|done]. Qed.

Lemma replied_mono ops o ep t : replied ops ep t -> replied (ops ++ [o]) ep t.
Proof. intros (pkt & addr & now & Hx & Hr). exists pkt, addr, now. split; [apply elem_of_app; by left|done]. Qed.

Lemma started_mono ops o id nonce : started ops id nonce -> started (ops ++ [o]) id nonce.
Proof. intros (peers & e & now & nowSec & Hx & He). exists peers, e, now, nowSec. split; [apply elem_of_app; by left|done]. Qed.

Lemma session_ok_mono ops o s : session_ok ops s -> session_ok (ops ++ [o]) s.
Proof.
  intros [S0 S1 S2 S3 S4 S5]. split; [by apply started_mono|done| |done| |].
  - eapply Forall_impl; [exact S2|]. intros x. apply signalled_mono.
  - intros Hp. destruct (S4 Hp) as (plain & rs & Hs & Hr). exists plain, rs. split; [by apply signalled_mono|done].
  - intros ep He. destruct (S5 ep He) as (? & ? & ?). split_and!; [done..|by apply replied_mono].
Qed.

Lemma nat_ok_mono ops o m : nat_ok ops m -> nat_ok (ops ++ [o]) m.
Proof. intros [N1 N2 N3 N4 N5 N6]. split; try done. intros p s Hs. eapply session_ok_mono; eauto. Qed.

(** An update of one session that leaves its peer and whether it runs. *)
Lemma nat_ok_upd ops m p f :
  nat_ok ops m -> (forall s, heap m !! p = Some s -> session_ok ops s -> session_ok ops (f s) /\ peerID (f s) = peerID s /\ (at_ (f s) = Ended <-> at_ s = Ended)) ->
  nat_ok ops (upd_session p f m).
Proof.
  intros [N1 N2 N3 N4 N5 N6] Hf. split; cbn [identity heap next sessions pending upd_session]; try done.
  - intros q Hq. apply N2. by rewrite lookup_alter_is_Some in Hq.
  - intros id q. rewrite N3. destruct (decide (p = q)) as [<-|Hne]; [|by rewrite lookup_alter_ne].
    rewrite lookup_alter_eq. destruct (heap m !! p) as [s|] eqn:E; [|by split; intros (? & ? & _)].
    destruct (Hf s eq_refl (N4 _ _ E)) as (_ & Hid & Hat). split; intros (s' & [= <-] & E1 & E2); eexists; (split; [done|]); split; [congruence|tauto|congruence|tauto].
  - intros q s Hs. apply lookup_alter_Some in Hs as [(<- & s0 & E & ->)|[_ E]]; [by destruct (Hf s0 E (N4 _ _ E))|by eapply N4].
Qed.

Lemma nat_ok_finish ops m p :
  nat_ok ops m -> (forall s, heap m !! p = Some s -> at_ s <> Ended) -> nat_ok ops (finish p m).
Proof.
  intros N Hrun. unfold finish. destruct (heap m !! p) as [s|] eqn:E; [|done]. destruct N as [N1 N2 N3 N4 N5 N6].
  assert (sessions m !! peerID s = Some p) as Hp by (apply N3; exists s; auto).
  split; cbn [identity heap next sessions pending upd_session]; try done.
  - intros q Hq. apply N2. by rewrite lookup_alter_is_Some in Hq.
  - intros id q. rewrite lookup_delete_Some, N3. destruct (decide (p = q)) as [<-|Hne].
    + rewrite lookup_alter_eq, E. split; [intros (Hid & s' & [= <-] & E1 & _); congruence|].
      intros (s' & [= <-] & _ & E2). by destruct E2.
    + rewrite lookup_alter_ne by done. split; [naive_solver|]. intros (s' & Hs & E1 & E2). split; [|by exists s'].
      intros <-. assert (sessions m !! peerID s' = Some q) as Hq by (apply N3; by exists s'). congruence.
  - intros q s' Hs. apply lookup_alter_Some in Hs as [(<- & s0 & E0 & ->)|[_ E0]]; [|by eapply N4].
    destruct (N4 _ _ E0) as [S0 S1 S2 S3 S4 S5]. split; try done. intros _. by right.
Qed.

(** An authenticated signal is queued for its session. *)
Lemma nat_ok_push ops m p plain :
  nat_ok ops m -> (forall s, heap m !! p = Some s -> signalled ops (peerID s) plain) -> nat_ok ops (upd_session p (push_signal plain) m).
Proof.
  intros N Hs. apply nat_ok_upd; [done|]. intros s E [S0 S1 S2 S3 S4 S5]. unfold push_signal.
  destruct (length (signalIn s) <? signalInCap)%nat eqn:El; [|by split_and!]. apply Nat.ltb_lt in El. split_and!; [|done..].
  split; cbn [signalIn peerID havePeer at_ set_signalIn]; try done.
  - rewrite length_app. cbn. lia.
  - apply Forall_app. split; [done|]. constructor; [by apply Hs|constructor].
Qed.

Lemma authenticate_m0 peers id env nowSec m : identity m = identity m0 ->
  authenticateSignal peers id env nowSec m = authenticateSignal peers id env nowSec m0.
Proof. intros E. unfold authenticateSignal, localPeerID. by rewrite E. Qed.

Lemma Start_ok ops peers e nonce now nowSec m :
  nat_ok ops m -> nat_ok (ops ++ [OStart peers e nonce now nowSec]) (Start peers e nonce now nowSec m).
Proof.
  intros N. unfold Start. destruct (sessions m !! ID e) as [q|] eqn:Es; [by apply nat_ok_mono|].
  set (sess := {| peerID := ID e |}). set (m1 := {| localPort := localPort m |}).
  assert (heap m !! next m = None) as Hf.
  { destruct (heap m !! next m) eqn:E; [|done]. pose proof (no_fresh _ _ N (next m) ltac:(by eexists)). lia. }
  assert (nat_ok (ops ++ [OStart peers e nonce now nowSec]) m1) as N1.
  { destruct N as [N1 N2 N3 N4 N5 N6]. split; cbn [identity heap next sessions pending m1]; try done.
    - intros q Hq. apply lookup_insert_is_Some' in Hq as [<-|Hq]; [lia|]. apply N2 in Hq. lia.
    - intros id q. destruct (decide (q = next m)) as [->|Hne].
      + rewrite lookup_insert_eq. split.
        * intros [[<- _]|[_ Hx]]%lookup_insert_Some; [by exists sess|]. apply N3 in Hx as (s' & Hs & _). congruence.
        * intros (s' & [= <-] & <- & _). apply lookup_insert_eq.
      + rewrite (lookup_insert_ne (heap m)) by congruence. rewrite lookup_insert_Some, N3. split; [naive_solver|].
        intros (s' & Hs & E1 & E2). right. split; [|by exists s']. intros <-.
        assert (sessions m !! ID e = Some q) as Hq by (apply N3; by exists s'). congruence.
    - intros q s Hs. apply lookup_insert_Some in Hs as [[<- <-]|[_ Hs]]; [|by eapply session_ok_mono, N4].
      split; cbn; [|lia|constructor|done|done|done]. exists peers, e, now, nowSec. split; [apply elem_of_app; right; by left|done].
    - etrans; [|exact N5]. apply map_subseteq_size, delete_subseteq.
    - intros id env [_ Hx]%lookup_delete_Some. by eapply N6. }
  destruct (pending m !! ID e) as [env|]; [|done].
  destruct (authenticateSignal peers (ID e) env nowSec m1) as [plain|] eqn:Ea; [|done].
  apply nat_ok_push; [done|]. intros s Hs. cbn [heap m1] in Hs. rewrite lookup_insert_eq in Hs. injection Hs as <-.
  exists (OStart peers e nonce now nowSec). split; [apply elem_of_app; right; by left|]. split; [done|]. exists env.
  rewrite <- Ea. symmetry. apply authenticate_m0. apply N1.
Qed.

Lemma Deliver_ok ops peers from env nowSec m :
  nat_ok ops m -> nat_ok (ops ++ [ODeliver peers from env nowSec]) (DeliverSignal peers from env nowSec m).
Proof.
  intros N. pose proof (nat_ok_mono _ (ODeliver peers from env nowSec) _ N) as N1. unfold DeliverSignal.
  destruct (hexToNatID from) as [id|] eqn:Eid; [|done]. destruct (sessions m !! id) as [p|] eqn:Es.
  - destruct (authenticateSignal peers id env nowSec m) as [plain|] eqn:Ea; [|done]. apply nat_ok_push; [done|].
    intros s Hs. apply (no_index _ _ N) in Es as (s' & Hs' & <- & _). assert (s' = s) as -> by congruence.
    exists (ODeliver peers from env nowSec). split; [apply elem_of_app; right; by left|]. split; [done|].
    rewrite <- Ea. symmetry. apply authenticate_m0. apply N.
  - destruct (negb (holdableSignal env nowSec) || _) eqn:E; [done|]. apply orb_false_iff in E as [Eh Ec].
    apply negb_false_iff in Eh. destruct N1 as [K1 K2 K3 K4 K5 K6]. split; cbn [identity heap next sessions pending with_pending]; try done.
    + rewrite map_size_insert. destruct (pending m !! id); [done|]. cbn [negb andb] in Ec. apply Nat.leb_gt in Ec. lia.
    + intros id' env' [[<- <-]|[_ Hx]]%lookup_insert_Some; [|by eapply K6]. unfold holdableSignal in Eh.
      destruct (_ <? signalMinLen)%nat; [done|]. destruct (signalMaxLen <? _) eqn:El; [done|]. bool_to_prop. lia.
Qed.

Lemma nat_ok_answers ops m a : nat_ok ops m -> nat_ok ops (with_answers a m).
Proof. by intros [N1 N2 N3 N4 N5 N6]. Qed.

Lemma Probe_ok ops pkt addr now m :
  nat_ok ops m -> nat_ok (ops ++ [OProbe pkt addr now]) (HandleProbe pkt addr now m).1.
Proof.
  intros N. pose proof (nat_ok_mono _ (OProbe pkt addr now) _ N) as N1. unfold HandleProbe.
  destruct (length pkt <? 16)%nat; [done|]. destruct (be_get (take 4 (drop 4 pkt)) =? probeFlag) eqn:Ef.
  { destruct (answers m !! _) as [a|]; [|done]. destruct (now <? expires a); [done|]. by apply nat_ok_answers. }
  destruct (addrToAddrPort addr) as [ep|] eqn:Ea; [|done].
  destruct (List.find _ _) as [[id p]|] eqn:Efd; [|done]. cbn [fst]. apply List.find_some in Efd as [_ Hr].
  apply nat_ok_upd; [done|]. intros s E Hok. pose proof Hok as [S0 S1 S2 S3 S4 S5]. unfold reply_for in Hr. cbn [snd] in Hr. rewrite E in Hr.
  apply andb_true_iff in Hr as [[Hp Hin]%andb_true_iff Ht]. apply bool_decide_eq_true in Hin, Ht.
  unfold offer_result. destruct (result_ s) eqn:Er; [by split_and!|]. split_and!; [|done..].
  split; cbn [signalIn peerID havePeer at_ peerNonce remotes probeNonce result_ set_result]; try done.
  intros ep' [= <-]. split_and!; [done..|]. exists pkt, addr, now. split_and!; [apply elem_of_app; right; by left|done|congruence|].
  by apply Z.eqb_neq in Ef.
Qed.

Lemma upd_upd p f g m : upd_session p f (upd_session p g m) = upd_session p (f ∘ g) m.
Proof.
  unfold upd_session. cbn. f_equal. apply map_eq. intros q. destruct (decide (p = q)) as [<-|Hne].
  - rewrite !lookup_alter_eq. by destruct (heap m !! p).
  - by rewrite !lookup_alter_ne.
Qed.

Lemma Gather_ok ops laddr ifaces stun seed rnd now nowSec p m :
  nat_ok ops m -> nat_ok ops (negotiate_start laddr ifaces stun seed rnd now nowSec p m).1.
Proof.
  intros N. unfold negotiate_start. destruct (heap m !! p) as [s|] eqn:E; [|done]. destruct (at_ s) eqn:Eat; try done.
  assert (nat_ok ops (finish p m)) as Nf.
  { apply nat_ok_finish; [done|]. intros s' Hs. assert (s' = s) as -> by congruence. by rewrite Eat. }
  destruct (gatherCandidates laddr ifaces stun m); [done|]. destruct (encryptSignal _ _ _ _); [|done]. cbn [fst].
  apply nat_ok_upd; [done|]. intros s' Hs [S0 S1 S2 S3 S4 S5]. assert (s' = s) as -> by congruence.
  split_and!; [|done|by rewrite Eat]. split; try done. intros Hp. cbn in Hp. destruct (S3 Hp); congruence.
Qed.

Lemma Signal_ok ops w p m : nat_ok ops m -> nat_ok ops (negotiate_signal w p m).
Proof.
  intros N. unfold negotiate_signal. destruct (heap m !! p) as [s|] eqn:E; [|done]. destruct (at_ s) eqn:Eat; try done.
  assert (nat_ok ops (finish p m)) as Nf.
  { apply nat_ok_finish; [done|]. intros s' Hs. assert (s' = s) as -> by congruence. by rewrite Eat. }
  destruct (signalIn s) as [|plain rest] eqn:Esig; [by destruct (Done w (deadline s))|].
  destruct (takes w (deadline s)); [clear Nf|done]. pose proof (no_session _ _ N p s E) as [S0 S1 S2 S3 S4 S5].
  rewrite Esig in S1, S2. apply Forall_cons in S2 as [Hpl Hrest]. cbn in S1.
  assert (havePeer s = false) as Hh by (destruct (havePeer s); [|done]; destruct (S3 eq_refl); congruence).
  assert (result_ s = None) as Hres by (destruct (result_ s); [|done]; destruct (S5 _ eq_refl); congruence).
  destruct (read_signal plain) as [[n rs]|] eqn:Er.
  - apply nat_ok_answers. rewrite upd_upd. apply nat_ok_upd; [done|]. intros s' Hs _. assert (s' = s) as -> by congruence.
    split_and!; [|done|by rewrite Eat]. split; cbn; [done|lia|done|by left|by exists plain, rs|by rewrite Hres].
  - apply nat_ok_finish.
    + apply nat_ok_upd; [done|]. intros s' Hs _. assert (s' = s) as -> by congruence.
      split_and!; [|done..]. split; cbn; [done|lia|done|by rewrite Hh..|by rewrite Hres].
    + intros s'. cbn [heap upd_session]. rewrite lookup_alter_eq, E. intros [= <-]. cbn. by rewrite Eat.
Qed.

Lemma Result_ok ops w p m : nat_ok ops m -> nat_ok ops (negotiate_result w p m).1.
Proof.
  intros N. unfold negotiate_result. destruct (heap m !! p) as [s|] eqn:E; [|done]. destruct (at_ s) eqn:Eat; try done.
  assert (nat_ok ops (finish p m)) as Nf.
  { apply nat_ok_finish; [done|]. intros s' Hs. assert (s' = s) as -> by congruence. by rewrite Eat. }
  destruct (result_ s); [done|]. by destruct (Done w (probeUntil s)).
Qed.

Lemma nstep_ok ops m o m' evs : nat_ok ops m -> nstep m o = (m', evs) -> nat_ok (ops ++ [o]) m'.
Proof.
  intros N. destruct o as [peers e nonce now nowSec|peers from env nowSec|pkt addr now|laddr ifaces stun seed rnd now nowSec p|w p|w p|w ep p|w p];
    cbn [nstep].
  - intros [= <- _]. by apply Start_ok.
  - intros [= <- _]. by apply Deliver_ok.
  - intros E. pose proof (Probe_ok ops pkt addr now m N) as K. by rewrite E in K.
  - intros E. apply nat_ok_mono. pose proof (Gather_ok ops laddr ifaces stun seed rnd now nowSec p m N) as K. by rewrite E in K.
  - intros [= <- _]. by apply nat_ok_mono, Signal_ok.
  - intros E. apply nat_ok_mono. pose proof (Result_ok ops w p m N) as K. by rewrite E in K.
  - intros [= <- _]. by apply nat_ok_mono.
  - intros [= <- _]. by apply nat_ok_mono.
Qed.

Lemma reach_ok ops m evs : heap m0 = ∅ -> sessions m0 = ∅ -> pending m0 = ∅ -> reach m0 ops m evs -> nat_ok ops m.
Proof.
  intros E1 E2 E3. induction 1 as [|ops m evs o m' evs' _ IH Hs]; [|by eapply nstep_ok].
  split; rewrite ?E1, ?E2, ?E3; try done.
  - by intros p [s ?].
  - intros id p. rewrite lookup_empty. split; [done|]. intros (s & Hs & _). by rewrite lookup_empty in Hs.
  - rewrite map_size_empty. lia.
Qed.

Lemma read_signal_usable plain n rs : read_signal plain = Some (n, rs) -> Forall (fun ep => unusable ep = false) rs.
Proof.
  unfold read_signal. destruct (Unmarshal plain) as [msg|]; [|done]. rewrite bind_Some_eq.
  destruct (Hex.DecodeString (ProbeNonce msg)) as [b|]; [|done]. rewrite bind_Some_eq. destruct (negb _); [done|].
  destruct (usableCandidates_ok (Candidates msg)) as (_ & Hu & _). destruct (usableCandidates (Candidates msg)); [done|].
  intros E. by injection E as _ <-.
Qed.

(** What was confirmed when an endpoint is reported. *)
Definition confirmed (ops : list op) (peer : list Z) (ep : AddrPort) : Prop :=
  exists own plain n rs, started ops peer own /\ signalled ops peer plain /\ read_signal plain = Some (n, rs) /\ ep ∈ rs /\
    replied ops ep (replyTag own n).

Lemma confirmed_mono ops o peer ep : confirmed ops peer ep -> confirmed (ops ++ [o]) peer ep.
Proof.
  intros (own & plain & n & rs & H2 & H3 & H4 & H5 & H6). exists own, plain, n, rs.
  split_and!; [by apply started_mono|by apply signalled_mono|done|done|by apply replied_mono].
Qed.

Lemma nstep_discovered ops m o m' evs peer ep :
  nat_ok ops m -> nstep m o = (m', evs) -> EDiscovered peer ep ∈ evs -> confirmed ops peer ep.
Proof.
  intros N. destruct o as [peers e nonce now nowSec|peers from env nowSec|pkt addr now|laddr ifaces stun seed rnd now nowSec p|w p|w p|w tg p|w p];
    cbn [nstep].
  1, 2, 5: intros [= _ <-]; by intros ?%elem_of_nil.
  - unfold HandleProbe. repeat case_match; intros [= _ <-]; set_solver.
  - unfold negotiate_start. repeat case_match; intros [= _ <-]; set_solver.
  - unfold negotiate_result. destruct (heap m !! p) as [s|] eqn:E; [|intros [= _ <-]; set_solver].
    destruct (at_ s), (result_ s) as [ep'|] eqn:Er; try (intros [= _ <-]; set_solver).
    2: { destruct (Done w (probeUntil s)); intros [= _ <-]; set_solver. }
    destruct (takes w (probeUntil s)); intros [= _ <-]; [|set_solver]. intros He%list_elem_of_singleton.
    injection He as -> ->. destruct (no_session _ _ N p s E) as [S0 S1 S2 S3 S4 S5].
    destruct (S5 _ Er) as (Hp & Hin & Hrep). destruct (S4 Hp) as (plain & rs & Hs & Hr & Hrem).
    exists (probeNonce s), plain, (peerNonce s), rs. rewrite Hrem in Hin. split_and!; [done..|set_solver|done].
  - unfold probe_tick. repeat case_match; intros [= _ <-]; set_solver.
  - unfold retransmit_tick. repeat case_match; intros [= _ <-]; set_solver.
Qed.

Lemma reach_discovered ops m evs peer ep :
  heap m0 = ∅ -> sessions m0 = ∅ -> pending m0 = ∅ -> reach m0 ops m evs -> EDiscovered peer ep ∈ evs -> confirmed ops peer ep.
Proof.
  intros E1 E2 E3. induction 1 as [|ops m evs o m' evs' Hr IH Hs]; [by intros ?%elem_of_nil|].
  intros [Hin|Hin]%elem_of_app; apply confirmed_mono; [by apply IH|]. eapply nstep_discovered; [by eapply reach_ok|done..].
Qed.

End Log.

(** C26: A reported endpoint is confirmed: when the manager reports an address for
    a peer, it had started a negotiation with that peer, a signal authenticated
    as that peer's offered the address, the address is one that may be probed, and a reply came from the address itself
    that carries the tag of both sides' nonces. *)
Theorem discovered_endpoint_confirmed port id ops m evs peer ep :
  reach (New port id) ops m evs -> EDiscovered peer ep ∈ evs ->
  exists own plain n rs, started ops peer own /\ signalled (New port id) ops peer plain /\
    read_signal plain = Some (n, rs) /\ ep ∈ rs /\ unusable ep = false /\ replied ops ep (replyTag own n).
Proof.
  intros Hr He. apply (reach_discovered (New port id) ops m evs peer ep) in Hr as (own & plain & n & rs & Hst & Hsg & Hrd & Hin & Hrep); [|done..].
  exists own, plain, n, rs. pose proof (read_signal_usable plain n rs Hrd) as Hu. rewrite Forall_forall in Hu. by split_and!; [..|apply Hu|].
Qed.

(** The manager's memory is bounded and its sessions are well kept, whatever
    peers and strangers send: at most 256 envelopes of at most 16 KiB wait for a
    negotiation, a peer has one running session, which the index points to, and
    a session queues at most four signals. *)
Theorem nat_manager_bounded port id ops m evs :
  reach (New port id) ops m evs ->
  (size (pending m) <= pendingMax)%nat /\
  (forall from env, pending m !! from = Some env -> Z.of_nat (length env) <= signalMaxLen) /\
  (forall peer p, sessions m !! peer = Some p <-> exists s, heap m !! p = Some s /\ peerID s = peer /\ at_ s <> Ended) /\
  (forall p s, heap m !! p = Some s -> (length (signalIn s) <= signalInCap)%nat).
Proof.
  intros Hr. destruct (reach_ok (New port id) ops m evs eq_refl eq_refl eq_refl Hr) as [N1 N2 N3 N4 N5 N6].
  split_and!; [done..|]. intros p s Hs. apply (so_cap _ _ _ (N4 p s Hs)).
Qed.

(** ** Probes *)
Lemma probe_parts flags nonce : 0 <= flags < 2 ^ 32 -> length nonce = 8%nat ->
  length (buildProbe flags nonce) = 16%nat /\ be_get (take 4 (drop 4 (buildProbe flags nonce))) = flags /\
  take 8 (drop 8 (buildProbe flags nonce)) = nonce.
Proof.
  intros Hf Hn. unfold buildProbe. rewrite Noise.array_exact by done.
  split_and!.
  - by rewrite !length_app, !length_be_put, Hn.
  - rewrite drop_app_length' by (by rewrite length_be_put). rewrite take_app_length' by (by rewrite length_be_put).
    rewrite be_get_put. apply Z.mod_small. change (256 ^ Z.of_nat 4) with (2 ^ 32). lia.
  - rewrite (app_assoc (be_put 4 5)), drop_app_length' by (by rewrite length_app, !length_be_put). by apply take_ge; rewrite Hn.
Qed.

Lemma length_replyTag a b : length (replyTag a b) = 8%nat.
Proof. apply Noise.length_array. Qed.

(** A probe with a nonce the manager knows is answered. *)
Lemma probe_answered nonce a addr now m :
  length nonce = 8%nat -> answers m !! nonce = Some a -> now < expires a ->
  HandleProbe (buildProbe probeFlag nonce) addr now m = (m, [EWrite (buildProbe replyFlag (tag a)) addr]).
Proof.
  intros Hn Ha Ht. destruct (probe_parts probeFlag nonce) as (P1 & P2 & P3); [unfold probeFlag; lia|done|].
  unfold HandleProbe. rewrite P1, P2, P3, Ha. cbn [Nat.ltb Nat.leb probeFlag Z.eqb]. by rewrite (proj2 (Z.ltb_lt _ _)).
Qed.

(** A session that waits for its peer's signal, the only one of its manager. *)
Record awaiting (m : Manager) (me : Noise.Identity) (other nonce : list Z) (until : Z) : Prop := {
  aw_id : identity m = me;
  aw_index : sessions m = {[ other := O ]};
  aw_session : exists s, heap m !! O = Some s /\ peerID s = other /\ probeNonce s = nonce /\ signalIn s = [] /\
    at_ s = AwaitSignal /\ result_ s = None /\ deadline s = until
}.

Record probing (m : Manager) (other nonce peerN : list Z) (rs : list AddrPort) (until : Z) : Prop := {
  pb_index : sessions m = {[ other := O ]};
  pb_session : exists s, heap m !! O = Some s /\ peerID s = other /\ probeNonce s = nonce /\ peerNonce s = peerN /\
    havePeer s = true /\ remotes s = list_to_set rs /\ at_ s = Probing /\ result_ s = None /\ probeUntil s = until
}.

Lemma takes_running w until : Done w until = false -> takes w until = true.
Proof. unfold takes. by intros ->. Qed.

(** The reply to its probe makes the session report the endpoint, while it may
    still probe. *)
Lemma reply_discovers m other nonce peerN rs until addr ep now w :
  (forall x, iter x ≡ₚ map_to_list x) -> probing m other nonce peerN rs until -> addrToAddrPort addr = Some ep -> ep ∈ rs ->
  Done w until = false ->
  (negotiate_result w 0 (HandleProbe (buildProbe replyFlag (replyTag nonce peerN)) addr now m).1).2 = [EDiscovered other ep].
Proof.
  intros Hit [Hi (s & Hs & E1 & E2 & E3 & E4 & E5 & E6 & E7 & E8)] Ha Hin Hw.
  destruct (probe_parts replyFlag (replyTag nonce peerN)) as (P1 & P2 & P3); [unfold replyFlag; lia|apply length_replyTag|].
  assert (iter (sessions m) = [(other, O)]) as Eit.
  { apply Permutation_singleton_r. rewrite (Hit (sessions m)), Hi. by rewrite map_to_list_singleton. }
  unfold HandleProbe. rewrite P1, P2, P3, Ha, Eit. cbn [Nat.ltb Nat.leb replyFlag probeFlag Z.eqb List.find].
  assert (reply_for m ep (replyTag nonce peerN) (other, O) = true) as ->.
  { unfold reply_for. cbn [snd]. rewrite Hs, E4, E5, E2, E3, !bool_decide_true by set_solver. done. }
  cbn [fst]. unfold negotiate_result. cbn [heap upd_session]. rewrite lookup_alter_eq, Hs. cbn [fmap option_fmap option_map].
  unfold offer_result. rewrite E7. cbn [at_ result_ set_result peerID probeUntil]. by rewrite E6, E1, E8, takes_running.
Qed.

(** Without a reply the session ends with the time-out once its probing time is
    over, and a reply that comes later finds no session. *)
Lemma unanswered_times_out m other nonce peerN rs until w :
  probing m other nonce peerN rs until -> Done w until = true ->
  (negotiate_result w 0 m).2 = [ETimeout other] /\ sessions (negotiate_result w 0 m).1 = ∅.
Proof.
  intros [Hi (s & Hs & E1 & E2 & E3 & E4 & E5 & E6 & E7 & E8)] Hw. unfold negotiate_result. rewrite Hs, E6, E7, E8, Hw. split; [by rewrite <- E1|].
  unfold finish. cbn [fst]. rewrite Hs. cbn [sessions upd_session]. rewrite Hi, E1. apply delete_singleton_eq.
Qed.

End Manager.

(** ** Two peers find each other *)
Section Punch.
Context `{Noise.NoiseIK} `{SignalLaws} `{SignalCodec}.
Variable iter : gmap (list Z) nat -> list (list Z * nat).

(** [me] as others know it. *)
Record peer_entry (e : Entry) (id : Noise.Identity) : Prop := {
  pe_id : ID e = Noise.Ed25519Public id;
  pe_x : X25519Pub e = Noise.X25519Public id;
  pe_bytes : bytes_ok (Noise.Ed25519Public id)
}.

(** What one side brings along. *)
Record side := {
  s_id : Noise.Identity; s_port : Z; s_nonce : list Z; s_laddr : option Addr; s_ifaces : option (list iface);
  s_stun : option AddrPort; s_seed : list Z; s_rnd : list Z;
  s_start : Z;                      (* when it starts, on its own clock *)
  s_sent : Z; s_ts : Z              (* when it sends its signal, on its own clock and by the wall clock *)
}.

Definition candidates (x : side) : list AddrPort := gatherCandidates (s_laddr x) (s_ifaces x) (s_stun x) (New (s_port x) (s_id x)).
Definition offer (x : side) : natSignalMsg :=
  {| ProbeNonce := Hex.EncodeToString (s_nonce x); Candidates := map addr_port_string (candidates x) |}.

Record side_ok (x : side) : Prop := {
  sd_id : Noise.identity_ok (s_id x);
  sd_dh : dh (Noise.X25519Private (s_id x)) basepoint = Some (Noise.X25519Public (s_id x));
  sd_nonce : bytes_ok (s_nonce x) /\ length (s_nonce x) = 8%nat;
  sd_seed : is_Some (dh (Noise.clamp (s_seed x)) basepoint);
  sd_rnd : length (s_rnd x) = 12%nat;
  sd_ts : 0 <= s_ts x < 2 ^ 61;
  sd_fits : Z.of_nat (length (Marshal (offer x))) <= 16251;
  sd_cands : Forall ep4_ok (candidates x) /\ (length (candidates x) <= maxCandidates)%nat
}.

(** Start and the first half of the negotiation. *)
Definition begin (peers : Table) (e : Entry) (x : side) (nowSec : Z) : Manager * list event :=
  negotiate_start (s_laddr x) (s_ifaces x) (s_stun x) (Some (s_seed x)) (Some (s_rnd x)) (s_sent x) (s_ts x) 0
    (Start peers e (s_nonce x) (s_start x) nowSec (New (s_port x) (s_id x))).

Definition envelope_of (x : side) (other blob : list Z) : list Z :=
  sealSignal blob (Noise.Ed25519Public (s_id x)) other (Noise.Ed25519Private (s_id x)) (s_ts x).

Lemma encrypts x y : side_ok x -> side_ok y ->
  exists blob, encryptSignal (Marshal (offer x)) (Noise.X25519Public (s_id y)) (Some (s_seed x)) (Some (s_rnd x)) = Some blob.
Proof.
  intros Hx Hy. destruct (sd_seed x Hx) as [E De]. destruct (dh_agree _ _ _ _ De (sd_dh y Hy)) as (sh & S1 & _).
  unfold encryptSignal. rewrite bind_Some_eq, De, bind_Some_eq, S1, !bind_Some_eq. by eexists.
Qed.

Lemma begin_awaits peers e x y now : side_ok x -> side_ok y -> peer_entry e (s_id y) -> candidates x <> [] ->
  exists blob m,
    encryptSignal (Marshal (offer x)) (Noise.X25519Public (s_id y)) (Some (s_seed x)) (Some (s_rnd x)) = Some blob /\
    begin peers e x now = (m, [ESignal (Noise.Ed25519Public (s_id y)) (envelope_of x (Noise.Ed25519Public (s_id y)) blob)]) /\
    awaiting m (s_id x) (Noise.Ed25519Public (s_id y)) (s_nonce x) (s_start x + sessionTimeout).
Proof.
  intros Hx Hy [P1 P2 P3] Hc. destruct (encrypts x y Hx Hy) as [blob Eb]. exists blob. eexists. split; [done|].
  assert (Noise.array 32 (Noise.Ed25519Public (s_id x)) = Noise.Ed25519Public (s_id x)) as El
    by (apply Noise.array_exact, Noise.io_len, Hx).
  unfold begin, negotiate_start, Start. cbn [sessions New pending]. rewrite !lookup_empty. cbn [heap next]. rewrite lookup_insert_eq. cbn [at_].
  change (gatherCandidates (s_laddr x) (s_ifaces x) (s_stun x) _) with (candidates x).
  destruct (candidates x) as [|c cs] eqn:Ec; [done|]. rewrite <- Ec. cbn [probeNonce peerX25519 peerID].
  change {| ProbeNonce := Hex.EncodeToString (s_nonce x); Candidates := map addr_port_string (candidates x) |} with (offer x).
  rewrite P2, Eb, P1. unfold localPeerID, envelope_of. cbn [identity New]. rewrite El. split; [reflexivity|].
  split; cbn [identity sessions heap upd_session]; [done|by rewrite insert_empty|].
  rewrite lookup_alter_eq, lookup_insert_eq. eexists. split; [reflexivity|]. done.
Qed.

(** The other side's signal takes a waiting session to its probes. *)
Lemma signal_received peers p e x y blob m now until w :
  side_ok x -> side_ok y -> peer_entry e (s_id y) -> LookupByID (Noise.Ed25519Public (s_id y)) peers = Some p -> entries peers !! p = Some e ->
  awaiting m (s_id x) (Noise.Ed25519Public (s_id y)) (s_nonce x) until -> Done w until = false ->
  encryptSignal (Marshal (offer y)) (Noise.X25519Public (s_id x)) (Some (s_seed y)) (Some (s_rnd y)) = Some blob ->
  0 <= now < 2 ^ 62 -> now - 60 <= s_ts y <= now + 60 -> usableCandidates (Candidates (offer y)) <> [] ->
  let m' := negotiate_signal w 0
    (DeliverSignal peers (Hex.EncodeToString (Noise.Ed25519Public (s_id y))) (envelope_of y (Noise.Ed25519Public (s_id x)) blob) now m) in
  probing m' (Noise.Ed25519Public (s_id y)) (s_nonce x) (s_nonce y) (usableCandidates (Candidates (offer y))) (Z.min until (clock w + probeTimeout)) /\
  answers m' !! s_nonce y = Some {| tag := replyTag (s_nonce y) (s_nonce x); expires := clock w + answerTTL |}.
Proof.
  intros Hx Hy [P1 P2 P3] Hl He [A1 A2 (s & Hs & E1 & E2 & E3 & E4 & E5 & E6)] Hrun Eb Hnow Hw Hc. cbv zeta.
  assert (length (Noise.Ed25519Public (s_id y)) = 32%nat) as Ly by apply Noise.io_len, Hy.
  assert (hexToNatID (Hex.EncodeToString (Noise.Ed25519Public (s_id y))) = Some (Noise.Ed25519Public (s_id y))) as Ehex
    by (unfold hexToNatID; rewrite Hex.Decode_EncodeToString, bind_Some_eq, Ly by done; done).
  assert (authenticateSignal peers (Noise.Ed25519Public (s_id y)) (envelope_of y (Noise.Ed25519Public (s_id x)) blob) now m
          = Some (Marshal (offer y))) as Ea.
  { unfold authenticateSignal. rewrite Hl, bind_Some_eq, He, bind_Some_eq, P1. unfold localPeerID. rewrite A1.
    rewrite Noise.array_exact by apply Noise.io_len, Hx.
    destruct (sealed_opens (Marshal (offer y)) (s_id y) (s_id x) (s_seed y) (s_rnd y) (s_ts y) now blob) as (Ho & Hdec & _);
      [apply Hy|apply Hx|apply Hy|apply Hy|pose proof (sd_ts y Hy); lia|done..|].
    unfold envelope_of. by rewrite Ho. }
  assert (read_signal (Marshal (offer y)) = Some (s_nonce y, usableCandidates (Candidates (offer y)))) as Er.
  { destruct (sd_nonce y Hy) as [Bn Ln]. unfold read_signal. rewrite Unmarshal_Marshal, bind_Some_eq. cbn [offer ProbeNonce].
    rewrite Hex.Decode_EncodeToString, bind_Some_eq, Ln by done. cbn [Nat.eqb negb].
    fold (offer y). change {| ProbeNonce := _; Candidates := _ |} with (offer y). by destruct (usableCandidates (Candidates (offer y))). }
  unfold DeliverSignal. rewrite Ehex, A2, lookup_singleton_eq, Ea. unfold negotiate_signal. cbn [heap upd_session].
  rewrite lookup_alter_eq, Hs. cbn [fmap option_fmap option_map]. unfold push_signal. rewrite E3. cbn [length Nat.ltb Nat.leb signalInCap].
  cbn [at_ signalIn set_signalIn app deadline]. rewrite E4, E6, takes_running, Er by done. cbn [probeNonce set_signalIn]. rewrite E2. split.
  - split; cbn [sessions heap with_answers upd_session]; [done|]. rewrite !lookup_alter_eq, Hs. cbn [fmap option_fmap option_map].
    eexists. split; [reflexivity|]. rewrite E3. cbn. by rewrite E6.
  - cbn [answers with_answers]. apply lookup_insert_eq.
Qed.

(** C25: Hole punching succeeds in time: two peers that know each other start
    negotiating and each handles the other's signal before its session ends, 15 s
    after its start, and within a minute of the signal's time stamp; [x] sends a
    probe to an address [y] offered, [y] gets it while it gives answers, 20 s
    from the signal it handled, and [x] handles the answer, which comes from that
    address, while it may probe, 10 s from the signal it handled and within its
    session.  Then [x] reports this address for [y].  No context is cancelled. *)
Theorem hole_punch_completes x y px ex tx py ey ty now0 now1 now2 w1 w2 w3 w4 t3 t4 ep addr_x addr_y :
  (forall z, iter z ≡ₚ map_to_list z) -> side_ok x -> side_ok y ->
  peer_entry ey (s_id y) -> LookupByID (Noise.Ed25519Public (s_id y)) tx = Some py -> entries tx !! py = Some ey ->
  peer_entry ex (s_id x) -> LookupByID (Noise.Ed25519Public (s_id x)) ty = Some px -> entries ty !! px = Some ex ->
  0 <= now1 < 2 ^ 62 -> now1 - 60 <= s_ts y <= now1 + 60 -> 0 <= now2 < 2 ^ 62 -> now2 - 60 <= s_ts x <= now2 + 60 ->
  ep ∈ candidates y -> unusable ep = false -> addrToAddrPort addr_y = Some ep ->
  (exists c, c ∈ candidates x /\ unusable c = false) ->
  Done w1 (s_start x + sessionTimeout) = false -> Done w2 (s_start y + sessionTimeout) = false ->
  Done w3 (Z.min (s_start x + sessionTimeout) (clock w1 + probeTimeout)) = false -> t3 < clock w2 + answerTTL ->
  Done w4 (Z.min (s_start x + sessionTimeout) (clock w1 + probeTimeout)) = false ->
  exists sx sy mx my mx' my' reply,
    begin tx ey x now0 = (mx, [ESignal (Noise.Ed25519Public (s_id y)) sx]) /\
    begin ty ex y now0 = (my, [ESignal (Noise.Ed25519Public (s_id x)) sy]) /\
    mx' = negotiate_signal w1 0 (DeliverSignal tx (Hex.EncodeToString (Noise.Ed25519Public (s_id y))) sy now1 mx) /\
    my' = negotiate_signal w2 0 (DeliverSignal ty (Hex.EncodeToString (Noise.Ed25519Public (s_id x))) sx now2 my) /\
    probe_tick w3 ep 0 mx' = [EWrite (buildProbe probeFlag (s_nonce x)) (Dispatcher.Dispatcher.UDPAddr ep)] /\
    HandleProbe iter (buildProbe probeFlag (s_nonce x)) addr_x t3 my' = (my', [EWrite reply addr_x]) /\
    (negotiate_result w4 0 (HandleProbe iter reply addr_y t4 mx').1).2 = [EDiscovered (Noise.Ed25519Public (s_id y)) ep].
Proof.
  intros Hit Hx Hy Py Ly Ey Px Lx Ex N1 W1 N2 W2 Hep Hu Haddr (c & Hc & Huc) Hw1 Hw2 Hw3 Ht Hw4.
  assert (ep ∈ usableCandidates (Candidates (offer y))) as Hiny by (apply usable_from_takes; [apply Hy|apply Hy|done..]).
  assert (c ∈ usableCandidates (Candidates (offer x))) as Hinx by (apply usable_from_takes; [apply Hx|apply Hx|done..]).
  destruct (begin_awaits tx ey x y now0 Hx Hy Py) as (bx & mx & Bx & Sx & Ax); [by intros E; rewrite E in Hc; apply elem_of_nil in Hc|].
  destruct (begin_awaits ty ex y x now0 Hy Hx Px) as (by_ & my & By & Sy & Ay); [by intros E; rewrite E in Hep; apply elem_of_nil in Hep|].
  destruct (signal_received tx py ey x y by_ mx now1 _ w1 Hx Hy Py Ly Ey Ax Hw1 By N1 W1) as [Pbx _];
    [by intros E; rewrite E in Hiny; apply elem_of_nil in Hiny|].
  destruct (signal_received ty px ex y x bx my now2 _ w2 Hy Hx Px Lx Ex Ay Hw2 Bx N2 W2) as [_ Ans];
    [by intros E; rewrite E in Hinx; apply elem_of_nil in Hinx|].
  do 6 eexists. exists (buildProbe replyFlag (replyTag (s_nonce x) (s_nonce y))).
  split; [exact Sx|]. split; [exact Sy|]. split; [reflexivity|]. split; [reflexivity|]. split_and!.
  - destruct Pbx as [_ (s & Hs & E1 & E2 & E3 & E4 & E5 & E6 & E7 & E8)]. unfold probe_tick.
    rewrite Hs, E6, E5, E8, bool_decide_true, takes_running by (done || set_solver). by rewrite E2.
  - apply (probe_answered iter _ _ _ _ _ (proj2 (sd_nonce x Hx)) Ans Ht).
  - by apply (reply_discovers iter _ _ _ _ _ _ _ _ _ _ Hit Pbx).
Qed.

End Punch.

(** ** Runs on concrete input *)
Section Exec.
Context `{Noise.NoiseLib} `{SignalCrypto} `{SignalCodec}.
Variable iter : gmap (list Z) nat -> list (list Z * nat).

Definition exec (x : Manager * list event) (o : op) : Manager * list event :=
  let '(m, evs) := nstep iter x.1 o in (m, x.2 ++ evs).

Lemma exec_reach m0 ops : reach iter m0 ops (foldl exec (m0, []) ops).1 (foldl exec (m0, []) ops).2.
Proof.
  induction ops as [|o ops IH] using rev_ind; [constructor|]. rewrite foldl_app. cbn [foldl].
  destruct (foldl exec (m0, []) ops) as [m evs]. cbn [fst snd] in IH. unfold exec. cbn [fst snd].
  destruct (nstep iter m o) as [m' evs'] eqn:E. cbn [fst snd]. by eapply reach_snoc.
Qed.
End Exec.

Definition toy_codec : SignalCodec.
Proof.
  refine {| Marshal x := [Z.pos (encode (ProbeNonce x, Candidates x))];
            Unmarshal l := match l with
                           | [Z.pos n] => '(a, b) ← decode n; Some {| ProbeNonce := a; Candidates := b |}
                           | _ => None
                           end |}.
  intros [a b]. by rewrite decode_encode.
Defined.

#[local] Existing Instance toy_codec.
#[local] Existing Instance toy_crypto.
#[local] Existing Instance toy_laws.
#[local] Existing Instance Handshake.demo_lib.
#[local] Existing Instance Handshake.demo_ik.

Definition toy_iter (x : gmap (list Z) nat) : list (list Z * nat) := map_to_list x.
Definition toy_id (k : Z) : Noise.Identity :=
  {| Noise.Ed25519Private := replicate 64 k; Noise.Ed25519Public := replicate 32 k; Noise.X25519Private := replicate 32 k;
     Noise.X25519Public := zeros 32; Noise.X25519Sig := zeros 64 |}.
Definition toy_ep (k : Z) : AddrPort := {| ap_addr := Addr4 (0xC0000200 + k); ap_port := 51820 |}.
Definition toy_side (k : Z) : side :=
  {| s_id := toy_id k; s_port := 51820; s_nonce := replicate 8 k; s_laddr := Some (Addr4 (0xC0000200 + k)); s_ifaces := None;
     s_stun := None; s_seed := zeros 32; s_rnd := zeros 12; s_start := 0; s_sent := 0; s_ts := 1000 + k |}.
Definition toy_entry (k : Z) : Entry :=
  {| ID := replicate 32 k; X25519Pub := zeros 32; VPNAddr := Addr4 (0x0A000000 + k); Name := ""; SubnetRoutes := [];
     endpoint := toy_ep k; session := None; pendingSession := None; prevSession := None; PeerTable.state := StatePending;
     lastSeen := 0; holdQueue := [] |}.
Definition toy_table (k : Z) : Table := (Upsert 0 (with_entries {[ 0%nat := toy_entry k ]} PeerTable.New)).2.

Lemma toy_tables :
  LookupByID (replicate 32 1) (toy_table 1) = Some O /\ entries (toy_table 1) !! O = Some (toy_entry 1) /\
  LookupByID (replicate 32 2) (toy_table 2) = Some O /\ entries (toy_table 2) !! O = Some (toy_entry 2).
Proof. vm_compute. done. Qed.

Lemma toy_candidates : candidates (toy_side 1) = [toy_ep 1] /\ candidates (toy_side 2) = [toy_ep 2].
Proof. vm_compute. done. Qed.

Lemma toy_side_ok k : k = 1 \/ k = 2 -> side_ok (toy_side k).
Proof.
  intros Hk. assert (candidates (toy_side k) = [toy_ep k]) as Ec by (destruct toy_candidates; by destruct Hk as [-> | ->]).
  split.
  - by split; destruct Hk as [-> | ->].
  - done.
  - split; [|done]. destruct Hk as [-> | ->]; repeat constructor; unfold byte_ok; lia.
  - by eexists.
  - done.
  - destruct Hk as [-> | ->]; cbn; lia.
  - destruct Hk as [-> | ->]; cbn; lia.
  - rewrite Ec. split; [|unfold maxCandidates; cbn; lia]. constructor; [|constructor]. destruct Hk as [-> | ->]; unfold ep4_ok, ip4_ok; cbn; lia.
Qed.

Lemma toy_peer_entry k : k = 1 \/ k = 2 -> peer_entry (toy_entry k) (toy_id k).
Proof. intros Hk. split; [done|done|]. destruct Hk as [-> | ->]; repeat constructor; unfold byte_ok; lia. Qed.

(** A running context at a number of seconds. *)
Definition toy_wait (t : Z) : waiter := {| cancelled := false; clock := t * second; pick := false |}.

Lemma hole_punch_completes_witness :
  exists reply m, (negotiate_result (toy_wait 14) 0 (HandleProbe toy_iter reply (Dispatcher.Dispatcher.UDPAddr (toy_ep 2)) (13 * second) m).1).2
    = [EDiscovered (replicate 32 2) (toy_ep 2)].
Proof.
  destruct (hole_punch_completes toy_iter (toy_side 1) (toy_side 2) O (toy_entry 1) (toy_table 2) O (toy_entry 2) (toy_table 1)
    1000 1010 1015 (toy_wait 10) (toy_wait 12) (toy_wait 11) (toy_wait 14) (13 * second) (13 * second) (toy_ep 2) (Dispatcher.Dispatcher.UDPAddr (toy_ep 1)) (Dispatcher.Dispatcher.UDPAddr (toy_ep 2)))
    as (sx & sy & mx & my & mx' & my' & reply & _ & _ & _ & _ & _ & _ & Hd);
    [reflexivity|apply toy_side_ok; lia|apply toy_side_ok; lia|apply toy_peer_entry; lia|apply toy_tables|apply toy_tables
    |apply toy_peer_entry; lia|apply toy_tables|apply toy_tables|lia|cbn; lia|lia|cbn; lia
    |rewrite (proj2 toy_candidates); constructor|reflexivity|reflexivity
    |exists (toy_ep 1); split; [rewrite (proj1 toy_candidates); constructor|reflexivity]|vm_compute; reflexivity..|].
  exists reply, mx'. exact Hd.
Defined.

Definition toy_signal : list Z :=
  envelope_of (toy_side 2) (replicate 32 1)
    (default [] (encryptSignal (Marshal (offer (toy_side 2))) (zeros 32) (Some (zeros 32)) (Some (zeros 12)))).
(** A negotiation whose result is looked at after so many seconds. *)
Definition toy_ops_at (t : Z) : list op :=
  [OStart (toy_table 2) (toy_entry 2) (replicate 8 1) 0 1000;
   OGather (Some (Addr4 0xC0000201)) None None (Some (zeros 32)) (Some (zeros 12)) 0 1001 0;
   ODeliver (toy_table 2) (Hex.EncodeToString (replicate 32 2)) toy_signal 1010; OSignal (toy_wait 4) 0;
   OProbe (buildProbe replyFlag (replyTag (replicate 8 1) (replicate 8 2))) (Dispatcher.Dispatcher.UDPAddr (toy_ep 2)) (5 * second);
   OResult (toy_wait t) 0].
Definition toy_ops : list op := toy_ops_at 6.
Definition toy_run : Manager * list event := foldl (exec toy_iter) (New 51820 (toy_id 1), []) toy_ops.

(** Fourteen seconds after the start the ten seconds of the probes are over; a
    signal handled sixteen seconds after the start ends the session. *)
Example late_negotiations :
  ETimeout (replicate 32 2) ∈ (foldl (exec toy_iter) (New 51820 (toy_id 1), []) (toy_ops_at 14)).2 /\
  sessions (foldl (exec toy_iter) (New 51820 (toy_id 1), []) (take 3 toy_ops ++ [OSignal (toy_wait 16) 0])).1 = ∅.
Proof. split; vm_compute; [repeat constructor|done]. Qed.

Lemma toy_discovered : EDiscovered (replicate 32 2) (toy_ep 2) ∈ toy_run.2.
Proof. vm_compute. repeat constructor. Qed.

Lemma discovered_endpoint_confirmed_witness : exists own n, replied toy_ops (toy_ep 2) (replyTag own n).
Proof.
  destruct (discovered_endpoint_confirmed toy_iter 51820 (toy_id 1) toy_ops toy_run.1 toy_run.2 (replicate 32 2) (toy_ep 2)
    (exec_reach _ _ _) toy_discovered) as (own & plain & n & rs & _ & _ & _ & _ & _ & Hr).
  exists own, n. exact Hr.
Defined.

Lemma nat_manager_bounded_witness : (size (pending toy_run.1) <= pendingMax)%nat.
Proof. apply (nat_manager_bounded toy_iter 51820 (toy_id 1) toy_ops toy_run.1 toy_run.2 (exec_reach _ _ _)). Defined.

End Nat.
