(* ===== verification/Coexist.v ===== *)
(** * Coexistence with other VPNs

    [Coexist] models [src/internal/coexist/coexist.go]: the VPNs a snapshot of
    the host's network shows, the routes that collide with the prefixes of the
    mesh, and the replacement prefix that is suggested.  A report is the list of
    its findings; their wording is left out; [Gather] has how the snapshot is made.
    The patterns ignore the case of ASCII letters. *)
From Stdlib Require Import ZArith Lia.
From stdpp Require Import base numbers list gmap strings.
From S2P Require Import Prelude GoLib PeerTable.

Module Coexist.
Import Netip.

Record Link := { l_Name : string; l_Kind : string; l_Addrs : list Prefix }.
Record RouteEntry := { r_Dst : Prefix; r_Gw : Addr; r_Iface : string; r_Metric : Z; r_Table : Z }.
Definition rtTableLocal : Z := 255.
Record Snapshot := { Links : list Link; Routes : list RouteEntry }.
Record VPN := { v_Name : string; v_Iface : string; v_FullTunnel : bool }.
Inductive CollisionKind := CollisionEqual | CollisionInside | CollisionBroader.
#[export] Instance CollisionKind_eq_dec : EqDecision CollisionKind.
Proof. solve_decision. Defined.
Record Collision := { c_Mesh : Prefix; c_Route : Prefix; c_Iface : string; c_Kind : CollisionKind }.

(** ** Prefixes *)

(** [netip.Prefix.Overlaps]. *)
Definition is4 (a : Addr) : bool := match a with Addr4 _ => true | _ => false end.
Definition Overlaps (p o : Prefix) : bool :=
  if negb (prefix_valid p) || negb (prefix_valid o) then false
  else if bool_decide (p = o) then true
  else if negb (Bool.eqb (is4 (p_addr p)) (is4 (p_addr o))) then false
  else
    let minBits := if p_bits p <? p_bits o then p_bits p else p_bits o in
    if minBits =? 0 then true
    else bool_decide (p_addr (Masked {| p_addr := p_addr p; p_bits := minBits |}) = p_addr (Masked {| p_addr := p_addr o; p_bits := minBits |})).

Definition isDefault (dst : Prefix) : bool :=
  bool_decide (dst = {| p_addr := Addr4 0; p_bits := 0 |}) || bool_decide (dst = {| p_addr := Addr6 0 ""; p_bits := 0 |}).

(** ** Collisions *)
Definition skipped (selfIface : string) (p : Prefix) (r : RouteEntry) : bool :=
  (negb (String.eqb selfIface "") && String.eqb (r_Iface r) selfIface) || isDefault (r_Dst r) || (r_Table r =? rtTableLocal)
  || negb (Overlaps p (r_Dst r)).

Definition collision (selfIface : string) (p : Prefix) (r : RouteEntry) : option Collision :=
  if skipped selfIface p r then None
  else Some {| c_Mesh := p; c_Route := r_Dst r; c_Iface := r_Iface r;
               c_Kind := if p_bits p =? p_bits (r_Dst r) then CollisionEqual
                         else if p_bits (r_Dst r) <? p_bits p then CollisionBroader else CollisionInside |}.

Definition FindCollisions (s : Snapshot) (selfIface : string) (prefixes : list Prefix) : list Collision :=
  prefixes ≫= fun p =>
    let p := Masked p in
    if prefix_valid p then omap (collision selfIface p) (Routes s) else [].

(** ** A replacement *)
Definition v4 (a b c d : Z) : Addr := Addr4 (a * 2 ^ 24 + b * 2 ^ 16 + c * 2 ^ 8 + d).
Definition altAnchors : list Addr :=
  [v4 10 100 0 0; v4 10 109 0 0; v4 10 110 0 0; v4 10 200 0 0; v4 172 16 0 0; v4 172 20 0 0; v4 172 30 0 0; v4 192 168 100 0].
Definition privateBlocks : list Prefix :=
  [{| p_addr := v4 10 0 0 0; p_bits := 8 |}; {| p_addr := v4 172 16 0 0; p_bits := 12 |}; {| p_addr := v4 192 168 0 0; p_bits := 16 |}].

Definition fits_private (cand : Prefix) : bool :=
  existsb (fun b => Contains b (p_addr cand) && (p_bits b <=? p_bits cand)) privateBlocks.

Definition altCandidates (bits : Z) : list Prefix :=
  omap (fun a => let cand := Masked {| p_addr := a; p_bits := bits |} in
                 if prefix_valid cand && fits_private cand then Some cand else None) altAnchors.

Definition conflicts (s : Snapshot) (cand : Prefix) : bool :=
  existsb (fun r => negb (isDefault (r_Dst r)) && Overlaps (r_Dst r) cand) (Routes s).

Definition SuggestAlternative (bad : Prefix) (s : Snapshot) : option Prefix :=
  let bad := Masked bad in
  if negb (prefix_valid bad) || negb (is4 (p_addr bad)) then None
  else List.find (fun cand => negb (bool_decide (cand = bad) || Overlaps cand bad) && negb (conflicts s cand)) (altCandidates (p_bits bad)).

(** ** VPNs *)
Definition prefix_fold (p s : string) : bool := Strings.has_prefix p (to_lower s).

Definition providers : list (string * list string) :=
  [("NordVPN", ["nordlynx"; "nordtun"; "nordwg"; "nordvpn"]); ("Mullvad", ["mullvad"]); ("ProtonVPN", ["proton"]);
   ("ExpressVPN", ["expressvpn"; "express"; "tunex"]); ("Surfshark", ["surfshark"])]%string.

Definition matchProvider (iface : string) : option string :=
  fst <$> List.find (fun x => existsb (fun p => prefix_fold p iface) x.2) providers.

Definition is_alnum (c : Z) : bool := ((48 <=? c) && (c <=? 57)) || ((97 <=? c) && (c <=? 122)).
Definition all_digits (l : list Z) : bool := forallb Scan.is_digit l.

(** [zt] and eight letters or digits. *)
Definition zt_name (iface : string) : bool :=
  let l := bytes_of_string (to_lower iface) in
  prefix_fold "zt" iface && (10 <=? length l)%nat && forallb is_alnum (take 8 (drop 2 l)).

Definition matchMeshVPN (iface : string) : option string :=
  if prefix_fold "tailscale" iface then Some "Tailscale"%string
  else if prefix_fold "zerotier" iface || zt_name iface then Some "ZeroTier"%string
  else None.

(** One of the names followed by digits only. *)
Definition generic_tunnel (iface : string) : bool :=
  existsb (fun p => prefix_fold p iface && all_digits (drop (length (bytes_of_string p)) (bytes_of_string iface))) ["tun"; "tap"; "utun"; "wg"]%string.
Definition tunKind (k : string) : bool := existsb (String.eqb k) ["tun"; "tap"; "wireguard"]%string.
Definition meshVPNName (n : string) : bool := existsb (String.eqb n) ["Tailscale"; "ZeroTier"]%string.
Definition cgnatPrefix : Prefix := {| p_addr := v4 100 64 0 0; p_bits := 10 |}.

Definition add_vpn (selfIface : string) (v : VPN) (vpns : list VPN) : list VPN :=
  if negb (String.eqb selfIface "") && String.eqb (v_Iface v) selfIface then vpns
  else if existsb (fun w => String.eqb (v_Iface w) (v_Iface v)) vpns then vpns
  else vpns ++ [v].

Definition vpn_of (l : Link) : option VPN :=
  if existsb (String.eqb (l_Name l)) [""; "lo"; "lo0"]%string then None
  else
    match matchProvider (l_Name l), matchMeshVPN (l_Name l) with
    | Some n, _ | None, Some n => Some {| v_Name := n; v_Iface := l_Name l; v_FullTunnel := false |}
    | None, None =>
        if generic_tunnel (l_Name l) || tunKind (l_Kind l)
        then Some {| v_Name := "VPN tunnel"; v_Iface := l_Name l; v_FullTunnel := false |} else None
    end.

Definition containsVPN (vpns : list VPN) (name : string) : bool := existsb (fun v => String.eqb (v_Name v) name) vpns.

Definition mark_full (r : RouteEntry) (v : VPN) : VPN :=
  if isDefault (r_Dst r) && negb (String.eqb (r_Iface r) "") && String.eqb (v_Iface v) (r_Iface r) && negb (meshVPNName (v_Name v))
  then {| v_Name := v_Name v; v_Iface := v_Iface v; v_FullTunnel := true |} else v.

Definition DetectVPNs (s : Snapshot) (selfIface : string) : list VPN :=
  let vpns := foldl (fun vpns l => match vpn_of l with Some v => add_vpn selfIface v vpns | None => vpns end) [] (Links s) in
  let vpns := if containsVPN vpns "Tailscale" then vpns
              else match List.find (fun r => bool_decide (r_Dst r = cgnatPrefix)) (Routes s) with
                   | Some r => add_vpn selfIface {| v_Name := "Tailscale"; v_Iface := r_Iface r; v_FullTunnel := false |} vpns
                   | None => vpns
                   end in
  foldl (fun vpns r => map (mark_full r) vpns) vpns (Routes s).

(** ** The report *)
Inductive finding := FVpn (v : VPN) | FCollision (c : Collision) (alternative : option Prefix).

Definition ReportSnapshot (s : Snapshot) (selfIface : string) (vpnPrefix : Prefix) (prefixes : list Prefix) : list finding :=
  let all := if prefix_valid vpnPrefix then Masked vpnPrefix :: prefixes else prefixes in
  map FVpn (DetectVPNs s selfIface) ++
  map (fun c => FCollision c
         (if negb (bool_decide (c_Kind c = CollisionBroader)) && bool_decide (c_Mesh c = Masked vpnPrefix)
          then SuggestAlternative (c_Mesh c) s else None))
      (FindCollisions s selfIface all).

(** [checkRoute]; [observed] is the snapshot, [None] when it cannot be taken. *)
Definition checkRoute (observed : option Snapshot) (pfx : Prefix) (selfIface : string) : list Collision :=
  match observed with Some s => FindCollisions s selfIface [pfx] | None => [] end.

(** ** Collisions and longest-prefix match *)

(** An address with its value in range and no zone, and a prefix of one. *)
Definition addr_ok (a : Addr) : Prop := a <> AddrZero /\ has_zone a = false /\ 0 <= addr_val a < 2 ^ bit_len a.
Definition prefix_ok (p : Prefix) : Prop := addr_ok (p_addr p) /\ 0 <= p_bits p <= bit_len (p_addr p).

Lemma prefix_ok_valid p : prefix_ok p -> prefix_valid p = true.
Proof.
  intros [(Hz & _) Hb]. unfold prefix_valid. rewrite !(proj2 (Z.leb_le _ _)) by lia. by destruct (p_addr p).
Qed.

Lemma shiftr_lxor_0 a b k : Z.shiftr (Z.lxor a b) k = 0 <-> Z.shiftr a k = Z.shiftr b k.
Proof. rewrite Z.shiftr_lxor. apply Z.lxor_eq_0_iff. Qed.

Lemma shiftr_weaken a b k k' : 0 <= k <= k' -> Z.shiftr a k = Z.shiftr b k -> Z.shiftr a k' = Z.shiftr b k'.
Proof.
  intros Hk E. replace k' with (k + (k' - k)) by lia. rewrite <- !Z.shiftr_shiftr by lia. by rewrite E.
Qed.

Lemma Contains_iff p d : prefix_ok p -> addr_ok d ->
  Contains p d = true <->
  bit_len (p_addr p) = bit_len d /\
  Z.shiftr (addr_val d) (bit_len d - p_bits p) = Z.shiftr (addr_val (p_addr p)) (bit_len d - p_bits p).
Proof.
  intros Hp (Hz & Hn & _). unfold Contains. rewrite (prefix_ok_valid p Hp), Hn. cbn [negb orb].
  destruct Hp as [(Hzp & _) _]. rewrite <- shiftr_lxor_0.
  assert ((bit_len (p_addr p) =? 0) = false) as -> by by destruct (p_addr p). assert ((bit_len d =? 0) = false) as -> by by destruct d.
  cbn [orb]. destruct (Z.eqb_spec (bit_len (p_addr p)) (bit_len d)) as [E|E]; cbn [negb]; [|intuition congruence].
  rewrite Z.eqb_eq. intuition.
Qed.

Lemma masked_addr a bits : a <> AddrZero -> has_zone a = false -> 0 <= bits <= bit_len a ->
  let h := bit_len a - bits in
  p_addr (Masked {| p_addr := a; p_bits := bits |}) =
  match a with Addr4 v => Addr4 (Z.shiftl (Z.shiftr v h) h) | Addr6 v _ => Addr6 (Z.shiftl (Z.shiftr v h) h) "" | AddrZero => AddrZero end.
Proof.
  intros Hz Hn Hb h. unfold Masked, prefix_valid. cbn [p_addr p_bits]. rewrite !(proj2 (Z.leb_le _ _)) by lia.
  destruct a; [done|..]; cbn [addr_valid andb p_addr addr_val bit_len]; done.
Qed.

Lemma shiftl_inj a b h : 0 <= h -> Z.shiftl a h = Z.shiftl b h -> a = b.
Proof. intros Hh. rewrite !Z.shiftl_mul_pow2 by done. intros E. apply Z.mul_reg_r in E; [done|]. apply Z.pow_nonzero; lia. Qed.

Lemma masked_eq a b bits : addr_ok a -> addr_ok b -> bit_len a = bit_len b -> 0 <= bits <= bit_len a ->
  p_addr (Masked {| p_addr := a; p_bits := bits |}) = p_addr (Masked {| p_addr := b; p_bits := bits |}) <->
  Z.shiftr (addr_val a) (bit_len a - bits) = Z.shiftr (addr_val b) (bit_len a - bits).
Proof.
  intros (Za & Na & _) (Zb & Nb & _) El Hb. rewrite !masked_addr by (done || by rewrite <- El).
  destruct a as [|v|v z], b as [|w|w z']; try done; cbn [addr_val bit_len] in *.
  - split; [intros [= E]; by apply shiftl_inj in E; [|lia]|by intros ->].
  - split; [intros [= E]; by apply shiftl_inj in E; [|lia]|by intros ->].
Qed.

Lemma Overlaps_iff p o : prefix_ok p -> prefix_ok o ->
  Overlaps p o = true <->
  bit_len (p_addr p) = bit_len (p_addr o) /\
  let h := bit_len (p_addr p) - Z.min (p_bits p) (p_bits o) in
  Z.shiftr (addr_val (p_addr p)) h = Z.shiftr (addr_val (p_addr o)) h.
Proof.
  intros Hp Ho. unfold Overlaps. rewrite !prefix_ok_valid by done. cbn [negb orb]. case_bool_decide as E; [subst o; done|]. clear E.
  destruct Hp as [Hpa Hpb], Ho as [Hoa Hob].
  assert (Bool.eqb (is4 (p_addr p)) (is4 (p_addr o)) = true <-> bit_len (p_addr p) = bit_len (p_addr o)) as Hf.
  { destruct Hpa as [? _], Hoa as [? _]. by destruct (p_addr p), (p_addr o). }
  destruct (Bool.eqb _ _); cbn [negb]; [|intuition congruence]. destruct Hf as [Hf _]. specialize (Hf eq_refl).
  assert ((if p_bits p <? p_bits o then p_bits p else p_bits o) = Z.min (p_bits p) (p_bits o)) as ->.
  { destruct (p_bits p <? p_bits o) eqn:E; bool_to_prop; lia. }
  cbv zeta. destruct (Z.min _ _ =? 0) eqn:E0; bool_to_prop.
  - rewrite E0, Z.sub_0_r. split; [|done]. intros _. split; [done|]. destruct Hpa as (_ & _ & R1), Hoa as (_ & _ & R2).
    rewrite !Z.shiftr_div_pow2 by (destruct (p_addr p); cbn; lia). rewrite Hf in *. by rewrite !Z.div_small.
  - rewrite bool_decide_eq_true, masked_eq by (done || lia). intuition.
Qed.

(** A prefix and its masked form contain the same addresses. *)
Lemma masked_ok p : prefix_ok p -> prefix_ok (Masked p) /\ p_bits (Masked p) = p_bits p /\ forall d, addr_ok d -> Contains (Masked p) d = Contains p d.
Proof.
  intros Hp. pose proof (prefix_ok_valid p Hp) as Hv. destruct Hp as [(Hz & Hn & Hr) Hb]. destruct p as [a bits]. cbn [p_addr p_bits] in *.
  assert (p_bits (Masked {| p_addr := a; p_bits := bits |}) = bits) as Eb by (unfold Masked; by rewrite Hv).
  set (h := bit_len a - bits). pose proof (Z.shiftr_nonneg (addr_val a) h) as Hs.
  assert (0 <= Z.shiftl (Z.shiftr (addr_val a) h) h <= addr_val a) as Hle.
  { split; [apply Z.shiftl_nonneg, Hs; lia|]. rewrite Z.shiftl_mul_pow2, Z.shiftr_div_pow2 by lia.
    rewrite Z.mul_comm. apply Z.mul_div_le. apply Z.pow_pos_nonneg; lia. }
  assert (Z.shiftr (Z.shiftl (Z.shiftr (addr_val a) h) h) h = Z.shiftr (addr_val a) h) as Er
    by (rewrite Z.shiftr_shiftl_l, Z.sub_diag, Z.shiftl_0_r by lia; done).
  assert (prefix_ok (Masked {| p_addr := a; p_bits := bits |}) /\ bit_len (p_addr (Masked {| p_addr := a; p_bits := bits |})) = bit_len a /\
          addr_val (p_addr (Masked {| p_addr := a; p_bits := bits |})) = Z.shiftl (Z.shiftr (addr_val a) h) h) as (Hok & El & Ev).
  { unfold prefix_ok, addr_ok. rewrite Eb, !masked_addr by done. fold h. destruct a; cbn [addr_val bit_len has_zone] in *; [done|..]; cbn; repeat split; (done || lia). }
  split_and!; [done..|]. intros d Hd. apply eq_true_iff_eq. rewrite !Contains_iff by (done || by split). rewrite El, Ev, Eb. cbn [p_addr p_bits].
  split; intros [E1 E2]; (split; [done|]); rewrite <- E1 in E2 |- *; fold h in E2 |- *; by rewrite Er in *.
Qed.

(** A route that counts: of another interface, not a default route, not in the
    local table. *)
Definition other_route (selfIface : string) (r : RouteEntry) : bool :=
  negb (negb (String.eqb selfIface "") && String.eqb (r_Iface r) selfIface) && negb (isDefault (r_Dst r)) && negb (r_Table r =? rtTableLocal).

Lemma skipped_iff self p r : skipped self p r = false <-> other_route self r = true /\ Overlaps p (r_Dst r) = true.
Proof.
  unfold skipped, other_route. destruct (negb (String.eqb self "") && _), (isDefault _), (r_Table r =? _), (Overlaps p (r_Dst r)); cbn; intuition done.
Qed.

(** C32: A conflict (other than with a broader route) is reported exactly when there
    is one: some mesh address is in the destination of a route at least as specific
    as the mesh's own, so that longest-prefix match does not send it to the mesh, and
    the route is of another interface than the daemon's own, not a default route and
    not in the local table. *)
Theorem collisions_exact s self p :
  prefix_ok p -> Forall (fun r => prefix_ok (r_Dst r)) (Routes s) ->
  (exists c, c ∈ FindCollisions s self [p] /\ c_Kind c <> CollisionBroader) <->
  (exists r d, r ∈ Routes s /\ other_route self r = true /\ addr_ok d /\ Contains p d = true /\ Contains (r_Dst r) d = true /\
     p_bits p <= p_bits (r_Dst r)).
Proof.
  intros Hp Hrs. destruct (masked_ok p Hp) as (Hq & Eb & Hc). rewrite Forall_forall in Hrs.
  unfold FindCollisions. rewrite bind_cons, app_nil_r. cbv zeta. rewrite (prefix_ok_valid _ Hq). split.
  - intros (c & (r & Hr & Hcol)%list_elem_of_omap & Hk). specialize (Hrs r Hr). unfold collision in Hcol.
    destruct (skipped self (Masked p) r) eqn:Es; [done|]. apply skipped_iff in Es as [Ho Hov]. injection Hcol as <-. cbn [c_Kind] in Hk.
    assert (p_bits p <= p_bits (r_Dst r)) as Hbits.
    { rewrite Eb in Hk. destruct (p_bits p =? _) eqn:E1; bool_to_prop; [lia|]. destruct (_ <? _) eqn:E2; bool_to_prop; [done|lia]. }
    apply Overlaps_iff in Hov as [El Hov]; [|done..]. cbv zeta in Hov. rewrite Eb, Z.min_l in Hov by done.
    destruct Hrs as [Hra Hrb]. exists r, (p_addr (r_Dst r)). split_and!; [done..| | |done].
    + rewrite <- Hc by done. apply Contains_iff; [done..|]. rewrite Eb, <- El. by split.
    + apply Contains_iff; [by split|done|]. done.
  - intros (r & d & Hr & Ho & Hd & Hpd & Hrd & Hbits). specialize (Hrs r Hr). rewrite <- Hc in Hpd by done.
    apply Contains_iff in Hpd as [E1 S1]; [|done..]. apply Contains_iff in Hrd as [E2 S2]; [|done..].
    assert (collision self (Masked p) r = Some {| c_Mesh := Masked p; c_Route := r_Dst r; c_Iface := r_Iface r;
      c_Kind := if p_bits p =? p_bits (r_Dst r) then CollisionEqual else CollisionInside |}) as Hcol.
    { unfold collision. rewrite Eb, (proj2 (Z.ltb_ge _ _)) by done.
      rewrite (proj2 (skipped_iff self (Masked p) r)); [done|]. split; [done|]. apply Overlaps_iff; [done..|]. cbv zeta.
      split; [congruence|]. rewrite Eb, E1, Z.min_l by done. rewrite Eb in S1. rewrite <- S1.
      apply (shiftr_weaken _ _ (bit_len d - p_bits (r_Dst r))); [|done]. destruct Hrs as [_ Hrb]. lia. }
    eexists. split; [apply list_elem_of_omap; exists r; by rewrite Hcol|]. cbn. by destruct (_ =? _).
Qed.

(** ** The suggestion *)

(** Prefixes that do not overlap have no address in common. *)
Lemma Overlaps_disjoint p o d : prefix_ok p -> prefix_ok o -> addr_ok d ->
  Overlaps p o = false -> Contains p d = true -> Contains o d = true -> False.
Proof.
  intros Hp Ho Hd Hov Hpd Hod. apply Contains_iff in Hpd as [E1 S1]; [|done..]. apply Contains_iff in Hod as [E2 S2]; [|done..].
  assert (Overlaps p o = true) as Ht; [|congruence]. apply Overlaps_iff; [done..|]. cbv zeta. split; [congruence|].
  rewrite E1. destruct Hp as [_ Hp], Ho as [_ Ho]. trans (Z.shiftr (addr_val d) (bit_len d - Z.min (p_bits p) (p_bits o))).
  - symmetry. apply (shiftr_weaken _ _ (bit_len d - p_bits p)); [lia|done].
  - apply (shiftr_weaken _ _ (bit_len d - p_bits o)); [lia|done].
Qed.

Lemma anchors_ok : Forall addr_ok altAnchors.
Proof. repeat constructor; cbn; lia || done. Qed.

Lemma altCandidates_ok bits cand : cand ∈ altCandidates bits ->
  prefix_ok cand /\ p_bits cand = bits /\ fits_private cand = true.
Proof.
  intros (a & Ha & Hc)%list_elem_of_omap. cbv zeta in Hc. destruct (prefix_valid (Masked _)) eqn:Ev; [|done].
  destruct (fits_private _) eqn:Ef; [|done]. cbn [andb] in Hc. injection Hc as <-.
  pose proof anchors_ok as Hok. rewrite Forall_forall in Hok. specialize (Hok a Ha).
  assert (prefix_valid {| p_addr := a; p_bits := bits |} = true) as Hv.
  { unfold Masked in Ev. destruct (prefix_valid {| p_addr := a; p_bits := bits |}) eqn:E; [done|]. unfold prefix_valid in Ev. by cbn in Ev. }
  assert (prefix_ok {| p_addr := a; p_bits := bits |}) as Hp.
  { split; [done|]. unfold prefix_valid in Hv. apply andb_true_iff in Hv as [[_ H1]%andb_true_iff H2]. bool_to_prop. done. }
  destruct (masked_ok _ Hp) as (Hq & Eb & _). done.
Qed.

(** The suggested prefix is one to move to: private IPv4 space of the same
    size, without an address in common with the contested prefix or with any
    route of the host but its default routes. *)
Theorem suggestion_is_free bad s cand :
  prefix_ok bad -> Forall (fun r => prefix_ok (r_Dst r)) (Routes s) -> SuggestAlternative bad s = Some cand ->
  prefix_ok cand /\ p_bits cand = p_bits bad /\ fits_private cand = true /\
  (forall d, addr_ok d -> Contains cand d = true -> Contains bad d = false /\
     forall r, r ∈ Routes s -> isDefault (r_Dst r) = false -> Contains (r_Dst r) d = false).
Proof.
  intros Hb Hrs. destruct (masked_ok bad Hb) as (Hq & Eb & Hc). unfold SuggestAlternative. cbv zeta.
  destruct (negb _ || _); [done|]. intros [Hin Hf]%List.find_some. apply list_elem_of_In, altCandidates_ok in Hin as (Hok & Ebits & Hpriv).
  apply andb_true_iff in Hf as [Hn Hcf]. apply negb_true_iff in Hn, Hcf. apply orb_false_iff in Hn as [_ Hov].
  split_and!; [done|congruence|done|]. intros d Hd Hcd. split.
  - rewrite <- Hc by done. apply not_true_iff_false. intros Hbd. by apply (Overlaps_disjoint cand (Masked bad) d).
  - intros r Hr Hdef. rewrite Forall_forall in Hrs. specialize (Hrs r Hr). apply not_true_iff_false. intros Hrd.
    apply (Overlaps_disjoint (r_Dst r) cand d); [done..| |done|done]. apply not_true_iff_false. intros Ho.
    unfold conflicts in Hcf. apply not_true_iff_false in Hcf. apply Hcf. apply existsb_exists. exists r.
    rewrite <- list_elem_of_In. by rewrite Hdef, Ho.
Qed.

(** Every size a private block can host has candidates. *)
Lemma altCandidates_some bits : 8 <= bits <= 32 -> altCandidates bits <> [].
Proof.
  intros Hb. assert (forallb (fun b => negb (bool_decide (altCandidates b = []))) (seqZ 8 25) = true) as Hall by (vm_compute; reflexivity).
  rewrite forallb_forall in Hall. specialize (Hall bits). intros E. rewrite E in Hall. cbn in Hall.
  discriminate Hall. apply list_elem_of_In, elem_of_seqZ. lia.
Qed.

(** ** Detection *)
Lemma add_vpn_self self v vpns : self <> ""%string -> (forall w, w ∈ vpns -> v_Iface w <> self) ->
  forall w, w ∈ add_vpn self v vpns -> v_Iface w <> self.
Proof.
  intros Hs Hv w. unfold add_vpn. destruct (String.eqb_spec self ""); [done|]. cbn [negb andb].
  destruct (String.eqb_spec (v_Iface v) self); [apply Hv|]. destruct (existsb _ _); [apply Hv|].
  intros [Hw|Hw%list_elem_of_singleton]%elem_of_app; [by apply Hv|by subst].
Qed.

(** The mesh's own interface is never reported. *)
Lemma DetectVPNs_not_self s self v : self <> ""%string -> v ∈ DetectVPNs s self -> v_Iface v <> self.
Proof.
  intros Hs. unfold DetectVPNs. set (v1 := foldl _ [] (Links s)). set (v2 := if containsVPN v1 "Tailscale" then v1 else _).
  assert (forall w, w ∈ v1 -> v_Iface w <> self) as H1.
  { subst v1. generalize (Links s) as ls. intros ls.
    assert (forall acc, (forall w, w ∈ acc -> v_Iface w <> self) -> forall w, w ∈ foldl (fun vpns l => match vpn_of l with Some v => add_vpn self v vpns | None => vpns end) acc ls -> v_Iface w <> self) as Hf;
      [|apply Hf; by intros w ?%elem_of_nil].
    induction ls as [|l ls IH]; intros acc Ha; [done|]. cbn [foldl]. apply IH. destruct (vpn_of l); [by apply add_vpn_self|done]. }
  assert (forall w, w ∈ v2 -> v_Iface w <> self) as H2.
  { subst v2. destruct (containsVPN v1 "Tailscale"); [done|]. destruct (List.find _ _); [by apply add_vpn_self|done]. }
  clearbody v2. revert v2 H2. induction (Routes s) as [|r rs IH]; intros v2 H2; cbn [foldl]; [apply H2|]. apply IH.
  intros w (w' & -> & Hw)%list_elem_of_fmap. specialize (H2 w' Hw). unfold mark_full. by destruct (_ && _).
Qed.

(** *** A host with a VPN *)
Definition demo_host : Snapshot :=
  {| Links := [{| l_Name := "eth0"; l_Kind := "device"; l_Addrs := [] |}; {| l_Name := "NordLynx"; l_Kind := "wireguard"; l_Addrs := [] |};
               {| l_Name := "veld0"; l_Kind := "tun"; l_Addrs := [] |}];
     Routes := [{| r_Dst := {| p_addr := Addr4 0; p_bits := 0 |}; r_Gw := AddrZero; r_Iface := "NordLynx"; r_Metric := 0; r_Table := 254 |};
                {| r_Dst := {| p_addr := v4 10 100 1 0; p_bits := 24 |}; r_Gw := AddrZero; r_Iface := "NordLynx"; r_Metric := 50; r_Table := 254 |};
                {| r_Dst := {| p_addr := v4 10 0 0 0; p_bits := 8 |}; r_Gw := AddrZero; r_Iface := "eth0"; r_Metric := 0; r_Table := 254 |}] |}.
Definition demo_mesh : Prefix := {| p_addr := v4 10 100 0 0; p_bits := 16 |}.

Example demo_report :
  ReportSnapshot demo_host "veld0" demo_mesh [] =
  [FVpn {| v_Name := "NordVPN"; v_Iface := "NordLynx"; v_FullTunnel := true |};
   FCollision {| c_Mesh := demo_mesh; c_Route := {| p_addr := v4 10 100 1 0; p_bits := 24 |}; c_Iface := "NordLynx"; c_Kind := CollisionInside |}
     (Some {| p_addr := v4 172 16 0 0; p_bits := 16 |});
   FCollision {| c_Mesh := demo_mesh; c_Route := {| p_addr := v4 10 0 0 0; p_bits := 8 |}; c_Iface := "eth0"; c_Kind := CollisionBroader |} None].
Proof. vm_compute. reflexivity. Qed.

Lemma demo_routes_ok : prefix_ok demo_mesh /\ Forall (fun r => prefix_ok (r_Dst r)) (Routes demo_host).
Proof. repeat constructor; cbn; lia || done. Qed.

Lemma collisions_exact_witness :
  exists r d, r ∈ Routes demo_host /\ Contains demo_mesh d = true /\ Contains (r_Dst r) d = true /\ p_bits demo_mesh <= p_bits (r_Dst r).
Proof.
  destruct (proj1 (collisions_exact demo_host "veld0" demo_mesh (proj1 demo_routes_ok) (proj2 demo_routes_ok))) as (r & d & H1 & _ & _ & H2 & H3 & H4).
  - exists {| c_Mesh := demo_mesh; c_Route := {| p_addr := v4 10 100 1 0; p_bits := 24 |}; c_Iface := "NordLynx"; c_Kind := CollisionInside |}.
    split; [vm_compute; constructor|discriminate].
  - exists r, d. split; [exact H1|split; [exact H2|split; [exact H3|exact H4]]].
Defined.

Lemma suggestion_is_free_witness : Contains demo_mesh (v4 172 16 3 4) = false.
Proof.
  apply (suggestion_is_free demo_mesh demo_host {| p_addr := v4 172 16 0 0; p_bits := 16 |} (proj1 demo_routes_ok) (proj2 demo_routes_ok));
    [vm_compute; reflexivity|repeat split; cbn; (lia || discriminate)|vm_compute; reflexivity].
Defined.

End Coexist.
