(* ===== verification/Dns.v ===== *)
(** * The local name server

    [Dns] models [src/internal/dns/resolver.go], the stub that answers A queries
    for the names of peers, and the lookup function the daemon gives it
    ([src/internal/daemon/daemon.go]).  A datagram is a byte list and a handler
    returns the datagram it sends, [None] when it sends none.  The socket and its
    read loop are not modelled. *)
From Stdlib Require Import ZArith Lia.
From stdpp Require Import base numbers list gmap strings.
From S2P Require Import Prelude GoLib PeerTable.

Module Dns.
Import Netip.

Definition dnsTypeA : Z := 1.
Definition dnsClassIN : Z := 1.
Definition dnsTTL : Z := 30.
Definition dot : Z := 46.

(** [static] is indexed by the lowered label. *)
Record Resolver := { domain : list Z; lookup : list Z -> option Addr; static : gmap (list Z) Addr }.

(** [strings.ToLower] on ASCII bytes, [strings.Trim(s, ".")], [strings.HasSuffix],
    [strings.TrimSuffix] and [strings.Join]. *)
Definition lower_byte (b : Z) : Z := if (65 <=? b) && (b <=? 90) then b + 32 else b.
Definition lower (l : list Z) : list Z := map lower_byte l.
Fixpoint trim_left (l : list Z) : list Z :=
  match l with b :: l' => if b =? dot then trim_left l' else l | [] => [] end.
Definition trim_dots (l : list Z) : list Z := reverse (trim_left (reverse (trim_left l))).
Definition has_suffix (l suffix : list Z) : bool :=
  (length suffix <=? length l)%nat && bool_decide (drop (length l - length suffix) l = suffix).
Definition trim_suffix (l suffix : list Z) : list Z :=
  if has_suffix l suffix then take (length l - length suffix) l else l.
Fixpoint join (ls : list (list Z)) : list Z :=
  match ls with [] => [] | [l] => l | l :: ls' => l ++ dot :: join ls' end.

Definition New (d : list Z) (f : list Z -> option Addr) : Resolver :=
  let d := match d with [] => bytes_of_string "veld" | _ => d end in
  {| domain := lower (trim_dots d); lookup := f; static := ∅ |}.

Definition AddStatic (name : list Z) (addr : Addr) (r : Resolver) : Resolver :=
  {| domain := domain r; lookup := lookup r; static := <[lower name := addr]> (static r) |}.

(** ** Queries *)

(** The loop of [parseQuestion] over the labels, and the offset after it.  Each
    turn consumes a byte of the message, so its length is fuel enough. *)
Fixpoint read_labels (fuel : nat) (msg : list Z) (offset : nat) : option (list (list Z) * nat) :=
  match fuel with
  | O => None
  | S fuel =>
      n ← idx msg offset;
      let offset := S offset in
      if n =? 0 then Some ([], offset)
      else if Z.land n 0xC0 =? 0xC0 then None
      else
        let n := Z.to_nat n in
        if (length msg <? offset + n)%nat then None
        else '(ls, e) ← read_labels fuel msg (offset + n);
             Some (take n (drop offset msg) :: ls, e)
  end.

Definition parseQuestion (msg : list Z) (offset : nat) : option (list Z * Z * nat) :=
  '(labels, offset) ← read_labels (S (length msg)) msg offset;
  if (length msg <? offset + 4)%nat then None
  else Some (join labels ++ [dot], be_get (take 2 (drop offset msg)), (offset + 4)%nat).

Definition resolve (r : Resolver) (qname : list Z) : option Addr :=
  let q := lower (trim_suffix qname [dot]) in
  let suffix := dot :: domain r in
  if negb (has_suffix q suffix) then None
  else
    let label := trim_suffix q suffix in
    if bool_decide (label = []) then None
    else match static r !! label with Some a => Some a | None => lookup r label end.

(** ** Answers *)
Definition buildARecord (ip4 : list Z) : list Z :=
  [0xC0; 0x0C] ++ be_put 2 dnsTypeA ++ be_put 2 dnsClassIN ++ [0; 0; 0; dnsTTL] ++ be_put 2 4 ++ ip4.

(** The response code and the addresses of the answer. *)
Definition outcome (r : Resolver) (qname : list Z) (qtype : Z) : Z * list Z :=
  match resolve r qname with
  | None => (3, [])
  | Some (Addr4 v) => (0, if qtype =? dnsTypeA then [v] else [])
  | Some _ => (0, [])
  end.

Definition buildResponse (r : Resolver) (id : Z) (questionWire qname : list Z) (qtype : Z) : list Z :=
  let '(rcode, ips) := outcome r qname qtype in
  be_put 2 id ++ be_put 2 (Z.lor 0x8400 rcode) ++ be_put 2 1 ++ be_put 2 (Z.of_nat (length ips)) ++
  be_put 2 0 ++ be_put 2 0 ++ questionWire ++ (ips ≫= fun v => buildARecord (be_put 4 v)).

Definition handle (r : Resolver) (msg : list Z) : option (list Z) :=
  if (length msg <? 12)%nat then None
  else
    let id := be_get (take 2 msg) in
    let flags := be_get (take 2 (drop 2 msg)) in
    if negb (Z.land flags 0x8000 =? 0) || negb (Z.land (Z.shiftr flags 11) 0xF =? 0) then None
    else if be_get (take 2 (drop 4 msg)) =? 0 then None
    else
      '(qname, qtype, questionEnd) ← parseQuestion msg 12;
      Some (buildResponse r id (take (questionEnd - 12) (drop 12 msg)) qname qtype).

(** One turn of [serve]: a read keeps the first 512 bytes of the datagram. *)
Definition serve_one (r : Resolver) (datagram : list Z) : option (list Z) := handle r (take 512 datagram).

(** ** The daemon's resolver *)

(** The lookup closure over the peer table. *)
Definition peer_lookup (t : PeerTable.Table) (name : list Z) : option Addr :=
  p ← PeerTable.LookupByName (Strings.string_of_bytes name) t;
  e ← PeerTable.entries t !! p;
  Some (PeerTable.VPNAddr e).

Definition daemon_resolver (d : list Z) (t : PeerTable.Table) : Resolver := New d (peer_lookup t).

(** ** Queries on the wire *)
Definition label_ok (l : list Z) : Prop := bytes_ok l /\ (0 < length l < 64)%nat.
Definition encode_name (labels : list (list Z)) : list Z :=
  (labels ≫= fun l => Z.of_nat (length l) :: l) ++ [0].
Definition question (labels : list (list Z)) (qtype qclass : Z) : list Z :=
  encode_name labels ++ be_put 2 qtype ++ be_put 2 qclass.
Definition query (id flags qdcount : Z) (counts : list Z) (q rest : list Z) : list Z :=
  be_put 2 id ++ be_put 2 flags ++ be_put 2 qdcount ++ counts ++ q ++ rest.

(** A standard query: not a response, opcode 0, some question. *)
Definition standard (id flags qdcount : Z) (counts : list Z) : Prop :=
  0 <= id < 65536 /\ 0 <= flags < 65536 /\ Z.land flags 0x8000 = 0 /\ Z.land (Z.shiftr flags 11) 0xF = 0 /\
  0 < qdcount < 65536 /\ length counts = 6%nat.

Lemma land_C0 n : 0 <= n < 64 -> Z.land n 0xC0 = 0.
Proof.
  intros Hn. assert (forallb (fun n => Z.land n 0xC0 =? 0) (seqZ 0 64) = true) as Hall by (vm_compute; reflexivity).
  rewrite forallb_forall in Hall. apply Z.eqb_eq, Hall. apply list_elem_of_In, elem_of_seqZ. lia.
Qed.

Lemma read_labels_encoded labels pre rest fuel :
  Forall label_ok labels -> (length labels < fuel)%nat ->
  read_labels fuel (pre ++ encode_name labels ++ rest) (length pre) =
  Some (labels, (length pre + length (encode_name labels))%nat).
Proof.
  intros Hl. revert pre fuel. induction Hl as [|l labels [Hb Hlen] _ IH]; intros pre [|fuel] Hf; cbn [length] in Hf; try lia; cbn [read_labels].
  - unfold encode_name, idx. rewrite lookup_app_r, Nat.sub_diag by lia. cbn. do 2 f_equal. lia.
  - assert (encode_name (l :: labels) = Z.of_nat (length l) :: l ++ encode_name labels) as ->
      by (unfold encode_name; rewrite bind_cons; cbn [app]; by rewrite <- app_assoc).
    unfold idx. rewrite lookup_app_r, Nat.sub_diag by lia. cbn [app]. change ((Z.of_nat (length l) :: ?l0) !! 0%nat) with (Some (Z.of_nat (length l))). rewrite bind_Some_eq. cbv zeta.
    rewrite (proj2 (Z.eqb_neq _ _)), land_C0 by lia. cbn [Z.eqb]. rewrite Nat2Z.id, (proj2 (Nat.ltb_ge _ _))
      by (rewrite !length_app; cbn [length]; rewrite !length_app; lia).
    set (n := Z.of_nat (length l)).
    assert (pre ++ n :: (l ++ encode_name labels) ++ rest = (pre ++ n :: l) ++ encode_name labels ++ rest) as E
      by (rewrite <- !app_assoc; done).
    rewrite E. replace (S (length pre) + length l)%nat with (length (pre ++ n :: l)) by (rewrite length_app; cbn [length]; lia).
    rewrite IH by lia. rewrite bind_Some_eq. cbn [fst snd]. rewrite <- E. f_equal. f_equal.
    + f_equal. assert (pre ++ n :: (l ++ encode_name labels) ++ rest = (pre ++ [n]) ++ l ++ encode_name labels ++ rest) as ->
        by (rewrite <- !app_assoc; cbn [app]; done).
      rewrite drop_app_length' by (rewrite length_app; cbn [length]; lia). by rewrite take_app_length.
    + rewrite !length_app. cbn [length]. rewrite length_app. lia.
Qed.

(** More fuel than the message is long never changes the result: the loop ends by
    itself on every message. *)
Lemma read_labels_fuel msg f1 f2 offset :
  (length msg - offset < f1)%nat -> (length msg - offset < f2)%nat -> read_labels f1 msg offset = read_labels f2 msg offset.
Proof.
  revert f2 offset. induction f1 as [|f1 IH]; intros [|f2] offset H1 H2; try lia. cbn [read_labels]. unfold idx.
  destruct (msg !! offset) as [n|] eqn:E; [|done]. apply lookup_lt_Some in E. rewrite !bind_Some_eq. cbv zeta.
  destruct (n =? 0); [done|]. destruct (_ =? 0xC0); [done|]. destruct (_ <? _)%nat; [done|]. by rewrite (IH f2) by lia.
Qed.

Lemma parseQuestion_query pre labels qtype qclass rest :
  Forall label_ok labels -> 0 <= qtype < 65536 ->
  parseQuestion (pre ++ question labels qtype qclass ++ rest) (length pre) =
  Some (join labels ++ [dot], qtype, (length pre + length (question labels qtype qclass))%nat).
Proof.
  intros Hl Hq. unfold parseQuestion, question.
  assert (length labels < S (length (pre ++ (encode_name labels ++ be_put 2 qtype ++ be_put 2 qclass) ++ rest)))%nat as Hf.
  { assert (length labels <= length (encode_name labels))%nat; [|rewrite !length_app; lia].
    unfold encode_name. rewrite length_app. induction labels as [|l ls IH]; [cbn; lia|]. inversion_clear Hl. rewrite bind_cons, !length_app. cbn [length] in *.
    specialize (IH ltac:(done)). lia. }
  rewrite <- !app_assoc in *. rewrite read_labels_encoded by done. rewrite bind_Some_eq. cbn [fst snd].
  rewrite (proj2 (Nat.ltb_ge _ _)) by (rewrite !length_app, !length_be_put; lia).
  f_equal. apply pair_equal_spec. split; [apply pair_equal_spec; split; [done|]|].
  - rewrite (app_assoc pre), drop_app_length' by (by rewrite length_app). rewrite take_app_length' by (by rewrite length_be_put).
    rewrite be_get_put. change (256 ^ Z.of_nat 2) with 65536. by apply Z.mod_small.
  - rewrite !length_app, !length_be_put. lia.
Qed.

(** ** Resolution *)
Lemma has_suffix_app l s : has_suffix (l ++ s) s = true.
Proof.
  unfold has_suffix. rewrite length_app, (proj2 (Nat.leb_le _ _)) by lia. cbn [andb].
  rewrite drop_app_length' by lia. by apply bool_decide_eq_true.
Qed.

Lemma trim_suffix_app l s : trim_suffix (l ++ s) s = l.
Proof. unfold trim_suffix. rewrite has_suffix_app, length_app. by apply take_app_length'; lia. Qed.

Lemma has_suffix_true l s : has_suffix l s = true -> exists l', l = l' ++ s.
Proof.
  unfold has_suffix. intros [_ E]%andb_true_iff. apply bool_decide_eq_true in E.
  exists (take (length l - length s) l). by rewrite <- E at 2; rewrite take_drop.
Qed.

Lemma lower_string l : bytes_ok l -> to_lower (Strings.string_of_bytes (lower l)) = to_lower (Strings.string_of_bytes l).
Proof.
  intros Hl. assert (forallb (fun b => Ascii.eqb (lower_ascii (Strings.chr (lower_byte b))) (lower_ascii (Strings.chr b))) (seqZ 0 256) = true)
    as Hall by (vm_compute; reflexivity).
  rewrite forallb_forall in Hall. induction Hl as [|b l Hb _ IH]; [done|]. cbn. fold (lower l). rewrite IH. f_equal.
  apply Ascii.eqb_eq, Hall, list_elem_of_In, elem_of_seqZ. unfold byte_ok in Hb. lia.
Qed.

Lemma lower_app l1 l2 : lower (l1 ++ l2) = lower l1 ++ lower l2.
Proof. apply map_app. Qed.

(** The name [host.domain] resolves to what the tables hold for [host]. *)
Lemma resolve_host r host dom : host <> [] -> dom <> [] -> lower (join dom) = domain r ->
  resolve r (join (host :: dom) ++ [dot]) =
  match static r !! lower host with Some a => Some a | None => lookup r (lower host) end.
Proof.
  intros Hh Hd Ed. unfold resolve. cbv zeta. rewrite trim_suffix_app.
  assert (lower (join (host :: dom)) = lower host ++ dot :: domain r) as ->.
  { destruct dom as [|d dom]; [done|]. change (join (host :: d :: dom)) with (host ++ [dot] ++ join (d :: dom)).
    rewrite !lower_app, Ed. done. }
  rewrite has_suffix_app, trim_suffix_app. cbn [negb]. rewrite bool_decide_eq_false_2; [done|]. by destruct host.
Qed.

(** A name outside the domain does not resolve. *)
Lemma resolve_outside r labels :
  (forall l, lower (join labels) <> l ++ dot :: domain r) -> resolve r (join labels ++ [dot]) = None.
Proof.
  intros Hn. unfold resolve. cbv zeta. rewrite trim_suffix_app. destruct (has_suffix _ _) eqn:E; [|done].
  apply has_suffix_true in E as [l E]. by apply Hn in E.
Qed.

Lemma peer_lookup_lower t host : bytes_ok host -> peer_lookup t (lower host) = peer_lookup t host.
Proof. intros Hb. unfold peer_lookup, PeerTable.LookupByName. by rewrite lower_string. Qed.

(** ** What a client reads *)

(** [n] address records of the question's name, and nothing after them. *)
Fixpoint read_answers (n : nat) (l : list Z) : option (list Z) :=
  match n with
  | O => if bool_decide (l = []) then Some [] else None
  | S n =>
      if bool_decide (take 6 l = [0xC0; 0x0C; 0; 1; 0; 1]) && bool_decide (take 2 (drop 10 l) = [0; 4]) && (16 <=? length l)%nat
      then rest ← read_answers n (drop 16 l); Some (be_get (take 4 (drop 12 l)) :: rest)
      else None
  end.

(** The response to question [q] (RFC 1035): its identifier, its code and its
    addresses. *)
Definition read_reply (q msg : list Z) : option (Z * Z * list Z) :=
  let flags := be_get (take 2 (drop 2 msg)) in
  if Z.testbit flags 15 && (be_get (take 2 (drop 4 msg)) =? 1) && bool_decide (take (length q) (drop 12 msg) = q)
  then ips ← read_answers (Z.to_nat (be_get (take 2 (drop 6 msg)))) (drop (12 + length q) msg);
       Some (be_get (take 2 msg), Z.land flags 15, ips)
  else None.

Lemma be2 v : 0 <= v < 65536 -> be_get (be_put 2 v) = v.
Proof. intros Hv. rewrite be_get_put. change (256 ^ Z.of_nat 2) with 65536. by apply Z.mod_small. Qed.

Lemma be_put_2 v : exists a b, be_put 2 v = [a; b].
Proof. pose proof (length_be_put 2 v) as E. destruct (be_put 2 v) as [|a [|b [|]]]; try done. eauto. Qed.

Lemma be_put_4 v : exists a b c d, be_put 4 v = [a; b; c; d].
Proof. pose proof (length_be_put 4 v) as E. destruct (be_put 4 v) as [|a [|b [|c [|d [|]]]]]; try done. eauto. Qed.

Lemma read_buildResponse r id q qname qtype :
  0 <= id < 65536 -> (forall v, resolve r qname = Some (Addr4 v) -> 0 <= v < 2 ^ 32) ->
  read_reply q (buildResponse r id q qname qtype) =
  Some (id, (outcome r qname qtype).1, (outcome r qname qtype).2).
Proof.
  intros Hid Hr. unfold buildResponse.
  assert (exists rcode ips, outcome r qname qtype = (rcode, ips) /\ (rcode = 0 \/ rcode = 3) /\ (ips = [] \/ exists v, ips = [v] /\ 0 <= v < 2 ^ 32))
    as (rcode & ips & -> & Hc & Hips).
  { unfold outcome. destruct (resolve r qname) as [[|v|]|]; eauto 10. destruct (_ =? _); eauto 10. }
  cbn [fst snd]. destruct (be_put_2 id) as (i1 & i2 & Ei). pose proof (be2 id Hid) as Eid. rewrite Ei in *.
  unfold read_reply. destruct Hips as [->|(v & -> & Hv)].
  - rewrite app_nil_r. destruct Hc as [-> | ->]; cbn -[length Nat.add be_get];
      rewrite drop_0, take_ge, bool_decide_eq_true_2 by done; cbn [andb]; cbn [Nat.add];
      cbn -[length be_get]; rewrite drop_all; cbn -[be_get]; by rewrite Eid.
  - destruct (be_put_4 v) as (a & b & c & d & Ev). assert (be_get [a; b; c; d] = v) as Eg
      by (rewrite <- Ev, be_get_put; by apply Z.mod_small).
    rewrite bind_cons, app_nil_r, Ev.
    change (buildARecord [a; b; c; d]) with [0xC0; 0x0C; 0; 1; 0; 1; 0; 0; 0; 30; 0; 4; a; b; c; d].
    change (be_put 2 (Z.of_nat (length [v]))) with [0; 1]. change (be_put 2 1) with [0; 1]. change (be_put 2 0) with [0; 0].
    destruct Hc as [-> | ->]; [change (be_put 2 (Z.lor 0x8400 0)) with [0x84; 0]|change (be_put 2 (Z.lor 0x8400 3)) with [0x84; 3]];
      cbn [app firstn skipn Nat.add]; rewrite drop_0, take_app_length, drop_app_length, Eid, bool_decide_eq_true_2 by done; change (be_get [0; 1]) with 1;
      [change (be_get [0x84; 0]) with 0x8400|change (be_get [0x84; 3]) with 0x8403];
      change (Z.to_nat 1) with 1%nat; cbn -[be_get]; by rewrite Eg.
Qed.

Lemma handle_query r id flags qdcount counts labels qtype qclass rest :
  standard id flags qdcount counts -> Forall label_ok labels -> 0 <= qtype < 65536 ->
  let q := question labels qtype qclass in
  handle r (query id flags qdcount counts q rest) = Some (buildResponse r id q (join labels ++ [dot]) qtype).
Proof.
  intros (Hid & Hf & Hqr & Hop & Hqd & Hc) Hl Hq q. unfold handle. cbv zeta.
  set (pre := be_put 2 id ++ be_put 2 flags ++ be_put 2 qdcount ++ counts).
  assert (query id flags qdcount counts q rest = pre ++ q ++ rest) as Eq by (unfold query, pre; by rewrite <- !app_assoc).
  assert (length pre = 12%nat) as Lp by (unfold pre; rewrite !length_app, !length_be_put; lia).
  rewrite (proj2 (Nat.ltb_ge _ _)) by (rewrite Eq, length_app; lia).
  assert (be_get (take 2 (query id flags qdcount counts q rest)) = id) as ->
    by (unfold query; rewrite take_app_length' by (by rewrite length_be_put); by apply be2).
  assert (be_get (take 2 (drop 2 (query id flags qdcount counts q rest))) = flags) as ->
    by (unfold query; rewrite drop_app_length', take_app_length' by (by rewrite length_be_put); by apply be2).
  assert (be_get (take 2 (drop 4 (query id flags qdcount counts q rest))) = qdcount) as ->.
  { unfold query. rewrite (app_assoc (be_put 2 id)), drop_app_length' by (by rewrite length_app, !length_be_put).
    rewrite take_app_length' by (by rewrite length_be_put). apply be2. lia. }
  rewrite Hqr, Hop, (proj2 (Z.eqb_neq qdcount 0)) by lia. cbn [Z.eqb negb orb]. rewrite Eq, <- Lp.
  unfold q. rewrite parseQuestion_query by done. fold q. rewrite bind_Some_eq. cbn [fst snd].
  rewrite Nat.add_comm, Nat.add_sub, drop_app_length, take_app_length. done.
Qed.

(** What the daemon's table holds for a name is the address of a peer with that
    name, in any case. *)
Lemma peer_lookup_sound t host a : PeerTable.table_ok t -> peer_lookup t host = Some a ->
  exists id p e, PeerTable.byID t !! id = Some p /\ PeerTable.entries t !! p = Some e /\
    to_lower (PeerTable.Name e) = to_lower (Strings.string_of_bytes host) /\ PeerTable.VPNAddr e = a.
Proof.
  intros Ht Hl. unfold peer_lookup, PeerTable.LookupByName in Hl.
  destruct (PeerTable.byName t !! _) as [p|] eqn:En; [|done]. rewrite bind_Some_eq in Hl.
  destruct (PeerTable.entries t !! p) as [e|] eqn:Ee; [|done]. injection Hl as <-.
  destruct (PeerTable.tk_name _ Ht _ _ En) as (_ & e' & Ee' & Hk & Hid). exists (PeerTable.ID e'), p, e'. naive_solver.
Qed.

(** C33: A standard query for [host] in the daemon's domain is answered under its
    own identifier and question: with the VPN address of the peer of that name
    when it asks for an IPv4 address, with no address when it asks for another
    type, and as a name that does not exist when no peer has the name.  The
    address is that of a peer of the table with the name, in any case. *)
Theorem peer_query_answered d t id flags qdcount counts host dom qtype qclass rest :
  PeerTable.table_ok t ->
  (forall p e v, PeerTable.entries t !! p = Some e -> PeerTable.VPNAddr e = Addr4 v -> 0 <= v < 2 ^ 32) ->
  standard id flags qdcount counts -> Forall label_ok (host :: dom) -> 0 <= qtype < 65536 ->
  dom <> [] -> lower (join dom) = domain (daemon_resolver d t) ->
  let q := question (host :: dom) qtype qclass in
  (exists resp, handle (daemon_resolver d t) (query id flags qdcount counts q rest) = Some resp /\
     read_reply q resp =
       Some match peer_lookup t host with
            | None => (id, 3, [])
            | Some (Addr4 v) => (id, 0, if qtype =? dnsTypeA then [v] else [])
            | Some _ => (id, 0, [])
            end) /\
  (forall a, peer_lookup t host = Some a -> exists pid p e, PeerTable.byID t !! pid = Some p /\ PeerTable.entries t !! p = Some e /\
     to_lower (PeerTable.Name e) = to_lower (Strings.string_of_bytes host) /\ PeerTable.VPNAddr e = a).
Proof.
  intros Ht Hv Hs Hl Hq Hd Ed q. split; [|intros a; by apply peer_lookup_sound].
  assert (bytes_ok host /\ host <> []) as [Hb Hh].
  { apply Forall_cons in Hl as [[Hb Hlen] _]. split; [done|]. by destruct host; [cbn in Hlen; lia|]. }
  assert (resolve (daemon_resolver d t) (join (host :: dom) ++ [dot]) = peer_lookup t host) as Er
    by (rewrite resolve_host by done; cbn [static daemon_resolver New lookup]; by rewrite lookup_empty, peer_lookup_lower).
  eexists. split; [by apply handle_query|]. rewrite read_buildResponse.
  - unfold outcome. rewrite Er. by destruct (peer_lookup t host) as [[|v|]|].
  - by destruct Hs.
  - intros v. rewrite Er. unfold peer_lookup. destruct (PeerTable.LookupByName _ t) as [p|]; [|done]. rewrite bind_Some_eq.
    destruct (PeerTable.entries t !! p) as [e|] eqn:Ee; [|done]. intros [= E]. by apply (Hv p e).
Qed.

(** *** Asking for alice *)
Definition demo_labels : list (list Z) := [bytes_of_string "Alice"; bytes_of_string "VELD"].
Definition demo_q : list Z := question demo_labels 1 1.
Definition demo_query : list Z := query 0x1234 0x0100 1 (zeros 6) demo_q [].
Definition demo_resolver : Resolver := daemon_resolver [] PeerTable.demo_t2.

Lemma demo_query_ok :
  standard 0x1234 0x0100 1 (zeros 6) /\ Forall label_ok demo_labels /\
  (forall p e v, PeerTable.entries PeerTable.demo_t2 !! p = Some e -> PeerTable.VPNAddr e = Addr4 v -> 0 <= v < 2 ^ 32).
Proof.
  split_and!.
  - repeat split; try lia; vm_compute; reflexivity.
  - apply Forall_cons. split; [|apply Forall_singleton]; (split; [apply bytes_of_string_ok|vm_compute; lia]).
  - assert (forallb (fun x => match PeerTable.VPNAddr x.2 with Addr4 v => (0 <=? v) && (v <? 2 ^ 32) | _ => true end)
      (map_to_list (PeerTable.entries PeerTable.demo_t2)) = true) as Hall by (vm_compute; reflexivity).
    intros p e v Hp Hv. rewrite forallb_forall in Hall. apply elem_of_map_to_list, list_elem_of_In in Hp. specialize (Hall _ Hp). cbn [snd] in Hall.
    rewrite Hv in Hall. apply andb_true_iff in Hall as [H1 H2]. bool_to_prop. done.
Qed.

Lemma peer_query_answered_witness :
  exists resp, handle demo_resolver demo_query = Some resp /\ read_reply demo_q resp = Some (0x1234, 0, [0x0A000001]).
Proof.
  destruct (peer_query_answered [] PeerTable.demo_t2 0x1234 0x0100 1 (zeros 6) (bytes_of_string "Alice") [bytes_of_string "VELD"] 1 1 []
    PeerTable.demo_t2_ok (proj2 (proj2 demo_query_ok)) (proj1 demo_query_ok) (proj1 (proj2 demo_query_ok)))
    as [(resp & H1 & H2) _]; [lia|discriminate|vm_compute; reflexivity|].
  exists resp. split; [exact H1|]. refine (eq_trans H2 _). vm_compute. reflexivity.
Defined.

(** A name of no peer, another type, and a datagram that is no query. *)
Example demo_answers :
  (handle demo_resolver (query 7 0 1 (zeros 6) (question [bytes_of_string "carol"; bytes_of_string "veld"] 1 1) []) ≫=
     read_reply (question [bytes_of_string "carol"; bytes_of_string "veld"] 1 1)) = Some (7, 3, []) /\
  (handle demo_resolver (query 7 0 1 (zeros 6) (question demo_labels 28 1) []) ≫= read_reply (question demo_labels 28 1)) = Some (7, 0, []) /\
  handle demo_resolver (query 7 0x8000 1 (zeros 6) demo_q []) = None.
Proof. vm_compute. split_and!; reflexivity. Qed.

End Dns.
