(* ===== verification/CoordClient.v ===== *)
(** * The coordinator's client

    [CoordClient] models [src/internal/coord/client.go]: the requests a daemon
    signs and sends, what it does with the answers, and the peer table it keeps in
    step with the events of its stream.  The messages are those of [Server].  A
    request's answer is an argument, [None] when the call fails; a stream is the
    list of the events received before it ends.  The callbacks the daemon installs
    are the class [Hooks]: they run on the peer table, which the client shares with
    the rest of the daemon, and on the rest of the daemon's state.  Dialling, the
    random jitter of the retry delay and the timers are not modelled. *)
From Stdlib Require Import ZArith Lia.
From stdpp Require Import base numbers list gmap strings.
From S2P Require Import Prelude GoLib PeerTable AddrText Registry SignedMsg Bus Server Noise.

Module CoordClient.
Import Netip AddrText.
Abbreviation Table := PeerTable.Table.
Abbreviation Entry := PeerTable.Entry.
Abbreviation ptr := PeerTable.ptr.
Abbreviation unix := Registry.Registry.unix.

Definition retryMin : Z := 2 * 10 ^ 9.
Definition retryMax : Z := 60 * 10 ^ 9.

Record Config := {
  ServerAddr : string; NetworkID : string; Token : string; Identity : Noise.Identity; LocalName : string;
  Endpoint : string; SubnetRoutes : list string; TLSInsecure : bool
}.

(** Which callbacks are set. *)
Record Callbacks := {
  hasOnPeerAdded : bool; hasOnPeerRemoved : bool; hasOnSignal : bool; hasOnRouteUpdate : bool; hasOnVPNAddrAssigned : bool
}.

Inductive callback :=
| OnPeerAdded (e : ptr)
| OnPeerRemoved (id : list Z)
| OnSignal (fromPeerID : string) (payload : list Z)
| OnRouteUpdate (peerID : list Z) (routes : list Prefix)
| OnVPNAddrAssigned (vpnAddr : Addr) (networkCIDR : string).

(** The functions behind the callbacks: they see the table as it is when they are
    called and may change it.  [QuietHooks] is what the client relies on: they do
    not change who the peers are. *)
Class Hooks (W : Type) := run_hook : callback -> Table -> W -> Table * W.

(** [gc] is whether the connection is set; [PeerTable] is shared with the rest of
    the daemon. *)
Record Client := {
  cfg : Config; vpnAddr : Addr; peerID : string; networkCidr : string; lastTS : Z; gc : bool;
  peerTable : Table; hooks : Callbacks
}.

Definition New (config : Config) (t : Table) (h : Callbacks) : Client :=
  {| cfg := config; vpnAddr := AddrZero; peerID := ""; networkCidr := ""; lastTS := 0; gc := false; peerTable := t; hooks := h |}.

Definition with_table (t : Table) (c : Client) : Client :=
  {| cfg := cfg c; vpnAddr := vpnAddr c; peerID := peerID c; networkCidr := networkCidr c; lastTS := lastTS c; gc := gc c;
     peerTable := t; hooks := hooks c |}.
Definition with_lastTS (ts : Z) (c : Client) : Client :=
  {| cfg := cfg c; vpnAddr := vpnAddr c; peerID := peerID c; networkCidr := networkCidr c; lastTS := ts; gc := gc c;
     peerTable := peerTable c; hooks := hooks c |}.
Definition with_gc (b : bool) (c : Client) : Client :=
  {| cfg := cfg c; vpnAddr := vpnAddr c; peerID := peerID c; networkCidr := networkCidr c; lastTS := lastTS c; gc := b;
     peerTable := peerTable c; hooks := hooks c |}.
Definition with_place (a : Addr) (id cidr : string) (c : Client) : Client :=
  {| cfg := cfg c; vpnAddr := a; peerID := id; networkCidr := cidr; lastTS := lastTS c; gc := gc c;
     peerTable := peerTable c; hooks := hooks c |}.

(** ** Events *)
Inductive EventType := JOIN | LEAVE | ENDPOINT_UPDATE | ROUTE_UPDATE | SIGNAL | OTHER (n : Z).
Record PeerEvent := { Type_ : EventType; ev_Peer : option Server.Server.Peer; ev_Signal : option (string * list Z) }.

(** The wire form of the events the server sends. *)
Definition wire (ev : Server.Server.PeerEvent) : PeerEvent :=
  match ev with
  | Server.Server.EvJoin p => {| Type_ := JOIN; ev_Peer := Some p; ev_Signal := None |}
  | Server.Server.EvLeave p => {| Type_ := LEAVE; ev_Peer := Some p; ev_Signal := None |}
  | Server.Server.EvSignal from payload => {| Type_ := SIGNAL; ev_Peer := None; ev_Signal := Some (from, payload) |}
  end.

Definition hexToID (s : string) : option (list Z) :=
  b ← Hex.DecodeString s; if (length b =? 32)%nat then Some b else None.

(** The routes that parse. *)
Definition parse_routes (l : list string) : list Prefix := omap ParsePrefix l.

Definition peerFromProto (p : Server.Server.Peer) : option Entry :=
  id ← Server.Server.decode_key (Server.Server.v_Ed25519Public p);
  x25519 ← Server.Server.decode_key (Server.Server.v_X25519Public p);
  a ← ParseAddr (Server.Server.VpnAddr p);
  let e := {| PeerTable.ID := id; PeerTable.X25519Pub := x25519; PeerTable.VPNAddr := a; PeerTable.Name := Server.Server.Name p;
              PeerTable.SubnetRoutes := parse_routes (Server.Server.v_SubnetRoutes p); PeerTable.endpoint := ap_zero;
              PeerTable.session := None; PeerTable.pendingSession := None; PeerTable.prevSession := None;
              PeerTable.state := PeerTable.StatePending; PeerTable.lastSeen := 0; PeerTable.holdQueue := [] |} in
  Some (if String.eqb (Server.Server.v_Endpoint p) "" then e
        else match ParseAddrPort (Server.Server.v_Endpoint p) with
             | Some ep => PeerTable.SetEndpoint ep e
             | None => e
             end).

(** A new entry and [Upsert] of it. *)
Definition fresh_ptr (t : Table) : ptr := fresh (dom (PeerTable.entries t) : gset nat).
Definition upsert_new (e : Entry) (t : Table) : ptr * (bool * Table) :=
  let p := fresh_ptr t in
  (p, PeerTable.Upsert p (PeerTable.with_entries (<[p := e]> (PeerTable.entries t)) t)).

Section Events.
Context {W : Type} `{Hooks W}.

(** A callback is called when it is set. *)
Definition call (set : bool) (cb : callback) (x : Client * W) : Client * W :=
  if set then let '(t, w) := run_hook cb (peerTable x.1) x.2 in (with_table t x.1, w) else x.

Definition handleEvent (ev : PeerEvent) (myID : string) (x : Client * W) : Client * W :=
  let '(c, w) := x in
  match Type_ ev with
  | SIGNAL =>
      match ev_Signal ev with Some (from, payload) => call (hasOnSignal (hooks c)) (OnSignal from payload) x | None => x end
  | ty =>
      match ev_Peer ev with
      | None => x
      | Some p =>
          if String.eqb (Server.Server.Id p) myID then x
          else
            match ty with
            | JOIN =>
                match peerFromProto p with
                | None => x
                | Some e =>
                    let '(q, (ok, t)) := upsert_new e (peerTable c) in
                    if ok then call (hasOnPeerAdded (hooks c)) (OnPeerAdded q) (with_table t c, w) else (with_table t c, w)
                end
            | ENDPOINT_UPDATE =>
                if String.eqb (Server.Server.v_Endpoint p) "" then x
                else match ParseAddrPort (Server.Server.v_Endpoint p), hexToID (Server.Server.Id p) with
                     | Some ep, Some id => (with_table (PeerTable.UpdateEndpoint id ep (peerTable c)).2 c, w)
                     | _, _ => x
                     end
            | LEAVE =>
                match hexToID (Server.Server.Id p) with
                | None => x
                | Some id =>
                    let '(c, w) := call (hasOnPeerRemoved (hooks c)) (OnPeerRemoved id) (c, w) in
                    (with_table (PeerTable.Remove id (peerTable c)) c, w)
                end
            | ROUTE_UPDATE =>
                match hexToID (Server.Server.Id p) with
                | None => x
                | Some id => call (hasOnRouteUpdate (hooks c)) (OnRouteUpdate id (parse_routes (Server.Server.v_SubnetRoutes p))) x
                end
            | SIGNAL | OTHER _ => x
            end
      end
  end.

Fixpoint handleEvents (evs : list PeerEvent) (myID : string) (x : Client * W) : Client * W :=
  match evs with
  | [] => x
  | ev :: evs' => handleEvents evs' myID (handleEvent ev myID x)
  end.

End Events.

(** ** Requests *)
Definition nextTimestamp (now : Z) (c : Client) : Z * Client :=
  let ts := if unix now <=? lastTS c then i64 (lastTS c + 1) else unix now in
  (ts, with_lastTS ts c).

Section Requests.
Variable sha256 : list Z -> list Z.
Variable sign : list Z -> list Z -> list Z.
Context {W : Type} `{Hooks W}.

Definition priv (c : Client) : list Z := Noise.Ed25519Private (Identity (cfg c)).

Definition register_request (c : Client) (ts : Z) : Server.Server.RegisterRequest :=
  let ed25519B64 := Base64.EncodeToString (Noise.Ed25519Public (Identity (cfg c))) in
  let x25519B64 := Base64.EncodeToString (Noise.X25519Public (Identity (cfg c))) in
  {| Server.Server.rq_NetworkId := NetworkID (cfg c); Server.Server.rq_Token := Token (cfg c);
     Server.Server.rq_Name := LocalName (cfg c); Server.Server.rq_Ed25519Public := ed25519B64;
     Server.Server.rq_X25519Public := x25519B64; Server.Server.rq_Endpoint := Endpoint (cfg c);
     Server.Server.rq_SubnetRoutes := SubnetRoutes (cfg c); Server.Server.rq_TimestampUnix := ts;
     Server.Server.rq_Signature := SignedMsg.SignedMsg.SignRegister sign (priv c)
       {| SignedMsg.SignedMsg.NetworkID := NetworkID (cfg c); SignedMsg.SignedMsg.Name := LocalName (cfg c);
          SignedMsg.SignedMsg.Ed25519Public := ed25519B64; SignedMsg.SignedMsg.X25519Public := x25519B64;
          SignedMsg.SignedMsg.Endpoint := Endpoint (cfg c); SignedMsg.SignedMsg.SubnetRoutes := SubnetRoutes (cfg c);
          SignedMsg.SignedMsg.r_TimestampUnix := ts |} |}.

Definition watch_request (c : Client) (id : string) (ts : Z) : Server.Server.WatchRequest :=
  {| Server.Server.wr_Token := Token (cfg c); Server.Server.wr_NetworkId := NetworkID (cfg c);
     Server.Server.wr_PeerId := id; Server.Server.wr_TimestampUnix := ts;
     Server.Server.wr_Signature := SignedMsg.SignedMsg.SignCall sign (priv c)
       (SignedMsg.SignedMsg.WatchClaims id (NetworkID (cfg c)) ts) |}.

(** [SendSignal]: the request sent, [None] when not connected. *)
Definition SendSignal (now : Z) (toPeerID : string) (payload : list Z) (c : Client) : option Server.Server.SendSignalRequest :=
  if gc c then
    let ts := unix now in
    Some {| Server.Server.sr_Token := Token (cfg c); Server.Server.sr_FromPeerId := peerID c; Server.Server.sr_ToPeerId := toPeerID;
            Server.Server.sr_Payload := payload; Server.Server.sr_TimestampUnix := ts;
            Server.Server.sr_Signature := SignedMsg.SignedMsg.SignCall sign (priv c)
              (SignedMsg.SignedMsg.SendSignalClaims sha256 (peerID c) toPeerID payload ts) |}
  else None.

Definition sendLeave (now : Z) (c : Client) : Client * option Server.Server.LeaveRequest :=
  if String.eqb (peerID c) "" then (c, None)
  else
    let '(ts, c) := nextTimestamp now c in
    (c, Some {| Server.Server.lv_Token := Token (cfg c); Server.Server.lv_PeerId := peerID c; Server.Server.lv_TimestampUnix := ts;
                Server.Server.lv_Signature := SignedMsg.SignedMsg.SignCall sign (priv c)
                  (SignedMsg.SignedMsg.LeaveClaims (peerID c) ts) |}).

(** ** The connection loop *)

(** How a cycle ends: the context was cancelled, or an error to retry after. *)
Inductive cycle_end := Cancelled | Retry.
Definition failed (cancelled : bool) : cycle_end := if cancelled then Cancelled else Retry.

(** What the outside does in one cycle: the clock readings, the answers, and
    whether the context is cancelled when an error is met. *)
Record round := {
  r_clock : nat -> Z;
  r_register : Server.Server.RegisterRequest -> option Server.Server.RegisterResponse;
  r_watch : Server.Server.WatchRequest -> option (list PeerEvent);
  r_cancelled : bool
}.

Definition registerAndWatch (o : round) (x : Client * W) : Client * W * cycle_end :=
  let '(c, w) := x in
  let '(ts, c) := nextTimestamp (r_clock o 0%nat) c in
  match r_register o (register_request c ts) with
  | None => (c, w, failed (r_cancelled o))
  | Some resp =>
      match ParseAddr (Server.Server.rs_VpnAddr resp) with
      | None => (c, w, Retry)
      | Some a =>
          let c := with_place a (Server.Server.rs_PeerId resp) (Server.Server.rs_NetworkCidr resp) c in
          let '(c, w) := call (hasOnVPNAddrAssigned (hooks c)) (OnVPNAddrAssigned a (Server.Server.rs_NetworkCidr resp)) (c, w) in
          let '(ts, c) := nextTimestamp (r_clock o 1%nat) c in
          match r_watch o (watch_request c (Server.Server.rs_PeerId resp) ts) with
          | None => (c, w, failed (r_cancelled o))
          | Some evs => (handleEvents evs (Server.Server.rs_PeerId resp) (c, w), failed (r_cancelled o))
          end
      end
  end.

Definition next_backoff (backoff : Z) : Z :=
  if backoff <? retryMax then (if retryMax <? backoff * 2 then retryMax else backoff * 2) else backoff.

(** [run] after the connection is made: cycles until one ends with the context
    cancelled, or the context is cancelled while waiting (the rounds are over);
    the upper bounds of the waits; then the farewell. *)
Fixpoint cycles (rounds : list round) (backoff : Z) (x : Client * W) : Client * W * list Z :=
  match rounds with
  | [] => (x, [])
  | o :: rounds' =>
      let '(x, e) := registerAndWatch o x in
      match e with
      | Cancelled => (x, [])
      | Retry =>
          let '(x, waits) := cycles rounds' (next_backoff backoff) x in
          (x, backoff :: waits)
      end
  end.

Definition run (rounds : list round) (leave_now : Z) (c : Client) (w : W)
    : Client * W * list Z * option Server.Server.LeaveRequest :=
  let '((c, w), waits) := cycles rounds retryMin (with_gc true c, w) in
  let '(c, leave) := sendLeave leave_now c in
  (with_gc false c, w, waits, leave).

End Requests.

(** ** The table follows the events *)

(** What identifies a peer: its X25519 key, its address and its routes; the
    endpoint and the sessions change without the coordinator. *)
Definition card : Type := list Z * Addr * list Prefix.
Definition card_of (e : Entry) : card := (PeerTable.X25519Pub e, PeerTable.VPNAddr e, PeerTable.SubnetRoutes e).
Definition known (t : Table) (id : list Z) : option card :=
  p ← PeerTable.byID t !! id; card_of <$> PeerTable.entries t !! p.

(** Callbacks that do not change who the peers are. *)
Class QuietHooks (W : Type) `{Hooks W} := quiet cb t w :
  PeerTable.table_ok t -> PeerTable.table_ok (run_hook cb t w).1 /\ forall id, known (run_hook cb t w).1 id = known t id.

(** A client that only records its callbacks. *)
#[export] Instance log_hooks : Hooks (list callback) := fun cb t l => (t, l ++ [cb]).
#[export] Instance log_quiet : QuietHooks (list callback).
Proof. by intros cb t l Ht. Qed.

(** A membership: the peers by key. *)
Definition members : Type := list Z -> option card.
Definition upd (id : list Z) (o : option card) (f : members) : members := fun id' => if decide (id' = id) then o else f id'.
Definition msg_card (m : Server.Server.Peer) : option (list Z * card) :=
  e ← peerFromProto m; Some (PeerTable.ID e, card_of e).

Definition follow (self : string) (f : members) (ev : Server.Server.PeerEvent) : members :=
  match ev with
  | Server.Server.EvJoin m =>
      if String.eqb (Server.Server.Id m) self then f
      else match msg_card m with Some (id, c) => upd id (Some c) f | None => f end
  | Server.Server.EvLeave m =>
      if String.eqb (Server.Server.Id m) self then f
      else match hexToID (Server.Server.Id m) with Some id => upd id None f | None => f end
  | Server.Server.EvSignal _ _ => f
  end.

(** No two members share an address. *)
Definition distinct (f : members) : Prop :=
  forall id1 id2 c1 c2, f id1 = Some c1 -> f id2 = Some c2 -> c1.1.2 = c2.1.2 -> id1 = id2.

Record tracks (t : Table) (f : members) : Prop := {
  tr_ok : PeerTable.table_ok t;
  tr_known : forall id, known t id = f id
}.

Lemma fresh_ptr_None t : PeerTable.entries t !! fresh_ptr t = None.
Proof. apply (not_elem_of_dom (D := gset nat)). unfold fresh_ptr. apply is_fresh. Qed.

(** A new entry is stored, unless its address belongs to another peer. *)
Lemma upsert_new_spec t e :
  PeerTable.table_ok t ->
  exists ok t', (upsert_new e t).2 = (ok, t') /\ PeerTable.table_ok t' /\
    (forall id, known t' id = if ok then upd (PeerTable.ID e) (Some (card_of e)) (known t) id else known t id) /\
    (ok = false <-> addr_valid (PeerTable.VPNAddr e) = true /\
       exists id x, known t id = Some x /\ x.1.2 = PeerTable.VPNAddr e /\ id <> PeerTable.ID e).
Proof.
  intros Ht. unfold upsert_new. cbn [snd]. set (p := fresh_ptr t). pose proof (fresh_ptr_None t) as Hp. fold p in Hp.
  set (t1 := PeerTable.with_entries _ t).
  assert (PeerTable.table_ok t1) as Ht1 by by apply PeerTable.new_entry_ok.
  pose proof (PeerTable.peer_step_ok _ _ (PeerTable.PS_upsert t1 p) Ht1) as Ht2.
  assert (PeerTable.entries t1 !! p = Some e) as He by apply lookup_insert_eq.
  assert (forall id q, PeerTable.byID t !! id = Some q -> q <> p) as Hq.
  { intros id q Hq ->. destruct (PeerTable.tk_id _ Ht _ _ Hq) as (e' & E & _). congruence. }
  assert (forall q, q <> p -> PeerTable.entries t1 !! q = PeerTable.entries t !! q) as Hent by (intros q Hne; by apply lookup_insert_ne).
  assert (forall id, known t1 id = known t id) as Hk1.
  { intros id. unfold known. cbn [PeerTable.byID PeerTable.with_entries t1]. destruct (PeerTable.byID t !! id) as [q|] eqn:E; [|done].
    rewrite !bind_Some_eq. by rewrite Hent by by eapply Hq. }
  set (taken := match PeerTable.byVPN t1 !! PeerTable.VPNAddr e with
                | Some owner => negb (bool_decide (PeerTable.id_of t1 owner = Some (PeerTable.ID e))) | None => false end).
  assert (addr_valid (PeerTable.VPNAddr e) && taken = true <-> addr_valid (PeerTable.VPNAddr e) = true /\
    exists id x, known t id = Some x /\ x.1.2 = PeerTable.VPNAddr e /\ id <> PeerTable.ID e) as Htaken.
  { rewrite andb_true_iff. unfold taken, PeerTable.id_of. split; (intros [Hv Hx]; split; [done|revert Hx]).
    - destruct (PeerTable.byVPN t1 !! _) as [q|] eqn:Ev; [|done]. destruct (PeerTable.tk_vpn _ Ht _ _ Ev) as (_ & e' & Ee' & Ea & Eid).
      rewrite Hent, Ee', negb_true_iff, bool_decide_eq_false by by eapply Hq. cbn. intros Hne. exists (PeerTable.ID e'), (card_of e').
      split_and!; [unfold known; by rewrite Eid, bind_Some_eq, Ee'|done|congruence].
    - intros (id & x & Hx & Ha & Hne). unfold known in Hx. apply bind_Some in Hx as (q & Eq & Hx).
      destruct (PeerTable.tk_id _ Ht _ _ Eq) as (e' & Ee' & Eid). rewrite Ee' in Hx. injection Hx as <-. cbn [card_of fst snd] in Ha.
      pose proof (PeerTable.tk_reach _ Ht _ _ _ Eq Ee') as Hr. rewrite Ha in Hr. change (PeerTable.byVPN t1) with (PeerTable.byVPN t). rewrite Hr by done.
      rewrite Hent, Ee', negb_true_iff, bool_decide_eq_false by by eapply Hq. cbn. congruence. }
  revert Ht2. unfold PeerTable.Upsert. rewrite He. fold taken. destruct (addr_valid _ && taken) eqn:Et; intros Ht2.
  { exists false, t1. split; [done|]. split; [done|]. split; [apply Hk1|]. split; [intros _; by apply Htaken|done]. }
  cbv zeta in *. match goal with |- context [PeerTable.entries ?x] =>
    assert (PeerTable.entries x = PeerTable.entries t1 /\ PeerTable.byID x = PeerTable.byID t1) as [E1 E2];
      [destruct (PeerTable.byID t1 !! PeerTable.ID e) as [old|]; [destruct (PeerTable.entries t1 !! old)|]; done|generalize dependent x; intros t2 Ht2 E1 E2] end.
  eexists true, _. split; [done|]. split; [exact Ht2|]. split.
  - intros id. unfold upd. rewrite <- Hk1. unfold known. cbn [PeerTable.byID PeerTable.entries]. rewrite E1, E2. case_decide as Hd.
    + subst id. by rewrite lookup_insert_eq, bind_Some_eq, He.
    + by rewrite lookup_insert_ne.
  - split; [done|]. intros Hx%Htaken. done.
Qed.

Lemma Remove_known id t : PeerTable.table_ok t ->
  PeerTable.table_ok (PeerTable.Remove id t) /\ forall id', known (PeerTable.Remove id t) id' = upd id None (known t) id'.
Proof.
  intros Ht. split; [by apply (PeerTable.peer_step_ok t), Ht; constructor|]. intros id'. unfold PeerTable.Remove, upd.
  destruct (PeerTable.byID t !! id) as [p|] eqn:E.
  - assert (forall t1, PeerTable.byID t1 = delete id (PeerTable.byID t) -> PeerTable.entries t1 = PeerTable.entries t ->
      known t1 id' = if decide (id' = id) then None else known t id') as Hk.
    { intros t1 E1 E2. unfold known. rewrite E1, E2. case_decide as Hd; [subst; by rewrite lookup_delete_eq|by rewrite lookup_delete_ne]. }
    by destruct (PeerTable.entries t !! p); apply Hk.
  - case_decide as Hd; [|done]. subst. unfold known. by rewrite E.
Qed.

Lemma peerFromProto_Some m e : peerFromProto m = Some e -> exists id x a,
  Server.Server.decode_key (Server.Server.v_Ed25519Public m) = Some id /\ Server.Server.decode_key (Server.Server.v_X25519Public m) = Some x /\
  ParseAddr (Server.Server.VpnAddr m) = Some a /\ PeerTable.ID e = id /\ card_of e = (x, a, parse_routes (Server.Server.v_SubnetRoutes m)).
Proof.
  unfold peerFromProto. destruct (Server.Server.decode_key (Server.Server.v_Ed25519Public m)) as [id|]; [|done]. rewrite bind_Some_eq.
  destruct (Server.Server.decode_key _) as [x|]; [|done]. rewrite bind_Some_eq. destruct (ParseAddr _) as [a|]; [|done]. rewrite bind_Some_eq.
  cbv zeta. intros [= <-]. exists id, x, a. destruct (String.eqb _ _); [by split_and!|]. by destruct (ParseAddrPort _).
Qed.

Section Follow.
Context {W : Type} `{QuietHooks W}.

Lemma call_quiet b cb x f : tracks (peerTable x.1) f -> tracks (peerTable (call b cb x).1) f.
Proof.
  intros [Ht Hk]. unfold call. destruct b; [|by split]. destruct (quiet cb (peerTable x.1) x.2 Ht) as [Ht' Hk'].
  destruct (run_hook _ _ _) as [t w]. cbn in *. split; [done|]. intros id. by rewrite <- Hk, <- Hk'.
Qed.

(** Handling an event of the server keeps the table equal to the membership the
    event leads to, as long as that gives no address twice. *)
Lemma handle_tracks ev self x f :
  tracks (peerTable x.1) f -> distinct (follow self f ev) ->
  tracks (peerTable (handleEvent (wire ev) self x).1) (follow self f ev).
Proof.
  destruct x as [c w]. intros [Ht Hk] Hd. cbn [fst] in *. destruct ev as [m|m|from payload]; cbn [wire handleEvent Type_ ev_Peer ev_Signal follow] in *.
  - destruct (String.eqb _ self); [by split|]. unfold msg_card in *. destruct (peerFromProto m) as [e|]; [|by split].
    rewrite bind_Some_eq in *. destruct (upsert_new_spec (peerTable c) e Ht) as (ok & t' & E & Ht' & Hk' & Hok).
    assert (ok = true) as ->.
    { apply not_false_iff_true. intros (_ & id & x & Hx & Ha & Hne)%Hok. apply Hne, (Hd _ _ x (card_of e)); [| |done].
      - unfold upd. by rewrite decide_False, <- Hk.
      - unfold upd. by rewrite decide_True. }
    destruct (upsert_new e (peerTable c)) as [q [ok t2]]. cbn in E. injection E as -> ->.
    apply call_quiet. split; [done|]. intros id. cbn. rewrite Hk'. unfold upd. by case_decide.
  - destruct (String.eqb _ self); [by split|]. destruct (hexToID _) as [id|]; [|by split].
    pose proof (call_quiet (hasOnPeerRemoved (hooks c)) (OnPeerRemoved id) (c, w) f ltac:(by split)) as [Ht1 Hk1].
    destruct (call _ _ _) as [c1 w1]. cbn [fst peerTable with_table] in *.
    destruct (Remove_known id _ Ht1) as [Ht' Hk']. split; [done|]. intros id'. rewrite Hk'. unfold upd. by case_decide.
  - apply call_quiet. by split.
Qed.

(** A JOIN changes the entry of the peer it names only, and not even that while
    another peer of the table holds the address. *)
Lemma join_known m self x :
  PeerTable.table_ok (peerTable x.1) ->
  let t' := peerTable (handleEvent (wire (Server.Server.EvJoin m)) self x).1 in
  PeerTable.table_ok t' /\
  forall id, known t' id = known (peerTable x.1) id \/
    exists cd, msg_card m = Some (id, cd) /\
      ~ (addr_valid cd.1.2 = true /\ exists id' y, known (peerTable x.1) id' = Some y /\ y.1.2 = cd.1.2 /\ id' <> id).
Proof.
  destruct x as [c w]. intros Ht. cbn [fst wire handleEvent Type_ ev_Peer] in *. destruct (String.eqb _ self); [by auto|]. unfold msg_card.
  destruct (peerFromProto m) as [e|]; [|by auto]. destruct (upsert_new_spec (peerTable c) e Ht) as (ok & t' & E & Ht' & Hk & Hok).
  destruct (upsert_new e (peerTable c)) as [q [ok' t2]]. cbn in E. injection E as -> ->.
  set (y := if ok then _ else _). assert (tracks (peerTable y.1) (known t')) as [Hy Hky].
  { unfold y. destruct ok; [apply call_quiet|]; by split. }
  split; [done|]. intros id. rewrite Hky, Hk. destruct ok; [|by left]. unfold upd. case_decide as Hd; [|by left]. subst id. right. rewrite bind_Some_eq.
  eexists. split; [done|]. cbn [card_of fst snd]. intros Hx%Hok. done.
Qed.

(** The identity, the callbacks and the requests of a client do not depend on the
    events it handles. *)
Lemma handleEvent_cfg ev self x : let c' := (handleEvent ev self x).1 in
  cfg c' = cfg x.1 /\ peerID c' = peerID x.1 /\ lastTS c' = lastTS x.1 /\ hooks c' = hooks x.1.
Proof.
  destruct x as [c w]. cbn [fst].
  assert (forall b cb y, let c' := (call b cb y).1 in cfg c' = cfg y.1 /\ peerID c' = peerID y.1 /\ lastTS c' = lastTS y.1 /\ hooks c' = hooks y.1) as Hcall.
  { intros b cb y. unfold call. destruct b; [|done]. by destruct (run_hook _ _ _). }
  unfold handleEvent. destruct (Type_ ev), (ev_Peer ev) as [p|]; try done; try destruct (String.eqb _ self); try done;
    repeat (case_match; try done); simplify_eq; try exact (Hcall _ _ (_, _)).
  match goal with E : call ?b ?cb ?y = (?c1, ?w1) |- _ => pose proof (Hcall b cb y) as Hc; rewrite E in Hc; exact Hc end.
Qed.

End Follow.

End CoordClient.
