(* ===== verification/Membership.v ===== *)
(** * The membership a daemon sees

    The coordinator ([Server]) and its client ([CoordClient]) together: the events
    of a watch stream keep the client's peer table equal to the network's part of
    the registry.  A run interleaves the operations of the server, for any
    clients, the delivery of the stream's events to the client in order, and
    changes of the table's endpoints and sessions by the rest of the daemon. *)
From Stdlib Require Import ZArith Lia.
From stdpp Require Import base numbers list gmap strings fin_maps.
From S2P Require Import Prelude GoLib PeerTable AddrText Registry SignedMsg Bus Server Noise CoordClient.

Module Membership.
Import Netip AddrText.
Import Registry.Registry Server.Server.
Import CoordClient.CoordClient (card, members, upd, msg_card, follow, distinct, tracks, known, card_of, peerFromProto,
  handle_tracks, join_known, handleEvent, handleEvents, wire, hexToID, peerFromProto_Some, peerTable, Client, with_table, parse_routes, Hooks, QuietHooks, log_hooks, log_quiet, callback).
#[local] Existing Instances log_hooks log_quiet.
Abbreviation queue_of := Bus.Bus.buf.

(** ** The channel of a stream *)
Section Channel.
Context {Ev : Type}.
Implicit Types b : Bus.Bus.Bus Ev.

Definition queue b (ch : nat) : list Ev := match Bus.Bus.evs b !! ch with Some c => Bus.Bus.buf c | None => [] end.
Definition subscribed b (net : string) (ch : nat) : Prop := ch ∈ Bus.Bus.subs_of (Bus.Bus.subscribers b) net.

Lemma offer_queue (v : Ev) h h' id ch : Bus.Bus.offer v h id = Some h' ->
  h' !! ch = if decide (id = ch)
             then (fun c => if (length (Bus.Bus.buf c) <? Bus.Bus.chanCap)%nat then Bus.Bus.Build_chan (Bus.Bus.buf c ++ [v]) false else c) <$> h !! ch
             else h !! ch.
Proof.
  unfold Bus.Bus.offer. destruct (h !! id) as [c|] eqn:E; [|done]. rewrite bind_Some_eq. destruct (Bus.Bus.closed c); [done|].
  destruct (decide (id = ch)) as [->|Hne].
  - rewrite E. cbn [fmap option_fmap option_map]. destruct (_ <? _)%nat; intros [= <-]; [by rewrite lookup_insert_eq|done].
  - destruct (_ <? _)%nat; intros [= <-]; [by rewrite lookup_insert_ne|done].
Qed.

Lemma each_offer_queue (v : Ev) l : forall h h' ch, NoDup l -> Bus.Bus.each (Bus.Bus.offer v) h l = Some h' ->
  h' !! ch = if decide (ch ∈ l)
             then (fun c => if (length (Bus.Bus.buf c) <? Bus.Bus.chanCap)%nat then Bus.Bus.Build_chan (Bus.Bus.buf c ++ [v]) false else c) <$> h !! ch
             else h !! ch.
Proof.
  induction l as [|id l IH]; intros h h' ch Hnd; cbn [Bus.Bus.each].
  { intros [= <-]. rewrite decide_False by apply not_elem_of_nil. done. }
  inversion_clear Hnd as [|? ? Hni Hnd']. destruct (Bus.Bus.offer v h id) as [h1|] eqn:E; [|done]. rewrite bind_Some_eq. intros Hr.
  rewrite (IH _ _ ch Hnd' Hr). rewrite (offer_queue _ _ _ _ ch E).
  destruct (decide (id = ch)) as [->|Hne].
  - rewrite (decide_False (P := ch ∈ l)), decide_True by (done || by left). done.
  - destruct (decide (ch ∈ l)) as [Hin|Hin]; [by rewrite decide_True by by right|].
    rewrite decide_False; [done|]. by intros [|]%elem_of_cons.
Qed.

Lemma subs_NoDup b net : Bus.Bus.bus_ok b -> NoDup (Bus.Bus.subs_of (Bus.Bus.subscribers b) net).
Proof.
  intros Hb. apply NoDup_alt. intros i j x Hi Hj. by destruct (Bus.Bus.li_uniq _ _ _ (Bus.Bus.bo_evs _ Hb) net net i j x Hi Hj).
Qed.

Lemma subscribed_unique b net net' ch : Bus.Bus.bus_ok b -> subscribed b net ch -> subscribed b net' ch -> net = net'.
Proof.
  intros Hb [i Hi]%list_elem_of_lookup [j Hj]%list_elem_of_lookup. by destruct (Bus.Bus.li_uniq _ _ _ (Bus.Bus.bo_evs _ Hb) net net' i j ch Hi Hj).
Qed.

(** Publishing appends to the channels of the network that have room. *)
Lemma Publish_queue net n ev b b' ch : Bus.Bus.bus_ok b -> subscribed b net ch -> Bus.Bus.Publish n ev b = Some b' ->
  subscribed b' net ch /\
  queue b' ch = if decide (n = net) then if (length (queue b ch) <? Bus.Bus.chanCap)%nat then queue b ch ++ [ev] else queue b ch else queue b ch.
Proof.
  intros Hb Hs. unfold Bus.Bus.Publish. destruct (Bus.Bus.each _ _ _) as [h|] eqn:E; [|done]. rewrite bind_Some_eq. intros [= <-].
  split; [done|]. unfold queue at 1. cbn [Bus.Bus.evs]. rewrite (each_offer_queue _ _ _ _ ch (subs_NoDup b n Hb) E).
  destruct (Bus.Bus.li_open _ _ _ (Bus.Bus.bo_evs _ Hb) net ch Hs) as (c & Ec & _). unfold queue. rewrite Ec.
  destruct (decide (n = net)) as [->|Hn]; [rewrite decide_True by done|rewrite decide_False].
  - cbn [fmap option_fmap option_map]. by case_match.
  - done.
  - intros Hin. apply Hn. by eapply subscribed_unique.
Qed.

(** The operations that concern signals, and those of other streams. *)
Definition same_feed b b' : Prop := Bus.Bus.subscribers b' = Bus.Bus.subscribers b /\ Bus.Bus.evs b' = Bus.Bus.evs b.

Lemma same_feed_queue b b' net ch : same_feed b b' -> (subscribed b' net ch <-> subscribed b net ch) /\ queue b' ch = queue b ch.
Proof. intros [E1 E2]. unfold subscribed, queue. by rewrite E1, E2. Qed.

Lemma deliver_feed m b b' : Bus.Bus.deliver m b = Some b' -> same_feed b b'.
Proof. unfold Bus.Bus.deliver. destruct (Bus.Bus.each _ _ _); [|done]. rewrite bind_Some_eq. by intros [= <-]. Qed.

Lemma SendSignal_feed from to payload hold now b b' : Bus.Bus.SendSignal from to payload hold now b = Some b' -> same_feed b b'.
Proof.
  unfold Bus.Bus.SendSignal, Bus.Bus.SendSignal_read, Bus.Bus.SendSignal_write. cbv zeta. case_bool_decide as E.
  - rewrite bind_Some_eq. destruct hold; [|by intros [= <-]]. rewrite bool_decide_eq_true_2 by done. intros [= <-].
    unfold Bus.Bus.holdLocked. cbv zeta. by case_match.
  - destruct (Bus.Bus.deliver _ b) as [b1|] eqn:Ed; [|done]. rewrite !bind_Some_eq. intros [= <-]. by eapply deliver_feed.
Qed.

Lemma SubscribeSignals_feed p now b c b' : Bus.Bus.SubscribeSignals p now b = Some (c, b') -> same_feed b b'.
Proof. unfold Bus.Bus.SubscribeSignals. cbv zeta. destruct (Bus.Bus.each _ _ _); [|done]. rewrite bind_Some_eq. by intros [= _ <-]. Qed.

Lemma UnsubscribeSignals_feed p c b b' : Bus.Bus.UnsubscribeSignals p c b = Some b' -> same_feed b b'.
Proof.
  unfold Bus.Bus.UnsubscribeSignals. destruct (Bus.Bus.remove_first _ _); [|by intros [= <-]].
  destruct (Bus.Bus.close _ _); [|done]. rewrite bind_Some_eq. by intros [= <-].
Qed.

Lemma Subscribe_queue n b net ch : Bus.Bus.bus_ok b -> subscribed b net ch ->
  subscribed (Bus.Bus.Subscribe n b).2 net ch /\ queue (Bus.Bus.Subscribe n b).2 ch = queue b ch.
Proof.
  intros Hb Hs. unfold Bus.Bus.Subscribe, subscribed, queue. cbn [snd Bus.Bus.subscribers Bus.Bus.evs]. split.
  - rewrite Bus.Bus.subs_of_insert. case_decide as E; [subst; apply elem_of_app; by left|done].
  - destruct (Bus.Bus.li_open _ _ _ (Bus.Bus.bo_evs _ Hb) net ch Hs) as (c & Ec & _).
    pose proof (Bus.Bus.li_fresh _ _ _ (Bus.Bus.bo_evs _ Hb) ch ltac:(by exists c)). by rewrite lookup_insert_ne by lia.
Qed.

Lemma Unsubscribe_queue n ch' b b' net ch : ch' <> ch -> subscribed b net ch -> Bus.Bus.Unsubscribe n ch' b = Some b' ->
  subscribed b' net ch /\ queue b' ch = queue b ch.
Proof.
  intros Hne Hs. unfold Bus.Bus.Unsubscribe. destruct (Bus.Bus.remove_first ch' _) as [l|] eqn:Er; [|by intros [= <-]].
  destruct (Bus.Bus.close _ _) as [h|] eqn:Ec; [|done]. rewrite bind_Some_eq. intros [= <-]. split.
  - unfold subscribed in *. cbn [Bus.Bus.subscribers]. rewrite Bus.Bus.subs_of_insert. case_decide as E; [|done]. subst n.
    apply Bus.Bus.remove_first_Some in Er as (i & Hi & ->). apply list_elem_of_lookup in Hs as [j Hj].
    assert (i <> j) by congruence. apply elem_of_app. destruct (decide (j < i)%nat).
    + left. apply (list_elem_of_lookup_2 _ j). rewrite lookup_take_lt; done.
    + right. apply (list_elem_of_lookup_2 _ (j - S i)). rewrite lookup_drop. rewrite <- Hj. f_equal. lia.
  - unfold queue. cbn [Bus.Bus.evs]. unfold Bus.Bus.close in Ec. destruct (Bus.Bus.evs b !! ch') as [c|]; [|done].
    rewrite bind_Some_eq in Ec. destruct (Bus.Bus.closed c); [done|]. injection Ec as <-. by rewrite lookup_insert_ne.
Qed.

Lemma receive_other {A} (h : Bus.Bus.chans A) c v h' ch : Bus.Bus.receive h c = Some (v, h') -> c <> ch -> h' !! ch = h !! ch.
Proof.
  unfold Bus.Bus.receive. destruct (h !! c) as [x|]; [|done]. rewrite bind_Some_eq.
  destruct (Bus.Bus.buf x); [destruct (Bus.Bus.closed x)|]; intros [= _ <-] Hne; try done. by rewrite lookup_insert_ne.
Qed.

End Channel.

(** ** Sequences of events between memberships *)
Fixpoint chain (self : string) (f : members) (evs : list PeerEvent) (g : members) : Prop :=
  distinct f /\
  match evs with
  | [] => forall id, f id = g id
  | ev :: evs' => chain self (follow self f ev) evs' g
  end.

Lemma follow_ext self f g ev : (forall id, f id = g id) -> forall id, follow self f ev id = follow self g ev id.
Proof.
  intros E id. destruct ev as [m|m|]; cbn [follow]; [| |done]; destruct (String.eqb _ _); try done.
  - destruct (msg_card m) as [[id' c]|]; [|done]. unfold upd. by case_decide.
  - destruct (hexToID _); [|done]. unfold upd. by case_decide.
Qed.

Lemma distinct_ext f g : (forall id, f id = g id) -> distinct f -> distinct g.
Proof. intros E Hd i1 i2 c1 c2. rewrite <- !E. apply Hd. Qed.

Lemma chain_ext self evs : forall f f' g g', (forall id, f id = f' id) -> (forall id, g id = g' id) -> chain self f evs g -> chain self f' evs g'.
Proof.
  induction evs as [|ev evs IH]; intros f f' g g' Ef Eg [Hd Hc]; (split; [by eapply distinct_ext|]).
  - intros id. rewrite <- Ef, <- Eg. apply Hc.
  - eapply IH; [by apply follow_ext|exact Eg|exact Hc].
Qed.

Lemma chain_app self evs1 : forall f g evs2 h, chain self f evs1 g -> chain self g evs2 h -> chain self f (evs1 ++ evs2) h.
Proof.
  induction evs1 as [|ev evs1 IH]; intros f g evs2 h [Hd Hc] H2; cbn [app].
  - by apply (chain_ext self evs2 g f h h).
  - split; [done|]. by eapply IH.
Qed.

Lemma chain_refl self f : distinct f -> chain self f [] f.
Proof. by split. Qed.

(** A client that handles the events goes from one membership to the other. *)
Lemma chain_tracks {W} `{QuietHooks W} self evs : forall f g (x : Client * W), chain self f evs g -> tracks (peerTable x.1) f ->
  tracks (peerTable (handleEvents (map wire evs) self x).1) g.
Proof.
  induction evs as [|ev evs IH]; intros f g x [Hd Hc] Ht; cbn [map handleEvents].
  - destruct Ht as [Ht Hk]. split; [done|]. intros id. by rewrite Hk.
  - eapply IH; [done|]. apply handle_tracks; [done|]. by destruct evs; destruct Hc.
Qed.

(** Part of a membership. *)
Definition part (f g : members) : Prop := forall id c, f id = Some c -> g id = Some c.
Lemma part_distinct f g : part f g -> distinct g -> distinct f.
Proof. intros Hp Hd i1 i2 c1 c2 H1 H2. apply Hd; by apply Hp. Qed.

(** Departures only shrink a membership. *)
Lemma chain_leaves self l : forall f, distinct f ->
  chain self f (map EvLeave l) (foldl (follow self) f (map EvLeave l)).
Proof.
  induction l as [|m l IH]; intros f Hd; cbn [map foldl chain]; [by split|]. split; [done|]. apply IH.
  eapply part_distinct; [|exact Hd]. intros id c. cbn [follow]. destruct (String.eqb _ _); [done|].
  destruct (hexToID _); [|done]. unfold upd. by case_decide.
Qed.

(** Whom [f] has, [g] has too, at the same address. *)
Definition fits (f g : members) : Prop := forall id c, f id = Some c -> exists c', g id = Some c' /\ c'.1.2 = c.1.2.
Lemma fits_distinct f g : fits f g -> distinct g -> distinct f.
Proof.
  intros Hp Hd i1 i2 c1 c2 H1 H2 E. destruct (Hp _ _ H1) as (d1 & G1 & E1), (Hp _ _ H2) as (d2 & G2 & E2).
  apply (Hd i1 i2 d1 d2 G1 G2). congruence.
Qed.

(** Joins of members of [g] build up to [g], and bring the old cards up to date. *)
Lemma chain_joins self l g : distinct g -> forall f, fits f g ->
  (forall m id c, m ∈ l -> Id m <> self -> msg_card m = Some (id, c) -> g id = Some c) ->
  (forall id c, g id = Some c -> f id = Some c \/ exists m, m ∈ l /\ Id m <> self /\ msg_card m = Some (id, c)) ->
  chain self f (map EvJoin l) g.
Proof.
  intros Hg. induction l as [|m l IH]; intros f Hp Hl Hall; cbn [map chain]; (split; [by eapply fits_distinct|]).
  - intros id. destruct (g id) as [c|] eqn:E.
    + by destruct (Hall id c E) as [|(m & Hm%elem_of_nil & _)].
    + destruct (f id) as [c|] eqn:Ef; [|done]. apply Hp in Ef as (c' & Hc' & _). congruence.
  - apply IH.
    + intros id c. cbn [follow]. destruct (String.eqb_spec (Id m) self) as [|Hne]; [apply Hp|].
      destruct (msg_card m) as [[id' c']|] eqn:Em; [|apply Hp]. unfold upd. case_decide as Hd; [|apply Hp].
      intros [= <-]. subst id. exists c'. split; [|done]. apply (Hl m); [by left|done..].
    + intros m' id c Hin. apply Hl. by right.
    + intros id c Hc. cbn [follow]. destruct (Hall id c Hc) as [Hf|(m' & [->|Hin]%elem_of_cons & Hns & Hm')].
      * left. destruct (String.eqb_spec (Id m) self) as [|Hne]; [done|]. destruct (msg_card m) as [[id' c']|] eqn:Em; [|done].
        unfold upd. case_decide as Hd; [|done]. subst id'. pose proof (Hl m id c' ltac:(by left) Hne Em). congruence.
      * left. destruct (String.eqb_spec (Id m) self); [done|]. rewrite Hm'. unfold upd. by rewrite decide_True.
      * right. eauto.
Qed.

(** ** The membership in the registry *)
Section Registry_members.
Context {M : Type -> Type} `{FMap M, forall A, Lookup string A (M A), forall A, Empty (M A),
  forall A, PartialAlter string A (M A), OMap M, Merge M, forall A, MapFold string A (M A), !FinMap string M}.
Implicit Types r : Registry M.

(** The peers of [net] but [self] whose keys and address can be read. *)
Definition registry_members (net self : string) r : members := fun id =>
  match peers (db r) !! Hex.EncodeToString id with
  | Some (Decodable p) =>
      if decide (NetworkID p = net /\ pID p <> self)
      then match msg_card (peer_msg p) with
           | Some (id', c) => if decide (id' = id) then Some c else None
           | None => None
           end
      else None
  | _ => None
  end.

Lemma members_Some net self r id c :
  registry_members net self r id = Some c <->
  exists p, peer_at (db r) (Hex.EncodeToString id) p /\ NetworkID p = net /\ pID p <> self /\ msg_card (peer_msg p) = Some (id, c).
Proof.
  unfold registry_members, peer_at. destruct (peers (db r) !! _) as [[p|]|]; [|naive_solver..]. case_decide as Hd; [|naive_solver].
  destruct (msg_card (peer_msg p)) as [[id' c']|] eqn:E; [|naive_solver]. case_decide as He; naive_solver.
Qed.

Lemma msg_card_eq m : msg_card m =
  (id ← decode_key (v_Ed25519Public m); x ← decode_key (v_X25519Public m); a ← ParseAddr (VpnAddr m);
   Some (id, (x, a, parse_routes (v_SubnetRoutes m)))).
Proof.
  unfold msg_card. destruct (peerFromProto m) as [e|] eqn:E.
  - apply peerFromProto_Some in E as (id & x & a & -> & -> & -> & <- & Ec). rewrite !bind_Some_eq. by rewrite Ec.
  - unfold peerFromProto in E. destruct (decode_key (v_Ed25519Public m)) as [id|]; [|done]. rewrite bind_Some_eq in E. rewrite bind_Some_eq.
    destruct (decode_key (v_X25519Public m)) as [x|]; [|done]. rewrite bind_Some_eq in E. rewrite bind_Some_eq. by destruct (ParseAddr (VpnAddr m)).
Qed.

Lemma msg_card_key m id c : msg_card m = Some (id, c) -> decode_key (v_Ed25519Public m) = Some id.
Proof.
  rewrite msg_card_eq. intros (i & Hi & Hc)%bind_Some. apply bind_Some in Hc as (? & _ & Hc). apply bind_Some in Hc as (? & _ & Hc).
  by injection Hc as -> _.
Qed.

Lemma decode_key_ok s key : decode_key s = Some key -> bytes_ok key /\ length key = 32%nat.
Proof.
  unfold decode_key. destruct (Base64.DecodeString s) as [b|] eqn:E; [|done]. rewrite bind_Some_eq.
  destruct (length b =? 32)%nat eqn:El; [|done]. intros [= <-]. split; [by eapply Base64.DecodeString_bytes|by apply Nat.eqb_eq].
Qed.

Lemma hexToID_key s key : decode_key s = Some key -> hexToID (Hex.EncodeToString key) = Some key.
Proof.
  intros [Hb Hl]%decode_key_ok. unfold hexToID. rewrite Hex.Decode_EncodeToString, bind_Some_eq by done. by rewrite Hl.
Qed.

(** The card of a row is filed under the key the row is stored under. *)
Lemma row_card_key r k p id c : keys_ok r -> peer_at (db r) k p -> msg_card (peer_msg p) = Some (id, c) -> k = Hex.EncodeToString id.
Proof.
  intros Hk Hp E%msg_card_key. destruct (Hk _ _ Hp) as (key & Ekey & ->). cbn [v_Ed25519Public peer_msg] in E. congruence.
Qed.

(** The address text of a row is that of its address. *)
Lemma row_addr r k p : inv r -> peer_at (db r) k p -> exists a, VPNAddr p = addr_string a /\ ParseAddr (VPNAddr p) = Some a.
Proof.
  intros [I _] Hp. destruct (ib_peer _ _ _ I Hp) as (_ & _ & _ & n & _ & (c & a & _ & Hc & Ha & E) & _).
  exists a. split; [done|]. rewrite E. apply ParseAddr_String. by eapply hosts4_ok.
Qed.

Lemma row_addr_valid r k p a : inv r -> peer_at (db r) k p -> ParseAddr (VPNAddr p) = Some a -> addr_valid a = true.
Proof.
  intros [I _] Hp. destruct (ib_peer _ _ _ I Hp) as (_ & _ & _ & n & _ & (c & a' & _ & Hc & Ha & ->) & _).
  rewrite ParseAddr_String by by eapply hosts4_ok. intros [= <-]. apply hosts4_valid in Ha. by destruct a'.
Qed.

Lemma members_distinct net self r : inv r -> distinct (registry_members net self r).
Proof.
  intros Hi i1 i2 c1 c2 (p1 & Hp1 & N1 & _ & E1)%members_Some (p2 & Hp2 & N2 & _ & E2)%members_Some Ea.
  assert (Hex.EncodeToString i1 = Hex.EncodeToString i2) as Ek.
  { apply (ib_addrs _ (proj1 Hi) _ _ p1 p2); [done..|congruence|].
    destruct (row_addr _ _ _ Hi Hp1) as (a1 & T1 & P1). destruct (row_addr _ _ _ Hi Hp2) as (a2 & T2 & P2). rewrite T1, T2. f_equal.
    rewrite msg_card_eq in E1, E2. cbn [VpnAddr peer_msg] in E1, E2. rewrite P1 in E1. rewrite P2 in E2.
    apply bind_Some in E1 as (? & _ & (? & _ & E1)%bind_Some). rewrite bind_Some_eq in E1.
    apply bind_Some in E2 as (? & _ & (? & _ & E2)%bind_Some). rewrite bind_Some_eq in E2. by simplify_eq. }
  unfold peer_at in *. rewrite Ek in Hp1. rewrite Hp1 in Hp2. injection Hp2 as <-. rewrite E1 in E2. by injection E2.
Qed.

(** Rows that differ only in what a card does not show. *)
Lemma members_same net self r r' :
  (forall k, peers (db r') !! k = peers (db r) !! k \/
     exists p p', peer_at (db r) k p /\ peer_at (db r') k p' /\ NetworkID p' = NetworkID p /\ pID p' = pID p /\
       msg_card (peer_msg p') = msg_card (peer_msg p)) ->
  forall id, registry_members net self r' id = registry_members net self r id.
Proof.
  intros Hrows id. unfold registry_members. destruct (Hrows (Hex.EncodeToString id)) as [->|(p & p' & -> & -> & -> & -> & ->)]; done.
Qed.

(** *** Registration *)
Lemma RegisterPeer_card io p nid limit r r' a :
  inv r -> RegisterPeer io p nid limit r = (r', Ok a) ->
  exists q, peer_at (db r') (pID p) q /\ pID q = pID p /\ NetworkID q = nid /\ X25519Public q = X25519Public p /\
    VPNAddr q = addr_string a /\ SubnetRoutes q = SubnetRoutes p /\
    (peers (db r) !! pID p = None \/ exists old, peer_at (db r) (pID p) old /\ NetworkID old = nid /\ X25519Public old = X25519Public p).
Proof.
  intros Hi. unfold RegisterPeer.
  destruct (write_cases io (register_tx (with_Endpoint "" p) nid limit) r) as [(d & b & _ & Ef & ->)|(e' & -> & _)]; [|done].
  intros [= <- <-]. cbn [db setEndpoint set_db]. unfold register_tx in Ef.
  pose proof (settle_name_fields (peers (db r)) nid (with_Endpoint "" p)) as (Eid & F1 & F2 & F3 & F4 & EE).
  set (q := settle_name _ _ _) in *.
  assert (SubnetRoutes q = SubnetRoutes p /\ X25519Public q = X25519Public p) as [ER EX] by (unfold q, settle_name; by case_step).
  clearbody q. cbn in Eid. rewrite Eid in Ef.
  destruct (peers (db r) !! pID p) as [[old|]|] eqn:Ek; [|done|].
  - case_bool_decide as En; cbn [negb] in Ef; [|done]. case_bool_decide as Ex; cbn [negb] in Ef; [|done].
    destruct (row_addr r (pID p) old Hi Ek) as (a0 & Ea & Pa). rewrite Pa in Ef. injection Ef as <- <-.
    destruct (ib_peer _ _ _ (proj1 Hi) Ek) as (Eo & _).
    exists (reregister old q). unfold peer_at. cbn. rewrite lookup_insert_eq. split_and!; try done; try congruence.
    right. exists old. split_and!; [done..|congruence].
  - unfold register_new, get_row in Ef. destruct (networks (db r) !! nid) as [[n|]|]; [|done..].
    cbn [result_bind] in Ef. case_in Ef; [done|]. case_in Ef; [|done]. case_in Ef; [|done]. case_in Ef; [|done].
    injection Ef as <- <-. eexists. unfold peer_at. cbn. rewrite Eid, lookup_insert_eq. split_and!; try done. by left.
Qed.

(** Any row of a key shows the key itself. *)
Lemma members_key net self r id key :
  keys_ok r -> bytes_ok key -> Hex.EncodeToString id = Hex.EncodeToString key -> id <> key -> registry_members net self r id = None.
Proof.
  intros Hk Hb E Hne. destruct (registry_members net self r id) as [c|] eqn:Em; [|done]. exfalso. apply Hne.
  apply members_Some in Em as (p & Hp & _ & _ & Hc). apply msg_card_key in Hc.
  apply Hex.EncodeToString_inj; [|done..]. by apply decode_key_ok in Hc as [? _].
Qed.

Lemma members_other net self r r' id : peers (db r') !! Hex.EncodeToString id = peers (db r) !! Hex.EncodeToString id ->
  registry_members net self r' id = registry_members net self r id.
Proof. intros E. unfold registry_members. by rewrite E. Qed.

Lemma members_self net r id : inv r -> registry_members net (Hex.EncodeToString id) r id = None.
Proof.
  intros [I _]. destruct (registry_members _ _ r id) as [c|] eqn:Em; [|done]. apply members_Some in Em as (p & Hp & _ & Hn & _).
  by destruct (ib_peer _ _ _ I Hp).
Qed.

(** The message of a JOIN event, and of the LEAVE of a row. *)
Definition join_msg (key : list Z) (req : RegisterRequest) (a : Addr) : Peer :=
  {| Id := Hex.EncodeToString key; Name := rq_Name req; VpnAddr := addr_string a; v_Ed25519Public := rq_Ed25519Public req;
     v_X25519Public := rq_X25519Public req; v_Endpoint := rq_Endpoint req; v_SubnetRoutes := rq_SubnetRoutes req |}.
Definition leave_msg (p : peerRecord) : Peer :=
  {| Id := pID p; Name := pName p; VpnAddr := ""; v_Ed25519Public := ""; v_X25519Public := ""; v_Endpoint := ""; v_SubnetRoutes := [] |}.

(** A registration is a JOIN for its network and nothing for the others. *)
Lemma register_follow io t3 t4 req key limit r r' a net self :
  inv r -> keys_ok r -> inv r' -> keys_ok r' -> decode_key (rq_Ed25519Public req) = Some key ->
  RegisterPeer io (record_of req (Hex.EncodeToString key) t3 t4) (rq_NetworkId req) limit r = (r', Ok a) ->
  forall id, registry_members net self r' id =
    (if decide (rq_NetworkId req = net) then follow self (registry_members net self r) (EvJoin (join_msg key req a)) id
     else registry_members net self r id).
Proof.
  intros Hi Hk Hi' Hk' Hkey HR id. destruct (RegisterPeer_row _ _ _ _ _ _ _ HR) as [Hoth _].
  destruct (RegisterPeer_card _ _ _ _ _ _ _ Hi HR) as (q & Hq & Eq & Nq & Xq & Vq & Rq & Hold). cbn [pID record_of X25519Public SubnetRoutes] in *.
  pose proof (proj1 (decode_key_ok _ _ Hkey)) as Hb.
  assert (decode_key (Ed25519Public q) = Some key) as Eed.
  { destruct (Hk' _ _ Hq) as (k2 & E2 & Eh). apply Hex.EncodeToString_inj in Eh; [by subst|done|by apply decode_key_ok in E2 as [? _]]. }
  assert (forall p, peer_at (db r) (Hex.EncodeToString key) p -> NetworkID p = rq_NetworkId req /\ X25519Public p = rq_X25519Public req) as Hrow.
  { intros p Hp. destruct Hold as [E|(old & Ho & ? & ?)]; unfold peer_at in *; [congruence|]. rewrite Hp in Ho. by injection Ho as <-. }
  destruct (row_addr _ _ _ Hi' Hq) as (a' & _ & Pq). rewrite Vq in Pq.
  destruct (decide (Hex.EncodeToString id = Hex.EncodeToString key)) as [Eh|Eh].
  2: { rewrite (members_other _ _ r r') by by apply Hoth. case_decide; [|done]. cbn [follow]. destruct (String.eqb _ _); [done|].
       destruct (msg_card _) as [[i c]|] eqn:Ec; [|done]. unfold upd. case_decide as Hd; [|done]. subst i. exfalso. apply Eh. f_equal.
       apply msg_card_key in Ec. cbn [v_Ed25519Public join_msg] in Ec. congruence. }
  destruct (decide (id = key)) as [->|Hne].
  2: { rewrite !(members_key _ _ _ id key) by done. case_decide; [|done]. cbn [follow]. destruct (String.eqb _ _); [by rewrite (members_key _ _ _ id key)|].
       destruct (msg_card _) as [[i c]|] eqn:Ec; [|by rewrite (members_key _ _ _ id key)]. unfold upd. case_decide as Hd; [|by rewrite (members_key _ _ _ id key)].
       subst i. exfalso. apply Hne. apply msg_card_key in Ec. cbn [v_Ed25519Public join_msg] in Ec. congruence. }
  assert (registry_members net self r' key =
    if decide (rq_NetworkId req = net /\ Hex.EncodeToString key <> self) then (fun x => (x, a', parse_routes (rq_SubnetRoutes req))) <$> decode_key (rq_X25519Public req) else None) as ->.
  { unfold registry_members. unfold peer_at in Hq. rewrite Hq, Nq, Eq. case_decide; [|done]. rewrite msg_card_eq. cbn [peer_msg v_Ed25519Public v_X25519Public VpnAddr v_SubnetRoutes].
    rewrite Eed, bind_Some_eq, Xq, Vq, Pq, Rq. destruct (decode_key (rq_X25519Public req)); [|done]. rewrite !bind_Some_eq. by rewrite decide_True. }
  destruct (decide (rq_NetworkId req = net)) as [En|En].
  2: { rewrite decide_False by by intros [? _]. destruct (registry_members net self r key) as [c|] eqn:Em; [|done].
       apply members_Some in Em as (p & Hp & Np & _). destruct (Hrow p Hp). congruence. }
  cbn [follow]. destruct (String.eqb_spec (Id (join_msg key req a)) self) as [Es|Es]; cbn [Id join_msg] in Es.
  { rewrite decide_False by by intros [_ ?]. subst self. by rewrite members_self. }
  rewrite decide_True by done. rewrite msg_card_eq. cbn [v_Ed25519Public v_X25519Public VpnAddr v_SubnetRoutes join_msg].
  rewrite Hkey, bind_Some_eq, Pq. destruct (decode_key (rq_X25519Public req)) as [x|] eqn:Ex.
  - rewrite !bind_Some_eq. unfold upd. by rewrite decide_True.
  - cbn. destruct (registry_members net self r key) as [c|] eqn:Em; [|done]. apply members_Some in Em as (p & Hp & _ & _ & Hc).
    destruct (Hrow p Hp) as [_ Xp]. rewrite msg_card_eq in Hc. cbn [peer_msg v_X25519Public] in Hc. rewrite Xp, Ex in Hc.
    apply bind_Some in Hc as (? & _ & Hc). done.
Qed.

(** What a departure removes. *)
Lemma foldl_leaves self l : forall (f : members) id,
  foldl (follow self) f (map EvLeave l) id =
  if decide (Exists (fun m => Id m <> self /\ hexToID (Id m) = Some id) l) then None else f id.
Proof.
  induction l as [|m l IH]; intros f id; cbn [map foldl].
  - rewrite decide_False; [done|]. by intros ?%Exists_nil.
  - rewrite IH. cbn [follow]. destruct (decide (Exists _ l)) as [Hl|Hl]; [by rewrite decide_True by by right|].
    destruct (String.eqb_spec (Id m) self) as [Es|Es].
    { rewrite decide_False; [done|]. intros [[? _]|]%Exists_cons; done. }
    destruct (hexToID (Id m)) as [i|] eqn:Eh; unfold upd.
    + destruct (decide (id = i)) as [->|Hne]; [by rewrite decide_True by by left|]. rewrite decide_False; [done|].
      intros [[_ E]|]%Exists_cons; [|done]. congruence.
    + rewrite decide_False; [done|]. intros [[_ E]|]%Exists_cons; [congruence|done].
Qed.

(** Removing rows is a LEAVE for each of them in its network. *)
Lemma remove_follow r r' l net self :
  inv r -> keys_ok r -> (forall p, p ∈ l -> peer_at (db r) (pID p) p) ->
  (forall k, peers (db r') !! k = if decide (k ∈ map pID l) then None else peers (db r) !! k) ->
  forall id, registry_members net self r' id =
    foldl (follow self) (registry_members net self r) (map EvLeave (map leave_msg (filter (fun p => NetworkID p = net) l))) id.
Proof.
  intros Hi Hk Hl Hrows id. rewrite foldl_leaves. case_decide as Hex.
  - apply Exists_exists in Hex as (m & (p & -> & [Np Hp]%list_elem_of_filter)%list_elem_of_fmap & Hns & Hid). cbn [Id leave_msg] in *.
    destruct (Hk _ _ (Hl p Hp)) as (key & Ekey & Eid). rewrite Eid, (hexToID_key _ _ Ekey) in Hid. injection Hid as ->.
    unfold registry_members. rewrite Hrows, decide_True; [done|]. rewrite <- Eid. by apply list_elem_of_fmap_2.
  - destruct (decide (Hex.EncodeToString id ∈ map pID l)) as [Hin|Hin]; [|apply members_other; by rewrite Hrows, decide_False].
    unfold registry_members at 1. rewrite Hrows, decide_True by done.
    destruct (registry_members net self r id) as [c|] eqn:Em; [|done]. exfalso. apply Hex. apply members_Some in Em as (p & Hp & Np & Hns & Hc).
    apply list_elem_of_fmap in Hin as (p' & Ep & Hin). pose proof (Hl p' Hin) as Hp'. rewrite <- Ep in Hp'. unfold peer_at in *. rewrite Hp in Hp'. injection Hp' as <-.
    apply Exists_exists. exists (leave_msg p). split; [apply list_elem_of_fmap_2, list_elem_of_filter; by split|]. cbn [Id leave_msg]. split; [done|].
    rewrite <- Ep. apply msg_card_key in Hc. by eapply hexToID_key.
Qed.

End Registry_members.

(** ** What an operation of the server does to a stream *)
Section Feed.
Context {M : Type -> Type} `{FMap M, forall A, Lookup string A (M A), forall A, Empty (M A),
  forall A, PartialAlter string A (M A), OMap M, Merge M, forall A, MapFold string A (M A), !FinMap string M}.
Context {be : Backend}.
Variable sha256 : list Z -> list Z.
Variable verify : list Z -> list Z -> list Z -> bool.
Variables (net self : string) (ch : nat).
Implicit Types s : Server M.
Implicit Types r : Registry M.

Definition members_of s : members := registry_members net self (registry s).
Definition live s : Prop := subscribed (bus s) net ch.
Definition backlog s : list PeerEvent := queue (bus s) ch.

(** The registry and the stream are as they were. *)
Definition calm s s' : Prop := live s' /\ registry s' = registry s /\ backlog s' = backlog s.

(** The stream's channel is full, or it has got the events of the change. *)
Definition feeds s s' : Prop :=
  live s' /\
  ((Bus.Bus.chanCap <= length (backlog s'))%nat \/
   exists evs, backlog s' = backlog s ++ evs /\ chain self (members_of s) evs (members_of s')).

Lemma calm_feeds s s' : server_ok s -> calm s s' -> feeds s s'.
Proof.
  intros [I _ _] (Hl & Hr & Hq). split; [done|]. right. exists []. rewrite app_nil_r. split; [done|]. unfold members_of. rewrite Hr.
  by apply chain_refl, members_distinct.
Qed.

Definition push (n : string) (ev : PeerEvent) (q : list PeerEvent) : list PeerEvent :=
  if decide (n = net) then if (length q <? Bus.Bus.chanCap)%nat then q ++ [ev] else q else q.

Lemma wp_publish_feed n ev Q s :
  Bus.Bus.bus_ok (bus s) -> live s ->
  (forall b, Bus.Bus.bus_ok b -> subscribed b net ch -> queue b ch = push n ev (backlog s) -> Q (with_bus b s) (Ok tt)) ->
  wp (publish n ev) Q s.
Proof.
  intros Hb Hl HQ. destruct (Bus.Bus.exec_ok (bus s) (Bus.Bus.OpPublish n ev) Hb) as (b & E & Hb'). cbn in E.
  unfold publish, on_bus, wp. rewrite E, bind_Some_eq. destruct (Publish_queue net n ev _ _ ch Hb Hl E). by apply HQ.
Qed.

Lemma push_feeds s s' n ev :
  server_ok s -> live s' -> backlog s' = push n ev (backlog s) ->
  (forall id, members_of s' id = if decide (n = net) then follow self (members_of s) ev id else members_of s id) ->
  distinct (members_of s') -> feeds s s'.
Proof.
  intros [I _ _] Hl Hq Hm Hd. split; [done|]. unfold push in Hq. pose proof (members_distinct net self _ I) as Hd0. destruct (decide (n = net)) as [->|Hn].
  - destruct (_ <? _)%nat eqn:El.
    + right. exists [ev]. split; [done|]. split; [done|]. split; [|intros id; by rewrite Hm].
      by eapply distinct_ext.
    + left. apply Nat.ltb_ge in El. by rewrite Hq.
  - right. exists []. rewrite app_nil_r. split; [done|]. split; [done|]. intros id. by rewrite Hm.
Qed.

Lemma Register_feeds io t req s :
  server_ok s -> live s -> wp (Register sha256 verify io t req) (fun s' _ => feeds s s') s.
Proof.
  intros Hs Hlive. assert (forall s', registry s' = registry s -> bus s' = bus s -> feeds s s') as Hcalm.
  { intros s' Er Eb. apply calm_feeds; [done|]. unfold calm, live, backlog. by rewrite Er, Eb. }
  unfold Register.
  apply wp_bind, wp_of_option; [|by auto]. intros acc Hacc. apply wp_bind, wp_authorizeNetwork; [|by auto]. intros Hauth.
  apply wp_bind, wp_of_option; [|by auto]. intros key Hkey. apply wp_bind, wp_check; [|by auto]. intros Hv.
  apply wp_bind. unfold wp at 1, first_use.
  destruct (SignedMsg.Replay.firstUse sha256 (rq_Signature req) (t 1%nat) (seen s)) as [fresh sn].
  assert (server_ok (with_seen sn s)) as Hs1 by by apply server_ok_seen.
  apply wp_bind, wp_check; [|by auto]. intros _. apply wp_bind, wp_check; [|by auto]. intros _.
  apply wp_bind, wp_check; [|by auto]. intros _. apply wp_bind, wp_check_routes; [|by auto]. intros routes.
  apply wp_bind. unfold wp at 1, register_peer.
  destruct (RegisterPeer io _ _ _ (registry (with_seen sn s))) as [r' [a|e]] eqn:ER.
  2: { apply RegisterPeer_err in ER. subst r'. destruct e; by apply Hcalm. }
  destruct Hs1 as [I K B]. cbn in I, K, B, ER.
  assert (inv r') as I' by by eapply RegisterPeer_inv.
  assert (keys_ok r') as K' by by refine (keys_ok_register _ _ _ _ _ _ _ key K _ _ ER).
  apply wp_bind, wp_modify. cbn match. apply wp_bind, wp_gets. apply wp_bind, wp_modify.
  apply wp_bind, wp_publish_feed; [done..|]. intros b Hb Hsub Hq. apply wp_ret.
  apply (push_feeds s _ (rq_NetworkId req) (EvJoin (join_msg key req a))); [done..| |by apply members_distinct].
  by apply (register_follow io _ _ req key _ _ _ a net self I K I' K' Hkey ER).
Qed.

Lemma left_peer_feed p acc detail s :
  server_ok s -> live s ->
  wp (left_peer p acc detail) (fun s' res => res = Ok tt /\ server_ok s' /\ live s' /\ registry s' = registry s /\
    backlog s' = push (NetworkID p) (EvLeave (leave_msg p)) (backlog s)) s.
Proof.
  intros Hs Hlive. unfold left_peer. apply wp_bind, wp_gets. apply wp_bind, wp_modify. apply wp_bind.
  unfold wp at 1, on_bus. set (s1 := add_calls _ s).
  destruct (Bus.Bus.exec_ok (bus s) (Bus.Bus.OpDrop (pID p)) (so_bus s Hs)) as (b & [= <-] & Hb).
  apply wp_publish_feed; [done..|]. intros b' Hb' Hsub Hq. split_and!; [done| |done..].
  by do 2 (apply server_ok_bus; [|done]); apply server_ok_calls.
Qed.

Lemma Leave_feeds io t req s :
  server_ok s -> live s -> wp (Leave sha256 verify io t req) (fun s' _ => feeds s s') s.
Proof.
  intros Hs Hlive. assert (forall s', registry s' = registry s -> bus s' = bus s -> feeds s s') as Hcalm.
  { intros s' Er Eb. apply calm_feeds; [done|]. unfold calm, live, backlog. by rewrite Er, Eb. }
  unfold Leave. apply wp_bind, wp_of_option; [|by auto]. intros acc Hacc.
  apply wp_bind, wp_authorizePeer; [|by auto]. intros rec Hrec _ Hauth.
  apply wp_bind, wp_verifyCall; [by auto..|]. intros sn key Hkey Hv _.
  apply wp_bind. unfold wp at 1, remove_peer.
  destruct (RemovePeer io _ _ (registry (with_seen sn s))) as [r' [p|e]] eqn:ER.
  2: { apply RemovePeer_err in ER. subst r'. by apply Hcalm. }
  cbn [registry with_seen] in ER. pose proof Hs as [I K B]. destruct (RemovePeer_rows _ _ _ _ _ _ I ER) as [Hp Ep].
  assert (inv r') as I'. { pose proof (remove_inv (registry s) io (lv_PeerId req) (t 1%nat) I) as I'. by rewrite ER in I'. }
  assert (server_ok (with_registry r' (with_seen sn s))) as Hs2.
  { split; [done| |done]. cbn [registry with_registry]. intros k0 p0. unfold peer_at. rewrite Ep, lookup_delete_Some. intros [_ Hk0]. by apply K. }
  eapply wp_mono; [by apply left_peer_feed|]. intros s' res (-> & O & L & E1 & E2). cbn in E1.
  destruct (ib_peer _ _ _ (proj1 I) Hp) as (Eid & _).
  apply (push_feeds s s' (NetworkID p) (EvLeave (leave_msg p))); [done..| |unfold members_of; rewrite E1; by apply members_distinct].
  intros id. unfold members_of. rewrite E1.
  rewrite (remove_follow (registry s) r' [p] net self I K); cbn [map filter list_filter].
  - by case_decide.
  - intros p' ->%list_elem_of_singleton. by rewrite Eid.
  - intros k. rewrite Ep, Eid. case_decide as Hd; [apply list_elem_of_singleton in Hd as ->; apply lookup_delete_eq|].
    rewrite lookup_delete_ne; [done|]. intros <-. apply Hd. by left.
Qed.

Lemma push_length n ev q : (length q <= length (push n ev q))%nat /\ ((Bus.Bus.chanCap <= length q)%nat -> push n ev q = q).
Proof.
  unfold push. case_decide; [|done]. destruct (_ <? _)%nat eqn:El; [|done]. apply Nat.ltb_lt in El. rewrite length_app. split; [lia|lia].
Qed.

Lemma push_all l : forall q,
  let q' := foldl (fun q p => push (NetworkID p) (EvLeave (leave_msg p)) q) q l in
  (length q <= length q')%nat /\
  ((Bus.Bus.chanCap <= length q')%nat \/ q' = q ++ map EvLeave (map leave_msg (filter (fun p => NetworkID p = net) l))).
Proof.
  induction l as [|p l IH]; intros q; cbn [foldl].
  - split; [done|]. right. by rewrite app_nil_r.
  - destruct (IH (push (NetworkID p) (EvLeave (leave_msg p)) q)) as [Hlen Hcase]. destruct (push_length (NetworkID p) (EvLeave (leave_msg p)) q) as [Hp Hf].
    split; [lia|]. destruct Hcase as [Hc|Hc]; [by left|]. cbn zeta in *.
    destruct (decide (Bus.Bus.chanCap <= length q)%nat) as [Hq|Hq]; [left; lia|]. right. rewrite Hc. unfold push. rewrite filter_cons.
    case_decide; [|done]. rewrite (proj2 (Nat.ltb_lt _ _)) by lia. cbn [map]. by rewrite <- app_assoc.
Qed.

Lemma expel_feed l s :
  server_ok s -> live s -> wp (expel_all l) (fun s' res => res = Ok tt /\ live s' /\ registry s' = registry s /\
    backlog s' = foldl (fun q p => push (NetworkID p) (EvLeave (leave_msg p)) q) (backlog s) l) s.
Proof.
  revert s. induction l as [|p l IH]; intros s Hs Hl; [by apply wp_ret|]. cbn [expel_all foldl].
  apply wp_bind, wp_gets, wp_bind. eapply wp_mono; [by apply left_peer_feed|]. intros s1 res (-> & O1 & L1 & R1 & Q1).
  eapply wp_mono; [by apply IH|]. intros s2 res (-> & L2 & R2 & Q2). split_and!; [done..|congruence|]. by rewrite Q2, Q1.
Qed.

Lemma sweep_rows io ttl now skip r r' removed :
  inv r -> SweepStalePeers io ttl now skip r = (r', Ok removed) ->
  inv r' /\ (forall p, p ∈ removed -> peer_at (db r) (pID p) p) /\
  (forall k, peers (db r') !! k = if decide (k ∈ map pID removed) then None else peers (db r) !! k).
Proof.
  intros I Es. pose proof (sweep_inv r io ttl now skip I) as I'. rewrite Es in I'. split; [done|]. destruct (decide (0 < ttl)) as [Ht|Ht].
  - destruct io.
    + destruct (sweep_outcome r ttl now skip I Ht) as (r2 & rm & E2 & _ & _ & Hin & Ep & _). rewrite Es in E2. injection E2 as <- <-.
      split; [|done]. by intros p [? _]%Hin.
    + unfold SweepStalePeers in Es. rewrite (proj2 (Z.leb_gt _ _)) in Es by done.
      by destruct (write_cases false (sweep_tx (unix (now - ttl)) skip) r) as [(d & a & ? & _)|(e' & E & _)]; [|rewrite E in Es].
  - unfold SweepStalePeers in Es. rewrite (proj2 (Z.leb_le _ _)) in Es by lia. injection Es as <- <-.
    split; [by intros p ?%elem_of_nil|]. intros k. by rewrite decide_False by apply not_elem_of_nil.
Qed.

Lemma Expel_feeds io ttl now s :
  server_ok s -> live s -> wp (ExpelStalePeers io ttl now) (fun s' _ => feeds s s') s.
Proof.
  intros Hs Hlive. match goal with |- wp _ ?q _ => set (Q := q) end. unfold ExpelStalePeers, wp. pose proof Hs as [I K B].
  destruct (SweepStalePeers io ttl now (Some (IsConnected s)) (registry s)) as [r' [removed|e]] eqn:ES.
  2: { apply SweepStalePeers_err in ES. subst r' Q. by apply calm_feeds. }
  destruct (sweep_rows _ _ _ _ _ _ _ I ES) as (I' & Hin & Hrows).
  assert (server_ok (with_registry r' s)) as Hs1.
  { split; [done| |done]. cbn [registry with_registry]. intros k p Hp. apply K. unfold peer_at in *. rewrite Hrows in Hp. by case_decide. }
  change (wp (bind (expel_all removed) (fun _ => ret (Z.of_nat (length removed)))) Q (with_registry r' s)).
  apply wp_bind. eapply wp_mono; [by apply expel_feed|]. intros s1 res (-> & L & E1 & E2). apply wp_ret. unfold Q. split; [done|].
  cbn in E1. destruct (push_all removed (backlog s)) as [_ [Hfull|Happ]]; [left; by rewrite E2|]. right. eexists. split; [by rewrite E2|].
  eapply chain_ext; [done| |apply chain_leaves; by apply members_distinct]. intros id. unfold members_of. rewrite E1.
  by rewrite (remove_follow (registry s) r' removed net self I K Hin Hrows).
Qed.

Lemma calm_bus s s1 b : same_feed (bus s1) b -> calm s s1 -> calm s (with_bus b s1).
Proof.
  intros Hf (L & R & Q). destruct (same_feed_queue _ _ net ch Hf) as [El Eq]. unfold calm, live, backlog in *. cbn [bus with_bus registry].
  rewrite El, Eq. done.
Qed.

Lemma SendSignal_calm t req s : server_ok s -> live s -> wp (SendSignal_rpc sha256 verify t req) (fun s' _ => calm s s') s.
Proof.
  intros Hs Hl. unfold SendSignal_rpc. apply wp_bind, wp_of_option; [|done]. intros acc _.
  apply wp_bind, wp_check; [|done]. intros _. apply wp_bind, wp_authorizePeer; [|done]. intros from _ _ _.
  apply wp_bind, wp_verifyCall; [done..|]. intros sn key _ _ _. apply wp_bind, wp_authorizePeer; [|done]. intros to _ _ _.
  apply wp_bind, wp_check; [|done]. intros _. unfold wp, on_bus.
  destruct (Bus.Bus.SendSignal_ok (sr_FromPeerId req) (sr_ToPeerId req) (sr_Payload req) true (t 1%nat) (bus (with_seen sn s)) (so_bus s Hs)) as (b & E & _).
  rewrite E, bind_Some_eq. apply calm_bus; [|done]. by eapply SendSignal_feed.
Qed.

Lemma watch_auth_quiet req now s : wp (watch_auth sha256 verify req now)
  (fun s' _ => registry s' = registry s /\ bus s' = bus s) s.
Proof.
  unfold watch_auth. apply wp_bind, wp_of_option; [|done]. intros acc _. apply wp_bind, wp_authorizeNetwork; [|done]. intros _.
  case_step; [done|]. apply wp_bind, wp_authorizePeer; [|done]. intros rec _ _ _. by apply wp_verifyCall.
Qed.

Lemma Watch_open_calm req t s : server_ok s -> live s -> wp (Watch_open sha256 verify req t) (fun s' _ => calm s s') s.
Proof.
  intros Hs Hl. unfold Watch_open. apply wp_bind. eapply wp_mono; [apply watch_auth_quiet|].
  intros s1 [[]|c] (E1 & E2).
  2: { unfold calm, live, backlog. by rewrite E1, E2. }
  apply wp_bind, wp_modify. cbn match. match goal with |- wp _ _ ?x => set (s2 := x) end.
  assert (registry s2 = registry s /\ bus s2 = bus s) as [E3 E4] by (unfold s2; by destruct (negb _)).
  clearbody s2. apply wp_bind. unfold wp at 1, on_bus at 1.
  destruct (Subscribe_queue (wr_NetworkId req) (bus s) net ch (so_bus s Hs) Hl) as [Hsub Hq].
  destruct (Bus.Bus.exec_ok (bus s) (Bus.Bus.OpSubscribe (wr_NetworkId req)) (so_bus s Hs)) as (b & Eb & Hb).
  cbn [Bus.Bus.exec] in Eb. rewrite E4. destruct (Bus.Bus.Subscribe (wr_NetworkId req) (bus s)) as [c0 b0]. injection Eb as ->. cbn [snd] in Hsub, Hq.
  assert (calm s (with_bus b s2)) as Hc by done.
  apply wp_bind. destruct (negb _); [|apply wp_ret, wp_bind, wp_gets; by apply wp_ret].
  apply wp_bind. unfold wp at 1, on_bus.
  destruct (Bus.Bus.SubscribeSignals_spec (wr_PeerId req) (t 1%nat) (bus (with_bus b s2)) Hb) as (b' & Eb & _). rewrite Eb.
  apply wp_ret, wp_bind, wp_gets, wp_ret. apply calm_bus; [|done]. by eapply SubscribeSignals_feed.
Qed.

Lemma tick_feeds io peerID now s : server_ok s -> live s -> feeds s (keepLastSeenFresh_tick io peerID now s).
Proof.
  intros Hs Hl. split; [done|]. right. exists []. rewrite app_nil_r. split; [done|]. split; [apply members_distinct, Hs|].
  intros id. symmetry. apply members_same. intros k. cbn [registry keepLastSeenFresh_tick with_registry]. unfold TouchPeer.
  destruct (write_cases io (touch_tx peerID now) (registry s)) as [(d & u & _ & Ef & ->)|(e & -> & _)]; [|by left].
  destruct (touch_tx_inv _ _ _ _ _ (proj1 (so_inv _ Hs)) Ef) as (_ & p & Hp & ->). cbn. destruct (decide (k = peerID)) as [->|Hne].
  - right. exists p, (with_LastSeen (roundToHour (unix now)) p). unfold peer_at. cbn. by rewrite lookup_insert_eq.
  - left. by rewrite lookup_insert_ne.
Qed.

Lemma forward_calm from_sig st s : live s -> (from_sig = false -> st_ch st <> ch) -> calm s (Watch_forward from_sig st s).1.
Proof.
  intros Hl Hne. unfold Watch_forward. destruct from_sig.
  - destruct (st_sig st) as [c|]; [|done]. destruct (Bus.Bus.receive _ c) as [[v h]|]; [|done]. by apply calm_bus.
  - destruct (Bus.Bus.receive _ (st_ch st)) as [[v h]|] eqn:E; [|done]. unfold calm, live, backlog, queue. cbn.
    rewrite (receive_other _ _ _ _ ch E) by by apply Hne. done.
Qed.

Lemma close_calm st s s' : live s -> st_ch st <> ch -> Watch_close st s = Some s' -> calm s s'.
Proof.
  intros Hl Hne. unfold Watch_close.
  destruct (match st_sig st with Some c => Bus.Bus.UnsubscribeSignals (st_peer st) c (bus s) | None => Some (bus s) end) as [b1|] eqn:E1; [|done].
  assert (same_feed (bus s) b1) as Hf1 by (destruct (st_sig st); [by eapply UnsubscribeSignals_feed|by injection E1 as <-]).
  destruct (same_feed_queue _ _ net ch Hf1) as [Hl1 Hq1]. rewrite bind_Some_eq.
  destruct (Bus.Bus.Unsubscribe _ _ b1) as [b2|] eqn:E2; [|done]. rewrite bind_Some_eq. intros [= <-].
  destruct (Unsubscribe_queue _ _ _ _ net ch Hne (proj2 Hl1 Hl) E2) as [Hl2 Hq2].
  unfold calm, live, backlog. destruct (String.eqb _ _); cbn; by rewrite Hq2.
Qed.

(** The turns and the end of streams other than ours. *)
Definition others (y : Sys (M := M)) (o : sys_op) : Prop :=
  match o with
  | SForward i false | SClose i => forall st, streams y !! i = Some st -> st_ch st <> ch
  | _ => True
  end.

Lemma sys_feeds (y : Sys (M := M)) o y' :
  sys_ok y -> live (srv y) -> others y o -> sys_step sha256 verify y o = Some y' -> feeds (srv y) (srv y').
Proof.
  intros [Hs _] Hl Ho.
  assert (forall A (m : Rpc A), wp m (fun s' _ => feeds (srv y) s') (srv y) -> on_srv m y = Some y' -> feeds (srv y) (srv y')) as Hwp.
  { intros A m. unfold wp, on_srv. destruct (m (srv y)) as [[s' res]|]; [|done]. rewrite bind_Some_eq. by intros ? [= <-]. }
  assert (forall A (m : Rpc A), wp m (fun s' _ => calm (srv y) s') (srv y) -> wp m (fun s' _ => feeds (srv y) s') (srv y)) as Hcw.
  { intros A m Hm. eapply wp_mono; [done|]. intros s' res. by apply calm_feeds. }
  assert (calm (srv y) (srv y)) as Hself by done.
  destruct o as [io t req|req|t req|i fs|i io now|i|t req|io t req|io ttl now]; cbn [sys_step].
  - apply Hwp, Register_feeds; done.
  - apply Hwp, Hcw. eapply wp_mono; [by apply wp_ListPeers|]. by intros s' res ->.
  - pose proof (Hcw _ _ (Watch_open_calm req t _ Hs Hl)) as Hw. unfold wp in Hw.
    destruct (Watch_open _ _ _ _ _) as [[s' res]|]; [|done]. rewrite bind_Some_eq. by intros [= <-].
  - destruct (streams y !! i) as [st|] eqn:Ei; intros [= <-]; [|by apply calm_feeds]. apply calm_feeds; [done|]. apply forward_calm; [done|].
    intros ->. by apply Ho.
  - destruct (streams y !! i) as [st|]; intros [= <-]; [|by apply calm_feeds]. cbn [srv].
    destruct (String.eqb _ _); [by apply calm_feeds|by apply tick_feeds].
  - destruct (streams y !! i) as [st|] eqn:Ei; [|intros [= <-]; by apply calm_feeds].
    destruct (Watch_close st (srv y)) as [s'|] eqn:E; [|done]. rewrite bind_Some_eq. intros [= <-]. apply calm_feeds; [done|].
    eapply close_calm; [done| |done]. by apply Ho.
  - apply Hwp, Hcw, SendSignal_calm; done.
  - apply Hwp, Leave_feeds; done.
  - apply Hwp, Expel_feeds; done.
Qed.

End Feed.

(** ** The coordinator with one of its clients *)
Section Mesh.
Context {M : Type -> Type} `{FMap M, forall A, Lookup string A (M A), forall A, Empty (M A),
  forall A, PartialAlter string A (M A), OMap M, Merge M, forall A, MapFold string A (M A), !FinMap string M}.
Context {be : Backend}.
Variable sha256 : list Z -> list Z.
Variable verify : list Z -> list Z -> list Z -> bool.
Implicit Types s : Server M.
Implicit Types r : Registry M.

Lemma msg_card_endpoint p ep : msg_card (peer_msg (with_Endpoint ep p)) = msg_card (peer_msg p).
Proof. by rewrite !msg_card_eq. Qed.

Lemma ListPeers_Ok net r : inv r -> ListPeers net r = Ok (applyEndpoints r (filter (fun p => NetworkID p = net) (records (peers (db r))))).
Proof.
  intros [I _]. unfold ListPeers, all_records.
  assert (forallb (fun '(_, v) => match decoded v with Some _ => true | None => false end) (map_to_list (peers (db r))) = true) as ->; [|done].
  apply forallb_forall. intros [k v] Hin%list_elem_of_In%elem_of_map_to_list. by destruct (ib_peers _ I _ _ Hin) as (p & -> & _).
Qed.

Definition snapshot (net self : string) r : list Peer :=
  map peer_msg (filter (fun p => pID p <> self) (applyEndpoints r (filter (fun p => NetworkID p = net) (records (peers (db r)))))).

Lemma elem_of_snapshot net self r m : inv r -> m ∈ snapshot net self r <->
  exists p, peer_at (db r) (pID p) p /\ NetworkID p = net /\ pID p <> self /\
    m = peer_msg (with_Endpoint (default ""%string (endpoints r !! pID p)) p).
Proof.
  intros [I _]. unfold snapshot, applyEndpoints. split.
  - intros (q & -> & [Hns (p & -> & [Hn Hp]%list_elem_of_filter)%list_elem_of_fmap]%list_elem_of_filter)%list_elem_of_fmap.
    apply records_at in Hp; [|done]. eauto 10.
  - intros (p & Hp & Hn & Hns & ->). apply list_elem_of_fmap_2, list_elem_of_filter. split; [done|].
    apply (list_elem_of_fmap_2 (fun p => with_Endpoint (default ""%string (endpoints r !! pID p)) p)), list_elem_of_filter. split; [done|]. by apply records_at.
Qed.

(** The JOIN events at the start of a stream build up the membership. *)
Lemma snapshot_chain net self r f : inv r -> keys_ok r -> fits f (registry_members net self r) ->
  chain self f (map EvJoin (snapshot net self r)) (registry_members net self r).
Proof.
  intros I K Hf. apply chain_joins; [by apply members_distinct|done|..].
  - intros m id c (p & Hp & Hn & Hns & ->)%elem_of_snapshot _ Hc; [|done]. rewrite msg_card_endpoint in Hc.
    apply members_Some. exists p. split_and!; [|done..]. by rewrite <- (row_card_key r (pID p) p id c).
  - intros id c (p & Hp & Hn & Hns & Hc)%members_Some. right. destruct (ib_peer _ _ _ (proj1 I) Hp) as (Ep & _).
    eexists (peer_msg (with_Endpoint (default ""%string (endpoints r !! pID p)) p)). split; [apply elem_of_snapshot; [done|]; exists p; split_and!; [by rewrite Ep|done..]|]. split; [done|]. by rewrite msg_card_endpoint.
Qed.

Lemma Watch_open_start req t s :
  server_ok s ->
  wp (Watch_open sha256 verify req t)
    (fun s' res => match res with
                   | Ok (st, snap) => snap = map EvJoin (snapshot (wr_NetworkId req) (wr_PeerId req) (registry s)) /\ registry s' = registry s /\
                       live (wr_NetworkId req) (st_ch st) s' /\ backlog (st_ch st) s' = []
                   | Err _ => True
                   end) s.
Proof.
  intros Hs. unfold Watch_open. apply wp_bind. eapply wp_mono; [apply watch_auth_quiet|]. intros s1 [[]|c] (E1 & E2); [|done].
  apply wp_bind, wp_modify. cbn match. match goal with |- wp _ _ ?x => set (s2 := x) end.
  assert (registry s2 = registry s /\ bus s2 = bus s) as [E3 E4] by (unfold s2; by destruct (negb _)).
  clearbody s2. apply wp_bind. unfold wp at 1, on_bus at 1.
  destruct (Bus.Bus.exec_ok (bus s) (Bus.Bus.OpSubscribe (wr_NetworkId req)) (so_bus s Hs)) as (b & Eb & Hb).
  cbn [Bus.Bus.exec] in Eb. rewrite E4. unfold Bus.Bus.Subscribe in *. injection Eb as Eb. set (c0 := Bus.Bus.next (bus s)) in *. rewrite Eb.
  assert (live (wr_NetworkId req) c0 (with_bus b s2) /\ backlog c0 (with_bus b s2) = []) as [Hl Hq].
  { unfold live, backlog, subscribed, queue. cbn [bus with_bus]. rewrite <- Eb. cbn [Bus.Bus.subscribers Bus.Bus.evs].
    rewrite Bus.Bus.subs_of_insert, decide_True, lookup_insert_eq by done. split; [apply elem_of_app; right; by left|done]. }
  assert (forall l, match ListPeers (wr_NetworkId req) (registry s) with
    | Ok l => map (fun p => EvJoin (peer_msg p)) (filter (fun p => pID p <> wr_PeerId req) l) | Err _ => l end
    = map EvJoin (snapshot (wr_NetworkId req) (wr_PeerId req) (registry s))) as Hsnap.
  { intros l. rewrite ListPeers_Ok by apply Hs. unfold snapshot. by rewrite map_map. }
  apply wp_bind. destruct (negb _).
  - apply wp_bind. unfold wp at 1, on_bus.
    destruct (Bus.Bus.SubscribeSignals_spec (wr_PeerId req) (t 1%nat) (bus (with_bus b s2)) Hb) as (b' & Eb' & _). rewrite Eb'.
    apply SubscribeSignals_feed in Eb'. destruct (same_feed_queue _ _ (wr_NetworkId req) c0 Eb') as [El Eq].
    apply wp_ret, wp_bind, wp_gets, wp_ret. cbn [registry with_bus]. rewrite E3. split; [apply Hsnap|]. split; [done|].
    cbn [st_ch]. unfold live, backlog in *. cbn [bus with_bus] in *. by rewrite El, Eq.
  - apply wp_ret, wp_bind, wp_gets, wp_ret. cbn [registry with_bus]. rewrite E3. split; [apply Hsnap|]. split; [done|]. by cbn [st_ch].
Qed.

(** *** Runs *)
Context {W : Type} `{Quiet : QuietHooks W}.
Abbreviation state := (Sys (M := M) * (Client * W))%type.

(** The stream's next event reaches the client. *)
Inductive deliver (st : stream) (self : string) : state -> state -> Prop :=
| Deliver y c s' ev : Watch_forward false st (srv y) = (s', Some ev) ->
    deliver st self (y, c) ({| srv := s'; streams := streams y |}, handleEvent (wire ev) self c).

(** The server serves anybody while the stream's channel is not full; an event or
    a signal reaches the client; the daemon updates endpoints and sessions. *)
Inductive mesh_step (st : stream) (self : string) : state -> state -> Prop :=
| MServer y o y' c : sys_step sha256 verify y o = Some y' -> others (st_ch st) y o ->
    (length (backlog (st_ch st) (srv y')) < Bus.Bus.chanCap)%nat -> mesh_step st self (y, c) (y', c)
| MDeliver x x' : deliver st self x x' -> mesh_step st self x x'
| MSignal y c s' ev : Watch_forward true st (srv y) = (s', Some ev) ->
    mesh_step st self (y, c) ({| srv := s'; streams := streams y |}, handleEvent (wire ev) self c)
| MTable y c w t w' : PeerTable.table_ok t -> (forall id, known t id = known (peerTable c) id) -> mesh_step st self (y, (c, w)) (y, (with_table t c, w')).

(** The client is behind the registry by the events in the channel. *)
Definition in_step (net : string) (st : stream) (self : string) (x : state) : Prop :=
  sys_ok x.1 /\ live net (st_ch st) (srv x.1) /\
  exists f, tracks (peerTable x.2.1) f /\ chain self f (backlog (st_ch st) (srv x.1)) (members_of net self (srv x.1)).

Lemma sys_ok_srv (y : Sys (M := M)) s : sys_ok y -> server_ok s -> connected s = connected (srv y) -> sys_ok {| srv := s; streams := streams y |}.
Proof. intros [_ Hc] Hs E. split; [done|]. cbn. by rewrite E. Qed.

Lemma deliver_in_step net st self x x' : in_step net st self x -> deliver st self x x' ->
  in_step net st self x' /\ registry (srv x'.1) = registry (srv x.1) /\
  length (backlog (st_ch st) (srv x.1)) = S (length (backlog (st_ch st) (srv x'.1))).
Proof.
  intros (Hy & Hl & f & Ht & Hc) Hd. inversion Hd as [y c s' ev Hf Ex Ex']. subst x x'. cbn [fst snd srv] in *.
  destruct (forward_ok false st _ (sy_srv _ Hy)) as (O & R & C). rewrite Hf in O, R, C. cbn [fst] in O, R, C.
  unfold Watch_forward in Hf. destruct (Bus.Bus.receive (Bus.Bus.evs (bus (srv y))) (st_ch st)) as [[v h]|] eqn:E; [|done]. injection Hf as <- ->.
  unfold Bus.Bus.receive in E. destruct (Bus.Bus.evs (bus (srv y)) !! st_ch st) as [k|] eqn:Ek; [|done]. rewrite bind_Some_eq in E.
  destruct (Bus.Bus.buf k) as [|v rest] eqn:Eb; [by destruct (Bus.Bus.closed k)|]. injection E as -> <-.
  assert (backlog (st_ch st) (srv y) = ev :: rest) as Eq by (unfold backlog, queue; by rewrite Ek).
  assert (forall s, s = with_bus (Bus.Bus.set_heaps (<[st_ch st := Bus.Bus.Build_chan rest (Bus.Bus.closed k)]> (Bus.Bus.evs (bus (srv y)))) (Bus.Bus.sigs (bus (srv y))) (bus (srv y))) (srv y) ->
    backlog (st_ch st) s = rest) as Eq' by (intros s ->; unfold backlog, queue; cbn; by rewrite lookup_insert_eq).
  rewrite Eq in Hc |- *. rewrite (Eq' _ eq_refl). destruct Hc as [_ Hc]. split; [|done]. split; [by apply sys_ok_srv|]. split; [done|].
  exists (follow self f ev). cbn [fst snd srv]. rewrite (Eq' _ eq_refl). split; [|done].
  apply handle_tracks; [done|]. by destruct rest; destruct Hc.
Qed.

Lemma mesh_in_step net st self x x' : in_step net st self x -> mesh_step st self x x' -> in_step net st self x'.
Proof.
  intros Hx Hstep. destruct Hstep as [y o y' c Hs Ho Hroom|x1 x2 Hd|y c s' ev Hf|y c w t w' Ht Hk]; [|by destruct (deliver_in_step net st self x1 x2 Hx Hd)|..].
  - destruct Hx as (Hy & Hl & f & Ht & Hc). cbn [fst snd] in *. destruct (sys_step_ok sha256 verify y o Hy) as (y1 & E1 & Hy1 & _).
    rewrite Hs in E1. injection E1 as <-.
    destruct (sys_feeds sha256 verify net self (st_ch st) y o y' Hy Hl Ho Hs) as [Hl' [Hfull|(evs & Eq & Hch)]]; [lia|].
    split; [done|]. split; [done|]. exists f. split; [done|]. cbn [fst]. rewrite Eq. by eapply chain_app.
  - destruct Hx as (Hy & Hl & f & Ht & Hc). cbn [fst snd] in *.
    destruct (forward_ok true st _ (sy_srv _ Hy)) as (O & R & C). destruct (forward_calm net (st_ch st) true st (srv y) Hl ltac:(done)) as (L & _ & Q).
    assert (exists from payload, ev = EvSignal from payload) as (from & payload & ->).
    { unfold Watch_forward in Hf. destruct (st_sig st) as [k|]; [|done]. destruct (Bus.Bus.receive _ k) as [[[v|] h]|]; try done. injection Hf as _ <-. eauto. }
    rewrite Hf in *. cbn [fst] in *. split; [by apply sys_ok_srv|]. split; [done|]. exists f. cbn [fst snd srv handleEvent wire CoordClient.CoordClient.Type_].
    split; [by apply (handle_tracks (EvSignal from payload) self c f); [|destruct (backlog (st_ch st) (srv y)); destruct Hc]|]. rewrite Q. unfold members_of. by rewrite R.
  - destruct Hx as (Hy & Hl & f & Htr & Hc). split; [done|]. split; [done|]. exists f. split; [|done]. cbn [fst snd peerTable with_table].
    split; [done|]. intros id. rewrite Hk. apply Htr.
Qed.

Lemma catch_up net st self n : forall x, in_step net st self x -> length (backlog (st_ch st) (srv x.1)) = n ->
  exists x', relations.nsteps (deliver st self) n x x' /\ registry (srv x'.1) = registry (srv x.1) /\
    forall id, known (peerTable x'.2.1) id = registry_members net self (registry (srv x'.1)) id.
Proof.
  induction n as [|n IH]; intros x Hx Hn.
  - exists x. split; [constructor|]. split; [done|]. destruct Hx as (_ & _ & f & Ht & Hc). intros id.
    destruct (backlog _ _); [|done]. destruct Hc as [_ Hc]. rewrite (CoordClient.CoordClient.tr_known _ _ Ht). apply Hc.
  - assert (exists x1, deliver st self x x1) as [x1 Hd].
    { destruct x as [y c]. destruct Hx as (Hy & Hl & _). cbn [fst] in *. unfold backlog, queue in Hn.
      destruct (Bus.Bus.evs (bus (srv y)) !! st_ch st) as [k|] eqn:Ek; [|done]. destruct (Bus.Bus.buf k) as [|ev rest] eqn:Eb; [done|].
      eexists. eapply Deliver. unfold Watch_forward, Bus.Bus.receive. rewrite Ek, bind_Some_eq, Eb. done. }
    destruct (deliver_in_step net st self x x1 Hx Hd) as (Hx1 & R1 & L1).
    destruct (IH x1 Hx1 ltac:(lia)) as (x' & Hs & R & Hk). exists x'. split; [by econstructor|]. split; [congruence|done].
Qed.

(** C7: The coordinator's membership reaches the daemon.  A client opens a watch
    stream when every peer in its table is still registered at the same address
    (at its first connection the table is empty), and handles the snapshot; then
    the server serves any requests, of any peer, while the stream stays open and the
    64 places of its channel are not all taken, and the daemon uses its table.  From every
    state of such a run, delivering the events still in the channel leaves the
    table with exactly the other peers of the network in the registry, with the
    keys, addresses and routes they are registered with.  What happens when a peer
    left between two streams is [departed_peer_blocks_address]. *)
Theorem membership_mirrored y0 t req s1 st snap c0 f0 y c :
  sys_ok y0 -> Watch_open sha256 verify req t (srv y0) = Some (s1, Ok (st, snap)) ->
  tracks (peerTable c0.1) f0 -> fits f0 (registry_members (wr_NetworkId req) (wr_PeerId req) (registry (srv y0))) ->
  rtc (mesh_step st (wr_PeerId req))
      ({| srv := s1; streams := streams y0 ++ [st] |}, handleEvents (map wire snap) (wr_PeerId req) c0) (y, c) ->
  exists y' c', relations.nsteps (deliver st (wr_PeerId req)) (length (backlog (st_ch st) (srv y))) (y, c) (y', c') /\
    registry (srv y') = registry (srv y) /\
    forall id, known (peerTable c'.1) id = registry_members (wr_NetworkId req) (wr_PeerId req) (registry (srv y)) id.
Proof.
  intros Hy0 Ho Ht Hfits Hrun. pose proof (Watch_open_start req t _ (sy_srv _ Hy0)) as Hst. unfold wp in Hst. rewrite Ho in Hst. destruct Hst as (-> & R & L & Q).
  assert (in_step (wr_NetworkId req) st (wr_PeerId req) (y, c)) as Hin.
  { refine (rtc_ind_r (in_step _ _ _) _ _ _ _ Hrun); [|intros x1 x2 _ Hs Hx; by eapply mesh_in_step].
    destruct (sys_step_ok sha256 verify y0 (SWatch t req) Hy0) as (y1 & E1 & Hy1 & _). cbn [sys_step] in E1. rewrite Ho, bind_Some_eq in E1. injection E1 as <-.
    split; [done|]. split; [done|]. cbn [fst snd srv]. rewrite Q. unfold members_of. rewrite R. destruct Hy0 as [[I K B] _].
    eexists. split; [|by apply chain_refl, members_distinct]. eapply chain_tracks; [by apply snapshot_chain|done]. }
  destruct (catch_up _ _ _ _ (y, c) Hin eq_refl) as ([y' c'] & Hs & R' & Hk). exists y', c'. split; [done|]. split; [done|]. cbn in *. by rewrite <- R'.
Qed.

(** ** Reconnecting *)
Lemma joins_blocked self l id x id2 : id2 <> id -> forall (c : Client * W), PeerTable.table_ok (peerTable c.1) ->
  known (peerTable c.1) id = Some x -> known (peerTable c.1) id2 = None ->
  (forall m cd, m ∈ l -> msg_card m <> Some (id, cd)) ->
  (forall m cd, m ∈ l -> msg_card m = Some (id2, cd) -> cd.1.2 = x.1.2 /\ addr_valid cd.1.2 = true) ->
  let t' := peerTable (handleEvents (map wire (map EvJoin l)) self c).1 in known t' id = Some x /\ known t' id2 = None.
Proof.
  intros Hne. induction l as [|m l IH]; intros c Ht Hx Hx2 Hl Hl2; [done|]. cbn [map handleEvents].
  destruct (join_known m self c Ht) as [Ht1 Hk1]. set (c1 := handleEvent _ self c) in *.
  assert (known (peerTable c1.1) id = Some x) as Hx'.
  { destruct (Hk1 id) as [->|(cd & Hc & _)]; [done|]. exfalso. apply (Hl m cd); [by left|done]. }
  assert (known (peerTable c1.1) id2 = None) as Hx2'.
  { destruct (Hk1 id2) as [->|(cd & Hc & Hn)]; [done|]. exfalso. destruct (Hl2 m cd ltac:(by left) Hc) as [Ea Hv]. apply Hn. split; [done|]. eauto 10. }
  apply (IH c1 Ht1 Hx' Hx2'); intros m' cd Hm'; [apply Hl|apply Hl2]; by right.
Qed.

(** A peer that leaves while the daemon is disconnected is never removed from
    its table: the snapshot of the next stream only adds.  While the departed peer
    is there, a peer that was given its address since is not added either, although
    the registry and the snapshot have it. *)
Theorem departed_peer_blocks_address req t s s1 st snap (c : Client * W) id x id2 x2 :
  server_ok s -> Watch_open sha256 verify req t s = Some (s1, Ok (st, snap)) ->
  PeerTable.table_ok (peerTable c.1) -> known (peerTable c.1) id = Some x ->
  registry_members (wr_NetworkId req) (wr_PeerId req) (registry s) id = None ->
  registry_members (wr_NetworkId req) (wr_PeerId req) (registry s) id2 = Some x2 -> x2.1.2 = x.1.2 ->
  known (peerTable c.1) id2 = None ->
  let t' := peerTable (handleEvents (map wire snap) (wr_PeerId req) c).1 in
  known t' id = Some x /\ known t' id2 = None.
Proof.
  intros Hs Ho Ht Hx Hm Hm2 Ea Hx2. pose proof (Watch_open_start req t s Hs) as Hst. unfold wp in Hst. rewrite Ho in Hst. destruct Hst as (-> & _).
  pose proof Hs as [I K _]. set (net := wr_NetworkId req) in *. set (self := wr_PeerId req) in *.
  assert (forall m i cd, m ∈ snapshot net self (registry s) -> msg_card m = Some (i, cd) ->
    registry_members net self (registry s) i = Some cd /\ addr_valid cd.1.2 = true) as Hsnap.
  { intros m i cd (p & Hp & Hn & Hns & ->)%elem_of_snapshot Hc; [|done]. rewrite msg_card_endpoint in Hc. split.
    - apply members_Some. exists p. split_and!; [|done..]. by rewrite <- (row_card_key (registry s) (pID p) p i cd).
    - destruct (row_addr _ _ _ I Hp) as (a & _ & Ha). rewrite msg_card_eq in Hc. cbn [VpnAddr peer_msg] in Hc. rewrite Ha in Hc.
      apply bind_Some in Hc as (? & _ & Hc). apply bind_Some in Hc as (? & _ & Hc). rewrite bind_Some_eq in Hc. injection Hc as _ <-. cbn [fst snd].
      by eapply row_addr_valid. }
  apply joins_blocked; try done.
  - intros ->. congruence.
  - intros m cd Hin Hc. destruct (Hsnap m id cd Hin Hc). congruence.
  - intros m cd Hin Hc. destruct (Hsnap m id2 cd Hin Hc) as [E Hv]. split; [|done]. congruence.
Qed.

End Mesh.

(** *** Three daemons

    Alice and Bob register, Alice watches, then Carol registers and Bob leaves.
    The requests are those of the client; a signature is the key followed by the
    message. *)
Definition demo_sign (priv m : list Z) : list Z := priv ++ m.
Definition demo_identity (n : Z) : Noise.Noise.Identity :=
  {| Noise.Noise.Ed25519Private := replicate 32 n; Noise.Noise.Ed25519Public := replicate 32 n; Noise.Noise.X25519Private := replicate 32 n;
     Noise.Noise.X25519Public := replicate 32 (100 + n); Noise.Noise.X25519Sig := [] |}.
Definition demo_client (n : Z) (name : string) : Client :=
  CoordClient.CoordClient.New
    {| CoordClient.CoordClient.ServerAddr := "coord"; CoordClient.CoordClient.NetworkID := "net"; CoordClient.CoordClient.Token := "token";
       CoordClient.CoordClient.Identity := demo_identity n; CoordClient.CoordClient.LocalName := name; CoordClient.CoordClient.Endpoint := "";
       CoordClient.CoordClient.SubnetRoutes := []; CoordClient.CoordClient.TLSInsecure := false |}
    PeerTable.New
    {| CoordClient.CoordClient.hasOnPeerAdded := true; CoordClient.CoordClient.hasOnPeerRemoved := true; CoordClient.CoordClient.hasOnSignal := true;
       CoordClient.CoordClient.hasOnRouteUpdate := false; CoordClient.CoordClient.hasOnVPNAddrAssigned := true |}.
Definition join (n : Z) (name : string) : sys_op :=
  SRegister true demo_clock (CoordClient.CoordClient.register_request demo_sign (demo_client n name) demo_sec).
Definition leave (n : Z) : sys_op :=
  let id := Hex.EncodeToString (replicate 32 n) in
  SLeave true demo_clock {| lv_Token := "token"; lv_PeerId := id; lv_TimestampUnix := demo_sec;
    lv_Signature := SignedMsg.SignedMsg.SignCall demo_sign (replicate 32 n) (SignedMsg.SignedMsg.LeaveClaims id demo_sec) |}.

Definition run_from (y : Sys) (o : sys_op) : Sys := default y (sys_step (be := demo_backend) demo_hash demo_verify y o).
Definition mesh0 : Sys := foldl run_from {| srv := New demo_store; streams := [] |} [join 1 "alice"; join 2 "bob"].
Definition alice_watch : WatchRequest :=
  CoordClient.CoordClient.watch_request demo_sign (demo_client 1 "alice") (Hex.EncodeToString (replicate 32 1)) (demo_sec + 1).
Definition opened : option (Server (gmap string) * result code (stream * list PeerEvent)) :=
  Watch_open (be := demo_backend) demo_hash demo_verify alice_watch demo_clock (srv mesh0).
Definition no_stream : stream := {| st_network := ""; st_peer := ""; st_ch := 0; st_sig := None |}.
Definition mesh1 : Server (gmap string) * stream * list PeerEvent :=
  match opened with Some (s, Ok (st, snap)) => (s, st, snap) | _ => (srv mesh0, no_stream, []) end.
Definition mesh2 : Sys := {| srv := mesh1.1.1; streams := streams mesh0 ++ [mesh1.1.2] |}.
Definition mesh3 : Sys := run_from mesh2 (join 3 "carol").
Definition mesh4 : Sys := run_from mesh3 (leave 2).
Definition alice : Client * list callback := handleEvents (map wire mesh1.2) (wr_PeerId alice_watch) (demo_client 1 "alice", []).

Lemma run_from_ok y o : sys_ok y -> sys_ok (run_from y o) /\ sys_step (be := demo_backend) demo_hash demo_verify y o = Some (run_from y o).
Proof.
  intros Hy. destruct (sys_step_ok (be := demo_backend) demo_hash demo_verify y o Hy) as (y' & E & Hy' & _). unfold run_from. by rewrite E.
Qed.

Lemma mesh0_ok : sys_ok mesh0.
Proof. do 2 apply run_from_ok. apply sys_start; apply demo_store_ok. Qed.

Lemma mesh1_opened : opened = Some (mesh1.1.1, Ok (mesh1.1.2, mesh1.2)).
Proof.
  unfold mesh1. assert (match opened with Some (_, Ok _) => True | _ => False end) as Hok by (vm_compute; exact I).
  by destruct opened as [[s [[st snap]|]]|].
Qed.

Lemma mesh_ok : sys_ok mesh2 /\ sys_ok mesh3.
Proof.
  assert (mesh2 = run_from mesh0 (SWatch demo_clock alice_watch)) as E.
  { unfold run_from. cbn [sys_step]. change (Watch_open (be := demo_backend) demo_hash demo_verify alice_watch demo_clock (srv mesh0)) with opened.
    by rewrite mesh1_opened, bind_Some_eq. }
  assert (sys_ok mesh2) by (rewrite E; apply run_from_ok, mesh0_ok). split; [done|]. by apply run_from_ok.
Qed.

Lemma mesh_run : rtc (mesh_step (be := demo_backend) demo_hash demo_verify mesh1.1.2 (wr_PeerId alice_watch)) (mesh2, alice) (mesh4, alice).
Proof.
  eapply rtc_l; [eapply (MServer _ _ _ _ mesh2 (join 3 "carol") mesh3)|apply rtc_once; eapply (MServer _ _ _ _ mesh3 (leave 2) mesh4)];
    try (apply run_from_ok, mesh_ok); try exact I; vm_compute; lia.
Qed.

Lemma no_peers : tracks (peerTable (demo_client 1 "alice")) (fun _ => None).
Proof. split; [apply PeerTable.New_ok|done]. Qed.

Lemma mesh4_members :
  length (backlog (st_ch mesh1.1.2) (srv mesh4)) = 2%nat /\
  registry_members "net" (wr_PeerId alice_watch) (registry (srv mesh4)) (replicate 32 3) = Some (replicate 32 103, Addr4 0x0A000003, []) /\
  registry_members "net" (wr_PeerId alice_watch) (registry (srv mesh4)) (replicate 32 2) = None /\
  is_Some (known (peerTable alice.1) (replicate 32 2)).
Proof. vm_compute. split_and!; [reflexivity..|by eexists]. Qed.

Lemma membership_mirrored_witness :
  exists y' c', relations.nsteps (deliver mesh1.1.2 (wr_PeerId alice_watch)) 2 (mesh4, alice) (y', c') /\
    known (peerTable c'.1) (replicate 32 3) = Some (replicate 32 103, Addr4 0x0A000003, []) /\ known (peerTable c'.1) (replicate 32 2) = None.
Proof.
  destruct (membership_mirrored (be := demo_backend) demo_hash demo_verify mesh0 demo_clock alice_watch mesh1.1.1 mesh1.1.2 mesh1.2
    (demo_client 1 "alice", []) (fun _ => None) mesh4 alice mesh0_ok mesh1_opened no_peers ltac:(done) mesh_run) as (y' & c' & Hs & _ & Hk).
  destruct mesh4_members as (Hl & H3 & H2 & _). exists y', c'. rewrite Hl in Hs. split; [exact Hs|]. split; [exact (eq_trans (Hk _) H3)|exact (eq_trans (Hk _) H2)].
Defined.

(** While Alice is away, Bob leaves and his address is given to Grace. *)
Definition moved : Sys :=
  foldl run_from mesh0 [join 3 "carol"; join 4 "dave"; join 5 "erin"; leave 2; join 6 "frank"; leave 3; join 7 "grace"].
Definition reopened : Server (gmap string) * stream * list PeerEvent :=
  match Watch_open (be := demo_backend) demo_hash demo_verify alice_watch demo_clock (srv moved) with
  | Some (s, Ok (st, snap)) => (s, st, snap)
  | _ => (srv moved, no_stream, [])
  end.

Lemma moved_ok : sys_ok moved.
Proof. do 7 apply run_from_ok. apply mesh0_ok. Qed.

Lemma reopened_ok :
  Watch_open (be := demo_backend) demo_hash demo_verify alice_watch demo_clock (srv moved) = Some (reopened.1.1, Ok (reopened.1.2, reopened.2)).
Proof.
  unfold reopened.
  assert (match Watch_open (be := demo_backend) demo_hash demo_verify alice_watch demo_clock (srv moved) with Some (_, Ok _) => True | _ => False end)
    as Hok by (vm_compute; exact I).
  by destruct (Watch_open _ _ _ _ _) as [[s [[st snap]|]]|].
Qed.

Lemma alice_table_ok : PeerTable.table_ok (peerTable alice.1).
Proof.
  pose proof (Watch_open_start (be := demo_backend) demo_hash demo_verify alice_watch demo_clock _ (sy_srv _ mesh0_ok)) as Hst. unfold wp in Hst.
  change (Watch_open (be := demo_backend) demo_hash demo_verify alice_watch demo_clock (srv mesh0)) with opened in Hst. rewrite mesh1_opened in Hst.
  destruct Hst as (E & _). destruct (sy_srv _ mesh0_ok) as [I K _]. unfold alice. rewrite E.
  eapply CoordClient.CoordClient.tr_ok, chain_tracks; [by apply (snapshot_chain _ _ _ (fun _ => None))|apply no_peers].
Qed.

Lemma moved_facts :
  known (peerTable alice.1) (replicate 32 2) = Some (replicate 32 102, Addr4 0x0A000002, []) /\
  registry_members "net" (wr_PeerId alice_watch) (registry (srv moved)) (replicate 32 2) = None /\
  registry_members "net" (wr_PeerId alice_watch) (registry (srv moved)) (replicate 32 7) = Some (replicate 32 107, Addr4 0x0A000002, []) /\
  known (peerTable alice.1) (replicate 32 7) = None.
Proof. vm_compute. split_and!; reflexivity. Qed.

Lemma departed_peer_blocks_address_witness :
  let t' := peerTable (handleEvents (map wire reopened.2) (wr_PeerId alice_watch) alice).1 in
  known t' (replicate 32 2) = Some (replicate 32 102, Addr4 0x0A000002, []) /\ known t' (replicate 32 7) = None.
Proof.
  destruct moved_facts as (H1 & H2 & H3 & H4).
  exact (departed_peer_blocks_address (be := demo_backend) demo_hash demo_verify alice_watch demo_clock (srv moved) reopened.1.1 reopened.1.2 reopened.2
    alice (replicate 32 2) (replicate 32 102, Addr4 0x0A000002, []) (replicate 32 7) (replicate 32 107, Addr4 0x0A000002, [])
    (sy_srv _ moved_ok) reopened_ok alice_table_ok H1 H2 H3 eq_refl H4).
Defined.

End Membership.
