(* ===== verification/Route.v ===== *)
(** * Subnet routes

    [Route] models [src/internal/route]: which routes a peer may announce
    ([route.go]) and the manager that installs them ([route_linux.go]).  The
    kernel is behind the class [RouteHandle], the source's interface
    [routeHandle], with what netlink promises in [RouteLaws]; a kernel of one
    table is an instance.  Turning on IP forwarding is a file that is read and
    written. *)
From Stdlib Require Import ZArith Lia.
From stdpp Require Import base numbers list gmap strings.
From S2P Require Import Prelude GoLib PeerTable AddrText Coexist.

Module Route.
Import Netip AddrText.
Import Coexist.Coexist (Overlaps, is4, addr_ok, prefix_ok, Contains_iff, masked_ok, Overlaps_disjoint, prefix_ok_valid, masked_addr, shiftr_weaken).

(** [Prefix] as a key. *)
#[export] Instance Prefix_countable : Countable Prefix.
Proof.
  refine (inj_countable' (fun p => (p_addr p, p_bits p)) (fun '(a, b) => {| p_addr := a; p_bits := b |}) _). by intros [].
Defined.

(** ** Routes of peers *)

(** The methods of [netip.Addr] on an address that is not IPv4-mapped. *)
Definition Is4In6 (a : Addr) : bool := match a with Addr6 v _ => is4in6 v | _ => false end.
Definition IsLoopback (a : Addr) : bool :=
  match Unmap a with Addr4 v => Z.shiftr v 24 =? 127 | Addr6 v _ => v =? 1 | AddrZero => false end.
Definition IsLinkLocalUnicast (a : Addr) : bool :=
  match Unmap a with Addr4 v => Z.shiftr v 16 =? 0xA9FE | Addr6 v _ => Z.shiftr v 118 =? 0x3FA | AddrZero => false end.
Definition IsInterfaceLocalMulticast (a : Addr) : bool :=
  match a with Addr6 v _ => Z.land (Z.shiftr v 112) 0xFF0F =? 0xFF01 | _ => false end.

Inductive route_error := InvalidPrefix | MappedPrefix | TooBroad | Reserved | OverlapsMesh.

Definition CheckPeerRoute (pfx mesh : Prefix) : result route_error unit :=
  if negb (prefix_valid pfx) then Err InvalidPrefix
  else
    let addr := p_addr (Masked pfx) in
    if Is4In6 addr then Err MappedPrefix
    else if p_bits pfx <? (if is4 addr then 8 else 16) then Err TooBroad
    else if IsLoopback addr || IsLinkLocalUnicast addr || IsMulticast addr || IsInterfaceLocalMulticast addr || IsUnspecified addr then Err Reserved
    else if prefix_valid mesh && Overlaps pfx (Masked mesh) then Err OverlapsMesh
    else Ok tt.

(** An address of a prefix has the leading bits of its base. *)
Lemma contains_lead p d n : prefix_ok p -> addr_ok d -> Contains p d = true -> 0 <= n <= p_bits p ->
  bit_len (p_addr (Masked p)) = bit_len d /\
  Z.shiftr (addr_val d) (bit_len d - n) = Z.shiftr (addr_val (p_addr (Masked p))) (bit_len d - n).
Proof.
  intros Hp Hd Hc Hn. destruct (masked_ok p Hp) as (Hq & Eb & Hm). rewrite <- Hm in Hc by done.
  apply Contains_iff in Hc as [El Es]; [|done..]. split; [done|]. rewrite Eb in Es. destruct Hq as [_ Hb]. rewrite Eb in Hb.
  apply (shiftr_weaken _ _ (bit_len d - p_bits p)); [lia|done].
Qed.

(** The base of a prefix is zero when the leading bits of an address of it are. *)
Lemma base_zero p d : prefix_ok p -> addr_ok d -> Contains p d = true ->
  Z.shiftr (addr_val d) (bit_len d - p_bits p) = 0 -> addr_val (p_addr (Masked p)) = 0.
Proof.
  intros Hp Hd Hc E. destruct Hp as [Hpa Hpb]. destruct (contains_lead p d (p_bits p) (conj Hpa Hpb) Hd Hc ltac:(lia)) as [El L]. rewrite E in L.
  destruct p as [a bits]. cbn [p_addr p_bits] in *. destruct Hpa as (Hz & Hn & Hr).
  rewrite masked_addr in L, El |- * by done. rewrite <- El in L.
  destruct a as [|v|v z]; [done|..]; cbn [addr_val bit_len p_addr] in *; rewrite Z.shiftr_shiftl_l, Z.sub_diag, Z.shiftl_0_r in L by lia;
    by rewrite <- L, Z.shiftl_0_l.
Qed.

(** C31: A route that is accepted from a peer captures none of the host's own
    traffic: no address of the mesh, no loopback, multicast or unspecified address
    and, for IPv6, no link-local address; and it is at most a /8, or a /16 of
    IPv6. *)
Theorem peer_route_safe pfx mesh d :
  prefix_ok pfx -> CheckPeerRoute pfx mesh = Ok tt -> addr_ok d -> Unmap d = d -> Contains pfx d = true ->
  (if is4 d then 8 else 16) <= p_bits pfx /\
  (prefix_ok mesh -> Contains mesh d = false) /\
  IsLoopback d = false /\ IsMulticast d = false /\ IsUnspecified d = false /\ (is4 d = false -> IsLinkLocalUnicast d = false).
Proof.
  intros Hp Hc Hd Hu Hin. unfold CheckPeerRoute in Hc. rewrite (prefix_ok_valid _ Hp) in Hc. cbn [negb] in Hc. cbv zeta in Hc.
  set (b := p_addr (Masked pfx)) in *. destruct (Is4In6 b) eqn:Em; [done|]. destruct (p_bits pfx <? _) eqn:Eb; [done|].
  destruct (IsLoopback b || _ || _ || _ || _) eqn:Er; [done|]. rewrite !orb_false_iff in Er. destruct Er as [[[[Elo Ell] Emu] _] Eun].
  destruct (prefix_valid mesh && _) eqn:Eo; [done|]. bool_to_prop.
  destruct (contains_lead pfx d 0 Hp Hd Hin) as [El _]; [destruct (is4 b); lia|]. fold b in El.
  assert (is4 b = is4 d) as E4 by (destruct Hd as [? _]; destruct b, d; try done). rewrite E4 in Eb.
  assert (forall n, 0 <= n <= p_bits pfx -> Z.shiftr (addr_val d) (bit_len d - n) = Z.shiftr (addr_val b) (bit_len d - n)) as Hlead
    by (intros n Hn; by apply (contains_lead pfx d n)).
  split; [lia|]. split.
  { intros Hm. apply not_true_iff_false. intros Hmd. destruct (masked_ok mesh Hm) as (Hq & _ & Hmc).
    rewrite (prefix_ok_valid _ Hm) in Eo. cbn [andb] in Eo. apply (Overlaps_disjoint pfx (Masked mesh) d); try done. by rewrite Hmc. }
  assert (Unmap b = b) as Hub by (destruct b; try done; cbn in Em |- *; by rewrite Em).
  unfold IsLoopback, IsMulticast, IsLinkLocalUnicast in *. rewrite Hub in *. rewrite Hu. pose proof (base_zero pfx d Hp Hd Hin) as Hbase. fold b in Hbase.
  assert (p_bits pfx <= bit_len b) as Hbits by (destruct (masked_ok pfx Hp) as ([_ Hmb] & Emb & _); rewrite Emb in Hmb; apply Hmb).
  assert (has_zone b = false) as Hzone by (by destruct (masked_ok pfx Hp) as ([(_ & ? & _) _] & _)).
  destruct d as [|v|v z]; [by destruct Hd|..].
  - destruct b as [|w|]; try done. cbn [is4 bit_len addr_val IsUnspecified] in *.
    pose proof (Hlead 8 ltac:(lia)) as L8. pose proof (Hlead 4 ltac:(lia)) as L4. change (32 - 8) with 24 in L8. change (32 - 4) with 28 in L4. rewrite L8, L4. split_and!; [done..| |done].
    apply Z.eqb_neq. intros ->. by rewrite Hbase in Eun by apply Z.shiftr_0_l.
  - destruct b as [| |w zw]; try done. cbn [is4 bit_len addr_val IsUnspecified] in *.
    assert (zw = ""%string) as -> by (cbn in Hzone; by destruct (String.eqb_spec zw "")).
    pose proof (Hlead 8 ltac:(lia)) as L8. pose proof (Hlead 10 ltac:(lia)) as L10. change (128 - 8) with 120 in L8. change (128 - 10) with 118 in L10. rewrite L8, L10. split_and!; [|done| |done].
    + apply Z.eqb_neq. intros ->. destruct (decide (p_bits pfx = 128)) as [E128|Hne].
      * pose proof (Hlead 128 ltac:(lia)) as L. change (128 - 128) with 0 in L. rewrite !Z.shiftr_0_r in L. by subst w.
      * rewrite Hbase in Eun; [done|]. apply Z.shiftr_eq_0; [lia|]. change (Z.log2 1) with 0. lia.
    + apply andb_false_iff. left. apply Z.eqb_neq. intros ->. by rewrite Hbase in Eun by apply Z.shiftr_0_l.
Qed.

Lemma peer_route_safe_witness :
  IsLoopback (Addr4 0x0A010203) = false /\ Contains {| p_addr := Addr4 0x64400000; p_bits := 10 |} (Addr4 0x0A010203) = false.
Proof.
  destruct (peer_route_safe {| p_addr := Addr4 0x0A010000; p_bits := 16 |} {| p_addr := Addr4 0x64400000; p_bits := 10 |} (Addr4 0x0A010203))
    as (_ & Hm & Hl & _); [by vm_compute|by vm_compute|by vm_compute|by vm_compute|by vm_compute|].
  split; [exact Hl|apply Hm; by vm_compute].
Defined.

(** A prefix is judged by its base address: one that contains the link-local
    addresses 169.254.0.0/16 is accepted. *)
Lemma link_local_within :
  let p := {| p_addr := Addr4 0xA9000000; p_bits := 8 |} in
  CheckPeerRoute p {| p_addr := Addr4 0x64400000; p_bits := 10 |} = Ok tt /\
  Contains p (Addr4 0xA9FE0001) = true /\ IsLinkLocalUnicast (Addr4 0xA9FE0001) = true.
Proof. by vm_compute. Qed.

(** ** Installing routes *)

(** [net.IPNet]: the bytes of the address and the length of the mask, [None] for
    the nil mask that [net.CIDRMask] returns when the length is out of range. *)
Record IPNet := { ip : list Z; ones : option Z }.
#[export] Instance IPNet_eq_dec : EqDecision IPNet.
Proof. solve_decision. Defined.
#[export] Instance IPNet_countable : Countable IPNet.
Proof. refine (inj_countable' (fun n => (ip n, ones n)) (fun '(a, b) => {| ip := a; ones := b |}) _). by intros []. Defined.

Definition CIDRMask (o bits : Z) : option Z := if (0 <=? o) && (o <=? bits) then Some o else None.
Definition AsSlice (a : Addr) : list Z :=
  match a with AddrZero => [] | Addr4 v => be_put 4 v | Addr6 v _ => be_put 16 v end.

(** [Bits] of an invalid prefix is -1 and its base the zero address. *)
Definition prefixToIPNet (p : Prefix) : IPNet :=
  let bits := if prefix_valid p then p_bits p else -1 in
  match (if prefix_valid p then p_addr (Masked p) else AddrZero) with
  | Addr4 v => {| ip := be_put 4 v; ones := CIDRMask bits 32 |}
  | a => {| ip := be_put 16 (addr_val a); ones := CIDRMask bits 128 |}
  end.

(** The kernel: what netlink does to it and the error it answers. *)
Class RouteHandle (K : Type) := {
  RouteReplace : IPNet -> list Z -> K -> K * option string;
  RouteDel : IPNet -> list Z -> K -> K * option string
}.

Definition isNotExist (err : string) : bool := String.eqb err "no such process".

Inductive manager_error := ReplaceFailed (p : Prefix) (via : Addr) (err : string) | DelFailed (p : Prefix) (err : string).

Record linuxManager := { routes : gmap Prefix Addr }.
Definition newLinuxManager : linuxManager := {| routes := ∅ |}.

Section Manager.
Context {K : Type} `{RouteHandle K}.

Definition Add (prefix : Prefix) (via : Addr) (m : linuxManager) (k : K) : linuxManager * K * option manager_error :=
  match RouteReplace (prefixToIPNet prefix) (AsSlice via) k with
  | (k, Some err) => (m, k, Some (ReplaceFailed prefix via err))
  | (k, None) => ({| routes := <[prefix := via]> (routes m) |}, k, None)
  end.

Definition Remove (prefix : Prefix) (m : linuxManager) (k : K) : linuxManager * K * option manager_error :=
  match routes m !! prefix with
  | None => (m, k, None)
  | Some via =>
      let '(k, err) := RouteDel (prefixToIPNet prefix) (AsSlice via) k in
      match err with
      | Some err => if isNotExist err then ({| routes := delete prefix (routes m) |}, k, None) else (m, k, Some (DelFailed prefix err))
      | None => ({| routes := delete prefix (routes m) |}, k, None)
      end
  end.

(** [Close]: the prefixes in the order the map is ranged over; the last error. *)
Fixpoint remove_all (prefixes : list Prefix) (m : linuxManager) (k : K) (last : option manager_error) : linuxManager * K * option manager_error :=
  match prefixes with
  | [] => (m, k, last)
  | p :: ps => let '(m, k, err) := Remove p m k in remove_all ps m k (match err with Some _ => err | None => last end)
  end.
Definition Close (prefixes : list Prefix) (m : linuxManager) (k : K) : linuxManager * K * option manager_error := remove_all prefixes m k None.
Definition ranged (prefixes : list Prefix) (m : linuxManager) : Prop := NoDup prefixes /\ forall p, p ∈ prefixes <-> p ∈ dom (routes m).

End Manager.

(** What the kernel promises of the routes at veld's metric: a replace that
    succeeds puts the gateway there; a delete takes the route away when it has the
    gateway and otherwise finds nothing; what fails changes nothing; other
    destinations are left alone. *)
Class RouteLaws (K : Type) `{RouteHandle K} := {
  route_at : K -> IPNet -> option (list Z);
  replace_ok : forall dst gw k, (RouteReplace dst gw k).2 = None ->
    forall d, route_at (RouteReplace dst gw k).1 d = if decide (d = dst) then Some gw else route_at k d;
  replace_failed : forall dst gw k e, (RouteReplace dst gw k).2 = Some e -> forall d, route_at (RouteReplace dst gw k).1 d = route_at k d;
  del_ok : forall dst gw k, (RouteDel dst gw k).2 = None -> route_at k dst = Some gw /\
    forall d, route_at (RouteDel dst gw k).1 d = if decide (d = dst) then None else route_at k d;
  del_missing : forall dst gw k, (RouteDel dst gw k).2 = Some "no such process"%string -> route_at k dst <> Some gw;
  del_failed : forall dst gw k e, (RouteDel dst gw k).2 = Some e -> forall d, route_at (RouteDel dst gw k).1 d = route_at k d
}.

(** A kernel with one table, which may refuse to write. *)
Record table_kernel := { kroutes : gmap IPNet (list Z); readonly : bool }.
#[export] Instance table_handle : RouteHandle table_kernel := {
  RouteReplace dst gw k :=
    if readonly k then (k, Some "operation not permitted"%string) else ({| kroutes := <[dst := gw]> (kroutes k); readonly := false |}, None);
  RouteDel dst gw k :=
    if readonly k then (k, Some "operation not permitted"%string)
    else if bool_decide (kroutes k !! dst = Some gw) then ({| kroutes := delete dst (kroutes k); readonly := false |}, None)
    else (k, Some "no such process"%string)
}.
#[export] Program Instance table_laws : RouteLaws table_kernel := { route_at k d := kroutes k !! d }.
Next Obligation. intros dst gw [r []] E d; cbn in *; [done|]. case_decide; [subst; by rewrite lookup_insert_eq|by rewrite lookup_insert_ne]. Qed.
Next Obligation. by intros dst gw [r []] e E d. Qed.
Next Obligation.
  intros dst gw [r []] E; cbn in *; [done|]. case_bool_decide; [|done]. split; [done|]. intros d. cbn.
  case_decide; [subst; by rewrite lookup_delete_eq|by rewrite lookup_delete_ne].
Qed.
Next Obligation. intros dst gw [r []] E; cbn in *; [done|]. by case_bool_decide. Qed.
Next Obligation. intros dst gw [r []] e E d; cbn in *; [done|]. by case_bool_decide. Qed.

(** *** Runs of the manager *)
Section Runs.
Context {K : Type} `{RouteLaws K}.

(** What a removal does to the kernel when it succeeds. *)
Definition without (dst : IPNet) (gw : list Z) (k k' : K) : Prop :=
  forall d, route_at k' d = if decide (d = dst /\ route_at k d = Some gw) then None else route_at k d.

Lemma Remove_spec p m k m' k' err : Remove p m k = (m', k', err) ->
  match routes m !! p, err with
  | Some via, None => routes m' = delete p (routes m) /\ without (prefixToIPNet p) (AsSlice via) k k'
  | Some _, Some _ => m' = m /\ forall d, route_at k' d = route_at k d
  | None, _ => m' = m /\ k' = k /\ err = None
  end.
Proof.
  unfold Remove. destruct (routes m !! p) as [via|] eqn:Er; [|by intros [= <- <- <-]].
  destruct (RouteDel _ _ k) as [k1 e1] eqn:Ed. pose proof (del_ok (prefixToIPNet p) (AsSlice via) k) as Ho.
  pose proof (del_failed (prefixToIPNet p) (AsSlice via) k) as Hf. pose proof (del_missing (prefixToIPNet p) (AsSlice via) k) as Hm.
  rewrite Ed in Ho, Hf, Hm. cbn in Ho, Hf, Hm. destruct e1 as [e|].
  - specialize (Hf _ eq_refl). unfold isNotExist. destruct (String.eqb_spec e "no such process") as [->|]; intros [= <- <- <-]; [|done].
    split; [done|]. intros d. rewrite Hf. destruct (decide _) as [[-> E]|]; [|done]. by destruct (Hm eq_refl).
  - intros [= <- <- <-]. split; [done|]. destruct (Ho eq_refl) as [E Hd]. intros d. rewrite Hd.
    repeat case_decide; naive_solver.
Qed.

(** The manager's calls and changes by others, with the destinations whose route
    is the one veld put there. *)
Inductive route_step : linuxManager * K * gset IPNet -> linuxManager * K * gset IPNet -> Prop :=
| RAdd p via m k mine m' k' err : Add p via m k = (m', k', err) ->
    route_step (m, k, mine) (m', k', match err with Some _ => mine | None => {[prefixToIPNet p]} ∪ mine end)
| RRemove p m k mine m' k' err : Remove p m k = (m', k', err) ->
    route_step (m, k, mine) (m', k', filter (fun d => route_at k' d = route_at k d) mine)
| RForeign dst m k mine k' : (forall d, d <> dst -> route_at k' d = route_at k d) ->
    route_step (m, k, mine) (m, k', mine ∖ {[dst]}).

(** What veld installed is tracked with its gateway. *)
Definition tracked (x : linuxManager * K * gset IPNet) : Prop :=
  forall dst, dst ∈ x.2 -> exists p via, prefixToIPNet p = dst /\ routes x.1.1 !! p = Some via /\ route_at x.1.2 dst = Some (AsSlice via).

Lemma route_step_tracked x y : route_step x y -> tracked x -> tracked y.
Proof.
  intros Hs Hx. destruct Hs as [p via m k mine m' k' err Ha|p m k mine m' k' err Hr|dst m k mine k' Hk]; intros d Hd; cbn [fst snd] in *.
  - unfold Add in Ha. pose proof (replace_ok (prefixToIPNet p) (AsSlice via) k) as Ho.
    pose proof (replace_failed (prefixToIPNet p) (AsSlice via) k) as Hf. destruct (RouteReplace _ _ k) as [k1 [e|]]; cbn in *; injection Ha as <- <- <-.
    + specialize (Hf _ eq_refl). destruct (Hx _ Hd) as (q & v & Eq & Er & Ek). exists q, v. by rewrite Hf.
    + specialize (Ho eq_refl). cbn [routes]. rewrite elem_of_union, elem_of_singleton in Hd. destruct (decide (d = prefixToIPNet p)) as [->|Hne].
      { exists p, via. split; [done|]. split; [apply lookup_insert_eq|]. by rewrite Ho, decide_True. }
      destruct Hd as [|Hd]; [done|]. destruct (Hx _ Hd) as (q & v & Eq & Er & Ek). exists q, v. cbn in *. subst d. split; [done|].
      rewrite lookup_insert_ne by congruence. by rewrite Ho, decide_False.
  - rewrite elem_of_filter in Hd. destruct Hd as [Es Hd]. destruct (Hx _ Hd) as (q & v & Eq & Er & Ek). cbn in Er, Ek. pose proof (Remove_spec _ _ _ _ _ _ Hr) as Hsp.
    destruct (routes m !! p) as [via|] eqn:Ep; [destruct err as [e|]|].
    + destruct Hsp as [-> Hsp]. exists q, v. by rewrite Hsp.
    + destruct Hsp as [-> Hsp]. exists q, v. split; [done|]. rewrite Es. split; [|done]. rewrite lookup_delete_ne; [done|]. intros ->.
      specialize (Hsp d). rewrite decide_True in Hsp by (split; congruence). congruence.
    + destruct Hsp as (-> & -> & _). by exists q, v.
  - rewrite elem_of_difference, elem_of_singleton in Hd. destruct Hd as [Hd Hne]. destruct (Hx _ Hd) as (q & v & Eq & Er & Ek).
    exists q, v. by rewrite Hk.
Qed.

Lemma remove_all_failed ps : forall m k e, (remove_all ps m k (Some e)).2 <> None.
Proof. induction ps as [|p ps IH]; intros m k e; cbn; [done|]. destruct (Remove p m k) as [[m1 k1] [e1|]]; apply IH. Qed.

(** When no delete fails, the routes tracked for the prefixes are gone and other
    routes stay. *)
Lemma remove_all_spec ps : forall m k m' k', NoDup ps -> remove_all ps m k None = (m', k', None) ->
  (forall p, routes m' !! p = if decide (p ∈ ps) then None else routes m !! p) /\
  forall d, route_at k' d = route_at k d /\ (forall p via, p ∈ ps -> routes m !! p = Some via -> prefixToIPNet p = d -> route_at k d <> Some (AsSlice via)) \/
            route_at k' d = None /\ exists p via, p ∈ ps /\ routes m !! p = Some via /\ prefixToIPNet p = d /\ route_at k d = Some (AsSlice via).
Proof.
  induction ps as [|q ps IH]; intros m k m' k' Hnd E; cbn [remove_all] in E.
  { injection E as <- <-. split; [done|]. intros d. left. split; [done|]. by intros p via ?%not_elem_of_nil. }
  inversion_clear Hnd as [|? ? Hq Hnd']. destruct (Remove q m k) as [[m1 k1] err] eqn:Er. pose proof (Remove_spec _ _ _ _ _ _ Er) as Hs.
  destruct err as [e|]; [pose proof (remove_all_failed ps m1 k1 e) as Hf; by rewrite E in Hf|].
  destruct (IH _ _ _ _ Hnd' E) as [Hr Hk]. assert (routes m1 = delete q (routes m)) as Em1.
  { destruct (routes m !! q) eqn:Eq; [apply Hs|]. destruct Hs as (-> & _). by rewrite delete_id. }
  split.
  - intros p. rewrite Hr, Em1. destruct (decide (p ∈ ps)) as [Hi|Hn]; [by rewrite decide_True by by right|].
    destruct (decide (p = q)) as [->|Hne]; [by rewrite decide_True, lookup_delete_eq by by left|].
    rewrite lookup_delete_ne, decide_False; [done|by rewrite elem_of_cons; intros []|done].
  - intros d. assert (route_at k1 d = route_at k d /\ (forall via, routes m !! q = Some via -> prefixToIPNet q = d -> route_at k d <> Some (AsSlice via)) \/
      route_at k1 d = None /\ exists via, routes m !! q = Some via /\ prefixToIPNet q = d /\ route_at k d = Some (AsSlice via)) as Hstep.
    { destruct (routes m !! q) as [via|]; [|destruct Hs as (_ & -> & _); by left]. destruct Hs as [_ Hs]. specialize (Hs d).
      destruct (decide _) as [[Ed Ek]|Hn]; [right; eauto|left]. split; [done|]. intros ? [= <-] Ed Ek. by apply Hn. }
    assert (forall p, p ∈ ps -> routes m1 !! p = routes m !! p) as Hm1 by (intros p Hp; rewrite Em1, lookup_delete_ne; [done|by intros ->]).
    destruct Hstep as [[E1 Hnq]|[E1 (via & Hq1)]].
    + rewrite <- E1. destruct (Hk d) as [[E2 Hn]|[E2 (p & via & Hp & Hx)]]; [left|right].
      * split; [done|]. intros p via [->|Hp]%elem_of_cons; [rewrite E1; by apply Hnq|]. rewrite <- Hm1 by done. by apply Hn.
      * split; [done|]. exists p, via. rewrite <- (Hm1 p Hp). split; [by right|done].
    + right. split; [|exists q, via; split; [by left|done]]. destruct (Hk d) as [[-> _]|[-> _]]; done.
Qed.

(** Stopping leaves the host's routes as others left them.  After any calls of
    the manager and any changes of the routing table by others, a [Close] that
    reports no error has taken away every route that veld installed and nobody
    replaced, in whatever order it visits them, and leaves every other route that
    has not the destination and gateway of a tracked one. *)
Theorem close_restores_routes k0 m k mine prefixes m' k' :
  rtc route_step (newLinuxManager, k0, ∅) (m, k, mine) -> ranged prefixes m -> Close prefixes m k = (m', k', None) ->
  routes m' = ∅ /\ (forall d, d ∈ mine -> route_at k' d = None) /\
  forall d, (forall p via, routes m !! p = Some via -> prefixToIPNet p = d -> route_at k d <> Some (AsSlice via)) -> route_at k' d = route_at k d.
Proof.
  intros Hrun [Hnd Hdom] Hc. assert (tracked (m, k, mine)) as Ht.
  { refine (rtc_ind_r tracked _ _ _ _ Hrun); [by intros d|]. intros x y _ Hs Hx. by eapply route_step_tracked. }
  destruct (remove_all_spec _ _ _ _ _ Hnd Hc) as [Hr Hk]. split_and!.
  - apply map_empty. intros p. rewrite Hr. case_decide as Hp; [done|]. rewrite Hdom in Hp. by apply not_elem_of_dom.
  - intros d Hd. destruct (Ht d Hd) as (p & via & Ep & Er & Ek). cbn in Er, Ek. destruct (Hk d) as [[_ Hn]|[E _]]; [|done]. exfalso.
    eapply Hn; [|done..]. apply Hdom. by eapply elem_of_dom_2.
  - intros d Hn. destruct (Hk d) as [[E _]|[_ (p & via & _ & Er & Ep & Ek)]]; [done|]. exfalso. by eapply Hn.
Qed.

End Runs.

Definition demo_net : Prefix := {| p_addr := Addr4 0x0A010000; p_bits := 16 |}.
Definition demo_net2 : Prefix := {| p_addr := Addr4 0x0A020000; p_bits := 16 |}.
Definition demo_kernel : table_kernel := {| kroutes := {[prefixToIPNet demo_net2 := [10; 0; 0; 1]]}; readonly := false |}.
Definition demo_added : linuxManager * table_kernel := (Add demo_net (Addr4 0x64400002) newLinuxManager demo_kernel).1.

Lemma close_restores_routes_witness :
  routes (Close [demo_net] demo_added.1 demo_added.2).1.1 = ∅ /\
  kroutes (Close [demo_net] demo_added.1 demo_added.2).1.2 !! prefixToIPNet demo_net = None /\
  kroutes demo_added.2 !! prefixToIPNet demo_net = Some [100; 64; 0; 2] /\
  kroutes (Close [demo_net] demo_added.1 demo_added.2).1.2 !! prefixToIPNet demo_net2 = Some [10; 0; 0; 1].
Proof.
  destruct (close_restores_routes demo_kernel demo_added.1 demo_added.2 ({[prefixToIPNet demo_net]} ∪ ∅) [demo_net]
    (Close [demo_net] demo_added.1 demo_added.2).1.1 (Close [demo_net] demo_added.1 demo_added.2).1.2) as (H1 & H2 & H3).
  - apply rtc_once. exact (RAdd demo_net (Addr4 0x64400002) newLinuxManager demo_kernel ∅ demo_added.1 demo_added.2 None eq_refl).
  - split; [repeat constructor; set_solver|]. intros p. change (dom (routes demo_added.1)) with (dom (<[demo_net := Addr4 0x64400002]> (∅ : gmap Prefix Addr))). set_solver.
  - vm_compute. reflexivity.
  - split; [exact H1|]. split; [apply H2; set_solver|]. split; [vm_compute; reflexivity|].
    etransitivity; [apply H3|vm_compute; reflexivity]. intros p via Hp Ep. change (routes demo_added.1) with (<[demo_net := Addr4 0x64400002]> (∅ : gmap Prefix Addr)) in Hp.
    apply lookup_insert_Some in Hp as [[<- _]|[_ Hp]]; [by vm_compute in Ep|by rewrite lookup_empty in Hp].
Defined.

(** ** IP forwarding *)

(** The file of the setting: its text, whether it can be read and written. *)
Record sysctl := { text : string; can_read : bool; can_write : bool }.
Definition WriteFile (s : string) (f : sysctl) : option sysctl :=
  if can_write f then Some {| text := s; can_read := can_read f; can_write := true |} else None.
Definition newline : string := String (Ascii.ascii_of_nat 10) EmptyString.

(** The function returned to undo it: nothing, or writing the previous text. *)
Inductive restore := Leave | PutBack (prev : string).
Definition run_restore (r : restore) (f : sysctl) : option sysctl :=
  match r with Leave => Some f | PutBack prev => WriteFile prev f end.

Definition EnableIPForward (f : sysctl) : option (sysctl * restore) :=
  if negb (can_read f) then None
  else if String.eqb (Scan.TrimSpace (text f)) "1" then Some (f, Leave)
  else f' ← WriteFile ("1" ++ newline) f; Some (f', PutBack (text f)).

(** Forwarding is on afterwards, and restoring puts the file back. *)
Lemma forward_restored f f' r : EnableIPForward f = Some (f', r) ->
  Scan.TrimSpace (text f') = "1" /\ run_restore r f' = Some f.
Proof.
  unfold EnableIPForward. destruct f as [t [] w]; cbn [can_read negb text]; [|done]. destruct (String.eqb_spec (Scan.TrimSpace t) "1") as [E|_].
  - intros [= <- <-]. done.
  - intros (f1 & E1 & [= <- <-])%bind_Some. unfold WriteFile in E1. destruct w; [|done]. injection E1 as <-. by vm_compute.
Qed.

End Route.
