(* ===== verification/Config.v ===== *)
(** * Configuration and key files

    [Config] models [src/internal/config/config.go], the node's configuration and
    its validation, and [src/internal/config/keystore.go], the file an identity is
    kept in.  The TOML and JSON decoders are arguments; a file is its bytes, and
    whether reading and writing it succeeds is an argument too. *)
From Stdlib Require Import ZArith Lia.
From stdpp Require Import base numbers list gmap strings.
From S2P Require Import Prelude GoLib Noise.

Module Config.
#[local] Open Scope veld_scope.
Import Noise.Noise.

(** ** The configuration *)
Record DNSConfig := { dns_Enabled : bool; Domain : string; dns_ListenAddr : string }.
Record MDNSConfig := { mdns_Enabled : bool; mdns_Name : string }.
Record NodeConfig := {
  IdentityPath : string; VPNAddr : string; ListenAddr : string; NetworkID : string; IfaceName : string; MTU : Z;
  SubnetRoutes : list string; Userspace : bool
}.
Record CoordConfig := {
  Addr : string; c_NetworkID : string; Token : string; TLSInsecure : bool; STUNServer : string; RelayAddr : string; RelayX25519 : string
}.
Record DaemonConfig := { SocketPath : string; LocalFile : string }.
Record PeerConfig := {
  pc_Name : string; pc_Ed25519Public : string; pc_X25519Public : string; pc_VPNAddr : string; pc_Endpoint : string; pc_SubnetRoutes : list string
}.
Record Config := { Node : NodeConfig; Coord : CoordConfig; Daemon : DaemonConfig; DNS : DNSConfig; MDNS : MDNSConfig; Peers : list PeerConfig }.

Inductive config_error :=
| ReadError | ParseError | NeedIdentityPath | NeedVPNAddr | NeedListenAddr | BadNetworkID | BadRelayKey
| NeedEd25519 (i : nat) | NeedX25519 (i : nat) | NeedPeerVPNAddr (i : nat).

(** The loop over the peers, from index [i]. *)
Fixpoint validate_peers (i : nat) (l : list PeerConfig) : result config_error unit :=
  match l with
  | [] => Ok tt
  | p :: l' =>
      _ <-! guard_err (negb (String.eqb (pc_Ed25519Public p) "")) (NeedEd25519 i);
      _ <-! guard_err (negb (String.eqb (pc_X25519Public p) "")) (NeedX25519 i);
      _ <-! guard_err (negb (String.eqb (pc_VPNAddr p) "")) (NeedPeerVPNAddr i);
      validate_peers (S i) l'
  end.

(** The network of a configuration: the node's, or else the coordinator's. *)
Definition network_id (c : Config) : string :=
  if String.eqb (NetworkID (Node c)) "" then c_NetworkID (Coord c) else NetworkID (Node c).

Definition relay_key (c : Config) : option (list Z) :=
  b ← Base64.DecodeString (RelayX25519 (Coord c)); if (length b =? 32)%nat then Some b else None.

Definition Validate (c : Config) : result config_error unit :=
  _ <-! guard_err (negb (String.eqb (IdentityPath (Node c)) "")) NeedIdentityPath;
  _ <-! (if String.eqb (Addr (Coord c)) "" then
           _ <-! guard_err (negb (String.eqb (VPNAddr (Node c)) "")) NeedVPNAddr;
           guard_err (negb (String.eqb (ListenAddr (Node c)) "")) NeedListenAddr
         else Ok tt);
  _ <-! guard_err (String.length (Scan.TrimSpace (network_id c)) =? 32)%nat BadNetworkID;
  _ <-! (if String.eqb (RelayAddr (Coord c)) "" then Ok tt
         else match relay_key c with Some _ => Ok tt | None => Err BadRelayKey end);
  validate_peers 0 (Peers c).

Section Load.
Variable toml_decode : string -> option Config.

Definition ParseConfig (src : string) : result config_error Config :=
  match toml_decode src with
  | None => Err ParseError
  | Some cfg => _ <-! Validate cfg; Ok cfg
  end.

(** [LoadFile] of a file with this content, [None] when it cannot be read. *)
Definition LoadFile (data : option string) : result config_error Config :=
  match data with None => Err ReadError | Some src => ParseConfig src end.

End Load.

(** What a configuration has that was loaded. *)
Record config_ok (c : Config) : Prop := {
  co_identity : IdentityPath (Node c) <> ""%string;
  co_static : Addr (Coord c) = ""%string -> VPNAddr (Node c) <> ""%string /\ ListenAddr (Node c) <> ""%string;
  co_network : String.length (Scan.TrimSpace (network_id c)) = 32%nat;
  co_relay : RelayAddr (Coord c) <> ""%string -> is_Some (relay_key c);
  co_peers : Forall (fun p => pc_Ed25519Public p <> ""%string /\ pc_X25519Public p <> ""%string /\ pc_VPNAddr p <> ""%string) (Peers c)
}.

Lemma validate_peers_ok l : forall i, validate_peers i l = Ok tt <->
  Forall (fun p => pc_Ed25519Public p <> ""%string /\ pc_X25519Public p <> ""%string /\ pc_VPNAddr p <> ""%string) l.
Proof.
  induction l as [|p l IH]; intros i; cbn; [split; [constructor|done]|]. rewrite Forall_cons, <- (IH (S i)).
  destruct (String.eqb_spec (pc_Ed25519Public p) ""), (String.eqb_spec (pc_X25519Public p) ""), (String.eqb_spec (pc_VPNAddr p) ""); cbn;
    split; naive_solver.
Qed.

(** [Validate] accepts exactly these. *)
Lemma Validate_iff c : Validate c = Ok tt <-> config_ok c.
Proof.
  unfold Validate. destruct (String.eqb_spec (IdentityPath (Node c)) "") as [Hi|Hi]; cbn [negb guard_err result_bind]; [split; [done|by intros []]|].
  destruct (String.eqb_spec (Addr (Coord c)) "") as [Ha|Ha], (String.eqb_spec (VPNAddr (Node c)) "") as [Hv|Hv],
    (String.eqb_spec (ListenAddr (Node c)) "") as [Hl|Hl]; cbn [negb guard_err result_bind]; try (split; [done|]; intros [_ Hs]; by destruct (Hs Ha)).
  all: destruct (Nat.eqb_spec (String.length (Scan.TrimSpace (network_id c))) 32) as [Hn|Hn]; cbn [negb guard_err result_bind]; [|split; [done|by intros []]].
  all: destruct (String.eqb_spec (RelayAddr (Coord c)) "") as [Hr|Hr]; cbn [negb guard_err result_bind]; [|destruct (relay_key c) as [k|] eqn:Ek; cbn [result_bind]].
  all: try (split; [done|]; intros [_ _ _ Hk]; rewrite Ek in Hk; by destruct (Hk Hr)).
  all: rewrite validate_peers_ok; split; [intros Hp; constructor; try done; intros ?; try done; by rewrite Ek|by intros []].
Qed.

(** ** The key file *)
Record KeystoreFile := { Version : Z; ks_Ed25519Private : string; ks_X25519Private : string; ks_X25519PubkeySig : string }.

(** The JSON codec; the law is that it reads back what it wrote. *)
Class KeystoreCodec := { marshal : KeystoreFile -> list Z; unmarshal : list Z -> option KeystoreFile }.
Class KeystoreCodecLaws `{KeystoreCodec} := unmarshal_marshal k : unmarshal (marshal k) = Some k.

Inductive keystore_error :=
| NotExist | KsRead | KsJSON | KsVersion | KsEd25519 | KsEd25519Length | KsSelfTest | KsX25519 | KsX25519Length | KsZero | KsDerive
| KsGenerate | KsSave.

Definition isAllZero (b : list Z) : bool := forallb (Z.eqb 0) b.

Section Keystore.
Context `{NoiseLib} `{KeystoreCodec}.

(** The file: absent, or its bytes; [readable]: it can be read. *)
Definition Load (readable : bool) (file : option (list Z)) : result keystore_error Identity :=
  match file, readable with
  | None, _ => Err NotExist
  | Some _, false => Err KsRead
  | Some data, true =>
      match unmarshal data with
      | None => Err KsJSON
      | Some ksf =>
          _ <-! guard_err (Version ksf =? 1) KsVersion;
          match Base64.DecodeString (ks_Ed25519Private ksf) with
          | None => Err KsEd25519
          | Some priv =>
              _ <-! guard_err (length priv =? 64)%nat KsEd25519Length;
              let pub := public_of priv in
              _ <-! guard_err (verify pub selfTestMsg (sign priv selfTestMsg)) KsSelfTest;
              match Base64.DecodeString (ks_X25519Private ksf) with
              | None => Err KsX25519
              | Some xb =>
                  _ <-! guard_err (length xb =? 32)%nat KsX25519Length;
                  _ <-! guard_err (negb (isAllZero xb)) KsZero;
                  match X25519 xb with
                  | None => Err KsDerive
                  | Some xp =>
                      let xpub := array 32 xp in
                      Ok {| Ed25519Private := priv; Ed25519Public := pub; X25519Private := xb; X25519Public := xpub;
                            X25519Sig := array 64 (sign priv xpub) |}
                  end
              end
          end
      end
  end.

(** How the write goes: the file is written; the directory or the file cannot be
    opened; or the file was truncated and only the first [n] bytes reached it
    ([os.WriteFile] truncates first). *)
Inductive write_outcome := Written | NotOpened | CutShort (n : nat).

Definition Save (io : write_outcome) (id : Identity) (file : option (list Z)) : option (list Z) * result keystore_error unit :=
  let data := marshal {| Version := 1; ks_Ed25519Private := Base64.EncodeToString (Ed25519Private id);
                         ks_X25519Private := Base64.EncodeToString (X25519Private id);
                         ks_X25519PubkeySig := Base64.EncodeToString (X25519Sig id) |} in
  match io with
  | Written => (Some data, Ok tt)
  | NotOpened => (file, Err KsSave)
  | CutShort n => (Some (take n data), Err KsSave)
  end.

Definition LoadOrGenerate (readable : bool) (io : write_outcome) (priv random : option (list Z)) (file : option (list Z))
    : option (list Z) * result keystore_error Identity :=
  match Load readable file with
  | Ok id => (file, Ok id)
  | Err NotExist =>
      match Generate priv random with
      | Err _ => (file, Err KsGenerate)
      | Ok id => match Save io id file with
                 | (file, Ok _) => (file, Ok id)
                 | (file, Err _) => (file, Err KsSave)
                 end
      end
  | Err e => (file, Err e)
  end.

(** An identity whose parts belong together. *)
Record identity_ok (id : Identity) : Prop := {
  io_test : selfTest id = Ok tt;
  io_bytes : bytes_ok (Ed25519Private id) /\ bytes_ok (X25519Private id);
  io_x : length (X25519Private id) = 32%nat;
  io_sig : X25519Sig id = array 64 (sign (Ed25519Private id) (X25519Public id))
}.

Lemma Load_Save `{!KeystoreCodecLaws} id file : identity_ok id -> Load true (Save Written id file).1 = Ok id.
Proof.
  intros [Ht [Hb1 Hb2] Hx Hs]. unfold Save, Load. cbn [fst]. rewrite unmarshal_marshal. cbn [Version ks_Ed25519Private ks_X25519Private].
  rewrite !Base64.base64_roundtrip by done. revert Ht. unfold selfTest.
  destruct (length (Ed25519Private id) =? 64)%nat; cbn [negb guard_err result_bind]; [|done]. case_bool_decide as Hp; cbn [negb guard_err result_bind]; [|done]. cbv zeta. rewrite <- Hp.
  destruct (verify (Ed25519Public id) selfTestMsg _); cbn [negb guard_err result_bind]; [|done]. rewrite Hx. cbn [Nat.eqb negb guard_err result_bind]. unfold isAllZero.
  destruct (negb (forallb (Z.eqb 0) (X25519Private id))); cbn [negb guard_err result_bind]; [|done]. destruct (X25519 (X25519Private id)) as [d|]; [|done].
  case_bool_decide as Hd; cbn [negb guard_err result_bind]; [|done]. intros _. rewrite Hd, <- Hs. by destruct id.
Qed.

Lemma clamp_bytes l : bytes_ok l -> bytes_ok (clamp l).
Proof.
  assert (forall f i l, (forall b, byte_ok b -> byte_ok (f b)) -> bytes_ok l -> bytes_ok (alter f i l)) as Halter.
  { intros f i l' Hf Hl. apply Forall_lookup. intros j b Hb. unfold bytes_ok in Hl. rewrite Forall_lookup in Hl.
    destruct (decide (i = j)) as [->|Hne]; [|rewrite list_lookup_alter_ne in Hb by done; by eapply Hl].
    rewrite list_lookup_alter_eq in Hb. destruct (l' !! j) as [b'|] eqn:E; [|done]. injection Hb as <-. by eapply Hf, Hl. }
  assert (forall f, (forallb (fun b => (0 <=? f b) && (f b <? 256)) (seqZ 0 256) = true) -> forall b, byte_ok b -> byte_ok (f b)) as Hall.
  { intros f Hf b Hb. rewrite forallb_forall in Hf. specialize (Hf b). rewrite <- list_elem_of_In, elem_of_seqZ in Hf.
    unfold byte_ok in *. specialize (Hf ltac:(lia)). bool_to_prop. lia. }
  intros Hl. unfold clamp. do 2 (apply Halter; [by apply Hall; vm_compute|]). apply Halter; [by apply Hall; vm_compute|done].
Qed.

Lemma Generate_ok priv random id : Generate (Some priv) (Some random) = Ok id -> bytes_ok priv -> bytes_ok random -> length random = 32%nat ->
  identity_ok id.
Proof.
  unfold Generate. intros E Hp Hr Hl. destruct (X25519 (clamp random)) as [pub|]; [|done]. cbv zeta in E.
  destruct (selfTest _) as [[]|] eqn:Et; [|done]. injection E as <-. split; cbn; try done.
  - split; [done|by apply clamp_bytes].
  - unfold clamp. by rewrite !length_alter.
Qed.

(** C34: A node keeps its identity.  When the key file does not exist and an
    identity could be generated and saved, every later start reads exactly that
    identity back from the file, whatever randomness it is given, and leaves the
    file alone. *)
Theorem identity_persists `{!KeystoreCodecLaws} priv random id file io0 io priv' random' :
  bytes_ok priv -> bytes_ok random -> length random = 32%nat ->
  LoadOrGenerate true io0 (Some priv) (Some random) None = (file, Ok id) ->
  LoadOrGenerate true io priv' random' file = (file, Ok id) /\ selfTest id = Ok tt.
Proof.
  intros Hp Hr Hl. unfold LoadOrGenerate at 1. cbn [Load]. destruct (Generate _ _) as [i|] eqn:Eg; [|done].
  pose proof (Generate_ok _ _ _ Eg Hp Hr Hl) as Hid. pose proof (Load_Save i None Hid) as HL.
  destruct io0; cbn [Save]; [|done..]. intros [= <- <-]. cbn [Save fst] in HL. unfold LoadOrGenerate. rewrite HL. split; [done|apply Hid].
Qed.

End Keystore.

(** *** Witnesses

    A codec that numbers the files, and keys that are their own public part. *)
#[local] Instance toy_codec : KeystoreCodec := {
  marshal k := [Zpos (encode (Version k, ks_Ed25519Private k, ks_X25519Private k, ks_X25519PubkeySig k))];
  unmarshal l :=
    match l with
    | [Zpos n] => '(v, a, b, c) ← decode n; Some {| Version := v; ks_Ed25519Private := a; ks_X25519Private := b; ks_X25519PubkeySig := c |}
    | _ => None
    end
}.
#[local] Instance toy_codec_laws : KeystoreCodecLaws.
Proof. intros [v a b c]. cbn. by rewrite decode_encode, bind_Some_eq. Qed.

#[local] Instance toy_lib : NoiseLib := {
  HandshakeState := unit;
  new_initiator _ _ _ := None; new_responder _ _ := None; WriteMessage _ _ _ := None; ReadMessage _ _ := None; PeerStatic _ := [];
  sign priv m := array 64 (take 32 priv ++ m); verify pub m sig := bool_decide (sig = array 64 (pub ++ m));
  public_of := take 32; X25519 x := Some x; sha256 x := x
}.

Definition toy_random : list Z := replicate 32 7.
Definition toy_start : option (list Z) * result keystore_error Identity :=
  LoadOrGenerate true Written (Some (replicate 64 5)) (Some toy_random) None.
Definition toy_identity : Identity :=
  match toy_start.2 with
  | Ok id => id
  | Err _ => {| Ed25519Private := []; Ed25519Public := []; X25519Private := []; X25519Public := []; X25519Sig := [] |}
  end.

Lemma toy_started : LoadOrGenerate true Written (Some (replicate 64 5)) (Some toy_random) None = (toy_start.1, Ok toy_identity).
Proof.
  unfold toy_identity. fold toy_start. assert (is_ok toy_start.2 = true) as Hok by by vm_compute. destruct toy_start as [f [id|]]; [done|done].
Qed.

Lemma identity_persists_witness : LoadOrGenerate true NotOpened None None toy_start.1 = (toy_start.1, Ok toy_identity).
Proof.
  refine (proj1 (identity_persists (replicate 64 5) toy_random toy_identity toy_start.1 Written NotOpened None None _ _ eq_refl toy_started)).
  - apply Forall_replicate. by vm_compute.
  - apply Forall_replicate. by vm_compute.
Defined.

(** A key file that was cut short while it was written is not replaced: every
    later start fails to read it. *)
Example torn_key_file :
  let '(file, r) := LoadOrGenerate true (CutShort 0) (Some (replicate 64 5)) (Some toy_random) None in
  is_ok r = false /\ is_ok (LoadOrGenerate true Written (Some (replicate 64 5)) (Some toy_random) file).2 = false.
Proof. by vm_compute. Qed.

(** The network is checked for its length only, after trimming; the daemon decodes
    it as it stands. *)
Definition padded_config : Config :=
  {| Node := {| IdentityPath := "id.json"; VPNAddr := "10.0.0.1/24"; ListenAddr := "0.0.0.0:51820";
                NetworkID := " 00112233445566778899aabbccddeeff"; IfaceName := ""; MTU := 0; SubnetRoutes := []; Userspace := false |};
     Coord := {| Addr := ""; c_NetworkID := ""; Token := ""; TLSInsecure := false; STUNServer := ""; RelayAddr := ""; RelayX25519 := "" |};
     Daemon := {| SocketPath := ""; LocalFile := "" |}; DNS := {| dns_Enabled := false; Domain := ""; dns_ListenAddr := "" |};
     MDNS := {| mdns_Enabled := false; mdns_Name := "" |}; Peers := [] |}.
Lemma padded_network_id : Validate padded_config = Ok tt /\ Hex.DecodeString (network_id padded_config) = None.
Proof. by vm_compute. Qed.

End Config.
