(* ===== verification/Mdns.v ===== *)
(** * LAN discovery

    [Mdns] models [src/internal/mdns/discovery.go]: what a node advertises, and
    what it makes of the entries a browse returns.  The mDNS library, the timers
    and the browse goroutine are not modelled; a browse is the list of pointers the
    library sent, with the entries they point to when the query is over. *)
From Stdlib Require Import ZArith Lia.
From stdpp Require Import base numbers list gmap strings.
From S2P Require Import Prelude GoLib PeerTable AddrText Noise.

Module Mdns.
Import Netip AddrText Strings.
Abbreviation Entry := PeerTable.Entry.

(** ** Advertising *)

(** The arguments of [NewMDNSService] that depend on the node. *)
Record service := { sv_name : string; sv_port : Z; sv_ips : list (list Z); sv_txt : list string }.

(** [To4] of a [net.IP], [None] for nil. *)
Definition To4 (ip : list Z) : option (list Z) :=
  if (length ip =? 4)%nat then Some ip
  else if (length ip =? 16)%nat && bool_decide (take 12 ip = zeros 10 ++ [255; 255]) then Some (drop 12 ip)
  else None.

(** The interface addresses: [None] for one that is no [IPNet]. *)
Definition ip_loopback (ip : list Z) : bool :=
  match To4 ip with Some v4 => bool_decide (head v4 = Some 127) | None => bool_decide (ip = zeros 15 ++ [1]) end.
Definition nonLoopbackIPv4s (addrs : list (option (list Z))) : list (list Z) :=
  let ips := omap (fun a => ip ← a; if ip_loopback ip then None else To4 ip) addrs in
  match ips with [] => [zeros 10 ++ [255; 255; 127; 0; 0; 1]] | _ => ips end.

Definition New (id : Noise.Identity) (name : string) (vpnAddr : Addr) (dataPort : Z) (addrs : list (option (list Z))) : service :=
  {| sv_name := name; sv_port := dataPort; sv_ips := nonLoopbackIPv4s addrs;
     sv_txt := [("ed25519=" ++ RawURL.EncodeToString (Noise.Ed25519Public id))%string;
                ("x25519=" ++ RawURL.EncodeToString (Noise.X25519Public id))%string;
                ("vpn=" ++ addr_string vpnAddr)%string] |}.

(** ** Browsing *)
Record ServiceEntry := { se_Name : string; InfoFields : list string; AddrV4 : option (list Z); AddrV6 : option (list Z); Port : Z }.

(** [strings.CutPrefix]. *)
Definition CutPrefix (p s : string) : option string := if has_prefix p s then Some (drop_str (String.length p) s) else None.

(** The three fields; a later one wins. *)
Definition read_field (acc : string * string * string) (field : string) : string * string * string :=
  let '(ed, x, vpn) := acc in
  match CutPrefix "ed25519=" field with
  | Some v => (v, x, vpn)
  | None => match CutPrefix "x25519=" field with
            | Some v => (ed, v, vpn)
            | None => match CutPrefix "vpn=" field with Some v => (ed, x, v) | None => acc end
            end
  end.

Definition decode32 (s : string) : option (list Z) :=
  b ← RawURL.DecodeString s; if (length b =? 32)%nat then Some b else None.

Definition AddrFromSlice (b : list Z) : option Addr :=
  if (length b =? 4)%nat then Some (AddrFrom4 b) else if (length b =? 16)%nat then Some (AddrFrom16 b) else None.

Definition entry_endpoint (e : ServiceEntry) : AddrPort :=
  match AddrV4 e with
  | Some ip =>
      match (b ← To4 ip; AddrFromSlice b) with
      | Some a => {| ap_addr := a; ap_port := u16 (Port e) |}
      | None => ap_zero
      end
  | None =>
      match (ip ← AddrV6 e; AddrFromSlice ip) with
      | Some a => {| ap_addr := a; ap_port := u16 (Port e) |}
      | None => ap_zero
      end
  end.

Definition peer_entry (id x25519 : list Z) (a : Addr) (name : string) : Entry :=
  {| PeerTable.ID := id; PeerTable.X25519Pub := x25519; PeerTable.VPNAddr := a; PeerTable.Name := name; PeerTable.SubnetRoutes := [];
     PeerTable.endpoint := ap_zero; PeerTable.session := None; PeerTable.pendingSession := None; PeerTable.prevSession := None;
     PeerTable.state := PeerTable.StatePending; PeerTable.lastSeen := 0; PeerTable.holdQueue := [] |}.

Definition parsePeerEntry (e : ServiceEntry) : option (Entry * AddrPort) :=
  let '(ed25519B64, x25519B64, vpnStr) := foldl read_field (""%string, ""%string, ""%string) (InfoFields e) in
  if String.eqb ed25519B64 "" || String.eqb x25519B64 "" || String.eqb vpnStr "" then None
  else
    id ← decode32 ed25519B64;
    x25519 ← decode32 x25519B64;
    vpnAddr ← ParseAddr vpnStr;
    Some (peer_entry id x25519 vpnAddr (se_Name e), entry_endpoint e).

(** The call of [onPeer], if any. *)
Definition handleEntry (selfID : list Z) (e : ServiceEntry) : list (Entry * AddrPort) :=
  match parsePeerEntry e with
  | Some (pe, ep) => if bool_decide (PeerTable.ID pe = selfID) then [] else [(pe, ep)]
  | None => []
  end.

(** The loop over the pointers collected, without those seen before. *)
Fixpoint handle_from (seen : gset nat) (selfID : list Z) (heap : nat -> ServiceEntry) (l : list nat) : list (Entry * AddrPort) :=
  match l with
  | [] => []
  | p :: l' =>
      if bool_decide (p ∈ seen) then handle_from seen selfID heap l'
      else handleEntry selfID (heap p) ++ handle_from ({[p]} ∪ seen) selfID heap l'
  end.
Definition handleCollected (selfID : list Z) (heap : nat -> ServiceEntry) (l : list nat) : list (Entry * AddrPort) := handle_from ∅ selfID heap l.

(** ** Proofs *)

Lemma prefix_append p s : String.prefix p (p ++ s) = true.
Proof. induction p as [|c p IH]; [by destruct s|]. change (String c p ++ s)%string with (String c (p ++ s)). cbn [String.prefix]. destruct (Ascii.ascii_dec c c) as [_|Hn]; [exact IH|by destruct Hn]. Qed.
Lemma drop_append p s : drop_str (String.length p) (p ++ s) = s.
Proof. by induction p. Qed.
Lemma CutPrefix_append p s : CutPrefix p (p ++ s) = Some s.
Proof. unfold CutPrefix, has_prefix. by rewrite prefix_append, drop_append. Qed.

Lemma decode32_encode k : bytes_ok k -> length k = 32%nat -> RawURL.EncodeToString k <> ""%string /\ decode32 (RawURL.EncodeToString k) = Some k.
Proof.
  intros Hb Hl. pose proof (RawURL.rawurl_roundtrip k Hb) as E. split; [|unfold decode32; by rewrite E, bind_Some_eq, Hl].
  intros E0. rewrite E0 in E. vm_compute in E. injection E as <-. done.
Qed.

(** Removing the repetitions of a list, the first of each kept. *)
Fixpoint distinct_from (seen : gset nat) (l : list nat) : list nat :=
  match l with
  | [] => []
  | p :: l' => if bool_decide (p ∈ seen) then distinct_from seen l' else p :: distinct_from ({[p]} ∪ seen) l'
  end.

Lemma handle_from_distinct self heap l : forall seen, handle_from seen self heap l = distinct_from seen l ≫= (fun p => handleEntry self (heap p)).
Proof. induction l as [|p l IH]; intros seen; cbn; [done|]. case_bool_decide; [done|]. cbn. by rewrite IH. Qed.

Lemma distinct_from_spec l : forall seen, NoDup (distinct_from seen l) /\ forall p, p ∈ distinct_from seen l <-> p ∈ l /\ p ∉ seen.
Proof.
  induction l as [|q l IH]; intros seen; cbn; [split; [constructor|set_solver]|].
  case_bool_decide as Hq.
  - destruct (IH seen) as [Hn He]. split; [done|]. intros p. rewrite He, elem_of_cons. naive_solver.
  - destruct (IH ({[q]} ∪ seen)) as [Hn He]. split.
    + constructor; [rewrite He; set_solver|done].
    + intros p. rewrite !elem_of_cons, He. destruct (decide (p = q)); set_solver.
Qed.

(** What a node advertises is what a browsing node reads: its keys, its VPN
    address and the endpoint its data plane listens on; a node ignores its own
    advertisement, and an entry the library reports several times is handled
    once. *)
Theorem advertised_peer_found id name vpnAddr port addrs ip entry self heap l p :
  bytes_ok (Noise.Ed25519Public id) -> length (Noise.Ed25519Public id) = 32%nat ->
  bytes_ok (Noise.X25519Public id) -> length (Noise.X25519Public id) = 32%nat ->
  ip4_ok vpnAddr -> 0 <= port < 65536 ->
  InfoFields entry = sv_txt (New id name vpnAddr port addrs) -> Port entry = sv_port (New id name vpnAddr port addrs) ->
  AddrV4 entry = Some ip -> length ip = 4%nat -> l <> [] -> (forall q, q ∈ l -> q = p) -> heap p = entry ->
  handleCollected self heap l =
    if bool_decide (Noise.Ed25519Public id = self) then []
    else [(peer_entry (Noise.Ed25519Public id) (Noise.X25519Public id) vpnAddr (se_Name entry), {| ap_addr := AddrFrom4 ip; ap_port := port |})].
Proof.
  intros Hb1 Hl1 Hb2 Hl2 Ha Hp Ht Hpt H4 Hip Hne Hall Hh.
  assert (distinct_from ∅ l = [p]) as El.
  { destruct (distinct_from_spec l ∅) as [Hn He]. destruct (distinct_from ∅ l) as [|a [|b r]] eqn:E.
    - destruct l as [|q l]; [done|]. assert (q ∈ []) as Hq by (apply He; set_solver). by apply not_elem_of_nil in Hq.
    - f_equal. apply Hall, He. by left.
    - exfalso. assert (a = p /\ b = p) as [-> ->] by (split; apply Hall, He; set_solver). inversion Hn; set_solver. }
  unfold handleCollected. rewrite handle_from_distinct, El. cbn [mbind list_bind]. rewrite app_nil_r, Hh. unfold handleEntry, parsePeerEntry.
  destruct (decode32_encode _ Hb1 Hl1) as [N1 E1]. destruct (decode32_encode _ Hb2 Hl2) as [N2 E2]. pose proof (ParseAddr_String vpnAddr Ha) as E3.
  assert (addr_string vpnAddr <> ""%string) as N3 by (intros E0; by rewrite E0 in E3).
  rewrite Ht. cbn [New sv_txt foldl]. set (ed := RawURL.EncodeToString (Noise.Ed25519Public id)) in *. set (x := RawURL.EncodeToString (Noise.X25519Public id)) in *.
  set (v := addr_string vpnAddr) in *. unfold read_field. rewrite (CutPrefix_append "ed25519=" ed).
  change (CutPrefix "ed25519=" ("x25519=" ++ x)) with (@None string). rewrite (CutPrefix_append "x25519=" x).
  change (CutPrefix "ed25519=" ("vpn=" ++ v)) with (@None string). change (CutPrefix "x25519=" ("vpn=" ++ v)) with (@None string).
  rewrite (CutPrefix_append "vpn=" v). rewrite !(proj2 (String.eqb_neq _ _)) by done. cbn [orb]. rewrite E1, E2, E3, !bind_Some_eq.
  cbn [PeerTable.ID peer_entry]. case_bool_decide; [done|]. unfold entry_endpoint. rewrite H4. unfold To4, AddrFromSlice. rewrite Hip. cbn [Nat.eqb].
  rewrite bind_Some_eq, Hip. cbn [Nat.eqb]. rewrite Hpt. cbn [New sv_port]. unfold u16, wrap. by rewrite Z.mod_small by lia.
Qed.

Definition demo_id : Noise.Identity :=
  {| Noise.Ed25519Private := []; Noise.Ed25519Public := replicate 32 7; Noise.X25519Private := []; Noise.X25519Public := replicate 32 200; Noise.X25519Sig := [] |}.
Definition demo_service : service := New demo_id "alice" (Addr4 0x64400001) 51820 [Some [127; 0; 0; 1]; Some [192; 168; 1; 5]].
Definition demo_seen (_ : nat) : ServiceEntry :=
  {| se_Name := "alice._veld._udp.local."; InfoFields := sv_txt demo_service; AddrV4 := head (sv_ips demo_service); AddrV6 := None; Port := sv_port demo_service |}.

Lemma advertised_peer_found_witness :
  handleCollected (zeros 32) demo_seen [3%nat; 3%nat] =
    [(peer_entry (replicate 32 7) (replicate 32 200) (Addr4 0x64400001) "alice._veld._udp.local.", {| ap_addr := Addr4 0xC0A80105; ap_port := 51820 |})].
Proof.
  refine (advertised_peer_found demo_id "alice" (Addr4 0x64400001) 51820 [Some [127; 0; 0; 1]; Some [192; 168; 1; 5]] [192; 168; 1; 5] (demo_seen 3) (zeros 32)
    demo_seen [3%nat; 3%nat] 3%nat _ eq_refl _ eq_refl _ _ eq_refl eq_refl eq_refl eq_refl _ _ eq_refl).
  - apply Forall_replicate. by vm_compute.
  - apply Forall_replicate. by vm_compute.
  - by vm_compute.
  - lia.
  - done.
  - set_solver.
Defined.

End Mdns.
