(* ===== verification/Daemon.v ===== *)
(** * The daemon: what it says and starts from

    [Daemon] models the parts of [src/internal/daemon] that stand alone: what the
    daemon tells the coordinator ([advertisedPeerName], [advertisedEndpoint]), the
    peer table of a configuration ([buildPeerTable]), the rate-limited log of refused
    pins and the status it shows its user ([ipc.go]). *)
From Stdlib Require Import ZArith Lia Sorted.
From stdpp Require Import base numbers list gmap strings.
From S2P Require Import Prelude GoLib PeerTable AddrText Server Noise CoordClient Config.

Module Daemon.
#[local] Open Scope veld_scope.
Import Netip AddrText Strings.
Abbreviation Table := PeerTable.Table.
Abbreviation Entry := PeerTable.Entry.
Abbreviation ptr := PeerTable.ptr.

(** ** What a node says of itself *)
Definition peerNameMaxLen : nat := 63.

Definition name_byte (c : Z) : Z :=
  if (65 <=? c) && (c <=? 90) then c + 32
  else if ((97 <=? c) && (c <=? 122)) || ((48 <=? c) && (c <=? 57)) then c
  else 45.

(** [strings.TrimLeft(s, "-")], [TrimRight] and [Trim]. *)
Fixpoint trim_left (l : list Z) : list Z := match l with c :: l' => if c =? 45 then trim_left l' else l | [] => [] end.
Definition trim_right (l : list Z) : list Z := reverse (trim_left (reverse l)).
Definition trim (l : list Z) : list Z := trim_right (trim_left l).

Definition advertisedPeerName (configured hostname : string) : string :=
  let name := if String.eqb configured "" then hostname else configured in
  let s := trim (map name_byte (bytes_of_string name)) in
  let s := if (peerNameMaxLen <? length s)%nat then trim_right (take peerNameMaxLen s) else s in
  match s with [] => "node" | _ => string_of_bytes s end.

Definition advertisedEndpoint (listenAddr : string) : string :=
  match ParseAddrPort listenAddr with
  | None => ""
  | Some ep => if (ap_port ep =? 0) || IsUnspecified (ap_addr ep) then "" else listenAddr
  end.

Definition legacyIfaceName : string := "tun0".
(** [platform]: [tun.DefaultIfaceName()]. *)
Definition resolveIfaceName (platform configured : string) : string :=
  if String.eqb configured "" then platform else if String.eqb configured legacyIfaceName then platform else configured.
Definition resolveTunMTU (cfg : Config.Config) : Z := if Config.MTU (Config.Node cfg) =? 0 then 1420 else Config.MTU (Config.Node cfg).

Definition prefix_zero : Prefix := {| p_addr := AddrZero; p_bits := -1 |}.
(** [netip.PrefixFrom] drops the zone, and the length when it does not fit. *)
Definition PrefixFrom (a : Addr) (bits : Z) : Prefix :=
  {| p_addr := match a with Addr6 v _ => Addr6 v "" | _ => a end;
     p_bits := if addr_valid a && (0 <=? bits) && (bits <=? bit_len a) then bits else -1 |}.

Definition deriveMeshPrefix (vpnAddr : Addr) (networkCIDR : string) : Prefix :=
  if String.eqb networkCIDR "" then PrefixFrom vpnAddr 24
  else match ParsePrefix networkCIDR with None => PrefixFrom vpnAddr 24 | Some c => PrefixFrom vpnAddr (p_bits c) end.

(** ** Names are valid *)
Definition label_char (c : Z) : Prop := byte_ok c /\ Server.Server.name_char c = true.

Lemma name_byte_char c : byte_ok c -> label_char (name_byte c).
Proof.
  intros Hc. unfold label_char, byte_ok, name_byte, Server.Server.name_char in *.
  repeat case_step; bool_to_prop; split; try lia; rewrite !orb_true_iff, !andb_true_iff, !Z.leb_le, Z.eqb_eq; lia.
Qed.

Lemma trim_left_spec l : exists k, trim_left l = drop k l /\ head (trim_left l) <> Some 45.
Proof.
  induction l as [|c l (k & E & Hh)]; [by exists 0%nat|]. cbn. destruct (Z.eqb_spec c 45).
  - by exists (S k).
  - exists 0%nat. split; [done|]. cbn. congruence.
Qed.

Lemma trim_right_spec l : exists k, trim_right l = take k l /\ last (trim_right l) <> Some 45.
Proof.
  unfold trim_right. destruct (trim_left_spec (reverse l)) as (k & E & Hh). exists (length l - k)%nat. split.
  - by rewrite E, <- take_reverse, reverse_involutive || rewrite E, drop_reverse, reverse_involutive.
  - by rewrite last_reverse.
Qed.

Lemma valid_name_bytes l : l <> [] -> Forall label_char l -> (length l <= 63)%nat -> head l <> Some 45 -> last l <> Some 45 ->
  Server.Server.validPeerName (string_of_bytes l) = true.
Proof.
  intros Hn Hl Hlen Hh Ht. unfold Server.Server.validPeerName. rewrite bytes_of_string_of_bytes by (eapply Forall_impl; [exact Hl|by intros c []]).
  destruct l as [|c l]; [done|]. rewrite (proj2 (Nat.ltb_ge 63 _)) by done. cbn [head] in Hh. rewrite (proj2 (Z.eqb_neq c 45)) by congruence.
  rewrite bool_decide_false by done. cbn [orb]. apply forallb_forall. intros x Hx%list_elem_of_In. rewrite Forall_forall in Hl. by apply Hl.
Qed.

Lemma advertised_name_valid configured hostname :
  Server.Server.validPeerName (advertisedPeerName configured hostname) = true /\ advertisedPeerName configured hostname <> ""%string.
Proof.
  unfold advertisedPeerName. set (n := if String.eqb configured "" then hostname else configured). set (l := map name_byte (bytes_of_string n)).
  assert (Forall label_char l) as Hl.
  { apply Forall_map. eapply Forall_impl; [apply bytes_of_string_ok|]. intros c. apply name_byte_char. }
  destruct (trim_left_spec l) as (k1 & E1 & Hh1). destruct (trim_right_spec (trim_left l)) as (k2 & E2 & Ht2). unfold trim.
  set (s := trim_right (trim_left l)) in *.
  assert (Forall label_char s) as Hs by (rewrite E2, E1; by apply Forall_take, Forall_drop).
  assert (head s <> Some 45) as Hh by (rewrite E2; destruct k2, (trim_left l); done).
  set (r := if (peerNameMaxLen <? length s)%nat then _ else s).
  assert (Forall label_char r /\ (length r <= 63)%nat /\ head r <> Some 45 /\ last r <> Some 45) as (Hr1 & Hr2 & Hr3 & Hr4).
  { unfold r, peerNameMaxLen. destruct (Nat.ltb_spec 63 (length s)); [|done]. destruct (trim_right_spec (take 63 s)) as (k3 & E3 & Ht3). rewrite E3 in *.
    split_and!; [by do 2 apply Forall_take| |destruct k3, s; done|done]. rewrite !length_take. lia. }
  destruct r as [|c r]; [by split|]. split; [by apply valid_name_bytes|done].
Qed.

(** C35: What a node says of itself is what the coordinator accepts: whatever its
    configuration and hostname, the name it registers is a non-empty DNS label, and
    the endpoint it registers is accepted unless the node listens on a multicast
    address. *)
Theorem advertised_accepted configured hostname listenAddr :
  Server.Server.validPeerName (advertisedPeerName configured hostname) = true /\ advertisedPeerName configured hostname <> ""%string /\
  (Server.Server.endpoint_ok (advertisedEndpoint listenAddr) = true \/
   exists ep, ParseAddrPort listenAddr = Some ep /\ IsMulticast (ap_addr ep) = true).
Proof.
  destruct (advertised_name_valid configured hostname) as [Hv Hne]. split_and!; [done..|].
  unfold advertisedEndpoint. destruct (ParseAddrPort listenAddr) as [ep|] eqn:E; [|by left]. destruct ((ap_port ep =? 0) || IsUnspecified (ap_addr ep)) eqn:Eb; [by left|].
  unfold Server.Server.endpoint_ok. rewrite E, Eb. cbn [orb]. destruct (IsMulticast (ap_addr ep)) eqn:Em; [right; eauto|left]. apply orb_true_r.
Qed.

(** A node that listens on a multicast address registers an endpoint the
    coordinator refuses. *)
Lemma multicast_endpoint_refused : Server.Server.endpoint_ok (advertisedEndpoint "239.1.2.3:51820") = false.
Proof. by vm_compute. Qed.

(** ** The peer table of the configuration *)
Inductive table_error := BadEd25519 (name : string) | BadX25519 (name : string) | BadVPNAddr (name : string) | BadRoute (name route : string) | AddrUsed (name : string).

Fixpoint all_prefixes (name : string) (l : list string) : result table_error (list Prefix) :=
  match l with
  | [] => Ok []
  | r :: l' =>
      match ParsePrefix r with
      | None => Err (BadRoute name r)
      | Some p => ps <-! all_prefixes name l'; Ok (p :: ps)
      end
  end.

Definition config_entry (pc : Config.PeerConfig) : result table_error Entry :=
  let name := Config.pc_Name pc in
  match Server.Server.decode_key (Config.pc_Ed25519Public pc) with
  | None => Err (BadEd25519 name)
  | Some id =>
      match Server.Server.decode_key (Config.pc_X25519Public pc) with
      | None => Err (BadX25519 name)
      | Some x25519 =>
          match ParseAddr (Config.pc_VPNAddr pc) with
          | None => Err (BadVPNAddr name)
          | Some a =>
              routes <-! all_prefixes name (Config.pc_SubnetRoutes pc);
              let e := {| PeerTable.ID := id; PeerTable.X25519Pub := x25519; PeerTable.VPNAddr := a; PeerTable.Name := name;
                          PeerTable.SubnetRoutes := routes; PeerTable.endpoint := ap_zero; PeerTable.session := None;
                          PeerTable.pendingSession := None; PeerTable.prevSession := None; PeerTable.state := PeerTable.StatePending;
                          PeerTable.lastSeen := 0; PeerTable.holdQueue := [] |} in
              Ok (if String.eqb (Config.pc_Endpoint pc) "" then e
                  else match ParseAddrPort (Config.pc_Endpoint pc) with Some ep => PeerTable.SetEndpoint ep e | None => e end)
          end
      end
  end.

Fixpoint add_peers (l : list Config.PeerConfig) (tbl : Table) : result table_error Table :=
  match l with
  | [] => Ok tbl
  | pc :: l' =>
      e <-! config_entry pc;
      let '(ok, tbl) := (CoordClient.CoordClient.upsert_new e tbl).2 in
      if ok then add_peers l' tbl else Err (AddrUsed (Config.pc_Name pc))
  end.
Definition buildPeerTable (l : list Config.PeerConfig) : result table_error Table := add_peers l PeerTable.New.

Abbreviation known := CoordClient.CoordClient.known.
Abbreviation card_of := CoordClient.CoordClient.card_of.
Abbreviation members := CoordClient.CoordClient.members.
Abbreviation upd := CoordClient.CoordClient.upd.

(** The peers of a configuration; a later entry for a key replaces an earlier
    one. *)
Definition configured (l : list Config.PeerConfig) : members :=
  foldl (fun f pc => match config_entry pc with Ok e => upd (PeerTable.ID e) (Some (card_of e)) f | Err _ => f end) (fun _ => None) l.

Lemma add_peers_known l : forall f t t', PeerTable.table_ok t -> (forall id, known t id = f id) -> add_peers l t = Ok t' ->
  PeerTable.table_ok t' /\
  forall id, known t' id = foldl (fun f pc => match config_entry pc with Ok e => upd (PeerTable.ID e) (Some (card_of e)) f | Err _ => f end) f l id.
Proof.
  induction l as [|pc l IH]; intros f t t' Ht Hk E; cbn [add_peers foldl] in *; [by injection E as <-|].
  destruct (config_entry pc) as [e|]; [|done]. cbn [result_bind] in E.
  destruct (CoordClient.CoordClient.upsert_new_spec t e Ht) as (ok & t1 & E1 & Ht1 & Hk1 & _). rewrite E1 in E.
  destruct ok; [|done]. eapply IH; [exact Ht1| |exact E]. intros id. rewrite Hk1. unfold CoordClient.CoordClient.upd. case_decide; [done|apply Hk].
Qed.

(** A static configuration that is accepted gives a consistent peer table with
    exactly the configured peers, their keys, addresses and routes. *)
Theorem configured_peers_known l t : buildPeerTable l = Ok t ->
  PeerTable.table_ok t /\ forall id, known t id = configured l id.
Proof. intros E. eapply add_peers_known; [apply PeerTable.New_ok| |exact E]. done. Qed.

Definition demo_config : list Config.PeerConfig :=
  [{| Config.pc_Name := "bob"; Config.pc_Ed25519Public := Base64.EncodeToString (replicate 32 2); Config.pc_X25519Public := Base64.EncodeToString (replicate 32 3);
      Config.pc_VPNAddr := "100.64.0.2"; Config.pc_Endpoint := "192.0.2.7:51820"; Config.pc_SubnetRoutes := ["10.1.0.0/16"; "100.64.0.0/16"] |}].
Definition demo_table : Table := match buildPeerTable demo_config with Ok t => t | Err _ => PeerTable.New end.
Lemma demo_table_built : buildPeerTable demo_config = Ok demo_table.
Proof.
  unfold demo_table. assert (is_ok (buildPeerTable demo_config) = true) as Hok by by vm_compute. by destruct (buildPeerTable demo_config).
Qed.
Lemma configured_peers_known_witness : exists x,
  known demo_table (replicate 32 2) = Some x /\ x.1 = (replicate 32 3, Addr4 0x64400002) /\ length x.2 = 2%nat.
Proof.
  destruct (configured_peers_known demo_config demo_table demo_table_built) as [_ Hk]. eexists. rewrite Hk. vm_compute. split_and!; reflexivity.
Defined.

(** ** Logging of refused pins *)
Definition minute : Z := 60 * 10 ^ 9.
Record mismatches := { tofuMismatchLog : gmap string Z; tofuLastPrune : Z }.

(** [true] when the mismatch is logged. *)
Definition logTOFUMismatch (vpnAddr : string) (now : Z) (d : mismatches) : mismatches * bool :=
  let d := if minute <=? now - tofuLastPrune d then
             {| tofuMismatchLog := filter (fun kv : string * Z => now - kv.2 < 10 * minute) (tofuMismatchLog d); tofuLastPrune := now |}
           else d in
  match tofuMismatchLog d !! vpnAddr with
  | Some last => if now - last <? 10 * minute then (d, false)
                 else ({| tofuMismatchLog := <[vpnAddr := now]> (tofuMismatchLog d); tofuLastPrune := tofuLastPrune d |}, true)
  | None => ({| tofuMismatchLog := <[vpnAddr := now]> (tofuMismatchLog d); tofuLastPrune := tofuLastPrune d |}, true)
  end.

(** The calls for one address that are logged, oldest first. *)
Fixpoint logged (a : string) (calls : list (string * Z)) (d : mismatches) : list Z :=
  match calls with
  | [] => []
  | (b, now) :: calls' =>
      let '(d, out) := logTOFUMismatch b now d in
      (if out && String.eqb a b then [now] else []) ++ logged a calls' d
  end.

(** The reference: a call is logged when the last one logged is old enough. *)
Fixpoint spaced_out (a : string) (last : option Z) (calls : list (string * Z)) : list Z :=
  match calls with
  | [] => []
  | (b, now) :: calls' =>
      if String.eqb a b && match last with Some l => 10 * minute <=? now - l | None => true end then now :: spaced_out a (Some now) calls'
      else spaced_out a last calls'
  end.

Definition remembers (a : string) (last : option Z) (now : Z) (d : mismatches) : Prop :=
  match tofuMismatchLog d !! a with
  | Some l => last = Some l
  | None => match last with Some l => 10 * minute <= now - l | None => True end
  end.

Lemma logged_spaced a calls : forall d last now0, remembers a last now0 d -> Sorted Z.le (now0 :: calls.*2) -> logged a calls d = spaced_out a last calls.
Proof.
  induction calls as [|[b now] calls IH]; intros d last now0 Hr Hs; [done|]. cbn [fmap list_fmap snd] in Hs.
  inversion Hs as [|? ? Hs' Hle]. subst. inversion Hle as [|? ? Hnow]. subst. cbn [logged spaced_out].
  set (d1 := if minute <=? now - tofuLastPrune d then {| tofuMismatchLog := filter (fun kv : string * Z => now - kv.2 < 10 * minute) (tofuMismatchLog d); tofuLastPrune := now |} else d).
  assert (remembers a last now d1) as Hr1.
  { unfold remembers in *. unfold d1. destruct (_ <=? _); cbn [tofuMismatchLog].
    - destruct (tofuMismatchLog d !! a) as [l|] eqn:E.
      + destruct (decide (now - l < 10 * minute)) as [Hl|Hl].
        * by rewrite (map_lookup_filter_Some_2 _ _ _ _ E Hl).
        * rewrite map_lookup_filter_None_2; [subst last; lia|]. right. intros l'. rewrite E. by intros [= <-].
      + rewrite map_lookup_filter_None_2 by by left. destruct last; [lia|done].
    - destruct (tofuMismatchLog d !! a); [done|]. destruct last; [lia|done]. }
  unfold logTOFUMismatch. cbv zeta. fold d1. clearbody d1.
  destruct (String.eqb_spec a b) as [<-|Hne].
  - unfold remembers in Hr1. destruct (tofuMismatchLog d1 !! a) as [l|] eqn:E.
    + subst last. destruct (Z.ltb_spec (now - l) (10 * minute)) as [Hlt|Hge]; cbn [andb app].
      * rewrite (proj2 (Z.leb_gt _ _)) by lia. cbn [andb]. eapply IH; [|done]. unfold remembers. by rewrite E.
      * rewrite (proj2 (Z.leb_le _ _)) by lia. cbn [andb]. f_equal. eapply IH; [|done]. unfold remembers. cbn. by rewrite lookup_insert_eq.
    + cbn [andb app]. replace (match last with Some l => _ | None => true end) with true by (destruct last; [symmetry; apply Z.leb_le; lia|done]).
      cbn [andb]. f_equal. eapply IH; [|done]. unfold remembers. cbn. by rewrite lookup_insert_eq.
  - cbn [andb]. assert (forall o, logged a calls {| tofuMismatchLog := <[b := o]> (tofuMismatchLog d1); tofuLastPrune := tofuLastPrune d1 |} = spaced_out a last calls) as Hins.
    { intros o. eapply IH; [|done]. unfold remembers in *. cbn. by rewrite lookup_insert_ne. }
    destruct (tofuMismatchLog d1 !! b) as [l|]; [destruct (_ <? _)|]; rewrite ?andb_false_r; cbn [andb app]; try apply Hins. by eapply IH.
Qed.

(** Refused pins are logged once per address in ten minutes and not less: for
    any calls at times that do not go back, the calls logged for an address are
    those at least ten minutes after the last one logged for it; forgetting old
    entries changes nothing. *)
Theorem mismatch_log_rate_limited a calls now0 prune :
  Sorted Z.le (now0 :: calls.*2) -> logged a calls {| tofuMismatchLog := ∅; tofuLastPrune := prune |} = spaced_out a None calls.
Proof. intros Hs. eapply logged_spaced; [|exact Hs]. unfold remembers. cbn. by rewrite lookup_empty. Qed.

Lemma mismatch_log_rate_limited_witness :
  logged "10.0.0.1" [("10.0.0.1", 0); ("10.0.0.2", minute); ("10.0.0.1", 9 * minute); ("10.0.0.1", 10 * minute)]%string {| tofuMismatchLog := ∅; tofuLastPrune := 0 |} = [0; 10 * minute].
Proof.
  rewrite (mismatch_log_rate_limited "10.0.0.1" [("10.0.0.1", 0); ("10.0.0.2", minute); ("10.0.0.1", 9 * minute); ("10.0.0.1", 10 * minute)]%string 0 0).
  - vm_compute. reflexivity.
  - repeat constructor; vm_compute; discriminate.
Defined.

(** ** The status *)
Record PeerStatus := { ps_VPNAddr : string; ps_Endpoint : string; ps_State : string }.
Record StatusResponse := { Running : bool; st_VPNAddr : string; PeerID : string; NetworkID : string; CoordAddr : string; Peers : list PeerStatus }.

Definition peer_status (e : Entry) : PeerStatus :=
  {| ps_VPNAddr := addr_string (PeerTable.VPNAddr e);
     ps_Endpoint := if ap_valid (PeerTable.endpoint e) then addr_port_string (PeerTable.endpoint e) else "";
     ps_State := match PeerTable.state e with PeerTable.StateHandshaking => "handshaking" | PeerTable.StateConnected => "connected" | _ => "pending" end |}.
Definition peerTableSnapshot (tbl : Table) : list PeerStatus := omap (fun p => peer_status <$> PeerTable.entries tbl !! p) (PeerTable.List tbl).

(** What [updateIPCStatus] reads: the daemon's own fields, its TUN's address and
    the client's address and ID, if there is a client. *)
Definition updateIPCStatus (vpnAddr : Addr) (peerID coordAddr : string) (networkID : list Z) (tun : option Prefix) (client : option (Addr * string)) (tbl : Table)
    : StatusResponse :=
  let '(vpnAddr, peerID) := match tun, client with
                            | Some p, _ => (p_addr p, peerID)
                            | None, Some (a, id) => (a, id)
                            | None, None => (vpnAddr, peerID)
                            end in
  {| Running := true; st_VPNAddr := addr_string vpnAddr; PeerID := peerID; NetworkID := Hex.EncodeToString networkID; CoordAddr := coordAddr;
     Peers := peerTableSnapshot tbl |}.

(** Every peer of the table is shown, once. *)
Lemma snapshot_complete tbl id p e : PeerTable.table_ok tbl -> PeerTable.byID tbl !! id = Some p -> PeerTable.entries tbl !! p = Some e ->
  peer_status e ∈ peerTableSnapshot tbl.
Proof.
  intros Ht Hp He. unfold peerTableSnapshot, PeerTable.List. apply list_elem_of_omap. exists p. rewrite He. split; [|done].
  apply list_elem_of_fmap. exists (id, p). split; [done|]. by apply elem_of_map_to_list.
Qed.
Lemma snapshot_length tbl : PeerTable.table_ok tbl -> length (peerTableSnapshot tbl) = PeerTable.Len tbl.
Proof.
  intros Ht. unfold peerTableSnapshot, PeerTable.Len, PeerTable.List. rewrite <- (length_map_to_list (PeerTable.byID tbl)).
  assert (forall kv, kv ∈ map_to_list (PeerTable.byID tbl) -> is_Some (PeerTable.entries tbl !! kv.2)) as Hall.
  { intros [k q] Hin%elem_of_map_to_list. destruct (PeerTable.tk_id _ Ht _ _ Hin) as (e & E & _). by exists e. }
  induction (map_to_list (PeerTable.byID tbl)) as [|[k q] l IH]; [done|]. cbn. destruct (Hall (k, q) ltac:(by left)) as [e E]. cbn in E. rewrite E. cbn.
  rewrite IH; [done|]. intros kv Hin. apply Hall. by right.
Qed.

(** The control socket's requests: the answer's code, the status when there is
    one, and whether the daemon is told to stop. *)
Inductive ipc_reply := IStatus (st : StatusResponse) | IShutdown | IMethodNotAllowed | INotFound.
Definition handleStatus (method : string) (st : StatusResponse) : ipc_reply := if String.eqb method "GET" then IStatus st else IMethodNotAllowed.
Definition handleShutdown (method : string) : ipc_reply := if String.eqb method "POST" then IShutdown else IMethodNotAllowed.
Definition ipc_request (path method : string) (st : StatusResponse) : ipc_reply :=
  if String.eqb path "/api/status" then handleStatus method st else if String.eqb path "/api/shutdown" then handleShutdown method else INotFound.

(** [Start] of the control socket.  [perm]: the permissions of its directory,
    [None] when they cannot be read; [mkdir], [listen] and [chmod]: whether the
    calls succeed. *)
Definition ipc_start (windows mkdir : bool) (perm : option Z) (listen chmod : bool) : bool :=
  mkdir &&
  negb (match perm with Some m => negb windows && negb (Z.land m 0x12 =? 0) | None => false end) &&
  listen && (windows || chmod).

(** A directory that others can write to is refused. *)
Lemma shared_directory_refused m mkdir listen chmod : Z.testbit m 1 = true \/ Z.testbit m 4 = true -> ipc_start false mkdir (Some m) listen chmod = false.
Proof.
  intros Hm. unfold ipc_start. cbn [negb andb]. destruct (Z.eqb_spec (Z.land m 0x12) 0) as [E|]; [|by destruct mkdir]. exfalso.
  assert (forall n, Z.testbit (Z.land m 0x12) n = false) as Hz by (intros n; rewrite E; apply Z.bits_0).
  pose proof (Hz 1) as H1. pose proof (Hz 4) as H4. rewrite Z.land_spec in H1, H4. change (Z.testbit 0x12 1) with true in H1. change (Z.testbit 0x12 4) with true in H4.
  rewrite andb_true_r in H1, H4. destruct Hm; congruence.
Qed.

End Daemon.
