(* ===== verification/Wiring.v ===== *)
(** * The daemon: its callbacks, its start and its end

    [Wiring] models how [src/internal/daemon/daemon.go] ties the components
    together: the callbacks of the coordinator's client, which are an instance of
    its class [Hooks], those of the NAT manager and of LAN discovery, and
    [NewFromConfig] and [Stop].  They use the handshake, NAT and route managers as
    [Handshake], [Nat] and [Route] model them.  The peer table is passed in and out,
    because the client and the managers share it.  Random bytes, clock readings and
    the outcomes of system calls are arguments ([env]); a relay proxy is a number. *)
From Stdlib Require Import ZArith Lia.
From stdpp Require Import base numbers list gmap strings.
From S2P Require Import Prelude GoLib PeerTable AddrText Noise Tofu Handshake NatSignal Nat Coexist Server CoordClient Membership Route Config Mdns Daemon.

Module Wiring.
Import Netip AddrText.
Import CoordClient (known, card_of, card, members, upd, callback, Hooks, QuietHooks, run_hook, Client, peerTable, follow, tracks, handleEvent, handleEvents, wire).
#[local] Existing Instances Route.IPNet_eq_dec Route.IPNet_countable Route.Prefix_countable.
Abbreviation Table := PeerTable.Table.
Abbreviation Entry := PeerTable.Entry.
Abbreviation ptr := PeerTable.ptr.

(** A TUN device. *)
Record Device := { dev_name : string; dev_prefix : Prefix; dev_mtu : Z }.

(** What the outside does during a callback. *)
Record env := {
  e_random : option (list Z); e_clock : nat -> Z;     (* of a handshake *)
  e_nonce : list Z; e_now : Z; e_nowSec : Z;          (* of a negotiation *)
  e_tun : bool; e_mdns : bool                         (* a TUN, an advertisement can be made *)
}.

Inductive effect :=
| Handshaking (ev : Handshake.event)
| SetTUN (dev : Device) | CloseTUN (dev : Device)
| StopMDNS (a : Addr) | StartMDNS (a : Addr)
| CloseProxy (p : nat)
| RouteWarning (err : Route.manager_error)      (* printed: the kernel refused a change *)
| UpdateStatus.

Section Daemon.
Context `{Noise.NoiseLib} `{SignalCrypto} `{SignalCodec} {T : Type} `{Handshake.Pinning T} {K : Type} `{Route.RouteHandle K}.
(** The settings: [platform] is the default interface name. *)
Variables (userspace : bool) (platform : string) (cfg : Config.Config).

(** [hsMgr] with the sessions and pins it uses; its table is set before each
    use.  [mdnsDisco] is the address being advertised. *)
Record Daemon := {
  hsMgr : Handshake.Node (T := T);
  natMgr : Nat.Manager;
  routeMgr : Route.linuxManager;
  kernel : K;
  tunDev : option Device;
  mdnsDisco : option Addr;
  relayProxies : gmap (list Z) nat;
  vpnAddr : Addr;
  calls : nat;
  out : list effect
}.

Definition with_hs (n : Handshake.Node (T := T)) (evs : list Handshake.event) (d : Daemon) : Daemon :=
  {| hsMgr := n; natMgr := natMgr d; routeMgr := routeMgr d; kernel := kernel d; tunDev := tunDev d; mdnsDisco := mdnsDisco d;
     relayProxies := relayProxies d; vpnAddr := vpnAddr d; calls := calls d; out := out d ++ map Handshaking evs |}.
Definition with_nat (m : Nat.Manager) (d : Daemon) : Daemon :=
  {| hsMgr := hsMgr d; natMgr := m; routeMgr := routeMgr d; kernel := kernel d; tunDev := tunDev d; mdnsDisco := mdnsDisco d;
     relayProxies := relayProxies d; vpnAddr := vpnAddr d; calls := calls d; out := out d |}.
Definition with_routes (m : Route.linuxManager) (k : K) (l : list effect) (d : Daemon) : Daemon :=
  {| hsMgr := hsMgr d; natMgr := natMgr d; routeMgr := m; kernel := k; tunDev := tunDev d; mdnsDisco := mdnsDisco d;
     relayProxies := relayProxies d; vpnAddr := vpnAddr d; calls := calls d; out := out d ++ l |}.
Definition with_net (t : option Device) (m : option Addr) (a : Addr) (l : list effect) (d : Daemon) : Daemon :=
  {| hsMgr := hsMgr d; natMgr := natMgr d; routeMgr := routeMgr d; kernel := kernel d; tunDev := t; mdnsDisco := m;
     relayProxies := relayProxies d; vpnAddr := a; calls := calls d; out := out d ++ l |}.
Definition with_proxies (p : gmap (list Z) nat) (l : list effect) (d : Daemon) : Daemon :=
  {| hsMgr := hsMgr d; natMgr := natMgr d; routeMgr := routeMgr d; kernel := kernel d; tunDev := tunDev d; mdnsDisco := mdnsDisco d;
     relayProxies := p; vpnAddr := vpnAddr d; calls := calls d; out := out d ++ l |}.
Definition tick (d : Daemon) : Daemon :=
  {| hsMgr := hsMgr d; natMgr := natMgr d; routeMgr := routeMgr d; kernel := kernel d; tunDev := tunDev d; mdnsDisco := mdnsDisco d;
     relayProxies := relayProxies d; vpnAddr := vpnAddr d; calls := S (calls d); out := out d |}.

(** ** Routes *)
Definition mesh_of (d : Daemon) : Prefix := match tunDev d with Some t => dev_prefix t | None => Daemon.prefix_zero end.

(** The error of a change is printed and nothing else. *)
Definition warned (l : list effect) (err : option Route.manager_error) : list effect :=
  match err with Some e => l ++ [RouteWarning e] | None => l end.

Definition add_route (mesh : Prefix) (via : Addr) (x : Route.linuxManager * K * list effect) (pfx : Prefix) : Route.linuxManager * K * list effect :=
  match Route.CheckPeerRoute pfx mesh with
  | Err _ => x
  | Ok _ => let '(m, k, err) := Route.Add pfx via x.1.1 x.1.2 in (m, k, warned x.2 err)
  end.
Definition addPeerRoutes (e : Entry) (d : Daemon) : Daemon :=
  let '(m, k, l) := foldl (add_route (mesh_of d) (PeerTable.VPNAddr e)) (routeMgr d, kernel d, []) (PeerTable.SubnetRoutes e) in with_routes m k l d.

Definition remove_route (x : Route.linuxManager * K * list effect) (pfx : Prefix) : Route.linuxManager * K * list effect :=
  let '(m, k, err) := Route.Remove pfx x.1.1 x.1.2 in (m, k, warned x.2 err).
Definition removePeerRoutes (e : Entry) (d : Daemon) : Daemon :=
  let '(m, k, l) := foldl remove_route (routeMgr d, kernel d, []) (PeerTable.SubnetRoutes e) in with_routes m k l d.

(** ** Callbacks of the client *)
Definition initiate (en : env) (p : ptr) (t : Table) (d : Daemon) : Table * Daemon :=
  let '(n, evs) := Handshake.Initiate p (e_random en) (e_clock en) (Handshake.with_peers t (hsMgr d)) in
  (Handshake.peers n, with_hs n evs d).

Definition onPeerAdded (en : env) (p : ptr) (t : Table) (d : Daemon) : Table * Daemon :=
  match PeerTable.entries t !! p with
  | None => (t, d)
  | Some e =>
      let d := if userspace then d else addPeerRoutes e d in
      let '(t, d) := if ap_valid (PeerTable.endpoint e) then initiate en p t d else (t, d) in
      (t, with_nat (Nat.Start t e (e_nonce en) (e_now en) (e_nowSec en) (natMgr d)) d)
  end.

Definition onPeerRemoved (id : list Z) (t : Table) (d : Daemon) : Daemon :=
  let d := if userspace then d
           else match p ← PeerTable.LookupByID id t; PeerTable.entries t !! p with
                | Some e => removePeerRoutes e d
                | None => d
                end in
  let d := with_proxies (delete id (relayProxies d)) (match relayProxies d !! id with Some p => [CloseProxy p] | None => [] end) d in
  with_hs (Handshake.OnPeerRemoved id (hsMgr d)) [] d.

(** [newMDNSDiscovery]: an advertisement of the address, if it is enabled and can
    be made. *)
Definition newMDNSDiscovery (en : env) (a : Addr) : option Addr :=
  if Config.mdns_Enabled (Config.MDNS cfg) && e_mdns en then Some a else None.

Definition createTUN (en : env) (prefix : Prefix) : option Device :=
  if e_tun en then
    Some {| dev_name := Daemon.resolveIfaceName platform (Config.IfaceName (Config.Node cfg)); dev_prefix := prefix; dev_mtu := Daemon.resolveTunMTU cfg |}
  else None.

Definition onVPNAddrAssigned (en : env) (a : Addr) (networkCIDR : string) (d : Daemon) : Daemon :=
  let existing := tunDev d in
  if match existing with Some t => bool_decide (p_addr (dev_prefix t) = a) | None => false end then d
  else
    match createTUN en (Daemon.deriveMeshPrefix a networkCIDR) with
    | None => with_net (tunDev d) (mdnsDisco d) (match existing with Some t => p_addr (dev_prefix t) | None => vpnAddr d end) [UpdateStatus] d
    | Some dev =>
        let l1 := SetTUN dev :: match existing with Some t => [CloseTUN t] | None => [] end in
        let l2 := match mdnsDisco d with Some old => [StopMDNS old] | None => [] end in
        let disc := if userspace then None else newMDNSDiscovery en a in
        let l3 := match disc with Some x => [StartMDNS x] | None => [] end in
        with_net (Some dev) disc (vpnAddr d) (l1 ++ l2 ++ l3 ++ [UpdateStatus]) d
    end.

Definition hook (en : env) (cb : callback) (t : Table) (d : Daemon) : Table * Daemon :=
  match cb with
  | CoordClient.OnPeerAdded p => onPeerAdded en p t d
  | CoordClient.OnPeerRemoved id => (t, onPeerRemoved id t d)
  | CoordClient.OnSignal from payload => (t, with_nat (Nat.DeliverSignal t from payload (e_nowSec en) (natMgr d)) d)
  | CoordClient.OnRouteUpdate _ _ => (t, d)              (* never set *)
  | CoordClient.OnVPNAddrAssigned a cidr => (t, onVPNAddrAssigned en a cidr d)
  end.

(** Which callbacks [NewFromConfig] sets. *)
Definition daemon_callbacks : CoordClient.Callbacks :=
  {| CoordClient.hasOnPeerAdded := true; CoordClient.hasOnPeerRemoved := true; CoordClient.hasOnSignal := true;
     CoordClient.hasOnRouteUpdate := false; CoordClient.hasOnVPNAddrAssigned := true |}.

(** ** Callbacks of NAT traversal and LAN discovery *)
Definition try_handshake (en : env) (id : list Z) (t : Table) (d : Daemon) : Table * Daemon :=
  match PeerTable.LookupByID id t with Some p => initiate en p t d | None => (t, d) end.

Definition OnEndpointDiscovered (en : env) (id : list Z) (ep : AddrPort) (t : Table) (d : Daemon) : Table * Daemon :=
  try_handshake en id (PeerTable.UpdateEndpoint id ep t).2 d.

(** [relayed]: the proxy and its address, [None] when dialling the relay or
    opening the proxy fails. *)
Definition OnPunchTimeout (en : env) (id : list Z) (relayed : option (nat * AddrPort)) (t : Table) (d : Daemon) : Table * Daemon :=
  match PeerTable.LookupByID id t, relayed with
  | Some _, Some (proxy, local) =>
      let d := with_proxies (<[id := proxy]> (relayProxies d)) (match relayProxies d !! id with Some old => [CloseProxy old] | None => [] end) d in
      try_handshake en id (PeerTable.UpdateEndpoint id local t).2 d
  | _, _ => (t, d)
  end.

Definition onMDNSPeer (en : env) (e : Entry) (ep : AddrPort) (coordMode : bool) (t : Table) (d : Daemon) : Table * Daemon :=
  match PeerTable.LookupByID (PeerTable.ID e) t with
  | Some p =>
      match PeerTable.entries t !! p with
      | None => (t, d)
      | Some k =>
          if negb (bool_decide (PeerTable.X25519Pub k = PeerTable.X25519Pub e)) || negb (ap_valid ep) then (t, d)
          else
            let t := if negb (ap_valid (PeerTable.endpoint k)) then (PeerTable.UpdateEndpoint (PeerTable.ID k) ep t).2 else t in
            initiate en p t d
      end
  | None =>
      if coordMode then (t, d)
      else
        let e := if ap_valid ep then PeerTable.SetEndpoint ep e else e in
        let '(p, (ok, t)) := CoordClient.upsert_new e t in
        if ok then initiate en p t d else (t, d)
  end.

(** ** Starting and stopping *)
Inductive start_error := EIdentity | ENetworkID | EVPNAddr | EListen | EPeers (e : Daemon.table_error) | EPolicy | ECreateTUN | ETOFU | EReplay.

(** What the outside does at the start: the identity of the key file, whether the
    socket opens, the policy loads, the pins of their file, the replay file and
    whether it can be read. *)
Record start_env := {
  s_identity : option Noise.Identity; s_listen : bool; s_policy : bool; s_tofu : option T;
  s_file : option (gmap string Z); s_readable : bool; s_now : Z; s_port : Z; s_env : env
}.

(** What a start takes of the host. *)
Record host := { h_socket : bool; h_tun : option Device; h_kernel : K; h_sysctl : Route.sysctl }.

Record started := { s_daemon : Daemon; s_table : Table; s_restore : option Route.restore }.

Definition coord_mode : bool := negb (String.eqb (Config.Addr (Config.Coord cfg)) "").

Definition vpn_prefix : option Prefix :=
  if String.eqb (Config.VPNAddr (Config.Node cfg)) "" then Some Daemon.prefix_zero else ParsePrefix (Config.VPNAddr (Config.Node cfg)).

Definition network_bytes : option (list Z) :=
  b ← Hex.DecodeString (Config.network_id cfg); if (length b =? 16)%nat then Some b else None.

(** The routes of the configured peers, in the order the table lists them; the
    TUN is not made yet. *)
Definition static_routes (tbl : Table) (d : Daemon) : Daemon :=
  foldl (fun d p => match PeerTable.entries tbl !! p with Some e => addPeerRoutes e d | None => d end) d (PeerTable.List tbl).

Definition fresh_daemon (id : Noise.Identity) (net : list Z) (tofu : T) (se : start_env) (k : K) : Daemon :=
  {| hsMgr := {| Handshake.mgr := Handshake.New id net; Handshake.peers := PeerTable.New; Handshake.sessions := ∅; Handshake.tofu := tofu; Handshake.file := s_file se |};
     natMgr := Nat.New (s_port se) id; routeMgr := Route.newLinuxManager; kernel := k; tunDev := None; mdnsDisco := None; relayProxies := ∅;
     vpnAddr := AddrZero; calls := 0; out := [] |}.

Definition NewFromConfig (se : start_env) (tofu0 : T) (k : K) (f : Route.sysctl) : host * result start_error started :=
  let untouched := {| h_socket := false; h_tun := None; h_kernel := k; h_sysctl := f |} in
  match s_identity se with
  | None => (untouched, Err EIdentity)
  | Some id =>
      match network_bytes, vpn_prefix with
      | None, _ => (untouched, Err ENetworkID)
      | _, None => (untouched, Err EVPNAddr)
      | Some net, Some vpnPrefix =>
          if negb (s_listen se) then (untouched, Err EListen)
          else
            match Daemon.buildPeerTable (Config.Peers cfg) with
            | Err e => (untouched, Err (EPeers e))
            | Ok tbl =>
                if negb (s_policy se) then (untouched, Err EPolicy)
                else
                  let d := fresh_daemon id net tofu0 se k in
                  (* forwarding, for the subnets this node announces *)
                  let '(f, restore) := if negb userspace && negb (bool_decide (Config.SubnetRoutes (Config.Node cfg) = [])) then
                                         match Route.EnableIPForward f with Some (f', r) => (f', Some r) | None => (f, None) end
                                       else (f, None) in
                  let d := if negb coord_mode && negb userspace then static_routes tbl d else d in
                  let wants_tun := negb coord_mode && prefix_valid vpnPrefix in
                  let tun := if wants_tun then createTUN (s_env se) vpnPrefix else None in
                  match wants_tun, tun with
                  | true, None => ({| h_socket := true; h_tun := None; h_kernel := kernel d; h_sysctl := f |}, Err ECreateTUN)
                  | _, _ =>
                      let closed := {| h_socket := false; h_tun := None; h_kernel := kernel d; h_sysctl := f |} in
                      match s_tofu se with
                      | None => (closed, Err ETOFU)
                      | Some store =>
                          match Handshake.UseReplayState (s_readable se) (s_now se) (Handshake.with_tofu store (hsMgr d)) with
                          | None => (closed, Err EReplay)
                          | Some n =>
                              let disc := if prefix_valid vpnPrefix && negb userspace then newMDNSDiscovery (s_env se) (p_addr vpnPrefix) else None in
                              let d := with_net tun disc (vpnAddr d) (match tun with Some t => [SetTUN t] | None => [] end) (with_hs n [] d) in
                              ({| h_socket := true; h_tun := tun; h_kernel := kernel d; h_sysctl := f |},
                               Ok {| s_daemon := d; s_table := tbl; s_restore := restore |})
                          end
                      end
                  end
            end
      end
  end.

(** [Stop]; [proxies] and [prefixes] are the maps in the order they are ranged
    over; the farewell of the client and the other servers are not shown. *)
Definition Stop (proxies : list nat) (prefixes : list Prefix) (restore : option Route.restore) (d : Daemon) (f : Route.sysctl) : Daemon * Route.sysctl :=
  let '(m, k, _) := if userspace then (routeMgr d, kernel d, None) else Route.Close prefixes (routeMgr d) (kernel d) in
  let d := with_routes m k [] (with_proxies ∅ (map CloseProxy proxies) d) in
  let d := with_net None (mdnsDisco d) (vpnAddr d) (match mdnsDisco d with Some a => [StopMDNS a] | None => [] end) d in
  (d, match restore with Some r => default f (Route.run_restore r f) | None => f end).

(** ** The table under the callbacks *)

(** Entries may change in everything that does not identify the peer. *)
Lemma known_alter f p t : (forall e, card_of (f e) = card_of e) -> forall id, known (PeerTable.with_entries (alter f p (PeerTable.entries t)) t) id = known t id.
Proof.
  intros Hf id. unfold CoordClient.known. cbn [PeerTable.byID PeerTable.entries PeerTable.with_entries]. destruct (PeerTable.byID t !! id) as [q|]; [|done].
  rewrite !bind_Some_eq. destruct (decide (p = q)) as [->|Hne]; [|by rewrite lookup_alter_ne]. rewrite lookup_alter_eq.
  destruct (PeerTable.entries t !! q) as [e|]; [|done]. cbn. by rewrite Hf.
Qed.

Lemma UpdateEndpoint_known id ep t i : known (PeerTable.UpdateEndpoint id ep t).2 i = known t i.
Proof.
  unfold PeerTable.UpdateEndpoint, PeerTable.setEndpoint. destruct (PeerTable.byID t !! id) as [p|]; [|done].
  destruct (if ap_valid ep then PeerTable.byEndpoint t !! ep else None) as [q|] eqn:Eo.
  - destruct (negb (q =? p)%nat); cbn [andb negb]; [done|]. cbn [snd]. exact (known_alter (PeerTable.SetEndpoint ep) p t (fun _ => eq_refl) i).
  - exact (known_alter (PeerTable.SetEndpoint ep) p t (fun _ => eq_refl) i).
Qed.

Definition handshaking_at (p : ptr) (t : Table) : Table := PeerTable.with_entries (alter (PeerTable.SetState PeerTable.StateHandshaking) p (PeerTable.entries t)) t.

(** A handshake changes the state of the peer's entry at most, and nothing of the
    daemon but the handshake manager. *)
Lemma initiate_spec en p t d :
  ((initiate en p t d).1 = t \/ (initiate en p t d).1 = handshaking_at p t) /\
  let d' := (initiate en p t d).2 in
  routeMgr d' = routeMgr d /\ kernel d' = kernel d /\ tunDev d' = tunDev d /\ relayProxies d' = relayProxies d /\ natMgr d' = natMgr d.
Proof.
  unfold initiate. set (n0 := Handshake.with_peers t (hsMgr d)).
  assert (Handshake.peers (Handshake.Initiate p (e_random en) (e_clock en) n0).1 = t \/
          Handshake.peers (Handshake.Initiate p (e_random en) (e_clock en) n0).1 = handshaking_at p t) as Hp.
  { unfold Handshake.Initiate. change (Handshake.peers n0) with t. destruct (PeerTable.entries t !! p) as [e|]; [|by left].
    destruct (Handshake.prepare_retry _ _ _) as [m|[m q]]; [by left|]. destruct (_ ≫= _) as [[h msg]|]; [|by left]. cbv zeta.
    destruct (negb (ap_valid _)); by right. }
  destruct (Handshake.Initiate p (e_random en) (e_clock en) n0) as [n evs]. by cbn in *.
Qed.

Lemma initiate_table en p t d : PeerTable.table_ok t ->
  PeerTable.table_ok (initiate en p t d).1 /\ forall id, known (initiate en p t d).1 id = known t id.
Proof.
  intros Ht. destruct (initiate_spec en p t d) as [[->| ->] _]; [done|]. split.
  - exact (PeerTable.peer_step_ok _ _ (PeerTable.PS_state t p PeerTable.StateHandshaking) Ht).
  - intros id. by apply known_alter.
Qed.

(** The callbacks keep the promise the client relies on. *)
Lemma hook_quiet en cb t d : PeerTable.table_ok t -> PeerTable.table_ok (hook en cb t d).1 /\ forall id, known (hook en cb t d).1 id = known t id.
Proof.
  intros Ht. destruct cb as [p|id|from payload|id rs|a cidr]; cbn [hook fst]; try done. unfold onPeerAdded.
  destruct (PeerTable.entries t !! p) as [e|]; [|done]. cbv zeta. set (d1 := if userspace then d else _).
  destruct (ap_valid (PeerTable.endpoint e)); [|done]. pose proof (initiate_table en p t d1 Ht). by destruct (initiate en p t d1).
Qed.

Variable oracle : nat -> env.
#[local] Instance daemon_hooks : Hooks Daemon := fun cb t d => let '(t, d') := hook (oracle (calls d)) cb t d in (t, tick d').
#[local] Instance daemon_quiet : QuietHooks Daemon.
Proof.
  intros cb t d Ht. pose proof (hook_quiet (oracle (calls d)) cb t d Ht) as Hq. unfold run_hook, daemon_hooks.
  by destruct (hook (oracle (calls d)) cb t d).
Qed.

(** ** LAN discovery *)

(** What an announcement must leave alone: who the known peers are, their
    sessions, their addresses and names, and an endpoint they have. *)
Record undisturbed (t t' : Table) : Prop := {
  un_known : forall id x, known t id = Some x -> known t' id = Some x;
  un_entry : forall id p e, PeerTable.byID t !! id = Some p -> PeerTable.entries t !! p = Some e ->
    exists e', PeerTable.byID t' !! id = Some p /\ PeerTable.entries t' !! p = Some e' /\
      PeerTable.session e' = PeerTable.session e /\ PeerTable.pendingSession e' = PeerTable.pendingSession e /\
      (ap_valid (PeerTable.endpoint e) = true -> PeerTable.endpoint e' = PeerTable.endpoint e);
  un_vpn : forall a p, PeerTable.byVPN t !! a = Some p -> PeerTable.byVPN t' !! a = Some p;
  un_name : forall n p, PeerTable.byName t !! n = Some p -> PeerTable.byName t' !! n = Some p
}.

Lemma undisturbed_refl t : undisturbed t t.
Proof. split; try done. intros id p e Hp He. by exists e. Qed.

Lemma undisturbed_trans t1 t2 t3 : undisturbed t1 t2 -> undisturbed t2 t3 -> undisturbed t1 t3.
Proof.
  intros [A1 A2 A3 A4] [B1 B2 B3 B4]. split; [auto..| |auto|auto]. intros id p e Hp He. destruct (A2 id p e Hp He) as (e2 & Hp2 & He2 & Es & Epd & Hep).
  destruct (B2 id p e2 Hp2 He2) as (e3 & Hp3 & He3 & Es3 & Epd3 & Hep3). exists e3. split_and!; try done; try congruence.
  intros Hv. rewrite <- (Hep Hv). apply Hep3. by rewrite (Hep Hv).
Qed.

Lemma undisturbed_alter f p t (m : gmap AddrPort ptr) :
  (forall e, card_of (f e) = card_of e /\ PeerTable.session (f e) = PeerTable.session e /\ PeerTable.pendingSession (f e) = PeerTable.pendingSession e) ->
  (forall e, PeerTable.entries t !! p = Some e -> ap_valid (PeerTable.endpoint e) = true -> PeerTable.endpoint (f e) = PeerTable.endpoint e) ->
  undisturbed t {| PeerTable.entries := alter f p (PeerTable.entries t); PeerTable.byID := PeerTable.byID t; PeerTable.byVPN := PeerTable.byVPN t;
                   PeerTable.byEndpoint := m; PeerTable.byName := PeerTable.byName t |}.
Proof.
  intros Hf Hep. split; try done.
  - intros id x Hx. rewrite <- Hx. exact (known_alter f p t (fun e => proj1 (Hf e)) id).
  - intros id q e Hq He. cbn. destruct (decide (p = q)) as [->|Hne].
    + exists (f e). rewrite lookup_alter_eq, He. destruct (Hf e) as (_ & ? & ?). split_and!; try done. by apply Hep.
    + exists e. by rewrite lookup_alter_ne.
Qed.

Lemma undisturbed_initiate en p t d : undisturbed t (initiate en p t d).1.
Proof.
  destruct (initiate_spec en p t d) as [[->| ->] _]; [apply undisturbed_refl|].
  by apply (undisturbed_alter (PeerTable.SetState PeerTable.StateHandshaking) p t (PeerTable.byEndpoint t)).
Qed.

Lemma undisturbed_new e t : PeerTable.table_ok t -> PeerTable.byID t !! PeerTable.ID e = None -> undisturbed t (CoordClient.upsert_new e t).2.2.
Proof.
  intros Ht Hnew. unfold CoordClient.upsert_new. cbn [snd]. set (p := CoordClient.fresh_ptr t). pose proof (CoordClient.fresh_ptr_None t) as Hp. fold p in Hp.
  set (t1 := PeerTable.with_entries _ t). assert (PeerTable.table_ok t1) as Ht1 by by apply PeerTable.new_entry_ok.
  assert (PeerTable.entries t1 !! p = Some e) as He by apply lookup_insert_eq.
  assert (forall q e0, PeerTable.entries t !! q = Some e0 -> PeerTable.entries t1 !! q = Some e0) as Hent.
  { intros q e0 Hq. cbn. rewrite lookup_insert_ne; [done|]. intros ->. congruence. }
  assert (forall q e0, PeerTable.entries t1 !! q = Some e0 -> PeerTable.byID t1 !! PeerTable.ID e0 = Some q -> PeerTable.id_of t1 q <> Some (PeerTable.ID e)) as Hown.
  { intros q e0 Hq Hid. unfold PeerTable.id_of. rewrite Hq. cbn. intros [= E]. rewrite E in Hid. cbn in Hid. congruence. }
  assert (PeerTable.entries (PeerTable.Upsert p t1).2 = PeerTable.entries t1 /\
    forall id, id <> PeerTable.ID e -> PeerTable.byID (PeerTable.Upsert p t1).2 !! id = PeerTable.byID t !! id) as [E1 E2].
  { unfold PeerTable.Upsert. rewrite He. destruct (addr_valid _ && _); [done|]. change (PeerTable.byID t1) with (PeerTable.byID t). rewrite Hnew.
    split; [done|]. intros id Hne. cbn. by rewrite lookup_insert_ne. }
  assert (forall id q, PeerTable.byID t !! id = Some q -> PeerTable.byID (PeerTable.Upsert p t1).2 !! id = Some q) as Hby.
  { intros id q Hq. rewrite E2; [done|]. intros ->. congruence. }
  split.
  - intros id x. unfold CoordClient.known. destruct (PeerTable.byID t !! id) as [q|] eqn:Eq; [|done]. rewrite (Hby _ _ Eq), !bind_Some_eq, E1.
    destruct (PeerTable.entries t !! q) as [e0|] eqn:E0; [|done]. by rewrite (Hent _ _ E0).
  - intros id q e0 Hq He0. exists e0. rewrite E1. eauto 10.
  - intros v q Hv. destruct (PeerTable.tk_vpn _ Ht1 _ _ Hv) as (_ & e0 & He0 & _ & Hid). by eapply (PeerTable.Upsert_keeps_others t1 p e q), Hv; eauto.
  - intros n q Hn. destruct (PeerTable.tk_name _ Ht1 _ _ Hn) as (_ & e0 & He0 & _ & Hid). by eapply (PeerTable.Upsert_keeps_others t1 p e q), Hn; eauto.
Qed.

Lemma undisturbed_endpoint p k t ep : PeerTable.byID t !! PeerTable.ID k = Some p -> PeerTable.entries t !! p = Some k -> ap_valid (PeerTable.endpoint k) = false ->
  undisturbed t (PeerTable.UpdateEndpoint (PeerTable.ID k) ep t).2.
Proof.
  intros Hp Hk Hv. unfold PeerTable.UpdateEndpoint, PeerTable.setEndpoint. rewrite Hp. cbv zeta.
  destruct (if ap_valid ep then PeerTable.byEndpoint t !! ep else None) as [q|].
  - destruct (negb (q =? p)%nat); cbn [andb negb]; [apply undisturbed_refl|]. apply undisturbed_alter; [done|congruence].
  - apply undisturbed_alter; [done|congruence].
Qed.

(** C29: Announcements on the LAN displace nobody.  They are not authenticated;
    whatever one claims, every known peer keeps its keys, address, routes, name,
    sessions and the endpoint it has.  With a coordinator no peer is added; without
    one, at most the announced peer is. *)
Theorem mdns_cannot_displace en e ep coordMode t d t' d' :
  PeerTable.table_ok t -> onMDNSPeer en e ep coordMode t d = (t', d') ->
  PeerTable.table_ok t' /\ undisturbed t t' /\
  (forall id, known t id = None -> known t' id = None \/ coordMode = false /\ id = PeerTable.ID e /\ known t' id = Some (card_of e)).
Proof.
  intros Ht. unfold onMDNSPeer. destruct (PeerTable.LookupByID (PeerTable.ID e) t) as [p|] eqn:Ep; unfold PeerTable.LookupByID in Ep.
  - destruct (PeerTable.tk_id _ Ht _ _ Ep) as (k & Ek & Eid). rewrite Ek.
    destruct (negb _ || negb _); [intros [= <- <-]; split_and!; auto using undisturbed_refl|]. cbv zeta.
    set (t1 := if negb (ap_valid (PeerTable.endpoint k)) then _ else t). intros E.
    assert (PeerTable.table_ok t1 /\ undisturbed t t1 /\ forall id, known t1 id = known t id) as (Ht1 & Hu1 & Hk1).
    { unfold t1. destruct (ap_valid (PeerTable.endpoint k)) eqn:Ev; cbn [negb]; [by auto using undisturbed_refl|]. split_and!.
      - exact (PeerTable.peer_step_ok _ _ (PeerTable.PS_update t _ ep) Ht).
      - apply (undisturbed_endpoint p); [by rewrite Eid|done..].
      - intros id. apply UpdateEndpoint_known. }
    pose proof (initiate_table en p t1 d Ht1) as [Ht2 Hk2]. pose proof (undisturbed_initiate en p t1 d) as Hu2. rewrite E in Ht2, Hk2, Hu2. cbn in Ht2, Hk2, Hu2.
    split_and!; [done|by eapply undisturbed_trans|]. intros id Hn. left. by rewrite Hk2, Hk1.
  - destruct coordMode; [intros [= <- <-]; split_and!; auto using undisturbed_refl|]. set (e1 := if ap_valid ep then _ else e).
    assert (PeerTable.ID e1 = PeerTable.ID e /\ card_of e1 = card_of e) as [Ei Ec] by (unfold e1; by destruct (ap_valid ep)).
    pose proof (undisturbed_new e1 t Ht) as Hu. rewrite Ei in Hu. specialize (Hu Ep).
    destruct (CoordClient.upsert_new_spec t e1 Ht) as (ok & t1 & E1 & Ht1 & Hk1 & _).
    destruct (CoordClient.upsert_new e1 t) as [q [ok1 t2]]. cbn in E1, Hu. injection E1 as -> ->.
    assert (forall id, known t id = None -> known t1 id = None \/ false = false /\ id = PeerTable.ID e /\ known t1 id = Some (card_of e)) as Hnew.
    { intros id Hn. rewrite Hk1. destruct ok; [|by left]. unfold CoordClient.upd. case_decide as Hd; [|by left]. right. by rewrite <- Ec, Hd. }
    destruct ok; [|intros [= <- <-]; done]. intros E.
    pose proof (initiate_table en q t1 d Ht1) as [Ht2 Hk2]. pose proof (undisturbed_initiate en q t1 d) as Hu2. rewrite E in Ht2, Hk2, Hu2. cbn in Ht2, Hk2, Hu2.
    split_and!; [done|by eapply undisturbed_trans|]. intros id Hn. rewrite Hk2. by apply Hnew.
Qed.

(** ** Joining again *)
Lemma upsert_byID e t : (CoordClient.upsert_new e t).2.1 = true -> PeerTable.byID (CoordClient.upsert_new e t).2.2 !! PeerTable.ID e = Some (CoordClient.upsert_new e t).1.
Proof.
  unfold CoordClient.upsert_new. cbn [fst snd]. set (p := CoordClient.fresh_ptr t). set (t1 := PeerTable.with_entries _ t).
  assert (PeerTable.entries t1 !! p = Some e) as He by apply lookup_insert_eq. unfold PeerTable.Upsert. rewrite He.
  destruct (addr_valid _ && _); [done|]. intros _. apply lookup_insert_eq.
Qed.

Lemma upsert_entry e t : PeerTable.entries (CoordClient.upsert_new e t).2.2 !! (CoordClient.upsert_new e t).1 = Some e.
Proof.
  unfold CoordClient.upsert_new. cbn [fst snd]. set (p := CoordClient.fresh_ptr t). set (t1 := PeerTable.with_entries _ t).
  assert (PeerTable.entries t1 !! p = Some e) as He by apply lookup_insert_eq. unfold PeerTable.Upsert. rewrite He.
  destruct (addr_valid _ && _); [exact He|]. cbn [snd PeerTable.entries].
  destruct (PeerTable.byID t1 !! PeerTable.ID e) as [old|]; [destruct (PeerTable.entries t1 !! old)|]; exact He.
Qed.

(** In a consistent table an address has one peer. *)
Lemma known_addr_inj t id1 id2 x1 x2 : PeerTable.table_ok t -> known t id1 = Some x1 -> known t id2 = Some x2 -> x1.1.2 = x2.1.2 -> addr_valid x1.1.2 = true -> id1 = id2.
Proof.
  intros Ht. unfold CoordClient.known. intros (p1 & B1 & E1)%bind_Some (p2 & B2 & E2)%bind_Some Ea Hv.
  destruct (PeerTable.tk_id _ Ht _ _ B1) as (e1 & F1 & I1), (PeerTable.tk_id _ Ht _ _ B2) as (e2 & F2 & I2). rewrite F1 in E1. rewrite F2 in E2.
  injection E1 as <-. injection E2 as <-. cbn [card_of fst snd] in *. pose proof (PeerTable.tk_reach _ Ht _ _ _ B1 F1 Hv) as R1.
  rewrite Ea in Hv. pose proof (PeerTable.tk_reach _ Ht _ _ _ B2 F2 Hv) as R2. congruence.
Qed.

Lemma fresh_entry msg e : CoordClient.peerFromProto msg = Some e -> PeerTable.session e = None /\ PeerTable.pendingSession e = None /\ PeerTable.prevSession e = None /\
  (Server.v_Endpoint msg = ""%string -> PeerTable.endpoint e = ap_zero).
Proof.
  unfold CoordClient.peerFromProto. intros (id & _ & Hx)%bind_Some. apply bind_Some in Hx as (x & _ & Hx). apply bind_Some in Hx as (v & _ & Hx). cbv zeta in Hx. injection Hx as <-.
  destruct (String.eqb_spec (Server.v_Endpoint msg) ""); [done|]. by destruct (ParseAddrPort _).
Qed.

(** A peer that joins again is cut off.  The coordinator repeats the JOIN of
    every peer when the daemon opens its stream again; for a peer that is known
    already and has not changed, the daemon replaces the entry by a new one without
    sessions, so that an established tunnel is gone, and without the endpoint that
    was found for it unless the coordinator knows one. *)
Theorem rejoin_drops_session self msg c d id x :
  PeerTable.table_ok (peerTable c) -> known (peerTable c) id = Some x -> CoordClient.msg_card msg = Some (id, x) -> Server.Id msg <> self ->
  let t' := peerTable (handleEvent (wire (Server.EvJoin msg)) self (c, d)).1 in
  known t' id = Some x /\
  exists p e, PeerTable.byID t' !! id = Some p /\ PeerTable.entries t' !! p = Some e /\
    PeerTable.session e = None /\ PeerTable.pendingSession e = None /\ PeerTable.prevSession e = None /\
    (Server.v_Endpoint msg = ""%string -> PeerTable.endpoint e = ap_zero).
Proof.
  intros Ht Hk Hm Hself. cbn [wire handleEvent CoordClient.Type_ CoordClient.ev_Peer]. rewrite (proj2 (String.eqb_neq _ _) Hself).
  unfold CoordClient.msg_card in Hm. destruct (CoordClient.peerFromProto msg) as [e|] eqn:Ep; [|done]. rewrite bind_Some_eq in Hm. injection Hm as Hid Hx.
  destruct (CoordClient.upsert_new_spec (peerTable c) e Ht) as (ok & t' & E & Ht' & Hk' & Hok). pose proof (upsert_entry e (peerTable c)) as He.
  pose proof (upsert_byID e (peerTable c)) as Hb. destruct (fresh_entry _ _ Ep) as (S1 & S2 & S3 & S4).
  destruct (CoordClient.upsert_new e (peerTable c)) as [q [ok' t2]]. cbn in E, He, Hb. injection E as -> ->. assert (ok = true) as ->.
  { apply not_false_iff_true. intros (Hv & i & y & Hy & Ha & Hne)%Hok. apply Hne. rewrite Hid. eapply (known_addr_inj _ i id y x Ht); try done; [|by rewrite Ha].
    by rewrite Ha, <- Hx. }
  specialize (Hb eq_refl). rewrite Hid in Hb. set (y := CoordClient.call _ _ _).
  assert (peerTable y.1 = t' \/ peerTable y.1 = handshaking_at q t') as Hy.
  { unfold y, CoordClient.call, run_hook, daemon_hooks. destruct (CoordClient.hasOnPeerAdded _); [|by left]. cbn [fst snd hook peerTable CoordClient.with_table].
    unfold onPeerAdded. rewrite He. cbv zeta. set (d1 := if userspace then d else _). destruct (ap_valid (PeerTable.endpoint e)); [|by left].
    destruct (initiate_spec (oracle (calls d)) q t' d1) as [Hi _]. destruct (initiate _ q t' d1). exact Hi. }
  clearbody y. split.
  - assert (known t' id = Some x) as Hk2 by (rewrite Hk'; unfold CoordClient.upd; by rewrite Hid, decide_True, Hx).
    destruct Hy as [->| ->]; [done|]. unfold handshaking_at. by rewrite known_alter.
  - exists q. destruct Hy as [->| ->]; [by exists e|]. exists (PeerTable.SetState PeerTable.StateHandshaking e). cbn. rewrite lookup_alter_eq, He. by split_and!.
Qed.

(** ** Routes follow the peers *)
Section Routes.
Context {laws : Route.RouteLaws K}.
Abbreviation dst := Route.prefixToIPNet.
Abbreviation gw := Route.AsSlice.
Abbreviation route_at := Route.route_at.

(** The route an error is about, and whether a printed error is about [d]. *)
Definition err_prefix (e : Route.manager_error) : Prefix := match e with Route.ReplaceFailed p _ _ => p | Route.DelFailed p _ => p end.
Definition refused (l : list effect) (d : Route.IPNet) : Prop := exists e, RouteWarning e ∈ l /\ dst (err_prefix e) = d.


Lemma warned_sub l err : l ⊆ warned l err.
Proof. destruct err; cbn [warned]; [apply list_subseteq_app_l|]; done. Qed.

Lemma Add_spec p via m k m' k' err : Route.Add p via m k = (m', k', err) ->
  match err with
  | None => Route.routes m' = <[p := via]> (Route.routes m) /\ forall d, route_at k' d = if decide (d = dst p) then Some (gw via) else route_at k d
  | Some e => err_prefix e = p /\ m' = m /\ forall d, route_at k' d = route_at k d
  end.
Proof.
  unfold Route.Add. pose proof (Route.replace_ok (dst p) (gw via) k) as Ho. pose proof (Route.replace_failed (dst p) (gw via) k) as Hf.
  destruct (Route.RouteReplace _ _ k) as [k1 [e|]]; intros [= <- <- <-]; cbn in *; [split_and!; [done..|by eapply Hf]|split; [done|by apply Ho]].
Qed.

Lemma Remove_error p m k m' k' e : Route.Remove p m k = (m', k', Some e) -> err_prefix e = p.
Proof.
  unfold Route.Remove. destruct (Route.routes m !! p); [|done]. destruct (Route.RouteDel _ _ k) as [k1 [e1|]]; [|done].
  destruct (Route.isNotExist e1); [done|]. by intros [= _ _ <-].
Qed.

Definition accepted (mesh p : Prefix) : bool := is_ok (Route.CheckPeerRoute p mesh).

(** After the routes of a peer were added, at a destination the kernel refused
    nothing about. *)
Lemma add_fold mesh via rs : forall m k l m' k' l', foldl (add_route mesh via) (m, k, l) rs = (m', k', l') ->
  l ⊆ l' /\ forall d, ~ refused l' d ->
  (forall q, dst q = d -> Route.routes m' !! q = if decide (q ∈ rs /\ accepted mesh q = true) then Some via else Route.routes m !! q) /\
  ((exists q, q ∈ rs /\ accepted mesh q = true /\ dst q = d) -> route_at k' d = Some (gw via)) /\
  (route_at k' d = route_at k d \/ exists q, q ∈ rs /\ accepted mesh q = true /\ dst q = d).
Proof.
  induction rs as [|p rs IH]; intros m k l m' k' l' E; cbn [foldl] in E.
  { injection E as <- <- <-. split; [done|]. intros d _. split_and!; [|set_solver|by left]. intros q _. rewrite decide_False by set_solver. done. }
  unfold add_route at 2 in E. cbn [fst snd] in E. fold (accepted mesh p) in E. unfold accepted in *.
  destruct (Route.CheckPeerRoute p mesh) as [[]|] eqn:Ec; [destruct (Route.Add p via m k) as [[m1 k1] err] eqn:Ea; pose proof (Add_spec _ _ _ _ _ _ _ Ea) as Hs|];
    destruct (IH _ _ _ _ _ _ E) as [Hsub Hall].
  - split; [etrans; [apply warned_sub|exact Hsub]|]. intros d Hd. destruct (Hall d Hd) as (Hr & Hi & Ho). destruct err as [e|].
    + destruct Hs as (He & -> & Hk). assert (dst p <> d) as Hne by (intros Ed; apply Hd; exists e; split; [apply Hsub; cbn; set_solver|by rewrite He]).
      split_and!.
      * intros q Eq. rewrite Hr by done. assert (q <> p) by congruence. repeat case_decide; set_solver.
      * intros (q & [->|Hq]%elem_of_cons & Hok & Ed); [done|apply Hi; eauto].
      * destruct Ho as [->|(q & ? & ? & ?)]; [left; apply Hk|right; exists q; set_solver].
    + destruct Hs as [Hm Hk]. split_and!.
      * intros q Eq. rewrite Hr, Hm by done. destruct (decide (q ∈ rs /\ _)) as [[? ?]|Hn]; [rewrite decide_True by set_solver; done|].
        destruct (decide (p = q)) as [->|Hne]; [rewrite lookup_insert_eq, decide_True; [done|]; split; [by left|by rewrite Ec]|].
        rewrite lookup_insert_ne, decide_False by (done || set_solver). done.
      * intros (q & [->|Hq]%elem_of_cons & Hok & Ed); [|apply Hi; eauto]. destruct Ho as [->|(q' & ?)]; [|apply Hi; eauto]. by rewrite Hk, decide_True.
      * destruct Ho as [->|(q & ? & ? & ?)]; [|right; exists q; set_solver]. rewrite Hk. case_decide as Hx; [right|by left]. exists p. rewrite Ec. set_solver.
  - split; [done|]. intros d Hd. destruct (Hall d Hd) as (Hr & Hi & Ho). split_and!.
    + intros q Eq. rewrite Hr by done. assert (q ∈ rs /\ is_ok (Route.CheckPeerRoute q mesh) = true <-> q ∈ p :: rs /\ is_ok (Route.CheckPeerRoute q mesh) = true) as Hiff.
      { rewrite elem_of_cons. split; [naive_solver|]. intros [[->|?] Hok]; [by rewrite Ec in Hok|done]. }
      by destruct (decide (q ∈ rs /\ _)), (decide (q ∈ p :: rs /\ _)); tauto || done.
    + intros (q & [->|Hq]%elem_of_cons & Hok & Ed); [by rewrite Ec in Hok|apply Hi; eauto].
    + destruct Ho as [?|(q & ? & ? & ?)]; [by left|right; exists q; set_solver].
Qed.

Lemma remove_fold rs : forall m k l m' k' l', foldl remove_route (m, k, l) rs = (m', k', l') ->
  l ⊆ l' /\ forall d, ~ refused l' d ->
  (forall q, dst q = d -> Route.routes m' !! q = if decide (q ∈ rs) then None else Route.routes m !! q) /\
  (route_at k' d = route_at k d \/ route_at k' d = None) /\
  ((forall q, q ∈ rs -> Route.routes m !! q <> None -> dst q <> d) -> route_at k' d = route_at k d) /\
  (forall q via, dst q = d -> q ∈ rs -> Route.routes m !! q = Some via -> route_at k d = Some (gw via) -> route_at k' d = None).
Proof.
  induction rs as [|p rs IH]; intros m k l m' k' l' E; cbn [foldl] in E.
  { injection E as <- <- <-. split; [done|]. intros d _. split_and!; [|by left|done|set_solver]. intros q _. by rewrite decide_False by set_solver. }
  unfold remove_route at 2 in E. cbn [fst snd] in E. destruct (Route.Remove p m k) as [[m1 k1] err] eqn:Er.
  pose proof (Route.Remove_spec _ _ _ _ _ _ Er) as Hs. destruct (IH _ _ _ _ _ _ E) as [Hsub Hall].
  split; [etrans; [apply warned_sub|exact Hsub]|]. intros d Hd. destruct (Hall d Hd) as (Hr & Hi & Ho & Hg).
  assert (dst p = d -> err = None) as Hne.
  { intros Ed. destruct err as [e|]; [|done]. exfalso. apply Hd. exists e. split; [apply Hsub; cbn; set_solver|]. by rewrite (Remove_error _ _ _ _ _ _ Er). }
  assert (forall q, dst q = d -> Route.routes m1 !! q = if decide (p = q) then None else Route.routes m !! q) as Hm1.
  { intros q Eq. destruct (decide (p = q)) as [->|Hnq].
    - rewrite (Hne Eq) in Hs. destruct (Route.routes m !! q) eqn:Eqm; [destruct Hs as [-> _]; apply lookup_delete_eq|destruct Hs as [-> _]; done].
    - destruct (Route.routes m !! p); [destruct err; destruct Hs as [-> _]; [done|by rewrite lookup_delete_ne]|by destruct Hs as [-> _]]. }
  assert (route_at k1 d = route_at k d \/ route_at k1 d = None /\ dst p = d /\ Route.routes m !! p <> None) as Hstep.
  { destruct (Route.routes m !! p) as [v|]; [|destruct Hs as (_ & -> & _); by left]. destruct err as [e|]; [left; apply Hs|].
    destruct Hs as [_ Hs]. rewrite (Hs d). destruct (decide _) as [[? ?]|]; [by right|by left]. }
  split_and!.
  - intros q Eq. rewrite Hr, Hm1 by done. destruct (decide (q ∈ rs)); [by rewrite decide_True by by right|].
    destruct (decide (p = q)) as [->|Hnq]; [by rewrite decide_True by by left|]. rewrite (decide_False (P := q ∈ p :: rs)) by set_solver. done.
  - destruct Hi as [->| ->]; [|by right]. destruct Hstep as [->|[-> _]]; auto.
  - intros Hn. rewrite Ho.
    + destruct Hstep as [->|(_ & Ed & Hm)]; [done|]. by destruct (Hn p ltac:(by left) Hm).
    + intros q Hq Hm Ed. apply (Hn q); [by right| |done]. rewrite Hm1 in Hm by done. by destruct (decide (p = q)).
  - intros q via Eq Hq Hm Hat. destruct (decide (route_at k1 d = None)) as [Hnone|Hsome].
    { destruct Hi as [->| ->]; done. }
    destruct Hstep as [Es|[? _]]; [|done].
    assert (p <> q) as Hnq.
    { intros ->. rewrite Hm, (Hne Eq) in Hs. destruct Hs as [_ Hs]. specialize (Hs d). rewrite decide_True in Hs by (split; congruence). congruence. }
    eapply Hg; [done|set_solver| |by rewrite Es]. rewrite Hm1, decide_False by done. exact Hm.
Qed.




(** Different members announce different destinations. *)
Definition separate (f : members) : Prop :=
  forall id1 id2 c1 c2 p1 p2, f id1 = Some c1 -> f id2 = Some c2 -> id1 <> id2 -> p1 ∈ c1.2 -> p2 ∈ c2.2 -> dst p1 <> dst p2.
(** No member withdraws a route while it stays. *)
Definition grows (f g : members) : Prop := forall id c c', f id = Some c -> g id = Some c' -> c.2 ⊆ c'.2.



Hypothesis with_kernel_routes : userspace = false.

Lemma initiate_out en p t d : out d ⊆ out (initiate en p t d).2.
Proof using Type. unfold initiate. destruct (Handshake.Initiate _ _ _ _) as [n evs]. cbn. apply list_subseteq_app_l. done. Qed.

Lemma onPeerAdded_routes en p t d e : PeerTable.entries t !! p = Some e -> let d' := (onPeerAdded en p t d).2 in
  tunDev d' = tunDev d /\ exists l, out d ++ l ⊆ out d' /\
    foldl (add_route (mesh_of d) (PeerTable.VPNAddr e)) (routeMgr d, kernel d, []) (PeerTable.SubnetRoutes e) = (routeMgr d', kernel d', l).
Proof using Type with_kernel_routes.
  intros He. unfold onPeerAdded. rewrite He, with_kernel_routes. cbv zeta. unfold addPeerRoutes.
  destruct (foldl _ _ _) as [[m k] l] eqn:E. destruct (ap_valid (PeerTable.endpoint e)); [|split; [done|]; by exists l].
  destruct (initiate_spec en p t (with_routes m k l d)) as (_ & E1 & E2 & E3 & _). pose proof (initiate_out en p t (with_routes m k l d)) as Ho.
  destruct (initiate en p t (with_routes m k l d)) as [t1 d1]. cbn in *. rewrite E1, E2, E3. split; [done|]. by exists l.
Qed.

Lemma onPeerRemoved_routes id t d : let d' := onPeerRemoved id t d in tunDev d' = tunDev d /\ out d ⊆ out d' /\
  match p ← PeerTable.LookupByID id t; PeerTable.entries t !! p with
  | Some e => exists l, out d ++ l ⊆ out d' /\ foldl remove_route (routeMgr d, kernel d, []) (PeerTable.SubnetRoutes e) = (routeMgr d', kernel d', l)
  | None => routeMgr d' = routeMgr d /\ kernel d' = kernel d
  end.
Proof using Type with_kernel_routes.
  unfold onPeerRemoved. rewrite with_kernel_routes. destruct (p ← PeerTable.LookupByID id t; PeerTable.entries t !! p) as [e|]; [|cbn; split_and!; set_solver].
  unfold removePeerRoutes. destruct (foldl _ _ _) as [[m k] l] eqn:E. cbn. split_and!; [done|set_solver|]. exists l. split; [set_solver|done].
Qed.






(** A kernel that refuses no removal. *)
Lemma Remove_works p m k :
  (forall dst gw (k : K) e, (Route.RouteDel dst gw k).2 = Some e -> e = "no such process"%string) -> (Route.Remove p m k).2 = None.
Proof.
  intros del_works. unfold Route.Remove. destruct (Route.routes m !! p) as [via|]; [|done]. pose proof (del_works (dst p) (gw via) k) as Hw.
  destruct (Route.RouteDel _ _ k) as [k1 [e|]]; [|done]. by rewrite (Hw e eq_refl).
Qed.

Lemma remove_quiet (del_works : forall dst gw (k : K) e, (Route.RouteDel dst gw k).2 = Some e -> e = "no such process"%string) rs :
  forall m k m' k' l', foldl remove_route (m, k, []) rs = (m', k', l') -> l' = [].
Proof.
  induction rs as [|p rs IH]; intros m k m' k' l' E; cbn [foldl] in E; [by injection E|]. unfold remove_route at 2 in E. cbn [fst snd] in E.
  pose proof (Remove_works p m k del_works) as Hw. destruct (Route.Remove p m k) as [[m1 k1] err]. cbn in Hw. subst err. by eapply IH.
Qed.

(** A route that two peers announce is lost when one of them leaves: it is
    removed with the leaving peer, although the other one stays and still announces
    it. *)
Theorem shared_route_removed self msg f c d id1 id2 c1 c2 p via :
  (forall dst gw (k : K) e, (Route.RouteDel dst gw k).2 = Some e -> e = "no such process"%string) ->
  tracks (peerTable c) f -> CoordClient.distinct f -> CoordClient.hooks c = daemon_callbacks -> f id1 = Some c1 -> f id2 = Some c2 -> id1 <> id2 -> p ∈ c1.2 -> p ∈ c2.2 ->
  Route.routes (routeMgr d) !! p = Some via -> route_at (kernel d) (dst p) = Some (gw via) ->
  CoordClient.hexToID (Server.Id msg) = Some id2 -> Server.Id msg <> self ->
  let x := handleEvent (wire (Server.EvLeave msg)) self (c, d) in
  known (peerTable x.1) id1 = Some c1 /\ Route.routes (routeMgr x.2) !! p = None /\ route_at (kernel x.2) (dst p) = None.
Proof using Type laws with_kernel_routes.
  intros del_works Ht Hd Hh Hf1 Hf2 Hne Hp1 Hp2 Hr Hk Hid Hself. pose proof (CoordClient.handle_tracks (Server.EvLeave msg) self (c, d) f Ht) as Ht'. split.
  - assert (follow self f (Server.EvLeave msg) = upd id2 None f) as Ef by (cbn [follow]; by rewrite (proj2 (String.eqb_neq _ _) Hself), Hid).
    rewrite Ef in Ht'. cbv zeta. rewrite (CoordClient.tr_known _ _ (Ht' ltac:(intros i1 i2 k1 k2; unfold CoordClient.upd; repeat case_decide; try done; apply Hd))).
    unfold CoordClient.upd. by rewrite decide_False.
  - clear Ht'. cbn [wire handleEvent CoordClient.Type_ CoordClient.ev_Peer]. rewrite (proj2 (String.eqb_neq _ _) Hself), Hid, Hh.
    unfold CoordClient.call, run_hook, daemon_hooks. cbn [CoordClient.hasOnPeerRemoved daemon_callbacks fst snd hook tick routeMgr kernel].
    destruct (onPeerRemoved_routes id2 (peerTable c) d) as (_ & _ & E). pose proof (CoordClient.tr_known _ _ Ht id2) as Hkn. unfold CoordClient.known, PeerTable.LookupByID in *.
    rewrite Hf2 in Hkn. apply bind_Some in Hkn as (q & Eq & Ee). rewrite Eq, bind_Some_eq in E. destruct (PeerTable.entries (peerTable c) !! q) as [e|]; [|done].
    injection Ee as <-. destruct E as (l & _ & E). pose proof (remove_quiet del_works _ _ _ _ _ _ E) as ->. destruct (remove_fold _ _ _ _ _ _ _ E) as [_ Hrem].
    destruct (Hrem (dst p)) as (Hr' & _ & _ & Hg); [by intros (? & ?%elem_of_nil & _)|]. split; [by rewrite Hr', decide_True|by eapply Hg].
Qed.

(** A route that a peer withdraws by registering again without it stays: the event
    only adds, and the update of routes is never listened to. *)
Lemma add_keeps mesh via rs p : forall m k l m' k' l', foldl (add_route mesh via) (m, k, l) rs = (m', k', l') ->
  is_Some (Route.routes m !! p) -> is_Some (Route.routes m' !! p).
Proof.
  induction rs as [|q rs IH]; intros m k l m' k' l' E Hp; cbn [foldl] in E; [by injection E as <- <- <-|]. unfold add_route at 2 in E. cbn [fst snd] in E.
  destruct (Route.CheckPeerRoute q mesh); [|by eapply IH]. destruct (Route.Add q via m k) as [[m1 k1] err] eqn:Ea. eapply IH; [exact E|].
  pose proof (Add_spec _ _ _ _ _ _ _ Ea) as Hs. destruct err; [by destruct Hs as (_ & -> & _)|]. destruct Hs as [-> _]. apply lookup_insert_is_Some'. by right.
Qed.

Lemma withdrawn_route_stays self msg c d p via :
  CoordClient.hooks c = daemon_callbacks -> Route.routes (routeMgr d) !! p = Some via ->
  is_Some (Route.routes (routeMgr (handleEvent (wire (Server.EvJoin msg)) self (c, d)).2) !! p).
Proof using Type laws with_kernel_routes.
  intros Hh Hr. cbn [wire handleEvent CoordClient.Type_ CoordClient.ev_Peer]. destruct (String.eqb _ self); [by eexists|].
  destruct (CoordClient.peerFromProto msg) as [e|]; [|by eexists]. pose proof (upsert_entry e (peerTable c)) as He.
  destruct (CoordClient.upsert_new e (peerTable c)) as [q [ok t]]. cbn in He. destruct ok; [|by eexists]. rewrite Hh.
  unfold CoordClient.call, run_hook, daemon_hooks. cbn [CoordClient.hasOnPeerAdded daemon_callbacks fst snd hook peerTable CoordClient.with_table].
  destruct (onPeerAdded_routes (oracle (calls d)) q t d e He) as (_ & l & _ & E). destruct (onPeerAdded _ q t d) as [t2 d2]. cbn [snd tick routeMgr] in *.
  eapply add_keeps; [exact E|by eexists].
Qed.

(** ** Starting with a configuration *)
Lemma addPeerRoutes_spec e d : let d' := addPeerRoutes e d in
  tunDev d' = tunDev d /\ exists l, foldl (add_route (mesh_of d) (PeerTable.VPNAddr e)) (routeMgr d, kernel d, []) (PeerTable.SubnetRoutes e) = (routeMgr d', kernel d', l).
Proof. unfold addPeerRoutes. destruct (foldl _ _ _) as [[m k] l]. split; [done|]. by exists l. Qed.

Lemma add_quiet (replace_works : forall dst gw (k : K), (Route.RouteReplace dst gw k).2 = None) mesh via rs :
  forall m k m' k' l', foldl (add_route mesh via) (m, k, []) rs = (m', k', l') -> l' = [].
Proof.
  induction rs as [|p rs IH]; intros m k m' k' l' E; cbn [foldl] in E; [by injection E|]. unfold add_route at 2 in E. cbn [fst snd] in E.
  destruct (Route.CheckPeerRoute p mesh); [|by eapply IH]. unfold Route.Add in E. pose proof (replace_works (dst p) (gw via) k) as Hw.
  destruct (Route.RouteReplace _ _ k) as [k1 err]. cbn in Hw. subst err. by eapply IH.
Qed.

Lemma static_fold (replace_works : forall dst gw (k : K), (Route.RouteReplace dst gw k).2 = None) tbl l : forall d, tunDev d = None ->
  let d' := foldl (fun d p => match PeerTable.entries tbl !! p with Some e => addPeerRoutes e d | None => d end) d l in
  tunDev d' = None /\
  forall q, is_Some (Route.routes (routeMgr d) !! q) \/
    (exists p e, p ∈ l /\ PeerTable.entries tbl !! p = Some e /\ q ∈ PeerTable.SubnetRoutes e /\ accepted Daemon.prefix_zero q = true) ->
    is_Some (Route.routes (routeMgr d') !! q).
Proof using Type laws.
  clear oracle with_kernel_routes.
  induction l as [|p l IH]; intros d Hd; cbn [foldl]; [split; [done|]; intros q [?|(p & e & Hp & _)]; [done|by apply not_elem_of_nil in Hp]|].
  destruct (PeerTable.entries tbl !! p) as [e|] eqn:Ee.
  - destruct (addPeerRoutes_spec e d) as (Et & l1 & E). destruct (IH (addPeerRoutes e d) ltac:(by rewrite Et)) as [Ht Hq]. split; [done|].
    pose proof (add_quiet replace_works _ _ _ _ _ _ _ _ E) as ->. destruct (add_fold _ _ _ _ _ _ _ _ _ E) as [_ Hadd]. unfold mesh_of in Hadd. rewrite Hd in Hadd.
    intros q Hin. apply Hq. destruct (Hadd (dst q)) as (Hr & _); [by intros (? & ?%elem_of_nil & _)|]. rewrite Hr by done. destruct (decide _) as [Hc|Hc]; [left; by eexists|].
    destruct Hin as [?|(p' & e' & [->|Hp]%elem_of_cons & He' & Hqe & Ha)]; [by left| |right; eauto 10]. rewrite Ee in He'. injection He' as <-. tauto.
  - destruct (IH d Hd) as [Ht Hq]. split; [done|]. intros q [?|(p' & e' & [->|Hp]%elem_of_cons & He' & Hqe & Ha)]; [apply Hq; by left|congruence|].
    apply Hq. right. eauto 10.
Qed.

Lemma overlap_only p mesh : Route.CheckPeerRoute p mesh = Err Route.OverlapsMesh -> accepted Daemon.prefix_zero p = true.
Proof using Type.
  clear oracle with_kernel_routes.
  unfold accepted, Route.CheckPeerRoute. destruct (negb (prefix_valid p)); [done|]. cbv zeta. destruct (Route.Is4In6 _); [done|]. destruct (_ <? _); [done|].
  destruct (_ || _ || _ || _ || _); [done|]. done.
Qed.

(** With a static configuration, routes of peers are not checked against the
    mesh: they are installed before the node has its TUN, so that a route which
    overlaps the mesh, and is refused on its own, is installed. *)
Theorem static_mesh_route_installed (replace_works : forall dst gw (k : K), (Route.RouteReplace dst gw k).2 = None) se tofu0 k f h st mesh id c p :
  NewFromConfig se tofu0 k f = (h, Ok st) -> coord_mode = false -> vpn_prefix = Some mesh ->
  Daemon.configured (Config.Peers cfg) id = Some c -> p ∈ c.2 -> Route.CheckPeerRoute p mesh = Err Route.OverlapsMesh ->
  is_Some (Route.routes (routeMgr (s_daemon st)) !! p).
Proof using Type laws with_kernel_routes.
  clear oracle.
  intros E Hc Hv Hcfg Hp Ho. unfold NewFromConfig in E. rewrite Hv, Hc, with_kernel_routes in E. cbn [negb andb] in E.
  destruct (s_identity se) as [i|]; [|done]. destruct network_bytes as [net|]; [|done]. destruct (negb (s_listen se)); [done|].
  destruct (Daemon.buildPeerTable _) as [tbl|] eqn:Et; [|done]. destruct (negb (s_policy se)); [done|]. cbv zeta in E.
  set (d0 := fresh_daemon i net tofu0 se k) in *. destruct (if negb (bool_decide (Config.SubnetRoutes (Config.Node cfg) = [])) then _ else (f, None)) as [f1 r1].
  set (d1 := static_routes tbl d0) in *.
  assert (is_Some (Route.routes (routeMgr d1) !! p)) as Hd1.
  { destruct (Daemon.add_peers_known _ (fun _ => None) _ _ PeerTable.New_ok ltac:(done) Et) as [Htok Hk]. change (foldl _ _ _) with (Daemon.configured (Config.Peers cfg)) in Hk.
    pose proof (Hk id) as Hid. rewrite Hcfg in Hid. unfold CoordClient.known in Hid. apply bind_Some in Hid as (q & Eq & Ee).
    destruct (PeerTable.entries tbl !! q) as [e|] eqn:Eqe; [|done]. injection Ee as <-.
    apply (static_fold replace_works tbl (PeerTable.List tbl) d0 eq_refl). right. exists q, e. split_and!; [|done|done|by eapply overlap_only].
    unfold PeerTable.List. apply list_elem_of_fmap. exists (id, q). split; [done|]. by apply elem_of_map_to_list. }
  clearbody d1. destruct (prefix_valid mesh); [destruct (createTUN (s_env se) mesh) as [dev|]; [|done]|]; destruct (s_tofu se) as [store|]; try done;
    destruct (Handshake.UseReplayState _ _ _) as [n|]; try done; injection E as <- <-; exact Hd1.
Qed.

(** Stopping gives the host back: the routes tracked are taken away where
    they are still the daemon's, none is tracked any more, every relay proxy is
    closed, and IP forwarding is as it was before the start. *)
Theorem stop_gives_back (del_works : forall dst gw (k : K) e, (Route.RouteDel dst gw k).2 = Some e -> e = "no such process"%string) proxies prefixes d f f1 r d' f' :
  Route.ranged prefixes (routeMgr d) -> (forall p, p ∈ proxies <-> exists id, relayProxies d !! id = Some p) ->
  Route.EnableIPForward f = Some (f1, r) -> Stop proxies prefixes (Some r) d f1 = (d', f') ->
  Route.routes (routeMgr d') = ∅ /\ tunDev d' = None /\ relayProxies d' = ∅ /\ f' = f /\
  (forall id p, relayProxies d !! id = Some p -> CloseProxy p ∈ out d') /\
  (forall p via, Route.routes (routeMgr d) !! p = Some via -> route_at (kernel d) (dst p) = Some (gw via) -> route_at (kernel d') (dst p) = None).
Proof using Type with_kernel_routes.
  clear oracle.
  intros [Hnd Hdom] Hpr Hf. unfold Stop. rewrite with_kernel_routes. destruct (Route.Close prefixes (routeMgr d) (kernel d)) as [[m k] err] eqn:Ec.
  destruct (Route.forward_restored _ _ _ Hf) as [_ Hr]. rewrite Hr. cbn [default]. intros [= <- <-]. cbn.
  assert (err = None) as ->.
  { assert (forall ps m0 k0, (Route.remove_all ps m0 k0 None).2 = None) as Hall.
    { induction ps as [|p ps IH]; intros m0 k0; cbn; [done|]. pose proof (Remove_works p m0 k0 del_works) as E. destruct (Route.Remove p m0 k0) as [[m1 k1] e1]. cbn in E. subst e1. apply IH. }
    pose proof (Hall prefixes (routeMgr d) (kernel d)) as E. unfold Route.Close in Ec. by rewrite Ec in E. }
  destruct (Route.remove_all_spec _ _ _ _ _ Hnd Ec) as [Hr1 Hk1]. split_and!; try done.
  - apply map_empty. intros p. rewrite Hr1. case_decide as Hp; [done|]. rewrite Hdom in Hp. by apply not_elem_of_dom.
  - intros id p Hp. apply elem_of_app. left. apply elem_of_app. left. apply elem_of_app. right. apply list_elem_of_fmap. exists p. split; [done|]. apply Hpr. eauto.
  - intros p via Hp Hat. destruct (Hk1 (dst p)) as [[_ Hn]|[E _]]; [|done]. exfalso. eapply Hn; [|done..]. apply Hdom. by eapply elem_of_dom_2.
Qed.

End Routes.

(** A start that fails after the routes leaves what it did: the socket stays open
    when the TUN cannot be made, and forwarding stays on. *)
Lemma failed_start_leaks se tofu0 k f h e : NewFromConfig se tofu0 k f = (h, Err e) ->
  (e = ECreateTUN -> h_socket h = true) /\
  (e = ECreateTUN \/ e = ETOFU \/ e = EReplay -> userspace = false -> Config.SubnetRoutes (Config.Node cfg) <> [] ->
   forall f' r, Route.EnableIPForward f = Some (f', r) -> h_sysctl h = f').
Proof.
  unfold NewFromConfig. cbv zeta. intros E.
  destruct (s_identity se) as [i|]; [|injection E as <- <-; naive_solver]. destruct network_bytes as [net|]; [|injection E as <- <-; naive_solver].
  destruct vpn_prefix as [v|]; [|injection E as <- <-; naive_solver]. destruct (negb (s_listen se)); [injection E as <- <-; naive_solver|].
  destruct (Daemon.buildPeerTable _) as [tbl|]; [|injection E as <- <-; naive_solver]. destruct (negb (s_policy se)); [injection E as <- <-; naive_solver|].
  destruct (if negb userspace && _ then _ else (f, None)) as [f1 r1] eqn:Ef.
  assert (userspace = false -> Config.SubnetRoutes (Config.Node cfg) <> [] -> forall f' r, Route.EnableIPForward f = Some (f', r) -> f1 = f') as Hf.
  { intros Hu Hs f' r Hen. rewrite Hu, bool_decide_false in Ef by done. cbn in Ef. rewrite Hen in Ef. by injection Ef as <- <-. }
  destruct (negb coord_mode && prefix_valid v); [destruct (createTUN (s_env se) v)|]; try destruct (s_tofu se) as [store|];
    try destruct (Handshake.UseReplayState _ _ _); try done; injection E as <- <-; naive_solver.
Qed.

End Daemon.

(** *** A daemon

    The kernel is a map that refuses nothing; pinning is off; the handshake and
    signal libraries are those of the components' own examples. *)
#[local] Existing Instances Handshake.demo_lib Signal.toy_crypto Nat.toy_codec.
#[local] Instance no_pins : Handshake.Pinning unit := None.
Abbreviation free_kernel := (gmap Route.IPNet (list Z)).
#[local] Instance free_handle : Route.RouteHandle free_kernel := {
  RouteReplace dst gw k := (<[dst := gw]> k, None);
  RouteDel dst gw k := if bool_decide (k !! dst = Some gw) then (delete dst k, None) else (k, Some "no such process"%string)
}.
#[local] Program Instance free_laws : Route.RouteLaws free_kernel := { route_at k d := k !! d }.
Next Obligation. intros dst gw k _ d; cbn. case_decide; [subst; by rewrite lookup_insert_eq|by rewrite lookup_insert_ne]. Qed.
Next Obligation. done. Qed.
Next Obligation.
  intros dst gw k E; cbn in *. case_bool_decide; [|done]. split; [done|]. intros d. cbn. case_decide; [subst; by rewrite lookup_delete_eq|by rewrite lookup_delete_ne].
Qed.
Next Obligation. intros dst gw k E; cbn in *. by case_bool_decide. Qed.
Next Obligation. intros dst gw k e E d; cbn in *. by case_bool_decide. Qed.

Lemma free_replace dst gw (k : free_kernel) : (Route.RouteReplace dst gw k).2 = None.
Proof. done. Qed.
Lemma free_del dst gw (k : free_kernel) e : (Route.RouteDel dst gw k).2 = Some e -> e = "no such process"%string.
Proof. cbn. case_bool_decide; [done|]. by intros [= <-]. Qed.

Definition demo_env (_ : nat) : env :=
  {| e_random := Some []; e_clock := fun _ => 10 ^ 18; e_nonce := zeros 8; e_now := 0; e_nowSec := 10 ^ 9; e_tun := true; e_mdns := true |}.
Definition demo_device : Device := {| dev_name := "veld0"; dev_prefix := {| p_addr := Addr4 0x64400001; p_bits := 10 |}; dev_mtu := 1420 |}.
Definition daemon_on {K : Type} (k : K) : Daemon (T := unit) (K := K) :=
  {| hsMgr := {| Handshake.mgr := Handshake.New (Handshake.demo_identity 1) (zeros 16); Handshake.peers := PeerTable.New; Handshake.sessions := ∅;
                 Handshake.tofu := tt; Handshake.file := None |};
     natMgr := Nat.New 51820 (Handshake.demo_identity 1); routeMgr := Route.newLinuxManager; kernel := k; tunDev := Some demo_device; mdnsDisco := None;
     relayProxies := {[replicate 32 2 := 7%nat]}; vpnAddr := AddrZero; calls := 0; out := [] |}.
Definition demo_daemon : Daemon (T := unit) (K := free_kernel) := daemon_on ∅.
Definition demo_cfg (peers : list Config.PeerConfig) : Config.Config :=
  {| Config.Node := {| Config.IdentityPath := "id.json"; Config.VPNAddr := "100.64.0.1/10"; Config.ListenAddr := "0.0.0.0:51820";
                       Config.NetworkID := "00112233445566778899aabbccddeeff"; Config.IfaceName := ""; Config.MTU := 0; Config.SubnetRoutes := []; Config.Userspace := false |};
     Config.Coord := {| Config.Addr := ""; Config.c_NetworkID := ""; Config.Token := ""; Config.TLSInsecure := false; Config.STUNServer := "";
                        Config.RelayAddr := ""; Config.RelayX25519 := "" |};
     Config.Daemon := {| Config.SocketPath := ""; Config.LocalFile := "" |}; Config.DNS := {| Config.dns_Enabled := false; Config.Domain := ""; Config.dns_ListenAddr := "" |};
     Config.MDNS := {| Config.mdns_Enabled := false; Config.mdns_Name := "" |}; Config.Peers := peers |}.
Definition demo_client : Client := CoordClient.New (CoordClient.cfg (Membership.demo_client 1 "alice")) PeerTable.New daemon_callbacks.
Definition demo_peer (n : Z) (routes : list string) : Server.Peer :=
  {| Server.Id := Hex.EncodeToString (replicate 32 n); Server.Name := ""; Server.VpnAddr := addr_string (Addr4 (0x64400000 + n));
     Server.v_Ed25519Public := Base64.EncodeToString (replicate 32 n); Server.v_X25519Public := Base64.EncodeToString (replicate 32 (n + 100));
     Server.v_Endpoint := ""; Server.v_SubnetRoutes := routes |}.
Definition demo_subnet : Prefix := {| p_addr := Addr4 0x0A010000; p_bits := 16 |}.

Abbreviation handle evs := (handleEvents (H := daemon_hooks false "veld0" (demo_cfg []) demo_env) (map wire evs) "me" (demo_client, demo_daemon)).
Definition nobody : members := fun _ => None.
Definition joined (n : Z) (f : members) : members := upd (replicate 32 n) (Some (replicate 32 (n + 100), Addr4 (0x64400000 + n), [demo_subnet])) f.

Lemma demo_follow n f : n = 2 \/ n = 3 -> follow "me" f (Server.EvJoin (demo_peer n ["10.1.0.0/16"])) = joined n f.
Proof.
  intros Hn. cbn [follow]. rewrite (proj2 (String.eqb_neq (Server.Id (demo_peer n ["10.1.0.0/16"])) "me")) by (by destruct Hn as [-> | ->]).
  assert (CoordClient.msg_card (demo_peer n ["10.1.0.0/16"]) = Some (replicate 32 n, (replicate 32 (n + 100), Addr4 (0x64400000 + n), [demo_subnet]))) as ->
    by (destruct Hn as [-> | ->]; vm_compute; reflexivity). done.
Qed.

Lemma nobody_ok : tracks (peerTable demo_client) nobody.
Proof. split; [apply PeerTable.New_ok|done]. Qed.

Lemma one_joined n : CoordClient.distinct (joined n nobody) /\ separate (joined n nobody) /\ grows nobody (joined n nobody).
Proof.
  unfold joined, CoordClient.upd, nobody. split_and!.
  - intros i1 i2 c1 c2. repeat (destruct (decide _); [|done]). congruence.
  - intros i1 i2 c1 c2 p1 p2. repeat (destruct (decide _); [|done]). congruence.
  - done.
Qed.

(** A kernel that takes no gateway of the other family.  Bob announces a subnet of
    each; the mesh is IPv4. *)
Record picky_kernel := { picky : gmap Route.IPNet (list Z) }.
#[local] Instance picky_handle : Route.RouteHandle picky_kernel := {
  RouteReplace dst gw k :=
    if (length (Route.ip dst) =? length gw)%nat then ({| picky := <[dst := gw]> (picky k) |}, None) else (k, Some "invalid argument"%string);
  RouteDel dst gw k :=
    if bool_decide (picky k !! dst = Some gw) then ({| picky := delete dst (picky k) |}, None) else (k, Some "no such process"%string)
}.
#[local] Program Instance picky_laws : Route.RouteLaws picky_kernel := { route_at k d := picky k !! d }.
Next Obligation. intros dst gw k E d; cbn in *. destruct (_ =? _)%nat; [|done]. cbn. case_decide; [subst; by rewrite lookup_insert_eq|by rewrite lookup_insert_ne]. Qed.
Next Obligation. intros dst gw k e E d; cbn in *. by destruct (_ =? _)%nat. Qed.
Next Obligation.
  intros dst gw k E; cbn in *. case_bool_decide; [|done]. split; [done|]. intros d. cbn. case_decide; [subst; by rewrite lookup_delete_eq|by rewrite lookup_delete_ne].
Qed.
Next Obligation. intros dst gw k E; cbn in *. by case_bool_decide. Qed.
Next Obligation. intros dst gw k e E d; cbn in *. by case_bool_decide. Qed.

Definition demo_subnet6 : Prefix := {| p_addr := Addr6 (0xfd * 2 ^ 120) ""; p_bits := 64 |}.
Definition bob : Server.Peer := demo_peer 2 ["10.1.0.0/16"; "fd00::/64"].
Definition picky_run : Client * Daemon (T := unit) (K := picky_kernel) :=
  handleEvents (H := daemon_hooks false "veld0" (demo_cfg []) demo_env) (map wire [Server.EvJoin bob]) "me" (demo_client, daemon_on {| picky := ∅ |}).




Example picky_refuses :
  RouteWarning (Route.ReplaceFailed demo_subnet6 (Addr4 0x64400002) "invalid argument") ∈ out picky_run.2 /\ Route.routes (routeMgr picky_run.2) !! demo_subnet6 = None.
Proof. vm_compute. split; [repeat constructor|reflexivity]. Qed.


(** Bob and Carol announce the same subnet. *)
Definition demo_both : Client * Daemon := handle [Server.EvJoin (demo_peer 2 ["10.1.0.0/16"]); Server.EvJoin (demo_peer 3 ["10.1.0.0/16"])].

Lemma both_distinct : CoordClient.distinct (joined 3 (joined 2 nobody)).
Proof.
  intros i1 i2 c1 c2. unfold joined, CoordClient.upd, nobody.
  destruct (decide (i1 = _)), (decide (i2 = _)); try destruct (decide (i1 = replicate 32 2)); try destruct (decide (i2 = replicate 32 2)); intros [= <-] [= <-] E; try congruence; done.
Qed.

Lemma demo_both_ok : tracks (peerTable demo_both.1) (joined 3 (joined 2 nobody)).
Proof.
  unfold demo_both. cbn [map handleEvents]. rewrite <- (demo_follow 3 _ (or_intror eq_refl)), <- (demo_follow 2 _ (or_introl eq_refl)).
  unshelve eapply CoordClient.handle_tracks; [apply daemon_quiet|unshelve eapply CoordClient.handle_tracks; [apply daemon_quiet|apply nobody_ok|]|].
  - rewrite (demo_follow 2 _ (or_introl eq_refl)). apply one_joined.
  - rewrite (demo_follow 2 _ (or_introl eq_refl)), (demo_follow 3 _ (or_intror eq_refl)). apply both_distinct.
Qed.

Lemma demo_both_routes :
  CoordClient.hooks demo_both.1 = daemon_callbacks /\ Route.routes (routeMgr demo_both.2) !! demo_subnet = Some (Addr4 0x64400003) /\
  Route.route_at (kernel demo_both.2) (Route.prefixToIPNet demo_subnet) = Some (Route.AsSlice (Addr4 0x64400003)).
Proof. vm_compute. split_and!; reflexivity. Qed.

Lemma both_cards :
  joined 3 (joined 2 nobody) (replicate 32 2) = Some (replicate 32 102, Addr4 0x64400002, [demo_subnet]) /\
  joined 3 (joined 2 nobody) (replicate 32 3) = Some (replicate 32 103, Addr4 0x64400003, [demo_subnet]) /\
  CoordClient.hexToID (Server.Id (demo_peer 3 [])) = Some (replicate 32 3).
Proof. vm_compute. split_and!; reflexivity. Qed.

Lemma shared_route_removed_witness :
  let x := handleEvent (H := daemon_hooks false "veld0" (demo_cfg []) demo_env) (wire (Server.EvLeave (demo_peer 3 []))) "me" (demo_both.1, demo_both.2) in
  known (peerTable x.1) (replicate 32 2) = Some (replicate 32 102, Addr4 0x64400002, [demo_subnet]) /\ Route.routes (routeMgr x.2) !! demo_subnet = None.
Proof.
  destruct demo_both_routes as (Hh & Hr & Hk). destruct both_cards as (Hb2 & Hb3 & Hid).
  assert (replicate 32 2 <> replicate 32 3) as Hne by discriminate. assert (Server.Id (demo_peer 3 []) <> "me"%string) as Hme by discriminate.
  destruct (shared_route_removed false "veld0" (demo_cfg []) demo_env eq_refl "me" (demo_peer 3 []) (joined 3 (joined 2 nobody)) demo_both.1 demo_both.2
    (replicate 32 2) (replicate 32 3) (replicate 32 102, Addr4 0x64400002, [demo_subnet]) (replicate 32 103, Addr4 0x64400003, [demo_subnet]) demo_subnet (Addr4 0x64400003)
    free_del demo_both_ok both_distinct Hh Hb2 Hb3 Hne (list_elem_of_here _ _) (list_elem_of_here _ _) Hr Hk Hid Hme) as (G1 & G2 & _).
  exact (conj G1 G2).
Defined.

(** Bob has a session; the daemon reconnects. *)
Definition demo_bob : ptr := default 0%nat (PeerTable.byID (peerTable demo_both.1) !! replicate 32 2).
Definition demo_tunnel : Table :=
  PeerTable.with_entries (alter (PeerTable.SetSession (Some 5%nat)) demo_bob (PeerTable.entries (peerTable demo_both.1))) (peerTable demo_both.1).
Definition demo_reconnected : Client := CoordClient.with_table demo_tunnel demo_both.1.

Lemma demo_tunnel_ok : PeerTable.table_ok (peerTable demo_reconnected) /\
  known (peerTable demo_reconnected) (replicate 32 2) = Some (replicate 32 102, Addr4 0x64400002, [demo_subnet]).
Proof.
  change (peerTable demo_reconnected) with demo_tunnel. split.
  - exact (PeerTable.peer_step_ok _ _ (PeerTable.PS_session _ demo_bob (Some 5%nat)) (CoordClient.tr_ok _ _ demo_both_ok)).
  - unfold demo_tunnel. rewrite known_alter by done. rewrite (CoordClient.tr_known _ _ demo_both_ok). exact (proj1 both_cards).
Qed.

Lemma demo_tunnel_session : PeerTable.session <$> (PeerTable.entries demo_tunnel !! demo_bob) = Some (Some 5%nat) /\
  CoordClient.msg_card (demo_peer 2 ["10.1.0.0/16"]) = Some (replicate 32 2, (replicate 32 102, Addr4 0x64400002, [demo_subnet])).
Proof. vm_compute. split; reflexivity. Qed.

Lemma rejoin_drops_session_witness :
  exists p e, PeerTable.byID (peerTable (handleEvent (H := daemon_hooks false "veld0" (demo_cfg []) demo_env) (wire (Server.EvJoin (demo_peer 2 ["10.1.0.0/16"]))) "me"
      (demo_reconnected, demo_both.2)).1) !! replicate 32 2 = Some p /\
    PeerTable.entries (peerTable (handleEvent (H := daemon_hooks false "veld0" (demo_cfg []) demo_env) (wire (Server.EvJoin (demo_peer 2 ["10.1.0.0/16"]))) "me"
      (demo_reconnected, demo_both.2)).1) !! p = Some e /\ PeerTable.session e = None.
Proof.
  assert (Server.Id (demo_peer 2 ["10.1.0.0/16"]) <> "me"%string) as Hme by discriminate.
  destruct (rejoin_drops_session false "veld0" (demo_cfg []) demo_env "me" (demo_peer 2 ["10.1.0.0/16"]) demo_reconnected demo_both.2 (replicate 32 2)
    (replicate 32 102, Addr4 0x64400002, [demo_subnet]) (proj1 demo_tunnel_ok) (proj2 demo_tunnel_ok) (proj2 demo_tunnel_session) Hme) as (_ & p & e & G1 & G2 & G3 & _).
  exact (ex_intro _ p (ex_intro _ e (conj G1 (conj G2 G3)))).
Defined.

(** An announcement in the name of Bob, with another address. *)
Definition demo_fake : Entry := Mdns.peer_entry (replicate 32 2) (replicate 32 102) (Addr4 0x64400001) "alice".
Lemma mdns_cannot_displace_witness :
  known (onMDNSPeer (demo_env 0) demo_fake (PeerTable.demo_ep 9) true (peerTable demo_both.1) demo_both.2).1 (replicate 32 2) =
    Some (replicate 32 102, Addr4 0x64400002, [demo_subnet]).
Proof.
  destruct (mdns_cannot_displace (demo_env 0) demo_fake (PeerTable.demo_ep 9) true (peerTable demo_both.1) demo_both.2
    (onMDNSPeer (demo_env 0) demo_fake (PeerTable.demo_ep 9) true (peerTable demo_both.1) demo_both.2).1
    (onMDNSPeer (demo_env 0) demo_fake (PeerTable.demo_ep 9) true (peerTable demo_both.1) demo_both.2).2) as (_ & Hu & _).
  - exact (CoordClient.tr_ok _ _ demo_both_ok).
  - by destruct (onMDNSPeer _ _ _ _ _ _).
  - apply (un_known _ _ Hu). rewrite (CoordClient.tr_known _ _ demo_both_ok). exact (proj1 both_cards).
Defined.

(** The peer of the configuration announces 100.64.0.0/16, a part of the mesh
    100.64.0.0/10. *)
Definition demo_start : start_env (T := unit) :=
  {| s_identity := Some (Handshake.demo_identity 1); s_listen := true; s_policy := true; s_tofu := Some tt; s_file := None; s_readable := true;
     s_now := 10 ^ 18; s_port := 51820; s_env := demo_env 0 |}.
Definition demo_sysctl : Route.sysctl := {| Route.text := "0"; Route.can_read := true; Route.can_write := true |}.
Definition demo_result := NewFromConfig (K := free_kernel) false "veld0" (demo_cfg Daemon.demo_config) demo_start tt ∅ demo_sysctl.
Definition demo_started : started := match demo_result.2 with Ok st => st | Err _ => {| s_daemon := demo_daemon; s_table := PeerTable.New; s_restore := None |} end.
Lemma demo_result_ok : NewFromConfig (K := free_kernel) false "veld0" (demo_cfg Daemon.demo_config) demo_start tt ∅ demo_sysctl = (demo_result.1, Ok demo_started).
Proof.
  change (NewFromConfig _ _ _ _ _ _ _) with demo_result. unfold demo_started. assert (is_ok demo_result.2 = true) as Hok by by vm_compute. destruct demo_result as [h [st|]]; [done|done].
Qed.

Definition demo_inside : Prefix := {| p_addr := Addr4 0x64400000; p_bits := 16 |}.
Definition demo_mesh : Prefix := {| p_addr := Addr4 0x64400001; p_bits := 10 |}.
Definition demo_card : card := (replicate 32 3, Addr4 0x64400002, [demo_subnet; demo_inside]).
Lemma demo_inside_facts :
  coord_mode (demo_cfg Daemon.demo_config) = false /\ vpn_prefix (demo_cfg Daemon.demo_config) = Some demo_mesh /\
  Daemon.configured (Config.Peers (demo_cfg Daemon.demo_config)) (replicate 32 2) = Some demo_card /\
  Route.CheckPeerRoute demo_inside demo_mesh = Err Route.OverlapsMesh.
Proof. vm_compute. split_and!; reflexivity. Qed.

Lemma static_mesh_route_installed_witness : is_Some (Route.routes (routeMgr (s_daemon demo_started)) !! demo_inside).
Proof.
  destruct demo_inside_facts as (F1 & F2 & F3 & F4). assert (demo_inside ∈ demo_card.2) as F5 by (right; by left).
  exact (static_mesh_route_installed false "veld0" (demo_cfg Daemon.demo_config) eq_refl free_replace demo_start tt ∅ demo_sysctl demo_result.1 demo_started
    demo_mesh (replicate 32 2) demo_card demo_inside demo_result_ok F1 F2 F3 F5 F4).
Defined.

Definition demo_forwarding : Route.sysctl := {| Route.text := "1" ++ Route.newline; Route.can_read := true; Route.can_write := true |}.
Definition demo_stopped : Daemon (T := unit) (K := free_kernel) * Route.sysctl :=
  Stop false [7%nat] [demo_subnet] (Some (Route.PutBack "0")) demo_both.2 demo_forwarding.
Lemma demo_stopped_eq : Stop false [7%nat] [demo_subnet] (Some (Route.PutBack "0")) demo_both.2 demo_forwarding = (demo_stopped.1, demo_stopped.2).
Proof. unfold demo_stopped. by destruct (Stop _ _ _ _ _ _). Qed.
Lemma demo_both_maps : Route.routes (routeMgr demo_both.2) = {[demo_subnet := Addr4 0x64400003]} /\ relayProxies demo_both.2 = {[replicate 32 2 := 7%nat]}.
Proof. split; apply (bool_decide_eq_true_1 _); vm_compute; reflexivity. Qed.
Lemma demo_ranged : Route.ranged [demo_subnet] (routeMgr demo_both.2).
Proof.
  split; [apply NoDup_singleton|]. intros p. rewrite (proj1 demo_both_maps), dom_singleton, elem_of_singleton, list_elem_of_singleton. done.
Qed.
Lemma demo_proxies p : p ∈ [7%nat] <-> exists id, relayProxies demo_both.2 !! id = Some p.
Proof.
  rewrite (proj2 demo_both_maps), list_elem_of_singleton. split; [intros ->; exists (replicate 32 2); apply lookup_singleton_eq|].
  by intros (id & [_ <-]%lookup_singleton_Some).
Qed.

Lemma stop_gives_back_witness :
  Route.routes (routeMgr demo_stopped.1) = ∅ /\ Route.route_at (kernel demo_stopped.1) (Route.prefixToIPNet demo_subnet) = None /\ demo_stopped.2 = demo_sysctl.
Proof.
  destruct demo_both_routes as (_ & Hr & Hk).
  destruct (stop_gives_back false eq_refl free_del [7%nat] [demo_subnet] demo_both.2 demo_sysctl demo_forwarding (Route.PutBack "0") demo_stopped.1 demo_stopped.2
    demo_ranged demo_proxies eq_refl demo_stopped_eq) as (G1 & _ & _ & G2 & _ & G3).
  exact (conj G1 (conj (G3 _ _ Hr Hk) G2)).
Defined.

End Wiring.
