(* ===== verification/Login.v ===== *)
(** * Joining a network

    The client's requests ([CoordClient]) against the coordinator ([Server]): a
    client with a valid token and an identity of its own is registered and gets its
    stream of events. *)
From Stdlib Require Import ZArith Lia.
From stdpp Require Import base numbers list gmap strings fin_maps.
From S2P Require Import Prelude GoLib PeerTable AddrText Registry SignedMsg Bus Server Noise CoordClient Membership.

Module Login.
Import Netip AddrText.
Import Registry.Registry Server.Server.
Abbreviation Client := CoordClient.CoordClient.Client.
Abbreviation register_request := CoordClient.CoordClient.register_request.
Abbreviation watch_request := CoordClient.CoordClient.watch_request.
Abbreviation firstUse := SignedMsg.Replay.firstUse.

Section Login.
Context {M : Type -> Type} `{FMap M, forall A, Lookup string A (M A), forall A, Empty (M A),
  forall A, PartialAlter string A (M A), OMap M, Merge M, forall A, MapFold string A (M A), !FinMap string M}.
Context {be : Backend}.
Variable sha256 : list Z -> list Z.
Variable verify : list Z -> list Z -> list Z -> bool.
Variable sign : list Z -> list Z -> list Z.

Implicit Types s : Server M.

(** *** The registry *)

(** A registration does not change whose network it is. *)
Lemma register_authorized io p nid limit (r r' : Registry M) a net acc :
  RegisterPeer io p nid limit r = (r', Ok a) -> authorized_network net acc r = true -> authorized_network net acc r' = true.
Proof.
  unfold RegisterPeer. destruct (write_cases io (register_tx (with_Endpoint "" p) nid limit) r) as [(d & b & _ & Ef & ->)|(e' & -> & _)]; [|done].
  intros [= <- _]. unfold authorized_network, GetNetwork. cbn [db setEndpoint set_db]. unfold register_tx in Ef.
  set (q := settle_name _ _ _) in *. clearbody q. destruct (peers (db r) !! pID q) as [[old|]|]; [|done|].
  - ok_inv. case_in Ef; [|done]. by injection Ef as <- _.
  - unfold register_new in Ef. destruct (get_row (networks (db r)) nid ErrNetworkNotFound) as [n|] eqn:En; [|done]. cbn [result_bind] in Ef.
    case_in Ef; [done|]. destruct (migrateAssignedAddrs n _) as [n1|] eqn:Em; [|done]. case_in Ef; [|done]. case_in Ef; [|done].
    injection Ef as <- _. cbn [networks put_peer put_network]. unfold get_row. destruct (decide (net = nid)) as [->|Hne]; [|by rewrite lookup_insert_ne].
    rewrite lookup_insert_eq. unfold get_row in En. destruct (networks (db r) !! nid) as [[n0|]|]; [|done..]. injection En as ->. cbn [result_bind CIDR AccountID with_alloc].
    assert (CIDR n1 = CIDR n /\ AccountID n1 = AccountID n) as [E1 E2].
    { revert Em. unfold migrateAssignedAddrs. destruct (AssignedAddrs n); [by intros [= <-]|]. cbv zeta.
      repeat case_step; try (intros (? & _ & Em)%bind_Some; revert Em); repeat case_step; by intros [= <-]. }
    rewrite E1, E2. by destruct (ParsePrefix (CIDR n)).
Qed.

(** The row written has the address returned. *)
Lemma register_row_addr io p nid limit (r r' : Registry M) a : inv r -> RegisterPeer io p nid limit r = (r', Ok a) ->
  exists q, peer_at (db r') (pID p) q /\ VPNAddr q = addr_string a.
Proof.
  intros I. unfold RegisterPeer. destruct (write_cases io (register_tx (with_Endpoint "" p) nid limit) r) as [(d & b & _ & Ef & ->)|(e' & -> & _)]; [|done].
  intros [= <- <-]. cbn [db setEndpoint set_db]. unfold register_tx in Ef.
  pose proof (settle_name_fields (peers (db r)) nid (with_Endpoint "" p)) as (Eid & _). cbn in Eid.
  set (q := settle_name _ _ _) in *. clearbody q. destruct (peers (db r) !! pID q) as [[old|]|] eqn:Ek; [|done|].
  - ok_inv. destruct (ParseAddr (VPNAddr old)) as [a|] eqn:Ep; [|done]. injection Ef as <- <-. unfold peer_at. cbn. rewrite Eid, lookup_insert_eq. eexists. split; [done|].
    destruct (Membership.Membership.row_addr r (pID q) old I Ek) as (a' & E1 & E2). cbn. congruence.
  - unfold register_new in Ef. destruct (get_row (networks (db r)) nid ErrNetworkNotFound) as [n|]; [|done]. cbn [result_bind] in Ef.
    case_in Ef; [done|]. case_in Ef; [|done]. case_in Ef; [|done]. case_in Ef; [|done].
    injection Ef as <- <-. unfold peer_at. cbn. rewrite Eid, lookup_insert_eq. by eexists.
Qed.

(** *** Requests of an honest client *)
Abbreviation pub c := (Noise.Noise.Ed25519Public (CoordClient.CoordClient.Identity (CoordClient.CoordClient.cfg c))).
Abbreviation cfg := CoordClient.CoordClient.cfg.

(** The client's keys are keys, and its signatures verify. *)
Record honest (c : Client) : Prop := {
  ho_key : bytes_ok (pub c) /\ length (pub c) = 32%nat;
  ho_sign : forall m, verify (pub c) m (sign (CoordClient.CoordClient.priv c) m) = true /\ sign (CoordClient.CoordClient.priv c) m <> []
}.

(** What the coordinator requires of the configuration. *)
Record admissible (c : Client) (acc : Account) (r : Registry M) : Prop := {
  ad_token : Resolve (CoordClient.CoordClient.Token (cfg c)) = Some acc;
  ad_net : authorized_network (CoordClient.CoordClient.NetworkID (cfg c)) (acc_ID acc) r = true;
  ad_name : validPeerName (CoordClient.CoordClient.LocalName (cfg c)) = true;
  ad_ep : endpoint_ok (CoordClient.CoordClient.Endpoint (cfg c)) = true;
  ad_routes : Forall (fun x => exists p, ParsePrefix x = Some p /\ Allow (CoordClient.CoordClient.NetworkID (cfg c)) p = true) (CoordClient.CoordClient.SubnetRoutes (cfg c))
}.

Definition on_time (now ts : Z) : Prop := - SignedMsg.SignedMsg.CallTimestampWindow <= i64 (unix now - ts) <= SignedMsg.SignedMsg.CallTimestampWindow.

Lemma check_routes_ok nid l s : Forall (fun x => exists p, ParsePrefix x = Some p /\ Allow nid p = true) l -> exists ps, check_routes nid l s = Some (s, Ok ps).
Proof.
  induction 1 as [|x l (p & Hp & Ha) _ [ps IH]]; [by eexists|]. cbn [check_routes]. unfold bind. rewrite Hp. cbn. rewrite Ha. cbn. rewrite IH. cbn. by eexists.
Qed.

Lemma decode_own c : honest c -> decode_key (Base64.EncodeToString (pub c)) = Some (pub c).
Proof. intros [[Hb Hl] _]. unfold decode_key. by rewrite Base64.base64_roundtrip, bind_Some_eq, Hl by done. Qed.

Lemma register_verifies c ts now : honest c -> on_time now ts ->
  SignedMsg.SignedMsg.VerifyRegisterSignature verify (pub c) (rq_Signature (register_request sign c ts)) (claims_of (register_request sign c ts)) (unix now) = Ok tt.
Proof.
  intros [_ Hs] Ht. unfold SignedMsg.SignedMsg.VerifyRegisterSignature. cbn [register_request rq_Signature claims_of SignedMsg.SignedMsg.r_TimestampUnix].
  set (cl := claims_of _). change (SignedMsg.SignedMsg.SignRegister sign (CoordClient.CoordClient.priv c) _) with (sign (CoordClient.CoordClient.priv c) (SignedMsg.SignedMsg.RegisterSignedMessage cl)).
  destruct (Hs (SignedMsg.SignedMsg.RegisterSignedMessage cl)) as [Hv Hn]. rewrite bool_decide_false by done. change (SignedMsg.SignedMsg.r_TimestampUnix cl) with ts.
  unfold on_time in Ht. change SignedMsg.SignedMsg.RegisterTimestampWindow with SignedMsg.SignedMsg.CallTimestampWindow.
  cbv zeta. change (rq_TimestampUnix (register_request sign c ts)) with ts. rewrite !(proj2 (Z.ltb_ge _ _)) by lia. cbn [orb]. by rewrite Hv.
Qed.

Lemma watch_verifies c id ts now : honest c -> on_time now ts ->
  SignedMsg.SignedMsg.VerifyCallSignature verify (pub c) (wr_Signature (watch_request sign c id ts))
    (SignedMsg.SignedMsg.WatchClaims id (CoordClient.CoordClient.NetworkID (cfg c)) ts) (unix now) = Ok tt.
Proof.
  intros [_ Hs] Ht. unfold SignedMsg.SignedMsg.VerifyCallSignature. cbn [watch_request wr_Signature].
  set (cl := SignedMsg.SignedMsg.WatchClaims _ _ _). destruct (Hs (SignedMsg.SignedMsg.CallSignedMessage cl)) as [Hv Hn].
  unfold SignedMsg.SignedMsg.SignCall. rewrite bool_decide_false by done. change (SignedMsg.SignedMsg.TimestampUnix cl) with ts. unfold on_time in Ht.
  cbv zeta. rewrite !(proj2 (Z.ltb_ge _ _)) by lia. cbn [orb]. by rewrite Hv.
Qed.

(** The registration goes through. *)
Lemma register_admitted c acc ts t s r' a :
  server_ok s -> honest c -> admissible c acc (registry s) -> on_time (t 0%nat) ts ->
  (firstUse sha256 (rq_Signature (register_request sign c ts)) (t 1%nat) (seen s)).1 = true ->
  RegisterPeer true (record_of (register_request sign c ts) (Hex.EncodeToString (pub c)) (t 2%nat) (t 3%nat))
    (CoordClient.CoordClient.NetworkID (cfg c)) (MachineLimitFor (CoordClient.CoordClient.NetworkID (cfg c))) (registry s) = (r', Ok a) ->
  wp (Register sha256 verify true t (register_request sign c ts))
     (fun s' res => registry s' = r' /\ seen s' = (firstUse sha256 (rq_Signature (register_request sign c ts)) (t 1%nat) (seen s)).2 /\
        exists resp, res = Ok resp /\ rs_PeerId resp = Hex.EncodeToString (pub c) /\ rs_VpnAddr resp = addr_string a) s.
Proof.
  intros Hs Hh Had Ht Hf HR. destruct Had as [A1 A2 A3 A4 A5]. set (req := register_request sign c ts) in *.
  assert (rq_Token req = CoordClient.CoordClient.Token (cfg c) /\ rq_NetworkId req = CoordClient.CoordClient.NetworkID (cfg c) /\ rq_Name req = CoordClient.CoordClient.LocalName (cfg c) /\
    rq_Endpoint req = CoordClient.CoordClient.Endpoint (cfg c) /\ rq_SubnetRoutes req = CoordClient.CoordClient.SubnetRoutes (cfg c)) as (Q1 & Q2 & Q3 & Q4 & Q5) by done.
  pose proof (register_verifies c ts (t 0%nat) Hh Ht) as Hv. fold req in Hv.
  unfold Register. rewrite Q1, Q2, Q3, Q4, Q5.
  apply wp_bind, wp_of_option; [|by rewrite A1]. rewrite A1. intros ? [= <-].
  apply wp_bind. unfold authorizeNetwork. apply wp_bind, wp_gets, wp_check; [intros _|by rewrite A2].
  assert (decode_key (rq_Ed25519Public req) = Some (pub c)) as Hdk by exact (decode_own c Hh).
  apply wp_bind, wp_of_option; [|by rewrite Hdk]. rewrite Hdk. intros ? [= <-].
  cbv zeta. apply wp_bind, wp_check; [intros _|by rewrite Hv]. apply wp_bind. unfold wp at 1, first_use.
  destruct (firstUse sha256 (rq_Signature req) (t 1%nat) (seen s)) as [fresh sn]. cbn [fst] in Hf. subst fresh.
  apply wp_bind, wp_check; [intros _|done]. apply wp_bind, wp_check; [intros _|by rewrite A3]. apply wp_bind, wp_check; [intros _|by rewrite A4].
  destruct (check_routes_ok _ _ (with_seen sn s) A5) as [ps Eps]. apply wp_bind. unfold wp at 1. rewrite Eps.
  apply wp_bind. unfold wp at 1, register_peer. cbn [registry with_seen]. rewrite HR.
  apply wp_bind, wp_modify. cbn match. apply wp_bind, wp_gets. apply wp_bind, wp_modify.
  apply wp_bind, wp_publish; [apply Hs|]. intros b Hb. apply wp_ret. split_and!; [done..|]. by eexists.
Qed.

(** A stream is opened for who is let in. *)
Lemma watch_opens req t s s1 : server_ok s1 -> watch_auth sha256 verify req (t 0%nat) s = Some (s1, Ok tt) ->
  exists s2 st snap, Watch_open sha256 verify req t s = Some (s2, Ok (st, snap)).
Proof.
  intros O1 E. enough (wp (Watch_open sha256 verify req t) (fun _ res => is_ok res = true) s) as Hw.
  { unfold wp in Hw. destruct (Watch_open sha256 verify req t s) as [[s2 [[st snap]|]]|]; [eauto|done..]. }
  unfold Watch_open. apply wp_bind. unfold wp at 1. rewrite E. apply wp_bind, wp_modify. cbn match.
  match goal with |- wp _ _ ?x => set (s2 := x) end.
  assert (server_ok s2) as O2 by (unfold s2; destruct (negb _); [by apply server_ok_connected|done]). clearbody s2. apply wp_bind. unfold wp at 1, on_bus at 1.
  destruct (Bus.Bus.exec_ok (bus s2) (Bus.Bus.OpSubscribe (wr_NetworkId req)) (so_bus s2 O2)) as (b & Eb & Hb).
  cbn [Bus.Bus.exec] in Eb. destruct (Bus.Bus.Subscribe (wr_NetworkId req) (bus s2)) as [ch b0]. injection Eb as ->. apply wp_bind.
  destruct (negb (String.eqb (wr_PeerId req) "")).
  - apply wp_bind. unfold wp at 1, on_bus. destruct (Bus.Bus.SubscribeSignals_spec (wr_PeerId req) (t 1%nat) (bus (with_bus b s2)) Hb) as (b' & -> & _).
    apply wp_ret. apply wp_bind, wp_gets. by apply wp_ret.
  - apply wp_ret. apply wp_bind, wp_gets. by apply wp_ret.
Qed.

(** An honest client is let in.  Its token is good for the network, its clock is
    within the window, its configuration is one the coordinator accepts, the
    registry has room for it and its signatures are new: then the coordinator
    registers it under its key, answers with an address the client can read, and
    opens a stream for the watch request that the client sends next. *)
Theorem honest_client_admitted c acc ts ts' t t' s r' a :
  server_ok s -> honest c -> admissible c acc (registry s) -> on_time (t 0%nat) ts -> on_time (t' 0%nat) ts' ->
  RegisterPeer true (record_of (register_request sign c ts) (Hex.EncodeToString (pub c)) (t 2%nat) (t 3%nat))
    (CoordClient.CoordClient.NetworkID (cfg c)) (MachineLimitFor (CoordClient.CoordClient.NetworkID (cfg c))) (registry s) = (r', Ok a) ->
  let sig := rq_Signature (register_request sign c ts) in
  let id := Hex.EncodeToString (pub c) in
  let sig' := wr_Signature (watch_request sign c id ts') in
  (firstUse sha256 sig (t 1%nat) (seen s)).1 = true ->
  (firstUse sha256 sig' (t' 0%nat) (firstUse sha256 sig (t 1%nat) (seen s)).2).1 = true ->
  exists s1 resp, Register sha256 verify true t (register_request sign c ts) s = Some (s1, Ok resp) /\
    rs_PeerId resp = id /\
    (exists q a', peer_at (db (registry s1)) id q /\ VPNAddr q = rs_VpnAddr resp /\ ParseAddr (rs_VpnAddr resp) = Some a') /\
    exists s2 st snap, Watch_open sha256 verify (watch_request sign c (rs_PeerId resp) ts') t' s1 = Some (s2, Ok (st, snap)).
Proof.
  intros Hs Hh Had Ht Ht' HR sig id sig' Hf Hf'. pose proof (register_admitted c acc ts t s r' a Hs Hh Had Ht Hf HR) as Hw.
  pose proof (wp_Register sha256 verify true t (register_request sign c ts) s Hs) as Hok. unfold wp in Hw, Hok.
  destruct (Register sha256 verify true t (register_request sign c ts) s) as [[s1 res]|]; [|done].
  destruct Hw as (Er & Es & resp & -> & Eid & Ea). destruct Hok as (O1 & _). exists s1, resp. split; [done|]. split; [done|].
  destruct (RegisterPeer_row _ _ _ _ _ _ _ HR) as [_ (q & Hq & Hnet & Hed)]. cbn [pID record_of] in Hq.
  assert (decode_key (Ed25519Public q) = Some (pub c)) as Hkey.
  { destruct (so_keys _ O1 id q) as (key & Hk & Hx); [by rewrite Er|]. rewrite Hk. f_equal. destruct Hh as [[Hb _] _]. symmetry.
    apply Hex.EncodeToString_inj; [done| |done]. unfold decode_key in Hk. apply bind_Some in Hk as (l & El & Hl). apply Base64.DecodeString_bytes in El.
    destruct (_ =? _)%nat; [|done]. by injection Hl as <-. }
  split.
  - destruct (register_row_addr _ _ _ _ _ _ _ (so_inv _ Hs) HR) as (q' & Hq' & Eq'). exists q'. rewrite Ea, Er.
    destruct (Membership.Membership.row_addr r' id q') as (a' & _ & Ep); [rewrite <- Er; apply O1|done|]. exists a'. split_and!; [done..|]. congruence.
  - rewrite Eid. apply (watch_opens _ _ _ (with_seen (firstUse sha256 sig' (t' 0%nat) (seen s1)).2 s1)); [by apply server_ok_seen|].
    pose proof (watch_verifies c id ts' (t' 0%nat) Hh Ht') as Hv. fold sig' in Hv. destruct Had as [A1 A2 _ _ _].
    pose proof (register_authorized _ _ _ _ _ _ _ _ _ HR A2) as A2'. rewrite <- Er in A2', Hq.
    assert (id <> ""%string) as Hid.
    { intros E0. apply (f_equal Hex.DecodeString) in E0. unfold id in E0. destruct Hh as [[Hb Hl] _]. rewrite Hex.Decode_EncodeToString in E0 by done.
      injection E0 as E0. by rewrite E0 in Hl. }
    unfold watch_auth, bind. cbn [wr_Token wr_NetworkId wr_PeerId wr_Signature wr_TimestampUnix watch_request]. rewrite A1. cbn [of_option ret].
    unfold authorizeNetwork, bind, gets. rewrite A2'. cbn [check ret]. fold id. rewrite (proj2 (String.eqb_neq _ _) Hid). unfold authorizePeer, bind, gets, GetPeer, get_row.
    unfold peer_at in Hq. fold id in Hq. rewrite Hq. cbn match. rewrite Hnet. change (rq_NetworkId _) with (CoordClient.CoordClient.NetworkID (cfg c)).
    rewrite String.eqb_refl, andb_false_r, A2'. cbn [check ret]. unfold verifyCall, bind. rewrite Hkey. cbn [of_option ret]. change (SignedMsg.SignedMsg.SignCall sign _ _) with sig'. rewrite Hv. cbn [is_ok check ret].
    unfold first_use. rewrite Es. destruct (firstUse sha256 sig' (t' 0%nat) _) as [ok sn]. cbn [fst] in Hf'. by subst ok.
Qed.

End Login.

(** *** Alice joins an empty network *)
Import Membership.Membership (demo_client, demo_sign).
#[local] Existing Instance demo_backend.
Definition alice : Client := demo_client 1 "alice".
Definition alice_acc : Account := {| acc_ID := "acc"; acc_Tier := 0 |}.
Definition alice_row : Registry (gmap string) * result error Addr :=
  RegisterPeer true (record_of (register_request demo_sign alice demo_sec) (Hex.EncodeToString (replicate 32 1)) (demo_clock 2) (demo_clock 3)) "net"
    (MachineLimitFor "net") demo_store.

Lemma alice_row_ok : alice_row = (alice_row.1, Ok (Addr4 0x0A000001)).
Proof. assert (alice_row.2 = Ok (Addr4 0x0A000001)) as E by (vm_compute; reflexivity). destruct alice_row as [r res]. cbn in E. by subst res. Qed.

Lemma alice_honest : honest demo_verify demo_sign alice.
Proof.
  split; [split; [apply Forall_replicate; by vm_compute|done]|]. intros m. split; [|done]. unfold demo_verify. by apply bool_decide_true.
Qed.

Lemma alice_admissible : admissible alice alice_acc demo_store.
Proof. split; [vm_compute; reflexivity..|apply Forall_nil_2]. Qed.

Definition alice_sig : list Z := rq_Signature (register_request demo_sign alice demo_sec).
Definition alice_sig' : list Z := wr_Signature (watch_request demo_sign alice (Hex.EncodeToString (replicate 32 1)) (demo_sec + 1)).
Lemma alice_first :
  (firstUse demo_hash alice_sig (demo_clock 1) (seen (New demo_store))).1 = true /\
  (firstUse demo_hash alice_sig' (demo_clock 0) (firstUse demo_hash alice_sig (demo_clock 1) (seen (New demo_store))).2).1 = true.
Proof. vm_compute. split; reflexivity. Qed.
Lemma alice_on_time : on_time (demo_clock 0) demo_sec /\ on_time (demo_clock 0) (demo_sec + 1).
Proof. vm_compute. split; split; discriminate. Qed.

Lemma honest_client_admitted_witness :
  exists s1 resp, Register demo_hash demo_verify true demo_clock (register_request demo_sign alice demo_sec) (New demo_store) = Some (s1, Ok resp) /\
    rs_PeerId resp = Hex.EncodeToString (replicate 32 1).
Proof.
  assert (server_ok (New demo_store)) as Hs by (split; [apply demo_store_ok|apply demo_store_ok|exact (so_bus _ (sy_srv _ (sys_start demo_store (proj1 demo_store_ok) (proj2 demo_store_ok))))]).
  destruct (honest_client_admitted demo_hash demo_verify demo_sign alice alice_acc demo_sec (demo_sec + 1) demo_clock demo_clock (New demo_store) alice_row.1 (Addr4 0x0A000001)
    Hs alice_honest alice_admissible (proj1 alice_on_time) (proj2 alice_on_time) alice_row_ok (proj1 alice_first) (proj2 alice_first)) as (s1 & resp & E & Eid & _).
  exact (ex_intro _ s1 (ex_intro _ resp (conj E Eid))).
Defined.

End Login.
