(* ===== verification/Float64.v ===== *)
(** * Float64: Go's float64 on the numbers the program computes with

    A float64 is the rational it denotes; an operation is the exact one, rounded to
    the nearest representable number, ties to even mantissas ([round64]).  The
    smallest exponent is that of the format; the largest is left out, since nothing
    here comes near it, so there are no infinities.  [round64_err] bounds the error
    of one operation. *)
From Stdlib Require Import ZArith QArith Qabs Lqa Lia.
From stdpp Require Import base numbers.
From S2P Require Import Prelude.

Module Float64.
Local Open Scope Q_scope.

(** [n / 2 ^ e] rounded to an integer, for a fraction [n / d]. *)
Definition scale_num (n e : Z) : Z := (if 0 <=? e then n else n * 2 ^ (- e))%Z.
Definition scale_den (d e : Z) : Z := (if 0 <=? e then d * 2 ^ e else d)%Z.
Definition nearest_even (a b : Z) : Z :=
  let m := (a / b)%Z in
  let r := (a mod b)%Z in
  if ((2 * r <? b) || ((2 * r =? b) && Z.even m))%Z then m else (m + 1)%Z.

(** The exponent that leaves 53 bits, but for the smallest numbers. *)
Definition exponent (n d : Z) : Z :=
  let e := (Z.log2 n - Z.log2 d - 53)%Z in
  let e := (if 2 ^ 53 * scale_den d e <=? scale_num n e then e + 1 else e)%Z in
  Z.max e (-1074).

Definition two_to (e : Z) : Q := if (0 <=? e)%Z then inject_Z (2 ^ e) else 1 # Z.to_pos (2 ^ (- e)).

Definition round_pos (n d : Z) : Q :=
  let e := exponent n d in
  inject_Z (nearest_even (scale_num n e) (scale_den d e)) * two_to e.

Definition round64 (q : Q) : Q :=
  match Qnum q with
  | Z0 => 0
  | Zpos n => Qred (round_pos (Zpos n) (Zpos (Qden q)))
  | Zneg n => - Qred (round_pos (Zpos n) (Zpos (Qden q)))
  end.

Definition fadd (x y : Q) : Q := round64 (x + y).
Definition fsub (x y : Q) : Q := round64 (x - y).
Definition fmul (x y : Q) : Q := round64 (x * y).
Definition fdiv (x y : Q) : Q := round64 (x / y).
Definition of_int (n : Z) : Q := round64 (inject_Z n).
Definition fle (x y : Q) : bool := Qle_bool x y.

(** [time.Duration.Seconds]. *)
Definition Seconds (d : Z) : Q :=
  fadd (of_int (Z.quot d (10 ^ 9))) (fdiv (of_int (Z.rem d (10 ^ 9))) (inject_Z (10 ^ 9))).

Example round_third : round64 (1 # 3) == 6004799503160661 # 18014398509481984. Proof. reflexivity. Qed.
Example round_tenth : round64 (1 # 10) == 3602879701896397 # 36028797018963968. Proof. reflexivity. Qed.
Example round_exact : round64 (7 # 4) = 7 # 4. Proof. reflexivity. Qed.
Example round_tie : round64 (inject_Z (2 ^ 53 + 1)) = inject_Z (2 ^ 53). Proof. reflexivity. Qed.
Example fifty_ms : Seconds 50000000 == 3602879701896397 # 72057594037927936. Proof. reflexivity. Qed.

(** ** The error of an operation *)
Definition ulp : Q := 1 # 9007199254740992.   (* 2 ^ -53 *)

Lemma nearest_even_close a b : (0 < b)%Z -> (Z.abs (2 * (nearest_even a b * b - a)) <= b)%Z.
Proof.
  intros Hb. unfold nearest_even. pose proof (Z.div_mod a b ltac:(lia)) as Ha. pose proof (Z.mod_pos_bound a b Hb) as Hr.
  set (m := (a / b)%Z) in *. set (r := (a mod b)%Z) in *. clearbody m r. subst a.
  destruct (Z.ltb_spec (2 * r) b); cbn [orb]; [lia|]. destruct (Z.eqb_spec (2 * r) b); cbn [andb]; [|lia]. destruct (Z.even m); lia.
Qed.

Lemma two_to_pos e : 0 < two_to e.
Proof. unfold two_to. destruct (Z.leb_spec 0 e); [|done]. change 0 with (inject_Z 0). rewrite <- Zlt_Qlt. lia. Qed.

(** A fraction is its scaled form times the power of two. *)
Lemma scaled n d e : inject_Z (scale_num n e) * two_to e == inject_Z (scale_den (Zpos d) e) * (n # d).
Proof.
  unfold scale_num, scale_den, two_to, Qeq, Qmult, inject_Z. destruct (Z.leb_spec 0 e) as [He|He]; cbn [Qnum Qden].
  - rewrite !Pos.mul_1_l. lia.
  - rewrite !Pos.mul_1_l, Z2Pos.id by lia. lia.
Qed.

Lemma scale_den_pos d e : (0 < d)%Z -> (0 < scale_den d e)%Z.
Proof. intros Hd. unfold scale_den. destruct (Z.leb_spec 0 e); [|done]. pose proof (Z.pow_pos_nonneg 2 e ltac:(lia) ltac:(lia)). nia. Qed.

(** Before the exponent is limited, 53 bits are left of the number. *)
Lemma exponent_bits n d : (0 < n)%Z -> (0 < d)%Z ->
  let e := (Z.log2 n - Z.log2 d - 53)%Z in (2 ^ 52 * scale_den d e <= scale_num n e)%Z.
Proof.
  intros Hn Hd e. destruct (Z.log2_spec n Hn) as [Hn1 _]. destruct (Z.log2_spec d Hd) as [_ Hd2].
  pose proof (Z.log2_nonneg n). pose proof (Z.log2_nonneg d). unfold scale_den, scale_num. destruct (Z.leb_spec 0 e) as [He|He].
  - transitivity (2 ^ Z.log2 n)%Z; [|done]. transitivity (2 ^ 52 * (2 ^ Z.succ (Z.log2 d) * 2 ^ e))%Z.
    + apply Z.mul_le_mono_nonneg_l; [lia|]. apply Z.mul_le_mono_nonneg_r; [lia|lia].
    + rewrite <- !Z.pow_add_r by lia. apply Z.pow_le_mono_r; unfold e; lia.
  - transitivity (2 ^ Z.log2 n * 2 ^ (- e))%Z; [|apply Z.mul_le_mono_nonneg_r; lia].
    transitivity (2 ^ 52 * 2 ^ Z.succ (Z.log2 d))%Z; [lia|]. rewrite <- !Z.pow_add_r by lia. apply Z.pow_le_mono_r; unfold e; lia.
Qed.

Lemma scale_succ n d e : (0 < n)%Z -> (0 < d)%Z -> (2 ^ 53 * scale_den d e <= scale_num n e)%Z -> (2 ^ 52 * scale_den d (e + 1) <= scale_num n (e + 1))%Z.
Proof.
  intros Hn Hd. unfold scale_den, scale_num. destruct (Z.leb_spec 0 e) as [He|He].
  - rewrite (proj2 (Z.leb_le 0 (e + 1))) by lia. rewrite Z.pow_add_r, Z.pow_1_r by lia. lia.
  - replace (- e)%Z with (- (e + 1) + 1)%Z by lia. destruct (Z.leb_spec 0 (e + 1)) as [He1|He1].
    + replace (e + 1)%Z with 0%Z by lia. cbn. lia.
    + rewrite Z.pow_add_r, Z.pow_1_r by lia. lia.
Qed.

Lemma exponent_spec n d : (0 < n)%Z -> (0 < d)%Z ->
  let e := exponent n d in e = (-1074)%Z \/ (2 ^ 52 * scale_den d e <= scale_num n e)%Z.
Proof.
  intros Hn Hd. unfold exponent. cbv zeta. pose proof (exponent_bits n d Hn Hd) as Hb. set (e := (Z.log2 n - Z.log2 d - 53)%Z) in *.
  destruct (Z.leb_spec (2 ^ 53 * scale_den d e) (scale_num n e)) as [Hl|_].
  - destruct (Z.max_spec (e + 1) (-1074)) as [[_ ->]|[_ ->]]; [by left|right]. by apply scale_succ.
  - destruct (Z.max_spec e (-1074)) as [[_ ->]|[_ ->]]; auto.
Qed.

(** A step of the rounded number is small against the number. *)
Lemma exponent_step n d : (0 < n)%Z -> two_to (exponent n (Zpos d)) * (1 # 2) <= ulp * ((n # d) + 1).
Proof.
  intros Hn. pose proof (exponent_spec n (Zpos d) Hn ltac:(lia)) as Hs. set (e := exponent n (Zpos d)) in *. cbv zeta in Hs.
  assert (0 < n # d) as Hq by (unfold Qlt; cbn; lia). destruct Hs as [->|Hs].
  - apply (Qle_trans _ ulp); [by vm_compute|]. rewrite <- (Qmult_1_r ulp) at 1. apply Qmult_le_l; [done|]. lra.
  - pose proof (scaled n d e) as Hsc. pose proof (scale_den_pos (Zpos d) e ltac:(lia)) as Hp.
    assert (inject_Z (2 ^ 52) * two_to e <= n # d) as Hle.
    { apply (Qmult_le_l _ _ (inject_Z (scale_den (Zpos d) e))); [change 0 with (inject_Z 0); by rewrite <- Zlt_Qlt|].
      rewrite <- Hsc, Qmult_assoc. apply Qmult_le_compat_r; [|apply Qlt_le_weak, two_to_pos]. rewrite <- inject_Z_mult, <- Zle_Qle. lia. }
    assert (inject_Z (2 ^ 52) == 4503599627370496) as E52 by done. rewrite E52 in Hle. set (q := n # d) in *. clearbody q. set (s := two_to e) in *. clearbody s.
    apply (Qle_trans _ (ulp * q)); [unfold ulp; lra|]. apply Qmult_le_l; [done|]. lra.
Qed.

(** The rounded number differs from the exact one by at most half a step. *)
Lemma round_pos_err n d : (0 < n)%Z -> Qabs (round_pos n (Zpos d) - (n # d)) <= ulp * ((n # d) + 1).
Proof.
  intros Hn. apply (Qle_trans _ (two_to (exponent n (Zpos d)) * (1 # 2))); [|by apply exponent_step]. unfold round_pos. set (e := exponent n (Zpos d)).
  pose proof (nearest_even_close (scale_num n e) (scale_den (Zpos d) e) (scale_den_pos (Zpos d) e ltac:(lia))) as Hc.
  pose proof (scaled n d e) as Hsc. pose proof (scale_den_pos (Zpos d) e ltac:(lia)) as Hp. pose proof (two_to_pos e) as Ht.
  set (m := nearest_even _ _) in *. set (b := scale_den (Zpos d) e) in *. set (a := scale_num n e) in *. clearbody m a b.
  assert (0 < inject_Z b) as Hb by (change 0 with (inject_Z 0); by rewrite <- Zlt_Qlt).
  assert (- inject_Z b <= 2 * (inject_Z m * inject_Z b - inject_Z a) <= inject_Z b) as Hx.
  { change 2 with (inject_Z 2). rewrite <- !inject_Z_mult, <- inject_Z_opp. unfold Qminus. rewrite <- inject_Z_opp, <- inject_Z_plus, <- inject_Z_mult, <- !Zle_Qle. lia. }
  assert (inject_Z b * 2 * (inject_Z m * two_to e - (n # d)) == 2 * (inject_Z m * inject_Z b - inject_Z a) * two_to e) as Ee.
  { setoid_replace (2 * (inject_Z m * inject_Z b - inject_Z a) * two_to e) with (2 * (inject_Z m * inject_Z b * two_to e - inject_Z a * two_to e)) using relation Qeq by ring.
    rewrite Hsc. ring. }
  apply Qabs_Qle_condition. split; apply (Qmult_le_l _ _ (inject_Z b * 2)); try lra; rewrite Ee.
  - setoid_replace (inject_Z b * 2 * - (two_to e * (1 # 2))) with (- inject_Z b * two_to e) using relation Qeq by ring. apply Qmult_le_compat_r; lra.
  - setoid_replace (inject_Z b * 2 * (two_to e * (1 # 2))) with (inject_Z b * two_to e) using relation Qeq by ring. apply Qmult_le_compat_r; lra.
Qed.

Lemma round64_err q : 0 <= q -> Qabs (round64 q - q) <= ulp * (q + 1).
Proof.
  intros Hq. unfold round64. destruct q as [[|n|n] d]; cbn [Qnum Qden].
  - rewrite Qabs_Qle_condition. unfold ulp. assert (0 # d == 0) as -> by done. lra.
  - rewrite Qred_correct. by apply round_pos_err.
  - exfalso. unfold Qle in Hq. cbn in Hq. lia.
Qed.

Lemma round64_bounds q : 0 <= q -> q - ulp * (q + 1) <= round64 q <= q + ulp * (q + 1).
Proof. intros Hq. pose proof (round64_err q Hq) as He. rewrite Qabs_Qle_condition in He. lra. Qed.

Lemma round_pos_nonneg n d : (0 < n)%Z -> (0 < d)%Z -> 0 <= round_pos n d.
Proof.
  intros Hn Hd. unfold round_pos. apply Qmult_le_0_compat; [|apply Qlt_le_weak, two_to_pos]. change 0 with (inject_Z 0). rewrite <- Zle_Qle.
  set (e := exponent n d). assert (0 <= scale_num n e)%Z as Ha by (unfold scale_num; destruct (Z.leb_spec 0 e); [lia|apply Z.mul_nonneg_nonneg; lia]).
  pose proof (scale_den_pos d e Hd) as Hb. unfold nearest_even. pose proof (Z.div_pos _ _ Ha Hb). destruct (_ || _); lia.
Qed.

Lemma round64_nonneg q : 0 <= q -> 0 <= round64 q.
Proof.
  intros Hq. unfold round64. destruct q as [[|n|n] d]; cbn [Qnum Qden]; [lra| |exfalso; unfold Qle in Hq; cbn in Hq; lia].
  rewrite Qred_correct. by apply round_pos_nonneg.
Qed.

(** Elapsed time in seconds. *)
Lemma Seconds_bounds d : (0 <= d)%Z -> let s := d # 1000000000 in s - 4 * ulp * (s + 2) <= Seconds d <= s + 4 * ulp * (s + 2) /\ 0 <= Seconds d.
Proof.
  intros Hd s. unfold Seconds, fadd, fdiv, of_int. set (k := Z.quot d (10 ^ 9)). set (r := Z.rem d (10 ^ 9)).
  assert (0 <= k /\ 0 <= r < 10 ^ 9 /\ d = 10 ^ 9 * k + r)%Z as (Hk & Hr & Ed).
  { unfold k, r. rewrite Z.quot_div_nonneg, Z.rem_mod_nonneg by lia. pose proof (Z.div_mod d (10 ^ 9)). pose proof (Z.mod_pos_bound d (10 ^ 9)).
    pose proof (Z.div_pos d (10 ^ 9)). lia. }
  assert (s == inject_Z k + inject_Z r * (1 # 1000000000)) as Es.
  { unfold s, Qeq, Qmult, Qplus, inject_Z. cbn [Qnum Qden]. rewrite Ed. lia. }
  assert (0 <= inject_Z k /\ 0 <= inject_Z r) as [HK HR] by (change 0 with (inject_Z 0); rewrite <- !Zle_Qle; lia).
  clearbody s. set (K := inject_Z k) in *. set (R := inject_Z r) in *. clearbody K R.
  pose proof (round64_bounds K HK) as Bk. pose proof (round64_bounds R HR) as Br. pose proof (round64_nonneg K HK) as Nk. pose proof (round64_nonneg R HR) as Nr.
  set (fk := round64 K) in *. set (fr := round64 R) in *. clearbody fk fr.
  assert (fr / inject_Z (10 ^ 9) == fr * (1 # 1000000000)) as Ex by (unfold Qdiv; apply Qmult_comp; reflexivity).
  assert (0 <= fr / inject_Z (10 ^ 9)) as Hx by (rewrite Ex; lra).
  pose proof (round64_bounds _ Hx) as Bx. pose proof (round64_nonneg _ Hx) as Nx. set (x := fr / inject_Z (10 ^ 9)) in *. set (fx := round64 x) in *. clearbody x fx.
  assert (0 <= fk + fx) as Hs by lra. pose proof (round64_bounds _ Hs) as Bs. pose proof (round64_nonneg _ Hs) as Ns.
  set (fs := round64 (fk + fx)) in *. clearbody fs. unfold ulp in *. lra.
Qed.
End Float64.
