(* ===== verification/RateLimit.v ===== *)
(** * RateLimit: the coordinator's rate limits

    [RateLimit] models [src/coord/server/ratelimit.go] (token buckets, one per IPv4
    address or IPv6 /64, in float64 arithmetic), its interceptors, and the policy of
    [src/coord/server/proxyproto.go].  Ranging over the map of buckets is an argument,
    the keys in the order they come.  The limits are those of
    [src/cmd/veld-coord/main.go], 20 requests per second and 40 at once. *)
From Stdlib Require Import Ascii String ZArith QArith Lqa Lia.
From stdpp Require Import base numbers list gmap strings.
From S2P Require Import Prelude GoLib PeerTable AddrText Server Daemon Float64.

Module RateLimit.
Import Strings Netip AddrText Float64.

Definition maxRateLimiterEntries : Z := 10000.

Record ipBucket := { tokens : Q; lastFill : Z }.
Record IPRateLimiter := { entries : gmap string ipBucket; rate : Q; burst : Q }.

Definition NewIPRateLimiter (ratePerSec burst : Q) : IPRateLimiter := {| entries := ∅; rate := ratePerSec; burst := burst |}.
Definition with_buckets (m : gmap string ipBucket) (rl : IPRateLimiter) : IPRateLimiter := {| entries := m; rate := rate rl; burst := burst rl |}.

Definition normalizeIP (ip : string) : string :=
  match ParseAddr ip with
  | None => ip
  | Some (Addr6 v z) => prefix_string (Masked (Daemon.Daemon.PrefixFrom (Addr6 v z) 64))
  | Some addr => addr_string addr
  end.

(** The first of the longest unused buckets. *)
Fixpoint oldest (m : gmap string ipBucket) (keys : list string) (best : option (string * Z)) : option (string * Z) :=
  match keys with
  | [] => best
  | k :: keys' =>
      match m !! k with
      | None => oldest m keys' best
      | Some b =>
          if match best with None => true | Some (_, t) => lastFill b <? t end
          then oldest m keys' (Some (k, lastFill b)) else oldest m keys' best
      end
  end.

Definition evictOldest (keys : list string) (rl : IPRateLimiter) : IPRateLimiter :=
  match oldest (entries rl) keys None with
  | Some (k, _) => if String.eqb k "" then rl else with_buckets (delete k (entries rl)) rl
  | None => rl
  end.

Definition full (rl : IPRateLimiter) : bool := maxRateLimiterEntries <=? Z.of_nat (size (entries rl)).

Definition refill (now : Z) (rl : IPRateLimiter) (b : ipBucket) : Q :=
  let t := fadd (tokens b) (fmul (Seconds (now - lastFill b)) (rate rl)) in
  if fle t (burst rl) then t else burst rl.

Definition Allow (ip : string) (now : Z) (keys : list string) (rl : IPRateLimiter) : IPRateLimiter * bool :=
  let normIP := normalizeIP ip in
  match entries rl !! normIP with
  | None =>
      let rl := if full rl then evictOldest keys rl else rl in
      (with_buckets (<[normIP := {| tokens := fsub (burst rl) 1; lastFill := now |}]> (entries rl)) rl, true)
  | Some b =>
      let t := refill now rl b in
      if fle 1 t then (with_buckets (<[normIP := {| tokens := fsub t 1; lastFill := now |}]> (entries rl)) rl, true)
      else (with_buckets (<[normIP := {| tokens := t; lastFill := now |}]> (entries rl)) rl, false)
  end.

(** A turn of [gc]: stale buckets go, then the oldest until the table fits; each
    turn of that loop ranges over the map anew, [None] if the orders run out. *)
Definition gcCutoff : Z := 15 * 60 * 10 ^ 9.
Fixpoint shrink (orders : list (list string)) (rl : IPRateLimiter) : option IPRateLimiter :=
  if maxRateLimiterEntries <? Z.of_nat (size (entries rl)) then
    match orders with
    | [] => None
    | keys :: orders' => shrink orders' (evictOldest keys rl)
    end
  else Some rl.
Definition gc (now : Z) (orders : list (list string)) (rl : IPRateLimiter) : option IPRateLimiter :=
  let cutoff := now - gcCutoff in
  shrink orders (with_buckets (filter (fun kb => cutoff <= lastFill kb.2) (entries rl)) rl).

(** The client's address; [None] when gRPC does not know it. *)
Definition peerIP (addr : option string) : string :=
  match addr with
  | None => "unknown"
  | Some a => match SplitHostPort a with Some (host, _) => host | None => a end
  end.

(** Both interceptors: [handler] is the request on the state of the server. *)
Definition RateLimitInterceptor {S R : Type} (addr : option string) (now : Z) (keys : list string) (handler : S -> S * result Server.Server.code R)
    (rl : IPRateLimiter) (s : S) : IPRateLimiter * S * result Server.Server.code R :=
  let '(rl, ok) := Allow (peerIP addr) now keys rl in
  if ok then let '(s, r) := handler s in (rl, s, r) else (rl, s, Err Server.Server.ResourceExhausted).

(** [ProxyProtocolPolicy]: no policy, the ranges that must send a header, or the
    range that is not one. *)
Fixpoint trusted_ranges (l : list string) : result string (list string) :=
  match l with
  | [] => Ok []
  | s :: l' =>
      let s := Scan.TrimSpace s in
      match ParsePrefix s with
      | None => Err s
      | Some _ => match trusted_ranges l' with Ok t => Ok (s :: t) | Err e => Err e end
      end
  end.
Definition ProxyProtocolPolicy (cidrs : string) : result string (option (list string)) :=
  if String.eqb (Scan.TrimSpace cidrs) "" then Ok None
  else match trusted_ranges (split_on ","%char cidrs) with Ok t => Ok (Some t) | Err e => Err e end.

(** [WrapProxyProtocolListener]: the listener as it is, or with a policy and the time a
    connection has for its header. *)
Definition proxyHeaderTimeout : Z := 5 * 10 ^ 9.
Definition WrapProxyProtocolListener (cidrs : string) : result string (option (list string * Z)) :=
  match ProxyProtocolPolicy cidrs with
  | Err e => Err e
  | Ok None => Ok None
  | Ok (Some policy) => Ok (Some (policy, proxyHeaderTimeout))
  end.

(** The limiter of [veld-coord]. *)
Definition coordinator_limiter : IPRateLimiter := NewIPRateLimiter 20 40.

Example burst_then_refused :
  let calls := fun n => foldl (fun x _ => let '(rl, l) := x in let '(rl, ok) := Allow "192.0.2.1" 0 [] rl in (rl, l ++ [ok])) (coordinator_limiter, []) (seq 0 n) in
  (calls 41%nat).2 = replicate 40 true ++ [false] /\ (Allow "192.0.2.1" 50000000 [] (calls 41%nat).1).2 = true /\ (Allow "192.0.2.1" 49999999 [] (calls 41%nat).1).2 = false.
Proof. vm_compute. auto. Qed.

Example same_64 : normalizeIP "2001:db8::1" = "2001:db8::/64"%string /\ normalizeIP "2001:db8::ffff:2%eth0" = "2001:db8::/64"%string /\ normalizeIP "192.0.2.1" = "192.0.2.1"%string.
Proof. vm_compute. auto. Qed.

(** ** Runs *)
Inductive op := OAllow (ip : string) (now : Z) (keys : list string) | OGc (now : Z) (orders : list (list string)).
Definition op_time (o : op) : Z := match o with OAllow _ now _ | OGc now _ => now end.

(** The decisions, each with the bucket it was taken from. *)
Definition step (o : op) (rl : IPRateLimiter) : option (IPRateLimiter * list (string * bool)) :=
  match o with
  | OAllow ip now keys => let '(rl, ok) := Allow ip now keys rl in Some (rl, [(normalizeIP ip, ok)])
  | OGc now orders => rl ← gc now orders rl; Some (rl, [])
  end.
Fixpoint run (ops : list op) (rl : IPRateLimiter) : option (IPRateLimiter * list (string * bool)) :=
  match ops with
  | [] => Some (rl, [])
  | o :: ops' => '(rl, l) ← step o rl; '(rl, l') ← run ops' rl; Some (rl, l ++ l')
  end.

(** The clock does not go back, and ends at the latest at [t']. *)
Fixpoint in_time (t t' : Z) (ops : list op) : Prop :=
  match ops with
  | [] => t <= t'
  | o :: ops' => t <= op_time o /\ in_time (op_time o) t' ops'
  end.

Definition admitted (k : string) (out : list (string * bool)) : Z := Z.of_nat (length (filter (fun d => d = (k, true)) out)).

Local Open Scope Q_scope.

(** Seconds between two readings of the clock. *)
Definition sec (a b : Z) : Q := (b - a)%Z # 1000000000.

Lemma sec_add a b c : sec a c == sec a b + sec b c.
Proof. unfold sec, Qeq, Qplus. cbn [Qnum Qden]. lia. Qed.
Lemma sec_le a b n : (a + n <= b)%Z -> n # 1000000000 <= sec a b.
Proof. intros Hab. unfold sec, Qle. cbn [Qnum Qden]. lia. Qed.
Lemma sec_nonneg a b : (a <= b)%Z -> 0 <= sec a b.
Proof. intros Hab. unfold sec, Qle. cbn [Qnum Qden]. lia. Qed.

(** What a second refills, and the error of one decision: [2 ^ -53] many times. *)
Definition per_second : Q := 20 + 160 * ulp.
Definition err : Q := 400 * ulp.

Section Limits.
Context (rl : IPRateLimiter) (Hrate : rate rl = 20) (Hburst : burst rl = 40).

Lemma refill_bounds b now : 0 <= tokens b <= 40 -> (lastFill b <= now)%Z ->
  0 <= refill now rl b <= 40 /\
  refill now rl b <= tokens b + per_second * sec (lastFill b) now + 300 * ulp /\
  (51 # 1000 <= sec (lastFill b) now -> 1 <= refill now rl b).
Proof using Hrate Hburst.
  intros Ht Hl. unfold refill. rewrite Hrate, Hburst. destruct (Seconds_bounds (now - lastFill b) ltac:(lia)) as [Bs Ns]. fold (sec (lastFill b) now) in Bs.
  pose proof (sec_nonneg _ _ Hl) as Hs. set (s := sec (lastFill b) now) in *. set (S := Seconds (now - lastFill b)) in *. clearbody s S.
  unfold fadd, fmul. assert (0 <= S * 20) as H1 by lra. pose proof (round64_bounds _ H1) as B1. pose proof (round64_nonneg _ H1) as N1.
  set (r := round64 (S * 20)) in *. clearbody r. assert (0 <= tokens b + r) as H2 by lra. pose proof (round64_bounds _ H2) as B2. pose proof (round64_nonneg _ H2) as N2.
  set (t := round64 (tokens b + r)) in *. clearbody t. unfold per_second, ulp in *. unfold fle. destruct (Qle_bool t 40) eqn:E.
  - apply Qle_bool_iff in E. lra.
  - assert (40 < t) as Hlt by (apply Qnot_le_lt; intros Hc%Qle_bool_iff; congruence). lra.
Qed.

Lemma take_bounds t : 1 <= t <= 40 -> 0 <= fsub t 1 /\ fsub t 1 <= t - 1 + 40 * ulp.
Proof using Type.
  intros Ht. unfold fsub. assert (0 <= t - 1) as H1 by lra. pose proof (round64_bounds _ H1) as B. pose proof (round64_nonneg _ H1). unfold ulp in *. lra.
Qed.
End Limits.

Lemma first_tokens : fsub 40 1 = 39.
Proof. reflexivity. Qed.

(** The books of a bucket [k] at time [now], after [n] operations since [t0] of which
    [a] were admitted. *)
Record books (k : string) (t0 now n a : Z) (rl : IPRateLimiter) : Prop := {
  bk_rate : rate rl = 20;
  bk_burst : burst rl = 40;
  bk_bucket : match entries rl !! k with
              | Some b => 0 <= tokens b <= 40 /\ (t0 <= lastFill b <= now)%Z /\
                          inject_Z a + tokens b <= 40 + per_second * sec t0 (lastFill b) + inject_Z n * err
              | None => inject_Z a <= per_second * sec t0 now + inject_Z n * err
              end
}.

Lemma books_later k t0 now n a rl now' n' : books k t0 now n a rl -> (t0 <= now <= now')%Z -> (n <= n')%Z -> books k t0 now' n' a rl.
Proof.
  intros [R B Hb] Ht Hn. split; [done..|]. assert (inject_Z n * err <= inject_Z n' * err) as He.
  { apply Qmult_le_compat_r; [by rewrite <- Zle_Qle|by vm_compute]. }
  destruct (entries rl !! k) as [b|].
  - destruct Hb as (H1 & H2 & H3). split_and!; [lra|lra|lia|lia|lra].
  - pose proof (sec_add t0 now now') as Es. pose proof (sec_nonneg now now' ltac:(lia)) as Hs. unfold per_second, ulp in *. lra.
Qed.

Lemma books_same k t0 now n a rl rl' : rate rl' = rate rl -> burst rl' = burst rl -> entries rl' !! k = entries rl !! k ->
  books k t0 now n a rl -> books k t0 now n a rl'.
Proof. intros Hr Hb He [R B Hk]. split; [congruence..|]. by rewrite He. Qed.

(** A decision about the bucket keeps its books. *)
Lemma books_Allow ip t0 t now keys n a rl rl' ok : (t0 <= t <= now)%Z -> (entries rl !! normalizeIP ip = None -> full rl = false) ->
  books (normalizeIP ip) t0 t n a rl -> Allow ip now keys rl = (rl', ok) -> books (normalizeIP ip) t0 now (n + 1) (a + (if ok then 1 else 0)) rl'.
Proof.
  intros Ht Hf [R B Hb]. unfold Allow. set (k := normalizeIP ip) in *. destruct (entries rl !! k) as [b|] eqn:E.
  - destruct Hb as (Htok & Hl & Hsum). destruct (refill_bounds rl R B b now Htok ltac:(lia)) as (Hr & Hup & _). pose proof (sec_add t0 (lastFill b) now) as Es.
    set (u := refill now rl b) in *. clearbody u. cbv zeta. destruct (fle 1 u) eqn:El; intros [= <- <-]; split; try done; cbn [entries with_buckets]; rewrite lookup_insert_eq; cbn [tokens lastFill].
    + apply Qle_bool_iff in El. destruct (take_bounds u ltac:(lra)) as [N1 U1]. rewrite inject_Z_plus, inject_Z_plus. change (inject_Z 1) with 1.
      unfold per_second, err, ulp in *. split_and!; [lra|lra|lia|lia|lra].
    + rewrite !inject_Z_plus. change (inject_Z 1) with 1. change (inject_Z 0) with 0. unfold per_second, err, ulp in *. split_and!; [lra|lra|lia|lia|lra].
  - rewrite (Hf eq_refl). intros [= <- <-]. split; [done..|]. cbn [entries with_buckets]. rewrite lookup_insert_eq. cbn [tokens lastFill]. rewrite B, first_tokens.
    pose proof (sec_add t0 t now) as Es. pose proof (sec_nonneg t now ltac:(lia)) as Hs. rewrite !inject_Z_plus. change (inject_Z 1) with 1.
    unfold per_second, err, ulp in *. split_and!; [lra|lra|lia|lia|lra].
Qed.

Lemma Allow_frame ip now keys rl rl' ok k : Allow ip now keys rl = (rl', ok) -> full rl = false \/ is_Some (entries rl !! normalizeIP ip) ->
  rate rl' = rate rl /\ burst rl' = burst rl /\ dom (entries rl') = {[normalizeIP ip]} ∪ dom (entries rl) /\
  (k <> normalizeIP ip -> entries rl' !! k = entries rl !! k).
Proof.
  unfold Allow. intros E Hf. destruct (entries rl !! normalizeIP ip) as [b|].
  - cbv zeta in E. destruct (fle 1 _); injection E as <- <-; cbn; rewrite dom_insert_L; split_and!; try done; intros; by rewrite lookup_insert_ne.
  - destruct Hf as [Hf|[? ?]]; [|done]. rewrite Hf in E. injection E as <- <-. cbn. rewrite dom_insert_L. split_and!; try done; intros; by rewrite lookup_insert_ne.
Qed.

(** Collection keeps them too: after a quarter of an hour a bucket is full anyway. *)
Lemma books_gc k t0 t now n a rl rl' : (t0 <= t <= now)%Z -> rate rl' = rate rl -> burst rl' = burst rl ->
  entries rl' = filter (fun kb => now - gcCutoff <= lastFill kb.2)%Z (entries rl) -> books k t0 t n a rl -> books k t0 now (n + 1) a rl'.
Proof.
  intros Ht Hr Hbu Ee Hb. apply (books_later _ _ _ _ _ _ now (n + 1)) in Hb; [|lia..]. destruct Hb as [R B Hk]. split; [congruence..|]. rewrite Ee.
  destruct (entries rl !! k) as [b|] eqn:E.
  - destruct (decide (now - gcCutoff <= lastFill b)%Z) as [Hc|Hc].
    + rewrite (map_lookup_filter_Some_2 _ _ k b); done.
    + rewrite (map_lookup_filter_None_2 _ _ k); [|right; intros b' Eb'; rewrite E in Eb'; by injection Eb' as <-]. destruct Hk as (Htok & Hl & Hsum).
      pose proof (sec_add t0 (lastFill b) now) as Es. pose proof (sec_le (lastFill b) now gcCutoff ltac:(lia)) as Hs. unfold gcCutoff in Hs.
      change (15 * 60 * 10 ^ 9 # 1000000000) with (900000000000 # 1000000000) in Hs. unfold per_second, ulp in *. lra.
  - by rewrite (map_lookup_filter_None_2 _ _ k); [|left].
Qed.

Lemma admitted_app k l l' : admitted k (l ++ l') = (admitted k l + admitted k l')%Z.
Proof. unfold admitted. rewrite filter_app, length_app. lia. Qed.

Definition asks_in (S : gset string) (o : op) : Prop := match o with OAllow ip _ _ => normalizeIP ip ∈ S | OGc _ _ => True end.

(** Steps of a run whose clients fit into the table. *)
Lemma step_fits (S : gset string) o rl : (Z.of_nat (size S) <= maxRateLimiterEntries)%Z -> asks_in S o -> dom (entries rl) ⊆ S ->
  exists rl1 l, step o rl = Some (rl1, l) /\ dom (entries rl1) ⊆ S /\ rate rl1 = rate rl /\ burst rl1 = burst rl /\
    match o with
    | OAllow ip now keys => (entries rl !! normalizeIP ip = None -> full rl = false) /\ (exists ok, Allow ip now keys rl = (rl1, ok) /\ l = [(normalizeIP ip, ok)]) /\
                            forall k, k <> normalizeIP ip -> entries rl1 !! k = entries rl !! k
    | OGc now _ => l = [] /\ entries rl1 = filter (fun kb => now - gcCutoff <= lastFill kb.2)%Z (entries rl) /\
                   forall k, entries rl1 !! k = entries rl !! k \/ entries rl1 !! k = None
    end.
Proof.
  intros HS Ho Hd. destruct o as [ip now keys|now orders]; cbn [asks_in step] in *.
  - destruct (Allow ip now keys rl) as [rl1 ok] eqn:E. exists rl1, [(normalizeIP ip, ok)].
    assert (entries rl !! normalizeIP ip = None -> full rl = false) as Hf.
    { intros Hn. unfold full. apply Z.leb_gt. apply not_elem_of_dom in Hn. rewrite <- size_dom.
      assert (dom (entries rl) ⊂ S) as Hss by (split; [done|]; intros Hc; by apply Hn, Hc). pose proof (subset_size _ _ Hss). lia. }
    assert (full rl = false \/ is_Some (entries rl !! normalizeIP ip)) as Hf' by (destruct (entries rl !! normalizeIP ip); [right; by eexists|left; auto]).
    pose proof (fun k => Allow_frame _ _ _ _ _ _ k E Hf') as HF. destruct (HF ""%string) as (R1 & B1 & D1 & _).
    split_and!; try done; [rewrite D1; set_solver|eauto|]. intros k. apply HF.
  - set (rl1 := with_buckets (filter (fun kb => now - gcCutoff <= lastFill kb.2)%Z (entries rl)) rl).
    assert (dom (entries rl1) ⊆ dom (entries rl)) as Hd1 by apply dom_filter_subseteq. exists rl1, []. split_and!; try done; [|set_solver|].
    + unfold gc. fold rl1. assert (shrink orders rl1 = Some rl1) as ->; [|done]. assert (size (dom (entries rl1)) <= size S)%nat as Hs by (apply subseteq_size; set_solver).
      rewrite size_dom in Hs. destruct orders; cbn [shrink]; (destruct (Z.ltb_spec maxRateLimiterEntries (Z.of_nat (size (entries rl1)))); [lia|done]).
    + intros k. cbn. destruct (filter _ (entries rl) !! k) as [b|] eqn:E; [left|by right]. by apply map_lookup_filter_Some in E as [-> _].
Qed.

(** Along a run whose clients fit into the table, the books of every bucket are kept. *)
Lemma run_books (S : gset string) k t0 ops : forall t t1 n a rl, (Z.of_nat (size S) <= maxRateLimiterEntries)%Z -> (t0 <= t)%Z -> in_time t t1 ops -> Forall (asks_in S) ops ->
  dom (entries rl) ⊆ S -> books k t0 t n a rl ->
  exists rl' out, run ops rl = Some (rl', out) /\ books k t0 t1 (n + Z.of_nat (length ops)) (a + admitted k out) rl'.
Proof.
  induction ops as [|o ops IH]; intros t t1 n a rl HS H0 Ht Ha Hd Hb.
  - exists rl, []. split; [done|]. cbn in Ht. replace (a + admitted k [])%Z with a by (unfold admitted; cbn; lia). eapply books_later; [done|lia|cbn; lia].
  - destruct Ht as [Ht Hts]. apply Forall_cons in Ha as [Ho Ha]. destruct (step_fits S o rl HS Ho Hd) as (rl1 & l & E & Hd1 & R1 & B1 & Hs).
    assert (books k t0 (op_time o) (n + 1) (a + admitted k l) rl1) as Hb1.
    { destruct o as [ip now keys|now orders]; cbn [op_time] in *.
      - destruct Hs as (Hf & (ok & Eo & ->) & Hk). destruct (decide (k = normalizeIP ip)) as [->|Hne].
        + replace (admitted (normalizeIP ip) [(normalizeIP ip, ok)]) with (if ok then 1 else 0)%Z; [by eapply books_Allow; [..|exact Eo]|].
          unfold admitted. destruct ok; [rewrite filter_cons_True by done|rewrite filter_cons_False by done]; done.
        + replace (admitted k [(normalizeIP ip, ok)]) with 0%Z by (unfold admitted; rewrite filter_cons_False; [done|congruence]).
          rewrite Z.add_0_r. eapply books_same; [done..|by apply Hk|]. eapply books_later; [done|lia..].
      - destruct Hs as (-> & Ee & _). replace (a + admitted k [])%Z with a by (unfold admitted; cbn; lia). by eapply books_gc. }
    destruct (IH (op_time o) t1 (n + 1)%Z _ rl1 HS ltac:(lia) Hts Ha Hd1 Hb1) as (rl' & out & Er & Hb'). exists rl', (l ++ out). cbn [run]. rewrite E, bind_Some_eq, Er, bind_Some_eq. split; [done|].
    rewrite admitted_app. cbn [length]. replace (n + Z.of_nat (Datatypes.S (length ops)))%Z with (n + 1 + Z.of_nat (length ops))%Z by lia. by rewrite Z.add_assoc.
Qed.

(** C28: The coordinator's rate limit holds.  Of up to 2^32 requests and collections,
    in any order and within 366 days, at most 41 and twenty for every second that has
    passed since the first are admitted for one IPv4 address or IPv6 /64: the float64
    arithmetic of the buckets adds less than one request in that time.  The clients
    must fit into the table of ten thousand buckets. *)
Theorem rate_limit_holds (S : gset string) ops t0 t1 :
  (Z.of_nat (size S) <= maxRateLimiterEntries)%Z -> Forall (asks_in S) ops -> in_time t0 t1 ops ->
  (Z.of_nat (length ops) <= 2 ^ 32)%Z -> (t1 - t0 <= 366 * 86400 * 10 ^ 9)%Z ->
  exists rl out, run ops coordinator_limiter = Some (rl, out) /\
    forall k, inject_Z (admitted k out) <= 41 + 20 * sec t0 t1.
Proof.
  intros HS Ha Ht Hn Hy.
  assert (forall k, books k t0 t0 0 0 coordinator_limiter) as H0.
  { intros k. split; [done..|]. cbn [coordinator_limiter NewIPRateLimiter entries]. rewrite lookup_empty. unfold sec. rewrite Z.sub_diag. done. }
  assert (forall k, exists rl' out, run ops coordinator_limiter = Some (rl', out) /\ books k t0 t1 (0 + Z.of_nat (length ops)) (0 + admitted k out) rl') as Hr.
  { intros k. apply (run_books S k t0 ops t0 t1 0 0 coordinator_limiter); try done; lia. }
  destruct (Hr EmptyString) as (rl & out & E & _). exists rl, out. split; [done|]. intros k. destruct (Hr k) as (rl' & out' & E' & [R B Hb]).
  rewrite E in E'. injection E' as <- <-. rewrite !Z.add_0_l in Hb. set (n := Z.of_nat (length ops)) in *. set (a := admitted k out) in *. clearbody n a.
  assert (inject_Z n <= 4294967296) as Hn' by (change 4294967296 with (inject_Z (2 ^ 32)); by rewrite <- Zle_Qle).
  assert (sec t0 t1 <= 31622400) as Hs1 by (unfold sec, Qle; cbn [Qnum Qden]; lia).
  destruct (entries rl !! k) as [b|].
  - destruct Hb as (Htok & Hl & Hsum). pose proof (sec_add t0 (lastFill b) t1) as Es. pose proof (sec_nonneg (lastFill b) t1 ltac:(lia)) as Hs.
    unfold per_second, err, ulp in *. lra.
  - unfold per_second, err, ulp in *. lra.
Qed.

Definition demo_ops : list op :=
  [OAllow "192.0.2.1" 0 []; OAllow "2001:db8::1" 10 []; OAllow "192.0.2.1" 51000000 []; OGc (20 * 60 * 10 ^ 9) []; OAllow "192.0.2.1" (21 * 60 * 10 ^ 9) []].
Definition demo_clients : gset string := {["192.0.2.1"%string; "2001:db8::/64"%string]}.
Lemma demo_clients_fit : Forall (asks_in demo_clients) demo_ops /\ in_time 0 (30 * 60 * 10 ^ 9) demo_ops.
Proof. split; [|cbn; lia]. repeat constructor; cbn [asks_in]; (apply bool_decide_eq_true_1; vm_compute; reflexivity). Qed.

Lemma rate_limit_holds_witness :
  exists rl out, run demo_ops coordinator_limiter = Some (rl, out) /\ forall k, inject_Z (admitted k out) <= 41 + 20 * sec 0 (30 * 60 * 10 ^ 9).
Proof.
  apply (rate_limit_holds demo_clients demo_ops 0 (30 * 60 * 10 ^ 9)); [by vm_compute|apply demo_clients_fit|apply demo_clients_fit|by vm_compute|by vm_compute].
Defined.

(** ** Clients that keep the pace are served *)

(** The requests of [k] come at least [gap] apart. *)
Fixpoint spaced (k : string) (gap : Z) (last : option Z) (ops : list op) : Prop :=
  match ops with
  | [] => True
  | OAllow ip now _ :: ops' =>
      if decide (normalizeIP ip = k) then (forall l, last = Some l -> (l + gap <= now)%Z) /\ spaced k gap (Some now) ops' else spaced k gap last ops'
  | OGc _ _ :: ops' => spaced k gap last ops'
  end.

Definition paced (k : string) (last : option Z) (rl : IPRateLimiter) : Prop :=
  rate rl = 20 /\ burst rl = 40 /\ match entries rl !! k with Some b => 0 <= tokens b <= 40 /\ last = Some (lastFill b) | None => True end.

Lemma paced_Allow ip now keys rl rl' ok last : paced (normalizeIP ip) last rl -> (forall l, last = Some l -> (l + 51000000 <= now)%Z) ->
  (entries rl !! normalizeIP ip = None -> full rl = false) -> Allow ip now keys rl = (rl', ok) -> ok = true /\ paced (normalizeIP ip) (Some now) rl'.
Proof.
  intros (R & B & Hb) Hl Hf. unfold Allow. set (k := normalizeIP ip) in *. destruct (entries rl !! k) as [b|] eqn:E.
  - destruct Hb as [Htok ->]. specialize (Hl _ eq_refl). destruct (refill_bounds rl R B b now Htok ltac:(lia)) as (Hr & _ & H1).
    pose proof (sec_le _ _ _ Hl) as Hs. specialize (H1 ltac:(lra)). cbv zeta. assert (fle 1 (refill now rl b) = true) as -> by by apply Qle_bool_iff. intros [= <- <-]. split; [done|]. split_and!; [done..|].
    cbn. rewrite lookup_insert_eq. cbn. destruct (take_bounds (refill now rl b) ltac:(lra)) as [N1 U1]. unfold ulp in *. split_and!; [lra|lra|done].
  - rewrite (Hf eq_refl). intros [= <- <-]. split; [done|]. split_and!; [done..|]. cbn. rewrite lookup_insert_eq. cbn. rewrite B, first_tokens. split_and!; [by vm_compute..|done].
Qed.

(** A client that keeps the pace is never refused: if the requests of an address
    come at least 51 milliseconds apart, every one of them is admitted, whatever the
    others do. *)
Theorem paced_client_admitted (S : gset string) ops k :
  (Z.of_nat (size S) <= maxRateLimiterEntries)%Z -> Forall (asks_in S) ops -> spaced k 51000000 None ops ->
  exists rl out, run ops coordinator_limiter = Some (rl, out) /\ forall ok, (k, ok) ∈ out -> ok = true.
Proof.
  intros HS Ha Hsp. assert (paced k None coordinator_limiter) as Hp by (split_and!; [done..|]; cbn; by rewrite lookup_empty).
  assert (dom (entries coordinator_limiter) ⊆ S) as Hd by (cbn; set_solver). revert Hp Hd Hsp Ha. generalize (@None Z) as last. generalize coordinator_limiter as rl.
  induction ops as [|o ops IH]; intros rl last Hp Hd Hsp Ha; [exists rl, []; split; [done|]; by intros ok ?%not_elem_of_nil|].
  apply Forall_cons in Ha as [Ho Ha]. destruct (step_fits S o rl HS Ho Hd) as (rl1 & l & E & Hd1 & R1 & B1 & Hs).
  assert (exists last1, spaced k 51000000 last1 ops /\ paced k last1 rl1 /\ forall ok, (k, ok) ∈ l -> ok = true) as (last1 & Hsp1 & Hp1 & Hl).
  { destruct o as [ip now keys|now orders]; cbn [spaced] in Hsp.
    - destruct Hs as (Hf & (ok & Eo & ->) & Hk). case_decide as Ek.
      + subst k. destruct Hsp as [Hg Hsp]. destruct (paced_Allow _ _ _ _ _ _ _ Hp Hg Hf Eo) as [-> Hp1]. exists (Some now). split_and!; [done..|].
        by intros ok' [= ->]%list_elem_of_singleton.
      + exists last. split_and!; [done| |intros ok' [= ? _]%list_elem_of_singleton; congruence]. destruct Hp as (R & B & Hb). split_and!; [congruence..|]. by rewrite Hk by done.
    - destruct Hs as (-> & _ & Hk). exists last. split_and!; [done| |by intros ok ?%not_elem_of_nil]. destruct Hp as (R & B & Hb). split_and!; [congruence..|].
      destruct (Hk k) as [->| ->]; done. }
  destruct (IH rl1 last1 Hp1 Hd1 Hsp1 Ha) as (rl' & out & Er & Ho'). exists rl', (l ++ out). cbn [run]. rewrite E, bind_Some_eq, Er, bind_Some_eq. split; [done|].
  intros ok [Hin|Hin]%elem_of_app; auto.
Qed.

Lemma demo_spaced : spaced "192.0.2.1" 51000000 None demo_ops.
Proof.
  assert (normalizeIP "192.0.2.1" = "192.0.2.1"%string) as E1 by (vm_compute; reflexivity).
  assert (normalizeIP "2001:db8::1" = "2001:db8::/64"%string) as E2 by (vm_compute; reflexivity).
  unfold demo_ops. cbn [spaced]. rewrite E1, E2. destruct (decide ("192.0.2.1" = "192.0.2.1")%string) as [_|]; [|done].
  destruct (decide ("2001:db8::/64" = "192.0.2.1")%string) as [|_]; [done|]. split_and!; [intros l [=]|intros l [= <-]; lia|intros l [= <-]; lia|done].
Qed.

Lemma paced_client_admitted_witness :
  exists rl out, run demo_ops coordinator_limiter = Some (rl, out) /\ forall ok, ("192.0.2.1"%string, ok) ∈ out -> ok = true.
Proof.
  apply (paced_client_admitted demo_clients demo_ops); [by vm_compute|apply demo_clients_fit|].
  apply demo_spaced.
Defined.

(** ** The table stays within its limit *)
Lemma oldest_Some m keys best : (exists k, k ∈ keys /\ is_Some (m !! k)) \/ is_Some best ->
  (forall k t, best = Some (k, t) -> is_Some (m !! k)) -> exists k t, oldest m keys best = Some (k, t) /\ is_Some (m !! k).
Proof.
  revert best. induction keys as [|k keys IH]; intros best Hex Hb; cbn [oldest].
  - destruct Hex as [(k & Hk & _)|[[k t] ->]]; [by apply not_elem_of_nil in Hk|]. eauto.
  - destruct (m !! k) as [b|] eqn:E.
    + destruct (match best with None => true | Some (_, t) => _ end) eqn:Ec; apply IH; auto.
      * intros k' t [= <- <-]. by rewrite E.
      * right. by destruct best.
    + apply IH; [|done]. destruct Hex as [(k' & [->|Hk]%elem_of_cons & Hs)|Hs]; [rewrite E in Hs; by destruct Hs|left; eauto|by right].
Qed.

(** With [keys] the keys of the map, a full table makes room: the empty string is
    the only key that is never evicted. *)
Lemma evictOldest_shrinks keys rl : (forall k, is_Some (entries rl !! k) -> k ∈ keys) -> entries rl <> ∅ -> entries rl !! ""%string = None ->
  size (entries (evictOldest keys rl)) = pred (size (entries rl)) /\ entries (evictOldest keys rl) ⊆ entries rl.
Proof.
  intros Hk Hne H0. unfold evictOldest. destruct (map_choose _ Hne) as (k0 & b0 & E0).
  destruct (oldest_Some (entries rl) keys None) as (k & t & -> & Hs); [left; exists k0; split; [apply Hk|]; by rewrite E0|done|].
  destruct (String.eqb_spec k ""%string) as [->|_]; [rewrite H0 in Hs; by destruct Hs|]. cbn. split; [by rewrite map_size_delete_Some|apply delete_subseteq].
Qed.

Lemma Allow_bounded ip now keys rl rl' ok : (Z.of_nat (size (entries rl)) <= maxRateLimiterEntries)%Z -> entries rl !! ""%string = None -> normalizeIP ip <> ""%string ->
  (forall k, is_Some (entries rl !! k) -> k ∈ keys) -> Allow ip now keys rl = (rl', ok) ->
  (Z.of_nat (size (entries rl')) <= maxRateLimiterEntries)%Z /\ entries rl' !! ""%string = None.
Proof.
  intros Hsz H0 Hip Hk. unfold Allow. set (k := normalizeIP ip) in *. destruct (entries rl !! k) as [b|] eqn:E.
  - cbv zeta. destruct (fle 1 _); intros [= <- <-]; cbn; rewrite lookup_insert_ne by done; (split; [|done]); rewrite map_size_insert_Some by (by eexists); lia.
  - intros [= <- <-]. destruct (full rl) eqn:Ef; unfold full in Ef; cbn.
    + destruct (evictOldest_shrinks keys rl Hk) as [Hs1 Hs2]; [|done|].
      { intros He. rewrite He in Ef. by vm_compute in Ef. }
      apply Z.leb_le in Ef. assert (forall x, entries rl !! x = None -> entries (evictOldest keys rl) !! x = None) as Hn by (intros x Hx; by eapply lookup_weaken_None).
      rewrite lookup_insert_ne by done. split; [|by apply Hn]. rewrite map_size_insert_None by by apply Hn. rewrite Hs1. unfold maxRateLimiterEntries in *. lia.
    + apply Z.leb_gt in Ef. rewrite lookup_insert_ne by done. split; [|done]. rewrite map_size_insert_None by done. lia.
Qed.

(** ** Buckets and requests *)

(** The addresses of an IPv6 /64 share one bucket. *)
Lemma normalizeIP_64 ip1 ip2 v1 v2 z1 z2 : ParseAddr ip1 = Some (Addr6 v1 z1) -> ParseAddr ip2 = Some (Addr6 v2 z2) -> Z.shiftr v1 64 = Z.shiftr v2 64 ->
  normalizeIP ip1 = normalizeIP ip2.
Proof. intros E1 E2 Ev. unfold normalizeIP. rewrite E1, E2. f_equal. unfold Masked, Daemon.Daemon.PrefixFrom. cbn -[Z.shiftr Z.shiftl]. change (128 - 64)%Z with 64%Z. by rewrite Ev. Qed.

(** A refused request does not reach its handler. *)
Lemma refused_request_ignored {S R : Type} addr now keys (handler : S -> S * result Server.Server.code R) rl s rl' s' r :
  RateLimitInterceptor addr now keys handler rl s = (rl', s', r) ->
  Allow (peerIP addr) now keys rl = (rl', true) /\ handler s = (s', r) \/
  Allow (peerIP addr) now keys rl = (rl', false) /\ s' = s /\ r = Err Server.Server.ResourceExhausted.
Proof.
  unfold RateLimitInterceptor. destruct (Allow _ _ _ _) as [rl1 [|]]; [destruct (handler s) as [s1 r1] eqn:E; intros [= <- <- <-]; by left|intros [= <- <- <-]; by right].
Qed.

(** PROXY headers are demanded from the listed ranges only, and all are ranges. *)
Lemma ProxyProtocolPolicy_ranges cidrs t : ProxyProtocolPolicy cidrs = Ok (Some t) ->
  t = map Scan.TrimSpace (split_on ","%char cidrs) /\ Forall (fun s => is_Some (ParsePrefix s)) t.
Proof.
  unfold ProxyProtocolPolicy. destruct (String.eqb _ _); [done|]. generalize (split_on ","%char cidrs) as l. intros l.
  destruct (trusted_ranges l) as [t'|] eqn:E; [|done]. intros [= ->]. revert t E. induction l as [|s l IH]; intros t E; cbn in E; [by injection E as <-|].
  destruct (ParsePrefix (Scan.TrimSpace s)) eqn:Ep; [|done]. destruct (trusted_ranges l) as [t'|]; [|done]. injection E as <-. destruct (IH t' eq_refl) as [-> Hf].
  split; [done|]. constructor; [by rewrite Ep|done].
Qed.
End RateLimit.
