(* ===== verification/Redact.v ===== *)
(** * Redact: addresses in logs

    [Redact] models [src/internal/logsafe/logsafe.go]: the truncation of addresses
    and the replacement of the addresses in error texts.  The regular expression is
    the matcher [address_at]: its classes are disjoint from what follows them, so that
    the leftmost-first match is the greedy one. *)
From Stdlib Require Import ZArith Lia.
From stdpp Require Import base numbers list strings.
From S2P Require Import Prelude GoLib PeerTable AddrText Daemon.

Module Redact.
Import Strings Netip AddrText.

(** ** [TruncIP] *)
Definition parse_any (s : string) : option Addr :=
  match ParseAddr s with
  | Some a => Some a
  | None => '(host, _) ← SplitHostPort s; ParseAddr host
  end.

Definition trunc (a : Addr) : list Z :=
  match Unmap a with
  | Addr4 v => dec (octet v 0) ++ dot :: dec (octet v 1) ++ dot :: dec (octet v 2) ++ [dot; 120]
  | Addr6 v _ => addr_bytes (p_addr (Masked (Daemon.Daemon.PrefixFrom (Addr6 v "") 48))) ++ [120]
  | AddrZero => []
  end.

Definition TruncIP (s : string) : string := match parse_any s with Some a => string_of_bytes (trunc a) | None => "" end.

(** ** [ScrubErr] *)

(** At most [n] digits. *)
Fixpoint digits_upto (n : nat) (l : list Z) : list Z * list Z :=
  match n, l with
  | S n', c :: l' => if Scan.is_digit c then let '(a, b) := digits_upto n' l' in (c :: a, b) else ([], l)
  | _, _ => ([], l)
  end.

(** The optional port. *)
Definition port_at (l : list Z) : list Z * list Z :=
  match l with
  | 58 :: l' => let ds := Scan.take_digits l' in if bool_decide (ds = []) then ([], l) else (58 :: ds, drop (length ds) l')
  | _ => ([], l)
  end.

(** One to three digits and a dot, [n] times; then one to three digits. *)
Fixpoint octets_at (n : nat) (l : list Z) : option (list Z * list Z) :=
  let '(ds, l') := digits_upto 3 l in
  if bool_decide (ds = []) then None
  else match n, l' with
       | O, _ => Some (ds, l')
       | S n', 46 :: l'' => '(m, rest) ← octets_at n' l''; Some (ds ++ 46 :: m, rest)
       | S _, _ => None
       end.

Definition hex_or_sep (c : Z) : bool :=
  ((48 <=? c) && (c <=? 57)) || ((65 <=? c) && (c <=? 70)) || ((97 <=? c) && (c <=? 102)) || (c =? 58) || (c =? 46) || (c =? 37).
Fixpoint take_class (l : list Z) : list Z := match l with c :: l' => if hex_or_sep c then c :: take_class l' else [] | [] => [] end.

Definition bracket_at (l : list Z) : option (list Z * list Z) :=
  match l with
  | 91 :: l' =>
      let m := take_class l' in
      match drop (length m) l' with
      | 93 :: rest => if bool_decide (m = []) then None else Some (91 :: m ++ [93], rest)
      | _ => None
      end
  | _ => None
  end.

(** [ipPortRe] at the start of the text: the match and what follows. *)
Definition address_at (l : list Z) : option (list Z * list Z) :=
  '(m, rest) ← match octets_at 3 l with Some x => Some x | None => bracket_at l end;
  let '(p, rest) := port_at rest in Some (m ++ p, rest).

Definition replacement (m : list Z) : list Z :=
  let host := match m with 91 :: m' => match split_at 93 m' with (h, Some _) => h | (_, None) => m end | _ => m end in
  let t := TruncIP (string_of_bytes host) in
  if String.eqb t "" then m else bytes_of_string t.

(** [ReplaceAllStringFunc]; a match is not empty, so the length is enough fuel. *)
Fixpoint scrub (fuel : nat) (l : list Z) : list Z :=
  match fuel, l with
  | S f, c :: l' =>
      match address_at l with
      | Some (m, rest) => replacement m ++ scrub f rest
      | None => c :: scrub f l'
      end
  | _, _ => []
  end.
Definition scrub_text (s : string) : string := let l := bytes_of_string s in string_of_bytes (scrub (length l) l).

(** An error: its text, and the operation, network and cause of the [net.OpError] in
    its chain, if there is one. *)
Record OpError := { Op : string; Net : string; cause : option string }.
Record error := { err_text : string; err_op : option OpError }.

Definition op_text (e : OpError) : string :=
  (Op e ++ (if String.eqb (Net e) "" then "" else " " ++ Net e) ++ ": " ++ default "network error" (cause e))%string.

Definition ScrubErr (err : option error) : string :=
  match err with
  | None => ""
  | Some e => scrub_text (match err_op e with Some oe => op_text oe | None => err_text e end)
  end.

Example trunc4 : TruncIP "192.0.2.7:51820" = "192.0.2.x"%string /\ TruncIP "::ffff:192.0.2.7" = "192.0.2.x"%string /\ TruncIP "host" = ""%string. Proof. vm_compute. auto. Qed.
Example trunc6 : TruncIP "[2001:db8:1234:5678::9]:443" = "2001:db8:1234::x"%string /\ TruncIP "fe80::1%eth0" = "fe80::x"%string. Proof. vm_compute. auto. Qed.
Example scrub_ex : scrub_text "dial 192.0.2.7:80: no [2001:db8::1]:9 or 1.2.3" = "dial 192.0.2.x: no 2001:db8::x or 1.2.3"%string. Proof. vm_compute. reflexivity. Qed.
Example scrub_op : ScrubErr (Some {| err_text := "read tcp 192.0.2.1:5->198.51.100.7:9: connection reset by peer";
  err_op := Some {| Op := "read"; Net := "tcp"; cause := Some "connection reset by peer" |} |}) = "read tcp: connection reset by peer"%string.
Proof. vm_compute. reflexivity. Qed.
(** After a match that is no address the search goes on behind it, and may miss one. *)
Example scrub_misses : scrub_text "999.10.20.30.40" = "999.10.20.30.40"%string. Proof. vm_compute. reflexivity. Qed.
(** IPv6 addresses without brackets stay. *)
Example scrub_bare6 : scrub_text "lookup 2001:db8::1: no such host" = "lookup 2001:db8::1: no such host"%string. Proof. vm_compute. reflexivity. Qed.

(** ** What a log says about an address *)

(** The addresses that a truncated one stands for: a /24 or a /48. *)
Definition indistinct (a b : Addr) : Prop :=
  match Unmap a, Unmap b with
  | Addr4 v, Addr4 w => Z.shiftr v 8 = Z.shiftr w 8
  | Addr6 v _, Addr6 w _ => Z.shiftr v 80 = Z.shiftr w 80
  | _, _ => False
  end.

Lemma octet_shift v w i : 0 <= i <= 2 -> Z.shiftr v 8 = Z.shiftr w 8 -> octet v i = octet w i.
Proof.
  intros Hi E. unfold octet. f_equal. replace (24 - 8 * i) with (8 + (16 - 8 * i)) by lia. rewrite <- !Z.shiftr_shiftr by lia. by rewrite E.
Qed.

Lemma trunc_indistinct a b : indistinct a b -> trunc a = trunc b.
Proof.
  unfold indistinct, trunc. destruct (Unmap a) as [|v|v z], (Unmap b) as [|w|w z']; try done.
  - intros E. by rewrite (octet_shift v w 0), (octet_shift v w 1), (octet_shift v w 2) by (lia || done).
  - intros E. unfold Masked, Daemon.Daemon.PrefixFrom. cbn -[Z.shiftr Z.shiftl addr_bytes]. change (128 - 48) with 80. by rewrite E.
Qed.

(** ** Matching an IPv4 address *)
Lemma digits_upto_all ds rest n : (length ds <= n)%nat -> Forall (fun c => Scan.is_digit c = true) ds -> (forall c, head rest = Some c -> Scan.is_digit c = false) ->
  digits_upto n (ds ++ rest) = (ds, rest).
Proof.
  revert n. induction ds as [|c ds IH]; intros n Hn Hd Hr; cbn [app].
  - destruct n as [|n], rest as [|c rest]; cbn; try done. by rewrite (Hr c eq_refl).
  - destruct n as [|n]; [cbn in Hn; lia|]. apply Forall_cons in Hd as [Hc Hd]. cbn [digits_upto]. rewrite Hc, IH; [done|cbn in Hn; lia|done..].
Qed.

Lemma dec_byte b : byte_ok b -> (0 < length (dec b) <= 3)%nat /\ Forall (fun c => Scan.is_digit c = true) (dec b).
Proof.
  intros Hb. assert (forallb (fun b => (0 <? length (dec b))%nat && (length (dec b) <=? 3)%nat && forallb Scan.is_digit (dec b)) (seqZ 0 256) = true) as Hall by (vm_compute; reflexivity).
  rewrite forallb_forall in Hall. specialize (Hall b ltac:(apply list_elem_of_In, elem_of_seqZ; unfold byte_ok in Hb; lia)).
  rewrite !andb_true_iff, Nat.ltb_lt, Nat.leb_le in Hall. destruct Hall as [Hl Hd]. split; [done|]. apply Forall_forall.
  intros c Hc. rewrite forallb_forall in Hd. apply Hd. by apply list_elem_of_In.
Qed.

Lemma octets_dot b n rest : byte_ok b -> octets_at (S n) (dec b ++ dot :: rest) = ('(m, r) ← octets_at n rest; Some (dec b ++ dot :: m, r)).
Proof.
  intros Hb. destruct (dec_byte b Hb) as [Hl Hd]. unfold octets_at at 1; fold octets_at. rewrite digits_upto_all by (done || lia || (intros c [= <-]; reflexivity)).
  rewrite bool_decide_eq_false_2; [done|]. intros E. rewrite E in Hl. cbn in Hl. lia.
Qed.

(** Not a digit. *)
Definition nondigit_head (l : list Z) : Prop := forall c, head l = Some c -> Scan.is_digit c = false.

Lemma octets_string4 v rest : nondigit_head rest -> octets_at 3 (string4 v ++ rest) = Some (string4 v, rest).
Proof.
  intros Hr. unfold string4. rewrite <- !app_assoc. cbn [app]. rewrite <- !app_assoc. cbn [app]. rewrite <- !app_assoc. cbn [app].
  rewrite !octets_dot by apply octet_byte. destruct (dec_byte (octet v 3) (octet_byte v 3)) as [Hl Hd]. unfold octets_at. rewrite digits_upto_all by (lia || done).
  rewrite bool_decide_eq_false_2; [done|]. intros E. rewrite E in Hl. cbn in Hl. lia.
Qed.

(** The text of an optional port, and what may follow it. *)
Definition port_text (port : option (list Z)) : list Z := match port with Some ds => 58 :: ds | None => [] end.
Definition port_digits (port : option (list Z)) : Prop := match port with Some ds => ds <> [] /\ Forall (fun c => Scan.is_digit c = true) ds | None => True end.
Definition port_ends (port : option (list Z)) (post : list Z) : Prop := nondigit_head post /\ (port = None -> head post <> Some 58).

Lemma take_digits_head ds post : Forall (fun c => Scan.is_digit c = true) ds -> nondigit_head post -> Scan.take_digits (ds ++ post) = ds.
Proof.
  intros Hd Hp. destruct post as [|c post]; [rewrite app_nil_r; by apply Scan.take_digits_all|]. apply Scan.take_digits_app; [done|by apply Hp].
Qed.

Lemma port_at_text port post : port_digits port -> port_ends port post -> port_at (port_text port ++ post) = (port_text port, post).
Proof.
  intros Hd [Hp Hn]. destruct port as [ds|]; cbn [port_text app].
  - destruct Hd as [Hne Hd]. unfold port_at. rewrite take_digits_head by done. rewrite bool_decide_eq_false_2 by done. by rewrite drop_app_length.
  - specialize (Hn eq_refl). destruct post as [|c post]; [done|]. unfold port_at. cbn in Hn. destruct c as [|c|c]; try done.
    do 6 (destruct c as [c|c|]; try done).
Qed.

(** Bytes of an IPv4 address with its port. *)
Lemma string4_chars v : Forall (fun c => Scan.is_digit c = true \/ c = dot) (string4 v).
Proof.
  assert (forall i, Forall (fun c => Scan.is_digit c = true \/ c = dot) (dec (octet v i))) as Hd.
  { intros i. destruct (dec_byte _ (octet_byte v i)) as [_ Hd]. eapply Forall_impl; [exact Hd|]. auto. }
  unfold string4. repeat (apply Forall_app; split; [apply Hd|]; apply Forall_cons; split; [by right|]). apply Hd.
Qed.

Lemma fields4_other c l : Scan.is_digit c = false -> c <> dot -> c ∈ l -> forall val n fs, fields4 l val n fs = None.
Proof.
  intros Hd Hc. induction l as [|x l IH]; intros Hin val n fs; [by apply not_elem_of_nil in Hin|]. cbn [fields4]. apply elem_of_cons in Hin as [<-|Hin].
  - rewrite Hd. by rewrite (proj2 (Z.eqb_neq c dot)).
  - specialize (IH Hin). destruct (Scan.is_digit x).
    + destruct ((n =? 1) && (val =? 0)); [done|]. cbv zeta. destruct (255 <? _); [done|]. apply IH.
    + destruct (x =? dot); [|done]. destruct ((n =? 0) || _); [done|]. destruct (_ =? 3)%nat; [done|]. apply IH.
Qed.

Lemma string4_head v : exists c l, string4 v = c :: l /\ c <> 91.
Proof.
  pose proof (string4_chars v) as Hc. destruct (string4 v) as [|c l] eqn:E; [unfold string4 in E; by apply app_eq_nil in E as [_ E]|]. exists c, l. split; [done|].
  apply Forall_cons in Hc as [[Hd| ->] _]; [|done]. intros ->. done.
Qed.

Lemma parse_any_string4 v port : 0 <= v < 2 ^ 32 -> port_digits port -> parse_any (string_of_bytes (string4 v ++ port_text port)) = Some (Addr4 v).
Proof.
  intros Hv Hp. pose proof (string4_bytes_ok v) as Hb. pose proof (string4_chars v) as Hc. destruct port as [ds|]; cbn [port_text].
  - destruct Hp as [Hne Hd]. change (58 :: ds) with (colon :: ds).
    assert (Forall (fun c => Scan.is_digit c = true \/ c = dot \/ c = colon) (string4 v ++ colon :: ds)) as Hall.
    { apply Forall_app. split; [eapply Forall_impl; [exact Hc|]; cbn; tauto|]. apply Forall_cons. split; [auto|]. eapply Forall_impl; [exact Hd|]. cbn; tauto. }
    assert (forall c, Scan.is_digit c = false -> c <> dot -> c <> colon -> c ∉ string4 v ++ colon :: ds) as Hno.
    { intros c H1 H2 H3 Hin. rewrite Forall_forall in Hall. destruct (Hall c Hin) as [|[|]]; congruence. }
    assert (bytes_ok (string4 v ++ colon :: ds)) as Hbs.
    { eapply Forall_impl; [exact Hall|]. unfold byte_ok, Scan.is_digit. intros c [Hx|[->| ->]]; [bool_to_prop; lia|unfold dot; lia|unfold colon; lia]. }
    unfold parse_any, ParseAddr. rewrite bytes_of_string_of_bytes by done.
    assert (parse_addr (string4 v ++ colon :: ds) = None) as ->.
    { unfold parse_addr. assert (family (string4 v ++ colon :: ds) = Some true) as ->.
      { unfold string4. rewrite <- app_assoc. cbn [app]. generalize (dec_digits (octet v 0)). generalize (dec (octet v 0)) as l.
        induction 1 as [|c l Hx _ IH]; [done|]. cbn. unfold dot, colon, percent in *. by rewrite !(proj2 (Z.eqb_neq _ _)) by lia. }
      unfold parse4. by rewrite (fields4_other colon) by (done || (apply elem_of_app; right; left)). }
    assert (colon ∉ ds) as Hcd by (intros Hin; rewrite Forall_forall in Hd; by specialize (Hd _ Hin)).
    assert (colon ∉ string4 v) as Hcv by (intros Hin; rewrite Forall_forall in Hc; by destruct (Hc _ Hin)).
    assert (SplitHostPort (string_of_bytes (string4 v ++ colon :: ds)) = Some (string_of_bytes (string4 v), string_of_bytes ds)) as ->.
    { unfold SplitHostPort. rewrite bytes_of_string_of_bytes by done. rewrite split_last_app by done. rewrite bind_Some_eq.
      assert (91 ∉ string4 v ++ colon :: ds) as H91 by (apply Hno; [reflexivity|unfold dot; lia|unfold colon; lia]).
      assert (93 ∉ string4 v ++ colon :: ds) as H93 by (apply Hno; [reflexivity|unfold dot; lia|unfold colon; lia]).
      rewrite (bool_decide_eq_false_2 _ Hcv), (bool_decide_eq_false_2 _ H91), (bool_decide_eq_false_2 _ H93). destruct (string4_head v) as (c & l & -> & Hc91). cbn [app orb].
      destruct c as [|c|c]; try done. do 7 (destruct c as [c|c|]; try done). }
    rewrite bind_Some_eq. unfold ParseAddr. rewrite bytes_of_string_of_bytes by done. by apply (parse_addr_bytes (Addr4 v)).
  - rewrite app_nil_r. unfold parse_any. by rewrite (ParseAddr_String (Addr4 v) Hv : ParseAddr (string_of_bytes (string4 v)) = _).
Qed.

Lemma replacement_string4 v port : 0 <= v < 2 ^ 32 -> port_digits port -> replacement (string4 v ++ port_text port) = trunc (Addr4 v).
Proof.
  intros Hv Hp. unfold replacement. destruct (string4_head v) as (c & l & E & Hc91).
  assert (match string4 v ++ port_text port with 91 :: m' => match split_at 93 m' with (h, Some _) => h | (_, None) => string4 v ++ port_text port end | _ => string4 v ++ port_text port end
          = string4 v ++ port_text port) as ->.
  { rewrite E. cbn [app]. destruct c as [|c|c]; try done. do 7 (destruct c as [c|c|]; try done). }
  unfold TruncIP. rewrite parse_any_string4 by done. assert (bytes_ok (trunc (Addr4 v)) /\ trunc (Addr4 v) <> []) as [Hb Hne].
  { cbn [trunc Unmap]. split; [|intros Hx; by apply dec_nonempty in Hx].
    assert (forall n, Forall byte_ok (dec n)) as Hd by (intros n; eapply Forall_impl; [apply dec_digits|]; unfold byte_ok; cbn; lia).
    unfold bytes_ok. repeat (apply Forall_app; split; [apply Hd|]; try (apply Forall_cons; split; [by vm_compute|])). repeat constructor; by vm_compute. }
  cbv zeta. destruct (String.eqb_spec (string_of_bytes (trunc (Addr4 v))) ""%string) as [Ee|_]; [|by apply bytes_of_string_of_bytes].
  exfalso. apply Hne. rewrite <- (bytes_of_string_of_bytes _ Hb), Ee. done.
Qed.

(** Text before the address: no digits and no brackets. *)
Definition plain (l : list Z) : Prop := Forall (fun c => Scan.is_digit c = false /\ c <> 91) l.

Lemma scrub_plain pre : forall fuel rest, plain pre -> scrub (length pre + fuel) (pre ++ rest) = pre ++ scrub fuel rest.
Proof.
  induction pre as [|c pre IH]; intros fuel rest Hp; [done|]. apply Forall_cons in Hp as [[Hd Hb] Hp]. cbn [length app Nat.add scrub].
  assert (address_at (c :: pre ++ rest) = None) as ->.
  { unfold address_at, octets_at. cbn [digits_upto]. rewrite Hd. rewrite bool_decide_eq_true_2 by done. unfold bracket_at.
    destruct c as [|c|c]; try done. do 7 (destruct c as [c|c|]; try done). }
  by rewrite IH.
Qed.

(** Matches are not empty, so more fuel than bytes changes nothing. *)
Lemma digits_upto_split n l : l = (digits_upto n l).1 ++ (digits_upto n l).2.
Proof.
  revert l. induction n as [|n IH]; intros [|c l]; try done. cbn [digits_upto]. destruct (Scan.is_digit c); [|done].
  rewrite (IH l) at 1. destruct (digits_upto n l) as [a b]. done.
Qed.
Lemma octets_at_shorter n l m rest : octets_at n l = Some (m, rest) -> (length rest < length l)%nat.
Proof.
  revert l m rest. induction n as [|n IH]; intros l m rest; unfold octets_at; fold octets_at; pose proof (digits_upto_split 3 l) as El;
    destruct (digits_upto 3 l) as [ds l']; cbn in El; subst l; case_bool_decide as Hds; try done; (destruct ds as [|d ds]; [done|]); cbn [app length]; rewrite length_app.
  - intros [= <- <-]. lia.
  - destruct l' as [|c l']; [done|]. destruct (decide (c = 46)) as [->|Hc].
    + intros ([m' r'] & Hm & [= <- <-])%bind_Some. apply IH in Hm. cbn [length]. lia.
    + destruct c as [|c|c]; try done. do 6 (destruct c as [c|c|]; try done).
Qed.
Lemma bracket_at_shorter l m rest : bracket_at l = Some (m, rest) -> (length rest < length l)%nat.
Proof.
  unfold bracket_at. destruct l as [|c l]; [done|]. destruct (decide (c = 91)) as [->|Hc]; [|destruct c as [|c|c]; try done; do 7 (destruct c as [c|c|]; try done)].
  pose proof (length_drop l (length (take_class l))) as Hl. destruct (drop (length (take_class l)) l) as [|x r]; [done|].
  destruct (decide (x = 93)) as [->|Hx]; [|destruct x as [|x|x]; try done; do 7 (destruct x as [x|x|]; try done)].
  case_bool_decide; [done|]. intros [= _ <-]. cbn [length] in *. lia.
Qed.
Lemma port_at_shorter l : (length (port_at l).2 <= length l)%nat.
Proof.
  unfold port_at. destruct l as [|c l]; [done|]. destruct (decide (c = 58)) as [->|Hc]; [|destruct c as [|c|c]; try done; do 6 (destruct c as [c|c|]; try done)].
  case_bool_decide; cbn [snd length]; [lia|]. rewrite length_drop. lia.
Qed.
Lemma address_at_shorter l m rest : address_at l = Some (m, rest) -> (length rest < length l)%nat.
Proof.
  unfold address_at. intros ([m1 r1] & Hm & Hr)%bind_Some. pose proof (port_at_shorter r1) as Hp. destruct (port_at r1) as [q r2]. injection Hr as _ <-. cbn in Hp.
  destruct (octets_at 3 l) as [[m2 r2']|] eqn:E; [injection Hm as <- <-; apply octets_at_shorter in E|apply bracket_at_shorter in Hm]; lia.
Qed.

Lemma scrub_fuel f1 : forall f2 l, (length l <= f1)%nat -> (length l <= f2)%nat -> scrub f1 l = scrub f2 l.
Proof.
  induction f1 as [|f1 IH]; intros [|f2] [|c l] H1 H2; cbn [length] in *; try done; try lia. cbn [scrub].
  destruct (address_at (c :: l)) as [[m rest]|] eqn:E; [apply address_at_shorter in E; cbn [length] in E|]; f_equal; apply IH; lia.
Qed.

(** Addresses in error texts are cut down to their networks.  An IPv4 address with
    or without a port, in a text, is replaced by its first three octets; the port is
    gone, and the text after it is treated the same way. *)
Theorem scrub_hides_address pre v port post :
  plain pre -> 0 <= v < 2 ^ 32 -> port_digits port -> port_ends port post ->
  let l := pre ++ string4 v ++ port_text port ++ post in
  scrub (length l) l = pre ++ trunc (Addr4 v) ++ scrub (length post) post.
Proof.
  intros Hpre Hv Hp He l. unfold l. rewrite length_app, scrub_plain by done. f_equal. set (a := string4 v ++ port_text port ++ post).
  destruct (string4_head v) as (c & r & E & _). assert (a = c :: r ++ port_text port ++ post) as Ea by (unfold a; by rewrite E).
  assert (address_at a = Some (string4 v ++ port_text port, post)) as Hm.
  { unfold address_at, a. rewrite octets_string4, bind_Some_eq, port_at_text by done || (destruct port as [ds|]; [by intros ? [= <-]|by destruct He]). done. }
  rewrite (scrub_fuel (length a) (S (length a)) a) by lia. assert (scrub (S (length a)) a = replacement (string4 v ++ port_text port) ++ scrub (length a) post) as ->.
  { generalize (length a) as n. intros n. rewrite Ea in Hm |- *. cbn [scrub]. by rewrite Hm. }
  rewrite replacement_string4 by done. f_equal. apply scrub_fuel; [|done]. unfold a. rewrite !length_app. lia.
Qed.

Lemma scrub_hides_address_witness :
  scrub_text "dial 192.0.2.7:80: refused" = scrub_text "dial 192.0.2.255:443: refused" /\
  let pre := bytes_of_string "dial " in let post := bytes_of_string ": refused" in
  let l := pre ++ string4 0xC0000207 ++ port_text (Some [56; 48]) ++ post in
  scrub (length l) l = pre ++ trunc (Addr4 0xC0000207) ++ scrub (length post) post.
Proof.
  split; [vm_compute; reflexivity|]. apply (scrub_hides_address (bytes_of_string "dial ") 0xC0000207 (Some [56; 48]) (bytes_of_string ": refused")).
  - repeat constructor; done.
  - lia.
  - split; [done|]. repeat constructor.
  - split; [|done]. by intros c [= <-].
Defined.
End Redact.
