(* ===== verification/Gather.v ===== *)
(** * Gather: the snapshot of the host's network

    [Gather] models how [src/internal/coexist] takes the snapshot that [Coexist]
    analyses: [gather_common.go], the parsers of [parse.go], and what
    [gather_linux.go], [gather_windows.go], [gather_darwin.go] and [gather_other.go]
    make of the kernel's answers and of the output of [netstat] and [netsh].  The
    answers and outputs are arguments.  The regular expressions are matched field by
    field: the class of a field is disjoint from the space that must follow it. *)
From Stdlib Require Import ZArith Lia Ascii Sorting.Sorted.
From stdpp Require Import base numbers list gmap strings sorting.
From S2P Require Import Prelude GoLib PeerTable AddrText Coexist Route Mdns Daemon.

Module Gather.
Import Strings Netip AddrText Coexist (Link, RouteEntry, Snapshot, l_Name, l_Kind, l_Addrs, r_Dst, r_Gw, r_Iface, r_Metric, r_Table, Links, Routes, prefix_ok).

(** ** Common parts *)

(** [net.IPNet] as the system reports it; [None] is nil. *)
Record IPNet := { n_IP : option (list Z); n_Mask : option (list Z) }.

(** [net.IPMask.Size]: the length of a mask, 0 for one that is not a run of ones. *)
Fixpoint leading_ones (n : nat) (v : Z) : Z :=
  match n with O => 0 | S n' => if Z.testbit v 7 then 1 + leading_ones n' (Z.land (Z.shiftl v 1) 255) else 0 end.
Fixpoint simpleMaskLength (m : list Z) : Z :=
  match m with
  | [] => 0
  | v :: m' =>
      if v =? 255 then let n := simpleMaskLength m' in if n =? -1 then -1 else 8 + n
      else let n := leading_ones 8 v in
           if (Z.land (Z.shiftl v n) 255 =? 0) && forallb (Z.eqb 0) m' then n else -1
  end.
Definition Mask_Size (m : list Z) : Z := let n := simpleMaskLength m in if n =? -1 then 0 else n.

Definition ipNetToPrefix (n : option IPNet) : option Prefix :=
  n ← n; ip ← n_IP n; mask ← n_Mask n;
  let ones := Mask_Size mask in
  addr ← Mdns.Mdns.AddrFromSlice (match Mdns.Mdns.To4 ip with Some v4 => v4 | None => ip end);
  if addr_valid addr then Some (Daemon.Daemon.PrefixFrom addr ones) else None.

(** [fmt.Sscanf] of a decimal [int]; what follows the number is not read. *)
Definition sscanf_int (l : list Z) : option Z :=
  let l := Scan.skip_space (length l) l in
  let '(neg, l) := match l with 43 :: l' => (false, l') | 45 :: l' => (true, l') | _ => (false, l) end in
  let ds := Scan.take_digits l in
  let v := if neg : bool then - Scan.dec_value ds else Scan.dec_value ds in
  if bool_decide (ds = []) then None else if (- 2 ^ 63 <=? v) && (v <? 2 ^ 63) then Some v else None.

(** Dots, and the zero octets that are added for those that are missing. *)
Definition dots (l : list Z) : nat := length (filter (fun c => c = dot) l).
Definition pad_octets (l : list Z) : list Z := l ++ mjoin (replicate (3 - dots l) [dot; 48]).

Definition ParseNetstatDst (s : string) (ipv6 : bool) : option Prefix :=
  let l := bytes_of_string s in
  if String.eqb s "default" then Some {| p_addr := if ipv6 then Addr6 0 "" else Addr4 0; p_bits := 0 |}
  else if bool_decide (slash ∈ l) then
    if bool_decide (colon ∈ l) then ParsePrefix s
    else
      match split_at slash l with
      | (a, Some b) => addr ← parse_addr (pad_octets a); bits ← sscanf_int b; Some (Daemon.Daemon.PrefixFrom addr bits)
      | (_, None) => None
      end
  else if negb (bool_decide (colon ∈ l)) && (dots l <? 3)%nat then
    addr ← parse_addr (pad_octets l);
    Some (Daemon.Daemon.PrefixFrom addr (match dots l with 0%nat => 8 | 1%nat => 16 | _ => 24 end))
  else
    addr ← parse_addr l;
    Some (Daemon.Daemon.PrefixFrom addr (match addr with Addr4 _ => 32 | _ => 128 end)).

(** The gateway column: a link or an interface is no next hop; the zone goes. *)
Definition gateway (gw : string) : Addr :=
  if has_prefix "link#" gw || String.eqb gw "iface" then AddrZero
  else default AddrZero (parse_addr (split_at percent (bytes_of_string gw)).1).

(** The links of [net.Interfaces]; an interface whose addresses cannot be read is
    left out, an address that is no [IPNet] is [None]. *)
Definition gatherLinks (ifaces : list (string * option (list (option IPNet)))) : list Link :=
  omap (fun '(name, addrs) => addrs ← addrs; Some {| l_Name := name; l_Kind := ""; l_Addrs := omap ipNetToPrefix addrs |}) ifaces.

(** ** Linux *)
Record nlLink := { nl_Index : Z; nl_Name : string; nl_Type : string; nl_Addrs : option (list (option IPNet)) }.
Record nlRoute := { nr_Dst : option IPNet; nr_Gw : option (list Z); nr_LinkIndex : Z; nr_Priority : Z; nr_Table : Z }.

Definition link_names (ls : list nlLink) : gmap Z string := foldl (fun m l => <[nl_Index l := nl_Name l]> m) ∅ ls.

Definition route_entry (idx : gmap Z string) (r : nlRoute) : option RouteEntry :=
  dst ← match nr_Dst r with
        | Some d => ipNetToPrefix (Some d)
        | None => Some {| p_addr := match nr_Gw r with
                                    | Some gw => match Mdns.Mdns.To4 gw with None => Addr6 0 "" | Some _ => Addr4 0 end
                                    | None => Addr4 0
                                    end; p_bits := 0 |}
        end;
  Some {| r_Dst := dst; r_Gw := default AddrZero (gw ← nr_Gw r; Mdns.Mdns.AddrFromSlice gw);
          r_Iface := default EmptyString (idx !! nr_LinkIndex r); r_Metric := nr_Priority r; r_Table := nr_Table r |}.

(** [None] for a list that cannot be read; the snapshot has the links all the same
    when only the routes are missing, and the flag says so. *)
Definition Observe (links : option (list nlLink)) (routes : option (list nlRoute)) : Snapshot * bool :=
  match links with
  | None => ({| Links := []; Routes := [] |}, false)
  | Some ls =>
      let links := omap (fun l => addrs ← nl_Addrs l; Some {| l_Name := nl_Name l; l_Kind := nl_Type l; l_Addrs := omap ipNetToPrefix addrs |}) ls in
      match routes with
      | None => ({| Links := links; Routes := [] |}, false)
      | Some rs => ({| Links := links; Routes := omap (route_entry (link_names ls)) rs |}, true)
      end
  end.

(** ** Fields of a line *)

(** The space of regular expressions. *)
Definition re_space (c : Z) : bool := (c =? 9) || (c =? 10) || (c =? 12) || (c =? 13) || (c =? 32).
Fixpoint take_while (f : Z -> bool) (l : list Z) : list Z * list Z :=
  match l with
  | c :: l' => if f c then let '(a, b) := take_while f l' in (c :: a, b) else ([], l)
  | [] => ([], [])
  end.
(** One or more of a class. *)
Definition many1 (f : Z -> bool) (l : list Z) : option (list Z * list Z) :=
  let '(a, b) := take_while f l in if bool_decide (a = []) then None else Some (a, b).
Definition word (l : list Z) : option (list Z * list Z) := many1 (fun c => negb (re_space c)) l.
Definition space1 (l : list Z) : option (list Z) := '(_, b) ← many1 re_space l; Some b.
Definition number (l : list Z) : option (list Z * list Z) := many1 Scan.is_digit l.
Definition alnum (c : Z) : bool := Scan.is_digit c || ((65 <=? c) && (c <=? 90)) || ((97 <=? c) && (c <=? 122)).

(** Space and then the rest of the line, which is not empty: the space gives a byte
    back when nothing follows it. *)
Definition tail_of (l : list Z) : option (list Z) :=
  '(sp, rest) ← many1 re_space l;
  match rest with
  | [] => if (1 <? length sp)%nat then Some (drop (length sp - 1) sp) else None
  | _ => Some rest
  end.

(** [strings.Fields]. *)
Definition spaces : list (list Z) := [10] :: Scan.space_runes.
Fixpoint fields_of (fuel : nat) (l word : list Z) : list (list Z) :=
  let done := match word with [] => [] | _ => [word] end in
  match fuel, l with
  | S f, c :: l' =>
      match filter (fun p => take (length p) l = p) spaces with
      | p :: _ => done ++ fields_of f (drop (length p) l) []
      | [] => fields_of f l' (word ++ [c])
      end
  | _, _ => done
  end.
Definition Fields (s : string) : list string := let l := bytes_of_string s in map string_of_bytes (fields_of (length l) l []).

Definition lines (out : string) : list string := split_on (Ascii.ascii_of_nat 10) out.

(** ** macOS: [netstat -rn] *)
Inductive family := famNone | famIPv4 | famIPv6.

(** Headings set the family; [None] for the other lines. *)
Definition heading (line : string) : option (option family) :=
  if has_prefix "Internet:" line then Some (Some famIPv4)
  else if has_prefix "Internet6:" line then Some (Some famIPv6)
  else if String.eqb line "" || has_prefix "Routing" line || has_prefix "Destination" line then Some None
  else None.

(** Destination, gateway, flags and interface. *)
Definition darwin_fields (line : string) : option (string * string * string) :=
  '(dst, l) ← word (bytes_of_string line); l ← space1 l;
  '(gw, l) ← word l; l ← space1 l;
  '(_, l) ← many1 alnum l; l ← space1 l;
  '(ifn, _) ← word l;
  Some (string_of_bytes dst, string_of_bytes gw, string_of_bytes ifn).

Definition darwin_row (v6 : bool) (line : string) : option RouteEntry :=
  '(dst, gw, ifn) ← darwin_fields line;
  d ← ParseNetstatDst dst v6;
  Some {| r_Dst := d; r_Gw := gateway gw; r_Iface := ifn; r_Metric := 0; r_Table := 254 |}.

Fixpoint darwin_lines (fam : family) (ls : list string) : list RouteEntry :=
  match ls with
  | [] => []
  | line :: ls' =>
      let line := Scan.TrimSpace line in
      match heading line with
      | Some f => darwin_lines (default fam f) ls'
      | None =>
          let row := match fam with famNone => None | famIPv4 => darwin_row false line | famIPv6 => darwin_row true line end in
          match row with Some r => r :: darwin_lines fam ls' | None => darwin_lines fam ls' end
      end
  end.
Definition parseDarwinNetstat (out : string) : list RouteEntry := darwin_lines famNone (lines out).

(** ** Windows: [netsh] *)
Definition skip_re_space (l : list Z) : list Z := (take_while re_space l).2.

Definition netsh_row (line : string) : option RouteEntry :=
  let l := skip_re_space (bytes_of_string line) in
  '(_, l) ← word l; l ← space1 l;
  '(_, l) ← word l; l ← space1 l;
  '(met, l) ← number l; l ← space1 l;
  '(dst, l) ← word l; l ← space1 l;
  '(idx, l) ← number l;
  rest ← tail_of l;
  d ← ParsePrefix (string_of_bytes dst);
  Some {| r_Dst := d; r_Gw := default AddrZero (ParseAddr (Scan.TrimSpace (string_of_bytes rest)));
          r_Iface := ("if" ++ string_of_bytes idx)%string; r_Metric := default 0 (sscanf_int met); r_Table := 254 |}.
Definition parseNetshRoutes (out : string) : list RouteEntry := omap netsh_row (lines out).

Definition netsh_interface (line : string) : option (string * string) :=
  let l := skip_re_space (bytes_of_string line) in
  '(idx, l) ← number l; l ← space1 l;
  '(_, l) ← number l; l ← space1 l;
  '(_, l) ← number l; l ← space1 l;
  '(_, l) ← word l;
  name ← tail_of l;
  Some (string_of_bytes idx, Scan.TrimSpace (string_of_bytes name)).
Definition parseNetshInterfaces (out : string) : gmap string string :=
  foldl (fun m line => match netsh_interface line with Some (i, n) => <[i := n]> m | None => m end) ∅ (lines out).

(** The names of IPv4 win; an output that cannot be had is [None]. *)
Definition buildIfIndexToName (v4 v6 : option string) : gmap string string :=
  default ∅ (parseNetshInterfaces <$> v4) ∪ default ∅ (parseNetshInterfaces <$> v6).

Definition rename (names : gmap string string) (r : RouteEntry) : RouteEntry :=
  let idx := if has_prefix "if" (r_Iface r) then drop_str 2 (r_Iface r) else r_Iface r in
  match names !! idx with
  | Some n => if String.eqb n "" then r
              else {| r_Dst := r_Dst r; r_Gw := r_Gw r; r_Iface := n; r_Metric := r_Metric r; r_Table := r_Table r |}
  | None => r
  end.

(** [gatherRoutes] of Windows: the outputs for both families. *)
Definition gatherRoutes_windows (v4 v6 : option string) (names : gmap string string) : option (list RouteEntry) :=
  a ← v4; b ← v6; Some (map (rename names) (parseNetshRoutes a ++ parseNetshRoutes b)).

(** ** Other systems *)

(** The insertion sort: an element moves left past the shorter ones. *)
Fixpoint insert_by_len (s : string) (l : list string) : list string :=
  match l with
  | [] => [s]
  | x :: l' => if (String.length x <? String.length s)%nat then s :: l else x :: insert_by_len s l'
  end.
Definition sortStringsByLenDesc (l : list string) : list string := foldl (fun acc s => insert_by_len s acc) [] l.

Fixpoint matchIfaceName (line : string) (sortedNames : list string) : string :=
  match sortedNames with
  | [] => ""
  | n :: ns => if bool_decide (n ∈ Fields line) then n else matchIfaceName line ns
  end.

Definition other_row (v6 : bool) (names : list string) (line : string) : option RouteEntry :=
  match Fields line with
  | dst :: gw :: _ :: _ =>
      d ← ParseNetstatDst dst v6;
      Some {| r_Dst := d; r_Gw := gateway gw; r_Iface := matchIfaceName line names; r_Metric := 0; r_Table := 254 |}
  | _ => None
  end.
Fixpoint other_lines (v6 : bool) (names : list string) (ls : list string) : list RouteEntry :=
  match ls with
  | [] => []
  | line :: ls' =>
      let line := Scan.TrimSpace line in
      match heading line with
      | Some (Some f) => other_lines (match f with famIPv6 => true | _ => false end) names ls'
      | Some None => other_lines v6 names ls'
      | None => match other_row v6 names line with Some r => r :: other_lines v6 names ls' | None => other_lines v6 names ls' end
      end
  end.
Definition gatherRoutes_other (links : list Link) (out : string) : list RouteEntry :=
  other_lines false (sortStringsByLenDesc (filter (fun n => n <> EmptyString) (map l_Name links))) (lines out).

Definition unlines (ls : list string) : string := string_of_bytes (mjoin (map (fun l => bytes_of_string l ++ [10]) ls)).
Definition entry (dst gw ifn : string) (metric : Z) : option RouteEntry :=
  d ← ParsePrefix dst; Some {| r_Dst := d; r_Gw := default AddrZero (ParseAddr gw); r_Iface := ifn; r_Metric := metric; r_Table := 254 |}.

Example darwin_sample :
  map Some (parseDarwinNetstat (unlines ["Routing tables"; ""; "Internet:"; "Destination        Gateway            Flags        Netif Expire";
    "default            192.168.1.1        UGSc           en0"; "10.100.0/24        10.100.0.1         UGSc          utun0";
    "127                127.0.0.1          UCS            lo0"; "192.168.1.7        link#6             UHLWIi         en0"; "";
    "Internet6:"; "Destination        Gateway            Flags         Netif Expire"; "default            fe80::1%en0         UGcI           en0";
    "fd00::/8           fd00::1             UGcI          utun0"]%string)) =
  [entry "0.0.0.0/0" "192.168.1.1" "en0" 0; entry "10.100.0.0/24" "10.100.0.1" "utun0" 0; entry "127.0.0.0/8" "127.0.0.1" "lo0" 0;
   entry "192.168.1.7/32" "" "en0" 0; entry "::/0" "fe80::1" "en0" 0; entry "fd00::/8" "fd00::1" "utun0" 0].
Proof. vm_compute. reflexivity. Qed.

Example netsh_sample :
  let names := buildIfIndexToName (Some (unlines ["Idx     Met         MTU          State                Name"; "---  ----------  ----------  ------------  -------------------------";
    "  1          75  4294967295  connected       Loopback Pseudo-Interface 1"; " 14          25        1500  connected       Ethernet"]%string)) None in
  map Some (default [] (gatherRoutes_windows (Some (unlines ["Publish  Type       Met   Prefix                    Idx   Gateway/Interface Name";
    "-------  --------   ----  ------------------------  ---   ------------------------"; "   No    System     256   0.0.0.0/0                  14   192.168.1.1";
    "   No    System     256   10.100.0.0/24              14   Ethernet"; "   No    System     256   127.0.0.0/8                 1   Loopback Pseudo-Interface 1"]%string)) (Some "") names)) =
  [entry "0.0.0.0/0" "192.168.1.1" "Ethernet" 256; entry "10.100.0.0/24" "" "Ethernet" 256; entry "127.0.0.0/8" "" "Loopback Pseudo-Interface 1" 256].
Proof. vm_compute. reflexivity. Qed.

Example other_sample :
  map Some (gatherRoutes_other [{| l_Name := "em0"; l_Kind := ""; l_Addrs := [] |}; {| l_Name := "tun0"; l_Kind := ""; l_Addrs := [] |}]
    (unlines ["Internet:"; "Destination Gateway Flags Refs Use Mtu Prio Iface"; "default 192.168.1.1 UGS 8 1009 - 8 em0"; "10.100.0.0/24 10.100.0.1 UGS 0 0 - 8 tun0"]%string)) =
  [entry "0.0.0.0/0" "192.168.1.1" "em0" 0; entry "10.100.0.0/24" "10.100.0.1" "tun0" 0].
Proof. vm_compute. reflexivity. Qed.

(** A length that is too long gives a route without a destination, not an error; a
    zone in a prefix, which macOS prints for link-local networks, loses the route. *)
Example long_length : ParseNetstatDst "10/99" false = Some {| p_addr := Addr4 0x0A000000; p_bits := -1 |}. Proof. vm_compute. reflexivity. Qed.
Example zone_prefix : ParseNetstatDst "fe80::%lo0/64" true = None. Proof. vm_compute. reflexivity. Qed.

(** ** Masks *)

(** [net.CIDRMask]. *)
Fixpoint cidr_bytes (l : nat) (n : Z) : list Z :=
  match l with
  | O => []
  | S l' => if 8 <=? n then 255 :: cidr_bytes l' (n - 8) else (255 - Z.shiftr 255 n) :: cidr_bytes l' 0
  end.

Lemma Mask_Size_cidr l n : (l = 4%nat \/ l = 16%nat) -> 0 <= n <= 8 * Z.of_nat l -> Mask_Size (cidr_bytes l n) = n.
Proof.
  intros Hl Hn. assert (forallb (fun n => Mask_Size (cidr_bytes 4 n) =? n) (seqZ 0 33) = true) as H4 by (vm_compute; reflexivity).
  assert (forallb (fun n => Mask_Size (cidr_bytes 16 n) =? n) (seqZ 0 129) = true) as H16 by (vm_compute; reflexivity).
  rewrite forallb_forall in H4, H16. destruct Hl as [->| ->]; apply Z.eqb_eq; [apply H4|apply H16]; apply list_elem_of_In, elem_of_seqZ; lia.
Qed.

(** What the kernel is told of a prefix, as it reports it. *)
Definition reported (n : Route.Route.IPNet) : IPNet :=
  {| n_IP := Some (Route.Route.ip n); n_Mask := match Route.Route.ones n with Some o => Some (cidr_bytes (length (Route.Route.ip n)) o) | None => None end |}.

Lemma be_put_take n m v : take n (be_put (n + m) v) = be_put n (v / 256 ^ Z.of_nat m).
Proof.
  induction n as [|n IH]; [done|]. cbn [Nat.add be_put take]. rewrite IH. f_equal. rewrite Nat2Z.inj_add, Z.add_comm, Z.pow_add_r by lia.
  by rewrite Z.div_div by lia.
Qed.

Lemma To4_unmapped v : 0 <= v < 2 ^ 128 -> is4in6 v = false -> Mdns.Mdns.To4 (be_put 16 v) = None.
Proof.
  intros Hv Hm. unfold Mdns.Mdns.To4. rewrite length_be_put. cbn [Nat.eqb andb]. rewrite bool_decide_eq_false_2; [done|]. intros E.
  pose proof (be_put_take 12 4 v) as Et. change (12 + 4)%nat with 16%nat in Et. rewrite Et in E. change (zeros 10 ++ [255; 255]) with (be_put 12 0xFFFF) in E.
  apply be_put_inj in E; [|split; [apply Z.div_pos; lia|apply Z.div_lt_upper_bound; lia]|lia].
  unfold is4in6 in Hm. rewrite Z.shiftr_div_pow2 in Hm by lia. change (256 ^ Z.of_nat 4) with (2 ^ 32) in E. rewrite E in Hm. done.
Qed.

(** A route that the manager installed is seen under its prefix. *)
Theorem installed_route_seen p : prefix_ok p -> Route.Route.Is4In6 (p_addr (Masked p)) = false ->
  ipNetToPrefix (Some (reported (Route.Route.prefixToIPNet p))) = Some (Masked p).
Proof.
  intros Hp Hm. destruct (Coexist.Coexist.masked_ok p Hp) as ([(Hz & Hzone & Hv) Hb] & Eb & _). unfold Route.Route.prefixToIPNet. rewrite (Coexist.Coexist.prefix_ok_valid p Hp).
  destruct (Masked p) as [a bits]. cbn [p_addr p_bits] in *. subst bits. destruct a as [|v|v z]; [done|..]; cbn [bit_len addr_val has_zone] in *.
  - unfold Route.Route.CIDRMask. rewrite (proj2 (Z.leb_le 0 _)), (proj2 (Z.leb_le _ 32)) by lia. unfold ipNetToPrefix, reported.
    cbn [Route.Route.ip Route.Route.ones n_IP n_Mask andb]. rewrite length_be_put. repeat (rewrite bind_Some_eq; cbn [n_IP n_Mask]).
        rewrite Mask_Size_cidr by (auto || lia). unfold Mdns.Mdns.To4. rewrite length_be_put. cbn [Nat.eqb]. unfold Mdns.Mdns.AddrFromSlice. rewrite length_be_put. cbn [Nat.eqb].
    rewrite bind_Some_eq. unfold AddrFrom4. rewrite be_get_put, Z.mod_small by lia. cbn [addr_valid]. unfold Daemon.Daemon.PrefixFrom. cbn [addr_valid bit_len andb].
    by rewrite (proj2 (Z.leb_le 0 _)), (proj2 (Z.leb_le _ 32)) by lia.
  - unfold Route.Route.CIDRMask. rewrite (proj2 (Z.leb_le 0 _)), (proj2 (Z.leb_le _ 128)) by lia. unfold ipNetToPrefix, reported.
    cbn [Route.Route.ip Route.Route.ones n_IP n_Mask andb addr_val]. rewrite length_be_put. repeat (rewrite bind_Some_eq; cbn [n_IP n_Mask]).
    rewrite Mask_Size_cidr by (auto || lia). rewrite To4_unmapped by done. unfold Mdns.Mdns.AddrFromSlice. rewrite length_be_put. cbn [Nat.eqb].
    rewrite bind_Some_eq. unfold AddrFrom16. rewrite be_get_put, Z.mod_small by lia. cbn [addr_valid]. unfold Daemon.Daemon.PrefixFrom. cbn [addr_valid bit_len andb].
    rewrite (proj2 (Z.leb_le 0 _)), (proj2 (Z.leb_le _ 128)) by lia. destruct (String.eqb_spec z ""%string) as [->|]; done.
Qed.

Lemma installed_route_seen_witness :
  let p := {| p_addr := Addr4 0x0A010203; p_bits := 16 |} in ipNetToPrefix (Some (reported (Route.Route.prefixToIPNet p))) = Some (Masked p).
Proof. apply (installed_route_seen {| p_addr := Addr4 0x0A010203; p_bits := 16 |}); [unfold prefix_ok, Coexist.Coexist.addr_ok; cbn; split_and!; (done || lia)|reflexivity]. Defined.

(** ** Rows of a table *)
Lemma take_while_app f a b : Forall (fun c => f c = true) a -> (forall c, head b = Some c -> f c = false) -> take_while f (a ++ b) = (a, b).
Proof.
  induction 1 as [|c a Hc _ IH]; intros Hb; cbn [app take_while].
  - destruct b as [|c b]; [done|]. cbn. by rewrite (Hb c eq_refl).
  - by rewrite Hc, (IH Hb).
Qed.
Lemma many1_app f a b : a <> [] -> Forall (fun c => f c = true) a -> (forall c, head b = Some c -> f c = false) -> many1 f (a ++ b) = Some (a, b).
Proof. intros Ha Hf Hb. unfold many1. rewrite take_while_app by done. by rewrite bool_decide_eq_false_2. Qed.

Definition is_word (l : list Z) : Prop := l <> [] /\ Forall (fun c => re_space c = false) l.
Definition is_gap (l : list Z) : Prop := l <> [] /\ Forall (fun c => re_space c = true) l.
Definition is_number (l : list Z) : Prop := l <> [] /\ Forall (fun c => Scan.is_digit c = true) l.
Definition starts (f : Z -> bool) (l : list Z) : Prop := exists c r, l = c :: r /\ f c = true.

Lemma digit_no_space c : Scan.is_digit c = true -> re_space c = false.
Proof. unfold Scan.is_digit, re_space. intros Hc. bool_to_prop. rewrite !(proj2 (Z.eqb_neq _ _)) by lia. done. Qed.
Lemma is_number_word l : is_number l -> is_word l.
Proof. intros [Hn Hd]. split; [done|]. eapply Forall_impl; [exact Hd|]. apply digit_no_space. Qed.
Lemma is_word_head l : is_word l -> forall c, head l = Some c -> re_space c = false.
Proof. intros [_ Hw] c Hc. destruct l as [|x l]; [done|]. injection Hc as ->. by apply Forall_cons in Hw as [? _]. Qed.
Lemma is_gap_head l r : is_gap l -> forall c, head (l ++ r) = Some c -> re_space c = true.
Proof. intros [Hn Hg] c Hc. destruct l as [|x l]; [done|]. injection Hc as ->. by apply Forall_cons in Hg as [? _]. Qed.

(** A field and the space after it. *)
Lemma word_gap w g r : is_word w -> is_gap g -> word (w ++ g ++ r) = Some (w, g ++ r).
Proof.
  intros [Hw Hf] Hg. unfold word. apply many1_app; [done| |intros c Hc; by rewrite (is_gap_head _ _ Hg c Hc)].
  eapply Forall_impl; [exact Hf|]. by intros c ->.
Qed.
Lemma number_gap n g r : is_number n -> is_gap g -> number (n ++ g ++ r) = Some (n, g ++ r).
Proof.
  intros [Hn Hf] Hg. unfold number. apply many1_app; [done..|]. intros c Hc. apply (is_gap_head _ _ Hg) in Hc. destruct (Scan.is_digit c) eqn:E; [|done].
  apply digit_no_space in E. congruence.
Qed.
Lemma space_word g w r : is_gap g -> is_word w -> space1 (g ++ w ++ r) = Some (w ++ r).
Proof.
  intros [Hg Hf] Hw. unfold space1. rewrite many1_app; [done..|]. intros c Hc. destruct Hw as [Hn Hw]. destruct w as [|x w]; [done|]. injection Hc as ->.
  by apply Forall_cons in Hw as [? _].
Qed.
Lemma tail_word g w r : is_gap g -> is_word w -> tail_of (g ++ w ++ r) = Some (w ++ r).
Proof.
  intros [Hg Hf] [Hn Hw]. unfold tail_of. destruct w as [|x w]; [done|]. rewrite many1_app; [|done..|].
  - done.
  - intros c [= ->]. by apply Forall_cons in Hw as [? _].
Qed.

(** A row of [netsh interface ip show route]: its columns and the space between them.
    The last column may have several words. *)
Record netsh_text := {
  x_lead : list Z; x_publish : list Z; x_type : list Z; x_metric : Z; x_prefix : Prefix; x_index : list Z;
  x_last : list Z; x_more : list Z; x_gaps : list Z * list Z * list Z * list Z * list Z
}.
Definition row_text (x : netsh_text) : list Z :=
  let '(g1, g2, g3, g4, g5) := x_gaps x in
  x_lead x ++ x_publish x ++ g1 ++ x_type x ++ g2 ++ dec (x_metric x) ++ g3 ++
  bytes_of_string (prefix_string (x_prefix x)) ++ g4 ++ x_index x ++ g5 ++ x_last x ++ x_more x.
Record row_ok (x : netsh_text) : Prop := {
  xo_lead : Forall (fun c => re_space c = true) (x_lead x);
  xo_publish : is_word (x_publish x);
  xo_type : is_word (x_type x);
  xo_metric : 0 <= x_metric x < 2 ^ 63;
  xo_prefix : prefix4_ok (x_prefix x);
  xo_index : is_number (x_index x);
  xo_last : is_word (x_last x);
  xo_bytes : bytes_ok (row_text x);
  xo_gaps : let '(g1, g2, g3, g4, g5) := x_gaps x in is_gap g1 /\ is_gap g2 /\ is_gap g3 /\ is_gap g4 /\ is_gap g5
}.
Definition row_entry (x : netsh_text) : RouteEntry :=
  {| r_Dst := x_prefix x; r_Gw := default AddrZero (ParseAddr (Scan.TrimSpace (string_of_bytes (x_last x ++ x_more x))));
     r_Iface := ("if" ++ string_of_bytes (x_index x))%string; r_Metric := x_metric x; r_Table := 254 |}.

Lemma dec_number n : is_number (dec n).
Proof.
  split; [rewrite <- (app_nil_r (dec n)); apply dec_nonempty|]. eapply Forall_impl; [apply dec_digits|]. cbn. unfold Scan.is_digit. intros c Hc.
  by rewrite (proj2 (Z.leb_le 48 c)), (proj2 (Z.leb_le c 57)) by lia.
Qed.

Lemma prefix_text_word p : prefix4_ok p -> is_word (bytes_of_string (prefix_string p)).
Proof.
  intros Hp. unfold prefix_string. rewrite (prefix4_valid p Hp). destruct Hp as [Ha Hb]. destruct (p_addr p) as [|v|] eqn:E; try done. cbn [addr_bytes].
  rewrite bytes_of_string_of_bytes.
  - split; [intros Hx; by apply app_eq_nil in Hx as [_ Hx]|]. assert (forall n, Forall (fun c => re_space c = false) (dec n)) as Hd by (intros n; apply is_number_word, dec_number).
    unfold string4. rewrite <- !app_assoc. cbn [app]. rewrite <- !app_assoc. cbn [app]. rewrite <- !app_assoc. cbn [app].
    repeat (apply Forall_app; split; [apply Hd|]; apply Forall_cons; split; [done|]). apply Hd.
  - apply Forall_app. split; [apply string4_bytes_ok|]. apply Forall_cons. split; [done|]. eapply Forall_impl; [apply dec_digits|]. unfold byte_ok. cbn. lia.
Qed.

Lemma sscanf_int_dec n : 0 <= n < 2 ^ 63 -> sscanf_int (dec n) = Some n.
Proof.
  intros Hn. destruct (dec_number n) as [Hne Hd]. unfold sscanf_int. destruct (dec n) as [|c l] eqn:E; [done|]. apply Forall_cons in Hd as Hcd. destruct Hcd as [Hc _].
  rewrite Scan.skip_space_digit by done. assert ((match c :: l with 43 :: l' => (false, l') | 45 :: l' => (true, l') | _ => (false, c :: l) end) = (false, c :: l)) as ->.
  { destruct c as [|c|c]; try done. do 6 (destruct c as [c|c|]; try done). }
  rewrite Scan.take_digits_all by done. rewrite bool_decide_eq_false_2 by done. rewrite <- E.
  assert (Scan.dec_value (dec n) = n) as ->.
  { pose proof (digits_value 20 n [] ltac:(cbn; lia) ltac:(lia)) as Hx. exact Hx. }
  rewrite (proj2 (Z.leb_le _ _)), (proj2 (Z.ltb_lt _ _)) by lia. done.
Qed.

(** Every row of the table is read. *)
Lemma netsh_row_read x : row_ok x -> netsh_row (string_of_bytes (row_text x)) = Some (row_entry x).
Proof.
  intros [Hl Hp Ht Hm Hpf Hi Hla Hb Hg]. unfold netsh_row. rewrite bytes_of_string_of_bytes by done. unfold row_text in *. destruct (x_gaps x) as [[[[g1 g2] g3] g4] g5].
  destruct Hg as (H1 & H2 & H3 & H4 & H5). pose proof (prefix_text_word _ Hpf) as Hpw. pose proof (dec_number (x_metric x)) as Hdn.
  unfold skip_re_space. rewrite take_while_app; [|done|].
  2: { intros c Hc. destruct Hp as [Hne Hpp]. destruct (x_publish x) as [|y pb]; [done|]. injection Hc as ->. by apply Forall_cons in Hpp as [? _]. }
  cbn [snd]. rewrite word_gap, bind_Some_eq, space_word, bind_Some_eq by done. rewrite word_gap, bind_Some_eq by done.
  rewrite space_word, bind_Some_eq by (done || by apply is_number_word). rewrite number_gap, bind_Some_eq by done. rewrite space_word, bind_Some_eq by done.
  rewrite word_gap, bind_Some_eq by done. rewrite space_word, bind_Some_eq by (done || by apply is_number_word). rewrite number_gap, bind_Some_eq by done.
  rewrite tail_word, bind_Some_eq by done. rewrite string_of_bytes_of_string, ParsePrefix_String, bind_Some_eq by done. rewrite sscanf_int_dec by done. done.
Qed.

(** A table of [netsh] is read row by row: the lines that are rows give their routes,
    in order, and the others, such as the headings, give none. *)
Theorem netsh_table_read out (ls : list (string + netsh_text)) :
  lines out = map (fun l => match l with inl s => s | inr x => string_of_bytes (row_text x) end) ls ->
  Forall (fun l => match l with inl s => netsh_row s = None | inr x => row_ok x end) ls ->
  parseNetshRoutes out = omap (fun l => match l with inl _ => None | inr x => Some (row_entry x) end) ls.
Proof.
  intros E Hf. unfold parseNetshRoutes. rewrite E. clear E. induction Hf as [|l ls Hl _ IH]; [done|]. cbn [map omap list_omap]. destruct l as [s|x].
  - by rewrite Hl, IH.
  - by rewrite netsh_row_read, IH.
Qed.

Definition demo_row : netsh_text :=
  {| x_lead := [32; 32]; x_publish := bytes_of_string "No"; x_type := bytes_of_string "System"; x_metric := 256; x_prefix := {| p_addr := Addr4 0x0A640000; p_bits := 24 |};
     x_index := bytes_of_string "14"; x_last := bytes_of_string "Loopback"; x_more := bytes_of_string " Pseudo-Interface 1"; x_gaps := ([32; 32], [32], [9], [32; 32; 32], [32]) |}.
Lemma demo_row_ok : row_ok demo_row.
Proof.
  assert (forall (f : Z -> bool) l, forallb f l = true -> Forall (fun c => f c = true) l) as Hf by (intros f l Hl; apply Forall_forall; intros c Hc; rewrite forallb_forall in Hl; by apply Hl, list_elem_of_In).
  assert (forall l, forallb (fun c => negb (re_space c)) l = true -> Forall (fun c => re_space c = false) l) as Hw.
  { intros l Hl. eapply Forall_impl; [exact (Hf _ _ Hl)|]. cbn. intros c Hc. by apply negb_true_iff in Hc. }
  split.
  - by apply Hf.
  - split; [done|]. by apply Hw.
  - split; [done|]. by apply Hw.
  - done.
  - split; cbn; lia.
  - split; [done|]. by apply Hf.
  - split; [done|]. by apply Hw.
  - unfold bytes_ok. eapply Forall_impl; [apply (Hf (fun c => (0 <=? c) && (c <? 256))); vm_compute; reflexivity|]. cbn. intros c Hc. unfold byte_ok. bool_to_prop. lia.
  - cbn. split_and!; (split; [done|by apply Hf]).
Qed.

Lemma netsh_table_read_witness :
  let out := string_of_bytes (bytes_of_string "Publish  Type  Met  Prefix  Idx  Gateway/Interface Name" ++ 10 :: row_text demo_row) in
  parseNetshRoutes out = [row_entry demo_row].
Proof.
  apply (netsh_table_read _ [inl "Publish  Type  Met  Prefix  Idx  Gateway/Interface Name"%string; inr demo_row]); [vm_compute; reflexivity|].
  constructor; [vm_compute; reflexivity|]. constructor; [apply demo_row_ok|constructor].
Defined.

(** ** Interface names *)
Definition longer (a b : string) : Prop := (String.length b <= String.length a)%nat.

Lemma insert_perm s l : insert_by_len s l ≡ₚ s :: l.
Proof. induction l as [|x l IH]; [done|]. cbn [insert_by_len]. destruct (_ <? _)%nat; [done|]. rewrite IH. apply Permutation_swap. Qed.
Lemma insert_sorted s l : Sorted longer l -> Sorted longer (insert_by_len s l).
Proof.
  induction 1 as [|x l Hs IH Hh]; cbn [insert_by_len]; [by repeat constructor|]. destruct (Nat.ltb_spec (String.length x) (String.length s)) as [Hlt|Hge].
  - repeat constructor; try done. unfold longer. lia.
  - constructor; [done|]. destruct l as [|y l]; cbn [insert_by_len]; [by constructor|]. inversion Hh; subst. destruct (_ <? _)%nat; by constructor.
Qed.

(** The names are sorted, the longest first. *)
Lemma sortStringsByLenDesc_spec l : Sorted longer (sortStringsByLenDesc l) /\ sortStringsByLenDesc l ≡ₚ l.
Proof.
  unfold sortStringsByLenDesc. assert (forall acc, Sorted longer acc -> Sorted longer (foldl (fun acc s => insert_by_len s acc) acc l) /\
    foldl (fun acc s => insert_by_len s acc) acc l ≡ₚ acc ++ l) as Hg; [|apply Hg; constructor].
  induction l as [|s l IH]; intros acc Ha; cbn [foldl]; [by rewrite app_nil_r|]. destruct (IH (insert_by_len s acc) (insert_sorted s acc Ha)) as [H1 H2]. split; [done|].
  rewrite H2, insert_perm. cbn [app]. apply Permutation_middle.
Qed.

(** What the interface of a line should be, among the names [L]. *)
Definition longest_in (line : string) (L : list string) (n : string) : Prop :=
  (n = EmptyString /\ (forall m, m ∈ L -> m ∉ Fields line) \/ n ∈ L /\ n ∈ Fields line) /\
  forall m, m ∈ L -> m ∈ Fields line -> (String.length m <= String.length n)%nat.

Lemma matchIfaceName_sorted line L : StronglySorted longer L -> longest_in line L (matchIfaceName line L).
Proof.
  induction 1 as [|n ns Hs IH Hf]; cbn [matchIfaceName].
  - split; [left; split; [done|]|]; by intros m ?%not_elem_of_nil.
  - case_bool_decide as Hn.
    + split; [right; split; [by left|done]|]. intros m [->|Hin]%elem_of_cons _; [done|]. rewrite Forall_forall in Hf. by apply Hf.
    + destruct IH as [IH1 IH2]. split.
      * destruct IH1 as [[-> IH1]|[IH1 IH3]]; [left; split; [done|]|right; split; [by right|done]]. intros m [->|Hin]%elem_of_cons; [done|by apply IH1].
      * intros m [->|Hin]%elem_of_cons Hmf; [done|by apply IH2].
Qed.

(** The interface of a line is a known name that stands in it, and no other known
    name that stands in it is longer. *)
Theorem matchIfaceName_longest line names : longest_in line names (matchIfaceName line (sortStringsByLenDesc names)).
Proof.
  destruct (sortStringsByLenDesc_spec names) as [Hs Hp]. apply Sorted_StronglySorted in Hs; [|intros a b c; unfold longer; lia].
  set (L := sortStringsByLenDesc names) in *. clearbody L. destruct (matchIfaceName_sorted line L Hs) as [H1 H2].
  assert (forall m, m ∈ names <-> m ∈ L) as Hm by (intros m; by rewrite Hp). split; [|intros m Hin; by apply H2, Hm].
  destruct H1 as [[E H1]|[H1 H3]]; [left; split; [done|]; intros m Hin; by apply H1, Hm|right; split; [by apply Hm|done]].
Qed.
End Gather.
