(* ===== verification/Cli.v ===== *)
(** * Cli: the command line

    [Cli] models [src/cmd/veld/main.go]: where the configuration is, how it is read and
    written, and what [login], [join], [up], [down] and [tofu] do with it, over
    [Config], [Daemon] and [Tofu].  The file system is a map from paths to files; what a
    system call answers, the standard input, the environment and the authorization
    service are arguments.  What is printed is the outcome. *)
From Stdlib Require Import ZArith Lia Ascii.
From stdpp Require Import base numbers list gmap strings.
From S2P Require Import Prelude GoLib PeerTable AddrText Config Tofu Daemon.

Module Cli.
Import Strings AddrText.
Local Open Scope veld_scope.

(** ** Paths: [filepath] on Unix *)
Fixpoint join_with (sep : string) (l : list string) : string :=
  match l with [] => "" | [x] => x | x :: l' => (x ++ sep ++ join_with sep l')%string end.

(** The components of a path; [stack] has the ones kept, the last first. *)
Fixpoint clean_parts (rooted : bool) (stack parts : list string) : list string :=
  match parts with
  | [] => reverse stack
  | x :: parts' =>
      if String.eqb x "" || String.eqb x "." then clean_parts rooted stack parts'
      else if String.eqb x ".." then
        match stack with
        | y :: stack' => if String.eqb y ".." then clean_parts rooted (x :: stack) parts' else clean_parts rooted stack' parts'
        | [] => clean_parts rooted (if rooted then [] else [x]) parts'
        end
      else clean_parts rooted (x :: stack) parts'
  end.
Definition Clean (path : string) : string :=
  let rooted := has_prefix "/" path in
  let s := join_with "/" (clean_parts rooted [] (split_on "/"%char path)) in
  if rooted then ("/" ++ s)%string else if String.eqb s "" then "." else s.
Definition Dir (path : string) : string :=
  match split_last 47 (bytes_of_string path) with
  | Some (d, _) => Clean (string_of_bytes (d ++ [47]))
  | None => "."
  end.
Definition Join (l : list string) : string :=
  match filter (fun x => x <> EmptyString) l with [] => "" | l' => Clean (join_with "/" l') end.

Example path_ex : Dir "/home/a/.config/veld/config.toml" = "/home/a/.config/veld"%string /\ Dir "c.toml" = "."%string /\ Join [Dir "/x//y/../z"; "t"]%string = "/x/t"%string /\ Dir "/a" = "/"%string.
Proof. vm_compute. auto. Qed.

(** ** The configuration file *)
Record file := { f_text : string; f_perm : Z }.
Abbreviation files := (gmap string file).

(** The TOML library. *)
Class TomlCodec := { toml_encode : Config.Config.Config -> string; toml_decode : string -> option Config.Config.Config }.
Class TomlCodecLaws `{TomlCodec} := toml_roundtrip c : toml_decode (toml_encode c) = Some c.

Inductive cli_error :=
| NoHome | CfgError (e : Config.Config.config_error) | TokenRead | NeedToken | CodeRead | WriteFailed | ExchangeFailed | BadPeer | TofuOpen | TofuSave.

Definition DefaultCoordAddr : string := "api.veldmesh.io:443".

Section Cli.
Context `{TomlCodec}.

(** [home]: the user's configuration directory, if it is known. *)
Definition getConfigPath (home : option string) (cfgPath : string) : result cli_error string :=
  if negb (String.eqb cfgPath "") then Ok cfgPath
  else match home with None => Err NoHome | Some dir => Ok (Join [dir; "veld"; "config.toml"]%string) end.

Definition config_file (readable : bool) (fs : files) (path : string) : option string :=
  if readable then match fs !! path with Some f => Some (f_text f) | None => None end else None.

Definition loadConfig (home : option string) (readable : bool) (fs : files) (cfgPath : string) : result cli_error Config.Config.Config :=
  path <-! getConfigPath home cfgPath;
  match Config.Config.LoadFile toml_decode (config_file readable fs path) with Ok c => Ok c | Err e => Err (CfgError e) end.

(** A configuration for a machine that has none. *)
Definition new_config (path : string) : Config.Config.Config :=
  {| Config.Config.Node := {| Config.Config.IdentityPath := Join [Dir path; "identity.json"]%string; Config.Config.VPNAddr := ""; Config.Config.ListenAddr := "0.0.0.0:51820";
                              Config.Config.NetworkID := ""; Config.Config.IfaceName := ""; Config.Config.MTU := 1420; Config.Config.SubnetRoutes := []; Config.Config.Userspace := false |};
     Config.Config.Coord := {| Config.Config.Addr := DefaultCoordAddr; Config.Config.c_NetworkID := ""; Config.Config.Token := ""; Config.Config.TLSInsecure := false;
                               Config.Config.STUNServer := ""; Config.Config.RelayAddr := ""; Config.Config.RelayX25519 := "" |};
     Config.Config.Daemon := {| Config.Config.SocketPath := ""; Config.Config.LocalFile := "" |};
     Config.Config.DNS := {| Config.Config.dns_Enabled := false; Config.Config.Domain := ""; Config.Config.dns_ListenAddr := "" |};
     Config.Config.MDNS := {| Config.Config.mdns_Enabled := false; Config.Config.mdns_Name := "" |}; Config.Config.Peers := [] |}.

Definition loadConfigOrNew (home : option string) (readable : bool) (fs : files) (cfgPath : string) : result cli_error Config.Config.Config :=
  path <-! getConfigPath home cfgPath;
  match Config.Config.LoadFile toml_decode (config_file readable fs path) with
  | Ok c => Ok c
  | Err e => if bool_decide (fs !! path = None) then Ok (new_config path) else Err (CfgError e)
  end.

(** The steps of a write that may fail. *)
Record write_io := { w_mkdir : bool; w_open : bool; w_stat : bool; w_chmod : bool; w_encode : bool }.

(** Opening truncates an existing file, which keeps its permissions; the bits for
    everyone are taken away before anything is written. *)
Definition writeConfig (io : write_io) (path : string) (cfg : Config.Config.Config) (fs : files) : files * result cli_error unit :=
  if negb (w_mkdir io) || negb (w_open io) then (fs, Err WriteFailed)
  else
    let perm := match fs !! path with Some f => f_perm f | None => 384 (* 0600 *) end in
    let fs := <[path := {| f_text := ""; f_perm := perm |}]> fs in
    if negb (w_stat io) then (fs, Err WriteFailed)
    else if negb (Z.land perm 7 =? 0) && negb (w_chmod io) then (fs, Err WriteFailed)
    else
      let perm := if Z.land perm 7 =? 0 then perm else Z.ldiff perm 7 in
      if w_encode io then (<[path := {| f_text := toml_encode cfg; f_perm := perm |}]> fs, Ok tt)
      else (<[path := {| f_text := ""; f_perm := perm |}]> fs, Err WriteFailed).

(** ** Tokens and credentials *)

(** The first line of the input, with its end. *)
Definition first_line (input : string) : string :=
  match split_on (ascii_of_nat 10) input with
  | l :: _ :: _ => (l ++ String (ascii_of_nat 10) "")%string
  | [l] => l
  | [] => ""
  end.

Definition resolveToken (input env : string) (flagValue : string) : result cli_error string :=
  if String.eqb flagValue "-" then
    let line := first_line input in
    if String.eqb line "" then Err TokenRead else Ok (Scan.TrimSpace line)
  else if String.eqb flagValue "" then Ok env
  else Ok flagValue.

Definition with_coord (addr networkID token : string) (c : Config.Config.Config) : Config.Config.Config :=
  let k := Config.Config.Coord c in
  {| Config.Config.Node := Config.Config.Node c;
     Config.Config.Coord := {| Config.Config.Addr := addr; Config.Config.c_NetworkID := networkID; Config.Config.Token := token; Config.Config.TLSInsecure := Config.Config.TLSInsecure k;
                               Config.Config.STUNServer := Config.Config.STUNServer k; Config.Config.RelayAddr := Config.Config.RelayAddr k; Config.Config.RelayX25519 := Config.Config.RelayX25519 k |};
     Config.Config.Daemon := Config.Config.Daemon c; Config.Config.DNS := Config.Config.DNS c; Config.Config.MDNS := Config.Config.MDNS c; Config.Config.Peers := Config.Config.Peers c |}.

(** What a command finds on the machine. *)
Record machine := { m_home : option string; m_readable : bool; m_io : write_io; m_input : string; m_env : string }.

Definition saveCredentials (m : machine) (server networkID token cfgPath : string) (fs : files) : files * result cli_error unit :=
  match loadConfigOrNew (m_home m) (m_readable m) fs cfgPath with
  | Err e => (fs, Err e)
  | Ok cfg => writeConfig (m_io m) cfgPath (with_coord server networkID token cfg) fs
  end.

(** What a [bufio.Scanner] refuses to read as one line. *)
Definition MaxScanTokenSize : Z := 64 * 1024.

(** [exchange]: [exchangeCliAuthCode], what the authorization service answers to a
    code: the server, the network and the token. *)
Definition runBrowserAuthFlow (m : machine) (exchange : string -> option (string * string * string)) (cfgPath : string) (fs : files) : files * result cli_error unit :=
  let line := hd ""%string (split_on (ascii_of_nat 10) (m_input m)) in
  if MaxScanTokenSize <=? Z.of_nat (String.length line) then (fs, Err CodeRead)
  else
    match exchange (Scan.TrimSpace line) with
    | None => (fs, Err ExchangeFailed)
    | Some (server, networkID, token) => saveCredentials m server networkID token cfgPath fs
    end.

Definition runLogin (m : machine) (exchange : string -> option (string * string * string)) (server networkID token cfgFlag : string) (fs : files) : files * result cli_error unit :=
  match getConfigPath (m_home m) cfgFlag with
  | Err e => (fs, Err e)
  | Ok cfgPath =>
      if negb (String.eqb server "") then
        match resolveToken (m_input m) (m_env m) token with
        | Err e => (fs, Err e)
        | Ok token => if String.eqb token "" then (fs, Err NeedToken) else saveCredentials m server networkID token cfgPath fs
        end
      else runBrowserAuthFlow m exchange cfgPath fs
  end.

Definition runJoin (m : machine) (server networkID arg cfgFlag : string) (fs : files) : files * result cli_error unit :=
  match resolveToken (m_input m) (m_env m) arg with
  | Err e => (fs, Err e)
  | Ok token =>
      match getConfigPath (m_home m) cfgFlag with
      | Err e => (fs, Err e)
      | Ok cfgPath =>
          match loadConfigOrNew (m_home m) (m_readable m) fs cfgPath with
          | Err e => (fs, Err e)
          | Ok cfg =>
              let k := Config.Config.Coord cfg in
              writeConfig (m_io m) cfgPath
                (with_coord (if String.eqb server "" then Config.Config.Addr k else server)
                            (if String.eqb networkID "" then Config.Config.c_NetworkID k else networkID) token cfg) fs
          end
      end
  end.

(** ** Starting and stopping *)

(** What [up] ends with: the daemon runs already, there is nothing to start it with,
    or it is started, in the foreground with its configuration or as a process with
    its arguments. *)
Inductive up_outcome :=
| UAlreadyRunning (st : Daemon.Daemon.StatusResponse) | UNoConfig | UNotLoggedIn | UForeground (cfg : Config.Config.Config) | USpawn (args : list string) | UFailed (e : cli_error).

(** [running]: the status of a daemon that answers on the socket. *)
Definition runUp (m : machine) (running : option Daemon.Daemon.StatusResponse) (foreground : bool) (socketFlag cfgFlag : string) (fs : files) : up_outcome :=
  match running with
  | Some st => UAlreadyRunning st
  | None =>
      match loadConfig (m_home m) (m_readable m) fs cfgFlag with
      | Err e =>
          match getConfigPath (m_home m) cfgFlag with
          | Ok path => if bool_decide (fs !! path = None) then UNoConfig else UFailed e
          | Err _ => UFailed e
          end
      | Ok cfg =>
          if negb (String.eqb (Config.Config.Addr (Config.Config.Coord cfg)) "") && String.eqb (Config.Config.Token (Config.Config.Coord cfg)) "" then UNotLoggedIn
          else if foreground then UForeground cfg
          else match getConfigPath (m_home m) cfgFlag with
               | Err e => UFailed e
               | Ok path => USpawn (["--config"; path]%string ++ (if String.eqb socketFlag "" then [] else ["--socket"%string; socketFlag]))
               end
      end
  end.

(** [down]: whether the daemon answers, first and each time it is asked again. *)
Inductive down_outcome := DNotRunning | DFailed | DStopped | DTimeout.
Definition runDown (running posted : bool) (polls : list bool) : down_outcome :=
  if negb running then DNotRunning
  else if negb posted then DFailed
  else if existsb negb polls then DStopped else DTimeout.

(** ** Pins *)
Definition tofu_path (home : option string) (readable : bool) (fs : files) (cfgFlag : string) : result cli_error string :=
  cfgPath <-! getConfigPath home cfgFlag;
  match loadConfig home readable fs cfgPath with
  | Ok cfg => Ok (Join [Dir (Config.Config.IdentityPath (Config.Config.Node cfg)); "tofu.json"]%string)
  | Err e => if bool_decide (fs !! cfgPath = None) then Ok (Join [Dir (Join [Dir cfgPath; "identity.json"]%string); "tofu.json"]%string) else Err e
  end.

Section Pins.
Variable sha256 : list Z -> list Z.
Variable iter : gmap string Tofu.Tofu.pinValue -> list (string * Tofu.Tofu.pinValue).

(** [doc]: the pins on disk; the result is what is there afterwards. *)
Definition openTofuStore (readable io : bool) (doc : option Tofu.Tofu.document) : option Tofu.Tofu.Store := Tofu.Tofu.New iter readable io doc.

Definition runTofuForget (readable io : bool) (peerArg : string) (doc : option Tofu.Tofu.document) : option Tofu.Tofu.document * result cli_error unit :=
  match ParseAddr peerArg with
  | None => (doc, Err BadPeer)
  | Some _ =>
      match openTofuStore readable io doc with
      | None => (doc, Err TofuOpen)
      | Some s => let '(s, r) := Tofu.Tofu.ForgetByVPNAddr iter io peerArg s in (Tofu.Tofu.file s, match r with Ok _ => Ok tt | Err _ => Err TofuSave end)
      end
  end.

Definition runTofuList (readable io : bool) (doc : option Tofu.Tofu.document) : result cli_error (gmap string string) :=
  match openTofuStore readable io doc with None => Err TofuOpen | Some s => Ok (Tofu.Tofu.List iter s) end.

(** The daemon's store when another process has written the file. *)
Definition seen_by (doc : option Tofu.Tofu.document) (s : Tofu.Tofu.Store) : Tofu.Tofu.Store :=
  {| Tofu.Tofu.pins := Tofu.Tofu.pins s; Tofu.Tofu.vpnToPub := Tofu.Tofu.vpnToPub s; Tofu.Tofu.file := doc |}.
End Pins.
End Cli.

(** ** A login leads to a start *)
Lemma Clean_nonempty p : Clean p <> ""%string.
Proof. unfold Clean. destruct (has_prefix _ _); [done|]. by destruct (String.eqb_spec (join_with "/" (clean_parts false [] (split_on "/"%char p))) ""%string). Qed.
Lemma Join_nonempty l x : x ∈ l -> x <> ""%string -> Join l <> ""%string.
Proof.
  intros Hin Hx. unfold Join. destruct (filter _ l) as [|y l'] eqn:E; [|apply Clean_nonempty]. exfalso.
  assert (x ∈ filter (fun x => x <> ""%string) l) as Hf by by apply list_elem_of_filter. rewrite E in Hf. by apply not_elem_of_nil in Hf.
Qed.
Lemma getConfigPath_spec home flag path : getConfigPath home flag = Ok path -> path <> ""%string /\ getConfigPath home path = Ok path.
Proof.
  intros E. assert (path <> ""%string) as Hp.
  { unfold getConfigPath in E. destruct (String.eqb_spec flag ""%string); cbn [negb] in E; [|congruence]. destruct home as [d|]; [|done]. injection E as <-.
    apply (Join_nonempty _ "veld"%string); [|done]. right. by left. }
  split; [done|]. unfold getConfigPath. by destruct (String.eqb_spec path ""%string).
Qed.

Definition all_fine : write_io := {| w_mkdir := true; w_open := true; w_stat := true; w_chmod := true; w_encode := true |}.

Section Commands.
Context `{TomlCodecLaws}.

(** The file that is written reads back, and nobody else may read it. *)
Lemma writeConfig_fine path cfg fs : exists f, writeConfig all_fine path cfg fs = (<[path := f]> fs, Ok tt) /\ toml_decode (f_text f) = Some cfg /\ Z.land (f_perm f) 7 = 0.
Proof.
  unfold writeConfig. cbn [all_fine w_mkdir w_open w_stat w_chmod w_encode negb orb]. rewrite andb_false_r. eexists. rewrite insert_insert_eq. split; [done|]. cbn [f_text f_perm].
  split; [apply toml_roundtrip|]. set (perm := match fs !! path with Some f => _ | None => _ end). clearbody perm.
  destruct (Z.eqb_spec (Z.land perm 7) 0); [done|]. apply Z.bits_inj'. intros i Hi. rewrite Z.land_spec, Z.ldiff_spec, Z.bits_0. destruct (Z.testbit 7 i); by rewrite ?andb_false_r.
Qed.

Lemma with_coord_ok server net token c : server <> ""%string -> Config.Config.IdentityPath (Config.Config.Node c) <> ""%string ->
  (Config.Config.RelayAddr (Config.Config.Coord c) <> ""%string -> is_Some (Config.Config.relay_key c)) ->
  Forall (fun p => Config.Config.pc_Ed25519Public p <> ""%string /\ Config.Config.pc_X25519Public p <> ""%string /\ Config.Config.pc_VPNAddr p <> ""%string) (Config.Config.Peers c) ->
  (Config.Config.NetworkID (Config.Config.Node c) = ""%string -> String.length (Scan.TrimSpace net) = 32%nat) ->
  (Config.Config.NetworkID (Config.Config.Node c) <> ""%string -> String.length (Scan.TrimSpace (Config.Config.NetworkID (Config.Config.Node c))) = 32%nat) ->
  Config.Config.Validate (with_coord server net token c) = Ok tt.
Proof.
  intros Hs Hi Hr Hp Hn Hn'. apply Config.Config.Validate_iff. split; try done. unfold Config.Config.network_id. cbn [with_coord Config.Config.Node Config.Config.Coord Config.Config.c_NetworkID].
  destruct (String.eqb_spec (Config.Config.NetworkID (Config.Config.Node c)) ""%string); auto.
Qed.

(** Logging in is enough to start.  On a machine without a configuration, or with
    a valid one, [veld login] with a server, a network ID of 32 characters and a token
    writes a configuration that only its owner and group may read; reading it back
    gives these credentials and leaves the rest as it was, and [veld up] starts the
    daemon with it. *)
Theorem login_then_up m exchange server net flag token cfgFlag path sock fs old :
  m_readable m = true -> m_io m = all_fine -> getConfigPath (m_home m) cfgFlag = Ok path ->
  loadConfigOrNew (m_home m) true fs path = Ok old ->
  server <> ""%string -> String.length (Scan.TrimSpace net) = 32%nat -> resolveToken (m_input m) (m_env m) flag = Ok token -> token <> ""%string ->
  let cfg := with_coord server net token old in
  exists f, runLogin m exchange server net flag cfgFlag fs = (<[path := f]> fs, Ok tt) /\ Z.land (f_perm f) 7 = 0 /\
    loadConfig (m_home m) true (<[path := f]> fs) cfgFlag = Ok cfg /\ runUp m None true sock cfgFlag (<[path := f]> fs) = UForeground cfg.
Proof.
  intros Hrd Hio Hpath Hold Hs Hn Ht Hte cfg. destruct (writeConfig_fine path cfg fs) as (f & Ew & Ed & Hperm). exists f.
  destruct (getConfigPath_spec _ _ _ Hpath) as [Hp0 Hpp]. assert (Config.Config.Validate cfg = Ok tt) as Hv.
  { unfold loadConfigOrNew in Hold. rewrite Hpp in Hold. cbn [result_bind] in Hold. destruct (Config.Config.LoadFile _ _) as [c|e] eqn:El.
    - injection Hold as ->. unfold Config.Config.LoadFile in El. destruct (config_file true fs path); [|done]. unfold Config.Config.ParseConfig in El.
      destruct (toml_decode s) as [c|]; [|done]. destruct (Config.Config.Validate c) as [[]|] eqn:Ev; [|done]. injection El as ->. apply Config.Config.Validate_iff in Ev as [Ci _ Cn Cr Cp].
      apply with_coord_ok; try done. intros Hne. unfold Config.Config.network_id in Cn. by destruct (String.eqb_spec (Config.Config.NetworkID (Config.Config.Node old)) ""%string).
    - case_bool_decide; [|done]. injection Hold as <-. apply with_coord_ok; try done. by apply (Join_nonempty _ "identity.json"%string); [right; left|]. }
  assert (forall h, getConfigPath h cfgFlag = Ok path -> loadConfig h true (<[path := f]> fs) cfgFlag = Ok cfg) as Hl.
  { intros h Hh. unfold loadConfig. rewrite Hh. cbn [result_bind]. unfold config_file. rewrite lookup_insert_eq. unfold Config.Config.LoadFile, Config.Config.ParseConfig. by rewrite Ed, Hv. }
  split_and!; [|done|by apply Hl|].
  - unfold runLogin. rewrite Hpath. destruct (String.eqb_spec server ""%string); [done|]. cbn [negb]. rewrite Ht. destruct (String.eqb_spec token ""%string); [done|].
    unfold saveCredentials. by rewrite Hrd, Hold, Hio.
  - unfold runUp. rewrite Hrd, (Hl _ Hpath). cbn [cfg with_coord Config.Config.Coord Config.Config.Addr Config.Config.Token].
    destruct (String.eqb_spec token ""%string); [done|]. by rewrite andb_false_r.
Qed.

(** A first [veld join] without a network ID locks the command line out.  The
    network ID is not inferred from the token; the configuration is written without one,
    and every later [join], [login] and [up] refuses to read it. *)
Theorem join_locks_out m server arg token cfgFlag path fs :
  m_readable m = true -> m_io m = all_fine -> getConfigPath (m_home m) cfgFlag = Ok path -> fs !! path = None ->
  resolveToken (m_input m) (m_env m) arg = Ok token ->
  exists f, runJoin m server "" arg cfgFlag fs = (<[path := f]> fs, Ok tt) /\
    let fs' := <[path := f]> fs in
    (forall net arg' t', resolveToken (m_input m) (m_env m) arg' = Ok t' -> runJoin m server net arg' cfgFlag fs' = (fs', Err (CfgError Config.Config.BadNetworkID))) /\
    (forall exchange srv net flag t', srv <> ""%string -> resolveToken (m_input m) (m_env m) flag = Ok t' -> t' <> ""%string ->
       runLogin m exchange srv net flag cfgFlag fs' = (fs', Err (CfgError Config.Config.BadNetworkID))) /\
    (forall fg sock, runUp m None fg sock cfgFlag fs' = UFailed (CfgError Config.Config.BadNetworkID)).
Proof.
  intros Hrd Hio Hpath Hno Ht. destruct (getConfigPath_spec _ _ _ Hpath) as [Hp0 Hpp].
  assert (loadConfigOrNew (m_home m) true fs path = Ok (new_config path)) as Hnew.
  { unfold loadConfigOrNew. rewrite Hpp. cbn [result_bind]. unfold config_file. rewrite Hno. cbn [Config.Config.LoadFile]. by rewrite bool_decide_eq_true_2. }
  set (cfg := with_coord (if String.eqb server "" then DefaultCoordAddr else server) "" token (new_config path)).
  destruct (writeConfig_fine path cfg fs) as (f & Ew & Ed & _). exists f.
  assert (Config.Config.Validate cfg = Err Config.Config.BadNetworkID) as Hv.
  { unfold Config.Config.Validate. cbn [cfg with_coord new_config Config.Config.Node Config.Config.Coord Config.Config.IdentityPath Config.Config.Addr].
    destruct (String.eqb_spec (Join [Dir path; "identity.json"]%string) ""%string) as [E|_]; [exfalso; revert E; by apply (Join_nonempty _ "identity.json"%string); [right; left|]|].
    assert (String.eqb (if String.eqb server "" then DefaultCoordAddr else server) "" = false) as ->; [by destruct (String.eqb_spec server ""%string) as [|]; [|apply String.eqb_neq]|].
    done. }
  assert (Config.Config.LoadFile toml_decode (config_file true (<[path := f]> fs) path) = Err Config.Config.BadNetworkID) as Hl.
  { unfold config_file. rewrite lookup_insert_eq. unfold Config.Config.LoadFile, Config.Config.ParseConfig. by rewrite Ed, Hv. }
  assert (loadConfigOrNew (m_home m) true (<[path := f]> fs) path = Err (CfgError Config.Config.BadNetworkID)) as Hbad.
  { unfold loadConfigOrNew. rewrite Hpp. cbn [result_bind]. rewrite Hl. rewrite bool_decide_eq_false_2; [done|]. by rewrite lookup_insert_eq. }
  split; [|split_and!].
  - unfold runJoin. rewrite Ht, Hpath, Hrd, Hnew, Hio. exact Ew.
  - intros net arg' t' Ht'. unfold runJoin. by rewrite Ht', Hpath, Hrd, Hbad.
  - intros exchange srv net flag t' Hs Ht' Hne. unfold runLogin. rewrite Hpath. destruct (String.eqb_spec srv ""%string); [done|]. cbn [negb]. rewrite Ht'.
    destruct (String.eqb_spec t' ""%string); [done|]. unfold saveCredentials. by rewrite Hrd, Hbad.
  - intros fg sock. unfold runUp, loadConfig. rewrite Hrd, Hpath. cbn [result_bind]. rewrite Hl. rewrite bool_decide_eq_false_2; [done|]. by rewrite lookup_insert_eq.
Qed.
End Commands.

(** ** Forgetting a pin while the daemon runs *)
Section Forget.
Variable sha256 : list Z -> list Z.
Variable iter : gmap string Tofu.Tofu.pinValue -> list (string * Tofu.Tofu.pinValue).
Hypothesis sha256_ok : forall x, bytes_ok (sha256 x) /\ length (sha256 x) = 32%nat.
Hypothesis iter_perm : forall m, iter m ≡ₚ map_to_list m.
Abbreviation Check := (Tofu.Tofu.Check sha256 iter).
Abbreviation key pub := (Tofu.Tofu.pubKeyString pub).

Lemma seen_by_ok doc s : Tofu.Tofu.store_ok sha256 s -> Tofu.Tofu.store_ok sha256 (seen_by doc s).
Proof. by apply Tofu.Tofu.store_ok_ext. Qed.
Lemma held_seen_by doc s k : Tofu.Tofu.held (seen_by doc s) k = Tofu.Tofu.held s k.
Proof. done. Qed.

Lemma refused io a pub k s : Tofu.Tofu.store_ok sha256 s -> Tofu.Tofu.key_ok pub -> k <> key pub -> a ∈ Tofu.Tofu.held s k ->
  Check io a pub s = (s, Err Tofu.Tofu.ErrFingerprintMismatch).
Proof. intros Hs Hp Hne Ha. destruct (Tofu.Tofu.Check_step sha256 iter io a pub s Hs Hp) as [[_ E]|[Hno _]]; [done|]. destruct Hno. eauto. Qed.

(** The command line forgets the pin of an address: what is on disk then would let the
    new key in. *)
Lemma forget_on_disk io a k pub s : Tofu.Tofu.store_ok sha256 s -> Tofu.Tofu.file s = Some (Tofu.Tofu.doc_of iter (Tofu.Tofu.pins s)) ->
  a ∈ Tofu.Tofu.held s k -> Tofu.Tofu.key_ok pub -> is_Some (ParseAddr a) ->
  exists doc s2, runTofuForget iter true true a (Tofu.Tofu.file s) = (doc, Ok tt) /\ Tofu.Tofu.New iter true io doc = Some s2 /\ (Check true a pub s2).2 = Ok tt.
Proof using sha256_ok iter_perm.
  intros Hs Hf Ha Hp [x Hx]. destruct (Tofu.Tofu.reload sha256 iter sha256_ok iter_perm true s Hs) as (sc & En & Ep & Ev & _).
  unfold runTofuForget, openTofuStore. rewrite Hx, Hf, En. assert (Tofu.Tofu.store_ok sha256 sc) as Hsc by (apply (Tofu.Tofu.store_ok_ext sha256 s); congruence).
  unfold Tofu.Tofu.held in Ha. destruct (Tofu.Tofu.pins s !! k) as [v|] eqn:Ek; [|by apply not_elem_of_nil in Ha]. rewrite <- Ep in Ek.
  assert (Tofu.Tofu.vpnToPub sc !! a = Some k) as Eo by (apply (Tofu.Tofu.so_vpn sha256 sc Hsc); eauto).
  pose proof (Tofu.Tofu.pk_key _ _ _ (Tofu.Tofu.so_pin sha256 sc Hsc _ _ Ek)) as Ekey. unfold Tofu.Tofu.ForgetByVPNAddr. rewrite Eo, Ek. cbn [Tofu.Tofu.save].
  assert (Tofu.Tofu.store_ok sha256 (Tofu.Tofu.unpin v sc)) as Hu by (apply Tofu.Tofu.store_ok_unpin; [done|by rewrite Ekey]).
  destruct (Tofu.Tofu.reload sha256 iter sha256_ok iter_perm io _ Hu) as (s2 & En2 & Ep2 & Ev2 & _). do 2 eexists. split; [done|]. split; [exact En2|].
  assert (Tofu.Tofu.store_ok sha256 s2) as Hs2 by (by apply (Tofu.Tofu.store_ok_ext sha256 (Tofu.Tofu.unpin v sc))).
  destruct (Tofu.Tofu.Check_step sha256 iter true a pub s2 Hs2 Hp) as [[(k' & _ & Hk') _]|[_ [[-> _]|(s3 & -> & _)]]]; [|done..]. exfalso.
  unfold Tofu.Tofu.held in Hk'. rewrite Ep2 in Hk'. cbn [Tofu.Tofu.unpin Tofu.Tofu.pins] in Hk'. rewrite Ekey in Hk'. destruct (decide (k' = k)) as [->|Hne].
  - rewrite lookup_delete_eq in Hk'. by apply not_elem_of_nil in Hk'.
  - rewrite lookup_delete_ne in Hk' by done. destruct (Tofu.Tofu.pins sc !! k') as [v'|] eqn:Ek'; [|by apply not_elem_of_nil in Hk'].
    by apply Hne, (Tofu.Tofu.reserved_unique sha256 sc k' k v' v a).
Qed.

(** Forgetting a pin has no effect on a daemon that runs, which is when its log asks
    for it.  [veld tofu forget] takes the pin of an address out of the file, and a daemon
    that started now would accept the new key; the running one keeps its pins in memory,
    goes on refusing the key, and with the next peer it pins writes the forgotten pin back,
    so that the key is refused after a restart too. *)
Theorem forget_undone_by_daemon a k pub s b pub3 s3 io :
  Tofu.Tofu.store_ok sha256 s -> Tofu.Tofu.file s = Some (Tofu.Tofu.doc_of iter (Tofu.Tofu.pins s)) -> is_Some (ParseAddr a) ->
  a ∈ Tofu.Tofu.held s k -> Tofu.Tofu.key_ok pub -> k <> key pub -> Tofu.Tofu.key_ok pub3 -> Tofu.Tofu.pins s !! key pub3 = None ->
  exists doc s2, runTofuForget iter true true a (Tofu.Tofu.file s) = (doc, Ok tt) /\
    Tofu.Tofu.New iter true true doc = Some s2 /\ (Check true a pub s2).2 = Ok tt /\
    Check io a pub (seen_by doc s) = (seen_by doc s, Err Tofu.Tofu.ErrFingerprintMismatch) /\
    (Check true b pub3 (seen_by doc s) = (s3, Ok tt) ->
     exists s4, Tofu.Tofu.New iter true true (Tofu.Tofu.file s3) = Some s4 /\ Check io a pub s4 = (s4, Err Tofu.Tofu.ErrFingerprintMismatch)).
Proof using sha256_ok iter_perm.
  intros Hs Hf Hx Ha Hp Hne Hp3 Hnew. assert (k <> key pub3) as Hne3 by (intros ->; unfold Tofu.Tofu.held in Ha; rewrite Hnew in Ha; by apply not_elem_of_nil in Ha).
  destruct (forget_on_disk true a k pub s Hs Hf Ha Hp Hx) as (doc & s2 & E1 & E2 & E3). exists doc, s2.
  split_and!; [done..| |].
  - by apply (refused io a pub k); [apply seen_by_ok|..].
  - intros E. destruct (Tofu.Tofu.Check_step sha256 iter true b pub3 _ (seen_by_ok doc s Hs) Hp3) as [[_ E']|[_ [[E' Hh]|(s' & E' & Hs' & _ & _ & Ho)]]]; rewrite E' in E.
    + done.
    + exfalso. unfold Tofu.Tofu.held in Hh. cbn [seen_by Tofu.Tofu.pins] in Hh. rewrite Hnew in Hh. done.
    + injection E as <-. destruct (Tofu.Tofu.reload sha256 iter sha256_ok iter_perm true s' Hs') as (s4 & En & Ep & Ev & _). exists s4. split; [exact En|].
      apply (refused io a pub k); [by apply (Tofu.Tofu.store_ok_ext sha256 s')|done|done|]. rewrite (Tofu.Tofu.held_ext s4 s' k) by done. by rewrite Ho by done.
Qed.
End Forget.

(** ** Small examples *)
Lemma forget_undone_by_daemon_witness :
  exists doc s2, runTofuForget Tofu.Tofu.demo_iter true true "10.0.0.2" (Tofu.Tofu.file Tofu.Tofu.demo_store) = (doc, Ok tt) /\
    Tofu.Tofu.New Tofu.Tofu.demo_iter true true doc = Some s2 /\ (Tofu.Tofu.Check Tofu.Tofu.demo_hash Tofu.Tofu.demo_iter true "10.0.0.2" (Tofu.Tofu.demo_pub 2) s2).2 = Ok tt /\
    Tofu.Tofu.Check Tofu.Tofu.demo_hash Tofu.Tofu.demo_iter true "10.0.0.2" (Tofu.Tofu.demo_pub 2) (seen_by doc Tofu.Tofu.demo_store) =
      (seen_by doc Tofu.Tofu.demo_store, Err Tofu.Tofu.ErrFingerprintMismatch).
Proof.
  destruct (forget_undone_by_daemon Tofu.Tofu.demo_hash Tofu.Tofu.demo_iter Tofu.Tofu.demo_hash_ok Tofu.Tofu.demo_iter_perm "10.0.0.2" (Tofu.Tofu.pubKeyString (Tofu.Tofu.demo_pub 1))
    (Tofu.Tofu.demo_pub 2) Tofu.Tofu.demo_store "10.0.0.9" (Tofu.Tofu.demo_pub 3) Tofu.Tofu.demo_store true) as (doc & s2 & E1 & E2 & E3 & E4 & _).
  - apply Tofu.Tofu.demo_tofu_ok.
  - vm_compute; reflexivity.
  - vm_compute. by eexists.
  - vm_compute. by left.
  - apply Tofu.Tofu.demo_pub_ok.
  - by vm_compute.
  - split; [apply Forall_replicate; unfold byte_ok; lia|done].
  - vm_compute; reflexivity.
  - exists doc, s2. split_and!; done.
Defined.

(** A codec of configurations: their code as a number, in binary. *)
Module Toy.
Import Config.Config.
#[local] Instance toy_node_eq : EqDecision NodeConfig.
Proof. solve_decision. Defined.
#[local] Instance toy_node : Countable NodeConfig.
Proof.
  refine (inj_countable' (fun n => (IdentityPath n, VPNAddr n, ListenAddr n, NetworkID n, IfaceName n, MTU n, SubnetRoutes n, Userspace n))
    (fun '(a, b, c, d, e, f, g, h) => {| IdentityPath := a; VPNAddr := b; ListenAddr := c; NetworkID := d; IfaceName := e; MTU := f; SubnetRoutes := g; Userspace := h |}) _). by intros [].
Defined.
#[local] Instance toy_coord_eq : EqDecision CoordConfig.
Proof. solve_decision. Defined.
#[local] Instance toy_coord : Countable CoordConfig.
Proof.
  refine (inj_countable' (fun n => (Addr n, c_NetworkID n, Token n, TLSInsecure n, STUNServer n, RelayAddr n, RelayX25519 n))
    (fun '(a, b, c, d, e, f, g) => {| Addr := a; c_NetworkID := b; Token := c; TLSInsecure := d; STUNServer := e; RelayAddr := f; RelayX25519 := g |}) _). by intros [].
Defined.
#[local] Instance toy_peer_eq : EqDecision PeerConfig.
Proof. solve_decision. Defined.
#[local] Instance toy_peer : Countable PeerConfig.
Proof.
  refine (inj_countable' (fun n => (pc_Name n, pc_Ed25519Public n, pc_X25519Public n, pc_VPNAddr n, pc_Endpoint n, pc_SubnetRoutes n))
    (fun '(a, b, c, d, e, f) => {| pc_Name := a; pc_Ed25519Public := b; pc_X25519Public := c; pc_VPNAddr := d; pc_Endpoint := e; pc_SubnetRoutes := f |}) _). by intros [].
Defined.
#[local] Instance toy_daemon_eq : EqDecision DaemonConfig.
Proof. solve_decision. Defined.
#[local] Instance toy_dns_eq : EqDecision DNSConfig.
Proof. solve_decision. Defined.
#[local] Instance toy_mdns_eq : EqDecision MDNSConfig.
Proof. solve_decision. Defined.
#[local] Instance toy_config_eq : EqDecision Config.
Proof. solve_decision. Defined.
#[local] Instance toy_config : Countable Config.
Proof.
  refine (inj_countable' (fun c => (Node c, Coord c, (SocketPath (Daemon c), LocalFile (Daemon c)), (dns_Enabled (DNS c), Domain (DNS c), dns_ListenAddr (DNS c)),
      (mdns_Enabled (MDNS c), mdns_Name (MDNS c)), Peers c))
    (fun '(a, b, (c1, c2), (d1, d2, d3), (e1, e2), f) => {| Node := a; Coord := b; Daemon := {| SocketPath := c1; LocalFile := c2 |};
      DNS := {| dns_Enabled := d1; Domain := d2; dns_ListenAddr := d3 |}; MDNS := {| mdns_Enabled := e1; mdns_Name := e2 |}; Peers := f |}) _). by intros [? ? [] [] [] ?].
Defined.

Fixpoint bits (p : positive) : string := match p with xH => "" | xO p => String "0" (bits p) | xI p => String "1" (bits p) end.
Fixpoint unbits (s : string) : positive := match s with EmptyString => xH | String c s => if Ascii.eqb c "0" then xO (unbits s) else xI (unbits s) end.
Lemma unbits_bits p : unbits (bits p) = p.
Proof. induction p; cbn; congruence. Qed.

#[export] Instance toy_toml : TomlCodec := { toml_encode c := bits (encode c); toml_decode s := decode (unbits s) }.
#[export] Instance toy_toml_laws : TomlCodecLaws.
Proof. intros c. cbn. by rewrite unbits_bits, decode_encode. Qed.
End Toy.
#[local] Existing Instances Toy.toy_toml Toy.toy_toml_laws.

Definition toy_machine : machine := {| m_home := Some "/home/a/.config"%string; m_readable := true; m_io := all_fine; m_input := ""; m_env := "secret" |}.
Definition toy_path : string := "/home/a/.config/veld/config.toml".
Definition toy_network : string := "00112233445566778899aabbccddeeff".

Lemma login_then_up_witness :
  exists f : file, runLogin toy_machine (fun _ => None) "coord:443" toy_network "" "" ∅ = ((<[toy_path := f]> ∅), Ok tt) /\
    runUp toy_machine None true "" "" (<[toy_path := f]> ∅) = UForeground (with_coord "coord:443" toy_network "secret" (new_config toy_path)).
Proof.
  destruct (login_then_up toy_machine (fun _ => None) "coord:443" toy_network "" "secret" "" toy_path "" ∅ (new_config toy_path)) as (f & E1 & _ & _ & E2);
    [reflexivity|reflexivity|vm_compute; reflexivity|vm_compute; reflexivity|done|vm_compute; reflexivity|reflexivity|done|]. by exists f.
Defined.

Lemma join_locks_out_witness :
  exists f : file, runJoin toy_machine "" "" "token" "" ∅ = ((<[toy_path := f]> ∅), Ok tt) /\
    forall fg sock, runUp toy_machine None fg sock "" (<[toy_path := f]> ∅) = UFailed (CfgError Config.Config.BadNetworkID).
Proof.
  destruct (join_locks_out toy_machine "" "token" "token" "" toy_path ∅) as (f & E1 & _ & _ & E2);
    [reflexivity|reflexivity|vm_compute; reflexivity|vm_compute; reflexivity|reflexivity|]. by exists f.
Defined.
End Cli.
