(* ===== verification/Tun.v ===== *)
(** * Tun: the userspace TUN device

    [Tun] models [src/internal/tun/tun_netstack.go]: how reads and writes of several
    goroutines and [Close] share the device.  The critical sections under the mutex and
    the calls of the device are steps that interleave; a call that is blocked takes no
    step.  The network stack itself is a library. *)
From Stdlib Require Import ZArith Lia.
From stdpp Require Import base numbers list gmap strings relations.
From S2P Require Import Prelude PeerTable.

Module Tun.
Import Netip.

(** What the device or the method answers: a number of bytes, [ErrClosed] or another
    error. *)
Inductive outcome := Done (n : Z) | ErrClosed | DevError.
#[export] Instance outcome_eq_dec : EqDecision outcome.
Proof. solve_decision. Defined.

(** Where a goroutine is: in a call of the device, at the end of [Read] or [Write], in
    [Close] before the device is closed, in [Close] waiting, at the end of [Close]. *)
Inductive phase := InDev | Returned (r : outcome) | Closing | Waiting | Closed (first : bool).
#[export] Instance phase_eq_dec : EqDecision phase.
Proof. solve_decision. Defined.

Record NetstackTUN := { name : string; addr : Prefix; mtu : Z; closed : bool; inFlight : Z }.

(** [createNetstackTUN]; [dev]: the name of the library's device, [None] when it cannot be
    made or named. *)
Definition createNetstackTUN (nm : string) (a : Prefix) (m : Z) (dev : option string) : option NetstackTUN :=
  dev ← dev; Some {| name := if String.eqb nm "" then dev else nm; addr := a; mtu := if m <=? 0 then 1420 else m; closed := false; inFlight := 0 |}.

Definition with_state (c : bool) (n : Z) (t : NetstackTUN) : NetstackTUN := {| name := name t; addr := addr t; mtu := mtu t; closed := c; inFlight := n |}.

(** [Read] and [Write]: before the device, and after it answered [r]. *)
Definition op_begin (t : NetstackTUN) : NetstackTUN * phase :=
  if closed t then (t, Returned ErrClosed) else (with_state (closed t) (inFlight t + 1) t, InDev).
Definition op_end (r : outcome) (t : NetstackTUN) : NetstackTUN * phase :=
  (with_state (closed t) (inFlight t - 1) t,
   Returned (match r with Done n => if closed t then ErrClosed else Done n | e => e end)).

(** [Close]: its first section, the device, and the wait. *)
Definition close_begin (t : NetstackTUN) : NetstackTUN * phase :=
  if closed t then (t, Closed false) else (with_state true (inFlight t) t, Closing).
Definition close_end (t : NetstackTUN) : option phase := if inFlight t <=? 0 then Some (Closed true) else None.

(** ** Runs *)
Record sys := { tun : NetstackTUN; procs : gmap nat phase }.

Inductive step : sys -> sys -> Prop :=
| S_op i t p t' : p !! i = None -> op_begin t = (t', InDev) -> step {| tun := t; procs := p |} {| tun := t'; procs := <[i := InDev]> p |}
| S_refuse i t p t' r : p !! i = None -> op_begin t = (t', Returned r) -> step {| tun := t; procs := p |} {| tun := t'; procs := <[i := Returned r]> p |}
| S_answer i t p r t' q : p !! i = Some InDev -> op_end r t = (t', q) -> step {| tun := t; procs := p |} {| tun := t'; procs := <[i := q]> p |}
| S_close i t p t' q : p !! i = None -> close_begin t = (t', q) -> step {| tun := t; procs := p |} {| tun := t'; procs := <[i := q]> p |}
| S_device i t p : p !! i = Some Closing -> step {| tun := t; procs := p |} {| tun := t; procs := <[i := Waiting]> p |}
| S_wake i t p q : p !! i = Some Waiting -> close_end t = Some q -> step {| tun := t; procs := p |} {| tun := t; procs := <[i := q]> p |}.

Definition start (t : NetstackTUN) : sys := {| tun := t; procs := ∅ |}.

(** ** The count is exact *)
Definition in_phase (f : phase -> bool) (p : gmap nat phase) : Z := Z.of_nat (size (filter (fun kv => f kv.2 = true) p)).
Definition is_dev (q : phase) : bool := match q with InDev => true | _ => false end.
Definition is_closer (q : phase) : bool := match q with Closing | Waiting | Closed true => true | _ => false end.
Definition b2z (b : bool) : Z := if b then 1 else 0.

Lemma in_phase_insert f i q (p : gmap nat phase) :
  in_phase f (<[i := q]> p) = in_phase f p + b2z (f q) - match p !! i with Some q0 => b2z (f q0) | None => 0 end.
Proof.
  unfold in_phase. rewrite <- (insert_delete_eq p i q). destruct (p !! i) as [q0|] eqn:E.
  - rewrite <- (insert_id p i q0 E) at 2. rewrite <- (insert_delete_eq p i q0).
    assert (forall x, Z.of_nat (size (filter (fun kv => f kv.2 = true) (<[i := x]> (delete i p)))) = Z.of_nat (size (filter (fun kv => f kv.2 = true) (delete i p))) + b2z (f x)) as Hx.
    { intros x. destruct (f x) eqn:Ef; unfold b2z.
      - rewrite map_filter_insert_True by done. rewrite map_size_insert_None; [lia|]. rewrite map_lookup_filter, lookup_delete_eq. done.
      - rewrite map_filter_insert_False by (cbn; congruence). rewrite delete_delete_eq. lia. }
    rewrite !Hx. lia.
  - rewrite (delete_id p i) by done. destruct (f q) eqn:Ef; unfold b2z.
    + rewrite map_filter_insert_True by done. rewrite map_size_insert_None; [lia|]. rewrite map_lookup_filter, E. done.
    + rewrite map_filter_insert_False by (cbn; congruence). rewrite delete_id by done. lia.
Qed.

Record sys_ok (s : sys) : Prop := {
  ok_count : inFlight (tun s) = in_phase is_dev (procs s);
  ok_one : in_phase is_closer (procs s) = b2z (closed (tun s));
  ok_done : forall i, procs s !! i = Some (Closed true) -> inFlight (tun s) = 0
}.

Lemma in_phase_pos f i q (p : gmap nat phase) : p !! i = Some q -> f q = true -> 1 <= in_phase f p.
Proof.
  intros E Hf. unfold in_phase. assert (filter (fun kv => f kv.2 = true) p <> ∅) as Hne.
  { intros Hx. assert (filter (fun kv => f kv.2 = true) p !! i = Some q) as Hl by (by apply map_lookup_filter_Some). by rewrite Hx, lookup_empty in Hl. }
  apply map_size_non_empty_iff in Hne. lia.
Qed.
Lemma in_phase_zero f i q (p : gmap nat phase) : in_phase f p = 0 -> p !! i = Some q -> f q = false.
Proof. intros Hz E. destruct (f q) eqn:Ef; [|done]. pose proof (in_phase_pos f i q p E Ef). lia. Qed.
Lemma in_phase_exists f (p : gmap nat phase) : in_phase f p <> 0 -> exists i q, p !! i = Some q /\ f q = true.
Proof.
  unfold in_phase. intros Hne. destruct (map_choose (filter (fun kv => f kv.2 = true) p)) as (i & q & E); [intros E; rewrite E, map_size_empty in Hne; done|].
  apply map_lookup_filter_Some in E as [E Hf]. eauto.
Qed.

Lemma step_ok s s' : sys_ok s -> step s s' -> sys_ok s'.
Proof.
  intros Hs St. destruct St as [i t p t' Hi E|i t p t' r Hi E|i t p r t' q Hi E|i t p t' q Hi E|i t p Hi|i t p q Hi E]; destruct Hs as [Hc Ho Hd]; cbn [tun procs] in *.
  - unfold op_begin in E. destruct (closed t) eqn:Ec; [done|]. injection E as <-. cbn in Ho. split; cbn; rewrite ?in_phase_insert, ?Hi, ?Ec; cbn; try lia.
    intros j. rewrite lookup_insert_Some. intros [[_ ?]|[_ Hj]]; [done|]. pose proof (in_phase_pos is_closer j _ p Hj eq_refl) as Hp. rewrite Ho in Hp. cbn in Hp. lia.
  - unfold op_begin in E. destruct (closed t) eqn:Ec; [|done]. injection E as <- <-. cbn in Ho. split; cbn; rewrite ?in_phase_insert, ?Hi, ?Ec; cbn; try lia.
    intros j. rewrite lookup_insert_Some. intros [[_ ?]|[_ Hj]]; [done|]. by eapply Hd.
  - injection E as <- <-. pose proof (in_phase_pos is_dev i _ p Hi eq_refl) as Hp. split; cbn; rewrite ?in_phase_insert, ?Hi; cbn; try lia.
    intros j. rewrite lookup_insert_Some. intros [[_ ?]|[_ Hj]]; [done|]. specialize (Hd j Hj). lia.
  - unfold close_begin in E. destruct (closed t) eqn:Ec; injection E as <- <-; split; cbn; rewrite ?in_phase_insert, ?Hi, ?Ec; cbn; try (rewrite Ho; cbn); try lia.
    + intros j. rewrite lookup_insert_Some. intros [[_ ?]|[_ Hj]]; [done|]. by eapply Hd.
    + intros j. rewrite lookup_insert_Some. intros [[_ ?]|[_ Hj]]; [done|]. by eapply Hd.
  - split; cbn; rewrite ?in_phase_insert, ?Hi; cbn; try lia. intros j. rewrite lookup_insert_Some. intros [[_ ?]|[_ Hj]]; [done|]. by eapply Hd.
  - unfold close_end in E. destruct (Z.leb_spec (inFlight t) 0) as [Hl|]; [|done]. injection E as <-.
    split; cbn; rewrite ?in_phase_insert, ?Hi; cbn; try lia. intros j _. unfold in_phase in Hc. lia.
Qed.

Lemma start_ok t : closed t = false -> inFlight t = 0 -> sys_ok (start t).
Proof. intros Hc Hn. split; cbn; [by rewrite Hn|by rewrite Hc|]. intros i. by rewrite lookup_empty. Qed.

Lemma tun_reachable_ok t s : closed t = false -> inFlight t = 0 -> rtc step (start t) s -> sys_ok s.
Proof. intros Hc Hn Hr. refine (rtc_ind_r sys_ok _ (start_ok t Hc Hn) _ s Hr). intros x y _ Hs Hx. by eapply step_ok. Qed.

Lemma closed_stays s s' : rtc step s s' -> closed (tun s) = true -> closed (tun s') = true.
Proof.
  induction 1 as [|x y z St _ IH]; [done|]. intros Hc. apply IH. destruct St as [i t p t' Hi E|i t p t' r Hi E|i t p r t' q Hi E|i t p t' q Hi E|i t p Hi|i t p q Hi E]; cbn [tun] in *; try done.
  - unfold op_begin in E. rewrite Hc in E. done.
  - unfold op_begin in E. rewrite Hc in E. by injection E as <- <-.
  - by injection E as <- <-.
  - unfold close_begin in E. rewrite Hc in E. by injection E as <- <-.
Qed.

(** A first [Close] that has returned stays so. *)
Lemma closer_stays s s' i : rtc step s s' -> procs s !! i = Some (Closed true) -> procs s' !! i = Some (Closed true).
Proof.
  induction 1 as [|x y z St _ IH]; [done|]. intros Hc. apply IH.
  destruct St as [j t p t' Hj E|j t p t' r Hj E|j t p r t' q Hj E|j t p t' q Hj E|j t p Hj|j t p q Hj E]; cbn [procs] in *;
    (destruct (decide (j = i)) as [->|Hne]; [congruence|by rewrite lookup_insert_ne]).
Qed.

(** When [Close] has returned the device is left alone: no goroutine is in a call of
    it, and none will be, whatever is called afterwards; and a read or write that ends
    after the device was closed reports no packet. *)
Theorem closed_is_quiet t s s' i :
  closed t = false -> inFlight t = 0 -> rtc step (start t) s -> procs s !! i = Some (Closed true) -> rtc step s s' ->
  (forall j, procs s' !! j <> Some InDev) /\ closed (tun s') = true /\
  (forall r q t', closed (tun s') = true -> op_end r (tun s') = (t', q) -> forall n, q <> Returned (Done n)).
Proof.
  intros Hc Hn Hr Hi Hr'. assert (sys_ok s') as Hs' by (eapply (tun_reachable_ok t); [done..|by etrans]). pose proof (closer_stays _ _ _ Hr' Hi) as Hi'. split_and!.
  - intros j Hj. pose proof (ok_done _ Hs' i Hi') as H0. rewrite (ok_count _ Hs') in H0. pose proof (in_phase_zero _ _ _ _ H0 Hj). done.
  - pose proof (in_phase_pos is_closer i _ _ Hi' eq_refl) as Hp. rewrite (ok_one _ Hs') in Hp. by destruct (closed (tun s')).
  - intros r q t' Hcl. unfold op_end. rewrite Hcl. intros [= _ <-] n. by destruct r.
Qed.

(** ** Closing ends *)
Definition final (q : phase) : bool := match q with Returned _ | Closed _ => true | _ => false end.
Definition is_closing (q : phase) : bool := match q with Closing => true | _ => false end.
Definition is_waiting (q : phase) : bool := match q with Waiting => true | _ => false end.
Definition work (p : gmap nat phase) : Z := in_phase is_dev p + 2 * in_phase is_closing p + in_phase is_waiting p.
(** A step of a goroutine that is there already. *)
Definition finish (s s' : sys) : Prop := step s s' /\ dom (procs s') = dom (procs s).

Lemma finish_one s : sys_ok s -> (forall i q, procs s !! i = Some q -> final q = true) \/ exists s', finish s s' /\ work (procs s') < work (procs s).
Proof.
  intros Hs. destruct s as [t p]. cbn [procs].
  assert (forall i q q', p !! i = Some q -> dom (<[i := q']> p) = dom p) as Hdom by (intros i q q' E; apply dom_insert_lookup_L; by eexists).
  destruct (decide (in_phase is_dev p = 0)) as [Hd|Hd].
  2: { right. apply in_phase_exists in Hd as (i & q & E & Hq). destruct q; try done. eexists. split.
       - split; [eapply (S_answer i t p DevError); [done|reflexivity]|cbn; by eapply Hdom].
       - cbn. unfold work. rewrite !in_phase_insert, E. cbn. lia. }
  destruct (decide (in_phase is_closing p = 0)) as [Hc|Hc].
  2: { right. apply in_phase_exists in Hc as (i & q & E & Hq). destruct q; try done. eexists. split.
       - split; [by eapply (S_device i t p)|cbn; by eapply Hdom].
       - cbn. unfold work. rewrite !in_phase_insert, E. cbn. lia. }
  destruct (decide (in_phase is_waiting p = 0)) as [Hw|Hw].
  2: { right. apply in_phase_exists in Hw as (i & q & E & Hq). destruct q; try done. eexists. split.
       - split; [eapply (S_wake i t p (Closed true)); [done|]|cbn; by eapply Hdom]. unfold close_end. pose proof (ok_count _ Hs) as Hct. cbn in Hct. by rewrite Hct, Hd.
       - cbn. unfold work. rewrite !in_phase_insert, E. cbn. lia. }
  left. intros i q E. pose proof (in_phase_zero _ _ _ _ Hd E) as H1. pose proof (in_phase_zero _ _ _ _ Hc E) as H2. pose proof (in_phase_zero _ _ _ _ Hw E) as H3. by destruct q.
Qed.

(** Nothing hangs.  From every state that can be reached, with calls of the device
    that return, the goroutines that are in [Read], [Write] and [Close] all return, within
    two steps each and without further calls. *)
Theorem close_completes t s : closed t = false -> inFlight t = 0 -> rtc step (start t) s ->
  exists s', rtc finish s s' /\ forall i q, procs s' !! i = Some q -> final q = true.
Proof.
  intros Hc Hn Hr. pose proof (tun_reachable_ok t s Hc Hn Hr) as Hs. clear Hr. remember (Z.to_nat (work (procs s))) as n eqn:En. revert s Hs En.
  induction (lt_wf n) as [n _ IH]. intros s Hs ->. destruct (finish_one s Hs) as [Hf|(s1 & Hf & Hlt)]; [by exists s|].
  assert (0 <= work (procs s1)) as Hpos by (unfold work, in_phase; lia).
  destruct (IH (Z.to_nat (work (procs s1))) ltac:(lia) s1 (step_ok _ _ Hs (proj1 Hf)) eq_refl) as (s' & Hr' & Hfin). exists s'. split; [by econstructor|done].
Qed.

Definition demo_tun : NetstackTUN := {| name := "veld0"; addr := {| p_addr := Addr4 0x64400001; p_bits := 10 |}; mtu := 1420; closed := false; inFlight := 0 |}.
Definition demo_end : sys := {| tun := with_state true 0 demo_tun; procs := <[1%nat := Closed true]> (<[0%nat := Returned DevError]> (<[1%nat := Waiting]> (<[0%nat := InDev]> ∅))) |}.
Definition demo_mid : sys := {| tun := with_state true 1 demo_tun; procs := <[1%nat := Waiting]> (<[0%nat := InDev]> ∅) |}.
Lemma demo_run : rtc step (start demo_tun) demo_mid /\ rtc step demo_mid demo_end.
Proof.
  split.
  - eapply rtc_l; [by eapply (S_op 0)|]. eapply rtc_l; [by eapply (S_close 1)|]. eapply rtc_l; [by eapply (S_device 1)|]. cbn. rewrite insert_insert_eq. apply rtc_refl.
  - eapply rtc_l; [by eapply (S_answer 0 _ _ DevError)|]. eapply rtc_l; [by eapply (S_wake 1)|]. apply rtc_refl.
Qed.

Lemma closed_is_quiet_witness : (forall j, procs demo_end !! j <> Some InDev) /\ closed (tun demo_end) = true.
Proof.
  destruct (closed_is_quiet demo_tun demo_end demo_end 1 eq_refl eq_refl) as (H1 & H2 & _); [etrans; apply demo_run|done|apply rtc_refl|]. by split.
Defined.
Lemma close_completes_witness : exists s', rtc finish demo_mid s' /\ forall i q, procs s' !! i = Some q -> final q = true.
Proof. apply (close_completes demo_tun demo_mid eq_refl eq_refl). apply demo_run. Defined.
End Tun.
