(* ===== verification/Lifecycle.v ===== *)
(** * Lifecycle: starting and stopping the daemon's process

    [Lifecycle] models the goroutines of a daemon's process and how it ends: the loops
    of [src/internal/dataplane/dispatcher.go] ([Start], [SetTUN], [Stop], [Wait]),
    [Start], [Stop] and [Wait] of [src/internal/daemon/daemon.go] and
    [src/internal/coord/client.go], [Wait] of the policy loader, and the programs that
    call them, [src/cmd/veld-daemon/main.go] and [veld up --foreground].  A call of
    [Stop] is the sequence of its stages; the stages, the turns of the loops, the
    signal, requests at the control socket and assignments of addresses interleave.
    Which packets the loops handle is the matter of [Dispatcher]. *)
From Stdlib Require Import ZArith Lia.
From stdpp Require Import base numbers list gmap relations.
From S2P Require Import Prelude Tun.

Module Lifecycle.

(** ** The goroutines and what they wait for *)

(** [LTunStart]: a [tunLoop] that has not yet read which device the dispatcher has;
    [LTun t] reads from device [t].  [LClient]: the [run] of the coordinator's client. *)
Inductive loop := LTunStart | LTun (t : nat) | LUdp | LRekey | LExpire | LClient.
#[export] Instance loop_eq_dec : EqDecision loop.
Proof. solve_decision. Defined.

(** The stages of the daemon's [Stop], in the order of the source. *)
Inductive stage := SDisp | SProxies | SCoord | SDns | SMdns | SRoutes | SForward | SIpc | SPolicy.
#[export] Instance stage_eq_dec : EqDecision stage.
Proof. solve_decision. Defined.

(** [d_tun]: the device of the dispatcher; [tunDev]: the one the daemon remembers;
    [closed_devs]: the devices that were closed.  [stop_closed], [policy_closed]:
    whether the channels that end the loops and the policy's watcher are closed.
    [cancel]: [None] before the client is started, then whether it was cancelled.
    [mdns]: the discovery, and whether it was stopped.  [loops] are the goroutines the
    wait groups count; [finished] the stages of [Stop] that are over. *)
Record life := {
  d_tun : option nat; tunDev : option nat; closed_devs : list nat; conn_closed : bool; stop_closed : bool;
  has_client : bool; cancel : option bool; mdns : option bool; policy_closed : bool;
  loops : list loop; finished : list stage
}.

Definition with_disp (t : option nat) (devs : list nat) (c s : bool) (l : life) : life :=
  {| d_tun := t; tunDev := tunDev l; closed_devs := devs; conn_closed := c; stop_closed := s; has_client := has_client l; cancel := cancel l; mdns := mdns l;
     policy_closed := policy_closed l; loops := loops l; finished := finished l |}.
Definition with_loops (ls : list loop) (l : life) : life :=
  {| d_tun := d_tun l; tunDev := tunDev l; closed_devs := closed_devs l; conn_closed := conn_closed l; stop_closed := stop_closed l; has_client := has_client l; cancel := cancel l;
     mdns := mdns l; policy_closed := policy_closed l; loops := ls; finished := finished l |}.
Definition with_daemon (t : option nat) (c m : option bool) (p : bool) (l : life) : life :=
  {| d_tun := d_tun l; tunDev := t; closed_devs := closed_devs l; conn_closed := conn_closed l; stop_closed := stop_closed l; has_client := has_client l; cancel := c;
     mdns := m; policy_closed := p; loops := loops l; finished := finished l |}.
Definition finish (s : stage) (l : life) : life :=
  {| d_tun := d_tun l; tunDev := tunDev l; closed_devs := closed_devs l; conn_closed := conn_closed l; stop_closed := stop_closed l; has_client := has_client l; cancel := cancel l;
     mdns := mdns l; policy_closed := policy_closed l; loops := loops l; finished := s :: finished l |}.

(** ** The dispatcher *)
Definition disp_New (client : bool) (m : option bool) : life :=
  {| d_tun := None; tunDev := None; closed_devs := []; conn_closed := false; stop_closed := false; has_client := client; cancel := None; mdns := m; policy_closed := false;
     loops := []; finished := [] |}.

Definition disp_Start (l : life) : life := with_loops (loops l ++ [LTunStart; LUdp; LRekey; LExpire]) l.

Definition SetTUN (t : option nat) (l : life) : life :=
  let l := with_disp t (closed_devs l) (conn_closed l) (stop_closed l) l in
  match t with Some _ => with_loops (loops l ++ [LTunStart]) l | None => l end.

(** [Stop] acts once: the channel, the device it has and the socket are closed. *)
Definition disp_Stop (l : life) : life :=
  if stop_closed l then l
  else with_disp (d_tun l) (match d_tun l with Some t => t :: closed_devs l | None => closed_devs l end) true true l.

Definition is_client (L : loop) : bool := match L with LClient => true | _ => false end.
Definition disp_Wait (l : life) : bool := forallb is_client (loops l).
Definition client_Wait (l : life) : bool := forallb (fun L => negb (is_client L)) (loops l).

(** How a turn of a loop goes.  [TData]: what it waited for is there, a packet or a
    tick.  [TEnd]: it sees that it was told to end, by a closed channel, a closed device
    or socket, or a cancelled context.  [TFail]: a read fails by itself. *)
Inductive turn := TData | TEnd | TFail.
#[export] Instance turn_eq_dec : EqDecision turn.
Proof. solve_decision. Defined.

(** A turn; [ended] is the state without the goroutine, [None] means that it blocks.  A
    read of an open device or socket ends with data or fails, one of a closed device or
    socket ends with an error and gives no more data; the loops with a ticker end by the
    channel only, the client by its context. *)
Definition tun_turn (t : nat) (k : turn) (ended l : life) : option life :=
  match k with
  | TData => if bool_decide (t ∈ closed_devs l) then None else Some l
  | TEnd => if bool_decide (t ∈ closed_devs l) then Some ended else None
  | TFail => Some ended
  end.
Definition udp_turn (k : turn) (ended l : life) : option life :=
  match k with
  | TData => if conn_closed l then None else Some l
  | TEnd => if conn_closed l then Some ended else None
  | TFail => Some ended
  end.
Definition rekey_turn (k : turn) (ended l : life) : option life :=
  match k with TData => Some l | TEnd => if stop_closed l then Some ended else None | TFail => None end.
Definition expire_turn (k : turn) (ended l : life) : option life :=
  match k with TData => Some l | TEnd => if stop_closed l then Some ended else None | TFail => None end.
Definition client_turn (k : turn) (ended l : life) : option life :=
  match k with TData => Some l | TEnd => if bool_decide (cancel l = Some true) then Some ended else None | TFail => None end.

(** One turn of the goroutine at [i]; a new [tunLoop] first looks which device there
    is. *)
Definition loop_step (i : nat) (k : turn) (l : life) : option life :=
  L ← loops l !! i;
  let ended := with_loops (delete i (loops l)) l in
  match L with
  | LTunStart => match d_tun l with None => Some ended | Some t => Some (with_loops (<[i := LTun t]> (loops l)) l) end
  | LTun t => tun_turn t k ended l
  | LUdp => udp_turn k ended l
  | LRekey => rekey_turn k ended l
  | LExpire => expire_turn k ended l
  | LClient => client_turn k ended l
  end.

(** ** The daemon *)
Definition client_Start (l : life) : life := with_loops (loops l ++ [LClient]) (with_daemon (tunDev l) (Some false) (mdns l) (policy_closed l) l).

Definition Start (l : life) : life := let l := disp_Start l in if has_client l then client_Start l else l.

(** [NewFromConfig], as far as goroutines and devices go: without a coordinator the
    device is there, and wired, before [Start]. *)
Definition made (coord disc : bool) : life :=
  if coord then disp_New true None
  else let l := SetTUN (Some 0%nat) (disp_New false (if disc then Some false else None)) in with_daemon (Some 0%nat) (cancel l) (mdns l) (policy_closed l) l.

(** [onVPNAddrAssigned] with an address that is new, as a device [t], and [disc]: whether
    it is advertised.  [None]: the discovery's channel is closed a second time, which
    panics. *)
Definition assign (t : nat) (disc : bool) (l : life) : option life :=
  let existing := tunDev l in
  let l := SetTUN (Some t) l in
  let l := match existing with Some u => with_disp (d_tun l) (u :: closed_devs l) (conn_closed l) (stop_closed l) l | None => l end in
  match mdns l with
  | Some true => None
  | _ => Some (with_daemon (Some t) (cancel l) (if disc then Some false else None) (policy_closed l) l)
  end.

Definition client_Stop (l : life) : life :=
  with_daemon (tunDev l) (match cancel l with Some _ => Some true | None => None end) (mdns l) (policy_closed l) l.

(** [Stop] of the discovery and [Wait] of the policy loader close a channel: the second
    time is a panic. *)
Definition mdns_Stop (l : life) : option life :=
  match mdns l with
  | Some true => None
  | Some false => Some (with_daemon (tunDev l) (cancel l) (Some true) (policy_closed l) l)
  | None => Some l
  end.
Definition loader_Wait (l : life) : option life :=
  if policy_closed l then None else Some (with_daemon (tunDev l) (cancel l) (mdns l) true l).

(** A stage of [Stop]. *)
Definition stop_stage (s : stage) (l : life) : option life :=
  l ← match s with
      | SDisp => Some (disp_Stop l)
      | SProxies => Some (with_daemon None (cancel l) (mdns l) (policy_closed l) l)
      | SCoord => Some (client_Stop l)
      | SDns | SRoutes | SForward | SIpc => Some l
      | SMdns => mdns_Stop l
      | SPolicy => loader_Wait l
      end;
  Some (finish s l).

(** ** The programs *)
Inductive instr := IStage (s : stage) | IWaitDisp | IWaitClient | ICloseDone | IAwaitDone | ISignal | ISelect | IExit.
#[export] Instance instr_eq_dec : EqDecision instr.
Proof. solve_decision. Defined.

Definition Stop : list instr := map IStage [SDisp; SProxies; SCoord; SDns; SMdns; SRoutes; SForward; SIpc; SPolicy].
Definition Wait : list instr := [IWaitDisp; IWaitClient].

Inductive outcome := Running | Exited | Panicked.
#[export] Instance outcome_eq_dec : EqDecision outcome.
Proof. solve_decision. Defined.

Record world := { state : life; threads : list (list instr); done_closed : bool; signalled : bool; status : outcome }.

(** After [Start]: [veld-daemon] selects between the signal and the end of [Wait], which
    another goroutine awaits; [veld up --foreground] waits itself, with a deferred
    [Stop], and a goroutine stops the daemon at the signal. *)
Definition daemon_main (l : life) : world :=
  {| state := Start l; threads := [[ISelect]; Wait ++ [ICloseDone]]; done_closed := false; signalled := false; status := Running |}.
Definition up_foreground (l : life) : world :=
  {| state := Start l; threads := [Wait ++ Stop ++ [IExit]; ISignal :: Stop]; done_closed := false; signalled := false; status := Running |}.

(** [WShutdown]: a request at the control socket, which runs [Stop] in a goroutine. *)
Inductive event := WLoop (i : nat) (k : turn) | WThread (i : nat) (sig : bool) | WSignal | WShutdown | WAssign (t : nat) (disc : bool).

Definition with_state (l : life) (w : world) : world :=
  {| state := l; threads := threads w; done_closed := done_closed w; signalled := signalled w; status := status w |}.
Definition with_threads (ts : list (list instr)) (w : world) : world :=
  {| state := state w; threads := ts; done_closed := done_closed w; signalled := signalled w; status := status w |}.
Definition ends_with (r : outcome) (w : world) : world :=
  {| state := state w; threads := threads w; done_closed := done_closed w; signalled := signalled w; status := r |}.

(** The next instruction of thread [i]; [None]: it blocks.  [sig]: which case a
    [select] takes. *)
Definition thread_step (i : nat) (sig : bool) (w : world) : option world :=
  p ← threads w !! i;
  match p with
  | [] => None
  | ins :: rest =>
      let next := with_threads (<[i := rest]> (threads w)) w in
      match ins with
      | IStage s => match stop_stage s (state w) with Some l => Some (with_state l next) | None => Some (ends_with Panicked w) end
      | IWaitDisp => if disp_Wait (state w) then Some next else None
      | IWaitClient => if client_Wait (state w) then Some next else None
      | ICloseDone => Some {| state := state w; threads := threads next; done_closed := true; signalled := signalled w; status := status w |}
      | IAwaitDone => if done_closed w then Some next else None
      | ISignal => if signalled w then Some next else None
      | ISelect => if sig then (if signalled w then Some (with_threads (<[i := Stop ++ [IAwaitDone; IExit]]> (threads w)) w) else None)
                   else if done_closed w then Some (with_threads (<[i := [IExit]]> (threads w)) w) else None
      | IExit => Some (ends_with Exited next)
      end
  end.

Definition exec (e : event) (w : world) : option world :=
  match status w with
  | Running =>
      match e with
      | WLoop i k => l ← loop_step i k (state w); Some (with_state l w)
      | WThread i sig => thread_step i sig w
      | WSignal => Some {| state := state w; threads := threads w; done_closed := done_closed w; signalled := true; status := status w |}
      | WShutdown => if bool_decide (SIpc ∈ finished (state w)) then None else Some (with_threads (threads w ++ [Stop]) w)
      | WAssign t disc => if bool_decide (LClient ∈ loops (state w)) then
                            match assign t disc (state w) with Some l => Some (with_state l w) | None => Some (ends_with Panicked w) end
                          else None
      end
  | _ => None
  end.

Fixpoint run (es : list event) (w : world) : option world :=
  match es with [] => Some w | e :: es' => w ← exec e w; run es' w end.

(** ** The end by a signal *)

(** What has happened when the main thread of [veld-daemon] is [k] instructions into the
    call of [Stop]. *)
Definition stop_path : list instr := Stop ++ [IAwaitDone; IExit].
Definition past (k : nat) (l : life) : Prop := forall s, IStage s ∈ take k stop_path -> s ∈ finished l.

Lemma loop_step_finished i e l l' : loop_step i e l = Some l' -> finished l' = finished l /\ stop_closed l' = stop_closed l.
Proof.
  unfold loop_step, tun_turn, udp_turn, rekey_turn, expire_turn, client_turn. destruct (loops l !! i) as [L|]; [|done]. cbn. intros Hs.
  destruct L; repeat case_match; by simplify_eq.
Qed.
Lemma loop_step_keeps L i e l l' : loop_step i e l = Some l' -> stop_closed l = false -> L = LRekey -> L ∈ loops l -> L ∈ loops l'.
Proof.
  unfold loop_step, tun_turn, udp_turn, rekey_turn, expire_turn, client_turn. intros Hs Hc -> Hin. destruct (loops l !! i) as [L|] eqn:E; [|done]. cbn in Hs.
  assert (L <> LRekey -> LRekey ∈ delete i (loops l)) as Hdel.
  { intros Hne. apply list_elem_of_lookup in Hin as [j Hj]. rewrite delete_take_drop. apply elem_of_app.
    destruct (decide (j < i)%nat); [left; apply list_elem_of_lookup; exists j; by rewrite lookup_take_lt|]. right. apply list_elem_of_lookup.
    assert (j <> i) as Hji by (intros ->; congruence). exists (j - S i)%nat. rewrite lookup_drop. by replace (S i + (j - S i))%nat with j by lia. }
  destruct L; rewrite ?Hc in Hs; repeat case_match; simplify_eq; try done; try (apply Hdel; done).
  apply list_elem_of_lookup in Hin as [j Hj]. apply list_elem_of_lookup. exists j. cbn. rewrite list_lookup_insert_ne; [done|]. intros ->; congruence.
Qed.
Lemma stop_stage_finished s l l' : stop_stage s l = Some l' -> s ∈ finished l' /\ finished l ⊆ finished l'.
Proof.
  unfold stop_stage. intros Hs. apply bind_Some in Hs as (l1 & E & [= <-]). cbn. assert (finished l1 = finished l) as ->.
  { unfold disp_Stop, mdns_Stop, loader_Wait in E. destruct s; repeat case_match; by simplify_eq. }
  split; [by left|]. intros x; by right.
Qed.
Lemma assign_finished t d l l' : assign t d l = Some l' -> finished l' = finished l /\ stop_closed l' = stop_closed l /\ loops l' = loops l ++ [LTunStart].
Proof. unfold assign. intros Ha. destruct (tunDev l); cbn in Ha; destruct (mdns l) as [[]|]; simplify_eq; done. Qed.

(** The states of [veld-daemon] without requests for a shutdown: the main thread is at
    its [select], which nothing but the signal can end, or on its way through [Stop]. *)
Definition waiter : list instr := Wait ++ [ICloseDone].
Inductive main_at (w : world) : list instr -> list instr -> Prop :=
| at_select : stop_closed (state w) = false -> LRekey ∈ loops (state w) -> done_closed w = false -> main_at w [ISelect] waiter
| at_path k j : past k (state w) -> main_at w (drop k stop_path) (drop j waiter).
Inductive signal_only (w : world) : Prop :=
| so_running m wt : status w = Running -> threads w = [m; wt] -> main_at w m wt -> signal_only w
| so_exited : status w = Exited -> past (length stop_path) (state w) -> signal_only w
| so_panicked : status w = Panicked -> signal_only w.

Lemma past_mono k l l' : finished l ⊆ finished l' -> past k l -> past k l'.
Proof. intros Hs Hp s Hin. by apply Hs, Hp. Qed.

Lemma main_at_state w l m wt : finished (state w) ⊆ finished l -> (stop_closed (state w) = false -> LRekey ∈ loops (state w) -> stop_closed l = false /\ LRekey ∈ loops l) ->
  main_at w m wt -> main_at (with_state l w) m wt.
Proof. intros Hf Hk [Hs Hl Hd|k j Hp]; [destruct (Hk Hs Hl); by constructor|]. constructor. by apply (past_mono _ (state w)). Qed.

(** The waiter's turn: at the [select] it blocks. *)
Lemma waiter_step w m wt sig w' : status w = Running -> threads w = [m; wt] -> main_at w m wt -> thread_step 1 sig w = Some w' -> signal_only w'.
Proof.
  intros Hr Ht Hm Hs. unfold thread_step in Hs. rewrite Ht in Hs. cbn in Hs. destruct Hm as [Hst Hl Hd|k j Hp].
  - exfalso. cbn in Hs. destruct (disp_Wait (state w)) eqn:E; [|done]. unfold disp_Wait in E. rewrite forallb_forall in E. by specialize (E _ (proj1 (list_elem_of_In _ _) Hl)).
  - destruct j as [|[|[|j]]]; cbn in Hs.
    + case_match; [|done]. injection Hs as <-. eapply so_running; [done|cbn; reflexivity|]. by apply (at_path _ k 1).
    + case_match; [|done]. injection Hs as <-. eapply so_running; [done|cbn; reflexivity|]. by apply (at_path _ k 2).
    + injection Hs as <-. eapply so_running; [done|cbn; reflexivity|]. by apply (at_path _ k 3).
    + by destruct j.
Qed.

Lemma drop_path k i r : drop k stop_path = i :: r -> stop_path !! k = Some i /\ r = drop (S k) stop_path /\ forall l, past k l -> (forall s, i = IStage s -> s ∈ finished l) -> past (S k) l.
Proof.
  intros E. assert (stop_path !! k = Some i) as Hk by (pose proof (lookup_drop stop_path k 0) as H; rewrite E, Nat.add_0_r in H; by symmetry).
  split_and!; [done|by replace (S k) with (k + 1)%nat by lia; rewrite <- drop_drop, E|]. intros l Hp Hi s. rewrite (take_S_r _ _ _ Hk), elem_of_app, list_elem_of_singleton. intros [?|<-]; [by apply Hp|by apply Hi].
Qed.

(** The main thread's turn. *)
Lemma main_step w m wt sig w' : status w = Running -> threads w = [m; wt] -> main_at w m wt -> thread_step 0 sig w = Some w' -> signal_only w'.
Proof.
  intros Hr Ht Hm Hs. unfold thread_step in Hs. rewrite Ht in Hs. cbn [lookup list_lookup mbind option_bind] in Hs. destruct Hm as [Hst Hl Hd|k j Hp].
  - rewrite Hd in Hs. destruct sig; [|done]. case_match; [|done]. injection Hs as <-. eapply so_running; [done|cbn; reflexivity|]. apply (at_path _ 0 0). intros ? Hs. by apply not_elem_of_nil in Hs.
  - destruct (drop k stop_path) as [|ins rest] eqn:E; [done|]. destruct (drop_path k ins rest E) as (Hk & -> & Hnext).
    assert (forall w1, status w1 = Running -> threads w1 = [drop (S k) stop_path; drop j waiter] -> past (S k) (state w1) -> signal_only w1) as Hgo.
    { intros w1 H1 H2 H3. eapply so_running; [done|exact H2|]. by constructor. }
    assert (match ins with IStage _ | IAwaitDone | IExit => True | _ => False end) as Hin.
    { assert (Forall (fun i => match i with IStage _ | IAwaitDone | IExit => True | _ => False end) stop_path) as HF by (vm_compute; repeat constructor). by apply (Forall_lookup_1 _ _ k ins HF). }
    destruct ins as [s| | | | | | |]; try done.
    + destruct (stop_stage s (state w)) as [l|] eqn:Es; injection Hs as <-; [|by apply so_panicked]. destruct (stop_stage_finished _ _ _ Es) as [Hf1 Hf2].
      apply Hgo; [done..|]. cbn. apply Hnext; [by eapply past_mono|]. by intros s' [= <-].
    + case_match; [|done]. injection Hs as <-. apply Hgo; [done..|]. by apply Hnext.
    + injection Hs as <-. apply so_exited; [done|]. cbn. assert (k = 10%nat) as ->; [|by apply (Hnext (state w))].
      clear -E. do 11 (destruct k as [|k]; [try done|]). by destruct k.
Qed.

Lemma exec_signal_only e w w' : e <> WShutdown -> signal_only w -> exec e w = Some w' -> signal_only w'.
Proof.
  intros He Hw Hx. unfold exec in Hx. destruct Hw as [m wt Hr Ht Hm|Hr|Hr]; rewrite Hr in Hx; try done. destruct e as [i ends|i sig| | |t disc]; try done.
  - apply bind_Some in Hx as (l & El & [= <-]). destruct (loop_step_finished _ _ _ _ El) as [Ef Es]. eapply so_running; [done|exact Ht|]. apply main_at_state; [by rewrite Ef| |done].
    intros Hs Hl. split; [by rewrite Es|]. by eapply loop_step_keeps.
  - destruct i as [|[|i]]; [by eapply main_step|by eapply waiter_step|]. unfold thread_step in Hx. by rewrite Ht in Hx.
  - injection Hx as <-. eapply so_running; [done|exact Ht|]. destruct Hm; by constructor.
  - case_bool_decide; [|done]. destruct (assign t disc (state w)) as [l|] eqn:Ea; injection Hx as <-; [|by apply so_panicked].
    destruct (assign_finished _ _ _ _ Ea) as (Ef & Es & El). eapply so_running; [done|exact Ht|]. apply main_at_state; [by rewrite Ef| |done].
    intros Hs Hl. rewrite Es, El. split; [done|]. apply elem_of_app. by left.
Qed.

Lemma run_signal_only es : forall w w', Forall (.≠ WShutdown) es -> signal_only w -> run es w = Some w' -> signal_only w'.
Proof.
  induction es as [|e es IH]; intros w w' Hes Hw Hr; [by injection Hr as <-|]. apply Forall_cons in Hes as [He Hes]. cbn in Hr. apply bind_Some in Hr as (w1 & E & Hr).
  eapply IH; [done| |done]. by eapply exec_signal_only.
Qed.

(** C20: When [veld-daemon] ends by a signal, whatever the order in which its goroutines
    run and the coordinator assigns addresses, the process does not exit before every
    stage of [Stop] is over: the routes are removed, forwarding is as it was, the
    control socket is gone. *)
Theorem signal_exit_clean l es w :
  stop_closed l = false -> Forall (.≠ WShutdown) es -> run es (daemon_main l) = Some w -> status w = Exited ->
  forall s, s ∈ finished (state w).
Proof.
  intros Hs Hes Hr Hx s. assert (signal_only (daemon_main l)) as H0.
  { eapply so_running; [done|reflexivity|]. apply at_select; cbn; unfold Start; [by destruct (has_client _)|destruct (has_client _); cbn; set_solver|done]. }
  destruct (run_signal_only es _ _ Hes H0 Hr) as [? ? Hr'|_ Hp|Hp]; [congruence| |congruence]. apply Hp. rewrite firstn_all. vm_compute. destruct s; set_solver.
Qed.

(** Schedules: all loops end, a thread runs [n] instructions. *)
Definition loops_end (n : nat) : list event := replicate n (WLoop 0 TEnd).
Definition turns (i n : nat) (sig : bool) : list event := replicate n (WThread i sig).

Definition signal_schedule : list event :=
  [WSignal] ++ turns 0 10 true ++ loops_end 7 ++ turns 1 3 false ++ turns 0 2 false.
Lemma signal_exit_clean_witness :
  exists w, run signal_schedule (daemon_main (made false true)) = Some w /\ status w = Exited /\ forall s, s ∈ finished (state w).
Proof.
  destruct (run signal_schedule (daemon_main (made false true))) as [w|] eqn:E; [|by vm_compute in E]. exists w.
  assert (status w = Exited) as Hx by (vm_compute in E; by injection E as <-). split_and!; [done|done|].
  apply (signal_exit_clean (made false true) signal_schedule w); [reflexivity|repeat constructor; done|exact E|exact Hx].
Defined.

(** ** The end by a request *)

(** A shutdown requested at the control socket runs [Stop] beside the main thread,
    which exits as soon as the loops have ended: with or without a coordinator there is
    a run of [veld-daemon] in which the process is gone before the routes are removed,
    forwarding is restored and the socket's file is deleted. *)
Theorem shutdown_exits_early coord disc :
  exists es w, run (WShutdown :: es) (daemon_main (made coord disc)) = Some w /\ status w = Exited /\ signalled w = false /\
    (SRoutes ∉ finished (state w)) /\ (SForward ∉ finished (state w)) /\ (SIpc ∉ finished (state w)).
Proof.
  exists (turns 2 (if coord then 3 else 1)%nat false ++ loops_end (if coord then 5 else 7)%nat ++ turns 1 3 false ++ turns 0 2 false).
  destruct coord, disc; eexists; (split; [vm_compute; reflexivity|]); cbn; split_and!; try done; intros Hin; repeat (apply elem_of_cons in Hin as [Hin|Hin]; [done|]); by apply not_elem_of_nil in Hin.
Qed.

(** ** Stopping twice *)

(** Threads of [veld up --foreground]: only the main one exits, and its program is what
    is left of the source's; no two have passed the last stage of [Stop], which closes
    the policy loader's channel. *)
Definition up_main : list instr := Wait ++ Stop ++ [IExit].
Definition returned (r : list instr) : Prop := IStage SPolicy ∉ r.
Record one_stop (w : world) : Prop := {
  os_main : exists k, threads w !! 0%nat = Some (drop k up_main);
  os_other : forall i r, threads w !! i = Some r -> i <> 0%nat -> IExit ∉ r;
  os_select : forall i r, threads w !! i = Some r -> ISelect ∉ r;
  os_open : policy_closed (state w) = false -> forall i r, threads w !! i = Some r -> ~ returned r;
  os_one : forall i j r r', threads w !! i = Some r -> threads w !! j = Some r' -> i <> j -> returned r -> ~ returned r';
  os_exited : status w = Exited -> threads w !! 0%nat = Some []
}.

Lemma one_stop_state l w : policy_closed l = policy_closed (state w) -> one_stop w -> one_stop (with_state l w).
Proof. intros Hp [H1 H2 H3 H4 H5 H6]. split; try done. cbn. by rewrite Hp. Qed.

Lemma drop_next {A} (l : list A) k x r : drop k l = x :: r -> r = drop (S k) l.
Proof. intros E. replace (S k) with (k + 1)%nat by lia. by rewrite <- drop_drop, E. Qed.

(** A thread goes on by one instruction: the state's channel is closed exactly by the
    last stage, and only by the first to reach it. *)
Lemma one_stop_next w i ins r l :
  one_stop w -> status w = Running -> threads w !! i = Some (ins :: r) ->
  (if decide (ins = IStage SPolicy) then policy_closed (state w) = false /\ policy_closed l = true else policy_closed l = policy_closed (state w)) ->
  one_stop (with_state l (with_threads (<[i := r]> (threads w)) w)).
Proof.
  intros [[k H1] H2 H3 H4 H5 H6] Hr Hi Hp. assert (i < length (threads w))%nat as Hlt by by eapply lookup_lt_Some.
  assert (ins <> IStage SPolicy -> returned r -> returned (ins :: r)) as Hret by (unfold returned; set_solver).
  assert (forall j q, <[i := r]> (threads w) !! j = Some q -> (j = i /\ q = r) \/ (j <> i /\ threads w !! j = Some q)) as Hl.
  { intros j q Hq. destruct (decide (i = j)) as [->|Hne]; [rewrite list_lookup_insert_eq in Hq by done; left; by simplify_eq|]. rewrite list_lookup_insert_ne in Hq by done. by right. }
  split; cbn.
  - destruct (decide (i = 0%nat)) as [->|Hne]; [|exists k; by rewrite list_lookup_insert_ne]. rewrite list_lookup_insert_eq by done. exists (S k). rewrite Hi in H1.
    injection H1 as H1. by rewrite (drop_next up_main k ins r).
  - intros j q [[-> ->]|[? Hq]]%Hl Hj; [|by apply (H2 j)]. pose proof (H2 _ _ Hi Hj). set_solver.
  - intros j q [[-> ->]|[? Hq]]%Hl; [|by apply (H3 j)]. pose proof (H3 _ _ Hi). set_solver.
  - intros Hc j q Hq. case_decide as Hd; [destruct Hp; congruence|]. rewrite Hp in Hc. destruct (Hl _ _ Hq) as [[-> ->]|[? Hq']]; [|by eapply H4]. intros Hret'. eapply (H4 Hc i); [done|]. by apply Hret.
  - intros j1 j2 q1 q2 Hq1 Hq2 Hj Hret1 Hret2. destruct (Hl _ _ Hq1) as [[-> ->]|[Hn1 Hq1']], (Hl _ _ Hq2) as [[-> ->]|[Hn2 Hq2']]; [done| | |by eapply (H5 j1 j2)].
    + case_decide as Hd; [destruct Hp as [Hp _]; by eapply (H4 Hp j2)|]. eapply (H5 i j2); [done|done|done|by apply Hret|done].
    + case_decide as Hd; [destruct Hp as [Hp _]; by eapply (H4 Hp j1)|]. eapply (H5 i j1); [done|done|done|by apply Hret|done].
  - congruence.
Qed.

Lemma loop_step_policy i e l l' : loop_step i e l = Some l' -> policy_closed l' = policy_closed l.
Proof. unfold loop_step, tun_turn, udp_turn, rekey_turn, expire_turn, client_turn. destruct (loops l !! i) as [L|]; [|done]. cbn. intros Hs. destruct L; repeat case_match; by simplify_eq. Qed.
Lemma assign_policy t d l l' : assign t d l = Some l' -> policy_closed l' = policy_closed l.
Proof. unfold assign. intros Ha. destruct (tunDev l); cbn in Ha; destruct (mdns l) as [[]|]; by simplify_eq. Qed.
Lemma stop_stage_policy s l l' : stop_stage s l = Some l' -> if decide (s = SPolicy) then policy_closed l = false /\ policy_closed l' = true else policy_closed l' = policy_closed l.
Proof.
  unfold stop_stage, disp_Stop, mdns_Stop, loader_Wait. intros Hs. apply bind_Some in Hs as (l1 & E & [= <-]). destruct s; rewrite ?decide_False by done; rewrite ?decide_True by done; repeat case_match; by simplify_eq.
Qed.

Lemma panicked_ok w : one_stop w -> status w = Running -> one_stop (ends_with Panicked w).
Proof. intros [H1 H2 H3 H4 H5 H6] Hr. by split. Qed.

Lemma thread_one_stop i sig w w' : one_stop w -> status w = Running -> thread_step i sig w = Some w' -> one_stop w'.
Proof.
  intros Hw Hr Hs. unfold thread_step in Hs. destruct (threads w !! i) as [p|] eqn:Ei; [|done]. cbn [mbind option_bind] in Hs. destruct p as [|ins r]; [done|].
  assert (ins <> IStage SPolicy -> one_stop (with_threads (<[i := r]> (threads w)) w)) as Hgo.
  { intros Hne. apply (one_stop_next w i ins r (state w)); try done. by rewrite decide_False. }
  destruct ins as [s| | | | | | |]; try (case_match; [|done]; injection Hs as <-; by apply Hgo).
  - destruct (stop_stage s (state w)) as [l|] eqn:Es; injection Hs as <-; [|by apply panicked_ok]. apply (one_stop_next w i (IStage s)); try done.
    pose proof (stop_stage_policy _ _ _ Es) as Hp. destruct (decide (s = SPolicy)) as [->|Hne]; [by rewrite decide_True in * by done|]. by rewrite decide_False in * by congruence.
  - injection Hs as <-. destruct (Hgo ltac:(done)) as [H1 H2 H3 H4 H5 H6]. by split.
  - exfalso. pose proof (os_select _ Hw _ _ Ei). set_solver.
  - injection Hs as <-. destruct (decide (i = 0%nat)) as [->|Hne]; [|exfalso; pose proof (os_other _ Hw _ _ Ei Hne); set_solver].
    destruct (Hgo ltac:(done)) as [H1 H2 H3 H4 H5 H6]. split; try done. intros _. cbn. rewrite list_lookup_insert_eq by by eapply lookup_lt_Some.
    destruct (os_main _ Hw) as [k Hk]. rewrite Ei in Hk. injection Hk as Hk. do 11 (destruct k as [|k]; [try done|]). destruct k as [|k]; [by injection Hk as ->|by destruct k].
Qed.

Lemma exec_one_stop e w w' : one_stop w -> exec e w = Some w' -> one_stop w'.
Proof.
  intros Hw Hx. unfold exec in Hx. destruct (status w) eqn:Hr; try done. destruct e as [i ends|i sig| | |t disc].
  - apply bind_Some in Hx as (l & El & [= <-]). apply one_stop_state; [by eapply loop_step_policy|done].
  - by eapply thread_one_stop.
  - injection Hx as <-. destruct Hw as [H1 H2 H3 H4 H5 H6]. by split.
  - case_bool_decide; [done|]. injection Hx as <-. destruct Hw as [[k H1] H2 H3 H4 H5 H6].
    assert (forall j q, (threads w ++ [Stop]) !! j = Some q -> threads w !! j = Some q \/ (j <> 0%nat /\ q = Stop)) as Hl.
    { intros j q Hq. apply lookup_app_Some in Hq as [?|[Hj Hq]]; [by left|right]. apply list_lookup_singleton_Some in Hq as [Hz <-].
      apply lookup_lt_Some in H1. split; [lia|done]. }
    assert (~ returned Stop) as Hst by (intros Hc; apply Hc; unfold Stop; cbn; set_solver).
    split; cbn.
    + exists k. apply lookup_app_l_Some, H1.
    + intros j q [Hq|[_ ->]]%Hl Hj; [by eapply H2|]. unfold Stop; cbn; set_solver.
    + intros j q [Hq|[_ ->]]%Hl; [by eapply H3|]. unfold Stop; cbn; set_solver.
    + intros Hc j q [Hq|[_ ->]]%Hl; [by eapply H4|done].
    + intros j1 j2 q1 q2 [Hq1|[_ ->]]%Hl [Hq2|[_ ->]]%Hl Hj Hret; try done. by eapply (H5 j1 j2).
    + congruence.
  - case_bool_decide; [|done]. destruct (assign t disc (state w)) as [l|] eqn:Ea; injection Hx as <-; [|by apply panicked_ok]. apply one_stop_state; [by eapply assign_policy|done].
Qed.

(** [veld up --foreground] runs [Stop] again when the daemon has stopped, and [Stop]
    cannot be run twice: in every run, when the process exits, no call of [Stop] but the
    deferred one has returned.  Once the call for a signal or for a request at the
    control socket has returned, the process can only end by a panic. *)
Theorem foreground_stops_once l es w :
  policy_closed l = false -> run es (up_foreground l) = Some w -> status w = Exited ->
  forall j r, threads w !! j = Some r -> j <> 0%nat -> ~ returned r.
Proof.
  intros Hp Hr Hx j r Hj H0. assert (one_stop (up_foreground l)) as Hi.
  { split; cbn; try done.
    - by exists 0%nat.
    - intros [|[|i]] q Hq Hne; simplify_eq/=. set_solver.
    - intros [|[|i]] q Hq; simplify_eq/=; set_solver.
    - intros _ [|[|i]] q Hq; simplify_eq/=; intros Hc; apply Hc; set_solver.
    - intros [|[|i]] [|[|i']] q q' Hq Hq' Hne Hc; simplify_eq/=; intros Hc'; apply Hc'; set_solver. }
  assert (one_stop w) as Hw.
  { clear Hx Hj. revert Hi Hr. generalize (up_foreground l). induction es as [|e es IH]; intros w0 Hi Hr; [by injection Hr as <-|]. cbn in Hr. apply bind_Some in Hr as (w1 & E & Hr).
    eapply IH; [|done]. by eapply exec_one_stop. }
  pose proof (os_exited _ Hw Hx) as H00. eapply (os_one _ Hw 0%nat j); [done|done|done|]. apply not_elem_of_nil.
Qed.

Lemma foreground_stops_once_witness :
  exists w, run ([WSignal] ++ turns 1 2 false ++ loops_end 7 ++ turns 0 12 false) (up_foreground (made false true)) = Some w /\ status w = Exited /\
    forall j r, threads w !! j = Some r -> j <> 0%nat -> ~ returned r.
Proof.
  destruct (run ([WSignal] ++ turns 1 2 false ++ loops_end 7 ++ turns 0 12 false) (up_foreground (made false true))) as [w|] eqn:E; [|by vm_compute in E]. exists w.
  assert (status w = Exited) as Hx by (vm_compute in E; by injection E as <-). split_and!; [done|done|].
  exact (foreground_stops_once (made false true) _ w eq_refl E Hx).
Defined.

(** One signal is enough for the panic, with and without discovery. *)
Lemma foreground_signal_panics (disc : bool) :
  exists w, run ([WSignal] ++ turns 1 10 false ++ loops_end 7 ++ turns 0 (if disc then 7 else 11)%nat false) (up_foreground (made false disc)) = Some w /\ status w = Panicked.
Proof. destruct disc; eexists; (split; [vm_compute; reflexivity|done]). Qed.

(** ** The loops end *)

(** The devices that loops read, or will, are closed. *)
Definition devices_closed (l : life) : Prop :=
  (forall t, LTun t ∈ loops l -> t ∈ closed_devs l) /\ (forall t, d_tun l = Some t -> t ∈ closed_devs l).
Record stopped (l : life) : Prop := { st_stop : stop_closed l = true; st_conn : conn_closed l = true; st_dev : devices_closed l }.

(** Turns that change something; a tick does not.  [forced]: those that need no read
    to fail by itself. *)
Definition moves (l l' : life) : Prop := exists i k, loop_step i k l = Some l' /\ l' <> l.
Definition forced (l l' : life) : Prop := exists i k, k <> TFail /\ loop_step i k l = Some l' /\ l' <> l.

Definition turns_left (L : loop) : nat := match L with LTunStart => 2 | _ => 1 end.
Definition weight (l : life) : nat := sum_list_with turns_left (loops l).

Lemma weight_delete ls i L : ls !! i = Some L -> sum_list_with turns_left ls = (turns_left L + sum_list_with turns_left (delete i ls))%nat.
Proof. intros Hi. rewrite (delete_take_drop ls i), <- (take_drop_middle ls i L Hi) at 1. rewrite !sum_list_with_app. cbn. lia. Qed.
Lemma weight_insert ls i t : ls !! i = Some LTunStart -> sum_list_with turns_left ls = S (sum_list_with turns_left (<[i := LTun t]> ls)).
Proof.
  intros Hi. rewrite insert_take_drop by by eapply lookup_lt_Some. rewrite <- (take_drop_middle ls i _ Hi) at 1. rewrite !sum_list_with_app. cbn. lia.
Qed.

Lemma delete_elem (L : loop) (i : nat) (ls : list loop) : L ∈ delete i ls -> L ∈ ls.
Proof. rewrite delete_take_drop, elem_of_app. intros [Hin|Hin]; apply list_elem_of_lookup in Hin as [j Hj]; apply list_elem_of_lookup; [rewrite lookup_take_Some in Hj; naive_solver|]. rewrite lookup_drop in Hj. eauto. Qed.

Lemma moves_stopped l l' : stopped l -> moves l l' -> stopped l' /\ (weight l' < weight l)%nat.
Proof.
  intros [Hs Hc [Hd Ht]] (i & e & Hm & Hne). unfold loop_step, tun_turn, udp_turn, rekey_turn, expire_turn, client_turn in Hm. destruct (loops l !! i) as [L|] eqn:Ei; [|done]. cbn [mbind option_bind] in Hm.
  assert (forall l1, l1 = with_loops (delete i (loops l)) l -> stopped l1 /\ (weight l1 < weight l)%nat) as Hend.
  { intros l1 ->. split; [split; [done..|]; split; [intros t Hin; by apply Hd, (delete_elem _ i)|exact Ht]|]. unfold weight. cbn. rewrite (weight_delete _ _ _ Ei). destruct L; cbn; lia. }
  destruct L; repeat case_match; simplify_eq; try (by apply Hend).
  split; [|unfold weight; cbn; rewrite (weight_insert _ _ n Ei); lia]. split; [done..|]. split; cbn; [|intros t; rewrite H; apply Ht]. intros t Hin. apply list_elem_of_lookup in Hin as [j Hj].
  apply list_lookup_insert_Some in Hj as [(-> & [= <-] & _)|(_ & Hj)]; [by apply Ht|]. apply Hd. apply list_elem_of_lookup. eauto.
Qed.

Lemma stopped_moves l : stopped l -> disp_Wait l = false -> exists l', forced l l'.
Proof.
  intros [Hs Hc [Hd Ht]] Hw. assert (exists i L, loops l !! i = Some L /\ is_client L = false) as (i & L & Ei & HL).
  { unfold disp_Wait in Hw. clear -Hw. induction (loops l) as [|L ls IH]; [done|]. cbn in Hw. destruct (is_client L) eqn:E; [|by exists 0%nat, L]. destruct (IH Hw) as (i & L' & ? & ?). by exists (S i), L'. }
  assert (forall l', length (loops l') <> length (loops l) -> l' <> l) as Hne by congruence.
  assert (length (delete i (loops l)) <> length (loops l)) as Hlen by (rewrite length_delete by eauto; pose proof (lookup_lt_Some _ _ _ Ei); lia).
  assert (loop_step i TEnd l = Some (with_loops (delete i (loops l)) l) -> exists l', forced l l') as Hend.
  { intros E. exists (with_loops (delete i (loops l)) l), i, TEnd. split_and!; [done|done|]. by apply Hne. }
  unfold loop_step, tun_turn, udp_turn, rekey_turn, expire_turn, client_turn in Hend. rewrite Ei in Hend. cbn in Hend.
  destruct L as [|t| | | |]; try done.
  - destruct (d_tun l) as [t|] eqn:Et; [|by apply Hend]. clear Hend.
    exists (with_loops (<[i := LTun t]> (loops l)) l), i, TEnd. unfold loop_step. rewrite Ei. cbn. rewrite Et. split_and!; [done|done|].
    intros Hc'. apply (f_equal (fun l => loops l !! i)) in Hc'. cbn in Hc'. rewrite list_lookup_insert_eq in Hc' by by eapply lookup_lt_Some. congruence.
  - apply Hend. rewrite bool_decide_true; [done|]. apply Hd. by eapply list_elem_of_lookup_2.
  - apply Hend. by rewrite Hc.
  - apply Hend. by rewrite Hs.
  - apply Hend. by rewrite Hs.
Qed.

(** After [Stop] the devices are closed when every loop reads the dispatcher's device. *)
Lemma disp_Stop_stopped l : stop_closed l = false -> (forall t, LTun t ∈ loops l -> d_tun l = Some t \/ t ∈ closed_devs l) -> stopped (disp_Stop l).
Proof.
  intros Hs Hd. unfold disp_Stop. rewrite Hs. split; [done..|]. split; cbn.
  - intros t Hin. destruct (Hd t Hin) as [->|?]; [by left|]. destruct (d_tun l); [by right|done].
  - intros t ->. by left.
Qed.

(** C21: The data plane stops.  A read of an open device or socket may last for ever, or
    fail by itself; one of a closed device or socket ends.  After [Stop], with no device
    replaced that is still open, the goroutines end within a bounded number of turns, in
    whatever order they run; and unless [Wait] returns, one of them can go on without a
    read failing by itself: [Stop] has closed what each of them waits for. *)
Theorem dispatcher_drains l :
  stop_closed l = false -> (forall t, LTun t ∈ loops l -> d_tun l = Some t \/ t ∈ closed_devs l) ->
  (forall n l', nsteps moves n (disp_Stop l) l' -> (n <= 2 * length (loops l))%nat) /\
  (forall l', rtc moves (disp_Stop l) l' -> disp_Wait l' = true \/ exists l2, forced l' l2).
Proof.
  intros Hs Hd. pose proof (disp_Stop_stopped l Hs Hd) as H0. split.
  - assert (weight (disp_Stop l) <= 2 * length (loops l))%nat as Hw.
    { unfold disp_Stop, weight. rewrite Hs. cbn. generalize (loops l). intros ls. induction ls as [|L ls IH]; [done|]. cbn. destruct L; cbn; lia. }
    intros n l' Hn. assert (forall k a b, nsteps moves k a b -> stopped a -> (k <= weight a)%nat) as Hk; [|specialize (Hk _ _ _ Hn H0); lia].
    induction 1 as [|k a b c Hab Hbc IH]; intros Ha; [lia|]. destruct (moves_stopped _ _ Ha Hab) as [Hb Hlt]. specialize (IH Hb). lia.
  - intros l' Hr. assert (stopped l') as Hl' by (revert H0; induction Hr as [|a b c Hab _ IH]; [done|]; intros Ha; by apply IH, (moves_stopped a)).
    destruct (disp_Wait l') eqn:E; [by left|]. right. by apply stopped_moves.
Qed.

(** A daemon whose reader is at work: it blocks until [Stop] closes the device. *)
Definition reading : life := default (made false false) (loop_step 0 TData (Start (made false false))).
Example reading_blocks :
  loop_step 0 TEnd reading = None /\ loop_step 0 TEnd (disp_Stop reading) = Some (with_loops (tail (loops reading)) (disp_Stop reading)).
Proof. by vm_compute. Qed.

Lemma dispatcher_drains_witness :
  loops reading !! 0%nat = Some (LTun 0) /\
  forall l', rtc moves (disp_Stop reading) l' -> disp_Wait l' = true \/ exists l2, forced l' l2.
Proof.
  split; [reflexivity|]. refine (proj2 (dispatcher_drains reading eq_refl _)). intros t Hin. left. cbn in Hin.
  apply elem_of_cons in Hin as [[= ->]|Hin]; [reflexivity|].
  exfalso. repeat (apply elem_of_cons in Hin as [Hin|Hin]; [discriminate Hin|]). by apply not_elem_of_nil in Hin.
Defined.

(** Turns and calls of [Stop] in which device [t] itself does not fail. *)
Definition fine_turn (t : nat) (l l' : life) : Prop :=
  (exists i k, loop_step i k l = Some l' /\ (k = TFail -> loops l !! i <> Some (LTun t))) \/ l' = disp_Stop l.

Record hung (t : nat) (l : life) : Prop := {
  hg_stop : stop_closed l = true; hg_open : t ∉ closed_devs l; hg_dev : d_tun l = Some t;
  hg_loop : exists i, loops l !! i = Some LTunStart \/ loops l !! i = Some (LTun t)
}.

Lemma fine_turn_hung t l l' : hung t l -> fine_turn t l l' -> hung t l'.
Proof.
  intros [Hs Hc Ht [j Hj]] [(i & e & Hst & He)| ->]; [|unfold disp_Stop; rewrite Hs; by split; eauto].
  unfold loop_step, tun_turn, udp_turn, rekey_turn, expire_turn, client_turn in Hst. destruct (loops l !! i) as [L|] eqn:Ei; [|done]. cbn [mbind option_bind] in Hst.
  assert (i <> j -> l' = with_loops (delete i (loops l)) l -> hung t l') as Hend.
  { intros Hne ->. split; [done..|]. destruct (decide (j < i)%nat); [exists j; cbn; by rewrite list_lookup_delete_lt|exists (j - 1)%nat]. cbn. rewrite list_lookup_delete_ge by lia. by replace (S (j - 1)) with j by lia. }
  assert (l' = l -> hung t l') as Hsame by (intros ->; split; eauto).
  destruct L; rewrite ?Ht, ?Hs in Hst; repeat case_match; simplify_eq; try (apply Hsame; done); try (apply Hend; [intros ->; destruct Hj; congruence|done]).
  - split; [done..|]. cbn. exists j. destruct (decide (i = j)) as [->|Hne]; [right; by rewrite list_lookup_insert_eq by by eapply lookup_lt_Some|]. by rewrite list_lookup_insert_ne.
  - apply Hend; [|done]. intros ->. destruct Hj; [congruence|]. simplify_eq. match goal with H : bool_decide _ = true |- _ => by apply bool_decide_eq_true in H end.
  - apply Hend; [|done]. intros ->. destruct Hj; [congruence|]. simplify_eq. by apply (He eq_refl).
Qed.

(** A device that is set after [Stop], for an address the coordinator assigned
    meanwhile, is never closed: its loop stays, and [Wait] does not return. *)
Theorem late_tun_hangs t l l' :
  stop_closed l = true -> t ∉ closed_devs l -> rtc (fine_turn t) (SetTUN (Some t) l) l' -> disp_Wait l' = false.
Proof.
  intros Hs Hc Hr. assert (hung t (SetTUN (Some t) l)) as H0.
  { split; [done..|]. exists (length (loops l)). left. cbn. by rewrite lookup_app_r, Nat.sub_diag by lia. }
  assert (hung t l') as [_ _ _ [i Hi]] by (revert H0; induction Hr as [|a b c Hab _ IH]; [done|]; intros Ha; by eapply IH, fine_turn_hung).
  unfold disp_Wait. apply not_true_iff_false. rewrite forallb_forall. intros Hf. destruct Hi as [Hi|Hi]; apply list_elem_of_lookup_2, list_elem_of_In in Hi; by specialize (Hf _ Hi).
Qed.

(** Without a coordinator two goroutines read the same device: [SetTUN] starts one when
    the device is wired, [Start] another. *)
Lemma static_device_read_twice disc :
  (l ← loop_step 0 TData (Start (made false disc)); l ← loop_step 1 TData l; Some (loops l)) = Some [LTun 0; LTun 0; LUdp; LRekey; LExpire].
Proof. by destruct disc. Qed.

(** The rule for closed devices is what the userspace device keeps: a [Read] that ends
    after [Close] answers with an error. *)
Lemma closed_device_errors r t n : Tun.closed t = true -> (Tun.op_end r t).2 <> Tun.Returned (Tun.Done n).
Proof. intros Hc. cbn. rewrite Hc. by destruct r. Qed.
End Lifecycle.
