(* ===== verification/Deploy.v ===== *)
(** * Deploy: the programs put together

    [Deploy] models how the programs are started and fit together: the coordinator
    ([src/cmd/veld-coord/main.go]: its token, its database and network, the sweep, the
    listener, TLS), what the daemon makes of its configuration for the coordinator's
    client and the relay ([NewFromConfig] in [src/internal/daemon/daemon.go]), the start
    of [src/cmd/veld-daemon/main.go], and the key [src/cmd/veld-relay/main.go] prints.
    The theorems compose the components: a machine that logs in joins. *)
From Stdlib Require Import ZArith Lia.
From stdpp Require Import base numbers list gmap strings fin_maps.
From S2P Require Import Prelude GoLib PeerTable AddrText Registry SignedMsg Bus Server Noise CoordClient Membership Config Daemon Login RateLimit Cli.

Module Deploy.
Import Netip AddrText.
Import Registry.Registry Server.Server.
Local Open Scope veld_scope.

(** ** The coordinator's program *)
Record coord_flags := {
  fl_network_id : string; fl_network_cidr : string; fl_network_name : string; fl_token : string; fl_token_file : string;
  fl_tls_cert : string; fl_tls_key : string; fl_proxy : string; fl_peer_ttl : Z; fl_sweep_interval : Z
}.

(** What it finds: [VELD_COORD_TOKEN], files, whether the database opens and takes a
    write, the clock, whether the port is free and the certificate loads. *)
Record coord_env := {
  en_token : string; en_file : string -> option string; en_open : bool; en_io : bool; en_now : Z; en_listen : bool; en_cert : bool
}.

Inductive coord_fatal := FTokenFile | FRegistry (e : error) | FNetworkCIDR | FListen | FProxy (cidr : string) | FCert | FTLSPair.

Definition coord_token (fl : coord_flags) (en : coord_env) : result coord_fatal string :=
  let tokenStr := if String.eqb (fl_token fl) "" then en_token en else fl_token fl in
  if String.eqb (fl_token_file fl) "" then Ok tokenStr
  else match en_file en (fl_token_file fl) with None => Err FTokenFile | Some b => Ok (Scan.TrimSpace b) end.

Definition account_1 : Account := {| acc_ID := "account-1"; acc_Tier := 0 |}.
Definition coord_tokens (tokenStr : string) : gmap string Account :=
  if String.eqb tokenStr "" then ∅ else {[ tokenStr := account_1 ]}.

(** [StartPeerSweeper]: no sweep, or one of its age at its interval. *)
Definition StartPeerSweeper (ttl interval : Z) : option (Z * Z) :=
  if ttl <=? 0 then None else Some (ttl, normalizeSweepInterval interval).

(** The certificate that is served; [None]: gRPC in plaintext. *)
Definition coord_tls (fl : coord_flags) (en : coord_env) : result coord_fatal (option string) :=
  let cert := negb (String.eqb (fl_tls_cert fl) "") in
  let key := negb (String.eqb (fl_tls_key fl) "") in
  if cert && key then (if en_cert en then Ok (Some (fl_tls_cert fl)) else Err FCert)
  else if cert || key then Err FTLSPair else Ok None.

Section Coordinator.
Context {M : Type -> Type} `{FMap M, forall A, Lookup string A (M A), forall A, Empty (M A),
  forall A, PartialAlter string A (M A), OMap M, Merge M, forall A, MapFold string A (M A), !FinMap string M}.

Record coordinator := {
  co_server : Server M; co_tokens : gmap string Account; co_sweep : option (Z * Z);
  co_proxy : option (list string * Z); co_limiter : RateLimit.RateLimit.IPRateLimiter; co_tls : option string
}.

(** A network that exists already, or that cannot be written, is not fatal. *)
Definition coord_network (fl : coord_flags) (en : coord_env) (reg : Registry M) : result coord_fatal (Registry M) :=
  if String.eqb (fl_network_id fl) "" then Ok reg
  else match ParsePrefix (fl_network_cidr fl) with
       | None => Err FNetworkCIDR
       | Some cidr => Ok (CreateNetwork (en_io en) {| net_ID := fl_network_id fl; net_CIDR := cidr; net_Name := fl_network_name fl |} "account-1" (en_now en) reg).1
       end.

Definition coord_main (fl : coord_flags) (en : coord_env) (d : DB M) : result coord_fatal coordinator :=
  tokenStr <-! coord_token fl en;
  reg <-! match NewRegistry (en_open en) d with Ok r => Ok r | Err e => Err (FRegistry e) end;
  reg <-! coord_network fl en reg;
  proxy <-! (if negb (en_listen en) then Err FListen
             else match RateLimit.RateLimit.WrapProxyProtocolListener (fl_proxy fl) with Ok p => Ok p | Err s => Err (FProxy s) end);
  tls <-! coord_tls fl en;
  Ok {| co_server := New reg; co_tokens := coord_tokens tokenStr; co_sweep := StartPeerSweeper (fl_peer_ttl fl) (fl_sweep_interval fl);
        co_proxy := proxy; co_limiter := RateLimit.RateLimit.coordinator_limiter; co_tls := tls |}.


End Coordinator.

(** ** The daemon's side *)

(** The client's configuration, of the daemon's. *)
Definition coord_config (cfg : Config.Config.Config) (id : Noise.Noise.Identity) (hostname : string) : CoordClient.CoordClient.Config :=
  {| CoordClient.CoordClient.ServerAddr := Config.Config.Addr (Config.Config.Coord cfg); CoordClient.CoordClient.NetworkID := Config.Config.c_NetworkID (Config.Config.Coord cfg);
     CoordClient.CoordClient.Token := Config.Config.Token (Config.Config.Coord cfg); CoordClient.CoordClient.Identity := id;
     CoordClient.CoordClient.LocalName := Daemon.Daemon.advertisedPeerName (Config.Config.mdns_Name (Config.Config.MDNS cfg)) hostname;
     CoordClient.CoordClient.Endpoint := Daemon.Daemon.advertisedEndpoint (Config.Config.ListenAddr (Config.Config.Node cfg));
     CoordClient.CoordClient.SubnetRoutes := Config.Config.SubnetRoutes (Config.Config.Node cfg);
     CoordClient.CoordClient.TLSInsecure := Config.Config.TLSInsecure (Config.Config.Coord cfg) |}.

(** *** The connection *)

(** The credentials of a side: none, or TLS.  The client takes TLS unless its
    configuration turns it off, and does not fall back; the coordinator takes the
    certificate it was given. *)
Inductive credentials := Insecure | NewTLS.
Definition dial_credentials (c : CoordClient.CoordClient.Client) : credentials :=
  if CoordClient.CoordClient.TLSInsecure (CoordClient.CoordClient.cfg c) then Insecure else NewTLS.

(** [verifies cert addr]: the certificate in the file [cert] verifies for the dialled
    address against the host's authorities, which [crypto/tls] decides. *)
Definition connects (verifies : string -> string -> bool) (tls : option string) (c : CoordClient.CoordClient.Client) : bool :=
  match dial_credentials c, tls with
  | NewTLS, Some cert => verifies cert (CoordClient.CoordClient.ServerAddr (CoordClient.CoordClient.cfg c))
  | Insecure, None => true
  | _, _ => false
  end.

(** A call gets to its handler only over a connection. *)
Definition rpc {A} (verifies : string -> string -> bool) (tls : option string) (c : CoordClient.CoordClient.Client) (handled : A) : option A :=
  if connects verifies tls c then Some handled else None.

(** The relay's key, and where its proxy sends what arrives: the socket's own address,
    or loopback when it listens on all. *)
Definition relay_fallback (cfg : Config.Config.Config) (laddr : option AddrPort) : option (list Z * AddrPort) :=
  if String.eqb (Config.Config.RelayAddr (Config.Config.Coord cfg)) "" then None
  else
    key ← Config.Config.relay_key cfg;
    let localPort := match laddr with Some a => ap_port a | None => 0 end in
    let dataIP := match laddr with
                  | Some a => if addr_valid (ap_addr a) && negb (IsUnspecified (ap_addr a)) then ap_addr a else Addr4 0x7F000001
                  | None => Addr4 0x7F000001
                  end in
    Some (key, {| ap_addr := dataIP; ap_port := localPort |}).

(** [veld-relay -gen-identity]. *)
Definition printed_relay_key (id : Noise.Noise.Identity) : string := Base64.EncodeToString (Noise.Noise.X25519Public id).

(** [veld-daemon]: the configuration it starts with. *)
Definition with_socket (path : string) (cfg : Config.Config.Config) : Config.Config.Config :=
  {| Config.Config.Node := Config.Config.Node cfg; Config.Config.Coord := Config.Config.Coord cfg;
     Config.Config.Daemon := {| Config.Config.SocketPath := path; Config.Config.LocalFile := Config.Config.LocalFile (Config.Config.Daemon cfg) |};
     Config.Config.DNS := Config.Config.DNS cfg; Config.Config.MDNS := Config.Config.MDNS cfg; Config.Config.Peers := Config.Config.Peers cfg |}.
Definition daemon_config `{Cli.Cli.TomlCodec} (file : option string) (socketPath : string) : result Config.Config.config_error Config.Config.Config :=
  cfg <-! Config.Config.LoadFile Cli.Cli.toml_decode file;
  Ok (if String.eqb socketPath "" then cfg else with_socket socketPath cfg).

(** Where the programs look by default; [temp] is the directory for temporary files. *)
Definition DefaultConfigPath (home : option string) (temp : string) : string := Cli.Cli.Join [default temp home; "veld"; "config.toml"]%string.
Definition DefaultSocketPath (home : option string) (temp : string) : string := Cli.Cli.Join [default temp home; "veld"; "daemon.sock"]%string.
Definition getSocketPath (home : option string) (temp socketFlag : string) : string :=
  if String.eqb socketFlag "" then DefaultSocketPath home temp else socketFlag.

(** ** A machine joins a new network *)
Section Joining.
Context {M : Type -> Type} `{FMap M, forall A, Lookup string A (M A), forall A, Empty (M A),
  forall A, PartialAlter string A (M A), OMap M, Merge M, forall A, MapFold string A (M A), !FinMap string M}.
Context `{Cli.Cli.TomlCodecLaws}.
Variable sha256 : list Z -> list Z.
Variable verify : list Z -> list Z -> list Z -> bool.
Variable sign : list Z -> list Z -> list Z.






(** The client of a daemon that was logged in on a machine without a configuration. *)
Definition joined_config (path server nid tok : string) : Config.Config.Config := Cli.Cli.with_coord server nid tok (Cli.Cli.new_config path).
Definition joined_client (path server nid tok : string) (id : Noise.Noise.Identity) (hostname : string) (tbl : PeerTable.PeerTable.Table) (h : CoordClient.CoordClient.Callbacks) : CoordClient.CoordClient.Client :=
  CoordClient.CoordClient.New (coord_config (joined_config path server nid tok) id hostname) tbl h.


(** The configuration a login writes keeps TLS on: its client does not reach a
    coordinator that serves plaintext. *)
Lemma plaintext_unreachable verifies path server nid tok id hostname tbl h A (handled : A) :
  rpc verifies None (joined_client path server nid tok id hostname tbl h) handled = None.
Proof. done. Qed.

End Joining.

(** *** A coordinator and a laptop *)
#[local] Existing Instances Cli.Cli.Toy.toy_toml Cli.Cli.Toy.toy_toml_laws.




(** ** The relay's key *)

(** The key a relay prints is the one a daemon dials with when it is configured as
    [relay_x25519], and a key the configuration accepts. *)
Lemma printed_key_configures id cfg laddr :
  bytes_ok (Noise.Noise.X25519Public id) -> length (Noise.Noise.X25519Public id) = 32%nat ->
  Config.Config.RelayX25519 (Config.Config.Coord cfg) = printed_relay_key id -> Config.Config.RelayAddr (Config.Config.Coord cfg) <> ""%string ->
  exists target, relay_fallback cfg laddr = Some (Noise.Noise.X25519Public id, target) /\ IsUnspecified (ap_addr target) = false.
Proof.
  intros Hb Hl Hk Hr. unfold relay_fallback. rewrite (proj2 (String.eqb_neq _ _) Hr). unfold Config.Config.relay_key. rewrite Hk. unfold printed_relay_key.
  rewrite Base64.base64_roundtrip, bind_Some_eq, Hl by done. cbn [Nat.eqb]. rewrite bind_Some_eq. eexists. split; [done|]. cbn [ap_addr]. destruct laddr as [[a pt]|]; [|by vm_compute]. cbn [ap_addr].
  destruct (addr_valid a) eqn:Ev; [|by vm_compute]. destruct (IsUnspecified a) eqn:Eu; [by vm_compute|]. done.
Qed.

(** ** Defaults *)

(** With a known home the command and the daemon look for the same file. *)
Lemma default_paths_agree dir temp : Cli.Cli.getConfigPath (Some dir) "" = Ok (DefaultConfigPath (Some dir) temp).
Proof. done. Qed.

(** Half of a TLS pair is refused, but after the network was created. *)
Lemma tls_needs_pair fl en : fl_tls_cert fl <> ""%string -> fl_tls_key fl = ""%string -> coord_tls fl en = Err FTLSPair.
Proof. intros Hc Hk. unfold coord_tls. by rewrite Hk, (proj2 (String.eqb_neq _ _) Hc). Qed.

(** Without a token nobody is let in: every token is unknown. *)
Lemma no_token_no_account fl en d (co : coordinator (M := gmap string)) token :
  coord_main fl en d = Ok co -> coord_token fl en = Ok ""%string -> Resolve (Backend := ce_backend (co_tokens co)) token = None.
Proof.
  intros Hm Ht. unfold coord_main in Hm. rewrite Ht in Hm. cbn [result_bind] in Hm. repeat (match type of Hm with result_bind ?x _ = _ => destruct x; [|done] end; cbn [result_bind] in Hm).
  injection Hm as <-. cbn. apply lookup_empty.
Qed.
End Deploy.
