(* ===== verification/Node.v ===== *)
(** * Node: the data plane and the handshakes together

    [Node] models the wiring of [New] in [src/internal/daemon/daemon.go]: the dispatcher
    and the handshake manager work on one peer table and one set of sessions, and call
    each other.  A packet that has no session starts a handshake, a handshake packet
    goes to the manager, and what was held is sent when a session is there.  The
    theorems follow a packet from one machine to another. *)
From Stdlib Require Import ZArith Lia.
From stdpp Require Import base numbers list gmap strings.
From S2P Require Import Prelude GoLib Session AclPolicy AclCompile AclParse FlowTable PeerTable Dispatcher AddrText Noise Handshake.

Module Node.
Import Netip PeerTable.PeerTable AclCompile.Compiled.
Import Noise.Noise.
Abbreviation Dispatcher := Dispatcher.Dispatcher.Dispatcher.
Abbreviation net_addr := Dispatcher.Dispatcher.net_addr.
Abbreviation UDP := Dispatcher.Dispatcher.UDPAddr.
Abbreviation Sess := Session.Session.Session.
Abbreviation no_contention := (fun _ : nat => false).

Section Node.
Context `{NoiseLib} {T : Type} `{!Handshake.Handshake.Pinning T}.
Variable maphash : list Z -> Z.
Variable busy : nat -> bool.
Variable fuel : nat.

(** The two components; the peers and the sessions are those of the manager. *)
Record node := { n_hs : Handshake.Handshake.Node (T := T); n_disp : Dispatcher }.

Definition view (n : node) : Dispatcher :=
  Dispatcher.Dispatcher.set_env (n_disp n) (Dispatcher.Dispatcher.d_tun (n_disp n)) (Handshake.Handshake.peers (n_hs n)) (Handshake.Handshake.sessions (n_hs n)).
Definition put (d : Dispatcher) (n : node) : node :=
  {| n_hs := {| Handshake.Handshake.mgr := Handshake.Handshake.mgr (n_hs n); Handshake.Handshake.peers := Dispatcher.Dispatcher.d_peers d; Handshake.Handshake.sessions := Dispatcher.Dispatcher.d_sessions d;
                Handshake.Handshake.tofu := Handshake.Handshake.tofu (n_hs n); Handshake.Handshake.file := Handshake.Handshake.file (n_hs n) |};
     n_disp := d |}.
Definition with_hs (h : Handshake.Handshake.Node (T := T)) (n : node) : node := {| n_hs := h; n_disp := n_disp n |}.

(** What leaves the node: datagrams, packets for the local stack, probes for NAT
    traversal, the report of a pin that does not fit. *)
Inductive out := Datagram (pkt : list Z) (ep : net_addr) | ToTUN (pkt : list Z) | Probe (pkt : list Z) (ep : AddrPort) | Mismatch (vpnAddr : string) (fingerprint : list Z).

(** Randomness, the clock and the replay file's writes, for a callback. *)
Record inputs := { i_random : option (list Z); i_eph : list Z; i_io : bool; i_clock : nat -> Z }.

Definition dp_out (e : Dispatcher.Dispatcher.event) : list out :=
  match e with
  | Dispatcher.Dispatcher.SendUDP pkt ep => [Datagram pkt (UDP ep)]
  | Dispatcher.Dispatcher.WriteTUN pkt => [ToTUN pkt]
  | Dispatcher.Dispatcher.OnNATProbePacket pkt ep => [Probe pkt ep]
  | _ => []
  end.

(** [OnSessionEstablished], of the manager and of the dispatcher. *)
Definition flush_held (p : ptr) (n : node) : node * list out :=
  let '(d, evs) := Dispatcher.Dispatcher.FlushHoldQueue p (view n) in (put d n, evs ≫= dp_out).

Definition hs_event (e : Handshake.Handshake.event) (n : node) : node * list out :=
  match e with
  | Handshake.Handshake.SendTo pkt ep => (n, [Datagram pkt ep])
  | Handshake.Handshake.SessionEstablished p => flush_held p n
  | Handshake.Handshake.TOFUMismatch a f => (n, [Mismatch a f])
  end.
Fixpoint hs_events (evs : list Handshake.Handshake.event) (n : node) : node * list out :=
  match evs with
  | [] => (n, [])
  | e :: evs' => let '(n, o) := hs_event e n in let '(n, o') := hs_events evs' n in (n, o ++ o')
  end.

Definition dp_event (i : inputs) (e : Dispatcher.Dispatcher.event) (n : node) : node * list out :=
  match e with
  | Dispatcher.Dispatcher.OnHandshakeRequired p | Dispatcher.Dispatcher.OnRekeyRequired p =>
      let '(h, evs) := Handshake.Handshake.Initiate p (i_random i) (i_clock i) (n_hs n) in hs_events evs (with_hs h n)
  | Dispatcher.Dispatcher.OnHandshakePacket pkt ep =>
      let '(h, evs) := Handshake.Handshake.HandlePacket pkt (UDP ep) (i_random i) (i_eph i) (i_io i) (i_clock i) (n_hs n) in hs_events evs (with_hs h n)
  | Dispatcher.Dispatcher.OnSessionEstablished p => flush_held p n
  | _ => (n, dp_out e)
  end.
Fixpoint dp_events (i : inputs) (evs : list Dispatcher.Dispatcher.event) (n : node) : node * list out :=
  match evs with
  | [] => (n, [])
  | e :: evs' => let '(n, o) := dp_event i e n in let '(n, o') := dp_events i evs' n in (n, o ++ o')
  end.

(** A packet of the local stack, a datagram; [None] is a panic. *)
Definition on_tun (pkt : list Z) (now : Z) (i : inputs) (n : node) : option (node * list out) :=
  '(d, evs) ← Dispatcher.Dispatcher.handleTunPacket maphash busy fuel pkt now (view n); Some (dp_events i evs (put d n)).
Definition on_udp (pkt : list Z) (addr : net_addr) (now : Z) (i : inputs) (n : node) : option (node * list out) :=
  '(d, evs) ← Dispatcher.Dispatcher.handleUDPPacket maphash busy fuel pkt addr now (view n); Some (dp_events i evs (put d n)).
End Node.

(** ** The states along a first exchange *)
Section Deliver.
Context `{NoiseIK} {T : Type} `{!Handshake.Handshake.Pinning T}.
Implicit Types n : node (T := T).
Abbreviation hnode := (Handshake.Handshake.Node (T := T)).

Lemma handleResp_exact msg addr ep t (n : hnode) p e q phs result :
  Dispatcher.Dispatcher.addrToAddrPort addr = Some ep -> LookupByEndpoint ep (Handshake.Handshake.peers n) = Some p -> entries (Handshake.Handshake.peers n) !! p = Some e ->
  Handshake.Handshake.pending (Handshake.Handshake.mgr n) !! ID e = Some q -> Handshake.Handshake.heap (Handshake.Handshake.mgr n) !! q = Some phs ->
  ProcessMessage2 (Handshake.Handshake.hs phs) msg (t 0%nat) = Some result -> Session.Session.hr_PeerEd25519Public result = ID e -> Handshake.Handshake.pin_accepts n e ->
  let i := fresh (dom (Handshake.Handshake.sessions n)) in
  exists m tf, Handshake.Handshake.handleResp msg addr t n =
    (Handshake.Handshake.upd_entry p (SetSession (Some i))
       {| Handshake.Handshake.mgr := m; Handshake.Handshake.peers := Handshake.Handshake.peers n;
          Handshake.Handshake.sessions := <[i := Session.Session.New result (t 1%nat)]> (Handshake.Handshake.sessions n); Handshake.Handshake.tofu := tf; Handshake.Handshake.file := Handshake.Handshake.file n |},
     [Handshake.Handshake.SessionEstablished p]).
Proof.
  intros Ea Ee He Hq Hh E2 Ek Hpin i. unfold Handshake.Handshake.handleResp, Handshake.Handshake.handleResp_read.
  rewrite Ea, bind_Some_eq, Ee, bind_Some_eq, He, bind_Some_eq, Hq, bind_Some_eq, Hh, bind_Some_eq, E2, bind_Some_eq, bool_decide_true by done.
  rewrite Ek. destruct (Handshake.Handshake.pin_accepts_tofu n n e eq_refl Hpin) as (n2 & -> & tf & ->). cbn [negb].
  unfold Handshake.Handshake.handleResp_complete. rewrite bool_decide_true by done. cbn [negb]. eexists _, _. reflexivity.
Qed.

Lemma answer_init_exact ep ep' p e result msg2 now (n : hnode) :
  Dispatcher.Dispatcher.addrToAddrPort (UDP ep) = Some ep' -> Handshake.Handshake.pin_accepts n e ->
  let i := fresh (dom (Handshake.Handshake.sessions n)) in
  exists tf, Handshake.Handshake.answer_init (UDP ep) p e result msg2 now n =
    (Handshake.Handshake.upd_entry p (SetPendingSession (Some i))
       {| Handshake.Handshake.mgr := Handshake.Handshake.mgr n; Handshake.Handshake.peers := (ClaimEndpoint (ID e) ep' (Handshake.Handshake.peers n)).2;
          Handshake.Handshake.sessions := <[i := Session.Session.New result now]> (Handshake.Handshake.sessions n); Handshake.Handshake.tofu := tf; Handshake.Handshake.file := Handshake.Handshake.file n |},
     [Handshake.Handshake.SendTo (Handshake.Handshake.buildPacket Handshake.Handshake.typeHandshakeResp msg2) (UDP ep)]).
Proof.
  intros Ea Hpin i. unfold Handshake.Handshake.answer_init. destruct (Handshake.Handshake.pin_accepts_tofu n n e eq_refl Hpin) as (n2 & -> & tf & ->). cbn [negb].
  rewrite Ea. eexists. reflexivity.
Qed.

(** The entry after its endpoint was claimed. *)
Lemma claimed_entry (t : Table) id p e ep : byID t !! id = Some p -> entries t !! p = Some e -> entries (ClaimEndpoint id ep t).2 !! p = Some (SetEndpoint ep e).
Proof.
  intros Hid He. unfold ClaimEndpoint, setEndpoint. rewrite Hid, andb_false_r. cbn [snd entries]. rewrite lookup_alter_eq.
  destruct (if ap_valid ep then byEndpoint t !! ep else None) as [q|]; [|by rewrite He]. destruct (Nat.eqb_spec q p); cbn [negb]; [by rewrite He|]. by rewrite lookup_alter_ne, He.
Qed.

(** The first packet of a session opens. *)
Lemma first_opens (ra rb : HandshakeResult) tb pt :
  Session.Session.CipherPair (Session.Session.hr_SendCS ra) (Session.Session.hr_RecvCS rb) -> pt <> [] ->
  exists s, Session.Session.Decrypt (Session.Session.New rb tb) 0 (Session.Session.c_seal (Session.Session.hr_SendCS ra) 0 pt) = (s, Some pt).
Proof.
  intros Hcp Hpt. unfold Session.Session.Decrypt. cbn [Session.Session.New Session.Session.s_recv Session.Session.s_window].
  change (Session.Session.RekeyThreshold <=? 0) with false. change (negb (Window.check Window.zero 0)) with false.
  rewrite Session.Session.open_seal by done. destruct (Window.checkAndMark Window.zero 0) as [w ok] eqn:Ew.
  assert (ok = true) as -> by (change ok with (w, ok).2; rewrite <- Ew; by vm_compute). cbv beta iota. by eexists.
Qed.

Variable maphash : list Z -> Z.
Variable fuel : nat.
Hypothesis Hfuel : (0 < fuel)%nat.
Abbreviation handleTunPacket := (Dispatcher.Dispatcher.handleTunPacket maphash no_contention fuel).
Abbreviation handleUDPPacket := (Dispatcher.Dispatcher.handleUDPPacket maphash no_contention fuel).

(** A handshake packet goes to the manager. *)
Lemma handshake_datagram ty msg ep now d : ty = Handshake.Handshake.typeHandshakeInit \/ ty = Handshake.Handshake.typeHandshakeResp ->
  handleUDPPacket (Handshake.Handshake.buildPacket ty msg) (UDP ep) now d =
    Some (d, [Dispatcher.Dispatcher.OnHandshakePacket (Handshake.Handshake.buildPacket ty msg) ep]).
Proof.
  intros Hty. assert (0 <= ty < 2 ^ 32 /\ u32 ty = ty) as [Hr Hu] by (destruct Hty as [->| ->]; by vm_compute).
  destruct (Dispatcher.Wire.parseHeader_packet ty 0 msg Hr ltac:(by vm_compute)) as [E1 E2]. cbv zeta in E1, E2.
  assert (Handshake.Handshake.buildPacket ty msg = be_put 4 ty ++ be_put 4 0 ++ be_put 8 0 ++ msg) as Eb by (unfold Handshake.Handshake.buildPacket; by rewrite Hu).
  unfold Dispatcher.Dispatcher.handleUDPPacket. apply bind_Some in E1 as (hdr & Es & E1). rewrite Eb, Es, bind_Some_eq, E1, bind_Some_eq, E2, bind_Some_eq.
  by destruct Hty as [->| ->].
Qed.

(** A packet without a session is held, and asks for one. *)
Lemma tun_packet_held pkt now (d : Dispatcher) dst p e flow kind :
  Dispatcher.Dispatcher.extractDestIP pkt = Some (Some dst) -> byVPN (Dispatcher.Dispatcher.d_peers d) !! dst = Some p -> entries (Dispatcher.Dispatcher.d_peers d) !! p = Some e ->
  AclParse.Parse.ParsePacket pkt = Some (flow, kind, None) ->
  (forall dec, Dispatcher.Dispatcher.outbound_decision e flow d = Some dec -> d_Action dec <> ActionDeny) -> session e = None ->
  handleTunPacket pkt now d = Some (Dispatcher.Dispatcher.upd_entry p (fun e => (Enqueue pkt e).2) d, [Dispatcher.Dispatcher.OnHandshakeRequired p]).
Proof.
  intros Ed Hv He Hpp Hdec Hs. unfold Dispatcher.Dispatcher.handleTunPacket. rewrite Ed, !bind_Some_eq. unfold LookupByVPN. rewrite Hv, bind_Some_eq, He, bind_Some_eq, Hpp, bind_Some_eq.
  assert (Dispatcher.Dispatcher.encryptAndSend maphash no_contention fuel p e flow kind pkt now d = Some (Dispatcher.Dispatcher.hold p pkt (Dispatcher.Dispatcher.OnHandshakeRequired p) d)) as Ee.
  { unfold Dispatcher.Dispatcher.encryptAndSend. by rewrite Hs. }
  destruct (Dispatcher.Dispatcher.outbound_decision e flow d) as [dec|] eqn:Eo; [|by rewrite Ee]. rewrite decide_False by by apply Hdec. by rewrite Ee.
Qed.

(** The inbound check lets a connection start through that the policy allows; without a
    policy everything passes. *)
Definition lets_in (src pkt : list Z) (d : Dispatcher) : Prop :=
  match Dispatcher.Dispatcher.d_policyDecider d with
  | None => True
  | Some pd => exists flow, AclParse.Parse.ParsePacket pkt = Some (flow, AclParse.Parse.KindStart, None) /\
      d_Action (Dispatcher.Dispatcher.decide_now d pd src (Dispatcher.Dispatcher.d_selfPeerID d) (AclParse.Parse.FProto flow) (AclParse.Parse.DstPort flow)) <> ActionDeny /\
      exists ps l, FlowTable.FlowTable.abs maphash (Dispatcher.Dispatcher.d_flowTable d) ps l
  end.

Lemma lets_in_passes src pkt now d : lets_in src pkt d ->
  exists ft, match Dispatcher.Dispatcher.d_policyDecider d with
             | None => Some (true, d)
             | Some pd => Dispatcher.Dispatcher.checkInbound maphash no_contention fuel pd src pkt now d
             end = Some (true, Dispatcher.Dispatcher.with_flows d ft).
Proof using Hfuel.
  unfold lets_in. destruct (Dispatcher.Dispatcher.d_policyDecider d) as [pd|]; [|intros _; exists (Dispatcher.Dispatcher.d_flowTable d); by destruct d].
  intros (flow & Hp & Hd & Ha). unfold Dispatcher.Dispatcher.checkInbound. rewrite Hp, bind_Some_eq, decide_False by done.
  destruct (Dispatcher.Dispatcher.flow_lookup_returns maphash fuel Hfuel flow true FlowTable.FlowTable.FlowStateEstablished now d Ha) as [[[fe c] d1] El].
  rewrite El, bind_Some_eq. unfold Dispatcher.Dispatcher.flow_lookup in El. apply bind_Some in El as ([[[rp x] c'] ft] & _ & El). injection El as _ _ <-. by exists ft.
Qed.

Lemma first_data_delivered pkt ct now d p e i s s' ep ep' src :
  Dispatcher.Dispatcher.addrToAddrPort (UDP ep) = Some ep' -> byEndpoint (Dispatcher.Dispatcher.d_peers d) !! ep' = Some p -> entries (Dispatcher.Dispatcher.d_peers d) !! p = Some e ->
  session e = None -> pendingSession e = Some i -> Dispatcher.Dispatcher.d_sessions d !! i = Some s -> Session.Session.Decrypt s 0 ct = (s', Some pkt) ->
  Dispatcher.Dispatcher.extractSrcIP pkt = Some (Some src) -> Unmap src = VPNAddr e -> is_Some (Dispatcher.Dispatcher.d_tun d) -> lets_in (ID e) pkt d ->
  exists d', handleUDPPacket (Dispatcher.Wire.buildDataPacket 0 ct) (UDP ep) now d = Some (d', [Dispatcher.Dispatcher.OnSessionEstablished p; Dispatcher.Dispatcher.WriteTUN pkt]) /\
    entries (Dispatcher.Dispatcher.d_peers d') !! p = Some (Touch now (PromotePendingSession e).2) /\ Dispatcher.Dispatcher.d_sessions d' = <[i := s']> (Dispatcher.Dispatcher.d_sessions d).
Proof using Hfuel.
  intros Ea Hep He Hs Hps Hi Hd Hsrc Hv [tun Ht] Hin. unfold Dispatcher.Dispatcher.handleUDPPacket. destruct (Dispatcher.Wire.parseHeader_build 0 ct ltac:(by vm_compute)) as [E1 E2].
  apply bind_Some in E1 as (hdr & Es & E1). rewrite Es, bind_Some_eq, E1, bind_Some_eq, E2, bind_Some_eq. change (Dispatcher.Wire.TypeData =? Dispatcher.Wire.TypeData) with true. cbn match.
  unfold Dispatcher.Dispatcher.handleData. rewrite Ea. unfold LookupByEndpoint. rewrite Hep, He. unfold Dispatcher.Dispatcher.decryptDataPacket. rewrite Hs, Hps. cbn match.
  unfold Dispatcher.Dispatcher.try_session. rewrite Hi, Hd. set (d1 := Dispatcher.Dispatcher.upd_entry p (fun e => (PromotePendingSession e).2) (Dispatcher.Dispatcher.with_sess d i s')).
  unfold Dispatcher.Dispatcher.sourceAllowed. rewrite Hsrc, bind_Some_eq, Hv, bool_decide_true by done. rewrite bind_Some_eq. cbn [negb].
  destruct (lets_in_passes (ID e) pkt now d1 Hin) as [ft ->]. rewrite bind_Some_eq. cbn [negb]. eexists. split.
  - change (Dispatcher.Dispatcher.d_tun _) with (Dispatcher.Dispatcher.d_tun d). rewrite Ht. reflexivity.
  - cbn. by rewrite !lookup_alter_eq, He.
Qed.

(** The held packets are sent over a new session. *)
Lemma flush_first pkt p e i ra now n :
  entries (Handshake.Handshake.peers (n_hs n)) !! p = Some e -> session e = Some i -> holdQueue e = [pkt] -> ap_valid (endpoint e) = true ->
  Handshake.Handshake.sessions (n_hs n) !! i = Some (Session.Session.New ra now) ->
  exists n', flush_held p n = (n', [Datagram (Dispatcher.Wire.buildDataPacket 0 (Session.Session.c_seal (Session.Session.hr_SendCS ra) 0 pkt)) (UDP (endpoint e))]).
Proof.
  intros He Hs Hq Hv Hi. unfold flush_held, Dispatcher.Dispatcher.FlushHoldQueue. change (Dispatcher.Dispatcher.d_peers (view n)) with (Handshake.Handshake.peers (n_hs n)). rewrite He, Hs, Hv. cbn [negb DrainQueue fst]. rewrite Hq.
  cbn [Dispatcher.Dispatcher.flush]. change (Dispatcher.Dispatcher.d_sessions _ !! i) with (Handshake.Handshake.sessions (n_hs n) !! i). rewrite Hi. eexists. reflexivity.
Qed.

(** Nothing is sent when nothing is held. *)
Lemma flush_nothing p e n : entries (Handshake.Handshake.peers (n_hs n)) !! p = Some e -> holdQueue e = [] -> exists n', flush_held p n = (n', []).
Proof.
  intros He Hq. unfold flush_held, Dispatcher.Dispatcher.FlushHoldQueue. change (Dispatcher.Dispatcher.d_peers (view n)) with (Handshake.Handshake.peers (n_hs n)). rewrite He.
  destruct (session e); [|by eexists]. destruct (negb _); [by eexists|]. cbn [DrainQueue fst]. rewrite Hq. by eexists.
Qed.

(** A node that knows another as the entry [e] at [p] and has no session with it. *)
Record ready n (me other : Identity) (net : list Z) (p : ptr) (e : Entry) : Prop := {
  rd_me : Handshake.Handshake.localID (Handshake.Handshake.mgr (n_hs n)) = me;
  rd_net : Handshake.Handshake.networkID (Handshake.Handshake.mgr (n_hs n)) = net;
  rd_knows : Handshake.Handshake.knows (n_hs n) other p e;
  rd_table : table_ok (Handshake.Handshake.peers (n_hs n));
  rd_session : session e = None;
  rd_queue : holdQueue e = []
}.

Lemma pin_kept (n n' : hnode) e e' : Handshake.Handshake.tofu n' = Handshake.Handshake.tofu n -> VPNAddr e' = VPNAddr e -> ID e' = ID e ->
  Handshake.Handshake.pin_accepts n e -> Handshake.Handshake.pin_accepts n' e'.
Proof.
  intros Et Ev Ei Hp. destruct (Handshake.Handshake.pin_accepts_tofu n n' e Et Hp) as (n2 & E & _). unfold Handshake.Handshake.pin_accepts. by rewrite Ev, Ei, E.
Qed.

(** Step one: the packet is held and the initiation sent. *)
Lemma step_tun pkt now i n p e h h1 msg1 seed flow kind :
  i_random i = Some seed -> Dispatcher.Dispatcher.extractDestIP pkt = Some (Some (VPNAddr e)) -> byVPN (Handshake.Handshake.peers (n_hs n)) !! VPNAddr e = Some p ->
  entries (Handshake.Handshake.peers (n_hs n)) !! p = Some e -> AclParse.Parse.ParsePacket pkt = Some (flow, kind, None) ->
  (forall dec, Dispatcher.Dispatcher.outbound_decision e flow (view n) = Some dec -> d_Action dec <> ActionDeny) -> session e = None -> holdQueue e = [] ->
  Handshake.Handshake.pending (Handshake.Handshake.mgr (n_hs n)) !! ID e = None -> ap_valid (endpoint e) = true ->
  NewInitiatorHS (Handshake.Handshake.localID (Handshake.Handshake.mgr (n_hs n))) (X25519Pub e) (Handshake.Handshake.networkID (Handshake.Handshake.mgr (n_hs n))) (Some seed) = Some h ->
  BuildMessage1 h (i_clock i 2%nat) = Some (h1, msg1) ->
  let e1 := SetState StateHandshaking (with_queue (lastSeen e) [pkt] e) in
  exists n1, on_tun maphash no_contention fuel pkt now i n = Some (n1, [Datagram (Handshake.Handshake.buildPacket Handshake.Handshake.typeHandshakeInit msg1) (UDP (endpoint e))]) /\
    entries (Handshake.Handshake.peers (n_hs n1)) !! p = Some e1 /\ byEndpoint (Handshake.Handshake.peers (n_hs n1)) = byEndpoint (Handshake.Handshake.peers (n_hs n)) /\
    (exists q, Handshake.Handshake.pending (Handshake.Handshake.mgr (n_hs n1)) !! ID e = Some q /\
       exists phs, Handshake.Handshake.heap (Handshake.Handshake.mgr (n_hs n1)) !! q = Some phs /\ Handshake.Handshake.hs phs = h1) /\
    Handshake.Handshake.tofu (n_hs n1) = Handshake.Handshake.tofu (n_hs n).
Proof.
  intros Hr Hd Hvpn He Hpp Hdec Hs Hq Hpend Hv E1 E2 e1. unfold on_tun. rewrite (tun_packet_held pkt now (view n) (VPNAddr e) p e flow kind Hd Hvpn He Hpp Hdec Hs), bind_Some_eq.
  set (n0 := put _ n). cbn [dp_events dp_event]. rewrite Hr. assert (entries (Handshake.Handshake.peers (n_hs n0)) !! p = Some (with_queue (lastSeen e) [pkt] e)) as He0.
  { cbn. rewrite lookup_alter_eq, He. cbn. unfold Enqueue. by rewrite Hq. }
  rewrite (Handshake.Handshake.Initiate_fresh p (with_queue (lastSeen e) [pkt] e) h h1 msg1 seed (i_clock i) (n_hs n0) He0 Hpend Hv E1 E2).
  cbn [hs_events hs_event app]. eexists. split; [reflexivity|]. split_and!; [|done| |done].
  - cbn -[alter]. unfold Handshake.Handshake.upd_entry. cbn -[alter]. rewrite !lookup_alter_eq, He. cbn. unfold Enqueue. by rewrite Hq.
  - cbn. exists (Handshake.Handshake.next (Handshake.Handshake.mgr (n_hs n))). rewrite lookup_insert_eq. split; [done|]. eexists. rewrite lookup_insert_eq. by split.
Qed.

(** Step two: the initiation is answered; the responder has a pending session and knows
    the sender's endpoint. *)
Lemma step_init msg1 ep now i n p e sid hr hr1 ts msg2 result :
  i_random i = Some sid -> ap_valid ep = true -> Dispatcher.Dispatcher.unmap_port ep = ep -> table_ok (Handshake.Handshake.peers (n_hs n)) ->
  NewResponderHS (Handshake.Handshake.localID (Handshake.Handshake.mgr (n_hs n))) (PeerLookupFn (Handshake.Handshake.peers (n_hs n))) = Some hr ->
  ProcessMessage1 hr msg1 (i_clock i 0%nat) = Some (hr1, ts) -> BuildMessage2 hr1 (Some sid) (i_eph i) (i_clock i 1%nat) = Some (msg2, result) ->
  Session.Session.hr_NetworkID result = Handshake.Handshake.networkID (Handshake.Handshake.mgr (n_hs n)) -> Session.Session.hr_PeerEd25519Public result = ID e ->
  byID (Handshake.Handshake.peers (n_hs n)) !! ID e = Some p -> entries (Handshake.Handshake.peers (n_hs n)) !! p = Some e ->
  NormalizeTimestamp ts <> 0 -> Handshake.Handshake.newer (ID e) (NormalizeTimestamp ts) (Handshake.Handshake.mgr (n_hs n)) = true -> Handshake.Handshake.pin_accepts (n_hs n) e ->
  exists n1 k, on_udp maphash no_contention fuel (Handshake.Handshake.buildPacket Handshake.Handshake.typeHandshakeInit msg1) (UDP ep) now i n =
      Some (n1, [Datagram (Handshake.Handshake.buildPacket Handshake.Handshake.typeHandshakeResp msg2) (UDP ep)]) /\
    entries (Handshake.Handshake.peers (n_hs n1)) !! p = Some (SetPendingSession (Some k) (SetEndpoint ep e)) /\
    byEndpoint (Handshake.Handshake.peers (n_hs n1)) !! ep = Some p /\ Handshake.Handshake.sessions (n_hs n1) !! k = Some (Session.Session.New result (i_clock i 3%nat)) /\
    n_disp n1 = view n.
Proof.
  intros Hr Hv Hu Ht E1 E2 E3 En Ek Hid He Hz Hnew Hpin. unfold on_udp. rewrite handshake_datagram, bind_Some_eq by by left. cbn [dp_events dp_event]. rewrite Hr.
  set (n0 := put (view n) n). rewrite Handshake.Handshake.HandlePacket_init.
  rewrite (Handshake.Handshake.handleInit_accept msg1 (UDP ep) sid (i_eph i) (i_io i) (i_clock i) (n_hs n0) hr hr1 ts msg2 result p e E1 E2 E3 En Ek Hid He Hz Hnew).
  set (nr := Handshake.Handshake.record_init (i_io i) (ID e) (NormalizeTimestamp ts) (i_clock i 2%nat) (n_hs n0)).
  assert (Handshake.Handshake.peers nr = Handshake.Handshake.peers (n_hs n) /\ Handshake.Handshake.tofu nr = Handshake.Handshake.tofu (n_hs n) /\ Handshake.Handshake.sessions nr = Handshake.Handshake.sessions (n_hs n)) as (Er1 & Er2 & Er3).
  { unfold nr, Handshake.Handshake.record_init. destruct (Handshake.Handshake.replayPath _); [|done]. by destruct (i_io i). }
  destruct (answer_init_exact ep ep p e result msg2 (i_clock i 3%nat) nr) as [tf EA].
  { unfold Dispatcher.Dispatcher.addrToAddrPort. by rewrite Hu, Hv. }
  { by apply (pin_kept (n_hs n) nr e e). }
  rewrite EA. cbn [hs_events hs_event app]. eexists _, _. split; [reflexivity|].
  unfold Handshake.Handshake.upd_entry. cbn [n_hs with_hs n_disp put Handshake.Handshake.peers Handshake.Handshake.with_peers Handshake.Handshake.sessions entries with_entries byEndpoint].
  rewrite Er1, lookup_alter_eq, (claimed_entry _ _ p e ep Hid He). split_and!; [done| |apply lookup_insert_eq|done]. exact (proj1 (ClaimEndpoint_moves _ _ _ _ ep Ht Hid He Hv)).
Qed.

(** Step three: the answer completes the handshake and what was held is sent. *)
Lemma step_resp msg2 ep now i n p e pkt q phs ra :
  ap_valid ep = true -> Dispatcher.Dispatcher.unmap_port ep = ep -> byEndpoint (Handshake.Handshake.peers (n_hs n)) !! ep = Some p ->
  entries (Handshake.Handshake.peers (n_hs n)) !! p = Some e -> endpoint e = ep -> holdQueue e = [pkt] ->
  Handshake.Handshake.pending (Handshake.Handshake.mgr (n_hs n)) !! ID e = Some q -> Handshake.Handshake.heap (Handshake.Handshake.mgr (n_hs n)) !! q = Some phs ->
  ProcessMessage2 (Handshake.Handshake.hs phs) msg2 (i_clock i 0%nat) = Some ra -> Session.Session.hr_PeerEd25519Public ra = ID e -> Handshake.Handshake.pin_accepts (n_hs n) e ->
  exists n1, on_udp maphash no_contention fuel (Handshake.Handshake.buildPacket Handshake.Handshake.typeHandshakeResp msg2) (UDP ep) now i n =
      Some (n1, [Datagram (Dispatcher.Wire.buildDataPacket 0 (Session.Session.c_seal (Session.Session.hr_SendCS ra) 0 pkt)) (UDP ep)]).
Proof.
  intros Hv Hu Hep He Hend Hq Hpe Hh E2 Ek Hpin. unfold on_udp. rewrite handshake_datagram, bind_Some_eq by by right. cbn [dp_events dp_event].
  set (n0 := put (view n) n). rewrite Handshake.Handshake.HandlePacket_resp.
  destruct (handleResp_exact msg2 (UDP ep) ep (i_clock i) (n_hs n0) p e q phs ra) as (m & tf & ER); try done.
  { unfold Dispatcher.Dispatcher.addrToAddrPort. by rewrite Hu, Hv. }
  { by apply (pin_kept (n_hs n) (n_hs n0) e e). }
  rewrite ER. cbn [hs_events hs_event]. set (k := fresh _). set (n1 := with_hs _ n0).
  destruct (flush_first pkt p (SetSession (Some k) e) k ra (i_clock i 1%nat) n1) as [n2 EF]; try done.
  { cbn -[alter]. unfold Handshake.Handshake.upd_entry. cbn -[alter]. by rewrite lookup_alter_eq, He. }
  { by rewrite <- Hend in Hv. }
  { apply lookup_insert_eq. }
  rewrite EF. change (endpoint (SetSession (Some k) e)) with (endpoint e). rewrite Hend. by eexists.
Qed.

(** Step four: the first data packet confirms the pending session and is delivered. *)
Lemma step_data pkt ct ep now i n p e k s s' src :
  ap_valid ep = true -> Dispatcher.Dispatcher.unmap_port ep = ep -> byEndpoint (Handshake.Handshake.peers (n_hs n)) !! ep = Some p ->
  entries (Handshake.Handshake.peers (n_hs n)) !! p = Some e -> session e = None -> pendingSession e = Some k -> Handshake.Handshake.sessions (n_hs n) !! k = Some s ->
  Session.Session.Decrypt s 0 ct = (s', Some pkt) -> Dispatcher.Dispatcher.extractSrcIP pkt = Some (Some src) -> Unmap src = VPNAddr e ->
  is_Some (Dispatcher.Dispatcher.d_tun (n_disp n)) -> lets_in (ID e) pkt (view n) -> holdQueue e = [] ->
  exists n1, on_udp maphash no_contention fuel (Dispatcher.Wire.buildDataPacket 0 ct) (UDP ep) now i n = Some (n1, [ToTUN pkt]).
Proof using Hfuel.
  intros Hv Hu Hep He Hs Hps Hk Hd Hsrc Hvpn Ht Hin Hq. unfold on_udp.
  destruct (first_data_delivered pkt ct now (view n) p e k s s' ep ep src) as (d' & E & He' & _); try done.
  { unfold Dispatcher.Dispatcher.addrToAddrPort. by rewrite Hu, Hv. }
  rewrite E, bind_Some_eq. cbn [dp_events dp_event].
  destruct (flush_nothing p (Touch now (PromotePendingSession e).2) (put d' n) He') as [n2 EF]; [unfold PromotePendingSession; by rewrite Hps|].
  rewrite EF. by eexists.
Qed.

(** C1: The first packet gets through.  Two nodes know each other and have no session;
    a packet of the local stack of one is for the other, and both policies let it pass.
    Then four datagrams later, with the clocks within the skew, it is handed to the
    local stack of the other, unchanged: it is held while the handshake runs that it
    set off, sent over the new session, and confirms the session at the other end. *)
Theorem first_packet_delivered a b net na nb pB eB pA eA epA pkt src flow kind i1 i2 i3 i4 seed sid t1 t2 t3 t4 :
  identity_ok a -> identity_ok b -> length net = 16%nat -> length sid = 8%nat -> i_random i1 = Some seed -> i_random i2 = Some sid ->
  ready na a b net pB eB -> ready nb b a net pA eA ->
  ap_valid (endpoint eB) = true -> Dispatcher.Dispatcher.unmap_port (endpoint eB) = endpoint eB -> byEndpoint (Handshake.Handshake.peers (n_hs na)) !! endpoint eB = Some pB ->
  ap_valid epA = true -> Dispatcher.Dispatcher.unmap_port epA = epA -> Handshake.Handshake.pending (Handshake.Handshake.mgr (n_hs na)) !! ID eB = None ->
  in_skew (i_clock i1 2%nat) (i_clock i2 0%nat) -> in_skew (i_clock i2 1%nat) (i_clock i3 0%nat) ->
  NormalizeTimestamp (i_clock i1 2%nat) <> 0 -> Handshake.Handshake.newer (ID eA) (NormalizeTimestamp (i_clock i1 2%nat)) (Handshake.Handshake.mgr (n_hs nb)) = true ->
  pkt <> [] -> Dispatcher.Dispatcher.extractDestIP pkt = Some (Some (VPNAddr eB)) -> addr_valid (VPNAddr eB) = true ->
  Dispatcher.Dispatcher.extractSrcIP pkt = Some (Some src) -> Unmap src = VPNAddr eA -> AclParse.Parse.ParsePacket pkt = Some (flow, kind, None) ->
  (forall dec, Dispatcher.Dispatcher.outbound_decision eB flow (view na) = Some dec -> d_Action dec <> ActionDeny) ->
  lets_in (ID eA) pkt (view nb) -> is_Some (Dispatcher.Dispatcher.d_tun (n_disp nb)) ->
  exists na1 m1 nb1 m2 na2 m3 nb2,
    on_tun maphash no_contention fuel pkt t1 i1 na = Some (na1, [Datagram m1 (UDP (endpoint eB))]) /\
    on_udp maphash no_contention fuel m1 (UDP epA) t2 i2 nb = Some (nb1, [Datagram m2 (UDP epA)]) /\
    on_udp maphash no_contention fuel m2 (UDP (endpoint eB)) t3 i3 na1 = Some (na2, [Datagram m3 (UDP (endpoint eB))]) /\
    on_udp maphash no_contention fuel m3 (UDP epA) t4 i4 nb1 = Some (nb2, [ToTUN pkt]).
Proof using Hfuel.
  intros Ha Hb Hnet Hsid R1 R2 [La Na [HeB HiB HkB HxB HpB] TB SB QB] [Lb Nb [HeA HiA HkA HxA HpA] TA SA QA] Hv Hu Hep HvA HuA Hpend Hf1 Hf2 Hz Hnew Hpt Hdst Hva Hsrc Hun Hpp Hdec Hin Htun.
  assert (PeerLookupFn (Handshake.Handshake.peers (n_hs nb)) (Ed25519Public a) = Some (X25519Public a)) as Hlook.
  { unfold PeerLookupFn. rewrite (io_len a Ha). cbn [Nat.eqb negb]. rewrite <- HiA, HxA, bind_Some_eq, HeA. cbn. by rewrite HkA. }
  destruct (handshake_pairs a b net seed (i_eph i2) sid _ _ _ _ _ Ha Hb Hnet Hsid Hlook Hf1 Hf2) as (h & h1 & msg1 & hr & hr1 & msg2 & ra & rb & E1 & E2 & E3 & E4 & E5 & E6 & [Cf Cb Ka Kb Ma Mb _ _]).
  rewrite <- La, <- HkB, <- Na in E1. rewrite <- Lb in E3. rewrite <- HiA in Kb. rewrite <- HiB in Ka. rewrite <- Nb in Mb.
  pose proof (tk_reach _ TB _ _ _ HxB HeB Hva) as HvB.
  destruct (step_tun pkt t1 i1 na pB eB h h1 msg1 seed flow kind R1 Hdst HvB HeB Hpp Hdec SB QB Hpend Hv E1 E2) as (na1 & S1 & F1 & F2 & (q & Fq & phs & Fh & Fhs) & Ft).
  destruct (step_init msg1 epA t2 i2 nb pA eA sid hr hr1 _ msg2 rb R2 HvA HuA TA E3 E4 E5 Mb Kb HxA HeA Hz Hnew HpA) as (nb1 & k & S2 & G1 & G2 & G3 & G4).
  rewrite <- Fhs in E6. set (eB1 := SetState StateHandshaking (with_queue (lastSeen eB) [pkt] eB)) in *.
  destruct (step_resp msg2 (endpoint eB) t3 i3 na1 pB eB1 pkt q phs ra Hv Hu ltac:(by rewrite F2) F1 eq_refl eq_refl Fq Fh E6 Ka) as [na2 S3].
  { by apply (pin_kept (n_hs na) (n_hs na1) eB eB1). }
  destruct (first_opens ra rb (i_clock i2 3%nat) pkt Cf Hpt) as [s' Hd].
  destruct (step_data pkt _ epA t4 i4 nb1 pA _ k _ s' src HvA HuA G2 G1 SA eq_refl G3 Hd Hsrc Hun) as [nb2 S4]; [by rewrite G4| |done|].
  { unfold lets_in in *. unfold view in *. by rewrite G4. }
  by exists na1, (Handshake.Handshake.buildPacket Handshake.Handshake.typeHandshakeInit msg1), nb1, (Handshake.Handshake.buildPacket Handshake.Handshake.typeHandshakeResp msg2), na2,
    (Dispatcher.Wire.buildDataPacket 0 (Session.Session.c_seal (Session.Session.hr_SendCS ra) 0 pkt)), nb2.
Qed.
End Deliver.

(** *** Alice's first packet to Bob *)
#[local] Existing Instances Handshake.Handshake.demo_lib Handshake.Handshake.demo_ik Handshake.Handshake.demo_no_pins.
Definition demo_alice_node : node := 
  {| n_hs := Handshake.Handshake.demo_node 1 2;
     n_disp := {| Dispatcher.Dispatcher.d_tun := Some {| p_addr := Addr4 0x0A000001; p_bits := 24 |}; Dispatcher.Dispatcher.d_peers := New; Dispatcher.Dispatcher.d_sessions := ∅;
                  Dispatcher.Dispatcher.d_policyDecider := Dispatcher.Dispatcher.d_policyDecider Dispatcher.Dispatcher.demo_d; Dispatcher.Dispatcher.d_swap := None;
                  Dispatcher.Dispatcher.d_selfPeerID := replicate 32 1; Dispatcher.Dispatcher.d_flowTable := Dispatcher.Dispatcher.d_flowTable Dispatcher.Dispatcher.demo_d;
                  Dispatcher.Dispatcher.d_dropCounters := Dispatcher.Dispatcher.d_dropCounters Dispatcher.Dispatcher.demo_d; Dispatcher.Dispatcher.d_lastDropLog := 0 |} |}.
Definition demo_bob_node : node := {| n_hs := Handshake.Handshake.demo_node 2 1; n_disp := Dispatcher.Dispatcher.demo_d |}.
Definition demo_inputs : inputs := {| i_random := Some (zeros 8); i_eph := []; i_io := true; i_clock := Handshake.Handshake.demo_time |}.
Abbreviation demo_ep := Handshake.Handshake.demo_ep.
Abbreviation demo_hash := FlowTable.FlowTable.demo_hash.
Abbreviation demo_syn := AclParse.Parse.demo_syn.

Lemma demo_ready : ready demo_alice_node (Handshake.Handshake.demo_identity 1) (Handshake.Handshake.demo_identity 2) Handshake.Handshake.demo_net 0 (Handshake.Handshake.demo_entry 2) /\
  ready demo_bob_node (Handshake.Handshake.demo_identity 2) (Handshake.Handshake.demo_identity 1) Handshake.Handshake.demo_net 0 (Handshake.Handshake.demo_entry 1).
Proof. split; split; try done; try (apply Handshake.Handshake.demo_knows; auto); apply Handshake.Handshake.demo_table_ok. Qed.

Lemma demo_lets_in : lets_in demo_hash (replicate 32 1) demo_syn (view demo_bob_node).
Proof.
  cbn. eexists. split; [vm_compute; reflexivity|]. split; [by vm_compute|]. exists [], []. apply FlowTable.FlowTable.NewFlowTable_abs.
Qed.

Lemma demo_allowed_out flow dec : Dispatcher.Dispatcher.outbound_decision (Handshake.Handshake.demo_entry 2) flow (view demo_alice_node) = Some dec -> d_Action dec <> ActionDeny.
Proof. unfold Dispatcher.Dispatcher.outbound_decision. cbn. destruct (negb _); [|done]. intros [= <-]. by vm_compute. Qed.

Lemma first_packet_delivered_witness :
  exists na1 m1 nb1 m2 na2 m3 nb2,
    on_tun demo_hash no_contention 1 demo_syn 5 demo_inputs demo_alice_node = Some (na1, [Datagram m1 (UDP (demo_ep 2))]) /\
    on_udp demo_hash no_contention 1 m1 (UDP (demo_ep 1)) 6 demo_inputs demo_bob_node = Some (nb1, [Datagram m2 (UDP (demo_ep 1))]) /\
    on_udp demo_hash no_contention 1 m2 (UDP (demo_ep 2)) 7 demo_inputs na1 = Some (na2, [Datagram m3 (UDP (demo_ep 2))]) /\
    on_udp demo_hash no_contention 1 m3 (UDP (demo_ep 1)) 8 demo_inputs nb1 = Some (nb2, [ToTUN demo_syn]).
Proof.
  eapply (first_packet_delivered demo_hash 1 ltac:(lia) (Handshake.Handshake.demo_identity 1) (Handshake.Handshake.demo_identity 2) Handshake.Handshake.demo_net demo_alice_node demo_bob_node
    0 (Handshake.Handshake.demo_entry 2) 0 (Handshake.Handshake.demo_entry 1) (demo_ep 1) demo_syn (Addr4 0x0A000001) _ _ demo_inputs demo_inputs demo_inputs demo_inputs (zeros 8) (zeros 8) 5 6 7 8
    (proj1 Handshake.Handshake.demo_identity_ok) (proj2 Handshake.Handshake.demo_identity_ok) eq_refl eq_refl eq_refl eq_refl (proj1 demo_ready) (proj2 demo_ready)).
  all: try (apply Handshake.Handshake.demo_skew); try exact demo_lets_in; try (intros dec; apply demo_allowed_out); try (by eexists); try (vm_compute; reflexivity); by vm_compute.
Defined.
End Node.
