(* ===== verification/Control.v ===== *)
(** * Control: the clients of the control socket

    [Control] models who talks to a running daemon: [veld status] and [veld down]
    ([src/cmd/veld/main.go]) and the tray application ([src/tray/ipc.go],
    [src/tray/main.go]), over the handlers of [Daemon]; and when the daemon
    ([src/internal/daemon/daemon.go]) stores the status they are given, over [Wiring].
    A response is its code and the JSON value of its body; sockets are a map from
    paths to what the daemon behind them would answer. *)
From Stdlib Require Import ZArith Lia.
From stdpp Require Import base numbers list gmap strings.
From S2P Require Import Prelude GoLib PeerTable AddrText Noise Handshake NatSignal Nat CoordClient Route Config Daemon Wiring Cli Deploy.

Module Control.
Import Netip AddrText.
Import Daemon.Daemon (StatusResponse, PeerStatus, Running, st_VPNAddr, PeerID, NetworkID, CoordAddr, Peers, ps_VPNAddr, ps_Endpoint, ps_State,
  ipc_reply, IStatus, IShutdown, IMethodNotAllowed, INotFound, ipc_request, updateIPCStatus, peerTableSnapshot, peer_status).
Local Open Scope string_scope.

(** ** JSON, as [encoding/json] writes and reads a status *)
#[local] Unset Elimination Schemes.
Inductive json := JNull | JBool (b : bool) | JNumber (text : string) | JString (s : string) | JArray (l : list json) | JObject (l : list (string * json)).
#[local] Set Elimination Schemes.

(** A field with [omitempty]. *)
Definition opt_field (key v : string) : list (string * json) := if String.eqb v "" then [] else [(key, JString v)].

Definition encode_peer (p : PeerStatus) : json :=
  JObject [("vpn_addr", JString (ps_VPNAddr p)); ("endpoint", JString (ps_Endpoint p)); ("state", JString (ps_State p))].
Definition encode_status (st : StatusResponse) : json :=
  JObject ([("running", JBool (Running st))] ++ opt_field "vpn_addr" (st_VPNAddr st) ++ opt_field "peer_id" (PeerID st) ++
           opt_field "network_id" (NetworkID st) ++ opt_field "coord_addr" (CoordAddr st) ++ [("peers", JArray (map encode_peer (Peers st)))]).

(** The field a key belongs to: the one with this name, or else one with the same
    letters in another case. *)
Definition field_for (fields : list string) (key : string) : option string :=
  if bool_decide (key ∈ fields) then Some key else List.find (equal_fold key) fields.

(** What a value does to a field: [null] leaves it, a value of another type is an
    error. *)
Definition read_string (v : json) (old : string) : option string := match v with JNull => Some old | JString s => Some s | _ => None end.
Definition read_bool (v : json) (old : bool) : option bool := match v with JNull => Some old | JBool b => Some b | _ => None end.

Definition peer_fields : list string := ["vpn_addr"; "endpoint"; "state"].
Definition zero_peer : PeerStatus := {| ps_VPNAddr := ""; ps_Endpoint := ""; ps_State := "" |}.
Definition set_peer_field (p : PeerStatus) (kv : string * json) : option PeerStatus :=
  match field_for peer_fields kv.1 with
  | None => Some p
  | Some f =>
      if String.eqb f "vpn_addr" then s ← read_string kv.2 (ps_VPNAddr p); Some {| ps_VPNAddr := s; ps_Endpoint := ps_Endpoint p; ps_State := ps_State p |}
      else if String.eqb f "endpoint" then s ← read_string kv.2 (ps_Endpoint p); Some {| ps_VPNAddr := ps_VPNAddr p; ps_Endpoint := s; ps_State := ps_State p |}
      else s ← read_string kv.2 (ps_State p); Some {| ps_VPNAddr := ps_VPNAddr p; ps_Endpoint := ps_Endpoint p; ps_State := s |}
  end.

Fixpoint fold_fields {A} (f : A -> string * json -> option A) (l : list (string * json)) (a : A) : option A :=
  match l with [] => Some a | kv :: l' => a' ← f a kv; fold_fields f l' a' end.

Definition decode_peer (v : json) : option PeerStatus :=
  match v with JNull => Some zero_peer | JObject l => fold_fields set_peer_field l zero_peer | _ => None end.

Definition status_fields : list string := ["running"; "vpn_addr"; "peer_id"; "network_id"; "coord_addr"; "peers"].
Definition zero_status : StatusResponse :=
  {| Running := false; st_VPNAddr := ""; PeerID := ""; NetworkID := ""; CoordAddr := ""; Peers := [] |}.
Definition set_status_field (st : StatusResponse) (kv : string * json) : option StatusResponse :=
  match field_for status_fields kv.1 with
  | None => Some st
  | Some f =>
      if String.eqb f "running" then
        b ← read_bool kv.2 (Running st);
        Some {| Running := b; st_VPNAddr := st_VPNAddr st; PeerID := PeerID st; NetworkID := NetworkID st; CoordAddr := CoordAddr st; Peers := Peers st |}
      else if String.eqb f "vpn_addr" then
        s ← read_string kv.2 (st_VPNAddr st);
        Some {| Running := Running st; st_VPNAddr := s; PeerID := PeerID st; NetworkID := NetworkID st; CoordAddr := CoordAddr st; Peers := Peers st |}
      else if String.eqb f "peer_id" then
        s ← read_string kv.2 (PeerID st);
        Some {| Running := Running st; st_VPNAddr := st_VPNAddr st; PeerID := s; NetworkID := NetworkID st; CoordAddr := CoordAddr st; Peers := Peers st |}
      else if String.eqb f "network_id" then
        s ← read_string kv.2 (NetworkID st);
        Some {| Running := Running st; st_VPNAddr := st_VPNAddr st; PeerID := PeerID st; NetworkID := s; CoordAddr := CoordAddr st; Peers := Peers st |}
      else if String.eqb f "coord_addr" then
        s ← read_string kv.2 (CoordAddr st);
        Some {| Running := Running st; st_VPNAddr := st_VPNAddr st; PeerID := PeerID st; NetworkID := NetworkID st; CoordAddr := s; Peers := Peers st |}
      else
        l ← match kv.2 with JNull => Some [] | JArray l => mapM decode_peer l | _ => None end;
        Some {| Running := Running st; st_VPNAddr := st_VPNAddr st; PeerID := PeerID st; NetworkID := NetworkID st; CoordAddr := CoordAddr st; Peers := l |}
  end.

(** The struct of the tray has the fields and tags of the daemon's. *)
Definition decode_status (v : json) : option StatusResponse :=
  match v with JNull => Some zero_status | JObject l => fold_fields set_status_field l zero_status | _ => None end.

(** ** The socket *)
Record response := { StatusCode : Z; body : option json }.

Definition serve (r : ipc_reply) : response :=
  match r with
  | IStatus st => {| StatusCode := 200; body := Some (encode_status st) |}
  | IShutdown => {| StatusCode := 200; body := None |}
  | IMethodNotAllowed => {| StatusCode := 405; body := None |}
  | INotFound => {| StatusCode := 404; body := None |}
  end.

(** The daemon that listens on a path, by the status it has stored. *)
Abbreviation sockets := (gmap string StatusResponse).
Definition request (method path : string) (socks : sockets) (sock : string) : option response :=
  st ← socks !! sock; Some (serve (ipc_request path method st)).

(** ** [veld status] and [veld down] *)
Definition isRunning (socks : sockets) (sock : string) : bool :=
  match request "GET" "/api/status" socks sock with None => false | Some r => (StatusCode r =? 200)%Z end.

Inductive status_error := SDial | SCode (c : Z) | SDecode.
Definition getStatus (socks : sockets) (sock : string) : result status_error StatusResponse :=
  match request "GET" "/api/status" socks sock with
  | None => Err SDial
  | Some r =>
      if negb (StatusCode r =? 200)%Z then Err (SCode (StatusCode r))
      else match body r ≫= decode_status with None => Err SDecode | Some st => Ok st end
  end.

Definition ipcPost (path : string) (socks : sockets) (sock : string) : bool := bool_decide (is_Some (request "POST" path socks sock)).

Definition shown_if (label v : string) : list string := if String.eqb v "" then [] else [label ++ v].
Definition peer_lines (p : PeerStatus) : list string := ("    " ++ ps_VPNAddr p ++ " (" ++ ps_State p ++ ")") :: shown_if "      Endpoint: " (ps_Endpoint p).
Definition status_lines (st : StatusResponse) : list string :=
  (["Daemon Status:"; ("  Running: " ++ (if Running st then "true" else "false"))%string] ++
   shown_if "  VPN Address: " (st_VPNAddr st) ++ shown_if "  Peer ID: " (PeerID st) ++ shown_if "  Network: " (NetworkID st) ++ shown_if "  Coordinator: " (CoordAddr st) ++
   ("  Peers (" ++ Strings.string_of_bytes (dec (Z.of_nat (length (Peers st)))) ++ "):")%string :: concat (map peer_lines (Peers st)))%list.

(** The daemon is asked twice; [socks] and [socks'] are what there is each time. *)
Definition runStatus (socks socks' : sockets) (sock : string) : result status_error (list string) :=
  if negb (isRunning socks sock) then Ok ["daemon not running"]
  else match getStatus socks' sock with Err e => Err e | Ok st => Ok (status_lines st) end.

(** [veld down]: the daemon is looked for, told to stop, and looked for again. *)
Definition down (socks socks' : sockets) (polls : list sockets) (sock : string) : Cli.Cli.down_outcome :=
  Cli.Cli.runDown (isRunning socks sock) (ipcPost "/api/shutdown" socks' sock) (map (fun s => isRunning s sock) polls).

(** ** The tray *)
Inductive platform := Windows | Darwin | Linux | OtherOS.
#[export] Instance platform_eq_dec : EqDecision platform.
Proof. solve_decision. Defined.

Definition defaultSocketPath (os : platform) (home : option string) (temp : string) : string :=
  match os with Windows => "\\.\pipe\veld" | _ => Cli.Cli.Join [default temp home; "veld"; "daemon.sock"] end.

Definition queryStatus (socks : sockets) (sock : string) : option StatusResponse :=
  r ← request "GET" "/api/status" socks sock;
  if negb (StatusCode r =? 200)%Z then None else body r ≫= decode_status.

Inductive icon := iconConnected | iconDisconnected.
Record menu := { m_icon : icon; mStatus : string; mToggle : string }.
Record tray := { connected : bool; shown : menu }.

(** [onReady], before the first poll. *)
Definition onReady : tray := {| connected := false; shown := {| m_icon := iconDisconnected; mStatus := "Not connected"; mToggle := "Connect" |} |}.

Definition status_label (st : StatusResponse) : string := if String.eqb (st_VPNAddr st) "" then "connected" else st_VPNAddr st.

Definition update (q : option StatusResponse) (t : tray) : tray :=
  let nowConnected := match q with Some st => Running st | None => false end in
  let prev := connected t in
  let m := shown t in
  {| connected := nowConnected;
     shown :=
       if eqb nowConnected prev then
         match q with
         | Some st => if nowConnected then {| m_icon := m_icon m; mStatus := status_label st; mToggle := mToggle m |} else m
         | None => m
         end
       else
         match q with
         | Some st => if nowConnected then {| m_icon := iconConnected; mStatus := status_label st; mToggle := "Disconnect" |}
                      else {| m_icon := iconDisconnected; mStatus := "Not connected"; mToggle := "Connect" |}
         | None => {| m_icon := iconDisconnected; mStatus := "Not connected"; mToggle := "Connect" |}
         end |}.

Definition siblingPath (self name : string) : string := Cli.Cli.Join [Cli.Cli.Dir self; name].

(** The daemon's binary; [self]: the tray's own path, if it is known. *)
Definition startDaemon (self : option string) (exists_ : string -> bool) : string :=
  match self with
  | Some s => let candidate := siblingPath s "veld-daemon" in if exists_ candidate then candidate else "veld-daemon"
  | None => "veld-daemon"
  end.

Definition openBrowser (os : platform) (url : string) : list string :=
  match os with
  | Windows => ["rundll32"; "url.dll,FileProtocolHandler"; url]
  | Darwin => ["open"; url]
  | _ => ["xdg-open"; url]
  end.
(** The command line gives up on a system it does not know. *)
Definition openBrowserURL (os : platform) (rawURL : string) : option (list string) := if decide (os = OtherOS) then None else Some (openBrowser os rawURL).

(** What a click asks for. *)
Definition dashboardURL : string := "https://app.veldmesh.io".
Inductive action := PostShutdown (sock : string) | Launch (bin : string) | Browse (url : string).
Definition toggle (sock bin : string) (t : tray) : action := if connected t then PostShutdown sock else Launch bin.

(** A desktop: daemons come, store their status and go; the tray polls and is
    clicked, until it is quit. *)
Inductive event := Serve (sock : string) (st : StatusResponse) | Gone (sock : string) | Poll | Toggle | Dashboard.
Record desktop := { d_socks : sockets; d_tray : tray; d_actions : list action }.
Definition desktop_step (sock bin : string) (d : desktop) (e : event) : desktop :=
  match e with
  | Serve s st => {| d_socks := <[s := st]> (d_socks d); d_tray := d_tray d; d_actions := d_actions d |}
  | Gone s => {| d_socks := delete s (d_socks d); d_tray := d_tray d; d_actions := d_actions d |}
  | Poll => {| d_socks := d_socks d; d_tray := update (queryStatus (d_socks d) sock) (d_tray d); d_actions := d_actions d |}
  | Toggle => {| d_socks := d_socks d; d_tray := d_tray d; d_actions := (d_actions d ++ [toggle sock bin (d_tray d)])%list |}
  | Dashboard => {| d_socks := d_socks d; d_tray := d_tray d; d_actions := (d_actions d ++ [Browse dashboardURL])%list |}
  end.
Definition desktop_run (sock bin : string) (d : desktop) (es : list event) : desktop := foldl (desktop_step sock bin) d es.
Definition logged_in (socks : sockets) : desktop := {| d_socks := socks; d_tray := onReady; d_actions := [] |}.

(** ** When a status is stored *)
Section Stored.
Context `{Noise.Noise.NoiseLib} `{NatSignal.SignalCrypto} `{Nat.SignalCodec} {T : Type} `{Handshake.Handshake.Pinning T} {K : Type} `{Route.Route.RouteHandle K}.
Variables (userspace : bool) (platform : string) (cfg : Config.Config.Config) (networkID : list Z).

(** A daemon with its peers and the status its socket gives out. *)
Record live := { l_table : PeerTable.PeerTable.Table; l_daemon : Wiring.Wiring.Daemon (T := T) (K := K); l_status : StatusResponse }.

(** [updateIPCStatus]; [client]: the address and the ID the coordinator's client has.
    Nothing sets the daemon's own [peerID]. *)
Definition stored (client : Addr * string) (tbl : PeerTable.PeerTable.Table) (d : Wiring.Wiring.Daemon (T := T) (K := K)) : StatusResponse :=
  updateIPCStatus (Wiring.Wiring.vpnAddr d) "" (Config.Config.Addr (Config.Config.Coord cfg)) networkID (Wiring.Wiring.dev_prefix <$> Wiring.Wiring.tunDev d)
    (if Wiring.Wiring.coord_mode cfg then Some client else None) tbl.

Definition is_update (e : Wiring.Wiring.effect) : bool := match e with Wiring.Wiring.UpdateStatus => true | _ => false end.
Definition updates (d d' : Wiring.Wiring.Daemon (T := T) (K := K)) : bool := existsb is_update (drop (length (Wiring.Wiring.out d)) (Wiring.Wiring.out d')).

(** What happens to it: [Start] once the socket listens, the callbacks of the client
    ([id]: the client's ID then), of NAT traversal and of LAN discovery, and anything
    packets and the client do to the peers and the handshakes. *)
Inductive happening :=
| Started (client : Addr * string)
| Called (en : Wiring.Wiring.env) (cb : CoordClient.CoordClient.callback) (id : string)
| Discovered (en : Wiring.Wiring.env) (id : list Z) (ep : AddrPort)
| TimedOut (en : Wiring.Wiring.env) (id : list Z) (relayed : option (nat * AddrPort))
| Announced (en : Wiring.Wiring.env) (e : PeerTable.PeerTable.Entry) (ep : AddrPort)
| Changed (tbl : PeerTable.PeerTable.Table) (n : Handshake.Handshake.Node (T := T)) (evs : list Handshake.Handshake.event).

Definition keep (l : live) (td : PeerTable.PeerTable.Table * Wiring.Wiring.Daemon (T := T) (K := K)) : live :=
  {| l_table := td.1; l_daemon := td.2; l_status := l_status l |}.

Definition happen (l : live) (h : happening) : live :=
  let tbl := l_table l in
  let d := l_daemon l in
  match h with
  | Started client => {| l_table := tbl; l_daemon := d; l_status := stored client tbl d |}
  | Called en cb id =>
      let '(tbl', d') := Wiring.Wiring.hook userspace platform cfg en cb tbl d in
      match cb with
      | CoordClient.CoordClient.OnVPNAddrAssigned a _ =>
          {| l_table := tbl'; l_daemon := d'; l_status := if updates d d' then stored (a, id) tbl' d' else l_status l |}
      | _ => keep l (tbl', d')
      end
  | Discovered en id ep => keep l (Wiring.Wiring.OnEndpointDiscovered en id ep tbl d)
  | TimedOut en id relayed => keep l (Wiring.Wiring.OnPunchTimeout en id relayed tbl d)
  | Announced en e ep => keep l (Wiring.Wiring.onMDNSPeer en e ep (Wiring.Wiring.coord_mode cfg) tbl d)
  | Changed tbl' n evs => keep l (tbl', Wiring.Wiring.with_hs n evs d)
  end.
Definition happens (hs : list happening) (l : live) : live := foldl happen l hs.
End Stored.

(** ** What is written is read back *)
Lemma decode_encode_peer p : decode_peer (encode_peer p) = Some p.
Proof. by destruct p. Qed.

(** A field that is left out keeps its value, which is the empty one. *)
Lemma fold_opt_field {A} (f : A -> string * json -> option A) key v rest a b :
  f a (key, JString v) = Some b -> (v = "" -> a = b) -> fold_fields f (opt_field key v ++ rest)%list a = fold_fields f rest b.
Proof. intros E Ha. unfold opt_field. destruct (String.eqb_spec v "") as [->|]; cbn; [by rewrite Ha|by rewrite E]. Qed.

Lemma decode_encode_status st : decode_status (encode_status st) = Some st.
Proof.
  destruct st as [r a id net co ps]. unfold decode_status, encode_status. cbn [Running st_VPNAddr PeerID NetworkID CoordAddr Peers app].
  change (fold_fields ?f (?kv :: ?l) ?x) with (x' ← f x kv; fold_fields f l x'). cbn [set_status_field fst snd].
  replace (set_status_field zero_status ("running", JBool r)) with (Some {| Running := r; st_VPNAddr := ""; PeerID := ""; NetworkID := ""; CoordAddr := ""; Peers := [] |}) by done.
  cbn [mbind option_bind].
  do 4 (erewrite fold_opt_field by (try reflexivity; intros ->; reflexivity); cbn [Running st_VPNAddr PeerID NetworkID CoordAddr Peers]).
  assert (mapM decode_peer (map encode_peer ps) = Some ps) as E.
  { apply mapM_Some. induction ps; cbn; constructor; [apply decode_encode_peer|done]. }
  cbn [fold_fields set_status_field fst snd]. unfold set_status_field. cbn [fst snd]. rewrite E. done.
Qed.

Lemma getStatus_spec socks sock : getStatus socks sock = match socks !! sock with Some st => Ok st | None => Err SDial end.
Proof. unfold getStatus, request. destruct (socks !! sock) as [st|]; [|done]. cbn -[decode_status encode_status]. by rewrite decode_encode_status. Qed.
Lemma isRunning_spec socks sock : isRunning socks sock = bool_decide (is_Some (socks !! sock)).
Proof. unfold isRunning, request. by destruct (socks !! sock). Qed.
Lemma queryStatus_spec socks sock : queryStatus socks sock = socks !! sock.
Proof. unfold queryStatus, request. destruct (socks !! sock) as [st|]; [|done]. cbn -[decode_status encode_status]. by rewrite decode_encode_status. Qed.

(** [veld status] prints the status that is stored. *)
Lemma runStatus_spec socks sock st : socks !! sock = Some st -> runStatus socks socks sock = Ok (status_lines st).
Proof. intros E. unfold runStatus. rewrite isRunning_spec, getStatus_spec, E. done. Qed.

(** The tray and the command line look for the daemon where it listens by default. *)
Lemma tray_socket os home temp : os <> Windows ->
  defaultSocketPath os home temp = Deploy.Deploy.DefaultSocketPath home temp /\ Deploy.Deploy.getSocketPath home temp "" = Deploy.Deploy.DefaultSocketPath home temp.
Proof. by destruct os. Qed.

(** ** What the tray shows *)
Definition running (q : option StatusResponse) : bool := match q with Some st => Running st | None => false end.
Definition render (q : option StatusResponse) : menu :=
  match q with
  | Some st => if Running st then {| m_icon := iconConnected; mStatus := status_label st; mToggle := "Disconnect" |}
               else {| m_icon := iconDisconnected; mStatus := "Not connected"; mToggle := "Connect" |}
  | None => {| m_icon := iconDisconnected; mStatus := "Not connected"; mToggle := "Connect" |}
  end.
Definition view (q : option StatusResponse) : tray := {| connected := running q; shown := render q |}.

Lemma update_view q x : update q (view x) = view q.
Proof. destruct q as [st|], x as [st'|]; unfold update, view, running, render; cbn; repeat (destruct (Running _); cbn); done. Qed.

Lemma desktop_view sock bin socks es : exists x, d_tray (desktop_run sock bin (logged_in socks) es) = view x.
Proof.
  unfold desktop_run. induction es as [|e es [x IH]] using rev_ind; [by exists None|]. rewrite foldl_snoc. destruct e; cbn; [by exists x..| |by exists x|by exists x].
  rewrite IH. eexists. apply update_view.
Qed.
Lemma tray_keeps sock bin es d : (Poll ∉ es) -> d_tray (desktop_run sock bin d es) = d_tray d.
Proof.
  revert d. induction es as [|e es IH]; intros d Hn; [done|]. change (desktop_run sock bin d (e :: es)) with (desktop_run sock bin (desktop_step sock bin d e) es).
  rewrite IH by set_solver. destruct e; try done. by destruct Hn; left.
Qed.

(** C37: The tray shows the daemon as it was at the last poll.  However daemons came and
    went and whatever was polled and clicked before, icon, address and button are those of
    the status stored by the daemon on the tray's socket at the last poll, or of no daemon
    when none listened or it was not running; and a click asks that daemon to stop, or
    starts one, accordingly.  The updates in place never leave a stale part behind. *)
Theorem tray_shows_daemon sock bin socks es1 es2 :
  (Poll ∉ es2) ->
  let d := desktop_run sock bin (logged_in socks) (es1 ++ Poll :: es2) in
  let q := d_socks (desktop_run sock bin (logged_in socks) es1) !! sock in
  shown (d_tray d) = render q /\
  d_actions (desktop_step sock bin d Toggle) = (d_actions d ++ [if running q then PostShutdown sock else Launch bin])%list.
Proof.
  intros Hn d q. assert (d_tray d = view q) as E; [|by cbn; unfold toggle; rewrite E].
  unfold d, desktop_run. rewrite foldl_app. cbn [foldl]. fold (desktop_run sock bin (logged_in socks) es1). change (foldl (desktop_step sock bin) ?x es2) with (desktop_run sock bin x es2).
  rewrite tray_keeps by done. cbn [desktop_step d_tray]. destruct (desktop_view sock bin socks es1) as [x ->]. by rewrite update_view, queryStatus_spec.
Qed.

Definition up (a : string) : StatusResponse := {| Running := true; st_VPNAddr := a; PeerID := ""; NetworkID := ""; CoordAddr := ""; Peers := [] |}.
(** The address changes while the tray is up, the daemon goes, and the tray has not
    noticed yet. *)
Lemma tray_shows_daemon_witness :
  let es := [Poll; Serve "s" (up "100.64.0.1"); Poll; Serve "s" (up "100.64.0.2")] in
  let d := desktop_run "s" "veld-daemon" (logged_in ∅) (es ++ [Poll; Gone "s"]) in
  shown (d_tray d) = {| m_icon := iconConnected; mStatus := "100.64.0.2"; mToggle := "Disconnect" |} /\
  d_actions (desktop_step "s" "veld-daemon" d Toggle) = [PostShutdown "s"].
Proof.
  intros es d. destruct (tray_shows_daemon "s" "veld-daemon" ∅ es [Gone "s"]) as [E1 E2].
  - intros Hin. apply list_elem_of_singleton in Hin. discriminate.
  - split; [exact (eq_trans E1 eq_refl)|exact (eq_trans E2 eq_refl)].
Defined.

(** ** What [veld status] shows *)
Section Frozen.
Context `{Noise.Noise.NoiseLib} `{NatSignal.SignalCrypto} `{Nat.SignalCodec} {T : Type} `{Handshake.Handshake.Pinning T} {K : Type} `{Route.Route.RouteHandle K}.
Variables (userspace : bool) (platform : string) (cfg : Config.Config.Config) (networkID : list Z).
Abbreviation happen := (happen (T := T) (K := K) userspace platform cfg networkID).
Abbreviation happens := (happens (T := T) (K := K) userspace platform cfg networkID).

(** The device is made for an assigned address only. *)
Lemma initiate_tun en p t (d : Wiring.Wiring.Daemon (T := T) (K := K)) : Wiring.Wiring.tunDev (Wiring.Wiring.initiate en p t d).2 = Wiring.Wiring.tunDev d.
Proof. by destruct (Wiring.Wiring.initiate_spec en p t d) as (_ & _ & _ & E & _). Qed.
Lemma try_handshake_tun en id t (d : Wiring.Wiring.Daemon (T := T) (K := K)) : Wiring.Wiring.tunDev (Wiring.Wiring.try_handshake en id t d).2 = Wiring.Wiring.tunDev d.
Proof. unfold Wiring.Wiring.try_handshake. destruct (PeerTable.PeerTable.LookupByID id t); [apply initiate_tun|done]. Qed.
Lemma onPeerAdded_tun en p t (d : Wiring.Wiring.Daemon (T := T) (K := K)) : Wiring.Wiring.tunDev (Wiring.Wiring.onPeerAdded userspace en p t d).2 = Wiring.Wiring.tunDev d.
Proof.
  unfold Wiring.Wiring.onPeerAdded. destruct (PeerTable.PeerTable.entries t !! p) as [e|]; [|done]. cbv zeta. set (d1 := if userspace then d else _).
  assert (Wiring.Wiring.tunDev d1 = Wiring.Wiring.tunDev d) as E1 by (unfold d1, Wiring.Wiring.addPeerRoutes; destruct userspace; [done|]; by destruct (foldl _ _ _) as [[? ?] ?]).
  destruct (ap_valid _); [|by destruct userspace]. pose proof (initiate_tun en p t d1). destruct (Wiring.Wiring.initiate en p t d1). cbn in *. congruence.
Qed.
Lemma onPeerRemoved_tun id t (d : Wiring.Wiring.Daemon (T := T) (K := K)) : Wiring.Wiring.tunDev (Wiring.Wiring.onPeerRemoved userspace id t d) = Wiring.Wiring.tunDev d.
Proof.
  unfold Wiring.Wiring.onPeerRemoved. destruct userspace; [done|]. destruct (p ← _; _) as [e|]; [|done]. unfold Wiring.Wiring.removePeerRoutes. by destruct (foldl _ _ _) as [[? ?] ?].
Qed.
Lemma onMDNSPeer_tun en e ep m t (d : Wiring.Wiring.Daemon (T := T) (K := K)) : Wiring.Wiring.tunDev (Wiring.Wiring.onMDNSPeer en e ep m t d).2 = Wiring.Wiring.tunDev d.
Proof.
  unfold Wiring.Wiring.onMDNSPeer. destruct (PeerTable.PeerTable.LookupByID _ t) as [p|].
  - destruct (PeerTable.PeerTable.entries t !! p) as [k|]; [|done]. destruct (_ || _); [done|]. apply initiate_tun.
  - destruct m; [done|]. destruct (CoordClient.CoordClient.upsert_new _ t) as [p [ok t']]. destruct ok; [apply initiate_tun|done].
Qed.

(** What does not store a status: all but a start and the assignment of another
    address than [a]. *)
Definition quiet (a : Addr) (h : happening (T := T)) : Prop :=
  match h with Started _ => False | Called _ (CoordClient.CoordClient.OnVPNAddrAssigned a' _) _ => a' = a | _ => True end.

Lemma happen_quiet a l h dev : Wiring.Wiring.tunDev (l_daemon l) = Some dev -> p_addr (Wiring.Wiring.dev_prefix dev) = a -> quiet a h ->
  Wiring.Wiring.tunDev (l_daemon (happen l h)) = Some dev /\ l_status (happen l h) = l_status l.
Proof.
  intros Ht Ha Hq. destruct h as [client|en cb id|en id ep|en id rel|en e ep|tbl n evs]; cbn [happen] in *; try done.
  - destruct cb as [p|pid|from pl|pid rs|a' cidr]; cbn [Wiring.Wiring.hook].
    + pose proof (onPeerAdded_tun en p (l_table l) (l_daemon l)) as E. destruct (Wiring.Wiring.onPeerAdded _ _ _ _ _). cbn in *. by rewrite E.
    + split; [|done]. exact (eq_trans (onPeerRemoved_tun _ _ _) Ht).
    + done.
    + done.
    + cbn in Hq. subst a'. unfold Wiring.Wiring.onVPNAddrAssigned, updates. rewrite Ht, bool_decide_eq_true_2, drop_all by done. done.
  - split; [|done]. exact (eq_trans (try_handshake_tun _ _ _ _) Ht).
  - split; [|done]. cbn [keep l_daemon]. unfold Wiring.Wiring.OnPunchTimeout. destruct (PeerTable.PeerTable.LookupByID id _); [|done]. destruct rel as [[pr loc]|]; [|done].
    by rewrite try_handshake_tun.
  - split; [|done]. exact (eq_trans (onMDNSPeer_tun _ _ _ _ _ _) Ht).
Qed.
Lemma happens_quiet a dev hs l : Wiring.Wiring.tunDev (l_daemon l) = Some dev -> p_addr (Wiring.Wiring.dev_prefix dev) = a -> Forall (quiet a) hs ->
  l_status (happens hs l) = l_status l.
Proof.
  intros Ht Ha Hq. revert l Ht. induction Hq as [|h hs Hh _ IH]; intros l Ht; [done|]. cbn. destruct (happen_quiet a l h dev Ht Ha Hh) as [Ht' <-]. by apply IH.
Qed.

(** C40: [veld status] does not show the peers.  A daemon stores the status its socket
    gives out when it starts and when it gets an address, and a client of the coordinator
    has no peers then: they come with the stream it opens afterwards.  When it gets its
    first IPv4 address with an empty table and the TUN can be created, whatever happens
    next, short of another address (peers join and leave, handshakes complete, NAT
    traversal, LAN discovery), [veld status] prints no peer, and no peer ID, which nothing
    sets. *)
Theorem status_frozen en v cidr id hs (l : live (T := T) (K := K)) socks sock :
  Wiring.Wiring.tunDev (l_daemon l) = None -> Wiring.Wiring.e_tun en = true -> PeerTable.PeerTable.List (l_table l) = [] ->
  Forall (quiet (Addr4 v)) hs -> socks !! sock = Some (l_status (happens (Called en (CoordClient.CoordClient.OnVPNAddrAssigned (Addr4 v) cidr) id :: hs) l)) ->
  runStatus socks socks sock = Ok (["Daemon Status:"; "  Running: true"] ++ shown_if "  VPN Address: " (addr_string (Addr4 v)) ++
    shown_if "  Network: " (GoLib.Hex.EncodeToString networkID) ++ shown_if "  Coordinator: " (Config.Config.Addr (Config.Config.Coord cfg)) ++ ["  Peers (0):"])%list.
Proof.
  intros Ht Hen Htbl Hq Hs. rewrite (runStatus_spec _ _ _ Hs). f_equal.
  set (h := Called en (CoordClient.CoordClient.OnVPNAddrAssigned (Addr4 v) cidr) id) in *. set (l1 := happen l h).
  assert (exists dev, Wiring.Wiring.tunDev (l_daemon l1) = Some dev /\ p_addr (Wiring.Wiring.dev_prefix dev) = Addr4 v /\
    l_status l1 = {| Running := true; st_VPNAddr := addr_string (Addr4 v); PeerID := ""; NetworkID := GoLib.Hex.EncodeToString networkID;
                     CoordAddr := Config.Config.Addr (Config.Config.Coord cfg); Peers := [] |}) as (dev & Ht1 & Ha & Es).
  { unfold l1, h. cbn [happen Wiring.Wiring.hook]. unfold Wiring.Wiring.onVPNAddrAssigned, Wiring.Wiring.createTUN, updates. rewrite Ht, Hen. cbv zeta.
    set (d' := Wiring.Wiring.with_net _ _ _ _ _). exists (default {| Wiring.Wiring.dev_name := ""; Wiring.Wiring.dev_prefix := Daemon.Daemon.prefix_zero; Wiring.Wiring.dev_mtu := 0 |} (Wiring.Wiring.tunDev d')).
    cbn [l_daemon l_status]. assert (p_addr (Daemon.Daemon.deriveMeshPrefix (Addr4 v) cidr) = Addr4 v) as Ep.
    { unfold Daemon.Daemon.deriveMeshPrefix. destruct (String.eqb cidr ""); [done|]. by destruct (ParsePrefix cidr). }
    split; [done|]. split; [done|]. assert (existsb is_update (drop (length (Wiring.Wiring.out (l_daemon l))) (Wiring.Wiring.out d')) = true) as ->.
    { unfold d'. cbn [Wiring.Wiring.with_net Wiring.Wiring.out]. rewrite drop_app_length, !existsb_app. cbn. by rewrite !orb_true_r. }
    unfold stored, updateIPCStatus. cbn -[addr_string peerTableSnapshot Daemon.Daemon.deriveMeshPrefix]. rewrite Ep. f_equal.
    unfold peerTableSnapshot. by rewrite Htbl. }
  change (happens (h :: hs) l) with (happens hs l1). rewrite (happens_quiet (Addr4 v) dev hs l1 Ht1 Ha Hq), Es.
  unfold status_lines. cbn [Running st_VPNAddr PeerID NetworkID CoordAddr Peers]. done.
Qed.
End Frozen.

(** A daemon gets its address, two peers join and one of them has a session. *)
#[local] Existing Instances Handshake.Handshake.demo_lib NatSignal.Signal.toy_crypto Nat.Nat.toy_codec Wiring.Wiring.no_pins Wiring.Wiring.free_handle.
Abbreviation kernel := (gmap Route.Route.IPNet (list Z)).
Definition demo_live : live (T := unit) (K := kernel) :=
  {| l_table := PeerTable.PeerTable.New;
     l_daemon := Wiring.Wiring.with_net None None AddrZero [] Wiring.Wiring.demo_daemon; l_status := zero_status |}.
Definition demo_assigned : happening (T := unit) := Called (Wiring.Wiring.demo_env 0) (CoordClient.CoordClient.OnVPNAddrAssigned (Addr4 0x64400001) "100.64.0.0/10") "me".
Definition demo_joined : happening (T := unit) := Changed Wiring.Wiring.demo_tunnel (Wiring.Wiring.hsMgr Wiring.Wiring.demo_daemon) [].
Definition demo_socks : sockets := {["s" := l_status (happens (K := kernel) false "veld0" (Wiring.Wiring.demo_cfg []) [0xab] [demo_assigned; demo_joined] demo_live)]}.
Lemma status_frozen_witness :
  length (PeerTable.PeerTable.List (l_table (happens (K := kernel) false "veld0" (Wiring.Wiring.demo_cfg []) [0xab] [demo_assigned; demo_joined] demo_live))) = 2%nat /\
  runStatus demo_socks demo_socks "s" = Ok ["Daemon Status:"; "  Running: true"; "  VPN Address: 100.64.0.1"; "  Network: ab"; "  Peers (0):"].
Proof.
  split; [vm_compute; reflexivity|].
  apply (status_frozen (K := kernel) false "veld0" (Wiring.Wiring.demo_cfg []) [0xab] (Wiring.Wiring.demo_env 0) 0x64400001 "100.64.0.0/10" "me" [demo_joined] demo_live demo_socks "s"); try reflexivity.
  repeat constructor.
Defined.
End Control.
