(* ===== verification/Device.v ===== *)
(** * Device: making a TUN, kernel TUNs and the TUN in memory

    [Device] models [src/internal/tun/tun.go] (which device is made, and [MemTUN], the
    device in memory) and the kernel devices of [tun_linux.go], [tun_darwin.go] and
    [tun_windows.go]: how one is made and given its address, and what is left when that
    fails.  The answers of the kernel, of [ifconfig] and [netsh] and of the WireGuard
    library are arguments; the userspace device is in [Tun]. *)
From Stdlib Require Import ZArith Lia.
From stdpp Require Import base numbers list gmap strings.
From S2P Require Import Prelude GoLib PeerTable AddrText Registry Route Tun.

Module Device.
Import Netip AddrText Strings.

(** ** Kernel devices *)
Inductive device_error :=
| EOpen | EIfreq | ESetIff | ENonblock | ELibrary | EName | ELink | EAddr | EUp | EIfconfig | EIfconfigUp | ENetsh | EUnsupported | ENoUserspace | ENetstack.

(** What is done to the host, in order.  The file of a device belongs to the library
    once it is handed over, and is closed with the device. *)
Inductive act := OpenFile | CloseFile | OpenDevice | CloseDevice | AddAddr (name : string) (a : Route.Route.IPNet) | LinkUp (name : string) | Exec (argv : list string).

Record KernelTUN := { k_name : string; k_addr : Prefix; k_mtu : Z }.

(** The answers on Linux; [l_name] is the name the kernel gave. *)
Record linux_io := { l_open : bool; l_ifreq : bool; l_setiff : bool; l_nonblock : bool; l_library : bool; l_name : option string; l_link : bool; l_addr : bool; l_up : bool }.

Definition createDevice (io : linux_io) : list act * option device_error :=
  if negb (l_open io) then ([], Some EOpen)
  else if negb (l_ifreq io) then ([OpenFile; CloseFile], Some EIfreq)
  else if negb (l_setiff io) then ([OpenFile; CloseFile], Some ESetIff)
  else if negb (l_nonblock io) then ([OpenFile; CloseFile], Some ENonblock)
  else if negb (l_library io) then ([OpenFile; CloseFile], Some ELibrary)   (* the file is the library's; its finalizer closes it *)
  else ([OpenDevice], None).

(** [net.IPNet] as the device gets it: an address in IPv6 form keeps that form. *)
Definition prefixToIPNet (p : Prefix) : Route.Route.IPNet :=
  {| Route.Route.ip := Route.Route.AsSlice (p_addr p); Route.Route.ones := if (0 <=? p_bits p) && (p_bits p <=? bit_len (p_addr p)) && addr_valid (p_addr p) then Some (p_bits p) else None |}.

Definition createTUN_linux (io : linux_io) (ip : Prefix) (mtu : Z) : list act * result device_error KernelTUN :=
  match createDevice io with
  | (l, Some e) => (l, Err e)
  | (l, None) =>
      match l_name io with
      | None => (l ++ [CloseDevice], Err EName)
      | Some realName =>
          if negb (l_link io) then (l ++ [CloseDevice], Err ELink)
          else if negb (l_addr io) then (l ++ [CloseDevice], Err EAddr)
          else if negb (l_up io) then (l ++ [AddAddr realName (prefixToIPNet ip); CloseDevice], Err EUp)
          else (l ++ [AddAddr realName (prefixToIPNet ip); LinkUp realName], Ok {| k_name := realName; k_addr := ip; k_mtu := mtu |})
      end
  end.

(** [net.CIDRMask]: [None] is nil. *)
Fixpoint mask_bytes (l : nat) (n : Z) : list Z :=
  match l with
  | O => []
  | S l' => if 8 <=? n then 255 :: mask_bytes l' (n - 8) else (255 - Z.shiftr 255 n) :: mask_bytes l' 0
  end.
Definition CIDRMask (ones bits : Z) : option (list Z) :=
  if negb ((bits =? 32) || (bits =? 128)) || (ones <? 0) || (bits <? ones) then None else Some (mask_bytes (Z.to_nat (bits / 8)) ones).

(** The mask as text; [None] is the panic on a mask that is nil. *)
Definition netmask (ip : Prefix) : option string :=
  match CIDRMask (p_bits ip) (bit_len (p_addr ip)) with
  | Some (a :: b :: c :: d :: _) => Some (string_of_bytes (dec a ++ [dot] ++ dec b ++ [dot] ++ dec c ++ [dot] ++ dec d))
  | _ => None
  end.

(** The answers on macOS and Windows. *)
Record cmd_io := { c_create : bool; c_name : option string; c_conf : bool; c_up : bool }.

Definition darwinConfigureIface (io : cmd_io) (name : string) (ip : Prefix) : option (list act * option device_error) :=
  mask ← netmask ip;
  let addr := addr_string (p_addr ip) in
  let conf := Exec ["ifconfig"; name; "inet"; addr; addr; "netmask"; mask]%string in
  Some (if negb (c_conf io) then ([conf], Some EIfconfig)
        else ([conf; Exec ["ifconfig"; name; "up"]%string], if c_up io then None else Some EIfconfigUp)).

Definition windowsConfigureIface (io : cmd_io) (name : string) (ip : Prefix) : option (list act * option device_error) :=
  mask ← netmask ip;
  Some ([Exec ["netsh"; "interface"; "ip"; "set"; "address"; "name=" ++ name; "source=static"; "address=" ++ addr_string (p_addr ip); "mask=" ++ mask]%string],
        if c_conf io then None else Some ENetsh).

(** [createTUN] of both; the outer [None] is a panic. *)
Definition createTUN_cmd (configure : cmd_io -> string -> Prefix -> option (list act * option device_error)) (io : cmd_io) (ip : Prefix) (mtu : Z)
    : option (list act * result device_error KernelTUN) :=
  if negb (c_create io) then Some ([], Err ELibrary)
  else match c_name io with
       | None => Some ([OpenDevice; CloseDevice], Err EName)
       | Some realName =>
           '(l, e) ← configure io realName ip;
           Some (match e with
                 | Some e => ([OpenDevice] ++ l ++ [CloseDevice], Err e)
                 | None => ([OpenDevice] ++ l, Ok {| k_name := realName; k_addr := ip; k_mtu := mtu |})
                 end)
       end.

(** [Read] and [Write] of a kernel device: the library's answer; an error is no bytes. *)
Definition kernel_Read (answer : result string Z) : Z * option string := match answer with Ok n => (n, None) | Err e => (0, Some e) end.
Definition kernel_Write (p : list Z) (answer : result string Z) : Z * option string := match answer with Ok _ => (Z.of_nat (length p), None) | Err e => (0, Some e) end.

(** ** Which device *)
Inductive build := BLinux (io : linux_io) | BDarwin (io : cmd_io) | BWindows (io : cmd_io) | BOther.
Inductive TUN := Kernel (t : KernelTUN) | Netstack (t : Tun.Tun.NetstackTUN).

(** [netstack]: whether the program was built with it, and the name of its device. *)
Definition createTUN (b : build) (ip : Prefix) (mtu : Z) : option (list act * result device_error TUN) :=
  '(l, r) ← match b with
            | BLinux io => Some (createTUN_linux io ip mtu)
            | BDarwin io => createTUN_cmd darwinConfigureIface io ip mtu
            | BWindows io => createTUN_cmd windowsConfigureIface io ip mtu
            | BOther => Some ([], Err EUnsupported)
            end;
  Some (l, match r with Ok t => Ok (Kernel t) | Err e => Err e end).

Definition CreateTUN (b : build) (netstack : option (option string)) (name : string) (ip : Prefix) (mtu : Z) (userspace : bool)
    : option (list act * result device_error TUN) :=
  if userspace then
    Some ([], match netstack with
              | None => Err ENoUserspace
              | Some dev => match Tun.Tun.createNetstackTUN name ip mtu dev with Some t => Ok (Netstack t) | None => Err ENetstack end
              end)
  else createTUN b ip mtu.

(** ** The device in memory *)
Record MemTUN := { m_name : string; m_addr : Prefix; m_mtu : Z; injectCh : list (list Z); delivCh : list (list Z); m_closed : bool }.
Definition chan_cap : nat := 256.

Definition NewMemTUN (name : string) (addr : Prefix) (mtu : Z) : MemTUN :=
  {| m_name := name; m_addr := addr; m_mtu := mtu; injectCh := []; delivCh := []; m_closed := false |}.
Definition with_inject (l : list (list Z)) (m : MemTUN) : MemTUN :=
  {| m_name := m_name m; m_addr := m_addr m; m_mtu := m_mtu m; injectCh := l; delivCh := delivCh m; m_closed := m_closed m |}.
Definition with_deliv (l : list (list Z)) (m : MemTUN) : MemTUN :=
  {| m_name := m_name m; m_addr := m_addr m; m_mtu := m_mtu m; injectCh := injectCh m; delivCh := l; m_closed := m_closed m |}.
Definition Close (m : MemTUN) : MemTUN :=
  {| m_name := m_name m; m_addr := m_addr m; m_mtu := m_mtu m; injectCh := injectCh m; delivCh := delivCh m; m_closed := true |}.
Definition Drain (m : MemTUN) : MemTUN := with_deliv [] m.

(** A [select] takes any of its ready cases: the possible results, none when it blocks.
    What a call answers: what was copied to the caller's buffer, the number of bytes
    written, or [ErrClosed]. *)
Inductive answer := Got (p : list Z) | Wrote (n : Z) | Refused.
Definition closed_case (m : MemTUN) : list (MemTUN * answer) := if m_closed m then [(m, Refused)] else [].

(** [Read] and [ReadDelivered] with a buffer of [n] bytes. *)
Definition Read (n : nat) (m : MemTUN) : list (MemTUN * answer) :=
  match injectCh m with pkt :: rest => [(with_inject rest m, Got (take n pkt))] | [] => [] end ++ closed_case m.
Definition ReadDelivered (n : nat) (m : MemTUN) : list (MemTUN * answer) :=
  match delivCh m with pkt :: rest => [(with_deliv rest m, Got (take n pkt))] | [] => [] end ++ closed_case m.

(** [Write] and [Inject]: the check, and the [select]. *)
Definition enter (m : MemTUN) : option answer := if m_closed m then Some Refused else None.
Definition Write_select (p : list Z) (m : MemTUN) : list (MemTUN * answer) :=
  (if (length (delivCh m) <? chan_cap)%nat then [(with_deliv (delivCh m ++ [p]) m, Wrote (Z.of_nat (length p)))] else []) ++ closed_case m.
Definition Inject_select (p : list Z) (m : MemTUN) : list (MemTUN * answer) :=
  (if (length (injectCh m) <? chan_cap)%nat then [(with_inject (injectCh m ++ [p]) m, Wrote (Z.of_nat (length p)))] else []) ++ closed_case m.

(** Calls of goroutines interleave; [waiting]: those past the check, with the direction
    ([true]: [Inject]) and the packet. *)
Record sys := { dev : MemTUN; waiting : gmap nat (bool * list Z) }.
Inductive label := LEnter (i : nat) (inj : bool) (p : list Z) | LRefused | LSent (inj : bool) (p : list Z) | LGot (inj : bool) (n : nat) (p : list Z) | LClose | LDrain.
Inductive step : sys -> label -> sys -> Prop :=
| S_enter i inj p m w : w !! i = None -> enter m = None -> step {| dev := m; waiting := w |} (LEnter i inj p) {| dev := m; waiting := <[i := (inj, p)]> w |}
| S_turned_away m w a : enter m = Some a -> step {| dev := m; waiting := w |} LRefused {| dev := m; waiting := w |}
| S_inject i p m m' n w : w !! i = Some (true, p) -> (m', Wrote n) ∈ Inject_select p m -> step {| dev := m; waiting := w |} (LSent true p) {| dev := m'; waiting := delete i w |}
| S_write i p m m' n w : w !! i = Some (false, p) -> (m', Wrote n) ∈ Write_select p m -> step {| dev := m; waiting := w |} (LSent false p) {| dev := m'; waiting := delete i w |}
| S_ended i (inj : bool) p m m' w : w !! i = Some (inj, p) -> (m', Refused) ∈ (if inj then Inject_select p m else Write_select p m) ->
    step {| dev := m; waiting := w |} LRefused {| dev := m'; waiting := delete i w |}
| S_read n p m m' w : (m', Got p) ∈ Read n m -> step {| dev := m; waiting := w |} (LGot true n p) {| dev := m'; waiting := w |}
| S_delivered n p m m' w : (m', Got p) ∈ ReadDelivered n m -> step {| dev := m; waiting := w |} (LGot false n p) {| dev := m'; waiting := w |}
| S_close m w : step {| dev := m; waiting := w |} LClose {| dev := Close m; waiting := w |}
| S_drain m w : step {| dev := m; waiting := w |} LDrain {| dev := Drain m; waiting := w |}.

Inductive steps : sys -> list label -> sys -> Prop :=
| Steps_nil s : steps s [] s
| Steps_snoc s1 ls s2 l s3 : steps s1 ls s2 -> step s2 l s3 -> steps s1 (ls ++ [l]) s3.
Definition start (m : MemTUN) : sys := {| dev := m; waiting := ∅ |}.

(** ** Nothing is left of a device that was not made *)

(** Files and devices open after a sequence of acts. *)
Definition weigh (a : act) : Z := match a with OpenFile | OpenDevice => 1 | CloseFile | CloseDevice => -1 | _ => 0 end.
Definition still_open (l : list act) : Z := foldr (fun a n => weigh a + n) 0 l.
Lemma still_open_app l l' : still_open (l ++ l') = still_open l + still_open l'.
Proof. induction l as [|a l IH]; [done|]. change (weigh a + still_open (l ++ l') = weigh a + still_open l + still_open l'). rewrite IH. lia. Qed.

Definition configures (f : cmd_io -> string -> Prefix -> option (list act * option device_error)) : Prop :=
  forall io n ip l e, f io n ip = Some (l, e) -> still_open l = 0.
Lemma darwin_configures : configures darwinConfigureIface.
Proof. intros io n ip l e. unfold darwinConfigureIface. destruct (netmask ip); [|done]. cbn [mbind option_bind]. destruct (c_conf io); by intros [= <- <-]. Qed.
Lemma windows_configures : configures windowsConfigureIface.
Proof. intros io n ip l e. unfold windowsConfigureIface. destruct (netmask ip); [|done]. by intros [= <- <-]. Qed.

Lemma linux_balanced io ip mtu l r : createTUN_linux io ip mtu = (l, r) -> still_open l = if is_ok r then 1 else 0.
Proof.
  unfold createTUN_linux, createDevice. intros E. repeat (case_match; simplify_eq; cbn in *; try done).
Qed.
Lemma cmd_balanced f io ip mtu l r : configures f -> createTUN_cmd f io ip mtu = Some (l, r) -> still_open l = if is_ok r then 1 else 0.
Proof.
  intros Hf. unfold createTUN_cmd. destruct (c_create io); [|by intros [= <- <-]]. destruct (c_name io) as [n|]; [|by intros [= <- <-]]. cbn [negb].
  destruct (f io n ip) as [[l' e]|] eqn:Ef; [|done]. pose proof (Hf _ _ _ _ _ Ef) as Hl. cbn [mbind option_bind].
  destruct e; intros [= <- <-]; change (still_open (OpenDevice :: ?x)) with (1 + still_open x); rewrite ?still_open_app, Hl; reflexivity.
Qed.

(** A kernel device is open after [CreateTUN] if and only if it is returned: on every
    system and whatever fails, no file and no device is left behind. *)
Theorem create_clean b netstack name ip mtu l r :
  CreateTUN b netstack name ip mtu false = Some (l, r) -> still_open l = if is_ok r then 1 else 0.
Proof.
  unfold CreateTUN, createTUN. destruct b as [io|io|io|]; cbn [mbind option_bind].
  - destruct (createTUN_linux io ip mtu) as [l' r'] eqn:E. pose proof (linux_balanced _ _ _ _ _ E) as H. intros [= <- <-]. by destruct r'.
  - destruct (createTUN_cmd darwinConfigureIface io ip mtu) as [[l' r']|] eqn:E; [|done]. pose proof (cmd_balanced _ _ _ _ _ _ darwin_configures E) as H. intros [= <- <-]. by destruct r'.
  - destruct (createTUN_cmd windowsConfigureIface io ip mtu) as [[l' r']|] eqn:E; [|done]. pose proof (cmd_balanced _ _ _ _ _ _ windows_configures E) as H. intros [= <- <-]. by destruct r'.
  - by intros [= <- <-].
Qed.

(** ** The mask is the prefix's *)
Lemma netmask4 v bits : 0 <= bits <= 32 -> netmask {| p_addr := Addr4 v; p_bits := bits |} = Some (addr_string (Addr4 (2 ^ 32 - 2 ^ (32 - bits)))).
Proof.
  intros Hb. change (netmask {| p_addr := Addr4 v; p_bits := bits |}) with (netmask {| p_addr := Addr4 0; p_bits := bits |}).
  assert (forallb (fun n => bool_decide (netmask {| p_addr := Addr4 0; p_bits := n |} = Some (addr_string (Addr4 (2 ^ 32 - 2 ^ (32 - n)))))) (seqZ 0 33) = true) as Hall by (vm_compute; reflexivity).
  rewrite forallb_forall in Hall. eapply bool_decide_eq_true_1, Hall, list_elem_of_In, elem_of_seqZ. lia.
Qed.

(** On macOS and Windows the mask given to the system is, for an IPv4 prefix, the
    prefix's: the text reads as the address whose first bits are ones, and the address
    masked with it is the network's. *)
Theorem netmask_correct p : prefix4_ok p ->
  exists s m, netmask p = Some s /\ ParseAddr s = Some (Addr4 m) /\ p_addr (Masked p) = Addr4 (Z.land (addr_val (p_addr p)) m).
Proof.
  intros Hp. pose proof Hp as [Ha Hb]. destruct p as [[|v|] bits]; try done. cbn [p_bits] in Hb. exists (addr_string (Addr4 (2 ^ 32 - 2 ^ (32 - bits)))), (2 ^ 32 - 2 ^ (32 - bits)).
  assert (2 ^ (32 - bits) <= 2 ^ 32) by (apply Z.pow_le_mono_r; lia). assert (0 < 2 ^ (32 - bits)) by (apply Z.pow_pos_nonneg; lia).
  split; [by apply netmask4|]. split; [apply ParseAddr_String; cbn; lia|].
  rewrite Registry.Registry.Masked_addr by done. f_equal. unfold Registry.Registry.base. cbn [p_addr p_bits addr_val]. cbn in Ha.
  assert (2 ^ 32 - 2 ^ (32 - bits) = Z.ldiff (Z.ones 32) (Z.ones (32 - bits))) as ->.
  { assert (forallb (fun n => 2 ^ 32 - 2 ^ (32 - n) =? Z.ldiff (Z.ones 32) (Z.ones (32 - n))) (seqZ 0 33) = true) as Hall by (vm_compute; reflexivity).
    rewrite forallb_forall in Hall. apply Z.eqb_eq, Hall, list_elem_of_In, elem_of_seqZ. lia. }
  rewrite <- Z.shiftr_div_pow2, <- Z.shiftl_mul_pow2, <- Z.ldiff_ones_r by lia. apply Z.bits_inj'. intros i Hi. rewrite Z.land_spec, !Z.ldiff_spec.
  destruct (Z.testbit v i) eqn:Ev; [|done]. cbn. assert (i < 32) as Hi32.
  { destruct (Z.lt_ge_cases i 32); [done|]. rewrite (Z.bits_above_log2 v i) in Ev; [done|lia|]. destruct (decide (v = 0)) as [->|]; [by rewrite Z.bits_0 in Ev|]. assert (Z.log2 v < 32); [|lia]. apply Z.log2_lt_pow2; lia. }
  by rewrite (proj2 (Z.ones_spec_iff 32 i ltac:(lia))) by lia.
Qed.

(** An IPv6 prefix gets a mask of IPv4, whatever its length from 32 bits on. *)
Example netmask6 : netmask {| p_addr := Addr6 0 ""; p_bits := 64 |} = Some "255.255.255.255"%string.
Proof. vm_compute. reflexivity. Qed.

(** ** Packets in order *)
Definition sent (inj : bool) (ls : list label) : list (list Z) := omap (fun l => match l with LSent b p => if eqb b inj then Some p else None | _ => None end) ls.
Definition got (inj : bool) (ls : list label) : list (nat * list Z) := omap (fun l => match l with LGot b n p => if eqb b inj then Some (n, p) else None | _ => None end) ls.
Definition queue (inj : bool) (m : MemTUN) : list (list Z) := if inj then injectCh m else delivCh m.
Definition copied (np : nat * list Z) (pkt : list Z) : Prop := np.2 = take np.1 pkt.

Definition in_order (inj : bool) (ls : list label) (s : sys) : Prop :=
  (length (queue inj (dev s)) <= chan_cap)%nat /\ exists read, sent inj ls = read ++ queue inj (dev s) /\ Forall2 copied (got inj ls) read.

Lemma sent_snoc inj ls l : sent inj (ls ++ [l]) = sent inj ls ++ sent inj [l].
Proof. apply omap_app. Qed.
Lemma got_snoc inj ls l : got inj (ls ++ [l]) = got inj ls ++ got inj [l].
Proof. apply omap_app. Qed.

Lemma closed_only m m' a : (m', a) ∈ closed_case m -> m' = m /\ a = Refused.
Proof. unfold closed_case. destruct (m_closed m); [|by intros ?%not_elem_of_nil]. by intros [= -> ->]%list_elem_of_singleton. Qed.
Lemma select_sent (room : bool) m1 k m m' a : (m', a) ∈ (if room then [(m1, Wrote k)] else []) ++ closed_case m ->
  (room = true /\ m' = m1 /\ a = Wrote k) \/ (m' = m /\ a = Refused).
Proof. intros [Hx|?%closed_only]%elem_of_app; [|by right]. destruct room; [|by apply not_elem_of_nil in Hx]. apply list_elem_of_singleton in Hx as [= -> ->]. by left. Qed.
Lemma select_got (q : list (list Z)) f n m m' p : (m', Got p) ∈ match q with pkt :: rest => [(f rest, Got (take n pkt))] | [] => [] end ++ closed_case m ->
  exists pkt rest, q = pkt :: rest /\ m' = f rest /\ p = take n pkt.
Proof. intros [Hx|[_ ?]%closed_only]%elem_of_app; [|done]. destruct q as [|pkt rest]; [by apply not_elem_of_nil in Hx|]. apply list_elem_of_singleton in Hx as [= -> ->]. eauto. Qed.

Lemma order_same inj ls l s m w : sent inj [l] = [] -> got inj [l] = [] -> queue inj m = queue inj (dev s) -> in_order inj ls s ->
  in_order inj (ls ++ [l]) {| dev := m; waiting := w |}.
Proof. intros Hs Hg Eq Ho. unfold in_order. cbn [dev]. by rewrite sent_snoc, got_snoc, Hs, Hg, !app_nil_r, Eq. Qed.
Lemma order_sent inj ls p s m w : queue inj m = queue inj (dev s) ++ [p] -> (length (queue inj (dev s)) < chan_cap)%nat -> in_order inj ls s ->
  in_order inj (ls ++ [LSent inj p]) {| dev := m; waiting := w |}.
Proof.
  intros Eq Hl [_ (read & Es & Hg)]. unfold in_order. cbn [dev]. rewrite sent_snoc, got_snoc, Eq, Es. split; [rewrite length_app; cbn; lia|]. exists read.
  assert (sent inj [LSent inj p] = [p] /\ got inj [LSent inj p] = []) as [-> ->] by by destruct inj. by rewrite app_nil_r, <- app_assoc.
Qed.
Lemma order_got inj ls n pkt s m w : queue inj (dev s) = pkt :: queue inj m -> in_order inj ls s ->
  in_order inj (ls ++ [LGot inj n (take n pkt)]) {| dev := m; waiting := w |}.
Proof.
  intros Eq [Hl (read & Es & Hg)]. unfold in_order. cbn [dev]. rewrite sent_snoc, got_snoc, Es. rewrite Eq in Hl |- *. split; [cbn in Hl; lia|]. exists (read ++ [pkt]).
  assert (sent inj [LGot inj n (take n pkt)] = [] /\ got inj [LGot inj n (take n pkt)] = [(n, take n pkt)]) as [-> ->] by by destruct inj.
  rewrite app_nil_r, <- app_assoc. split; [done|]. apply Forall2_app; [done|]. by repeat constructor.
Qed.

Lemma step_order inj ls s l s' : (inj = false -> l <> LDrain) -> in_order inj ls s -> step s l s' -> in_order inj (ls ++ [l]) s'.
Proof.
  intros Hd Ho St. destruct St as [i b p m w _ _|m w a _|i p m m' n w _ Hx|i p m m' n w _ Hx|i b p m m' w _ Hx|n p m m' w Hx|n p m m' w Hx|m w|m w];
    try (eapply order_same; [..|exact Ho]; by destruct inj).
  - apply select_sent in Hx as [(Hr & -> & _)|[_ ?]]; [|done]. destruct inj; [|by eapply order_same; [..|exact Ho]]. apply Nat.ltb_lt in Hr. by eapply order_sent; [..|exact Ho].
  - apply select_sent in Hx as [(Hr & -> & _)|[_ ?]]; [|done]. destruct inj; [by eapply order_same; [..|exact Ho]|]. apply Nat.ltb_lt in Hr. by eapply order_sent; [..|exact Ho].
  - assert (m' = m) as ->; [by destruct b; apply select_sent in Hx as [(_ & _ & ?)|[-> _]]|]. eapply order_same; [..|exact Ho]; done.
  - apply select_got in Hx as (pkt & rest & Eq & -> & ->). destruct inj; [|by eapply order_same; [..|exact Ho]]. by eapply order_got; [..|exact Ho].
  - apply select_got in Hx as (pkt & rest & Eq & -> & ->). destruct inj; [by eapply order_same; [..|exact Ho]|]. by eapply order_got; [..|exact Ho].
  - destruct inj; [by eapply order_same; [..|exact Ho]|by destruct Hd].
Qed.

(** The device in memory loses, repeats and reorders nothing: however calls interleave,
    what was read is what was sent, in that order, each packet cut to the reader's
    buffer, and the rest is queued, at most 256 packets.  What the dispatcher delivers
    is so as long as nobody drains it. *)
Theorem mem_in_order inj name addr mtu ls s : steps (start (NewMemTUN name addr mtu)) ls s -> (inj = false -> LDrain ∉ ls) -> in_order inj ls s.
Proof.
  intros St. remember (start (NewMemTUN name addr mtu)) as s0 eqn:E0. induction St as [s0|s0 ls s1 l s2 St IH Hl]; intros Hd.
  - subst s0. destruct inj; (split; [cbn; lia|]; exists []; split; [done|constructor]).
  - eapply step_order; [|apply IH; [done|]|exact Hl]; intros Hi; specialize (Hd Hi); set_solver.
Qed.

(** After [Close] a new call of [Write] or [Inject] is refused. *)
Lemma closed_refuses s ls s' i inj p s'' : m_closed (dev s) = true -> steps s ls s' -> ~ step s' (LEnter i inj p) s''.
Proof.
  intros Hc St. assert (m_closed (dev s') = true) as Hc'.
  { induction St as [|s ls s1 l s2 St IH Hl]; [done|]. specialize (IH Hc). destruct Hl; cbn [dev] in *; try done.
    - by apply select_sent in H0 as [(_ & -> & _)|[-> _]].
    - by apply select_sent in H0 as [(_ & -> & _)|[-> _]].
    - by destruct inj0; apply select_sent in H0 as [(_ & -> & _)|[-> _]].
    - by apply select_got in H as (? & ? & _ & -> & _).
    - by apply select_got in H as (? & ? & _ & -> & _). }
  intros He. inversion He; subst. unfold enter in *. cbn in Hc'. by rewrite Hc' in *.
Qed.
End Device.
