(* ===== verification/Services.v ===== *)
(** * Services: background loops and what is left of the programs

    [Services] models the loops that run beside the components and the pieces of the
    programs that only tie them together: the periodic summary of dropped packets
    ([src/internal/dataplane/dispatcher.go], [src/internal/acl/loader.go]), the reload of
    the policy on SIGHUP and the start of its watcher, the coordinator's sweep
    ([src/coord/server/sweep.go]), the browsing of the LAN ([src/internal/mdns/discovery.go]),
    the query of a STUN server ([src/internal/nat/stun.go]), the exchange of the code a user
    pastes ([src/cmd/veld/main.go]) and the relay's program ([src/cmd/veld-relay/main.go]).
    Ticks, signals and the answers of the outside are arguments. *)
From Stdlib Require Import ZArith Lia Ascii.
From stdpp Require Import base numbers list gmap strings.
From S2P Require Import Prelude GoLib PeerTable AddrText AclPolicy AclCompile AclParse FlowTable Dispatcher Registry Bus Server Noise NatSignal Relay RelayService Config Mdns Deploy.

Module Services.
Import Netip AddrText Strings.

(** ** The summary of dropped packets *)
Import AclCompile.Compiled AclCompile.Combined AclCompile.Loader.

(** The maps are copied, so that they can be read without the lock. *)
Definition Snapshot (dc : DropCounters) : gmap (list Z) Z * gmap Z Z * gmap (list Z) Z := (byPeer dc, byRule dc, byOutboundOnly dc).

Definition sum_values {K} `{Countable K} (m : gmap K Z) (total : Z) : Z := map_fold (fun _ v t => u64 (t + v)) total m.

(** The line that is logged: the total and the sizes of the maps. *)
Definition logDropCounters (dc : DropCounters) : option (Z * nat * nat * nat) :=
  let '(byPeer, byRule, byOO) := Snapshot dc in
  let total := sum_values byOO (sum_values byRule (sum_values byPeer 0)) in
  if 0 <? total then Some (total, size byPeer, size byRule, size byOO) else None.

(** ** SIGHUP and the watcher of the policy *)
Section Policy.
Variable decode : string -> result string (AclPolicy.Policy.rawPolicy * list (list string)).
Variable os : goos.
Variable euid : Z.

(** The pointer of the swap is shared: the dispatcher reads what the loader stored. *)
Definition share (l : LocalPolicyLoader) (d : Dispatcher.Dispatcher.Dispatcher) : Dispatcher.Dispatcher.Dispatcher :=
  {| Dispatcher.Dispatcher.d_tun := Dispatcher.Dispatcher.d_tun d; Dispatcher.Dispatcher.d_peers := Dispatcher.Dispatcher.d_peers d;
     Dispatcher.Dispatcher.d_sessions := Dispatcher.Dispatcher.d_sessions d; Dispatcher.Dispatcher.d_policyDecider := Dispatcher.Dispatcher.d_policyDecider d;
     Dispatcher.Dispatcher.d_swap := l_swap l; Dispatcher.Dispatcher.d_selfPeerID := Dispatcher.Dispatcher.d_selfPeerID d;
     Dispatcher.Dispatcher.d_flowTable := Dispatcher.Dispatcher.d_flowTable d; Dispatcher.Dispatcher.d_dropCounters := Dispatcher.Dispatcher.d_dropCounters d;
     Dispatcher.Dispatcher.d_lastDropLog := Dispatcher.Dispatcher.d_lastDropLog d |}.

(** One signal; the decider is set whether or not the file could be loaded.  [None] is
    a panic. *)
Definition sighup (now : Z) (st : stat) (l : LocalPolicyLoader) (d : Dispatcher.Dispatcher.Dispatcher) : option (LocalPolicyLoader * Dispatcher.Dispatcher.Dispatcher) :=
  let l := (Reload decode os euid now st l).2 in
  d ← Dispatcher.Dispatcher.SetPolicyDecider (CombinedPolicy l) (share l d);
  Some (l, d).
Definition startSIGHUPHandler (signals : list (Z * stat)) (l : LocalPolicyLoader) (d : Dispatcher.Dispatcher.Dispatcher)
    : option (LocalPolicyLoader * Dispatcher.Dispatcher.Dispatcher) :=
  foldl (fun x s => x ≫= fun '(l, d) => sighup s.1 s.2 l d) (Some (l, d)) signals.
End Policy.

(** [StartWatcher]: [watcher], [add] and [closes]: whether one can be made, watches the
    directory, and closes.  Whether the loop runs, and the error. *)
Inductive watch_error_kind := WNew | WAdd | WAddClose.
Definition StartWatcher (path : string) (watcher add closes : bool) : bool * option watch_error_kind :=
  if String.eqb path "" then (false, None)
  else if negb watcher then (false, Some WNew)
  else if negb add then (false, Some (if closes then WAdd else WAddClose))
  else (true, None).

(** ** The coordinator's sweep *)
Section Sweep.
Context {M : Type -> Type} `{FMap M, forall A, Lookup string A (M A), forall A, Empty (M A),
  forall A, PartialAlter string A (M A), OMap M, Merge M, forall A, MapFold string A (M A), !FinMap string M}.

(** What a tick logs. *)
Inductive sweep_log := SweepFailed | SweepRemoved (n : Z) | SweepNothing.

(** The ticks until the context ends: whether the store takes the write, and the clock. *)
Fixpoint sweepLoop (ttl : Z) (ticks : list (bool * Z)) (s : Server.Server.Server M) : option (Server.Server.Server M * list sweep_log) :=
  match ticks with
  | [] => Some (s, [])
  | (io, now) :: ticks' =>
      '(s, r) ← Server.Server.ExpelStalePeers io ttl now s;
      let line := match r with Err _ => SweepFailed | Ok n => if 0 <? n then SweepRemoved n else SweepNothing end in
      '(s, l) ← sweepLoop ttl ticks' s;
      Some (s, line :: l)
  end.
End Sweep.

(** ** Browsing the LAN *)

(** [collectEntries]: the pointers sent on the channel until it is closed. *)
Fixpoint collectEntries (got : list nat) (sent : list nat) : list nat := match sent with [] => got | e :: sent' => collectEntries (got ++ [e]) sent' end.

(** A query: the pointers the library sent, and the entries when it has returned, which
    is the first time they are read. *)
Record query := { q_sent : list nat; q_entries : nat -> Mdns.Mdns.ServiceEntry }.
Definition browse (selfID : list Z) (q : query) : list (PeerTable.PeerTable.Entry * AddrPort) :=
  Mdns.Mdns.handleCollected selfID (q_entries q) (collectEntries [] (q_sent q)).

(** The loop: a query at once, then one at each tick, until the discovery is stopped;
    [turns]: what the [select]s find, [None] the end. *)
Fixpoint browseLoop (selfID : list Z) (turns : list (option query)) : list (PeerTable.PeerTable.Entry * AddrPort) :=
  match turns with
  | Some q :: turns' => browse selfID q ++ browseLoop selfID turns'
  | _ => []
  end.

(** ** STUN *)
Inductive query_error := QResolve | QListen | QDeadline | QSend | QRead | QParse (e : NatSignal.Stun.stun_error).
Record stun_io := { i_resolve : bool; i_listen : bool; i_deadline : bool; i_send : bool; i_txID : list Z; i_answer : list Z -> option (list Z) }.
Definition QuerySTUN (io : stun_io) : result query_error AddrPort :=
  if negb (i_resolve io) then Err QResolve
  else if negb (i_listen io) then Err QListen
  else if negb (i_deadline io) then Err QDeadline
  else if negb (i_send io) then Err QSend
  else match i_answer io (NatSignal.Stun.stun_request (i_txID io)) with
       | None => Err QRead
       | Some data => match NatSignal.Stun.parseSTUNResponse (take 512 data) (Noise.Noise.array 12 (i_txID io)) with Ok a => Ok a | Err e => Err (QParse e) end
       end.

(** ** The code a user pastes *)

(** [url.QueryEscape], on bytes. *)
Definition unreserved (c : Z) : bool :=
  ((97 <=? c) && (c <=? 122)) || ((65 <=? c) && (c <=? 90)) || ((48 <=? c) && (c <=? 57)) || (c =? 45) || (c =? 95) || (c =? 46) || (c =? 126).
Definition upperhex (v : Z) : Z := if v <? 10 then 48 + v else 55 + v.
Definition escape_byte (c : Z) : list Z := if unreserved c then [c] else if c =? 32 then [43] else [37; upperhex (Z.shiftr c 4); upperhex (Z.land c 15)].
Definition QueryEscape (l : list Z) : list Z := l ≫= escape_byte.

Definition upper_byte (c : Z) : Z := if (97 <=? c) && (c <=? 122) then c - 32 else c.
Definition cliAuthExchangeURL : string := "https://api.veldmesh.io/v1/cli-auth".
Definition exchange_url (code : string) : string :=
  (cliAuthExchangeURL ++ "?code=" ++ string_of_bytes (QueryEscape (map upper_byte (bytes_of_string (GoLib.Scan.TrimSpace code)))))%string.

(** The answer: the code, and the body as it decodes: token, network and coordinator. *)
Inductive exchange_error := XRequest | XStatus (c : Z) | XDecode.
Definition exchangeCliAuthCode (get : string -> option (Z * option (string * string * string))) (code : string)
    : result exchange_error (string * string * string) :=
  match get (exchange_url code) with
  | None => Err XRequest
  | Some (status, b) =>
      if negb (status =? 200) then Err (XStatus status)
      else match b with None => Err XDecode | Some (token, networkID, coordAddr) => Ok (coordAddr, networkID, token) end
  end.

(** ** Routes on other systems *)

(** The manager of systems other than Linux does nothing and reports no error
    ([src/internal/route/route_other.go]); its restore is a no-op too. *)
Definition noop_Add (prefix : Prefix) (via : Addr) : option string := None.
Definition noop_Remove (prefix : Prefix) : option string := None.
Definition noop_Close : option string := None.
Definition noop_EnableIPForward {F} (f : F) : F * (F -> F) := (f, fun f => f).

(** ** The relay's program *)
Section RelayProgram.
Context `{Relay.NoiseChannel}.
Inductive relay_outcome := RIdentity | RPrintKey (key : string) | RListen | RServe (key : string) (s : RelayService.RelayService.Service).
Definition relay_main (genIdentity verbose listen : bool) (id : result Config.Config.keystore_error Noise.Noise.Identity) : relay_outcome :=
  match id with
  | Err _ => RIdentity
  | Ok id =>
      if genIdentity then RPrintKey (Deploy.Deploy.printed_relay_key id)
      else if negb listen then RListen
      else RServe (Deploy.Deploy.printed_relay_key id) (RelayService.RelayService.NewService (if verbose then [RelayService.RelayService.Verbose] else []))
  end.
End RelayProgram.

(** ** What the summary counts *)
Lemma u64_add_l a b : u64 (u64 a + b) = u64 (a + b).
Proof. unfold u64, wrap. by rewrite Zplus_mod_idemp_l. Qed.
Lemma u64_add_r a b : u64 (a + u64 b) = u64 (a + b).
Proof. unfold u64, wrap. by rewrite Zplus_mod_idemp_r. Qed.
Lemma u64_idem a : u64 (u64 a) = u64 a.
Proof. unfold u64, wrap. by rewrite Zmod_mod. Qed.

Section Sums.
Context {K : Type} `{Countable K}.
Implicit Types m : gmap K Z.

Lemma sum_values_insert m k v t : m !! k = None -> sum_values (<[k := v]> m) t = u64 (sum_values m t + v).
Proof.
  intros E. unfold sum_values. rewrite map_fold_insert_L; [done| |done]. intros j1 j2 z1 z2 y _ _ _. rewrite !u64_add_l. f_equal. lia.
Qed.
(** A map that starts at [u64] stays there. *)
Lemma sum_values_start m : forall t d, sum_values m (u64 (t + d)) = u64 (sum_values m (u64 t) + d).
Proof.
  induction m as [|k v m E IH] using map_ind; intros t d.
  - unfold sum_values. rewrite !map_fold_empty. by rewrite u64_add_l.
  - rewrite !sum_values_insert, IH, !u64_add_l by done. f_equal. lia.
Qed.
Lemma sum_values_incr m k t : sum_values (incr k m) (u64 t) = u64 (sum_values m (u64 t) + 1).
Proof.
  unfold incr. destruct (m !! k) as [v|] eqn:E.
  - cbn [default]. assert (m = <[k := v]> (delete k m)) as -> by (by rewrite insert_delete_eq, insert_id). set (m' := delete k m).
    assert (m' !! k = None) as E' by apply lookup_delete_eq. rewrite insert_insert_eq, !sum_values_insert, u64_add_l, u64_add_r by done. unfold id. f_equal. lia.
  - cbn [default]. by rewrite sum_values_insert, u64_add_r by done.
Qed.
End Sums.

Definition total (dc : DropCounters) : Z := sum_values (byOutboundOnly dc) (sum_values (byRule dc) (sum_values (byPeer dc) 0)).

Lemma sum_values_wrapped {K} `{Countable K} (m : gmap K Z) t : u64 (sum_values m (u64 t)) = sum_values m (u64 t).
Proof. pose proof (sum_values_start m t 0) as E. rewrite !Z.add_0_r in E. by rewrite <- E at 1. Qed.

Lemma total_peer k dc : total (IncrementPeer k dc) = u64 (total dc + 1).
Proof.
  unfold total. cbn [IncrementPeer byPeer byRule byOutboundOnly]. change 0 with (u64 0). rewrite sum_values_incr.
  set (x := sum_values (byPeer dc) (u64 0)). assert (x = u64 x) as Ex by (symmetry; apply sum_values_wrapped).
  rewrite sum_values_start, <- Ex. set (y := sum_values (byRule dc) x). assert (y = u64 y) as Ey by (unfold y; rewrite Ex; symmetry; apply sum_values_wrapped).
  by rewrite sum_values_start, <- Ey.
Qed.
Lemma total_rule i dc : total (IncrementRule i dc) = u64 (total dc + 1).
Proof.
  unfold total. cbn [IncrementRule byPeer byRule byOutboundOnly]. change 0 with (u64 0). set (x := sum_values (byPeer dc) (u64 0)).
  assert (x = u64 x) as Ex by (symmetry; apply sum_values_wrapped). rewrite Ex, sum_values_incr, <- Ex.
  set (y := sum_values (byRule dc) x). assert (y = u64 y) as Ey by (unfold y; rewrite Ex; symmetry; apply sum_values_wrapped). by rewrite sum_values_start, <- Ey.
Qed.
Lemma total_outbound k dc : total (IncrementOutboundOnly k dc) = u64 (total dc + 1).
Proof.
  unfold total. cbn [IncrementOutboundOnly byPeer byRule byOutboundOnly]. change 0 with (u64 0). set (x := sum_values (byPeer dc) (u64 0)).
  assert (x = u64 x) as Ex by (symmetry; apply sum_values_wrapped). set (y := sum_values (byRule dc) x).
  assert (y = u64 y) as Ey by (unfold y; rewrite Ex; symmetry; apply sum_values_wrapped). by rewrite Ey, sum_values_incr, <- Ey.
Qed.

(** How often a drop is counted. *)
Definition weight (dec : Decision) : Z := 1 + (if 0 <=? d_RuleIndex dec then 1 else 0) + (if d_OutboundOnly dec then 1 else 0).

Lemma total_recordDrop now k dec d :
  total (Dispatcher.Dispatcher.d_dropCounters (Dispatcher.Dispatcher.recordDrop now k dec d)) = u64 (total (Dispatcher.Dispatcher.d_dropCounters d) + weight dec).
Proof.
  unfold Dispatcher.Dispatcher.recordDrop, weight. cbn [Dispatcher.Dispatcher.d_dropCounters Dispatcher.Dispatcher.with_drops].
  destruct (0 <=? d_RuleIndex dec), (d_OutboundOnly dec); rewrite ?total_outbound, ?total_rule, ?total_peer, <- ?Z.add_assoc, ?u64_add_l, <- ?Z.add_assoc, ?u64_add_l; f_equal; lia.
Qed.

Definition drops (l : list (Z * list Z * Decision)) (d : Dispatcher.Dispatcher.Dispatcher) : Dispatcher.Dispatcher.Dispatcher :=
  foldl (fun d x => Dispatcher.Dispatcher.recordDrop x.1.1 x.1.2 x.2 d) d l.
Lemma total_drops l d : u64 (total (Dispatcher.Dispatcher.d_dropCounters d)) = total (Dispatcher.Dispatcher.d_dropCounters d) ->
  total (Dispatcher.Dispatcher.d_dropCounters (drops l d)) = u64 (total (Dispatcher.Dispatcher.d_dropCounters d) + foldr (fun x n => weight x.2 + n) 0 l).
Proof.
  revert d. induction l as [|[[now k] dec] l IH]; intros d Hd; [cbn; by rewrite Z.add_0_r|].
  change (drops ((now, k, dec) :: l) d) with (drops l (Dispatcher.Dispatcher.recordDrop now k dec d)). cbn [foldr fst snd].
  rewrite IH; rewrite total_recordDrop; [rewrite u64_add_l; f_equal; lia|apply u64_idem].
Qed.

(** The total of the summary is not the number of drops: a drop counts once for its
    peer, again for its rule and again when the peer is outbound-only. *)
Theorem summary_total l d :
  Dispatcher.Dispatcher.d_dropCounters d = NewDropCounters -> l <> [] -> 3 * Z.of_nat (length l) < 2 ^ 64 ->
  exists a b c, logDropCounters (Dispatcher.Dispatcher.d_dropCounters (drops l d)) = Some (foldr (fun x n => weight x.2 + n) 0 l, a, b, c).
Proof.
  intros Hd Hl Hlen. assert (total (Dispatcher.Dispatcher.d_dropCounters d) = 0) as H0 by (rewrite Hd; reflexivity).
  pose proof (total_drops l d) as E. rewrite H0 in E. specialize (E eq_refl). cbn [Z.add] in E.
  assert (Z.of_nat (length l) <= foldr (fun x n => weight x.2 + n) 0 l <= 3 * Z.of_nat (length l)) as Hb.
  { clear. induction l as [|x l IH]; cbn [foldr length]; [lia|]. unfold weight at 1 3. destruct (0 <=? _), (d_OutboundOnly _); lia. }
  assert (0 < Z.of_nat (length l)) by (destruct l; [done|cbn; lia]).
  unfold u64, wrap in E. rewrite Z.mod_small in E by lia. unfold logDropCounters, Snapshot. fold (total (Dispatcher.Dispatcher.d_dropCounters (drops l d))). rewrite E.
  rewrite (proj2 (Z.ltb_lt _ _)) by lia. eauto.
Qed.
(** One packet for an outbound-only peer is reported as two drops. *)
Example outbound_only_twice d : Dispatcher.Dispatcher.d_dropCounters d = NewDropCounters ->
  logDropCounters (Dispatcher.Dispatcher.d_dropCounters (drops [(0, [7], {| d_Action := ActionDeny; d_RuleIndex := -1; d_OutboundOnly := true |})] d)) = Some (2, 1%nat, 0%nat, 1%nat).
Proof. intros Hd. unfold drops. cbn [foldl fst snd]. unfold Dispatcher.Dispatcher.recordDrop. rewrite Hd. vm_compute. reflexivity. Qed.

(** ** A reload on SIGHUP *)
Section Sighup.
Variable decode : string -> result string (AclPolicy.Policy.rawPolicy * list (list string)).
Variable os : goos.
Variable euid : Z.

Lemma reload_network now st l : l_network (Reload decode os euid now st l).2 = l_network l.
Proof.
  unfold Reload. destruct (Load_cases decode os euid st l) as [[e E]|[[_ E]|(f & p & _ & _ & E)]]; rewrite E; cbn; [|done..]. unfold logError. by case_match.
Qed.

(** The handler never stops the daemon, and after any number of signals the dispatcher
    decides as the loader's last policy says, the one before when a file was not good. *)
Theorem sighup_safe signals l d d0 :
  Dispatcher.Dispatcher.SetPolicyDecider (CombinedPolicy l) d0 = Some d -> Dispatcher.Dispatcher.d_swap d = l_swap l ->
  exists l' d', startSIGHUPHandler decode os euid signals l d = Some (l', d') /\
    Dispatcher.Dispatcher.d_policyDecider d' = CombinedPolicy l' /\ Dispatcher.Dispatcher.d_swap d' = l_swap l' /\ CombinedPolicy l' = CombinedPolicy l.
Proof.
  intros Hs Hw. assert (Dispatcher.Dispatcher.d_policyDecider d = CombinedPolicy l) as Hd.
  { revert Hs. unfold Dispatcher.Dispatcher.SetPolicyDecider. destruct (CombinedPolicy l) as [pd|]; [|done]. case_match; [|done]. by intros [= <-]. }
  clear Hs d0. unfold startSIGHUPHandler. revert l d Hd Hw. induction signals as [|[now st] sg IH]; intros l d Hd Hw; [by exists l, d|]. cbn [foldl]. rewrite bind_Some_eq. cbn [fst snd].
  unfold sighup. set (l1 := (Reload decode os euid now st l).2). assert (CombinedPolicy l1 = CombinedPolicy l) as Ec by (unfold CombinedPolicy, l1; by rewrite reload_network).
  unfold Dispatcher.Dispatcher.SetPolicyDecider. rewrite Ec. cbn [share Dispatcher.Dispatcher.d_policyDecider]. rewrite Hd.
  destruct (CombinedPolicy l) as [pd|] eqn:El; [|by destruct (l_network l) eqn:En; unfold CombinedPolicy in El; rewrite En in El].
  assert (Dispatcher.Dispatcher.same_type pd pd = true) as -> by by destruct pd. rewrite bind_Some_eq.
  set (d1 := {| Dispatcher.Dispatcher.d_tun := _ |}). destruct (IH l1 d1) as (l' & d' & E1 & E2 & E3 & E4); [by rewrite Ec|done|]. exists l', d'. split_and!; [exact E1|done..|congruence].
Qed.
End Sighup.

(** ** The sweep *)
Section Sweeping.
Context {M : Type -> Type} `{FMap M, forall A, Lookup string A (M A), forall A, Empty (M A),
  forall A, PartialAlter string A (M A), OMap M, Merge M, forall A, MapFold string A (M A), !FinMap string M}.
Import Registry.Registry Server.Server.
Implicit Types s : Server M.

(** Rows are only ever taken away by a tick, and never those of connected peers. *)
Lemma tick_rows io ttl now s : server_ok s -> 0 < ttl ->
  exists s' res, ExpelStalePeers io ttl now s = Some (s', res) /\ server_ok s' /\ connected s' = connected s /\
    (forall k p, peer_at (db (registry s')) k p -> peer_at (db (registry s)) k p) /\
    (forall k p, peer_at (db (registry s)) k p -> IsConnected s k = true -> peer_at (db (registry s')) k p) /\
    (io = true -> forall k p, peer_at (db (registry s')) k p -> IsConnected s k = true \/ unix (now - ttl) <= last_activity p).
Proof.
  intros Hs Ht. pose proof (wp_Expel io ttl now s Hs) as W. unfold wp in W. destruct (ExpelStalePeers io ttl now s) as [[s' res]|] eqn:EE; [|done]. destruct W as (Hs' & Ec & Hr).
  exists s', res. split; [done|]. split; [done|]. split; [done|]. pose proof (so_inv _ Hs) as I.
  destruct io.
  - destruct (sweep_outcome (registry s) ttl now (Some (IsConnected s)) I Ht) as (r' & rm & E2 & I' & _ & Hrm & Ep & _).
    assert (registry s' = r') as Er.
    { assert (server_ok (with_registry r' s)) as Hs1.
      { pose proof Hs as [_ K B]. split; [exact I'| |done]. intros k p Hp. apply K. unfold peer_at in *. cbn [registry with_registry] in Hp. rewrite Ep in Hp. by case_decide. }
      revert EE. unfold ExpelStalePeers. rewrite E2. unfold bind. pose proof (wp_expel_all rm _ Hs1) as Wx. unfold wp in Wx.
      destruct (expel_all rm (with_registry r' s)) as [[s1 res1]|]; [|done]. destruct Wx as (-> & _ & Eq & _). intros [= <- <-]. exact Eq. }
    rewrite Er. unfold peer_at. split; [|split].
    + intros k p. rewrite Ep. by case_decide.
    + intros k p Hk Hc. rewrite Ep. rewrite decide_False; [done|]. intros (q & Eq & Hq%Hrm)%list_elem_of_fmap. destruct Hq as (Hq & _ & Hsk). cbn in Hsk. congruence.
    + intros _ k p. rewrite Ep. case_decide as Hd; [done|]. intros Hk. destruct (IsConnected s k) eqn:Eco; [by left|]. right. destruct (Z.lt_ge_cases (last_activity p) (unix (now - ttl))) as [Hlt|]; [|done].
      exfalso. apply Hd. apply list_elem_of_fmap. destruct (ib_peer _ _ _ (proj1 I) Hk) as [Eid _]. exists p. split; [done|]. apply Hrm. rewrite Eid. split; [done|]. split; [done|]. cbn. by rewrite Eid.
  - assert (registry s' = registry s) as ->; [|by split_and!]. destruct Hr as [Hr|(rm & E3 & _)]; [done|]. unfold SweepStalePeers in E3. rewrite (proj2 (Z.leb_gt _ _)) in E3 by done.
    by destruct (write_cases false (sweep_tx (unix (now - ttl)) (Some (IsConnected s))) (registry s)) as [(d & a & ? & _)|(e' & E & _)]; [|rewrite E in E3].
Qed.

(** Once a tick was written, the peers that are left are connected or were active
    within the time to live before it; no connected peer is removed; and the loop
    cannot get stuck. *)
Theorem sweepLoop_exact ttl ticks s : server_ok s -> 0 < ttl ->
  exists s' logs, sweepLoop ttl ticks s = Some (s', logs) /\ server_ok s' /\
    (forall k p, peer_at (db (registry s)) k p -> IsConnected s k = true -> peer_at (db (registry s')) k p) /\
    (forall now k p, (true, now) ∈ ticks -> peer_at (db (registry s')) k p -> IsConnected s k = true \/ unix (now - ttl) <= last_activity p).
Proof.
  intros Hs Ht. cut (exists s' logs, sweepLoop ttl ticks s = Some (s', logs) /\ server_ok s' /\ (forall k p, peer_at (db (registry s')) k p -> peer_at (db (registry s)) k p) /\
    (forall k p, peer_at (db (registry s)) k p -> IsConnected s k = true -> peer_at (db (registry s')) k p) /\
    (forall now k p, (true, now) ∈ ticks -> peer_at (db (registry s')) k p -> IsConnected s k = true \/ unix (now - ttl) <= last_activity p)).
  { intros (s' & logs & ? & ? & _ & ? & ?). by exists s', logs. }
  revert s Hs. induction ticks as [|[io now] ticks IH]; intros s Hs; [exists s, []; split_and!; try done; by intros ??? ?%not_elem_of_nil|].
  destruct (tick_rows io ttl now s Hs Ht) as (s1 & r & E1 & Hs1 & Ec & Hsub & Hcon & Hold). assert (forall k, IsConnected s1 k = IsConnected s k) as Hic by (intros k; unfold IsConnected; by rewrite Ec).
  destruct (IH s1 Hs1) as (s' & logs & E2 & Hs' & Hsub' & Hcon' & Hold'). exists s'. eexists. cbn [sweepLoop]. rewrite E1, bind_Some_eq, E2, bind_Some_eq. split_and!; [done|done|eauto| |].
  - intros k p Hp Hc. apply Hcon'; [by apply Hcon|by rewrite Hic].
  - intros now' k p [[= <- <-]|Hin]%elem_of_cons Hp; [by apply Hold; [|apply Hsub']|]. rewrite <- Hic. by eapply Hold'.
Qed.
End Sweeping.

(** ** A code arrives as it is *)

(** How a server reads the parameter back ([url.QueryUnescape]). *)
Definition unhex (c : Z) : option Z :=
  if (48 <=? c) && (c <=? 57) then Some (c - 48) else if (65 <=? c) && (c <=? 70) then Some (c - 55) else if (97 <=? c) && (c <=? 102) then Some (c - 87) else None.
Fixpoint QueryUnescape (l : list Z) : option (list Z) :=
  match l with
  | [] => Some []
  | 37 :: a :: b :: l' => x ← unhex a; y ← unhex b; r ← QueryUnescape l'; Some (16 * x + y :: r)
  | 37 :: _ => None
  | 43 :: l' => r ← QueryUnescape l'; Some (32 :: r)
  | c :: l' => r ← QueryUnescape l'; Some (c :: r)
  end.

Lemma unhex_upperhex v : 0 <= v < 16 -> unhex (upperhex v) = Some v.
Proof.
  intros Hv. assert (forallb (fun v => bool_decide (unhex (upperhex v) = Some v)) (seqZ 0 16) = true) as Hall by (vm_compute; reflexivity).
  rewrite forallb_forall in Hall. eapply bool_decide_eq_true_1, Hall, list_elem_of_In, elem_of_seqZ. lia.
Qed.
Lemma unescape_plain c l : c <> 37 -> c <> 43 -> QueryUnescape (c :: l) = r ← QueryUnescape l; Some (c :: r).
Proof. intros H1 H2. destruct c as [|q|q]; [done| |done]. do 6 (destruct q as [q|q|]; try done). Qed.

Theorem QueryEscape_roundtrip l : bytes_ok l -> QueryUnescape (QueryEscape l) = Some l.
Proof.
  induction l as [|c l IH]; intros Hb; [done|]. apply Forall_cons in Hb as [Hc Hb]. specialize (IH Hb). change (QueryEscape (c :: l)) with (escape_byte c ++ QueryEscape l). unfold escape_byte.
  destruct (unreserved c) eqn:Eu; [|destruct (Z.eqb_spec c 32) as [->|]]; cbn [app].
  - rewrite unescape_plain; [by rewrite IH|intros ->; done..].
  - cbn [QueryUnescape]. by rewrite IH.
  - cbn [QueryUnescape]. unfold byte_ok in Hc. assert (0 <= Z.shiftr c 4 < 16) by (rewrite Z.shiftr_div_pow2 by lia; change (2 ^ 4) with 16; split; [apply Z.div_pos; lia|apply Z.div_lt_upper_bound; lia]).
    assert (Z.land c 15 = c mod 16) as El by (by change 15 with (Z.ones 4); rewrite Z.land_ones by lia). assert (0 <= c mod 16 < 16) by (apply Z.mod_pos_bound; lia).
    rewrite !unhex_upperhex, !bind_Some_eq, IH, bind_Some_eq by (rewrite ?El; lia). do 2 f_equal. rewrite El, Z.shiftr_div_pow2 by lia. change (2 ^ 4) with 16. pose proof (Z.div_mod c 16). lia.
Qed.

(** ** Queries *)
Lemma collectEntries_all sent : forall got, collectEntries got sent = got ++ sent.
Proof. induction sent as [|e sent IH]; intros got; cbn; [by rewrite app_nil_r|]. by rewrite IH, <- app_assoc. Qed.
(** Every entry the library sends is looked at, when the query is over. *)
Lemma browse_all selfID q : browse selfID q = Mdns.Mdns.handleCollected selfID (q_entries q) (q_sent q).
Proof. unfold browse. by rewrite collectEntries_all. Qed.

(** A STUN server that answers the request reports the address to the caller. *)
Theorem QuerySTUN_reports txID others ip port rest :
  length txID = 12%nat -> Forall NatSignal.Stun.other_attr others -> length ip = 4%nat -> 0 <= port < 65536 ->
  let attrs := concat (map (fun x => NatSignal.Stun.encode_attr x.1 x.2) others) ++ NatSignal.Stun.encode_attr 0x0020 (NatSignal.Stun.xor_value ip port) ++ rest in
  (20 + length attrs <= 512)%nat ->
  QuerySTUN {| i_resolve := true; i_listen := true; i_deadline := true; i_send := true; i_txID := txID;
               i_answer := fun req => Some (NatSignal.Stun.response (drop 8 req) attrs) |} = Ok {| ap_addr := AddrFrom4 ip; ap_port := port |}.
Proof.
  intros Htx Ho Hip Hp attrs Hl. unfold QuerySTUN. cbn [i_resolve i_listen i_deadline i_send i_txID i_answer negb].
  assert (Noise.Noise.array 12 txID = txID) as Ea.
  { unfold Noise.Noise.array. by rewrite take_app_length'. }
  assert (drop 8 (NatSignal.Stun.stun_request txID) = txID) as ->.
  { unfold NatSignal.Stun.stun_request. rewrite Ea, !app_assoc. apply drop_app_length'. by rewrite !length_app, !length_be_put. }
  rewrite Ea, take_ge.
  - pose proof (NatSignal.Stun.stun_reports_address txID others ip port rest Htx Ho Hip Hp) as E. cbv zeta in E. fold attrs in E. rewrite E by lia. done.
  - unfold NatSignal.Stun.response. rewrite !length_app, !length_be_put, Htx. lia.
Qed.

(** ** The relay's key *)

(** The key the relay prints, to provision it or when it serves, is the one with which
    a peer's configuration makes it the fallback. *)
Lemma relay_key_agrees `{Relay.NoiseChannel} verbose id cfg laddr key s :
  relay_main false verbose true (Ok id) = RServe key s -> relay_main true verbose true (Ok id) = RPrintKey key /\
  (bytes_ok (Noise.Noise.X25519Public id) -> length (Noise.Noise.X25519Public id) = 32%nat ->
   Config.Config.RelayX25519 (Config.Config.Coord cfg) = key -> Config.Config.RelayAddr (Config.Config.Coord cfg) <> ""%string ->
   exists target, Deploy.Deploy.relay_fallback cfg laddr = Some (Noise.Noise.X25519Public id, target)).
Proof.
  cbn. intros [= <- <-]. split; [done|]. intros Hb Hl Hk Hr. destruct (Deploy.Deploy.printed_key_configures id cfg laddr Hb Hl Hk Hr) as (t & E & _). by exists t.
Qed.
End Services.
